(* ===== verification/_CoqProject ===== *)
-Q . S2P
Prelude.v
Asn1.v
Spnego.v
Md4.v
Ndr.v
Smbacl.v
ConfText.v
Krb5.v
Logging.v
Getopt.v
Refcount.v
Users.v
Shares.v
Sessions.v
Config.v
Quic.v
ShareAdmin.v
ShareDialog.v
UserAdmin.v
Rpc.v
Srvsvc.v
Wkssvc.v
Handles.v
Samr.v
Lsarpc.v
Services.v
Ipc.v
Channel.v
Frame.v
HostLists.v
Worker.v
Loading.v
Programs.v
Daemon.v
Manager.v
Control.v
Ctl.v
Mains.v
