(* ===== verification/Prelude.v ===== *)
(** * ksmbd-tools: user space of the ksmbd SMB server

    ksmbd is an SMB server in the Linux kernel.  The programs of this repository
    are its user space: a daemon ([ksmbdctl start], [src/mountd]) that answers
    what the kernel asks (logins, shares, sessions, RPC pipes, security tokens)
    and the commands that edit the configuration and the database of passwords
    and control the daemon ([src/tools/ksmbdctl.c], [src/addshare],
    [src/adduser], [src/control]).  This library models them as
    functions on explicit states and proves what makes them correct.

    ** The parts and how they meet

    The kernel talks to the daemon over generic netlink ([Ipc], [Channel]).  Each message
    becomes a job of the worker ([Worker]), which finds the fields of the request
    in its octets and calls one component:
    - sessions and tree connections ([Sessions]), which look up users ([Users])
      and shares ([Shares]) and hold references to them ([Refcount]);
    - the pipes of DCE/RPC ([Rpc]) over the marshalling of NDR ([Ndr]), behind
      which are four services ([Srvsvc], [Wkssvc], [Samr], [Lsarpc], together in
      [Services]; [Handles] is what two of them share, [Smbacl] their security
      identifiers);
    - SPNEGO tokens ([Spnego] over [Asn1]) and their Kerberos mechanism ([Krb5]).
    Requests of QUIC clients are answered beside them ([Quic], [Channel]).
    Users, shares and global options come from files ([Config] over [ConfText],
    [HostLists]); [Loading] puts them in place for the daemon, and [Programs]
    for the commands.  [ShareAdmin], [ShareDialog] and [UserAdmin] (with [Md4])
    write those files.  [Daemon] is the worker process and [Manager] the one
    above it; [Control] signals them, and [Ctl] is the command line over all of
    this ([Getopt] its options).  [Logging] is how all of them report.

    ** Files

    - [Prelude]: integers, outcomes and the program monad, memory, heaps, text.
    - [Asn1]: [tools/asn1.c], the BER/DER decoder and encoder.
    - [Spnego]: [tools/management/spnego.c], token parser, reply, request.
    - [Md4]: [adduser/md4_hash.c].
    - [Ndr]: the first half of [mountd/rpc.c], and [ksmbd_gconvert] of [tools.c].
    - [Smbacl]: [mountd/smbacl.c].
    - [ConfText]: numbers, sizes, booleans and trimming of [config_parser.c].
    - [Krb5]: [tools/management/spnego_krb5.c], and the mechanisms of [spnego.c].
    - [Logging]: the messages of [tools/tools.c] and [include/tools.h].
    - [Getopt]: [getopt_long] in its two orders.
    - [Refcount]: the counting invariant that users and shares share.
    - [Users], [Shares], [Sessions]: [tools/management/user.c], [share.c],
      [session.c] and [tree_conn.c].
    - [Config]: [tools/config_parser.c]: ksmbd.conf, ksmbdpwd.db, the
      sub-authorities and the lock file.
    - [Quic]: [mountd/quic_picotls.c], and what it uses of picotls' encoders.
    - [ShareAdmin], [ShareDialog]: [addshare/share_admin.c], the commands and the
      dialogue; [UserAdmin]: [adduser/user_admin.c].
    - [Rpc]: the second half of [mountd/rpc.c]: pipes, headers, binding, calls.
    - [Srvsvc], [Wkssvc], [Samr], [Lsarpc]: [mountd/rpc_*.c], one file each;
      [Handles] is what the last two share.
    - [Services]: the four as the table of interfaces of [rpc.c].
    - [Ipc], [Channel]: [mountd/ipc.c]: its messages, and its sockets.
    - [Frame], [HostLists]: what the programs of sessions and of shares leave
      alone.
    - [Worker]: [mountd/worker.c].
    - [Loading], [Programs]: [load_config] and [remove_config] of [tools.c], for
      the daemon and for the other programs.
    - [Daemon], [Manager]: [mountd/mountd.c], the worker and the manager.
    - [Control]: [control/control.c].
    - [Ctl]: [tools/ksmbdctl.c] and [tools/main.c].
    - [Mains]: [addshare_main], [adduser_main] and [control_main], the programs
      that [main] no longer starts.

    ** How the code is represented

    A C function is a [prog S A]: from a state [S] it ends in [Done] with a
    result, in [Err] with an error code that the caller sees, or in [Fault].
    [Fault] is what C leaves undefined: an access outside a buffer, a use of
    freed memory, a second [free], NULL followed, a signed overflow.  A theorem
    [wp m ...] or [safe m ...] says that no [Fault] is reached, besides what it
    says of the result.  Integers are [Z] with the wrap of their width written
    out ([u8] ... [u64], [s32]); buffers are lists of octets of a fixed length;
    objects that are shared or counted live on a [heap] and are referred to by
    their address, so that aliasing and lifetimes are visible; the members of a
    union are views of the same words ([Rpc]).  Definitions are executable and
    the witnesses evaluate them.

    Code that is not in the repository is a parameter: the functions of GLib
    ([GLib]: case folding, UTF-8, conversion, order of a hash table, sorting),
    the system's data bases and random numbers ([System]), memory that may run
    out ([Allocator]), libnl ([Libnl], [Netlink]), the Kerberos library
    ([Kerberos]), picotls and OpenSSL ([Ptls]), the machine with its lock file,
    processes and files of sysfs ([Machine]), what the user types, what signals
    arrive and what system calls return.  The hypotheses on them are documented
    behaviour (a table's keys come in some order; sorting permutes; base64 is
    printable), and a witness gives each an instance.

    ** What the theorems show

    - The daemon as a whole: the worker, from the loading of its files on,
      through messages of the kernel, requests of QUIC clients, signals and
      reloads in any order, does not fault and keeps users, shares, sessions and
      pipes consistent ([Daemon.worker_runs]).  This is under conditions that
      the theorem names: messages are [Worker.tame] (tokens the parser survives;
      calls of one lawful pipe interface that open, close and write), the files
      have no hosts lists, small allocations succeed, and each message is served
      as one step.  What lies outside is where the code fails: reads,
      transactions and queries ([Worker.reads_are_queries]), tokens
      ([Spnego.decode_negTokenInit_safe]), pipes with hosts lists
      ([Srvsvc.rpc_crashes]).  Under the same conditions requests are answered
      once, with their handle ([Worker.requests_answered]).  The manager ends or
      starts the worker anew in the way its end asks for
      ([Manager.manager_decides]); a listing goes to the terminal through three
      processes, as far as a pipe that does not block takes it
      ([Control.listing_printed]).
    - The commands: an edit of a share, from the command line to the file that
      the daemon will read ([Ctl.share_edit_end_to_end]); what is printed
      ([Ctl.printing_commands]); on disks where a file that is missing is not
      one that is empty, as a load may create ksmbd.conf; the dialogue ([ShareDialog.dialog_safe],
      [ShareDialog.enters_commit]).
    - Lifetimes: reference counts are exactly the references held, across
      operations in any order ([Users.users_refcounts],
      [Shares.shares_refcounts], [Sessions.requests_keep_sessions],
      [Srvsvc.srvsvc_pipes_safe], [Lsarpc.lookups_accounted]).  Where the code
      loses a reference the theorem counts it: one to a user for a tree connect
      of a session that exists ([session.c:120]), those of an enumeration that a
      bind interrupted.  The counters are [Z]; as they equal these numbers, an
      [int] overflows only with 2^31 references held or lost.  The objects of
      the Kerberos library are freed on every path but two, on which the code is
      shown to fault ([Krb5.krb5_authen_accounts]).
    - Access: what a granted tree connect implies
      ([Sessions.tree_connect_access]), logins, CIDR patterns.
    - Codecs: bounds and round trips of ASN.1, NDR, security identifiers and
      descriptors, MD4 against RFC 1320, SPNEGO.
    - Tokens: the parser reads the tokens of RFC 4178 in DER
      ([Spnego.decode_negTokenInit_reads]), and on any other octets faults in
      two cases and in no other ([Spnego.decode_negTokenInit_safe]).
    - Refinement: SAMR against an abstract table of handles, the administration
      programs against the edit of one user or one share of the file they write.
    - Files: the parsers end on every content, and leave well-formed groups and
      options within their bounds.
    - Errors: sequences of requests or inputs on which the code faults, loses
      data or passes a limit, each a theorem ([Sessions.connection_limits_bypassed]
      and [Worker.reads_are_queries] for every state, others with the input in
      them).

    ** Bounds and fuel

    Loops that consume a list recurse on it.  The others take fuel that the
    theorems show to be enough: one more than the length of the text for the
    loops over a file or an ASN.1 buffer ([parse_loop], [loop_fuel]), the length
    of the data for MD4, two rounds for a character conversion (the second name
    of a code set) and for a tree connect that finds its session created by
    another thread, ten and nineteen digits for 32- and 64-bit numbers, two turns
    for each octet typed in the dialogue and forty-five for a walk over its
    thirty-nine parameters, one more than the arguments for a scan of options.

    ** Not modelled

    The creation of threads, tables and locks ([usm_init], [shm_init], ...): locks
    are not represented, an operation runs under the lock that the code takes,
    except a tree connect, which is cut where it gives the lock up; and a
    message is served as one step, so that of the threads of the pool
    ([worker.c:443]) the order in which they serve is modelled and not how they
    interleave within two messages.  The code for Heimdal in
    [spnego_krb5.c], which is compiled for that library only; the dump of
    messages in hexadecimal, which is compiled out; the hash functions of the
    tables of handles, which are maps; the texts of usage messages.  picotls is
    vendored third-party code: its handshake and key derivation are a parameter
    ([Ptls]) with the laws that its headers document, and only the encoders that
    the daemon's own code uses are modelled. *)

From stdpp Require Export base list gmap sets strings.
From Stdlib Require Export ZArith Lia.
From Stdlib Require Import Btauto.

Set Default Goal Selector "!".

Declare Scope ksmbd_scope.
Delimit Scope ksmbd_scope with ksmbd.
Global Open Scope Z_scope.

(** ** Machine integers

    A [w]-bit unsigned C integer is a [Z] in [0, 2^w); arithmetic is done in
    [Z] and wrapped where the C type wraps. *)
Module Word.

Definition wrap (w x : Z) : Z := x mod 2 ^ w.
Definition u8 (x : Z) : Z := wrap 8 x.
Definition u16 (x : Z) : Z := wrap 16 x.
Definition u32 (x : Z) : Z := wrap 32 x.
Definition u64 (x : Z) : Z := wrap 64 x.
(** Conversion of an unsigned value to the [w]-bit two's complement type. *)
Definition signed (w x : Z) : Z := wrap w (x + 2 ^ (w - 1)) - 2 ^ (w - 1).
Definition s16 (x : Z) : Z := signed 16 x.
Definition s32 (x : Z) : Z := signed 32 x.

(** A flag word and a mask share a bit: [!!(flags & bit)]. *)
Definition test_flag (flags bit : Z) : bool := negb (Z.land flags bit =? 0).
Definition set_flag (flags bit : Z) : Z := Z.lor flags bit.
Definition clear_flag (flags bit : Z) : Z := Z.ldiff flags bit.
Definition BIT (n : Z) : Z := Z.shiftl 1 n.

Definition is_byte (b : Z) : Prop := 0 ≤ b < 256.
#[global] Instance is_byte_dec b : Decision (is_byte b).
Proof. unfold is_byte; apply _. Defined.

End Word.
Export Word.

(** A byte string: each element is an octet. *)
Abbreviation bytes := (list Z).
Abbreviation is_bytes := (Forall is_byte).

(** The octets of a Rocq string, used for the string constants of the source. *)
Definition str (s : string) : bytes :=
  (λ a, Z.of_N (Ascii.N_of_ascii a)) <$> String.list_ascii_of_string s.

(** ** Error numbers *)
Definition ENOENT : Z := 2.
Definition EAGAIN : Z := 11.
Definition ENOMEM : Z := 12.
Definition EPERM : Z := 1.
Definition EEXIST : Z := 17.
Definition EINVAL : Z := 22.
Definition ENOSPC : Z := 28.
Definition EOVERFLOW : Z := 75.
Definition ENOTSUP : Z := 95.

(** ** Outcomes

    [Done a s]: the C function succeeded with [a]; [Err e s]: it returned the
    error value [e], leaving the state [s]; [Fault]: it performed an access
    that C leaves undefined (a read or write outside an object, a dereference
    of NULL or of freed memory). *)
Inductive outcome (S A : Type) : Type :=
  | Done (a : A) (s : S)
  | Err (e : Z) (s : S)
  | Fault.
Arguments Done {S A} a s.
Arguments Err {S A} e s.
Arguments Fault {S A}.

Definition prog (S A : Type) : Type := S → outcome S A.

Section Prog.
Context {S : Type}.

Definition ret {A} (a : A) : prog S A := λ s, Done a s.
Definition fail {A} (e : Z) : prog S A := λ s, Err e s.
Definition fault {A} : prog S A := λ _, Fault.
Definition bind {A B} (m : prog S A) (k : A → prog S B) : prog S B := λ s,
  match m s with
  | Done a s' => k a s'
  | Err e s' => Err e s'
  | Fault => Fault
  end.
Definition get : prog S S := λ s, Done s s.
Definition gets {A} (f : S → A) : prog S A := λ s, Done (f s) s.
Definition modify (f : S → S) : prog S unit := λ s, Done tt (f s).
Definition assert_ (b : bool) (e : Z) : prog S unit :=
  if b then ret tt else fail e.
(** [if (f(...)) return e;] : any failure of [m] becomes the error [e]. *)
Definition or_return {A} (m : prog S A) (e : Z) : prog S A := λ s,
  match m s with
  | Err _ s' => Err e s'
  | r => r
  end.
(** The caller looks at the returned code and goes on. *)
Definition attempt {A} (m : prog S A) : prog S (A + Z) := λ s,
  match m s with
  | Done a s' => Done (inl a) s'
  | Err e s' => Done (inr e) s'
  | Fault => Fault
  end.
(** A statement executed for its effect, its result ignored. *)
Definition ignore {A} (m : prog S A) : prog S unit :=
  bind (attempt m) (λ _, ret tt).
Definition lift_option {A} (o : option A) : prog S A :=
  match o with Some a => ret a | None => fault end.

(** Weakest precondition: the program does not fault, and the normal and
    the error outcomes satisfy their postconditions. *)
Definition wp {A} (m : prog S A) (s : S)
    (Q : A → S → Prop) (E : Z → S → Prop) : Prop :=
  match m s with
  | Done a s' => Q a s'
  | Err e s' => E e s'
  | Fault => False
  end.

Lemma wp_ret {A} (a : A) s Q E : Q a s → wp (ret a) s Q E.
Proof. done. Qed.
Lemma wp_fail {A} e s (Q : A → S → Prop) E : E e s → wp (fail e) s Q E.
Proof. done. Qed.
Lemma wp_bind {A B} (m : prog S A) (k : A → prog S B) s Q E :
  wp m s (λ a s', wp (k a) s' Q E) E → wp (bind m k) s Q E.
Proof. unfold wp, bind. by destruct (m s). Qed.
Lemma wp_mono {A} (m : prog S A) s (Q Q' : A → S → Prop) (E E' : Z → S → Prop) :
  wp m s Q E → (∀ a s', Q a s' → Q' a s') → (∀ e s', E e s' → E' e s') →
  wp m s Q' E'.
Proof. unfold wp. destruct (m s); naive_solver. Qed.
Lemma wp_get s Q E : Q s s → wp get s Q E.
Proof. done. Qed.
Lemma wp_gets {A} (f : S → A) s Q E : Q (f s) s → wp (gets f) s Q E.
Proof. done. Qed.
Lemma wp_modify f s Q E : Q tt (f s) → wp (modify f) s Q E.
Proof. done. Qed.
Lemma wp_assert b e s Q E :
  (b = true → Q tt s) → (b = false → E e s) → wp (assert_ b e) s Q E.
Proof. destruct b; cbv; naive_solver. Qed.
Lemma wp_or_return {A} (m : prog S A) e s Q E :
  wp m s Q (λ _ s', E e s') → wp (or_return m e) s Q E.
Proof. unfold wp, or_return. by destruct (m s). Qed.
Lemma wp_attempt {A} (m : prog S A) s Q E :
  wp m s (λ a s', Q (inl a) s') (λ e s', Q (inr e) s') → wp (attempt m) s Q E.
Proof. unfold wp, attempt. by destruct (m s). Qed.
Lemma wp_ignore {A} (m : prog S A) s Q E :
  wp m s (λ _ s', Q tt s') (λ _ s', Q tt s') → wp (ignore m) s Q E.
Proof. unfold wp, ignore, bind, attempt, ret. by destruct (m s). Qed.

(** Two postconditions at once *)
Lemma wp_both {A} (m : prog S A) s Q Q' E E' :
  wp m s Q E → wp m s Q' E' → wp m s (λ a s', Q a s' ∧ Q' a s') (λ e s', E e s' ∧ E' e s').
Proof. unfold wp. by destruct (m s). Qed.

(** Associativity of sequencing, one statement at a time. *)
Lemma bind_assoc_step {A B C} (m : prog S A) (f : A → prog S C) (g : A → prog S B) k s :
  (∀ a s', f a s' = bind (g a) k s') → bind m f s = bind (bind m g) k s.
Proof. intros H. unfold bind at 1 2 3. by destruct (m s). Qed.

(** A program that satisfies a weakest precondition does not fault. *)
Lemma wp_no_fault {A} (m : prog S A) s Q E : wp m s Q E → m s ≠ Fault.
Proof. unfold wp. intros H E'. by rewrite E' in H. Qed.
Lemma wp_Done {A} (m : prog S A) s Q E a s' :
  wp m s Q E → m s = Done a s' → Q a s'.
Proof. unfold wp. intros H E'. by rewrite E' in H. Qed.
Lemma wp_Err {A} (m : prog S A) s Q E e s' :
  wp m s Q E → m s = Err e s' → E e s'.
Proof. unfold wp. intros H E'. by rewrite E' in H. Qed.
Lemma wp_run {A} (m : prog S A) s a s' (Q : A → S → Prop) E :
  m s = Done a s' → Q a s' → wp m s Q E.
Proof. unfold wp. by intros ->. Qed.
End Prog.

Notation "x <- m ;; k" := (bind m (λ x, k))
  (at level 100, m at next level, k at level 200, right associativity) : ksmbd_scope.
Notation "m ;; k" := (bind m (λ _, k))
  (at level 100, k at level 200, right associativity) : ksmbd_scope.
Notation "'let*' p ':=' m 'in' k" := (bind m (λ x, match x with p => k end))
  (at level 10, p pattern, m at level 200, k at level 200) : ksmbd_scope.
Notation "m 'else_return' e" := (or_return m e)
  (at level 65, e at next level) : ksmbd_scope.
Global Open Scope ksmbd_scope.

(** ** The allocator

    GLib's [g_try_malloc] family returns memory or NULL; whether a request of
    so many bytes succeeds is decided by the environment. *)
Class Allocator := {
  g_try_malloc : Z → bool;
  g_try_realloc : Z → bool;
}.
(** An environment in which memory never runs out. *)
Definition plenty : Allocator := {| g_try_malloc _ := true; g_try_realloc _ := true |}.

(** ** Automation

    [step] peels one statement off a weakest-precondition goal; [wps] runs it
    to the end and leaves the pure side conditions. *)
Create HintDb ksmbd.

Ltac wp_step :=
  match goal with
  | |- wp (bind _ _) _ _ _ => apply wp_bind
  | |- wp (ret _) _ _ _ => apply wp_ret
  | |- wp (fail _) _ _ _ => apply wp_fail
  | |- wp (gets _) _ _ _ => apply wp_gets
  | |- wp get _ _ _ => apply wp_get
  | |- wp (modify _) _ _ _ => apply wp_modify
  | |- wp (assert_ _ _) _ _ _ => apply wp_assert; intros ?
  | |- wp (or_return _ _) _ _ _ => apply wp_or_return
  | |- wp (attempt _) _ _ _ => apply wp_attempt
  | |- wp (ignore _) _ _ _ => apply wp_ignore
  | |- wp (if ?b then _ else _) _ _ _ => destruct b eqn:?
  | |- wp (match ?x with _ => _ end) _ _ _ => destruct x eqn:?
  end.
Ltac wps := repeat (wp_step; simpl).
(** [wp_by t]: close the program by the specification that [t] proves, and
    weaken its postconditions. *)
Tactic Notation "wp_by" tactic3(t) :=
  eapply wp_mono; [solve [t]|cbv beta|cbv beta].

(** Turn boolean comparisons in the context into propositions. *)
Ltac zbool :=
  repeat match goal with
  | H : (_ =? _) = true |- _ => apply Z.eqb_eq in H
  | H : (_ =? _) = false |- _ => apply Z.eqb_neq in H
  | H : (_ <? _) = true |- _ => apply Z.ltb_lt in H
  | H : (_ <? _) = false |- _ => apply Z.ltb_ge in H
  | H : (_ <=? _) = true |- _ => apply Z.leb_le in H
  | H : (_ <=? _) = false |- _ => apply Z.leb_gt in H
  | H : _ && _ = true |- _ => apply andb_true_iff in H; destruct H
  | H : _ || _ = false |- _ => apply orb_false_iff in H; destruct H
  | H : negb _ = true |- _ => apply negb_true_iff in H
  | H : negb _ = false |- _ => apply negb_false_iff in H
  end.

(** Rewrite the comparisons of the goal whose truth [lia] can decide. *)
Ltac zdecide :=
  repeat match goal with
  | |- context [?a =? ?b] =>
      first [rewrite (proj2 (Z.eqb_eq a b)) by lia
            |rewrite (proj2 (Z.eqb_neq a b)) by lia]
  | |- context [?a <? ?b] =>
      first [rewrite (proj2 (Z.ltb_lt a b)) by lia
            |rewrite (proj2 (Z.ltb_ge a b)) by lia]
  | |- context [?a <=? ?b] =>
      first [rewrite (proj2 (Z.leb_le a b)) by lia
            |rewrite (proj2 (Z.leb_gt a b)) by lia]
  end.

(** ** Facts on machine integers *)
Lemma wrap_range w x : 0 ≤ w → 0 ≤ wrap w x < 2 ^ w.
Proof. intros. unfold wrap. apply Z.mod_pos_bound, Z.pow_pos_nonneg; lia. Qed.
Lemma wrap_small w x : 0 ≤ x < 2 ^ w → wrap w x = x.
Proof. apply Z.mod_small. Qed.
Lemma u8_byte x : is_byte (u8 x).
Proof. apply (wrap_range 8). lia. Qed.
Lemma u8_small x : is_byte x → u8 x = x.
Proof. apply (wrap_small 8). Qed.
Lemma u32_small x : 0 ≤ x < 2 ^ 32 → u32 x = x.
Proof. apply wrap_small. Qed.
Lemma u32_range x : 0 ≤ u32 x < 2 ^ 32.
Proof. by apply wrap_range. Qed.
Lemma u64_small x : 0 ≤ x < 2 ^ 64 → u64 x = x.
Proof. apply wrap_small. Qed.
Lemma u64_range x : 0 ≤ u64 x < 2 ^ 64.
Proof. by apply wrap_range. Qed.
Lemma u16_range x : 0 ≤ u16 x < 2 ^ 16.
Proof. by apply wrap_range. Qed.
(** Values of a C [int] that is not negative. *)
Lemma s32_small x : 0 ≤ x < 2 ^ 31 → s32 x = x.
Proof. intros H. unfold s32, signed. rewrite wrap_small by lia. lia. Qed.

(** Masks of the form [2^n - 1] are remainders. *)
Lemma land_mask x n : 0 ≤ n → Z.land x (2 ^ n - 1) = x mod 2 ^ n.
Proof. intros. rewrite <-Z.land_ones, Z.ones_equiv, <-Z.sub_1_r by lia. done. Qed.
Lemma land_1 x : Z.land x 0x1 = x mod 2.
Proof. exact (land_mask x 1 ltac:(lia)). Qed.
Lemma land_3 x : Z.land x 0x3 = x mod 4.
Proof. exact (land_mask x 2 ltac:(lia)). Qed.
Lemma land_1F x : Z.land x 0x1F = x mod 32.
Proof. exact (land_mask x 5 ltac:(lia)). Qed.
Lemma land_7F x : Z.land x 0x7F = x mod 128.
Proof. exact (land_mask x 7 ltac:(lia)). Qed.
Lemma land_FF x : Z.land x 0xFF = x mod 256.
Proof. exact (land_mask x 8 ltac:(lia)). Qed.
Lemma shiftr_div x n : 0 ≤ n → Z.shiftr x n = x / 2 ^ n.
Proof. apply Z.shiftr_div_pow2. Qed.
Lemma shiftl_mul x n : 0 ≤ n → Z.shiftl x n = x * 2 ^ n.
Proof. apply Z.shiftl_mul_pow2. Qed.
(** An or with a value below the lowest set bit is an addition. *)
Lemma lor_add x y n : 0 ≤ n → 0 ≤ y < 2 ^ n → Z.lor (x * 2 ^ n) y = x * 2 ^ n + y.
Proof.
  intros Hn Hy.
  assert (Z.land (x * 2 ^ n) y = 0) as Hd.
  { apply Z.bits_inj'. intros i Hi. rewrite Z.land_spec, Z.bits_0.
    destruct (decide (i < n)).
    - rewrite Z.mul_pow2_bits_low by lia. done.
    - assert (y mod 2 ^ n = y) as <- by (apply Z.mod_small; lia).
      rewrite Z.mod_pow2_bits_high by lia. apply andb_false_r. }
  rewrite <-Z.lxor_lor by done. symmetry. by apply Z.add_nocarry_lxor.
Qed.

(** Setting, clearing and testing of flag bits. *)
Lemma land_pow2_testbit x n :
  0 ≤ n → Z.land x (2 ^ n) = if Z.testbit x n then 2 ^ n else 0.
Proof.
  intros. apply Z.bits_inj'. intros i Hi.
  rewrite Z.land_spec, Z.pow2_bits_eqb by lia.
  destruct (Z.eqb_spec n i) as [->|Hne].
  - destruct (Z.testbit x i); rewrite ?Z.bits_0, ?Z.pow2_bits_true; lia || done.
  - rewrite andb_false_r. destruct (Z.testbit x n); [|by rewrite Z.bits_0].
    by rewrite Z.pow2_bits_false.
Qed.
Lemma test_flag_BIT x n : 0 ≤ n → test_flag x (BIT n) = Z.testbit x n.
Proof.
  intros. unfold test_flag, BIT. rewrite Z.shiftl_1_l, land_pow2_testbit by lia.
  destruct (Z.testbit x n); [|done].
  destruct (Z.eqb_spec (2 ^ n) 0); [lia|done].
Qed.
Lemma testbit_set_flag x n m :
  0 ≤ n → 0 ≤ m → Z.testbit (set_flag x (BIT n)) m = (Z.testbit x m || (n =? m)).
Proof.
  intros. unfold set_flag, BIT.
  by rewrite Z.shiftl_1_l, Z.lor_spec, Z.pow2_bits_eqb by lia.
Qed.
Lemma testbit_clear_flag x n m :
  0 ≤ n → 0 ≤ m → Z.testbit (clear_flag x (BIT n)) m = (Z.testbit x m && negb (n =? m)).
Proof.
  intros. unfold clear_flag, BIT.
  by rewrite Z.shiftl_1_l, Z.ldiff_spec, Z.pow2_bits_eqb by lia.
Qed.
(** Another flag is not changed. *)
Lemma test_set_other x n m : 0 ≤ n → 0 ≤ m → n ≠ m → test_flag (set_flag x (BIT n)) (BIT m) = test_flag x (BIT m).
Proof. intros. rewrite !test_flag_BIT, testbit_set_flag by done. by rewrite (proj2 (Z.eqb_neq n m)), orb_false_r. Qed.
Lemma test_clear_other x n m :
  0 ≤ n → 0 ≤ m → n ≠ m → test_flag (clear_flag x (BIT n)) (BIT m) = test_flag x (BIT m).
Proof. intros. rewrite !test_flag_BIT, testbit_clear_flag by done. by rewrite (proj2 (Z.eqb_neq n m)), andb_true_r. Qed.
Lemma test_set_same x n : 0 ≤ n → test_flag (set_flag x (BIT n)) (BIT n) = true.
Proof. intros. rewrite test_flag_BIT, testbit_set_flag by done. by rewrite Z.eqb_refl, orb_true_r. Qed.
Lemma test_clear_same x n : 0 ≤ n → test_flag (clear_flag x (BIT n)) (BIT n) = false.
Proof. intros. rewrite test_flag_BIT, testbit_clear_flag by done. by rewrite Z.eqb_refl, andb_false_r. Qed.

(** ** Octet encodings of integers *)
Fixpoint le_bytes (n : nat) (x : Z) : bytes :=
  match n with O => [] | S n => x mod 256 :: le_bytes n (x / 256) end.
Fixpoint le_val (l : bytes) : Z :=
  match l with [] => 0 | b :: l => b + 256 * le_val l end.
Definition be_bytes (n : nat) (x : Z) : bytes := reverse (le_bytes n x).
Definition be_val (l : bytes) : Z := le_val (reverse l).

Lemma length_le_bytes n x : length (le_bytes n x) = n.
Proof. revert x; induction n; intros; simpl; auto. Qed.
Lemma le_bytes_bytes n x : is_bytes (le_bytes n x).
Proof.
  revert x; induction n; intros x; simpl; constructor; [|done].
  apply Z.mod_pos_bound. lia.
Qed.
Lemma le_val_bytes n x : le_val (le_bytes n x) = x mod 2 ^ (8 * Z.of_nat n).
Proof.
  revert x; induction n as [|n IH]; intros x; simpl le_bytes; simpl le_val.
  { by rewrite Z.mod_1_r. }
  rewrite IH. replace (8 * Z.of_nat (S n)) with (8 + 8 * Z.of_nat n) by lia.
  rewrite Z.pow_add_r by lia. change (2 ^ 8) with 256.
  rewrite Z.rem_mul_r by lia. done.
Qed.
Lemma le_val_range l : is_bytes l → 0 ≤ le_val l < 2 ^ (8 * Z.of_nat (length l)).
Proof.
  induction 1 as [|b l Hb _ IH]; simpl length; simpl le_val; [done|].
  replace (8 * Z.of_nat (S (length l))) with (8 + 8 * Z.of_nat (length l)) by lia.
  rewrite Z.pow_add_r by lia. unfold is_byte in Hb. lia.
Qed.
Lemma le_bytes_val l : is_bytes l → le_bytes (length l) (le_val l) = l.
Proof.
  induction 1 as [|b l Hb _ IH]; simpl; [done|]. unfold is_byte in Hb. f_equal.
  - rewrite (Z.mul_comm 256), Z.mod_add by lia. apply Z.mod_small. lia.
  - rewrite (Z.mul_comm 256), Z.div_add, Z.div_small, Z.add_0_l by lia. done.
Qed.
Lemma length_be_bytes n x : length (be_bytes n x) = n.
Proof. unfold be_bytes. by rewrite length_reverse, length_le_bytes. Qed.
Lemma be_val_bytes n x : be_val (be_bytes n x) = x mod 2 ^ (8 * Z.of_nat n).
Proof. unfold be_val, be_bytes. by rewrite reverse_involutive, le_val_bytes. Qed.
#[export] Hint Rewrite length_le_bytes length_be_bytes : ksmbd.

(** ** Memory blocks

    [mem_write off src buf] is [memcpy(buf + off, src, length src)] for a copy
    that stays in the block; [mem_read off n buf] the [n] octets at [off]. *)
Definition mem_write (off : nat) (src buf : bytes) : bytes :=
  take off buf ++ src ++ drop (off + length src) buf.
Definition mem_read (off n : nat) (buf : bytes) : bytes := take n (drop off buf).

Lemma length_mem_write off src buf :
  (off + length src ≤ length buf)%nat → length (mem_write off src buf) = length buf.
Proof.
  intros. unfold mem_write. rewrite !length_app, length_take, length_drop. lia.
Qed.
Lemma length_mem_read off n buf :
  (off + n ≤ length buf)%nat → length (mem_read off n buf) = n.
Proof. intros. unfold mem_read. rewrite length_take, length_drop. lia. Qed.
Lemma mem_read_write off src buf :
  (off + length src ≤ length buf)%nat →
  mem_read off (length src) (mem_write off src buf) = src.
Proof.
  intros. unfold mem_read, mem_write.
  rewrite drop_app_length' by (rewrite length_take; lia).
  by rewrite take_app_length.
Qed.
(** Octets outside the copied range are kept. *)
Lemma mem_read_write_before off src buf o n :
  (off + length src ≤ length buf)%nat → (o + n ≤ off)%nat →
  mem_read o n (mem_write off src buf) = mem_read o n buf.
Proof.
  intros. unfold mem_read, mem_write.
  rewrite drop_app_le by (rewrite length_take; lia).
  rewrite take_app_le by (rewrite length_drop, length_take; lia).
  rewrite skipn_firstn_comm, take_take. f_equal. lia.
Qed.
Lemma mem_read_write_after off src buf o n :
  (off + length src ≤ length buf)%nat → (off + length src ≤ o)%nat →
  mem_read o n (mem_write off src buf) = mem_read o n buf.
Proof.
  intros. unfold mem_read, mem_write. f_equal. rewrite app_assoc.
  rewrite drop_app_ge by (rewrite length_app, length_take; lia).
  rewrite drop_drop, length_app, length_take. f_equal. lia.
Qed.
Lemma take_mem_write off src buf :
  (off + length src ≤ length buf)%nat →
  take (off + length src) (mem_write off src buf) = take off buf ++ src.
Proof.
  intros. unfold mem_write. rewrite app_assoc, take_app_length'; [done|].
  rewrite length_app, length_take. lia.
Qed.
Lemma is_bytes_mem_write off src buf :
  is_bytes src → is_bytes buf → is_bytes (mem_write off src buf).
Proof.
  intros. unfold mem_write.
  apply Forall_app; split; [by apply Forall_take|].
  apply Forall_app; split; [done|by apply Forall_drop].
Qed.

(** Two adjacent copies are one copy; a copy inside a copied range replaces
    the octets there. *)
Lemma mem_write_app off l k buf :
  (off + length l ≤ length buf)%nat →
  mem_write (off + length l) k (mem_write off l buf) = mem_write off (l ++ k) buf.
Proof.
  intros H. unfold mem_write at 1. rewrite take_mem_write by done.
  unfold mem_write. rewrite <-!app_assoc. do 3 f_equal.
  rewrite (app_assoc (take off buf)), drop_app_ge; rewrite length_app, length_take, Nat.min_l by lia; [|lia].
  rewrite drop_drop, length_app. f_equal. lia.
Qed.
Lemma mem_write_inside off l1 l2 l2' l3 buf :
  (off + length (l1 ++ l2 ++ l3) ≤ length buf)%nat → length l2' = length l2 →
  mem_write (off + length l1) l2' (mem_write off (l1 ++ l2 ++ l3) buf) =
  mem_write off (l1 ++ l2' ++ l3) buf.
Proof.
  intros H Hl. rewrite !length_app in H. unfold mem_write. rewrite !length_app, Hl.
  set (D := drop _ buf). set (P := take off buf ++ l1).
  assert (length P = (off + length l1)%nat) as HP.
  { unfold P. rewrite length_app, length_take. lia. }
  replace (take off buf ++ (l1 ++ l2 ++ l3) ++ D) with (P ++ l2 ++ l3 ++ D)
    by (unfold P; by rewrite <-!app_assoc).
  rewrite take_app_length' by lia.
  rewrite <-drop_drop, drop_app_length', drop_app_length by lia.
  unfold P. by rewrite <-!app_assoc.
Qed.
Lemma mem_write_read off n buf :
  (off + n ≤ length buf)%nat → mem_write off (mem_read off n buf) buf = buf.
Proof.
  intros H. unfold mem_write. rewrite length_mem_read by done. unfold mem_read.
  rewrite <-drop_drop. by rewrite !take_drop.
Qed.

(** ** C strings

    [cstr a]: the string stored in the array [a], that is its octets up to
    the first NUL; [strnlen a n] its length, at most [n]. *)
Fixpoint cstr (a : bytes) : bytes :=
  match a with [] => [] | c :: a => if c =? 0 then [] else c :: cstr a end.
Definition strnlen (a : bytes) (n : Z) : Z := Z.min (Z.of_nat (length (cstr a))) n.
(** The array holds a terminated string of less than [n] octets. *)
Definition terminated (a : bytes) (n : Z) : bool := strnlen a n <? n.

Lemma cstr_app_nul s t : Forall (λ c, c ≠ 0) s → cstr (s ++ 0 :: t) = s.
Proof.
  induction 1 as [|c s Hc _ IH]; [done|]. cbn. by rewrite (proj2 (Z.eqb_neq c 0)), IH by done.
Qed.

Lemma cstr_nonzero s : Forall (λ c, c ≠ 0) s → cstr s = s.
Proof. induction 1 as [|c s Hc _ IH]; [done|]. cbn. by rewrite (proj2 (Z.eqb_neq c 0)), IH by done. Qed.

(** ** Objects on the heap

    A component keeps its objects in a finite map from addresses; addresses
    are handed out once, so that an access through a stale pointer finds no
    object and is a [Fault]. *)
Section Heap.
Context {S O : Type} (heap : S → gmap Z O) (set_heap : gmap Z O → S → S).

Definition load (p : Z) : prog S O := λ s,
  match heap s !! p with Some o => Done o s | None => Fault end.
Definition store (p : Z) (o : O) : prog S unit := λ s,
  match heap s !! p with Some _ => Done tt (set_heap (<[p := o]> (heap s)) s) | None => Fault end.
(** [g_free] of an object: freeing twice is undefined. *)
Definition release (p : Z) : prog S unit := λ s,
  match heap s !! p with Some _ => Done tt (set_heap (delete p (heap s)) s) | None => Fault end.

Lemma wp_load p s o Q E : heap s !! p = Some o → Q o s → wp (load p) s Q E.
Proof. intros H HQ. unfold wp, load. by rewrite H. Qed.
Lemma wp_store p o' s o Q E :
  heap s !! p = Some o → Q tt (set_heap (<[p := o']> (heap s)) s) → wp (store p o') s Q E.
Proof. intros H HQ. unfold wp, store. by rewrite H. Qed.
Lemma wp_release p s o Q E :
  heap s !! p = Some o → Q tt (set_heap (delete p (heap s)) s) → wp (release p) s Q E.
Proof. intros H HQ. unfold wp, release. by rewrite H. Qed.
End Heap.

(** ** Running a component inside a larger state *)
Section Zoom.
Context {W S : Type} (proj : W → S) (upd : S → W → W).

Definition zoom {A} (m : prog S A) : prog W A := λ w,
  match m (proj w) with
  | Done a s => Done a (upd s w)
  | Err e s => Err e (upd s w)
  | Fault => Fault
  end.
Lemma wp_zoom {A} (m : prog S A) w Q E :
  wp m (proj w) (λ a s, Q a (upd s w)) (λ e s, E e (upd s w)) → wp (zoom m) w Q E.
Proof. unfold wp, zoom. by destruct (m (proj w)). Qed.
End Zoom.

(** A loop over a list, stopping at the first error. *)
Fixpoint for_each {S A} (l : list A) (body : A → prog S unit) : prog S unit :=
  match l with [] => ret tt | x :: l => body x ;; for_each l body end.

(** Big-endian values of concatenations. *)
Lemma le_val_app l k : le_val (l ++ k) = le_val l + 2 ^ (8 * Z.of_nat (length l)) * le_val k.
Proof.
  induction l as [|b l IH]; cbn [app le_val length].
  { change (2 ^ (8 * Z.of_nat 0)) with 1. lia. }
  rewrite IH. replace (8 * Z.of_nat (S (length l))) with (8 + 8 * Z.of_nat (length l)) by lia.
  rewrite Z.pow_add_r by lia. change (2 ^ 8) with 256. lia.
Qed.
Lemma be_val_app l k : be_val (l ++ k) = be_val l * 2 ^ (8 * Z.of_nat (length k)) + be_val k.
Proof. unfold be_val. rewrite reverse_app, le_val_app, length_reverse. lia. Qed.
Lemma be_val_range l : is_bytes l → 0 ≤ be_val l < 2 ^ (8 * Z.of_nat (length l)).
Proof. intros. unfold be_val. rewrite <-length_reverse. by apply le_val_range, Forall_reverse. Qed.
Lemma be_val_inj l k : is_bytes l → is_bytes k → length l = length k → be_val l = be_val k → l = k.
Proof.
  intros Hl Hk Hlen H. unfold be_val in H.
  rewrite <-(reverse_involutive l), <-(reverse_involutive k). f_equal.
  rewrite <-(le_bytes_val (reverse l)), <-(le_bytes_val (reverse k)) by (by apply Forall_reverse).
  by rewrite !length_reverse, H, Hlen.
Qed.

(** ** Decimal numbers *)
(** [%u] and [%i] of a value below [10 ^ fuel] *)
Fixpoint decimal (fuel : nat) (x : Z) : bytes :=
  match fuel with
  | O => []
  | S f => if x <? 10 then [48 + x] else decimal f (x / 10) ++ [48 + x mod 10]
  end.
(** A 32-bit value has at most ten digits. *)
Definition print_uint (x : Z) : bytes := decimal 10 x.
Lemma decimal_length fuel x : (length (decimal fuel x) ≤ fuel)%nat.
Proof.
  revert x. induction fuel as [|n IH]; intros x; cbn [decimal]; [done|].
  destruct (x <? 10); cbn; [lia|]. rewrite length_app; cbn. specialize (IH (x / 10)). lia.
Qed.
(** The digits denote the number: no digit is lost within the fuel. *)
Fixpoint decimal_val (acc : Z) (l : bytes) : Z :=
  match l with [] => acc | c :: l => decimal_val (10 * acc + (c - 48)) l end.
Lemma decimal_val_app acc l k : decimal_val acc (l ++ k) = decimal_val (decimal_val acc l) k.
Proof. revert acc. induction l; intros; cbn; auto. Qed.
Lemma decimal_val_decimal fuel x :
  0 ≤ x < 10 ^ Z.of_nat fuel → decimal_val 0 (decimal fuel x) = x.
Proof.
  revert x. induction fuel as [|n IH]; intros x Hx; cbn [decimal]; [cbn in *; lia|].
  destruct (Z.ltb_spec x 10) as [|Hge]; [cbn; lia|].
  rewrite decimal_val_app, IH; cbn [decimal_val].
  - pose proof (Z.div_mod x 10). lia.
  - rewrite Nat2Z.inj_succ, Z.pow_succ_r in Hx by lia.
    split; [apply Z.div_pos; lia|]. apply Z.div_lt_upper_bound; lia.
Qed.
Lemma print_uint_length x : (length (print_uint x) ≤ 10)%nat.
Proof. apply decimal_length. Qed.
Lemma decimal_digits fuel x : 0 ≤ x → Forall (λ c, 48 ≤ c ≤ 57) (decimal fuel x).
Proof.
  revert x. induction fuel as [|n IH]; intros x Hx; cbn [decimal]; [constructor|].
  destruct (Z.ltb_spec x 10); [repeat constructor; lia|].
  apply Forall_app. split; [apply IH, Z.div_pos; lia|].
  pose proof (Z.mod_pos_bound x 10 ltac:(lia)). repeat constructor; lia.
Qed.
Lemma decimal_nonempty fuel x : (0 < fuel)%nat → decimal fuel x ≠ [].
Proof. destruct fuel as [|n]; [lia|]. cbn. intros _. case_match; [done|]. by intros [_ ?]%app_nil. Qed.
