(* ===== verification/Asn1.v ===== *)
(** * ASN.1 BER/DER primitives ([src/tools/asn1.c], [src/include/asn1.h])

    The decoder works on a [struct asn1_ctx]: a buffer, a cursor and an error
    code.  Pointers into the buffer are offsets from [ctx->begin]; [None] is
    the NULL pointer, which [asn1_header_decode] stores in [*eoc] for an
    indefinite length.  A decoder that returns 0 is [Err 0]; a dereference of
    NULL or of an octet outside the buffer is [Fault]. *)

From S2P Require Import Prelude.

Definition ASN1_UNI : Z := 0.
Definition ASN1_APL : Z := 1.
Definition ASN1_CTX : Z := 2.
Definition ASN1_EOC : Z := 0.
Definition ASN1_OTS : Z := 4.
Definition ASN1_OJI : Z := 6.
Definition ASN1_ENUM : Z := 10.
Definition ASN1_SEQ : Z := 16.
Definition ASN1_PRI : Z := 0.
Definition ASN1_CON : Z := 1.
Definition ASN1_ERR_NOERROR : Z := 0.
Definition ASN1_ERR_DEC_EMPTY : Z := 2.
Definition ASN1_ERR_DEC_BADVALUE : Z := 5.

Definition SPNEGO_OID : list Z := [1; 3; 6; 1; 5; 5; 2].
Definition NTLMSSP_OID : list Z := [1; 3; 6; 1; 4; 1; 311; 2; 2; 10].
Definition KRB5_OID : list Z := [1; 2; 840; 113554; 1; 2; 2].
Definition KRB5U2U_OID : list Z := [1; 2; 840; 113554; 1; 2; 2; 3].
Definition MSKRB5_OID : list Z := [1; 2; 840; 48018; 1; 2; 2].

Record asn1_ctx := mk_asn1_ctx {
  ctx_error : Z;
  ctx_buf : bytes;
  ctx_pointer : option Z;
}.

Definition ctx_end (c : asn1_ctx) : Z := Z.of_nat (length (ctx_buf c)).
Definition set_pointer (p : option Z) (c : asn1_ctx) : asn1_ctx :=
  mk_asn1_ctx (ctx_error c) (ctx_buf c) p.
Definition set_error (e : Z) (c : asn1_ctx) : asn1_ctx :=
  mk_asn1_ctx e (ctx_buf c) (ctx_pointer c).

(** The octet at an offset; outside the buffer there is none. *)
Definition octet_at (b : bytes) (p : Z) : option Z :=
  if p <? 0 then None else b !! Z.to_nat p.

Definition asn1_open (buf : bytes) : asn1_ctx :=
  mk_asn1_ctx ASN1_ERR_NOERROR buf (Some 0).

(** Decoders *)
Definition asn1_octet_decode : prog asn1_ctx Z :=
  c <- get ;;
  match ctx_pointer c with
  | None => fault
  | Some p =>
      if ctx_end c <=? p then
        modify (set_error ASN1_ERR_DEC_EMPTY) ;; fail 0
      else
        ch <- lift_option (octet_at (ctx_buf c) p) ;;
        modify (set_pointer (Some (p + 1))) ;;
        ret ch
  end.

(** The [do ... while ((ch & 0x80) == 0x80)] loop of [asn1_tag_decode] (32-bit
    accumulator) and [asn1_subid_decode] (64-bit); every turn consumes an
    octet, so [S (length buf)] turns are enough. *)
Fixpoint base128_loop (w : Z) (fuel : nat) (acc : Z) : prog asn1_ctx Z :=
  match fuel with
  | O => fault
  | S fuel =>
      ch <- asn1_octet_decode ;;
      let acc := Z.lor (wrap w (Z.shiftl acc 7)) (Z.land ch 0x7F) in
      if Z.land ch 0x80 =? 0x80 then base128_loop w fuel acc else ret acc
  end.

Definition loop_fuel (c : asn1_ctx) : nat := S (length (ctx_buf c)).

Definition asn1_tag_decode : prog asn1_ctx Z :=
  c <- get ;; base128_loop 32 (loop_fuel c) 0.

Definition asn1_subid_decode : prog asn1_ctx Z :=
  c <- get ;; base128_loop 64 (loop_fuel c) 0.

Definition asn1_id_decode : prog asn1_ctx (Z * Z * Z) :=
  ch <- asn1_octet_decode ;;
  let cls := Z.shiftr (Z.land ch 0xC0) 6 in
  let con := Z.shiftr (Z.land ch 0x20) 5 in
  let tag := Z.land ch 0x1F in
  if tag =? 0x1F then
    tag <- asn1_tag_decode ;; ret (cls, con, tag)
  else ret (cls, con, tag).

(** [while (cnt > 0)] of [asn1_length_decode]. *)
Fixpoint length_loop (cnt : nat) (len : Z) : prog asn1_ctx Z :=
  match cnt with
  | O => ret len
  | S cnt =>
      ch <- asn1_octet_decode ;;
      length_loop cnt (Z.lor (u32 (Z.shiftl len 8)) ch)
  end.

(** [ctx->end - ctx->pointer] *)
Definition remaining : prog asn1_ctx Z :=
  c <- get ;;
  match ctx_pointer c with
  | None => fault
  | Some p => ret (ctx_end c - p)
  end.

(** Returns [(def, len)]; both start at 0 in the caller. *)
Definition asn1_length_decode : prog asn1_ctx (Z * Z) :=
  ch <- asn1_octet_decode ;;
  let* (def, len) :=
    (if ch =? 0x80 then ret (0, 0)
     else if ch <? 0x80 then ret (1, ch)
     else len <- length_loop (Z.to_nat (Z.land ch 0x7F)) 0 ;; ret (1, len)) in
  left <- remaining ;;
  if left <? len then fail 0 else ret (def, len).

(** Returns [(eoc, cls, con, tag)]. *)
Definition asn1_header_decode : prog asn1_ctx (option Z * Z * Z * Z) :=
  let* (cls, con, tag) := asn1_id_decode in
  let* (def, len) := asn1_length_decode in
  if (con =? ASN1_PRI) && (def =? 0) then fail 0
  else
    c <- get ;;
    let eoc := if def =? 0 then None else (λ p, p + len) <$> ctx_pointer c in
    ret (eoc, cls, con, tag).

Section Alloc.
(** Whether [g_try_malloc] of so many bytes returns memory. *)
Variable g_try_malloc : Z → bool.

Fixpoint octets_loop (fuel : nat) (eoc : Z) (octets : bytes) : prog asn1_ctx bytes :=
  match fuel with
  | O => fault
  | S fuel =>
      c <- get ;;
      match ctx_pointer c with
      | None => fault
      | Some p =>
          if p <? eoc then
            ch <- asn1_octet_decode ;; octets_loop fuel eoc (octets ++ [ch])
          else ret octets
      end
  end.

Definition asn1_octets_decode (eoc : Z) : prog asn1_ctx bytes :=
  c <- get ;;
  match ctx_pointer c with
  | None => fault
  | Some p =>
      if g_try_malloc (u64 (eoc - p)) then octets_loop (loop_fuel c) eoc []
      else fail 0
  end.

Definition asn1_read (len : Z) : prog asn1_ctx bytes :=
  c <- get ;;
  left <- remaining ;;
  if left <? len then
    modify (set_error ASN1_ERR_DEC_EMPTY) ;; fail 0
  else if g_try_malloc len then
    match ctx_pointer c with
    | None => fault
    | Some p =>
        modify (set_pointer (Some (p + len))) ;;
        ret (take (Z.to_nat len) (drop (Z.to_nat p) (ctx_buf c)))
    end
  else fail 0.

(** [while (ctx->pointer < eoc)] of [asn1_oid_decode]: [oid] holds the
    [*len] entries stored so far in an array of [size] entries. *)
Fixpoint oid_loop (fuel : nat) (eoc size : Z) (oid : list Z) : prog asn1_ctx (list Z) :=
  match fuel with
  | O => fault
  | S fuel =>
      c <- get ;;
      match ctx_pointer c with
      | None => fault
      | Some p =>
          if p <? eoc then
            if size <? Z.of_nat (length oid) + 1 then
              modify (set_error ASN1_ERR_DEC_BADVALUE) ;; fail 0
            else
              subid <- asn1_subid_decode ;;
              oid_loop fuel eoc size (oid ++ [subid])
          else ret oid
      end
  end.

(** The first subidentifier encodes the first two arcs. *)
Definition oid_first_arcs (subid : Z) : list Z :=
  if subid <? 40 then [0; subid]
  else if subid <? 80 then [1; subid - 40]
  else [2; subid - 80].

Definition UINT_MAX : Z := 2 ^ 32 - 1.
Definition sizeof_ulong : Z := 8.

(** Returns the stored array; [*len] is its length. *)
Definition asn1_oid_decode (eoc : option Z) : prog asn1_ctx (list Z) :=
  c <- get ;;
  match ctx_pointer c, eoc with
  | Some p, Some eoc =>
      let size := u32 (eoc - p + 1) in
      if (size <? 2) || (UINT_MAX / sizeof_ulong <? size) then fail 0
      else if negb (g_try_malloc (size * sizeof_ulong)) then fail 0
      else
        subid <- asn1_subid_decode ;;
        oid_loop (loop_fuel c) eoc size (oid_first_arcs subid)
  | _, _ => fault
  end.
End Alloc.

(** Encoders *)

(** One turn of the loop of [asn1_header_len]. *)
Definition header_len_step (len : Z) : Z :=
  let len :=
    if 2 ^ 24 <=? len then u32 (len + 5)
    else if 2 ^ 16 <=? len then u32 (len + 4)
    else if 2 ^ 8 <=? len then u32 (len + 3)
    else if 2 ^ 7 <=? len then u32 (len + 2)
    else u32 (len + 1) in
  u32 (len + 1).

Definition asn1_header_len (payload_len : Z) (depth : Z) : Z :=
  s32 (Nat.iter (Z.to_nat depth) header_len_step (u32 payload_len)).

(** The octets written for one arc after the first two. *)
Definition subid_encode (id : Z) : bytes :=
  (if 2 ^ 28 <=? id then [u8 (Z.lor 0x80 (Z.land (Z.shiftr id 28) 0x7F))] else []) ++
  (if 2 ^ 21 <=? id then [u8 (Z.lor 0x80 (Z.land (Z.shiftr id 21) 0x7F))] else []) ++
  (if 2 ^ 14 <=? id then [u8 (Z.lor 0x80 (Z.land (Z.shiftr id 14) 0x7F))] else []) ++
  (if 2 ^ 7 <=? id then [u8 (Z.lor 0x80 (Z.land (Z.shiftr id 7) 0x7F))] else []) ++
  [u8 (Z.land id 0x7F)].

(** [in_oid] is the array of [in_len] arcs; reading [in_oid[0]] and
    [in_oid[1]] of a shorter array is out of bounds. *)
Definition asn1_oid_encode (g_try_malloc : Z → bool) (in_oid : list Z) : prog unit bytes :=
  if g_try_malloc (Z.of_nat (length in_oid) * 5) then
    match in_oid with
    | a :: b :: rest => ret (u8 (40 * a + b) :: mjoin (subid_encode <$> rest))
    | _ => fault
    end
  else fail (- ENOMEM).

(** Returns the octets stored at [*buf] and the new [*len]. *)
Definition asn1_header_encode (cls con tag len : Z) : prog unit (bytes * Z) :=
  if len <? 2 then fail (- EINVAL)
  else
    let id := u8 (Z.lor (Z.lor (Z.shiftl (Z.land cls 0x3) 6)
                               (Z.shiftl (Z.land con 0x1) 5))
                        (Z.land tag 0x1F)) in
    let r_len := u32 (len - 1) in
    if u32 (r_len - 1) <? 2 ^ 7 then
      let r_len := u32 (r_len - 1) in
      ret ([id; u8 (Z.land r_len 0x7F)], r_len)
    else if u32 (r_len - 2) <? 2 ^ 8 then
      let r_len := u32 (r_len - 2) in
      ret ([id; 0x81; u8 (Z.land r_len 0xFF)], r_len)
    else if u32 (r_len - 3) <? 2 ^ 16 then
      let r_len := u32 (r_len - 3) in
      ret ([id; 0x82; u8 (Z.land (Z.shiftr r_len 8) 0xFF);
            u8 (Z.land r_len 0xFF)], r_len)
    else if u32 (r_len - 4) <? 2 ^ 24 then
      let r_len := u32 (r_len - 4) in
      ret ([id; 0x83; u8 (Z.land (Z.shiftr r_len 16) 0xFF);
            u8 (Z.land (Z.shiftr r_len 8) 0xFF);
            u8 (Z.land r_len 0xFF)], r_len)
    else
      let r_len := u32 (r_len - 5) in
      ret ([id; 0x84; u8 (Z.land (Z.shiftr r_len 24) 0xFF);
            u8 (Z.land (Z.shiftr r_len 16) 0xFF);
            u8 (Z.land (Z.shiftr r_len 8) 0xFF);
            u8 (Z.land r_len 0xFF)], r_len).

(** ** Memory safety of the decoders

    A context is well formed when its cursor lies in the buffer; every decoder
    keeps the buffer, moves the cursor forward inside it and never faults. *)
Definition ctx_ok (c : asn1_ctx) : Prop :=
  is_bytes (ctx_buf c) ∧ ∃ p, ctx_pointer c = Some p ∧ 0 ≤ p ≤ ctx_end c.

Definition advance (c c' : asn1_ctx) : Prop :=
  ctx_buf c' = ctx_buf c ∧
  ∃ p p', ctx_pointer c = Some p ∧ ctx_pointer c' = Some p' ∧ 0 ≤ p ≤ p' ∧ p' ≤ ctx_end c.

Lemma advance_refl c : ctx_ok c → advance c c.
Proof. intros (_ & p & Hp & ?). split; [done|]. exists p, p. split_and!; done || lia. Qed.
Lemma advance_ok c c' : ctx_ok c → advance c c' → ctx_ok c'.
Proof.
  intros [? _] (Hb & p & p' & ? & ? & ? & ?). split; [by rewrite Hb|].
  exists p'. split; [done|]. unfold ctx_end in *. rewrite Hb. lia.
Qed.
Lemma advance_trans c1 c2 c3 : advance c1 c2 → advance c2 c3 → advance c1 c3.
Proof.
  intros (Hb & p & p' & ? & ? & ? & ?) (Hb' & q & q' & ? & ? & ? & ?).
  simplify_eq. split; [congruence|]. exists p, q'. unfold ctx_end in *.
  rewrite Hb in *. split_and!; done || lia.
Qed.
#[export] Hint Resolve advance_refl advance_ok advance_trans : ksmbd.

Lemma octet_at_in b p : 0 ≤ p < Z.of_nat (length b) → ∃ ch, octet_at b p = Some ch.
Proof.
  intros. unfold octet_at. destruct (Z.ltb_spec p 0); [lia|].
  apply lookup_lt_is_Some. lia.
Qed.

(** An octet: the cursor moves by one, or the buffer is exhausted. *)
Lemma octet_decode_wp c p :
  ctx_pointer c = Some p → 0 ≤ p ≤ ctx_end c →
  wp asn1_octet_decode c
    (λ ch c', octet_at (ctx_buf c) p = Some ch ∧ p < ctx_end c ∧
              c' = set_pointer (Some (p + 1)) c)
    (λ e c', e = 0 ∧ p = ctx_end c ∧ c' = set_error ASN1_ERR_DEC_EMPTY c).
Proof.
  intros Hp Hr. unfold asn1_octet_decode. wps; simplify_eq; zbool.
  - split_and!; done || lia.
  - destruct (octet_at_in (ctx_buf c) p) as [ch Hch]; [unfold ctx_end in *; lia|].
    rewrite Hch. cbv [lift_option wp ret]. split_and!; done.
Qed.

Lemma octet_decode_advance c :
  ctx_ok c → wp asn1_octet_decode c (λ _ c', advance c c') (λ _ c', advance c c').
Proof.
  intros (_ & p & Hp & Hr). wp_by (by apply octet_decode_wp).
  - intros ch c' (_ & Hlt & ->). split; [done|]. exists p, (p + 1).
    split_and!; done || lia.
  - intros e c' (_ & _ & ->). split; [done|]. exists p, p. split_and!; done || lia.
Qed.

(** A decoder is safe when from a well-formed context it does not fault and
    only moves the cursor forward. *)
Definition safe {A} (m : prog asn1_ctx A) : Prop :=
  ∀ c, ctx_ok c → wp m c (λ _ c', advance c c') (λ _ c', advance c c').

Lemma safe_ret {A} (a : A) : safe (ret a).
Proof. intros c ?. apply wp_ret. by apply advance_refl. Qed.
Lemma safe_fail {A} e : safe (A:=A) (fail e).
Proof. intros c ?. apply wp_fail. by apply advance_refl. Qed.
Lemma safe_bind {A B} (m : prog asn1_ctx A) (k : A → prog asn1_ctx B) :
  safe m → (∀ a, safe (k a)) → safe (bind m k).
Proof.
  intros Hm Hk c Hc. apply wp_bind. wp_by (by apply Hm); [|done].
  intros a c' H. wp_by (apply Hk; by eapply advance_ok);
    intros; by eapply advance_trans.
Qed.
Lemma safe_set_error e : safe (modify (set_error e)).
Proof.
  intros c (_ & p & Hp & ?). apply wp_modify. split; [done|]. exists p, p.
  split_and!; done || lia.
Qed.
Lemma safe_octet : safe asn1_octet_decode.
Proof. intros c. apply octet_decode_advance. Qed.
Lemma safe_remaining : safe remaining.
Proof.
  intros c Hc. unfold remaining. wps; [by apply advance_refl|].
  by destruct Hc as (_ & ? & ? & ?); simplify_eq.
Qed.
#[export] Hint Resolve safe_ret safe_fail safe_bind safe_set_error safe_octet
  safe_remaining : ksmbd.

(** The loops: a measure on the octets left bounds the number of turns. *)
Lemma base128_loop_safe w fuel acc c p :
  ctx_pointer c = Some p → 0 ≤ p ≤ ctx_end c → ctx_end c - p < Z.of_nat fuel →
  wp (base128_loop w fuel acc) c (λ _ c', advance c c') (λ _ c', advance c c').
Proof.
  revert acc c p. induction fuel as [|fuel IH]; intros acc c p Hp Hr Hf; [lia|].
  simpl. apply wp_bind. wp_by (by apply octet_decode_wp).
  - intros ch c' (_ & Hlt & ->). set (c' := set_pointer _ c).
    assert (advance c c').
    { split; [done|]. exists p, (p + 1). split_and!; done || lia. }
    wp_step.
    + wp_by (apply (IH _ c' (p + 1)); [done|change (ctx_end c') with (ctx_end c); lia..]);
        intros; by eapply advance_trans.
    + by apply wp_ret.
  - intros e c' (_ & _ & ->). split; [done|]. exists p, p. split_and!; done || lia.
Qed.

Lemma safe_base128 w : safe (c <- get ;; base128_loop w (loop_fuel c) 0).
Proof.
  intros c (_ & p & Hp & Hr). apply wp_bind, wp_get.
  eapply base128_loop_safe; [done..|]. unfold loop_fuel, ctx_end in *. lia.
Qed.
Lemma safe_length_loop cnt len : safe (length_loop cnt len).
Proof. revert len. induction cnt; intros len; simpl; eauto with ksmbd. Qed.
Lemma safe_id_decode : safe asn1_id_decode.
Proof.
  apply safe_bind; [apply safe_octet|]. intros ch. simpl.
  destruct (_ =? _); [apply safe_bind; [apply safe_base128|]|]; eauto with ksmbd.
Qed.
#[export] Hint Resolve safe_base128 safe_length_loop safe_id_decode : ksmbd.

Lemma octet_at_byte b p ch : is_bytes b → octet_at b p = Some ch → is_byte ch.
Proof.
  intros Hb. unfold octet_at. destruct (p <? 0); [done|].
  intros H. by apply (Forall_lookup_1 _ _ _ _ Hb H).
Qed.

(** What an octet decoder yields is an octet. *)
Lemma octet_decode_byte c :
  ctx_ok c →
  wp asn1_octet_decode c (λ ch c', is_byte ch ∧ advance c c') (λ _ c', advance c c').
Proof.
  intros Hc. pose proof Hc as (Hb & p & Hp & Hr).
  pose proof (octet_decode_advance c Hc) as Ha.
  pose proof (octet_decode_wp c p Hp Hr) as Hw.
  unfold wp in *. destruct (asn1_octet_decode c); [|done..].
  split; [|done]. by eapply octet_at_byte, Hw.
Qed.

Lemma length_loop_wp cnt len c :
  ctx_ok c → 0 ≤ len →
  wp (length_loop cnt len) c (λ r c', 0 ≤ r ∧ advance c c') (λ _ c', advance c c').
Proof.
  revert len c. induction cnt as [|cnt IH]; intros len c Hc Hl; simpl.
  { split; [done|]. by apply advance_refl. }
  apply wp_bind. wp_by (by apply octet_decode_byte); [|done].
  intros ch c' [Hb Ha]. wp_by (apply IH; [by eapply advance_ok|]; apply Z.lor_nonneg; destruct Hb;
    split; [apply u32_range|done]).
  - intros r c'' [? ?]. split; [done|]. by eapply advance_trans.
  - intros. by eapply advance_trans.
Qed.

Lemma length_decode_wp c :
  ctx_ok c →
  wp asn1_length_decode c
    (λ r c', advance c c' ∧ 0 ≤ r.2 ∧
       ∀ p, ctx_pointer c' = Some p → r.2 ≤ ctx_end c' - p)
    (λ _ c', advance c c').
Proof.
  intros Hc. unfold asn1_length_decode. apply wp_bind.
  wp_by (by apply octet_decode_byte); [|done].
  intros ch c1 [Hb Ha]. apply wp_bind.
  apply wp_mono with (λ r c2, 0 ≤ r.2 ∧ advance c c2) (λ _ c2, advance c c2).
  - wp_step; [by apply wp_ret|]. wp_step; [apply wp_ret; by destruct Hb|].
    apply wp_bind. wp_by (apply length_loop_wp; [by eapply advance_ok|lia]).
    + intros r c2 [? ?]. apply wp_ret. split; [done|]. by eapply advance_trans.
    + intros. by eapply advance_trans.
  - intros [def len] c2 [Hl Ha2]. apply wp_bind. unfold remaining. wps.
    + done.
    + split_and!; [done..|]. intros. simplify_eq. zbool. lia.
    + by destruct (advance_ok _ _ Hc Ha2) as (_ & ? & ? & ?); simplify_eq.
  - done.
Qed.

Lemma header_decode_wp c :
  ctx_ok c →
  wp asn1_header_decode c
    (λ r c', advance c c' ∧
       match r with
       | (Some eoc, _, _, _) =>
           ∀ p, ctx_pointer c' = Some p → p ≤ eoc ≤ ctx_end c'
       | (None, _, con, _) => con ≠ ASN1_PRI
       end)
    (λ _ c', advance c c').
Proof.
  intros Hc. unfold asn1_header_decode. apply wp_bind.
  wp_by (by apply safe_id_decode); [|done].
  intros [[cls con] tag] c1 Ha1. apply wp_bind.
  wp_by (apply length_decode_wp; by eapply advance_ok).
  - intros [def len] c2 (Ha2 & Hl & Hlen). simpl in *.
    assert (advance c c2) by (by eapply advance_trans).
    wps; [done|]. split; [done|].
    pose proof (advance_ok _ _ Hc H) as (_ & p & Hp & Hr). rewrite Hp.
    destruct (def =? 0) eqn:Hd; simpl.
    + rewrite andb_true_r in *. by zbool.
    + intros ? [= <-]. specialize (Hlen _ Hp). lia.
  - intros. by eapply advance_trans.
Qed.

Section AllocSafety.
Variable g_try_malloc : Z → bool.

Lemma subid_decode_wp c p :
  ctx_pointer c = Some p → 0 ≤ p ≤ ctx_end c →
  wp asn1_subid_decode c
    (λ _ c', advance c c' ∧ ∃ p', ctx_pointer c' = Some p' ∧ p < p')
    (λ _ c', advance c c').
Proof.
  intros Hp Hr. unfold asn1_subid_decode, loop_fuel. apply wp_bind, wp_get. simpl.
  apply wp_bind. wp_by (by apply octet_decode_wp).
  - intros ch c' (_ & Hlt & ->). set (c' := set_pointer _ c).
    assert (advance c c').
    { split; [done|]. exists p, (p + 1). split_and!; done || lia. }
    wp_step; [|apply wp_ret; split; [done|]; exists (p + 1); split; done || lia].
    wp_by (apply (base128_loop_safe _ _ _ c' (p + 1));
           [done|change (ctx_end c') with (ctx_end c); lia
            |unfold ctx_end in *; simpl in *; lia]).
    + intros _ c2 Ha. split; [by eapply advance_trans|].
      destruct Ha as (_ & q & q' & ? & ? & ? & ?). exists q'. simplify_eq/=.
      split; [done|lia].
    + intros. by eapply advance_trans.
  - intros e c' (_ & _ & ->). split; [done|]. exists p, p. split_and!; done || lia.
Qed.

(** The OID loop stores at most [size] entries and stays in the buffer. *)
Lemma oid_loop_wp fuel eoc size oid c p :
  ctx_pointer c = Some p → 0 ≤ p ≤ ctx_end c → ctx_end c - p < Z.of_nat fuel →
  eoc ≤ ctx_end c → Z.of_nat (length oid) ≤ size →
  wp (oid_loop fuel eoc size oid) c
    (λ r c', advance c c' ∧ Z.of_nat (length r) ≤ size ∧ oid `prefix_of` r)
    (λ _ c', advance c c').
Proof.
  revert oid c p. induction fuel as [|fuel IH]; intros oid c p Hp Hr Hf He Hs; [lia|].
  assert (advance c c) as Hrefl.
  { split; [done|]. exists p, p. split_and!; done || lia. }
  simpl. apply wp_bind, wp_get. rewrite Hp. wp_step; [wp_step|].
  - apply wp_bind, wp_modify, wp_fail. split; [done|]. exists p, p.
    split_and!; done || lia.
  - zbool. apply wp_bind. wp_by (by apply subid_decode_wp); [|done].
    intros sid c1 (Ha & p' & Hp' & Hlt).
    pose proof Ha as (Hb & q & q' & Hq & Hq' & ? & ?). simplify_eq.
    assert (ctx_end c1 = ctx_end c) as Hend by (unfold ctx_end; by rewrite Hb).
    wp_by (apply (IH _ c1 p'); rewrite ?length_app, ?Hend; simpl; done || lia).
    + intros r c2 (? & ? & ?). split; [by eapply advance_trans|]. split; [done|].
      by eapply prefix_app_l.
    + intros. by eapply advance_trans.
  - by apply wp_ret.
Qed.

Lemma oid_decode_wp c p eoc :
  ctx_pointer c = Some p → 0 ≤ p ≤ ctx_end c → p ≤ eoc ≤ ctx_end c →
  wp (asn1_oid_decode g_try_malloc (Some eoc)) c
    (λ r c', advance c c' ∧ 2 ≤ Z.of_nat (length r) ≤ u32 (eoc - p + 1))
    (λ _ c', advance c c').
Proof.
  intros Hp Hr He. unfold asn1_oid_decode. apply wp_bind, wp_get. rewrite Hp.
  assert (advance c c) as Hrefl.
  { split; [done|]. exists p, p. split_and!; done || lia. }
  wp_step; [by apply wp_fail|]. wp_step; [by apply wp_fail|]. zbool.
  apply wp_bind. wp_by (by apply subid_decode_wp); [|done].
  intros sid c1 (Ha & p' & Hp' & Hlt).
  pose proof Ha as (Hb & q & q' & Hq & Hq' & ? & ?). simplify_eq.
  assert (ctx_end c1 = ctx_end c) as Hend by (unfold ctx_end; by rewrite Hb).
  assert (length (oid_first_arcs sid) = 2%nat) as Hl.
  { unfold oid_first_arcs. repeat case_match; done. }
  wp_by (apply (oid_loop_wp _ _ _ _ c1 p'); rewrite ?Hend, ?Hl; unfold loop_fuel;
         try unfold ctx_end in *; simpl; done || lia).
  - intros r c2 (? & ? & Hpre). split; [by eapply advance_trans|].
    apply prefix_length in Hpre. lia.
  - intros. by eapply advance_trans.
Qed.

Lemma read_wp len c p :
  ctx_pointer c = Some p → 0 ≤ p ≤ ctx_end c → 0 ≤ len →
  wp (asn1_read g_try_malloc len) c
    (λ r c', advance c c' ∧ Z.of_nat (length r) = len ∧
             ctx_pointer c' = Some (p + len) ∧
             r = take (Z.to_nat len) (drop (Z.to_nat p) (ctx_buf c)))
    (λ _ c', advance c c').
Proof.
  intros Hp Hr Hl.
  assert (advance c c) as Hrefl.
  { split; [done|]. exists p, p. split_and!; done || lia. }
  unfold asn1_read. apply wp_bind, wp_get, wp_bind. unfold remaining.
  apply wp_bind, wp_get. rewrite Hp. apply wp_ret. wp_step.
  - apply wp_bind, wp_modify, wp_fail. split; [done|]. exists p, p.
    split_and!; done || lia.
  - zbool. wp_step; [|by apply wp_fail]. apply wp_bind, wp_modify, wp_ret.
    unfold ctx_end in *. split_and!; [|rewrite length_take, length_drop; lia|done|done].
    split; [done|]. exists p, (p + len). unfold ctx_end. split_and!; done || lia.
Qed.

Lemma octets_loop_wp fuel eoc octets c p :
  ctx_pointer c = Some p → 0 ≤ p ≤ eoc → eoc ≤ ctx_end c →
  ctx_end c - p < Z.of_nat fuel →
  wp (octets_loop fuel eoc octets) c
    (λ r c', advance c c' ∧ ctx_pointer c' = Some eoc ∧
             r = octets ++ take (Z.to_nat (eoc - p)) (drop (Z.to_nat p) (ctx_buf c)))
    (λ _ _, False).
Proof.
  revert octets c p. induction fuel as [|fuel IH]; intros octets c p Hp Hr He Hf; [lia|].
  simpl. apply wp_bind, wp_get. rewrite Hp. wp_step; zbool.
  - apply wp_bind. wp_by (apply octet_decode_wp; [done|lia]);
      [|intros e c' (_ & ? & _); lia].
    intros ch c' (Hch & Hlt & ->). set (c' := set_pointer _ c).
    wp_by (apply (IH _ c' (p + 1)); try done; change (ctx_end c') with (ctx_end c); lia);
      [|done].
    intros r c2 (Ha & Hp2 & ->). split.
    { eapply advance_trans; [|done]. split; [done|]. exists p, (p + 1).
      split_and!; done || lia. }
    split; [done|]. rewrite <-app_assoc. f_equal. simpl.
    unfold octet_at in Hch. destruct (Z.ltb_spec p 0); [lia|].
    rewrite <-(take_drop_middle _ _ _ Hch) at 2.
    rewrite drop_app_ge; rewrite length_take_le; try (apply lookup_lt_Some in Hch; lia).
    replace (Z.to_nat p - Z.to_nat p)%nat with 0%nat by lia.
    replace (Z.to_nat (eoc - p)) with (S (Z.to_nat (eoc - (p + 1)))) by lia.
    replace (Z.to_nat (p + 1)) with (S (Z.to_nat p)) by lia. done.
  - apply wp_ret. assert (eoc = p) as -> by lia. split_and!.
    + split; [done|]. exists p, p. split_and!; done || lia.
    + done.
    + by rewrite Z.sub_diag, take_0, app_nil_r.
Qed.
End AllocSafety.

(** ** Reading what the encoders write

    [at_ctx e pre post]: the cursor stands between [pre] and [post]. *)
Definition at_ctx (e : Z) (pre post : bytes) : asn1_ctx :=
  mk_asn1_ctx e (pre ++ post) (Some (Z.of_nat (length pre))).

Lemma octet_decode_at e pre ch post :
  asn1_octet_decode (at_ctx e pre (ch :: post)) = Done ch (at_ctx e (pre ++ [ch]) post).
Proof.
  unfold asn1_octet_decode, bind, get, at_ctx, ctx_end, octet_at. simpl.
  rewrite length_app. simpl.
  destruct (Z.leb_spec (Z.of_nat (length pre + S (length post))) (Z.of_nat (length pre)));
    [lia|].
  destruct (Z.ltb_spec (Z.of_nat (length pre)) 0); [lia|].
  rewrite Nat2Z.id, lookup_app_r, Nat.sub_diag by lia. simpl.
  unfold ret, modify, set_pointer. simpl. rewrite length_app, <-app_assoc. simpl.
  do 3 f_equal. lia.
Qed.

Lemma ctx_pointer_at e pre post :
  ctx_pointer (at_ctx e pre post) = Some (Z.of_nat (length pre)).
Proof. done. Qed.

Lemma ctx_end_at e pre post :
  ctx_end (at_ctx e pre post) = Z.of_nat (length pre) + Z.of_nat (length post).
Proof. unfold ctx_end, at_ctx; simpl. rewrite length_app. lia. Qed.

Lemma remaining_at e pre post :
  remaining (at_ctx e pre post) = Done (Z.of_nat (length post)) (at_ctx e pre post).
Proof.
  unfold remaining, bind, get. simpl ctx_pointer. rewrite ctx_end_at.
  unfold ret. f_equal. lia.
Qed.

(** Big-endian accumulation of [length_loop] over 32 bits. *)
Fixpoint be_acc (acc : Z) (l : bytes) : Z :=
  match l with
  | [] => acc
  | ch :: l => be_acc (Z.lor (u32 (Z.shiftl acc 8)) ch) l
  end.

Lemma length_loop_at l e pre post acc :
  length_loop (length l) acc (at_ctx e pre (l ++ post)) =
  Done (be_acc acc l) (at_ctx e (pre ++ l) post).
Proof.
  revert acc pre. induction l as [|ch l IH]; intros acc pre; simpl.
  { by rewrite app_nil_r. }
  unfold bind. rewrite octet_decode_at, IH, <-app_assoc. done.
Qed.

Lemma be_step acc ch :
  0 ≤ acc < 2 ^ 24 → is_byte ch → Z.lor (u32 (Z.shiftl acc 8)) ch = acc * 256 + ch.
Proof.
  intros Ha Hb. rewrite shiftl_mul, u32_small by lia. by apply (lor_add acc ch 8).
Qed.

(** The identifier octet of a low tag keeps class, method and tag. *)
Definition id_octet (cls con tag : Z) : Z :=
  u8 (Z.lor (Z.lor (Z.shiftl (Z.land cls 0x3) 6) (Z.shiftl (Z.land con 0x1) 5))
            (Z.land tag 0x1F)).

Lemma id_octet_val cls con tag :
  0 ≤ cls < 4 → 0 ≤ con < 2 → 0 ≤ tag < 31 →
  id_octet cls con tag = cls * 64 + con * 32 + tag.
Proof.
  intros. unfold id_octet.
  rewrite land_3, land_1, land_1F.
  rewrite !Z.mod_small by lia. rewrite !shiftl_mul by lia.
  rewrite (lor_add cls (con * 2 ^ 5) 6) by lia.
  replace (cls * 2 ^ 6 + con * 2 ^ 5) with ((cls * 2 + con) * 2 ^ 5) by lia.
  rewrite (lor_add _ tag 5) by lia. rewrite u8_small; unfold is_byte; lia.
Qed.

Lemma id_decode_at e pre cls con tag post :
  0 ≤ cls < 4 → 0 ≤ con < 2 → 0 ≤ tag < 31 →
  asn1_id_decode (at_ctx e pre (id_octet cls con tag :: post)) =
  Done (cls, con, tag) (at_ctx e (pre ++ [id_octet cls con tag]) post).
Proof.
  intros. unfold asn1_id_decode, bind. rewrite octet_decode_at.
  rewrite id_octet_val by done. set (ch := cls * 64 + con * 32 + tag).
  assert (Z.shiftr (Z.land ch 0xC0) 6 = cls) as ->.
  { rewrite Z.shiftr_land. change (Z.shiftr 0xC0 6) with 3.
    rewrite land_3, shiftr_div by lia. unfold ch.
    replace (cls * 64 + con * 32 + tag) with (con * 32 + tag + cls * 2 ^ 6) by lia.
    rewrite Z.div_add, Z.div_small, Z.mod_small by lia. lia. }
  assert (Z.shiftr (Z.land ch 0x20) 5 = con) as ->.
  { rewrite Z.shiftr_land. change (Z.shiftr 0x20 5) with 1.
    rewrite land_1, shiftr_div by lia. unfold ch.
    replace (cls * 64 + con * 32 + tag) with (tag + (cls * 2 + con) * 2 ^ 5) by lia.
    rewrite Z.div_add, Z.div_small by lia.
    replace (0 + (cls * 2 + con)) with (con + cls * 2) by lia.
    by rewrite Z.mod_add, Z.mod_small by lia. }
  assert (Z.land ch 0x1F = tag) as ->.
  { rewrite land_1F. unfold ch.
    replace (cls * 64 + con * 32 + tag) with (tag + (cls * 2 + con) * 32) by lia.
    by rewrite Z.mod_add, Z.mod_small by lia. }
  destruct (Z.eqb_spec tag 0x1F); [lia|]. done.
Qed.

(** Length octets: what [asn1_length_decode] reads. *)
Inductive length_octets : bytes → Z → Prop :=
  | len_short n : 0 ≤ n < 128 → length_octets [n] n
  | len_long k l n :
      k = length l → (0 < k < 128)%nat → be_acc 0 l = n → 0 ≤ n →
      length_octets ((128 + Z.of_nat k) :: l) n.

Lemma length_decode_at e pre l n post :
  length_octets l n → n ≤ Z.of_nat (length post) →
  asn1_length_decode (at_ctx e pre (l ++ post)) = Done (1, n) (at_ctx e (pre ++ l) post).
Proof.
  intros Hl Hn. destruct Hl as [n Hr|k l n -> Hk Hv H0]; simpl; unfold asn1_length_decode, bind;
    rewrite octet_decode_at.
  - destruct (Z.eqb_spec n 0x80); [lia|]. destruct (Z.ltb_spec n 0x80); [|lia].
    unfold ret at 1. rewrite remaining_at.
    destruct (Z.ltb_spec (Z.of_nat (length post)) n); [lia|]. done.
  - set (k := length l) in *.
    destruct (Z.eqb_spec (128 + Z.of_nat k) 0x80); [lia|].
    destruct (Z.ltb_spec (128 + Z.of_nat k) 0x80); [lia|].
    rewrite land_7F. replace ((128 + Z.of_nat k) mod 128) with (Z.of_nat k).
    2:{ replace (128 + Z.of_nat k) with (Z.of_nat k + 1 * 128) by lia.
        rewrite Z.mod_add, Z.mod_small; lia. }
    rewrite Nat2Z.id. unfold k. rewrite length_loop_at, Hv. unfold ret at 1.
    rewrite remaining_at. destruct (Z.ltb_spec (Z.of_nat (length post)) n); [lia|].
    by rewrite <-app_assoc.
Qed.

Lemma be_acc_cons acc ch l :
  0 ≤ acc < 2 ^ 24 → is_byte ch → be_acc acc (ch :: l) = be_acc (acc * 256 + ch) l.
Proof. intros. simpl. by rewrite be_step. Qed.

(** The length octets that the encoder writes. *)
Lemma be_acc_1 n : 0 ≤ n < 2 ^ 8 → be_acc 0 [u8 (Z.land n 0xFF)] = n.
Proof.
  intros. simpl. rewrite land_FF, Z.mod_small, u8_small by (unfold is_byte; lia).
  rewrite be_step; unfold is_byte; lia.
Qed.

Lemma octet_of n k : 0 ≤ k → u8 (Z.land (Z.shiftr n k) 0xFF) = n / 2 ^ k mod 256.
Proof.
  intros. rewrite land_FF, shiftr_div by lia. apply u8_small.
  apply Z.mod_pos_bound. lia.
Qed.
Lemma octet_of_0 n : u8 (Z.land n 0xFF) = n mod 256.
Proof. rewrite land_FF. apply u8_small, Z.mod_pos_bound. lia. Qed.

Lemma be_split n k : 0 ≤ k → n / 2 ^ k = n / 2 ^ (k + 8) * 256 + n / 2 ^ k mod 256.
Proof.
  intros. rewrite Z.pow_add_r by lia. rewrite <-Z.div_div by lia.
  change (2 ^ 8) with 256. rewrite Z.mul_comm. apply Z.div_mod. lia.
Qed.

Lemma be_acc_2 n : 0 ≤ n < 2 ^ 16 →
  be_acc 0 [u8 (Z.land (Z.shiftr n 8) 0xFF); u8 (Z.land n 0xFF)] = n.
Proof.
  intros. rewrite octet_of, octet_of_0 by lia.
  rewrite !be_acc_cons by (unfold is_byte; Z.to_euclidean_division_equations; lia).
  simpl. Z.to_euclidean_division_equations; lia.
Qed.
Lemma be_acc_3 n : 0 ≤ n < 2 ^ 24 →
  be_acc 0 [u8 (Z.land (Z.shiftr n 16) 0xFF); u8 (Z.land (Z.shiftr n 8) 0xFF);
            u8 (Z.land n 0xFF)] = n.
Proof.
  intros. rewrite !octet_of, octet_of_0 by lia.
  rewrite !be_acc_cons by (unfold is_byte; Z.to_euclidean_division_equations; lia).
  simpl. Z.to_euclidean_division_equations; lia.
Qed.
Lemma be_acc_4 n : 0 ≤ n < 2 ^ 32 →
  be_acc 0 [u8 (Z.land (Z.shiftr n 24) 0xFF); u8 (Z.land (Z.shiftr n 16) 0xFF);
            u8 (Z.land (Z.shiftr n 8) 0xFF); u8 (Z.land n 0xFF)] = n.
Proof.
  intros. rewrite !octet_of, octet_of_0 by lia.
  rewrite !be_acc_cons by (unfold is_byte; Z.to_euclidean_division_equations; lia).
  simpl. Z.to_euclidean_division_equations; lia.
Qed.

(** The header written for a total length: identifier, length octets of the
    payload length, and nothing is lost between the two. *)
Lemma header_encode_inv cls con tag len hdr r :
  2 ≤ len < 2 ^ 32 →
  asn1_header_encode cls con tag len tt = Done (hdr, r) tt →
  ∃ l, hdr = id_octet cls con tag :: l ∧ length_octets l r ∧
       0 ≤ r ∧ r + Z.of_nat (length hdr) = len.
Proof.
  intros Hlen. unfold asn1_header_encode.
  destruct (Z.ltb_spec len 2); [lia|]. fold (id_octet cls con tag).
  rewrite (u32_small (len - 1)) by lia.
  rewrite (u32_small (len - 1 - 1)) by lia.
  destruct (Z.ltb_spec (len - 1 - 1) (2 ^ 7)).
  { intros [= <- <-]. rewrite land_7F, Z.mod_small, u8_small by (unfold is_byte; lia).
    eexists; split; [done|]. split; [constructor; lia|simpl; lia]. }
  rewrite (u32_small (len - 1 - 2)) by lia.
  destruct (Z.ltb_spec (len - 1 - 2) (2 ^ 8)).
  { intros [= <- <-]. eexists; split; [done|]. split; [|simpl; lia].
    apply (len_long 1); [done|lia|apply be_acc_1; lia|lia]. }
  rewrite (u32_small (len - 1 - 3)) by lia.
  destruct (Z.ltb_spec (len - 1 - 3) (2 ^ 16)).
  { intros [= <- <-]. eexists; split; [done|]. split; [|simpl; lia].
    apply (len_long 2); [done|lia|apply be_acc_2; lia|lia]. }
  rewrite (u32_small (len - 1 - 4)) by lia.
  destruct (Z.ltb_spec (len - 1 - 4) (2 ^ 24)).
  { intros [= <- <-]. eexists; split; [done|]. split; [|simpl; lia].
    apply (len_long 3); [done|lia|apply be_acc_3; lia|lia]. }
  rewrite (u32_small (len - 1 - 5)) by lia.
  intros [= <- <-]. eexists; split; [done|]. split; [|simpl; lia].
  apply (len_long 4); [done|lia|apply be_acc_4; lia|lia].
Qed.

Lemma header_encode_total cls con tag len :
  2 ≤ len → ∃ hdr r, asn1_header_encode cls con tag len tt = Done (hdr, r) tt.
Proof.
  intros. unfold asn1_header_encode. destruct (Z.ltb_spec len 2); [lia|].
  repeat case_match; eauto.
Qed.

(** One nesting level: the size computed for a payload is the size for which
    the encoder leaves exactly that payload. *)
Lemma header_len_step_encode cls con tag payload :
  0 ≤ payload < 2 ^ 32 - 6 →
  ∃ l, asn1_header_encode cls con tag (header_len_step payload) tt =
         Done (id_octet cls con tag :: l, payload) tt ∧
       Z.of_nat (length l) + 1 + payload = header_len_step payload ∧
       2 ≤ header_len_step payload < 2 ^ 32.
Proof.
  intros H.
  assert (∃ k, 2 ≤ k ≤ 6 ∧ header_len_step payload = payload + k ∧
    (k = 2 ∧ payload < 2 ^ 7 ∨ k = 3 ∧ 2 ^ 7 ≤ payload < 2 ^ 8 ∨
     k = 4 ∧ 2 ^ 8 ≤ payload < 2 ^ 16 ∨ k = 5 ∧ 2 ^ 16 ≤ payload < 2 ^ 24 ∨
     k = 6 ∧ 2 ^ 24 ≤ payload)) as (k & Hk & Hs & Hc).
  { unfold header_len_step. repeat case_match; zbool;
      [exists 6|exists 5|exists 4|exists 3|exists 2];
      (split; [lia|]); (split; [rewrite (u32_small (payload + _)), u32_small; lia|lia]). }
  rewrite Hs. unfold asn1_header_encode.
  destruct (Z.ltb_spec (payload + k) 2); [lia|]. fold (id_octet cls con tag).
  rewrite (u32_small (payload + k - 1)) by lia.
  destruct Hc as [(-> & ?)|[(-> & ?)|[(-> & ?)|[(-> & ?)|(-> & ?)]]]];
    rewrite ?(u32_small (payload + _ - 1 - _)) by lia; zdecide;
    match goal with |- context [ret (_, ?x)] => replace x with payload by lia end;
    eexists; (split; [done|simpl; lia]).
Qed.

(** ** Object identifiers *)

(** Base-128 digits, most significant first. *)
Fixpoint b128 (acc : Z) (ds : list Z) : Z :=
  match ds with [] => acc | d :: ds => b128 (acc * 128 + d) ds end.

Definition digit (d : Z) : Prop := 0 ≤ d < 128.


Lemma b128_acc acc d :
  0 ≤ acc < 2 ^ 57 → digit d → Z.lor (wrap 64 (Z.shiftl acc 7)) d = acc * 128 + d.
Proof.
  intros Ha Hd. rewrite shiftl_mul, wrap_small by lia. by apply (lor_add acc d 7).
Qed.

Lemma cont_octet d : digit d →
  Z.land (128 + d) 0x80 = 0x80 ∧ Z.land (128 + d) 0x7F = d ∧
  Z.land d 0x80 = 0 ∧ Z.land d 0x7F = d.
Proof.
  intros [H0 H1]. rewrite !land_7F.
  replace (128 + d) with (Z.lor (1 * 2 ^ 7) d) by (rewrite lor_add; lia).
  assert (Z.land d 0x80 = 0) as Hz.
  { change 0x80 with (2 ^ 7). rewrite land_pow2_testbit by lia.
    assert (d mod 2 ^ 7 = d) as <- by (apply Z.mod_small; lia).
    by rewrite Z.mod_pow2_bits_high by lia. }
  split_and!; [| |done|apply Z.mod_small; lia].
  - rewrite Z.land_lor_distr_l, Hz. done.
  - rewrite lor_add by lia. rewrite Z.add_comm, Z.mod_add, Z.mod_small; lia.
Qed.

(** Continuation octets followed by a final one decode to the digits' value. *)
Lemma base128_at ds d fuel acc e pre post :
  Forall digit ds → digit d → 0 ≤ acc < 2 ^ (57 - 7 * Z.of_nat (length ds)) →
  (length ds ≤ 8)%nat → (length ds < fuel)%nat →
  base128_loop 64 fuel acc (at_ctx e pre (map (Z.add 128) ds ++ d :: post)) =
  Done (b128 acc (ds ++ [d])) (at_ctx e (pre ++ map (Z.add 128) ds ++ [d]) post).
Proof.
  revert acc pre fuel.
  induction ds as [|x ds IH]; intros acc pre [|fuel] Hds Hd Ha Hl Hf; simpl in *; try lia;
    unfold bind; rewrite octet_decode_at.
  - destruct (cont_octet d Hd) as (_ & _ & -> & ->). simpl.
    rewrite b128_acc by (done || lia). done.
  - apply Forall_cons in Hds as [Hx Hds].
    destruct (cont_octet x Hx) as (-> & -> & _). simpl.
    assert (2 ^ (57 - 7 * Z.of_nat (S (length ds))) * 128 =
            2 ^ (57 - 7 * Z.of_nat (length ds))) as Hp.
    { rewrite <-(Z.pow_add_r 2 _ 7) by lia. f_equal. lia. }
    assert (2 ^ (57 - 7 * Z.of_nat (length ds)) ≤ 2 ^ 57)
      by (apply Z.pow_le_mono_r; lia).
    unfold digit in *. rewrite b128_acc by (unfold digit; lia).
    rewrite IH by (done || lia). by rewrite <-app_assoc.
Qed.

Lemma b128_split id k j :
  0 ≤ k → j = k + 7 → id / 2 ^ j * 128 + id / 2 ^ k mod 128 = id / 2 ^ k.
Proof.
  intros ? ->. rewrite Z.pow_add_r by lia. rewrite <-Z.div_div by lia.
  change (2 ^ 7) with 128. pose proof (Z.div_mod (id / 2 ^ k) 128). lia.
Qed.

Lemma top_digit id k : 0 ≤ k → 0 ≤ id < 2 ^ (k + 7) → 0 * 128 + id / 2 ^ k mod 128 = id / 2 ^ k.
Proof.
  intros Hk Hid. rewrite Z.mod_small; [lia|].
  split; [apply Z.div_pos; lia|]. apply Z.div_lt_upper_bound; [lia|].
  rewrite Z.pow_add_r in Hid by lia. lia.
Qed.

Lemma subid_digits id :
  0 ≤ id < 2 ^ 35 →
  ∃ ds d, subid_encode id = map (Z.add 128) ds ++ [d] ∧ Forall digit ds ∧ digit d ∧
          (length ds ≤ 4)%nat ∧ b128 0 (ds ++ [d]) = id.
Proof.
  intros Hid.
  assert (∀ k, 0 ≤ k → u8 (Z.lor 0x80 (Z.land (Z.shiftr id k) 0x7F)) =
                       128 + id / 2 ^ k mod 128) as Hc.
  { intros k Hk. rewrite land_7F, shiftr_div by lia.
    pose proof (Z.mod_pos_bound (id / 2 ^ k) 128).
    pose proof (lor_add 1 (id / 2 ^ k mod 128) 7) as E.
    change (1 * 2 ^ 7) with 128 in E. rewrite E by lia. apply u8_small. unfold is_byte; lia. }
  assert (u8 (Z.land id 0x7F) = id mod 128) as Hd.
  { rewrite land_7F. apply u8_small. pose proof (Z.mod_pos_bound id 128).
    unfold is_byte; lia. }
  assert (∀ x, digit (x mod 128)) as Hdig by (intros; apply Z.mod_pos_bound; lia).
  assert (id mod 128 = id / 2 ^ 0 mod 128) as Hz0 by (by rewrite Z.pow_0_r, Z.div_1_r).
  unfold subid_encode. rewrite !Hc, Hd, Hz0 by lia.
  repeat case_match; zbool; try lia;
    [exists [id / 2 ^ 28 mod 128; id / 2 ^ 21 mod 128; id / 2 ^ 14 mod 128; id / 2 ^ 7 mod 128]
    |exists [id / 2 ^ 21 mod 128; id / 2 ^ 14 mod 128; id / 2 ^ 7 mod 128]
    |exists [id / 2 ^ 14 mod 128; id / 2 ^ 7 mod 128]
    |exists [id / 2 ^ 7 mod 128]|exists []];
    exists (id / 2 ^ 0 mod 128); (split; [done|]); (split; [auto|]); (split; [auto|]);
    (split; [simpl; lia|]); cbn [b128 app]; rewrite top_digit by (simpl; lia);
    rewrite ?(b128_split id 21 28), ?(b128_split id 14 21), ?(b128_split id 7 14),
      ?(b128_split id 0 7) by lia; by rewrite Z.pow_0_r, Z.div_1_r.
Qed.

Lemma subid_decode_at id e pre post :
  0 ≤ id < 2 ^ 35 →
  asn1_subid_decode (at_ctx e pre (subid_encode id ++ post)) =
  Done id (at_ctx e (pre ++ subid_encode id) post).
Proof.
  intros (ds & d & -> & Hds & Hd & Hl & Hv)%subid_digits.
  unfold asn1_subid_decode, bind, get. rewrite <-app_assoc.
  change ([d] ++ post) with (d :: post). rewrite base128_at; [by rewrite Hv|done|done| |lia|].
  - split; [lia|]. apply Z.pow_pos_nonneg; lia.
  - unfold loop_fuel, at_ctx; simpl. rewrite !length_app, length_map. simpl. lia.
Qed.

Lemma subid_encode_nonempty id : (1 ≤ length (subid_encode id))%nat.
Proof. unfold subid_encode. rewrite !length_app. simpl. lia. Qed.

#[local] Arguments subid_encode : simpl never.

Lemma subids_encode_length ids :
  (length ids ≤ length (mjoin (subid_encode <$> ids)))%nat.
Proof.
  induction ids as [|id ids IH]; csimpl; [lia|].
  rewrite length_app. pose proof (subid_encode_nonempty id). lia.
Qed.

Lemma oid_loop_at ids fuel e pre post size oid :
  Forall (λ id, 0 ≤ id < 2 ^ 35) ids →
  let b := mjoin (subid_encode <$> ids) in
  Z.of_nat (length oid) + Z.of_nat (length ids) ≤ size → (length ids < fuel)%nat →
  oid_loop fuel (Z.of_nat (length pre + length b)) size oid (at_ctx e pre (b ++ post)) =
  Done (oid ++ ids) (at_ctx e (pre ++ b) post).
Proof.
  revert fuel pre oid. induction ids as [|id ids IH];
    intros [|fuel] pre oid Hids b Hs Hf; csimpl in *; try lia.
  - unfold bind, get. simpl.
    destruct (Z.ltb_spec (Z.of_nat (length pre)) (Z.of_nat (length pre + 0))); [lia|].
    by rewrite !app_nil_r.
  - apply Forall_cons in Hids as [Hid Hids]. unfold bind, get.
    subst b. rewrite ctx_pointer_at.
    rewrite length_app. pose proof (subid_encode_nonempty id).
    zdecide.
    rewrite <-(app_assoc (subid_encode id)), subid_decode_at by done.
    rewrite Nat.add_assoc, <-length_app, IH by (rewrite ?length_app; simpl; done || lia).
    by rewrite <-!app_assoc.
Qed.

#[local] Arguments oid_loop : simpl never.

(** Arcs that the encoder represents: the first two share one octet below
    128, the others fit in five base-128 digits. *)
Definition oid_encodable (oid : list Z) : Prop :=
  match oid with
  | a :: b :: rest =>
      0 ≤ a ≤ 2 ∧ 0 ≤ b ∧ (a < 2 → b < 40) ∧ 40 * a + b < 128 ∧
      Forall (λ id, 0 ≤ id < 2 ^ 35) rest
  | _ => False
  end.

(** The output fits the five octets per arc that the encoder allocates. *)
Lemma oid_encode_bound alloc oid b :
  oid_encodable oid → asn1_oid_encode alloc oid tt = Done b tt →
  Z.of_nat (length b) ≤ 5 * Z.of_nat (length oid).
Proof.
  unfold asn1_oid_encode. destruct (alloc _); [|done].
  destruct oid as [|a [|c rest]]; [done..|].
  intros (_ & _ & _ & _ & Hrest) [= <-]. simpl.
  induction Hrest as [|id rest Hid _ IH]; csimpl; [lia|]. rewrite length_app.
  destruct (subid_digits id Hid) as (ds & d & -> & _ & _ & ? & _).
  rewrite length_app, length_map. simpl. lia.
Qed.

Lemma oid_first_arcs_split a b :
  0 ≤ a ≤ 2 → 0 ≤ b → (a < 2 → b < 40) → oid_first_arcs (40 * a + b) = [a; b].
Proof.
  intros. unfold oid_first_arcs.
  assert (a = 0 ∨ a = 1 ∨ a = 2) as [->|[->| ->]] by lia; zdecide; repeat f_equal; lia.
Qed.

Lemma first_subid_at n e pre post :
  0 ≤ n < 128 →
  asn1_subid_decode (at_ctx e pre (n :: post)) = Done n (at_ctx e (pre ++ [n]) post).
Proof.
  intros. unfold asn1_subid_decode, bind, get.
  change (n :: post) with (map (Z.add 128) [] ++ n :: post).
  rewrite base128_at; [done|constructor|done|simpl; lia|simpl; lia|].
  unfold loop_fuel. simpl. lia.
Qed.

(** ** Properties *)

(** C8 (safety): from any well-formed context over octets,
    [asn1_header_decode] never reads outside the buffer (no [Fault]); it only
    moves the cursor forward inside the buffer; a definite [eoc] it returns
    lies between the cursor and the end of the buffer, so a length taken from
    the wire is never trusted beyond the buffer; and the NULL [eoc] of an
    indefinite length is returned for constructed encodings only. *)
Theorem asn1_header_decode_safe c :
  ctx_ok c →
  match asn1_header_decode c with
  | Done (eoc, cls, con, tag) c' =>
      advance c c' ∧
      match eoc with
      | Some q => ∀ p, ctx_pointer c' = Some p → p ≤ q ≤ ctx_end c'
      | None => con ≠ ASN1_PRI
      end
  | Err e c' => advance c c'
  | Fault => False
  end.
Proof.
  intros Hc. pose proof (header_decode_wp c Hc) as H. unfold wp in H.
  destruct (asn1_header_decode c) as [[[[eoc cls] con] tag] c'|e c'|]; [|done..].
  by destruct eoc.
Qed.

Lemma asn1_header_decode_safe_witness :
  ctx_ok (asn1_open [0x30; 0x82; 0xff; 0xff; 0x00]) ∧
  asn1_header_decode (asn1_open [0x30; 0x82; 0xff; 0xff; 0x00]) ≠ Fault.
Proof.
  assert (ctx_ok (asn1_open [0x30; 0x82; 0xff; 0xff; 0x00])) as H.
  { split; [repeat constructor; cbv; congruence|]. exists 0.
    split; [reflexivity|cbv; split; congruence]. }
  split; [exact H|]. intros E.
  pose proof (asn1_header_decode_safe _ H) as Hs. rewrite E in Hs. exact Hs.
Defined.

(** A header written by [asn1_header_encode] for a total
    length [len], followed by at least the payload it announces, is read back
    by [asn1_header_decode] with the same class, method and tag, the cursor
    behind the header and [eoc] exactly at the end of the payload. *)
Theorem asn1_header_roundtrip cls con tag len hdr r e pre post :
  0 ≤ cls < 4 → 0 ≤ con < 2 → 0 ≤ tag < 31 → 2 ≤ len < 2 ^ 32 →
  asn1_header_encode cls con tag len tt = Done (hdr, r) tt →
  r ≤ Z.of_nat (length post) →
  r + Z.of_nat (length hdr) = len ∧
  asn1_header_decode (at_ctx e pre (hdr ++ post)) =
    Done (Some (Z.of_nat (length pre + length hdr) + r), cls, con, tag)
         (at_ctx e (pre ++ hdr) post).
Proof.
  intros Hcls Hcon Htag Hlen (l & -> & Hl & Hr & Hsum)%header_encode_inv Hpost; [|done].
  split; [done|]. unfold asn1_header_decode, bind. simpl app.
  rewrite id_decode_at, (length_decode_at _ _ l r) by done. simpl.
  rewrite andb_false_r. unfold get, ret. simpl. rewrite !length_app, <-app_assoc. simpl.
  do 6 f_equal. lia.
Qed.

Lemma asn1_header_roundtrip_witness :
  asn1_header_encode 2 1 1 5 tt = Done ([0xa1; 3], 3) tt ∧
  asn1_header_decode (at_ctx 0 [] ([0xa1; 3] ++ [7; 8; 9])) =
    Done (Some 5, 2, 1, 1) (at_ctx 0 [0xa1; 3] [7; 8; 9]).
Proof.
  split; [reflexivity|].
  apply (asn1_header_roundtrip 2 1 1 5 [0xa1; 3] 3 0 [] [7; 8; 9]);
    try lia; reflexivity.
Defined.

(** The size that [asn1_header_len] computes for one header
    is the size for which [asn1_header_encode] succeeds, stores exactly
    [size - payload] octets and leaves exactly [payload] in [*len]. *)
Theorem asn1_header_len_encode cls con tag payload :
  0 ≤ payload < 2 ^ 31 - 6 →
  ∃ hdr, asn1_header_encode cls con tag (asn1_header_len payload 1) tt =
           Done (hdr, payload) tt ∧
         Z.of_nat (length hdr) + payload = asn1_header_len payload 1.
Proof.
  intros Hp.
  destruct (header_len_step_encode cls con tag payload) as (l & He & Hl & Hr); [lia|].
  assert (asn1_header_len payload 1 = header_len_step payload) as ->.
  { unfold asn1_header_len. rewrite u32_small by lia. simpl.
    unfold s32, signed, wrap. rewrite Z.mod_small; [lia|].
    unfold header_len_step in *. repeat case_match; zbool;
      rewrite (u32_small (payload + _)), u32_small in Hr |- * by lia; lia. }
  eexists; split; [done|]. simpl. lia.
Qed.

Lemma asn1_header_len_encode_witness :
  asn1_header_len 300 1 = 304 ∧
  ∃ hdr, asn1_header_encode 0 1 16 304 tt = Done (hdr, 300) tt ∧
         Z.of_nat (length hdr) + 300 = 304.
Proof.
  split; [reflexivity|]. apply (asn1_header_len_encode 0 1 16 300). lia.
Defined.

(** An object identifier whose arcs are representable
    (first two sharing an octet below 128, the others below 2^35) is encoded
    into at most five octets per arc, and [asn1_oid_decode] of those octets
    with [eoc] at their end returns the same arcs and stops there. *)
Theorem asn1_oid_roundtrip alloc alloc' oid b e pre post :
  (∀ n, alloc' n = true) → oid_encodable oid →
  asn1_oid_encode alloc oid tt = Done b tt →
  Z.of_nat (length b) < 2 ^ 28 →
  Z.of_nat (length b) ≤ 5 * Z.of_nat (length oid) ∧
  asn1_oid_decode alloc' (Some (Z.of_nat (length pre + length b)))
    (at_ctx e pre (b ++ post)) = Done oid (at_ctx e (pre ++ b) post).
Proof.
  intros Hall Henc Hb Hlen. split; [by eapply oid_encode_bound|].
  revert Hb. unfold asn1_oid_encode. destruct (alloc _); [|done].
  destruct oid as [|a [|c rest]]; [done..|].
  destruct Henc as (Ha & Hc & Hac & H128 & Hrest). intros [= <-].
  rewrite u8_small in * by (unfold is_byte; lia).
  set (bs := mjoin (subid_encode <$> rest)) in *. simpl in Hlen.
  unfold asn1_oid_decode, bind, get. rewrite ctx_pointer_at.
  replace (Z.of_nat (length pre + length (40 * a + c :: bs)) - Z.of_nat (length pre) + 1)
    with (Z.of_nat (length bs) + 2) by (simpl; lia).
  rewrite u32_small by lia. unfold UINT_MAX, sizeof_ulong.
  change ((2 ^ 32 - 1) / 8) with 536870911. zdecide. rewrite Hall. simpl.
  rewrite first_subid_at, oid_first_arcs_split by (done || lia).
  pose proof (subids_encode_length rest) as Hsl. fold bs in Hsl.
  replace (Z.of_nat (length pre + S (length bs)))
    with (Z.of_nat (length (pre ++ [40 * a + c]) + length bs))
    by (rewrite length_app; simpl; lia).
  unfold bs. rewrite oid_loop_at; [by rewrite <-app_assoc|done|simpl; fold bs; lia|].
  fold bs.
  unfold loop_fuel, at_ctx. simpl. rewrite length_app. simpl.
  rewrite length_app. lia.
Qed.

Lemma asn1_oid_roundtrip_witness :
  oid_encodable MSKRB5_OID ∧
  asn1_oid_decode (λ _, true) (Some 9)
    (asn1_open [42; 134; 72; 130; 247; 18; 1; 2; 2]) =
  Done MSKRB5_OID (at_ctx 0 [42; 134; 72; 130; 247; 18; 1; 2; 2] []).
Proof.
  assert (oid_encodable MSKRB5_OID) as H.
  { cbv -[Z.pow Z.le Z.lt Z.mul Z.add]. split_and!; try lia.
    repeat (constructor; [lia|]). constructor. }
  split; [exact H|].
  apply (asn1_oid_roundtrip (λ _, true) (λ _, true) MSKRB5_OID
           [42; 134; 72; 130; 247; 18; 1; 2; 2] 0 [] []);
    [reflexivity|exact H|reflexivity|simpl; lia].
Defined.
