(* ===== verification/Spnego.v ===== *)
(** * SPNEGO tokens ([src/tools/management/spnego.c])

    [decode_negTokenInit] parses the GSS token of an SMB2 SESSION SETUP and
    [encode_negTokenTarg] builds the reply.  The decoder works on an
    [asn1_ctx] and on the local pointer [oid], which it passes to
    [asn1_oid_decode] and to [g_free]; [oid_slot] tracks what that pointer
    holds, so that a second [g_free] of the same block is a [Fault]. *)

From S2P Require Import Prelude Asn1.

Definition SPNEGO_MECH_MSKRB5 : Z := 0.
Definition SPNEGO_MECH_KRB5 : Z := 1.
Definition SPNEGO_MAX_MECHS : Z := 2.

(** 0 when equal, like [memcmp]. *)
Fixpoint oid_mismatch (a b : list Z) : bool :=
  match a, b with
  | x :: a, y :: b => if x =? y then oid_mismatch a b else true
  | _, _ => false
  end.
Definition compare_oid (oid1 oid2 : list Z) : Z :=
  if negb (length oid1 =? length oid2)%nat then 1
  else if oid_mismatch oid1 oid2 then 1 else 0.

(** [Some mech_type] for a supported mechanism. *)
Definition is_supported_mech (oid : list Z) : option Z :=
  if compare_oid oid MSKRB5_OID =? 0 then Some SPNEGO_MECH_MSKRB5
  else if compare_oid oid KRB5_OID =? 0 then Some SPNEGO_MECH_KRB5
  else None.

Inductive oid_slot := SlotNull | SlotLive | SlotFreed.

Abbreviation decoder := (prog (asn1_ctx * oid_slot)).

Definition on_ctx {A} (m : prog asn1_ctx A) : decoder A := λ s,
  match m s.1 with
  | Done a c => Done a (c, s.2)
  | Err e c => Err e (c, s.2)
  | Fault => Fault
  end.

(** [g_free(oid)] *)
Definition free_oid : decoder unit := λ s,
  match s.2 with
  | SlotNull => Done tt s
  | SlotLive => Done tt (s.1, SlotFreed)
  | SlotFreed => Fault
  end.

(** The test of [asn1_oid_decode] that returns before [*oid] is stored. *)
Definition oid_size_refused (c : asn1_ctx) (eoc : option Z) : bool :=
  match ctx_pointer c, eoc with
  | Some p, Some q =>
      let size := u32 (q - p + 1) in
      (size <? 2) || (UINT_MAX / sizeof_ulong <? size)
  | _, _ => false
  end.

Section Decode.
Variable g_try_malloc : Z → bool.

(** [asn1_oid_decode(&ctx, end, &oid, &len)]: the variable [oid] is
    untouched by the early return, NULL after a later failure, and owns the
    array after success. *)
Definition oid_decode_into (eoc : option Z) : decoder (list Z) := λ s,
  match asn1_oid_decode g_try_malloc eoc s.1 with
  | Done o c => Done o (c, SlotLive)
  | Err e c => Err e (c, if oid_size_refused s.1 eoc then s.2 else SlotNull)
  | Fault => Fault
  end.

(** Returns [*end]. *)
Definition decode_asn1_header (cls con tag : Z) : prog asn1_ctx (option Z) :=
  let* (eoc, d_cls, d_con, d_tag) := asn1_header_decode else_return (- EINVAL) in
  if negb (d_cls =? cls) || negb (d_con =? con) || negb (d_tag =? tag)
  then fail (- EINVAL) else ret eoc.

(** [decode ... || compare ...] then [g_free(oid); return -EINVAL], or
    [g_free(oid)] on the way on. *)
Definition expect_oid (oid : list Z) : decoder unit :=
  e <- on_ctx (decode_asn1_header ASN1_UNI ASN1_PRI ASN1_OJI) ;;
  o <- oid_decode_into e ;;
  if compare_oid o oid =? 0 then ret tt else fail (- EINVAL).

Definition free_on_error (m : decoder unit) : decoder unit :=
  r <- attempt m ;;
  free_oid ;;
  match r with inl _ => ret tt | inr _ => fail (- EINVAL) end.

(** Up to and including the mechanism list: returns
    [(mech_type, mech_types_end)]. *)
Definition decode_mech_types : decoder (Z * option Z) :=
  (* GSSAPI header *)
  on_ctx (decode_asn1_header ASN1_APL ASN1_CON ASN1_EOC) ;;
  (* SPNEGO oid *)
  free_on_error (expect_oid SPNEGO_OID) ;;
  (* negTokenInit *)
  on_ctx (decode_asn1_header ASN1_CTX ASN1_CON 0) ;;
  on_ctx (decode_asn1_header ASN1_UNI ASN1_CON ASN1_SEQ) ;;
  (* mechTypes *)
  on_ctx (decode_asn1_header ASN1_CTX ASN1_CON 0) ;;
  mech_types_end <- on_ctx (decode_asn1_header ASN1_UNI ASN1_CON ASN1_SEQ) ;;
  e <- on_ctx (decode_asn1_header ASN1_UNI ASN1_PRI ASN1_OJI) ;;
  oid <- oid_decode_into e else_return (- EINVAL) ;;
  match is_supported_mech oid with
  | None => free_oid ;; fail (- EINVAL)
  | Some mech_type => free_oid ;; ret (mech_type, mech_types_end)
  end.

(** The mechToken: returns [(krb5_ap_req, req_len)]; the AP_REQ is a pointer
    into the token, here its octets. *)
Definition decode_mech_token : decoder (bytes * Z) :=
  on_ctx (decode_asn1_header ASN1_CTX ASN1_CON 2) ;;
  on_ctx (decode_asn1_header ASN1_UNI ASN1_PRI ASN1_OTS) ;;
  on_ctx (decode_asn1_header ASN1_APL ASN1_CON ASN1_EOC) ;;
  e <- on_ctx (decode_asn1_header ASN1_UNI ASN1_PRI ASN1_OJI) ;;
  free_on_error
    (o <- oid_decode_into e ;;
     if compare_oid o KRB5_OID =? 0 then ret tt else fail (- EINVAL)) ;;
  (* AP_REQ id *)
  id <- on_ctx (asn1_read g_try_malloc 2) else_return (- EINVAL) ;;
  match id with
  | [i0; i1] =>
      if negb (i0 =? 1) || negb (i1 =? 0) then fail (- EINVAL)
      else
        s <- get ;;
        match ctx_pointer s.1 with
        | None => fault
        | Some p => ret (drop (Z.to_nat p) (ctx_buf s.1), u32 (ctx_end s.1 - p))
        end
  | _ => fault
  end.

(** Returns [(mech_type, krb5_ap_req, req_len)]. *)
Definition decode_negTokenInit (token : bytes) : outcome (asn1_ctx * oid_slot) (Z * bytes * Z) :=
  (let* (mech_type, mech_types_end) := decode_mech_types in
   modify (λ s, (set_pointer mech_types_end s.1, s.2)) ;;
   let* (ap_req, req_len) := decode_mech_token in
   ret (mech_type, ap_req, req_len)) (asn1_open token, SlotNull).
End Decode.

(** ** The reply *)

(** Nested [asn1_header_encode] calls threading [&buf] and [&len]: each
    (cls, con, tag) in turn. *)
Fixpoint headers_encode (hs : list (Z * Z * Z)) (len : Z) : prog unit (bytes * Z) :=
  match hs with
  | [] => ret ([], len)
  | (cls, con, tag) :: hs =>
      let* (b, len) := asn1_header_encode cls con tag len in
      let* (bs, len) := headers_encode hs len in
      ret (b ++ bs, len)
  end.

(** The octets stored at [*out_blob] (in order) and [*out_len]. *)
Definition encode_negTokenTarg (g_try_malloc : Z → bool) (in_blob : bytes) (oid : list Z) :
    prog unit (bytes * Z) :=
  let in_len := Z.of_nat (length in_blob) in
  sup_oid <- asn1_oid_encode g_try_malloc oid else_return (- ENOMEM) ;;
  krb5_oid <- asn1_oid_encode g_try_malloc KRB5_OID else_return (- ENOMEM) ;;
  let sup_oid_len := Z.of_nat (length sup_oid) in
  let krb5_oid_len := Z.of_nat (length krb5_oid) in
  let neg_result_len := u32 (asn1_header_len 1 2) in
  let sup_mech_len := u32 (asn1_header_len sup_oid_len 2) in
  let rep_token_len := u32 (asn1_header_len krb5_oid_len 1) in
  let rep_token_len := u32 (rep_token_len + 2 + in_len) in
  let rep_token_len := u32 (asn1_header_len rep_token_len 3) in
  let out_len := u32 (asn1_header_len
                        (u32 (neg_result_len + sup_mech_len + rep_token_len)) 2) in
  if negb (g_try_malloc out_len) then fail (- ENOMEM)
  else
    (* negTokenTarg *)
    let* (b1, _) := headers_encode [(ASN1_CTX, ASN1_CON, 1);
                                    (ASN1_UNI, ASN1_CON, ASN1_SEQ)] out_len in
    (* negResult *)
    let* (b2, _) := headers_encode [(ASN1_CTX, ASN1_CON, 0);
                                    (ASN1_UNI, ASN1_PRI, ASN1_ENUM)] neg_result_len in
    (* supportedMechType *)
    let* (b3, len3) := headers_encode [(ASN1_CTX, ASN1_CON, 1);
                                       (ASN1_UNI, ASN1_PRI, ASN1_OJI)] sup_mech_len in
    (* responseToken *)
    let* (b4, _) := headers_encode [(ASN1_CTX, ASN1_CON, 2);
                                    (ASN1_UNI, ASN1_PRI, ASN1_OTS);
                                    (ASN1_APL, ASN1_CON, 0)] rep_token_len in
    let* (b5, len5) := headers_encode [(ASN1_UNI, ASN1_PRI, ASN1_OJI)]
                         (u32 (asn1_header_len krb5_oid_len 1)) in
    (* memcpy of the OID, then buf += len: len octets, zero-filled by malloc0 *)
    let pad n := replicate (Z.to_nat n) 0 in
    ret (b1 ++ b2 ++ [0] ++
         b3 ++ sup_oid ++ pad (len3 - sup_oid_len) ++
         b4 ++ b5 ++ krb5_oid ++ pad (len5 - krb5_oid_len) ++
         [2; 0] ++ in_blob, out_len).

(** ** The request handler *)
Definition spnego_handle_authen_request {T : Type} (g_try_malloc : Z → bool)
    (handle_authen : Z → bytes → option T) (spnego_blob : bytes) :
    outcome (asn1_ctx * oid_slot) T :=
  match decode_negTokenInit g_try_malloc spnego_blob with
  | Done (mech_type, mech_token, _) s =>
      if SPNEGO_MAX_MECHS <=? mech_type then Err (- ENOTSUP) s
      else match handle_authen mech_type mech_token with
           | None => Err (- EPERM) s
           | Some out => Done out s
           end
  | Err _ s => Err (- EINVAL) s
  | Fault => Fault
  end.

(** ** The parser never leaves the token

    [parsing token s]: the context is well formed and stands in [token]. *)
Definition parsing (token : bytes) (c : asn1_ctx) : Prop :=
  ctx_ok c ∧ ctx_buf c = token.

Lemma parsing_advance token c c' : parsing token c → advance c c' → parsing token c'.
Proof.
  intros [Hok <-] Ha. split; [by eapply advance_ok|]. by destruct Ha as [-> _].
Qed.

Lemma wp_on_ctx {A} (m : prog asn1_ctx A) s Q E :
  wp m s.1 (λ a c, Q a (c, s.2)) (λ e c, E e (c, s.2)) → wp (on_ctx m) s Q E.
Proof. unfold wp, on_ctx. by destruct (m s.1). Qed.

(** What [*end] is after a header of the expected kind. *)
Definition eoc_ok (con : Z) (c : asn1_ctx) (eoc : option Z) : Prop :=
  match eoc with
  | Some q => ∀ p, ctx_pointer c = Some p → p ≤ q ≤ ctx_end c
  | None => con ≠ ASN1_PRI
  end.

Section DecodeSafety.
Variable g_try_malloc : Z → bool.
Variable token : bytes.

Lemma decode_asn1_header_wp cls con tag c :
  parsing token c →
  wp (decode_asn1_header cls con tag) c
    (λ eoc c', parsing token c' ∧ eoc_ok con c' eoc) (λ e c', parsing token c' ∧ e = - EINVAL).
Proof.
  intros Hp. unfold decode_asn1_header. apply wp_bind, wp_or_return.
  wp_by (apply header_decode_wp; apply Hp);
    [|intros; split; [by eapply parsing_advance|done]].
  intros [[[eoc cl] co] tg] c' [Ha Heoc].
  assert (parsing token c') by (by eapply parsing_advance).
  wp_step; [by apply wp_fail|]. apply wp_ret. zbool. simplify_eq.
  split; [done|]. by destruct eoc.
Qed.

Lemma header_wp cls con tag s :
  parsing token s.1 →
  wp (on_ctx (decode_asn1_header cls con tag)) s
    (λ eoc s', parsing token s'.1 ∧ eoc_ok con s'.1 eoc ∧ s'.2 = s.2)
    (λ e s', parsing token s'.1 ∧ s'.2 = s.2 ∧ e = - EINVAL).
Proof.
  intros Hp. apply wp_on_ctx. wp_by (by apply decode_asn1_header_wp); naive_solver.
Qed.

Lemma oid_decode_into_wp eoc s :
  parsing token s.1 → eoc_ok ASN1_PRI s.1 eoc →
  wp (oid_decode_into g_try_malloc eoc) s
    (λ _ s', parsing token s'.1 ∧ s'.2 = SlotLive)
    (λ _ s', parsing token s'.1 ∧ (s'.2 = s.2 ∨ s'.2 = SlotNull)).
Proof.
  intros Hp He. pose proof Hp as [(_ & p & Hptr & Hr) _].
  destruct eoc as [q|]; simpl in He; [|done].
  specialize (He _ Hptr).
  pose proof (oid_decode_wp g_try_malloc _ _ q Hptr Hr He) as Hw.
  unfold oid_decode_into, wp in *.
  destruct (asn1_oid_decode _ _ _) as [o c|e c|]; simpl; [|split|done].
  - split; [|done]. destruct Hw. by eapply parsing_advance.
  - by eapply parsing_advance.
  - destruct (oid_size_refused _ _); auto.
Qed.

Lemma free_on_error_wp m s :
  wp m s (λ _ s', parsing token s'.1 ∧ s'.2 ≠ SlotFreed)
         (λ _ s', parsing token s'.1 ∧ s'.2 ≠ SlotFreed) →
  wp (free_on_error m) s (λ _ s', parsing token s'.1) (λ e s', parsing token s'.1 ∧ e = - EINVAL).
Proof.
  intros Hm. unfold free_on_error. apply wp_bind, wp_attempt.
  wp_by exact Hm; intros a s' [Hp Hs]; apply wp_bind; unfold wp, free_oid;
    by destruct s' as [c []].
Qed.

(** Either way the variable [oid] does not hold a freed block. *)
Definition clean (s : asn1_ctx * oid_slot) : Prop := parsing token s.1 ∧ s.2 ≠ SlotFreed.

Lemma oid_check_wp oid eoc s :
  clean s → eoc_ok ASN1_PRI s.1 eoc →
  wp (o <- oid_decode_into g_try_malloc eoc ;;
      if compare_oid o oid =? 0 then ret tt else fail (- EINVAL)) s
    (λ _ s', clean s') (λ _ s', clean s').
Proof.
  intros [Hp Hs] He. apply wp_bind. wp_by (by apply oid_decode_into_wp).
  - intros o s' [? Hl]. assert (clean s') by (split; [done|by rewrite Hl]).
    wp_step; [by apply wp_ret|by apply wp_fail].
  - intros e s' [? [Hl|Hl]]; (split; [done|]); congruence.
Qed.

Lemma expect_oid_wp oid s :
  clean s → wp (expect_oid g_try_malloc oid) s (λ _ s', clean s') (λ _ s', clean s').
Proof.
  intros [Hp Hs]. unfold expect_oid. apply wp_bind. wp_by (by apply header_wp).
  - intros e s' (? & ? & Hl). apply oid_check_wp; [|done]. split; [done|congruence].
  - intros e s' (? & Hl & _). split; [done|congruence].
Qed.

Ltac header :=
  apply wp_bind; wp_by (by apply header_wp); [intros ? ? (? & ? & ?)|naive_solver].

Lemma decode_mech_types_wp s :
  parsing token s.1 → s.2 = SlotNull →
  wp (decode_mech_types g_try_malloc) s
    (λ r s', parsing token s'.1 ∧ eoc_ok ASN1_CON s'.1 None ∧
             match r.2 with Some q => 0 ≤ q ≤ ctx_end s'.1 | None => True end)
    (λ e s', parsing token s'.1 ∧ e = - EINVAL).
Proof.
  intros Hp Hs. unfold decode_mech_types. header. apply wp_bind.
  wp_by (apply free_on_error_wp, expect_oid_wp; split; [done|congruence]); [|done].
  intros _ s1 Hp1. do 3 header. apply wp_bind. wp_by (by apply header_wp); [|naive_solver].
  intros mte s5 (Hp5 & Heoc & _).
  assert (match mte with Some q => 0 ≤ q ≤ Z.of_nat (length token) | None => True end) as Hq.
  { destruct mte as [q|]; [|done]. destruct Hp5 as [(_ & p & Hptr & Hr) Hb].
    simpl in Heoc. specialize (Heoc _ Hptr). unfold ctx_end in *. rewrite Hb in *. lia. }
  header. apply wp_bind, wp_or_return.
  wp_by (by apply oid_decode_into_wp); [|naive_solver].
  intros o s7 [Hp7 Hs7].
  assert (free_oid s7 = Done tt (s7.1, SlotFreed)) as Hf by (unfold free_oid; by rewrite Hs7).
  wp_step; apply wp_bind; unfold wp at 1; rewrite Hf; [apply wp_ret|by apply wp_fail].
  split_and!; [done..|]. destruct mte; [|done]. simpl. destruct Hp7 as [_ Hb].
  unfold ctx_end. by rewrite Hb.
Qed.

Lemma decode_mech_token_wp s :
  parsing token s.1 → s.2 = SlotNull →
  wp (decode_mech_token g_try_malloc) s
    (λ r s', parsing token s'.1 ∧ r.1 `suffix_of` token ∧
             r.2 = u32 (Z.of_nat (length r.1)))
    (λ e s', parsing token s'.1 ∧ e = - EINVAL).
Proof.
  intros Hp Hs. unfold decode_mech_token. do 4 header. apply wp_bind.
  wp_by (apply free_on_error_wp, oid_check_wp; [split; [done|congruence]|done]); [|done].
  intros _ s5 Hp5. apply wp_bind, wp_or_return, wp_on_ctx.
  pose proof Hp5 as [(_ & p & Hptr & Hr) _].
  wp_by (by apply (read_wp _ 2 _ p)); [|intros; split; [by eapply parsing_advance|done]].
  intros id c6 (Ha & Hl & Hp6 & _).
  assert (parsing token c6) as Hpc by (by eapply parsing_advance).
  destruct id as [|i0 [|i1 [|]]]; simpl in Hl; try lia.
  wp_step; [by apply wp_fail|]. apply wp_bind, wp_get. simpl. rewrite Hp6.
  apply wp_ret. split; [done|]. destruct Hpc as [(_ & p' & Hp' & Hr') Hb].
  rewrite Hp6 in Hp'. injection Hp' as <-.
  simpl. split; [rewrite <-Hb; apply suffix_drop|].
  rewrite length_drop. unfold ctx_end in *. f_equal. lia.
Qed.
End DecodeSafety.

(** ** Sizes of the reply *)
Lemma header_len_step_bounds n :
  0 ≤ n < 2 ^ 32 - 6 → n + 2 ≤ header_len_step n ≤ n + 6.
Proof.
  intros. unfold header_len_step.
  repeat case_match; zbool; rewrite (u32_small (n + _)), u32_small by lia; lia.
Qed.

Lemma header_len_iter_bounds k n :
  0 ≤ n → n + 6 * Z.of_nat k < 2 ^ 31 →
  n ≤ Nat.iter k header_len_step n ≤ n + 6 * Z.of_nat k.
Proof.
  intros H0. induction k as [|k IH]; intros Hk; simpl; [lia|].
  pose proof (header_len_step_bounds (Nat.iter k header_len_step n)). lia.
Qed.

Lemma asn1_header_len_iter k n d :
  0 ≤ n → n + 6 * Z.of_nat k < 2 ^ 31 → d = Z.of_nat k →
  u32 (asn1_header_len n d) = Nat.iter k header_len_step n.
Proof.
  intros H0 Hk ->. pose proof (header_len_iter_bounds k n H0 Hk).
  unfold asn1_header_len. rewrite Nat2Z.id, (u32_small n) by lia.
  unfold s32, signed. rewrite wrap_small by lia. rewrite u32_small; lia.
Qed.

(** Nested headers leave exactly the payload for which they were sized. *)
Lemma headers_encode_exact hs n :
  0 ≤ n → n + 6 * Z.of_nat (length hs) < 2 ^ 31 →
  ∃ b, headers_encode hs (Nat.iter (length hs) header_len_step n) tt = Done (b, n) tt ∧
       Z.of_nat (length b) + n = Nat.iter (length hs) header_len_step n.
Proof.
  intros H0. induction hs as [|[[cls con] tag] hs IH]; intros Hl; simpl in *.
  { by exists []. }
  set (m := Nat.iter (length hs) header_len_step n) in *.
  pose proof (header_len_iter_bounds (length hs) n H0) as Hb. fold m in Hb.
  destruct (header_len_step_encode cls con tag m) as (l & He & Hlen & _); [lia|].
  destruct IH as (b & Hb' & Hbl); [lia|].
  exists ((id_octet cls con tag :: l) ++ b). unfold bind. rewrite He, Hb'.
  split; [done|]. rewrite length_app. simpl. lia.
Qed.

Lemma oid_encode_ok alloc oid :
  (∀ n, alloc n = true) → (2 ≤ length oid)%nat →
  ∃ b, asn1_oid_encode alloc oid tt = Done b tt.
Proof.
  intros Hall Hl. unfold asn1_oid_encode. rewrite Hall.
  destruct oid as [|a [|c rest]]; simpl in *; try lia. eauto.
Qed.

(** The result of a run, without the final parser state. *)
Definition result_of {S A} (r : outcome S A) : option (A + Z) :=
  match r with
  | Done a _ => Some (inl a)
  | Err e _ => Some (inr e)
  | Fault => None
  end.

(** ** Where the parser faults

    With a NULL cursor the next header faults. *)
Lemma mech_token_null alloc c sl : decode_mech_token alloc (set_pointer None c, sl) = Fault.
Proof. done. Qed.
(** The headers of the mechanism's token up to its OID, and an OID without
    octets: its end is where the cursor stands. *)
Definition token_headers : prog asn1_ctx (option Z) :=
  decode_asn1_header ASN1_CTX ASN1_CON 2 ;; decode_asn1_header ASN1_UNI ASN1_PRI ASN1_OTS ;;
  decode_asn1_header ASN1_APL ASN1_CON ASN1_EOC ;; decode_asn1_header ASN1_UNI ASN1_PRI ASN1_OJI.
Definition empty_oid_at (c : asn1_ctx) : Prop :=
  ∃ p c', token_headers c = Done (Some p) c' ∧ ctx_pointer c' = Some p.
(** The first half ends with [oid] freed. *)
Lemma mech_types_slot alloc s r s' :
  decode_mech_types alloc s = Done r s' → s'.2 = SlotFreed.
Proof.
  unfold decode_mech_types, bind. intros H.
  repeat (case_match; simplify_eq).
  injection H as _ <-. revert H7 H9. unfold or_return, oid_decode_into, free_oid.
  repeat case_match; naive_solver.
Qed.

(** ** Tokens in DER

    The identifier octet, the length and the content; tokens have less than
    2^16 octets. *)
Definition der_length (n : Z) : bytes :=
  if n <? 128 then [n] else if n <? 256 then [0x81; n] else [0x82; n / 256; n mod 256].
Definition tlv (id : Z) (content : bytes) : bytes := id :: der_length (Z.of_nat (length content)) ++ content.
(** RFC 4178: the token of the application tag 0 has the identifier of SPNEGO
    and a NegTokenInit, of which [others] are the mechanisms after the first
    one and [more] what follows the token of the mechanism. *)
Definition spnego_octets : bytes := [43; 6; 1; 5; 5; 2].
Definition neg_token_init (mech others token more : bytes) : bytes :=
  tlv 0x60 (tlv 0x06 spnego_octets ++
    tlv 0xA0 (tlv 0x30 (tlv 0xA0 (tlv 0x30 (tlv 0x06 mech ++ others)) ++ tlv 0xA2 (tlv 0x04 token) ++ more))).
(** RFC 4121: a Kerberos token has the application tag 0, the identifier of the
    mechanism, two octets that say what it is, and the message. *)
Definition krb5_token (mech : bytes) (id0 id1 : Z) (message : bytes) : bytes :=
  tlv 0x60 (tlv 0x06 mech ++ [id0; id1] ++ message).
Definition mech_of (oid : list Z) : option Z :=
  if decide (oid = MSKRB5_OID) then Some SPNEGO_MECH_MSKRB5
  else if decide (oid = KRB5_OID) then Some SPNEGO_MECH_KRB5 else None.

Lemma der_length_octets n : 0 ≤ n < 2 ^ 16 → length_octets (der_length n) n.
Proof.
  intros Hn. unfold der_length. destruct (Z.ltb_spec n 128); [apply len_short; lia|]. destruct (Z.ltb_spec n 256).
  - apply (len_long 1 [n]); [done|lia| |lia]. rewrite be_acc_cons by (unfold is_byte; lia). cbn. lia.
  - pose proof (Z.div_mod n 256 ltac:(lia)). pose proof (Z.mod_pos_bound n 256 ltac:(lia)).
    assert (0 ≤ n / 256 < 256) by (split; [apply Z.div_pos; lia|apply Z.div_lt_upper_bound; lia]).
    apply (len_long 2 [n / 256; n mod 256]); [done|lia| |lia].
    rewrite be_acc_cons by (unfold is_byte; lia). rewrite be_acc_cons by (unfold is_byte; lia). cbn -[Z.mul]. lia.
Qed.
Definition tlv_header (id : Z) (content : bytes) : bytes := id :: der_length (Z.of_nat (length content)).
Lemma tlv_split id content : tlv id content = tlv_header id content ++ content.
Proof. done. Qed.
Lemma tlv_longer id content : (length content < length (tlv id content))%nat.
Proof. unfold tlv. cbn. rewrite length_app. lia. Qed.

(** A header of the expected kind, where a token has it. *)
Lemma header_at cls con tag id content e pre post :
  id = id_octet cls con tag → 0 ≤ cls < 4 → 0 ≤ con < 2 → 0 ≤ tag < 31 → Z.of_nat (length content) < 2 ^ 16 →
  decode_asn1_header cls con tag (at_ctx e pre (tlv id content ++ post)) =
  Done (Some (Z.of_nat (length (pre ++ tlv id content)))) (at_ctx e (pre ++ tlv_header id content) (content ++ post)).
Proof.
  intros -> Hc Ho Ht Hl. unfold decode_asn1_header, tlv, tlv_header. set (n := Z.of_nat (length content)) in *.
  cbn [app]. rewrite <-app_assoc. unfold or_return, asn1_header_decode, bind.
  rewrite id_decode_at by done. rewrite (length_decode_at _ _ (der_length n) n).
  2:{ apply der_length_octets. lia. }
  2:{ rewrite length_app. lia. }
  rewrite andb_false_r. unfold get, ret. cbn [ctx_pointer at_ctx fmap option_fmap option_map Z.eqb].
  rewrite !Z.eqb_refl. cbn [negb orb]. rewrite <-app_assoc. do 2 f_equal. rewrite !length_app. cbn. rewrite !length_app. cbn. lia.
Qed.
Lemma oid_at alloc alloc' oid b e pre post :
  (∀ n, alloc' n = true) → oid_encodable oid → asn1_oid_encode alloc oid tt = Done b tt → Z.of_nat (length b) < 2 ^ 16 →
  asn1_oid_decode alloc' (Some (Z.of_nat (length (pre ++ b)))) (at_ctx e pre (b ++ post)) = Done oid (at_ctx e (pre ++ b) post).
Proof.
  intros Ha Ho Hb Hl. rewrite length_app. apply (asn1_oid_roundtrip alloc alloc' oid b e pre post); [done..|lia].
Qed.
Lemma oid_mismatch_spec a b : length a = length b → oid_mismatch a b = negb (bool_decide (a = b)).
Proof.
  revert b. induction a as [|x a IH]; intros [|y b] Hl; try done. cbn in *.
  destruct (Z.eqb_spec x y) as [->|Hn]; [rewrite IH by lia|].
  - f_equal. apply bool_decide_ext. split; [by intros ->|by intros [= ->]].
  - rewrite bool_decide_false by congruence. done.
Qed.
Lemma compare_oid_spec a b : compare_oid a b = if decide (a = b) then 0 else 1.
Proof.
  unfold compare_oid. destruct (Nat.eqb_spec (length a) (length b)) as [Hl|Hl]; cbn [negb].
  - rewrite oid_mismatch_spec by done. by destruct (decide (a = b)) as [E|E]; [rewrite bool_decide_true|rewrite bool_decide_false].
  - destruct (decide (a = b)); [congruence|done].
Qed.
Lemma is_supported_mech_spec oid : is_supported_mech oid = mech_of oid.
Proof.
  unfold is_supported_mech, mech_of. rewrite !compare_oid_spec. by destruct (decide (oid = MSKRB5_OID)), (decide (oid = KRB5_OID)).
Qed.
Lemma set_pointer_at e pre post pre' post' :
  pre ++ post = pre' ++ post' → set_pointer (Some (Z.of_nat (length pre'))) (at_ctx e pre post) = at_ctx e pre' post'.
Proof. intros E. unfold set_pointer, at_ctx. cbn. by rewrite E. Qed.

(** *** The two halves *)
Section Tokens.
Variables alloc alloc' : Z → bool.
Hypothesis alloc_given : ∀ n, alloc' n = true.
Variables (oid : list Z) (mech : bytes).
Hypothesis oid_ok : oid_encodable oid.
Hypothesis mech_octets : asn1_oid_encode alloc oid tt = Done mech tt.
Ltac at_header := rewrite header_at; [cbn [fst snd]; rewrite <-?app_assoc|reflexivity|by vm_compute|by vm_compute|by vm_compute|lia].

Lemma oid_into_at q e pre post sl :
  Z.of_nat (length mech) < 2 ^ 16 → q = Z.of_nat (length (pre ++ mech)) →
  oid_decode_into alloc' (Some q) (at_ctx e pre (mech ++ post), sl) = Done oid (at_ctx e (pre ++ mech) post, SlotLive).
Proof. intros Hl ->. unfold oid_decode_into. cbn [fst]. by rewrite (oid_at alloc alloc' oid mech) by done. Qed.
Lemma oid_check_at oid' q e pre post sl :
  Z.of_nat (length mech) < 2 ^ 16 → q = Z.of_nat (length (pre ++ mech)) →
  free_on_error (o <- oid_decode_into alloc' (Some q) ;;
    if compare_oid o oid' =? 0 then ret tt else fail (- EINVAL)) (at_ctx e pre (mech ++ post), sl) =
  (if decide (oid = oid') then Done tt else Err (- EINVAL)) (at_ctx e (pre ++ mech) post, SlotFreed).
Proof.
  intros Hl Hq. unfold free_on_error, bind, attempt. rewrite oid_into_at, compare_oid_spec by done. by destruct (decide (oid = oid')).
Qed.
Lemma spnego_at e pre post sl :
  free_on_error (expect_oid alloc' SPNEGO_OID) (at_ctx e pre (tlv 0x06 spnego_octets ++ post), sl) =
  Done tt (at_ctx e (pre ++ tlv 0x06 spnego_octets) post, SlotFreed).
Proof.
  unfold free_on_error, expect_oid, bind, attempt, on_ctx. cbn [fst snd]. rewrite header_at; [|reflexivity|by vm_compute..].
  unfold oid_decode_into. cbn [fst snd]. rewrite (tlv_split 0x06 spnego_octets), (app_assoc pre).
  rewrite (oid_at (λ _, true) alloc' SPNEGO_OID spnego_octets); [done|done| |done|cbn; lia].
  cbn. split_and!; try lia. repeat (constructor; [lia|]). constructor.
Qed.
Lemma read_two_at e pre a b post :
  asn1_read alloc' 2 (at_ctx e pre ([a; b] ++ post)) = Done [a; b] (at_ctx e (pre ++ [a; b]) post).
Proof.
  unfold asn1_read, bind at 1 2, get. rewrite remaining_at. rewrite (proj2 (Z.ltb_ge _ _)) by (cbn; lia).
  rewrite alloc_given, ctx_pointer_at. unfold bind, modify, ret, set_pointer, at_ctx. cbn [ctx_buf ctx_error].
  rewrite Nat2Z.id, drop_app_length, <-app_assoc. cbn. rewrite length_app. do 3 f_equal. cbn. lia.
Qed.
Lemma mech_token_at e pre id0 id1 message after sl :
  Z.of_nat (length (tlv 0xA2 (tlv 0x04 (krb5_token mech id0 id1 message)))) < 2 ^ 16 →
  Z.of_nat (length (message ++ after)) < 2 ^ 32 →
  result_of (decode_mech_token alloc' (at_ctx e pre (tlv 0xA2 (tlv 0x04 (krb5_token mech id0 id1 message)) ++ after), sl)) =
  Some (if decide (oid = KRB5_OID ∧ id0 = 1 ∧ id1 = 0)
        then inl (message ++ after, Z.of_nat (length (message ++ after))) else inr (- EINVAL)).
Proof.
  unfold krb5_token. set (T := tlv 0x06 mech ++ [id0; id1] ++ message). intros Hl Hm.
  pose proof (tlv_longer 0xA2 (tlv 0x04 (tlv 0x60 T))). pose proof (tlv_longer 0x04 (tlv 0x60 T)).
  pose proof (tlv_longer 0x60 T). pose proof (tlv_longer 0x06 mech).
  assert (length T = length (tlv 0x06 mech) + length ([id0; id1] ++ message))%nat by apply length_app.
  unfold decode_mech_token, bind at 1 2 3 4, on_ctx. cbn [fst snd]. do 3 at_header. unfold T. rewrite <-app_assoc. at_header.
  unfold bind at 1. rewrite oid_check_at; [|lia|by rewrite (tlv_split 0x06 mech), !app_assoc]. destruct (decide (oid = KRB5_OID)) as [E|E].
  2:{ rewrite decide_False by tauto. done. }
  unfold bind at 1, or_return. cbn [fst snd]. rewrite read_two_at. cbn [fst snd].
  destruct (Z.eqb_spec id0 1) as [E0|E0], (Z.eqb_spec id1 0) as [E1|E1]; cbn [negb orb];
    [rewrite decide_True by done|rewrite decide_False by tauto; done..].
  unfold bind, get, ret. cbn [fst]. rewrite ctx_pointer_at, ctx_end_at. unfold at_ctx. cbn [ctx_buf result_of].
  rewrite Nat2Z.id, drop_app_length, u32_small by lia. do 3 f_equal. lia.
Qed.
Lemma mech_types_at others R after :
  Z.of_nat (length (tlv 0x60 (tlv 0x06 spnego_octets ++ tlv 0xA0 (tlv 0x30 (tlv 0xA0 (tlv 0x30 (tlv 0x06 mech ++ others)) ++ R))))) < 2 ^ 16 →
  ∃ pre pre' post', 
    decode_mech_types alloc' (asn1_open (tlv 0x60 (tlv 0x06 spnego_octets ++ tlv 0xA0 (tlv 0x30 (tlv 0xA0 (tlv 0x30 (tlv 0x06 mech ++ others)) ++ R))) ++ after), SlotNull) =
    match mech_of oid with
    | Some m => Done (m, Some (Z.of_nat (length pre)))
    | None => Err (- EINVAL)
    end (at_ctx ASN1_ERR_NOERROR pre' post', SlotFreed) ∧
    pre' ++ post' = pre ++ R ++ after.
Proof.
  set (L := tlv 0x06 mech ++ others). set (M := tlv 0xA0 (tlv 0x30 L)). set (S := tlv 0x30 (M ++ R)).
  set (C := tlv 0x06 spnego_octets ++ tlv 0xA0 S). intros Hl.
  pose proof (tlv_longer 0x60 C). pose proof (tlv_longer 0xA0 S). pose proof (tlv_longer 0x30 (M ++ R) : (length (M ++ R) < length S)%nat).
  pose proof (tlv_longer 0xA0 (tlv 0x30 L) : (length (tlv 0x30 L) < length M)%nat). pose proof (tlv_longer 0x30 L). pose proof (tlv_longer 0x06 mech).
  assert (length C = length (tlv 0x06 spnego_octets) + length (tlv 0xA0 S))%nat by apply length_app.
  assert (length (M ++ R) = length M + length R)%nat by apply length_app.
  assert (length L = length (tlv 0x06 mech) + length others)%nat by apply length_app.
  change (asn1_open ?b) with (at_ctx ASN1_ERR_NOERROR [] b).
  unfold decode_mech_types, bind, on_ctx. cbn [fst snd]. at_header. unfold C. rewrite <-?app_assoc. rewrite spnego_at. cbn [fst snd].
  fold C. at_header. unfold S. at_header. unfold M. at_header. at_header. unfold L. rewrite <-app_assoc. at_header.
  unfold or_return. rewrite oid_into_at; [|lia|by rewrite (tlv_split 0x06 mech), <-!app_assoc].
  rewrite is_supported_mech_spec. eexists _, _, _. split; [by destruct (mech_of oid)|].
  rewrite (tlv_split 0x30 (tlv 0x06 mech ++ others)), (tlv_split 0x06 mech), <-!app_assoc. reflexivity.
Qed.
End Tokens.

Lemma token_length mech others mech' id0 id1 message more :
  let token := neg_token_init mech others (krb5_token mech' id0 id1 message) more in
  (length (tlv 0xA2 (tlv 0x04 (krb5_token mech' id0 id1 message))) ≤ length token)%nat ∧
  (length message + length more ≤ length token)%nat.
Proof.
  unfold neg_token_init, krb5_token. set (T := tlv 0x06 mech' ++ [id0; id1] ++ message).
  assert (length message ≤ length T)%nat by (unfold T; rewrite !length_app; cbn; lia).
  set (R := tlv 0xA2 (tlv 0x04 (tlv 0x60 T))).
  pose proof (tlv_longer 0xA2 (tlv 0x04 (tlv 0x60 T)) : (length (tlv 0x04 (tlv 0x60 T)) < length R)%nat).
  pose proof (tlv_longer 0x04 (tlv 0x60 T)). pose proof (tlv_longer 0x60 T). clearbody R.
  set (M := tlv 0xA0 (tlv 0x30 (tlv 0x06 mech ++ others))). pose proof (tlv_longer 0x30 (M ++ R ++ more)) as H3. set (S := tlv 0x30 (M ++ R ++ more)) in *.
  pose proof (tlv_longer 0xA0 S). pose proof (tlv_longer 0x60 (tlv 0x06 spnego_octets ++ tlv 0xA0 S)) as H5.
  rewrite length_app in H5. rewrite length_app, length_app in H3. cbv zeta. lia.
Qed.
(** ** Properties *)


(** A well-formed token, accepted with its AP_REQ. *)
Definition good_token : bytes :=
  [96; 60; 6; 6; 43; 6; 1; 5; 5; 2; 160; 50; 48; 48; 160; 24; 48; 22; 6; 9; 42; 134; 72;
   130; 247; 18; 1; 2; 2; 6; 9; 42; 134; 72; 134; 247; 18; 1; 2; 2; 162; 20; 4; 18; 96;
   16; 6; 9; 42; 134; 72; 134; 247; 18; 1; 2; 2; 1; 0; 9; 9; 9].
(** The same with an indefinite length on the mechTypes SEQUENCE. *)
Definition indefinite_token : bytes :=
  [96; 49; 6; 6; 43; 6; 1; 5; 5; 2; 160; 39; 48; 37; 160; 13; 48; 128; 6; 9; 42; 134; 72;
   130; 247; 18; 1; 2; 2; 162; 20; 4; 18; 96; 16; 6; 9; 42; 134; 72; 134; 247; 18; 1; 2;
   2; 1; 0; 9; 9; 9].
(** The same with an empty mechToken OID. *)
Definition empty_oid_token : bytes :=
  [96; 51; 6; 6; 43; 6; 1; 5; 5; 2; 160; 41; 48; 39; 160; 24; 48; 22; 6; 9; 42; 134; 72;
   130; 247; 18; 1; 2; 2; 6; 9; 42; 134; 72; 134; 247; 18; 1; 2; 2; 162; 11; 4; 9; 96; 7;
   6; 0; 1; 0; 9; 9; 9].


(** What follows the headers *)
Definition mech_token_tail (alloc : Z → bool) (e : option Z) : decoder (bytes * Z) :=
  free_on_error (o <- oid_decode_into alloc e ;; if compare_oid o KRB5_OID =? 0 then ret tt else fail (- EINVAL)) ;;
  id <- on_ctx (asn1_read alloc 2) else_return (- EINVAL) ;;
  match id with
  | [i0; i1] =>
      if negb (i0 =? 1) || negb (i1 =? 0) then fail (- EINVAL)
      else
        s <- get ;;
        match ctx_pointer s.1 with
        | None => fault
        | Some p => ret (drop (Z.to_nat p) (ctx_buf s.1), u32 (ctx_end s.1 - p))
        end
  | _ => fault
  end.
Lemma mech_token_split alloc c sl :
  decode_mech_token alloc (c, sl) =
  match token_headers c with
  | Done e c' => mech_token_tail alloc e (c', sl)
  | Err e c' => Err e (c', sl)
  | Fault => Fault
  end.
Proof.
  unfold decode_mech_token, token_headers. unfold bind at 1 2 3 4, on_ctx at 1 2 3 4. unfold bind. cbn [fst snd].
  do 4 (destruct (decode_asn1_header _ _ _ _) as [? ?|? ?|]; [cbn [fst snd]|done..]). done.
Qed.
Lemma token_headers_wp token c :
  parsing token c → wp token_headers c (λ e c', parsing token c' ∧ eoc_ok ASN1_PRI c' e) (λ e c', parsing token c' ∧ e = - EINVAL).
Proof.
  intros Hp. unfold token_headers. do 3 (apply wp_bind; wp_by (by apply (decode_asn1_header_wp token)); [|done];
    clear c Hp; intros ? c [Hp _]). by apply decode_asn1_header_wp.
Qed.
(** The block that was freed is freed again exactly when the OID is refused for
    its size. *)
Lemma token_tail_refused alloc token e c :
  parsing token c → eoc_ok ASN1_PRI c e → oid_size_refused c e = true → mech_token_tail alloc e (c, SlotFreed) = Fault.
Proof.
  intros [(_ & p & Hp & Hr) _] He Hf. unfold mech_token_tail, free_on_error, bind, attempt, oid_decode_into. cbn [fst snd].
  destruct e as [q|]; [|done]. pose proof Hf as Hf'. unfold oid_size_refused in Hf'. rewrite Hp in Hf'. cbv zeta in Hf'.
  assert (asn1_oid_decode alloc (Some q) c = Err 0 c) as ->; [|by rewrite Hf].
  unfold asn1_oid_decode, bind, get. rewrite Hp. cbv zeta. by rewrite Hf'.
Qed.
Lemma token_tail_kept alloc e c :
  oid_size_refused c e = false → mech_token_tail alloc e (c, SlotFreed) = mech_token_tail alloc e (c, SlotNull).
Proof.
  intros Hf. unfold mech_token_tail, free_on_error, bind, attempt, oid_decode_into. cbn [fst snd]. rewrite Hf.
  by destruct (asn1_oid_decode alloc e c).
Qed.
Lemma refused_empty token c p q :
  parsing token c → ctx_pointer c = Some p → p ≤ q ≤ ctx_end c → Z.of_nat (length token) < 2 ^ 29 - 1 →
  oid_size_refused c (Some q) = true ↔ q = p.
Proof.
  intros [(_ & p' & Hp' & Hr) Hb] Hp Hq Hl. unfold oid_size_refused, ctx_end in *. rewrite Hb in *. rewrite Hp. cbv zeta.
  rewrite Hp in Hp'. injection Hp' as <-. rewrite u32_small by lia. unfold UINT_MAX, sizeof_ulong.
  change ((2 ^ 32 - 1) / 8) with (2 ^ 29 - 1). rewrite orb_true_iff, !Z.ltb_lt. lia.
Qed.
Lemma mech_token_stale alloc token c :
  parsing token c → Z.of_nat (length token) < 2 ^ 29 - 1 →
  decode_mech_token alloc (c, SlotFreed) = Fault ∧ empty_oid_at c ∨
  ¬ empty_oid_at c ∧ decode_mech_token alloc (c, SlotFreed) ≠ Fault ∧
  result_of (decode_mech_token alloc (c, SlotFreed)) = result_of (decode_mech_token alloc (c, SlotNull)).
Proof.
  intros Hp Hl. pose proof (decode_mech_token_wp alloc token (c, SlotNull) Hp eq_refl) as Hn.
  pose proof (token_headers_wp token c Hp) as Hh. unfold wp in Hn, Hh. unfold empty_oid_at. rewrite !mech_token_split in *.
  destruct (token_headers c) as [e c'|e c'|]; [|right|done].
  2:{ split; [by intros (? & ? & ? & _)|done]. }
  destruct Hh as [Hp' He]. destruct e as [q|]; [|done]. pose proof Hp' as [(_ & p & Hptr & _) _].
  cbn in He. specialize (He _ Hptr). pose proof (refused_empty token c' p q Hp' Hptr He Hl) as Hre.
  destruct (oid_size_refused c' (Some q)) eqn:Hf.
  - left. split; [eapply token_tail_refused; [exact Hp'| |done]; cbn; intros x Hx; rewrite Hptr in Hx; by injection Hx as <-|].
    exists q, c'. split; [done|]. rewrite Hptr. f_equal. symmetry. by apply Hre.
  - right. rewrite token_tail_kept by done. split_and!; [| |done].
    + intros (x & y & [= <- <-] & Hx). assert (q = p) as E by congruence. discriminate (proj2 Hre E).
    + intros E. by rewrite E in Hn.
Qed.
Lemma asn1_open_parsing token : is_bytes token → parsing token (asn1_open token).
Proof. intros Hb. split; [split; [done|]|done]. exists 0. unfold ctx_end; cbn. split; [done|lia]. Qed.

(** C10 (safety): what a client's token can do to the parser.  Whatever the
    octets of a token below 2^29 - 1 octets are, the parser leaves neither the
    token nor its blocks except in two cases: the list of mechanisms has an
    indefinite length, so that the cursor becomes NULL and is followed; or the
    OID of the mechanism's token has no octets, so that the block of the OID
    before is freed a second time.  In these two cases it always faults, and
    in all others it returns: -EINVAL, or an AP-REQ that is a suffix of the
    token with its length. *)
Theorem decode_negTokenInit_safe alloc token :
  is_bytes token → Z.of_nat (length token) < 2 ^ 29 - 1 →
  match decode_negTokenInit alloc token with
  | Done (mech_type, ap_req, req_len) _ => ap_req `suffix_of` token ∧ req_len = Z.of_nat (length ap_req)
  | Err e _ => e = - EINVAL
  | Fault =>
      ∃ m mech_types_end s, decode_mech_types alloc (asn1_open token, SlotNull) = Done (m, mech_types_end) s ∧
        (mech_types_end = None ∨ empty_oid_at (set_pointer mech_types_end s.1))
  end ∧
  ∀ m mech_types_end s, decode_mech_types alloc (asn1_open token, SlotNull) = Done (m, mech_types_end) s →
    mech_types_end = None ∨ empty_oid_at (set_pointer mech_types_end s.1) → decode_negTokenInit alloc token = Fault.
Proof.
  intros Hb Hl. pose proof (decode_mech_types_wp alloc token (asn1_open token, SlotNull) (asn1_open_parsing _ Hb) eq_refl) as Ht.
  unfold wp in Ht. unfold decode_negTokenInit, bind. cbn [fst] in Ht.
  destruct (decode_mech_types alloc (asn1_open token, SlotNull)) as [[m e] s|e s|] eqn:Em; [|by destruct Ht as [_ ->]|done].
  apply mech_types_slot in Em as Hs. destruct s as [c sl]. cbn [fst snd] in *. subst sl. destruct Ht as (Hp & _ & Hq).
  destruct e as [q|]; unfold modify; cbn [fst snd].
  2:{ rewrite mech_token_null. split; [|by intros]. exists m, None, (c, SlotFreed). split; [done|by left]. }
  assert (parsing token (set_pointer (Some q) c)) as Hp'.
  { destruct Hp as [[Hbb _] Hbuf]. split; [|done]. split; [done|]. by exists q. }
  pose proof (decode_mech_token_wp alloc token (set_pointer (Some q) c, SlotNull) Hp' eq_refl) as Hn. unfold wp in Hn.
  destruct (mech_token_stale alloc token _ Hp' Hl) as [[-> He]|(He & Hf & Hr)].
  - split; [|done]. exists m, (Some q), (c, SlotFreed). split; [done|by right].
  - split; [|intros m' e' s' [= <- <- <-] [?|?]; done].
    destruct (decode_mech_token alloc (_, SlotFreed)) as [[ap len] s'|e' s'|], (decode_mech_token alloc (_, SlotNull)) as [[ap' len'] s2|e2 s2|];
      cbn in Hr; try done; injection Hr as <-; subst; cbn in *.
    + destruct Hn as (_ & Hsuf & ->). split; [done|]. apply u32_small. apply suffix_length in Hsuf. lia.
    + by destruct Hn.
Qed.

Lemma decode_negTokenInit_safe_witness :
  [9; 9; 9] `suffix_of` good_token ∧ decode_negTokenInit (λ _, true) indefinite_token = Fault.
Proof.
  assert (is_bytes good_token ∧ is_bytes indefinite_token) as [H1 H2].
  { split; (repeat constructor; cbv; congruence). }
  split.
  - exact (proj1 (proj1 (decode_negTokenInit_safe (λ _, true) good_token H1 ltac:(cbn; lia)))).
  - refine (proj2 (decode_negTokenInit_safe (λ _, true) indefinite_token H2 ltac:(cbn; lia)) _ None _ _ (or_introl eq_refl)).
    vm_compute. reflexivity.
Defined.

(** Two tokens an unauthenticated client can send, one for each case. *)
Theorem decode_negTokenInit_faults :
  decode_negTokenInit (λ _, true) indefinite_token = Fault ∧
  decode_negTokenInit (λ _, true) empty_oid_token = Fault.
Proof. vm_compute. done. Qed.

Lemma encode_exact alloc in_blob oid :
  (∀ n, alloc n = true) → oid_encodable oid → Z.of_nat (length oid) < 2 ^ 20 →
  Z.of_nat (length in_blob) < 2 ^ 30 →
  ∃ blob out_len,
    encode_negTokenTarg alloc in_blob oid tt = Done (blob, out_len) tt ∧
    Z.of_nat (length blob) = out_len.
Proof.
  intros Hall Henc Hol Hil.
  assert (2 ≤ length oid)%nat as Hol2 by (destruct oid as [|? [|]]; simpl in *; done || lia).
  destruct (oid_encode_ok alloc oid Hall Hol2) as [sup Hsup].
  pose proof (oid_encode_bound _ _ _ Henc Hsup) as Hsl.
  assert (asn1_oid_encode alloc KRB5_OID tt =
          Done [42; 134; 72; 134; 247; 18; 1; 2; 2] tt) as Hk.
  { unfold asn1_oid_encode. rewrite Hall. reflexivity. }
  unfold encode_negTokenTarg, bind, or_return. rewrite Hsup, Hk.
  set (kl := Z.of_nat (length [42; 134; 72; 134; 247; 18; 1; 2; 2])).
  assert (kl = 9) as Hkl by done.
  set (sl := Z.of_nat (length sup)). set (il := Z.of_nat (length in_blob)) in *.
  rewrite (asn1_header_len_iter 2 1 2), (asn1_header_len_iter 2 sl 2),
    (asn1_header_len_iter 1 kl 1) by lia.
  pose proof (header_len_iter_bounds 1 kl ltac:(lia) ltac:(lia)).
  pose proof (header_len_iter_bounds 2 1 ltac:(lia) ltac:(lia)).
  pose proof (header_len_iter_bounds 2 sl ltac:(lia) ltac:(lia)).
  rewrite (u32_small (_ + 2 + il)) by lia.
  set (rl := Nat.iter 1 header_len_step kl + 2 + il).
  assert (rl < 2 ^ 30 + 20) by (unfold rl; lia).
  rewrite (asn1_header_len_iter 3 rl 3) by (unfold rl in *; lia).
  pose proof (header_len_iter_bounds 3 rl ltac:(unfold rl; lia) ltac:(lia)).
  rewrite (u32_small (_ + _ + Nat.iter 3 _ _)) by (unfold rl in *; lia).
  set (tl := _ + _ + Nat.iter 3 _ _) in *.
  rewrite (asn1_header_len_iter 2 tl 2) by (unfold tl, rl in *; lia).
  rewrite Hall. change (if negb true then ?x else ?y) with y.
  edestruct (headers_encode_exact [(ASN1_CTX, ASN1_CON, 1); (ASN1_UNI, ASN1_CON, ASN1_SEQ)] tl)
    as (b1 & E1 & L1); [cbn [length]; unfold tl, rl in *; lia..|].
  edestruct (headers_encode_exact [(ASN1_CTX, ASN1_CON, 0); (ASN1_UNI, ASN1_PRI, ASN1_ENUM)] 1)
    as (b2 & E2 & L2); [cbn [length]; lia..|].
  edestruct (headers_encode_exact [(ASN1_CTX, ASN1_CON, 1); (ASN1_UNI, ASN1_PRI, ASN1_OJI)] sl)
    as (b3 & E3 & L3); [cbn [length]; lia..|].
  edestruct (headers_encode_exact [(ASN1_CTX, ASN1_CON, 2); (ASN1_UNI, ASN1_PRI, ASN1_OTS);
    (ASN1_APL, ASN1_CON, 0)] rl) as (b4 & E4 & L4); [cbn [length]; unfold rl in *; lia..|].
  edestruct (headers_encode_exact [(ASN1_UNI, ASN1_PRI, ASN1_OJI)] kl)
    as (b5 & E5 & L5); [cbn [length]; lia..|].
  cbn [length] in *. rewrite E1, E2, E3, E4, E5. do 2 eexists; split; [done|].
  rewrite !length_app, !length_replicate. subst tl rl. fold sl il. cbn [length].
  rewrite !Z.sub_diag. simpl Z.to_nat. lia.
Qed.

(** C33 (bounds): [encode_negTokenTarg] stores exactly the [*out_len] octets it
    allocated: the nested sizes computed before the allocation match what the
    header encoders and the copies write, for every blob below 1 GiB. *)
Theorem encode_negTokenTarg_exact alloc in_blob oid :
  (∀ n, alloc n = true) → oid_encodable oid → Z.of_nat (length oid) < 2 ^ 20 →
  Z.of_nat (length in_blob) < 2 ^ 30 →
  ∃ blob out_len,
    encode_negTokenTarg alloc in_blob oid tt = Done (blob, out_len) tt ∧
    Z.of_nat (length blob) = out_len.
Proof. apply encode_exact. Qed.

Lemma encode_negTokenTarg_exact_witness :
  oid_encodable MSKRB5_OID ∧
  ∃ blob out_len, encode_negTokenTarg (λ _, true) [1; 2; 3] MSKRB5_OID tt =
    Done (blob, out_len) tt ∧ Z.of_nat (length blob) = out_len.
Proof.
  assert (oid_encodable MSKRB5_OID) as H.
  { cbv -[Z.pow Z.le Z.lt Z.mul Z.add]. split_and!; try lia.
    repeat (constructor; [lia|]). constructor. }
  split; [exact H|].
  apply (encode_negTokenTarg_exact (λ _, true) [1; 2; 3] MSKRB5_OID);
    [reflexivity|exact H|simpl; lia|simpl; lia].
Defined.
