(* ===== verification/Md4.v ===== *)
(** * MD4 ([src/adduser/md4_hash.c], [src/adduser/md4_hash.h])

    The digest of a user's password.  [struct md4_ctx] keeps the chaining
    value, a 64-octet block and a 64-bit octet count; [md4_update] may be
    called on any split of the message.  Words are 32-bit values in [Z]; the
    block is its 64 octets in memory, on a little-endian host, where the
    [le32_to_cpu] conversions read the octets of a word least significant
    first.  The theorems relate the streaming code to the one-shot definition
    of RFC 1320. *)

From S2P Require Import Prelude.

Definition lshift (x s : Z) : Z :=
  let x := Z.land x 0xFFFFFFFF in
  Z.lor (Z.land (u32 (Z.shiftl x s)) 0xFFFFFFFF) (Z.shiftr x (32 - s)).

(** [~x] on 32 bits. *)
Definition not32 (x : Z) : Z := u32 (Z.lnot x).
Definition F (x y z : Z) : Z := Z.lor (Z.land x y) (Z.land (not32 x) z).
Definition G (x y z : Z) : Z := Z.lor (Z.lor (Z.land x y) (Z.land x z)) (Z.land y z).
Definition H (x y z : Z) : Z := Z.lxor (Z.lxor x y) z.

(** Each returns the new value of the word that [a] points to. *)
Definition ROUND1 (a b c d k s : Z) : Z := lshift (u32 (a + F b c d + k)) s.
Definition ROUND2 (a b c d k s : Z) : Z := lshift (u32 (a + G b c d + k + 0x5A827999)) s.
Definition ROUND3 (a b c d k s : Z) : Z := lshift (u32 (a + H b c d + k + 0x6ED9EBA1)) s.

(** The words of a block in memory. *)
Fixpoint le32_words (n : nat) (block : bytes) : list Z :=
  match n with
  | O => []
  | S n => le_val (take 4 block) :: le32_words n (drop 4 block)
  end.

Definition md4_transform (hash inp : list Z) : list Z :=
  let w (i : Z) := nth (Z.to_nat i) inp 0 in
  let a := nth 0 hash 0 in
  let b := nth 1 hash 0 in
  let c := nth 2 hash 0 in
  let d := nth 3 hash 0 in
  let a := ROUND1 a b c d (w 0) 3 in
  let d := ROUND1 d a b c (w 1) 7 in
  let c := ROUND1 c d a b (w 2) 11 in
  let b := ROUND1 b c d a (w 3) 19 in
  let a := ROUND1 a b c d (w 4) 3 in
  let d := ROUND1 d a b c (w 5) 7 in
  let c := ROUND1 c d a b (w 6) 11 in
  let b := ROUND1 b c d a (w 7) 19 in
  let a := ROUND1 a b c d (w 8) 3 in
  let d := ROUND1 d a b c (w 9) 7 in
  let c := ROUND1 c d a b (w 10) 11 in
  let b := ROUND1 b c d a (w 11) 19 in
  let a := ROUND1 a b c d (w 12) 3 in
  let d := ROUND1 d a b c (w 13) 7 in
  let c := ROUND1 c d a b (w 14) 11 in
  let b := ROUND1 b c d a (w 15) 19 in
  let a := ROUND2 a b c d (w 0) 3 in
  let d := ROUND2 d a b c (w 4) 5 in
  let c := ROUND2 c d a b (w 8) 9 in
  let b := ROUND2 b c d a (w 12) 13 in
  let a := ROUND2 a b c d (w 1) 3 in
  let d := ROUND2 d a b c (w 5) 5 in
  let c := ROUND2 c d a b (w 9) 9 in
  let b := ROUND2 b c d a (w 13) 13 in
  let a := ROUND2 a b c d (w 2) 3 in
  let d := ROUND2 d a b c (w 6) 5 in
  let c := ROUND2 c d a b (w 10) 9 in
  let b := ROUND2 b c d a (w 14) 13 in
  let a := ROUND2 a b c d (w 3) 3 in
  let d := ROUND2 d a b c (w 7) 5 in
  let c := ROUND2 c d a b (w 11) 9 in
  let b := ROUND2 b c d a (w 15) 13 in
  let a := ROUND3 a b c d (w 0) 3 in
  let d := ROUND3 d a b c (w 8) 9 in
  let c := ROUND3 c d a b (w 4) 11 in
  let b := ROUND3 b c d a (w 12) 15 in
  let a := ROUND3 a b c d (w 2) 3 in
  let d := ROUND3 d a b c (w 10) 9 in
  let c := ROUND3 c d a b (w 6) 11 in
  let b := ROUND3 b c d a (w 14) 15 in
  let a := ROUND3 a b c d (w 1) 3 in
  let d := ROUND3 d a b c (w 9) 9 in
  let c := ROUND3 c d a b (w 5) 11 in
  let b := ROUND3 b c d a (w 13) 15 in
  let a := ROUND3 a b c d (w 3) 3 in
  let d := ROUND3 d a b c (w 11) 9 in
  let c := ROUND3 c d a b (w 7) 11 in
  let b := ROUND3 b c d a (w 15) 15 in
  [u32 (nth 0 hash 0 + a); u32 (nth 1 hash 0 + b);
   u32 (nth 2 hash 0 + c); u32 (nth 3 hash 0 + d)].

(** [le32_to_cpu_array] of the block, then the transformation. *)
Definition compress (hash : list Z) (block : bytes) : list Z :=
  md4_transform hash (le32_words 16 block).

Record md4_ctx := mk_md4_ctx {
  md4_hash : list Z;
  md4_block : bytes;
  byte_count : Z;
}.

Definition md4_transform_helper (ctx : md4_ctx) : md4_ctx :=
  mk_md4_ctx (compress (md4_hash ctx) (md4_block ctx))
             (md4_block ctx) (byte_count ctx).

Definition md4_iv : list Z := [0x67452301; 0xefcdab89; 0x98badcfe; 0x10325476].

(** [block] is left as it was in the caller's context. *)
Definition md4_init (mctx : md4_ctx) : md4_ctx :=
  mk_md4_ctx md4_iv (md4_block mctx) 0.

(** [memcpy((char * )mctx->block + off, src, len)] *)
Definition copy_block (off : nat) (src : bytes) (c : md4_ctx) : md4_ctx :=
  mk_md4_ctx (md4_hash c) (mem_write off src (md4_block c)) (byte_count c).

(** [while (len >= sizeof(mctx->block))] and the final copy; every turn
    consumes 64 octets, so [length data] turns are enough. *)
Fixpoint update_loop (fuel : nat) (data : bytes) (c : md4_ctx) : md4_ctx :=
  match fuel with
  | O => copy_block 0 data c
  | S fuel =>
      if (64 <=? length data)%nat then
        update_loop fuel (drop 64 data)
          (md4_transform_helper (copy_block 0 (take 64 data) c))
      else copy_block 0 data c
  end.

Definition md4_update (data : bytes) (mctx : md4_ctx) : md4_ctx :=
  let off := Z.to_nat (Z.land (byte_count mctx) 0x3f) in
  let avail := (64 - off)%nat in
  let c := mk_md4_ctx (md4_hash mctx) (md4_block mctx)
                      (u64 (byte_count mctx + Z.of_nat (length data))) in
  if (length data <? avail)%nat then copy_block off data c
  else
    let c := md4_transform_helper (copy_block off (take avail data) c) in
    let data := drop avail data in
    update_loop (length data) data c.

(** Returns the digest; the context is cleared by [explicit_bzero]. *)
Definition md4_final (mctx : md4_ctx) : bytes :=
  let offset := Z.to_nat (Z.land (byte_count mctx) 0x3f) in
  let padding := 56 - (Z.of_nat offset + 1) in
  let c := copy_block offset [0x80] mctx in
  let '(c, p, padding) :=
    if padding <? 0 then
      let c := copy_block (offset + 1) (replicate (Z.to_nat (padding + 8)) 0) c in
      (md4_transform_helper c, 0%nat, 56)
    else (c, (offset + 1)%nat, padding) in
  let c := copy_block p (replicate (Z.to_nat padding) 0) c in
  let words := take 14 (le32_words 16 (md4_block c)) ++
               [u32 (Z.shiftl (byte_count mctx) 3); u32 (Z.shiftr (byte_count mctx) 29)] in
  let hash := md4_transform (md4_hash c) words in
  mjoin (le_bytes 4 <$> hash).

(** ** RFC 1320: pad to a multiple of 64 octets with the bit length, then
    chain the blocks. *)
Definition md4_pad (m : bytes) : bytes :=
  m ++ [0x80] ++ replicate ((119 - length m mod 64) mod 64) 0 ++
  le_bytes 8 (8 * Z.of_nat (length m)).

Fixpoint chain (n : nat) (h : list Z) (m : bytes) : list Z :=
  match n with
  | O => h
  | S n => chain n (compress h (take 64 m)) (drop 64 m)
  end.

Definition md4_spec (m : bytes) : bytes :=
  mjoin (le_bytes 4 <$> chain (length (md4_pad m) / 64) md4_iv (md4_pad m)).

(** The program's use of the API: a digest of the concatenated chunks. *)
Definition md4_digest (c0 : md4_ctx) (chunks : list bytes) : bytes :=
  md4_final (foldl (λ c d, md4_update d c) (md4_init c0) chunks).

(** ** Chaining *)
Lemma length_md4_transform h inp : length (md4_transform h inp) = 4%nat.
Proof. reflexivity. Qed.
Lemma compress_eq h block : compress h block = md4_transform h (le32_words 16 block).
Proof. reflexivity. Qed.
#[local] Opaque md4_transform compress.
Ltac ctx_simpl := cbn [md4_transform_helper copy_block md4_hash md4_block byte_count].

Lemma chain_app_r n h m x :
  (64 * n ≤ length m)%nat → chain n h (m ++ x) = chain n h m.
Proof.
  revert h m. induction n as [|n IH]; intros h m Hl; simpl; [done|].
  rewrite take_app_le, drop_app_le, IH by (rewrite ?length_drop; lia). done.
Qed.
Lemma chain_add n k h m :
  chain (n + k) h m = chain k (chain n h m) (drop (64 * n) m).
Proof.
  revert h m. induction n as [|n IH]; intros h m; cbn [chain Nat.add]; [done|].
  rewrite IH, drop_drop. by replace (64 * S n)%nat with (64 + 64 * n)%nat by lia.
Qed.
Lemma chain_snoc n h full block :
  length full = (64 * n)%nat → length block = 64%nat →
  chain (S n) h (full ++ block) = compress (chain n h full) block.
Proof.
  intros Hf Hb. replace (S n) with (n + 1)%nat by lia.
  rewrite chain_add, chain_app_r by lia. rewrite drop_app_length' by lia. simpl.
  by rewrite take_ge by lia.
Qed.

(** The context has absorbed a message: the whole blocks are chained, the rest
    is at the start of the block. *)
Definition absorbs (c : md4_ctx) (m : bytes) : Prop :=
  ∃ full tail n,
    m = full ++ tail ∧ length full = (64 * n)%nat ∧ (length tail < 64)%nat ∧
    md4_hash c = chain n md4_iv full ∧ take (length tail) (md4_block c) = tail ∧
    length (md4_block c) = 64%nat ∧ byte_count c = u64 (Z.of_nat (length m)).

Lemma count_offset n (full tail : bytes) :
  length full = (64 * n)%nat → (length tail < 64)%nat →
  Z.to_nat (Z.land (u64 (Z.of_nat (length (full ++ tail)))) 0x3f) = length tail.
Proof.
  intros Hf Ht. rewrite length_app, Hf. change 0x3f with (2 ^ 6 - 1).
  rewrite land_mask by lia. unfold u64, wrap.
  rewrite Z.mod_mod_divide by (by exists (2 ^ 58)).
  replace (Z.of_nat (64 * n + length tail))
    with (Z.of_nat (length tail) + Z.of_nat n * 2 ^ 6) by lia.
  rewrite Z.mod_add, Z.mod_small by lia. apply Nat2Z.id.
Qed.

Lemma update_loop_absorbs fuel data c full n :
  length full = (64 * n)%nat → md4_hash c = chain n md4_iv full →
  length (md4_block c) = 64%nat → (length data ≤ fuel)%nat →
  byte_count c = u64 (Z.of_nat (length (full ++ data))) →
  absorbs (update_loop fuel data c) (full ++ data).
Proof.
  assert (∀ data c full n, length full = (64 * n)%nat → md4_hash c = chain n md4_iv full →
    length (md4_block c) = 64%nat → (length data < 64)%nat →
    byte_count c = u64 (Z.of_nat (length (full ++ data))) →
    absorbs (copy_block 0 data c) (full ++ data)) as Hlast.
  { clear. intros data c full n ????. exists full, data, n. simpl. split_and!; try done.
    - apply (take_mem_write 0). lia.
    - rewrite length_mem_write; lia. }
  revert data c full n. induction fuel as [|fuel IH]; intros data c full n Hf Hh Hb Hl Hc;
    cbn [update_loop].
  { eapply Hlast; try done. lia. }
  destruct (Nat.leb_spec 64 (length data)); [|by eapply Hlast].
  assert (length (take 64 data) = 64%nat) as Ht by (rewrite length_take; lia).
  replace (full ++ data) with ((full ++ take 64 data) ++ drop 64 data)
    by (by rewrite <-app_assoc, take_drop).
  apply (IH _ _ _ (S n)); ctx_simpl.
  - rewrite length_app, Ht. lia.
  - rewrite chain_snoc by done. rewrite Hh. f_equal. unfold mem_write. cbn [take app Nat.add].
    rewrite drop_ge by lia. by rewrite app_nil_r.
  - rewrite length_mem_write; lia.
  - rewrite length_drop. lia.
  - by rewrite <-app_assoc, take_drop.
Qed.

(** Completing a block whose first octets are [tail]. *)
Lemma complete_block tail src block :
  take (length tail) block = tail → (length tail + length src = 64)%nat →
  length block = 64%nat → mem_write (length tail) src block = tail ++ src.
Proof.
  intros Ht Hl Hb. unfold mem_write. rewrite Ht, drop_ge by lia. by rewrite app_nil_r.
Qed.

Lemma update_absorbs c m data :
  absorbs c m → absorbs (md4_update data c) (m ++ data).
Proof.
  intros (full & tail & n & -> & Hf & Ht & Hh & Htk & Hb & Hc).
  unfold md4_update. rewrite Hc, (count_offset n) by done.
  set (cnt := u64 _).
  assert (cnt = u64 (Z.of_nat (length ((full ++ tail) ++ data)))) as Hcnt.
  { unfold cnt, u64, wrap. rewrite Z.add_mod_idemp_l, <-Nat2Z.inj_add, <-length_app by lia.
    done. }
  destruct (Nat.ltb_spec (length data) (64 - length tail)).
  - exists full, (tail ++ data), n. ctx_simpl.
    split_and!; try done.
    + by rewrite app_assoc.
    + rewrite length_app. lia.
    + rewrite length_app, take_mem_write by lia. by rewrite Htk.
    + rewrite length_mem_write; lia.
  - set (src := take (64 - length tail) data).
    assert (length src = 64 - length tail)%nat as Hs by (unfold src; rewrite length_take; lia).
    replace ((full ++ tail) ++ data) with ((full ++ (tail ++ src)) ++ drop (64 - length tail) data).
    2:{ rewrite <-!app_assoc. by unfold src; rewrite take_drop. }
    apply (update_loop_absorbs _ _ _ _ (S n)); ctx_simpl.
    + rewrite !length_app. lia.
    + rewrite complete_block by (done || lia). rewrite chain_snoc, Hh; [done|done|].
      rewrite length_app. lia.
    + rewrite length_mem_write; lia.
    + done.
    + rewrite Hcnt. do 3 f_equal. rewrite <-!app_assoc. unfold src. by rewrite take_drop.
Qed.

Lemma init_absorbs c : length (md4_block c) = 64%nat → absorbs (md4_init c) [].
Proof. intros. exists [], [], 0%nat. split_and!; done || (simpl; lia). Qed.

(** ** Padding *)
Lemma le32_words_app_r n x y :
  (4 * n ≤ length x)%nat → le32_words n (x ++ y) = le32_words n x.
Proof.
  revert x. induction n as [|n IH]; intros x Hl; simpl; [done|].
  rewrite take_app_le, drop_app_le, IH by (rewrite ?length_drop; lia). done.
Qed.
Lemma le32_words_add n k x :
  le32_words (n + k) x = le32_words n x ++ le32_words k (drop (4 * n) x).
Proof.
  revert x. induction n as [|n IH]; intros x; cbn [le32_words Nat.add];
    [done|].
  rewrite IH, drop_drop. by replace (4 * S n)%nat with (4 + 4 * n)%nat by lia.
Qed.
Lemma length_le32_words n x : length (le32_words n x) = n.
Proof. revert x. induction n; intros; simpl; auto. Qed.

(** The block that ends the message: the last words are the bit count. *)
Lemma final_words x rest bc :
  length x = 56%nat → 0 ≤ bc < 2 ^ 61 →
  take 14 (le32_words 16 (x ++ rest)) ++ [u32 (Z.shiftl bc 3); u32 (Z.shiftr bc 29)] =
  le32_words 16 (x ++ le_bytes 8 (8 * bc)).
Proof.
  intros Hx Hbc.
  change 16%nat with (14 + 2)%nat. rewrite !le32_words_add.
  rewrite take_app_length' by (by rewrite length_le32_words).
  rewrite !le32_words_app_r by lia. f_equal.
  rewrite drop_app_length' by lia.
  change 8%nat with (4 + 4)%nat. cbn [le32_words].
  change (le_bytes (4 + 4) (8 * bc)) with
    (le_bytes 4 (8 * bc) ++ le_bytes 4 (8 * bc / 256 / 256 / 256 / 256)).
  rewrite take_app_length', drop_app_length' by (by rewrite length_le_bytes).
  rewrite take_ge by (by rewrite length_le_bytes).
  rewrite !le_val_bytes, shiftl_mul, shiftr_div by lia. simpl (8 * Z.of_nat 4).
  unfold u32, wrap. rewrite (Z.mul_comm bc), !Z.div_div by lia.
  replace (256 * (256 * (256 * 256))) with (8 * 2 ^ 29) by lia.
  by rewrite Z.div_mul_cancel_l by lia.
Qed.

Lemma pad_zeros n (full tail : bytes) :
  length full = (64 * n)%nat → (length tail < 64)%nat →
  ((119 - length (full ++ tail) mod 64) mod 64 =
    if length tail <=? 55 then 55 - length tail else 119 - length tail)%nat.
Proof.
  intros Hf Ht. rewrite length_app, Hf, Nat.add_comm, (Nat.mul_comm 64), Nat.Div0.mod_add.
  rewrite (Nat.mod_small (length tail)) by lia.
  destruct (Nat.leb_spec (length tail) 55).
  - replace (119 - length tail)%nat with (55 - length tail + 1 * 64)%nat by lia.
    rewrite Nat.Div0.mod_add, Nat.mod_small; lia.
  - rewrite Nat.mod_small; lia.
Qed.

(** The end of a message whose rest fits in one block with its length. *)
Lemma final_one_block c m full tail n :
  m = full ++ tail → length full = (64 * n)%nat → (length tail ≤ 55)%nat →
  md4_hash c = chain n md4_iv full → take (length tail) (md4_block c) = tail →
  length (md4_block c) = 64%nat → byte_count c = u64 (Z.of_nat (length m)) →
  Z.of_nat (length m) < 2 ^ 61 → md4_final c = md4_spec m.
Proof.
  intros -> Hf Ht Hh Htk Hb Hc Hm. unfold md4_final, md4_spec. f_equal. f_equal.
  rewrite Hc, (count_offset n), u64_small by lia.
  set (t := length tail) in *. destruct (Z.ltb_spec (56 - (Z.of_nat t + 1)) 0); [lia|].
  ctx_simpl. unfold md4_pad. rewrite (pad_zeros n) by lia. fold t.
  destruct (Nat.leb_spec t 55); [|lia].
  replace (Z.to_nat (56 - (Z.of_nat t + 1))) with (55 - t)%nat by lia.
  set (zeros := replicate (55 - t) 0).
  assert (length zeros = 55 - t)%nat as Hz by apply length_replicate.
  assert (length (tail ++ [0x80] ++ zeros) = 56%nat) as H56.
  { rewrite !length_app, Hz. simpl. lia. }
  assert (∃ r, mem_write (t + 1) zeros (mem_write t [0x80] (md4_block c)) =
               (tail ++ [0x80] ++ zeros) ++ r) as [r ->].
  { unfold mem_write at 1. rewrite (take_mem_write t [0x80]), Htk by (simpl; lia).
    eexists. by rewrite <-!app_assoc. }
  rewrite final_words by (done || lia). rewrite Hh.
  replace ((full ++ tail) ++ [0x80] ++ zeros ++ le_bytes 8 _)
    with (full ++ ((tail ++ [0x80] ++ zeros) ++
            le_bytes 8 (8 * Z.of_nat (length (full ++ tail)))))
    by (by rewrite <-!app_assoc).
  set (blk := (tail ++ [0x80] ++ zeros) ++ _).
  assert (length blk = 64%nat) as Hblk.
  { unfold blk. rewrite length_app, H56, length_le_bytes. done. }
  rewrite length_app, Hf, Hblk. replace ((64 * n + 64) / 64)%nat with (S n).
  2:{ replace (64 * n + 64)%nat with (S n * 64)%nat by lia. by rewrite Nat.div_mul. }
  rewrite chain_snoc, compress_eq by done. reflexivity.
Qed.

(** The end of a message whose rest needs a second block. *)
Lemma final_two_blocks c m full tail n :
  m = full ++ tail → length full = (64 * n)%nat → (55 < length tail < 64)%nat →
  md4_hash c = chain n md4_iv full → take (length tail) (md4_block c) = tail →
  length (md4_block c) = 64%nat → byte_count c = u64 (Z.of_nat (length m)) →
  Z.of_nat (length m) < 2 ^ 61 → md4_final c = md4_spec m.
Proof.
  intros -> Hf Ht Hh Htk Hb Hc Hm. unfold md4_final, md4_spec. f_equal. f_equal.
  rewrite Hc, (count_offset n), u64_small by lia.
  set (t := length tail) in *. destruct (Z.ltb_spec (56 - (Z.of_nat t + 1)) 0); [|lia].
  ctx_simpl. unfold md4_pad. rewrite (pad_zeros n) by lia. fold t.
  destruct (Nat.leb_spec t 55); [lia|].
  replace (Z.to_nat (56 - (Z.of_nat t + 1) + 8)) with (63 - t)%nat by lia.
  set (zeros := replicate (63 - t) 0).
  assert (length zeros = 63 - t)%nat as Hz by apply length_replicate.
  set (b1 := tail ++ [0x80] ++ zeros).
  assert (length b1 = 64%nat) as H64.
  { unfold b1. rewrite !length_app, Hz. simpl. lia. }
  assert (mem_write (t + 1) zeros (mem_write t [0x80] (md4_block c)) = b1) as ->.
  { unfold mem_write at 1. rewrite (take_mem_write t [0x80]), Htk by (simpl; lia).
    rewrite drop_ge; [unfold b1; by rewrite app_nil_r, <-app_assoc|].
    rewrite length_mem_write; simpl; lia. }
  change (Z.to_nat 56) with 56%nat. unfold mem_write.
  change (take 0 b1) with (@nil Z). rewrite app_nil_l, final_words by (done || lia).
  replace (119 - t)%nat with ((63 - t) + 56)%nat by lia. rewrite replicate_add. fold zeros.
  replace ((full ++ tail) ++ [0x80] ++ (zeros ++ replicate 56 0) ++ le_bytes 8 _)
    with ((full ++ b1) ++ (replicate 56 0 ++ le_bytes 8 (8 * Z.of_nat (length (full ++ tail)))))
    by (unfold b1; by rewrite <-!app_assoc).
  set (b2 := replicate 56 0 ++ _).
  assert (length b2 = 64%nat) as Hb2.
  { unfold b2. rewrite length_app, length_replicate, length_le_bytes. done. }
  rewrite !length_app, Hf, H64, Hb2. replace ((64 * n + 64 + 64) / 64)%nat with (S (S n)).
  2:{ replace (64 * n + 64 + 64)%nat with (S (S n) * 64)%nat by lia. by rewrite Nat.div_mul. }
  rewrite chain_snoc, chain_snoc, Hh, (compress_eq (compress _ _)) by (rewrite ?length_app; lia).
  reflexivity.
Qed.

(** ** Properties *)

Lemma length_md4_spec m : length (md4_spec m) = 16%nat.
Proof.
  unfold md4_spec. assert (∀ n h m, length h = 4%nat → length (chain n h m) = 4%nat) as Hc.
  { induction n as [|n IH]; intros h l Hh; [done|]. cbn [chain]. apply IH. rewrite compress_eq. apply length_md4_transform. }
  specialize (Hc (length (md4_pad m) / 64)%nat md4_iv (md4_pad m) eq_refl). destruct (chain _ _ _) as [|a [|b [|c [|d []]]]]; done.
Qed.
Lemma md4_streaming_eq c0 chunks :
  length (md4_block c0) = 64%nat →
  Z.of_nat (length (mjoin chunks)) < 2 ^ 61 →
  md4_digest c0 chunks = md4_spec (mjoin chunks).
Proof.
  intros Hb Hm. unfold md4_digest.
  assert (∀ chunks c m, absorbs c m →
    absorbs (foldl (λ c d, md4_update d c) c chunks) (m ++ mjoin chunks)) as Hfold.
  { clear. induction chunks as [|d chunks IH]; intros c m Ha; csimpl; [by rewrite app_nil_r|].
    rewrite app_assoc. by apply IH, update_absorbs. }
  pose proof (Hfold chunks _ _ (init_absorbs c0 Hb)) as
    (full & tail & n & Heq & Hf & Ht & Hh & Htk & Hbl & Hc).
  rewrite app_nil_l in *. destruct (decide (length tail ≤ 55)%nat).
  - by eapply final_one_block.
  - eapply final_two_blocks; try done. lia.
Qed.

(** C12 (equivalence): for any split of a message into chunks, initialising
    any context, feeding the chunks to [md4_update] and calling [md4_final]
    gives the RFC 1320 digest of the concatenated message: buffering across
    calls and the one- or two-block padding lose nothing. *)
Theorem md4_streaming_correct c0 chunks :
  length (md4_block c0) = 64%nat →
  Z.of_nat (length (mjoin chunks)) < 2 ^ 61 →
  md4_digest c0 chunks = md4_spec (mjoin chunks).
Proof. apply md4_streaming_eq. Qed.

Lemma md4_streaming_correct_witness :
  let c0 := mk_md4_ctx [] (replicate 64 0) 0 in
  md4_digest c0 [[97]; [98; 99]] = md4_spec [97; 98; 99] ∧
  md4_spec [97; 98; 99] =
    [0xa4; 0x48; 0x01; 0x7a; 0xaf; 0x21; 0xd8; 0x52;
     0x5f; 0xc1; 0x0a; 0xe8; 0x7a; 0xa6; 0x72; 0x9d].
Proof.
  split; [|vm_compute; reflexivity].
  apply (md4_streaming_correct (mk_md4_ctx [] (replicate 64 0) 0) [[97]; [98; 99]]);
    [reflexivity|simpl; lia].
Defined.
