(* ===== verification/Ndr.v ===== *)
(** * NDR marshalling ([src/mountd/rpc.c], lines up to the pipe arrays)

    [struct ksmbd_dcerpc] reduced to what the marshalling primitives use: the
    flags, the cursor [offset], the payload buffer (its length is
    [payload_sz]) and the referent counter [num_pointers].  A primitive that
    returns an error code is [Err]; a [memcpy] that would leave the payload is
    [Fault].  Sizes are [size_t] values, wrapped at 64 bits where the code
    adds them. *)

From S2P Require Import Prelude.

Definition KSMBD_DCERPC_LITTLE_ENDIAN : Z := BIT 0.
Definition KSMBD_DCERPC_ALIGN4 : Z := BIT 2.
Definition KSMBD_DCERPC_ALIGN8 : Z := BIT 3.
Definition KSMBD_DCERPC_ASCII_STRING : Z := BIT 4.
Definition KSMBD_DCERPC_FIXED_PAYLOAD_SZ : Z := BIT 5.
Definition KSMBD_DCERPC_EXTERNAL_PAYLOAD : Z := BIT 6.
Definition KSMBD_DCERPC_RETURN_READY : Z := BIT 7.

Record dcerpc := mk_dcerpc {
  dce_flags : Z;
  dce_offset : Z;
  dce_payload : bytes;
  dce_num_pointers : Z;
}.

Definition payload_sz (d : dcerpc) : Z := Z.of_nat (length (dce_payload d)).
Definition set_offset (o : Z) (d : dcerpc) : dcerpc :=
  mk_dcerpc (dce_flags d) o (dce_payload d) (dce_num_pointers d).
Definition set_payload (b : bytes) (d : dcerpc) : dcerpc :=
  mk_dcerpc (dce_flags d) (dce_offset d) b (dce_num_pointers d).
Definition has_flag (f : Z) (d : dcerpc) : bool := test_flag (dce_flags d) f.

(** [dcerpc_set_ext_payload] *)
Definition dcerpc_set_ext_payload (payload : bytes) (d : dcerpc) : dcerpc :=
  mk_dcerpc (set_flag (set_flag (dce_flags d) KSMBD_DCERPC_EXTERNAL_PAYLOAD)
                      KSMBD_DCERPC_FIXED_PAYLOAD_SZ)
            0 payload 1.

(** [__ALIGN(x, a)] for a power of two [a] *)
Definition ALIGN (x a : Z) : Z :=
  if Z.land x (a - 1) =? 0 then x
  else Z.land (u64 (x + (a - 1))) (u64 (Z.lnot (a - 1))).

Definition align_offset (n : Z) : prog dcerpc unit :=
  modify (λ d, set_offset (ALIGN (dce_offset d) n) d).

Definition auto_align_offset : prog dcerpc unit :=
  modify (λ d,
    if has_flag KSMBD_DCERPC_ALIGN8 d then set_offset (ALIGN (dce_offset d) 8) d
    else if has_flag KSMBD_DCERPC_ALIGN4 d then set_offset (ALIGN (dce_offset d) 4) d
    else d).

Definition SIZE_MAX : Z := 2 ^ 64 - 1.

(** [memcpy(PAYLOAD_HEAD(dce), src, sz); dce->offset += sz;] *)
Definition put (src : bytes) : prog dcerpc unit := λ d,
  if (0 <=? dce_offset d) && (dce_offset d + Z.of_nat (length src) <=? payload_sz d)
  then Done tt (set_offset (u64 (dce_offset d + Z.of_nat (length src)))
                  (set_payload (mem_write (Z.to_nat (dce_offset d)) src (dce_payload d)) d))
  else Fault.

(** [memcpy(dst, PAYLOAD_HEAD(dce), n); dce->offset += n;] *)
Definition fetch (n : Z) : prog dcerpc bytes := λ d,
  if (0 <=? dce_offset d) && (dce_offset d + n <=? payload_sz d)
  then Done (mem_read (Z.to_nat (dce_offset d)) (Z.to_nat n) (dce_payload d))
            (set_offset (u64 (dce_offset d + n)) d)
  else Fault.

Section Marshal.
Context {A : Allocator}.

(** The non-fixed branch grows the buffer by 4096 octets and clears it from
    the cursor on; clearing with the cursor behind the new end is undefined. *)
Definition try_realloc_payload (data_sz : Z) : prog dcerpc unit := λ d,
  if SIZE_MAX - dce_offset d <? data_sz then Err (- ENOMEM) d
  else if dce_offset d + data_sz <=? payload_sz d then Done tt d
  else if has_flag KSMBD_DCERPC_FIXED_PAYLOAD_SZ d then Err (- ENOMEM) d
  else if negb (g_try_realloc (payload_sz d + 4096)) then Err (- ENOMEM) d
  else if payload_sz d + 4096 <? dce_offset d then Fault
  else
    let n := dce_payload d ++ replicate 4096 0 in
    let off := Z.to_nat (dce_offset d) in
    Done tt (set_payload (mem_write off (replicate (length n - off) 0) n) d).

(** The byte order of the stream. *)
Definition enc_int (d : dcerpc) (n : nat) (v : Z) : bytes :=
  if has_flag KSMBD_DCERPC_LITTLE_ENDIAN d then le_bytes n v else be_bytes n v.
Definition dec_int (d : dcerpc) (raw : bytes) : Z :=
  if has_flag KSMBD_DCERPC_LITTLE_ENDIAN d then le_val raw else be_val raw.

(** [NDR_WRITE_INT] for a type of [n] octets *)
Definition ndr_write_int (n : nat) (value : Z) : prog dcerpc unit :=
  align_offset (Z.of_nat n) ;;
  try_realloc_payload (Z.of_nat n) else_return (- ENOMEM) ;;
  d <- get ;;
  put (enc_int d n value).

Definition ndr_write_int8 (value : Z) : prog dcerpc unit := ndr_write_int 1 value.
Definition ndr_write_int16 (value : Z) : prog dcerpc unit := ndr_write_int 2 value.
Definition ndr_write_int32 (value : Z) : prog dcerpc unit := ndr_write_int 4 value.
Definition ndr_write_int64 (value : Z) : prog dcerpc unit := ndr_write_int 8 value.

(** [NDR_READ_INT] for a type of [n] octets *)
Definition ndr_read_int (n : nat) : prog dcerpc Z :=
  align_offset (Z.of_nat n) ;;
  d <- get ;;
  if payload_sz d <? u64 (dce_offset d + Z.of_nat n) then fail (- EINVAL)
  else raw <- fetch (Z.of_nat n) ;; ret (dec_int d raw).

Definition ndr_read_int8 : prog dcerpc Z := ndr_read_int 1.
Definition ndr_read_int16 : prog dcerpc Z := ndr_read_int 2.
Definition ndr_read_int32 : prog dcerpc Z := ndr_read_int 4.
Definition ndr_read_int64 : prog dcerpc Z := ndr_read_int 8.

(** [NDR_WRITE_UNION] and [NDR_READ_UNION] *)
Definition ndr_write_union_int16 (value : Z) : prog dcerpc unit :=
  ndr_write_int16 value ;; ndr_write_int16 value.
Definition ndr_write_union_int32 (value : Z) : prog dcerpc unit :=
  ndr_write_int32 value ;; ndr_write_int32 value.
Definition ndr_read_union_int32 : prog dcerpc Z :=
  val1 <- ndr_read_int32 else_return (- EINVAL) ;;
  val2 <- ndr_read_int32 else_return (- EINVAL) ;;
  if negb (val1 =? val2) then fail (- EINVAL) else ret val1.

Definition ndr_write_bytes (value : bytes) : prog dcerpc unit :=
  align_offset 2 ;;
  try_realloc_payload (Z.of_nat (length value)) else_return (- ENOMEM) ;;
  put value.

Definition ndr_read_bytes (sz : Z) : prog dcerpc bytes :=
  align_offset 2 ;;
  d <- get ;;
  if payload_sz d <? u64 (dce_offset d + sz) then fail (- EINVAL)
  else fetch sz.

(** Pointers *)
Definition ndr_read_ptr : prog dcerpc Z := ndr_read_int32 else_return (- EINVAL).

(** Returns [(ref_id, ptr)]. *)
Definition ndr_read_uniq_ptr : prog dcerpc (Z * Z) :=
  ref_id <- ndr_read_int32 else_return (- EINVAL) ;;
  if ref_id =? 0 then ret (0, 0)
  else ptr <- ndr_read_int32 else_return (- EINVAL) ;; ret (ref_id, ptr).

(** ** Strings *)
Definition KSMBD_CHARSET_UTF8 : Z := 0.
Definition KSMBD_CHARSET_UTF16LE : Z := 1.
Definition KSMBD_CHARSET_UTF16BE : Z := 3.
Definition KSMBD_CHARSET_MAX : Z := 5.

Section Strings.
(** GLib's [g_convert] of octets to a charset from a charset, and
    [g_utf8_strlen] of a C string. *)
Variable g_convert : Z → Z → bytes → option bytes.
Variable g_utf8_strlen : bytes → Z.

Definition codeset_has_altname (codeset : Z) : bool :=
  (codeset =? KSMBD_CHARSET_UTF16LE) || (codeset =? KSMBD_CHARSET_UTF16BE).

(** The [goto retry] moves each UTF-16 codeset to its UCS-2 alternative, which
    has none itself: two turns are enough. *)
Fixpoint gconvert_loop (fuel : nat) (s : bytes) (to_codeset from_codeset : Z) : option bytes :=
  match fuel with
  | O => None
  | S fuel =>
      if KSMBD_CHARSET_MAX <=? from_codeset then None
      else if KSMBD_CHARSET_MAX <=? to_codeset then None
      else match g_convert to_codeset from_codeset s with
           | Some out => Some out
           | None =>
               let alt c := if codeset_has_altname c then c + 1 else c in
               if codeset_has_altname to_codeset || codeset_has_altname from_codeset
               then gconvert_loop fuel s (alt to_codeset) (alt from_codeset)
               else None
           end
  end.
Definition ksmbd_gconvert (s : bytes) (to_codeset from_codeset : Z) : option bytes :=
  gconvert_loop 2 s to_codeset from_codeset.

(** The charset of the strings on the wire. *)
Definition wire_charset (d : dcerpc) : Z :=
  if has_flag KSMBD_DCERPC_ASCII_STRING d then KSMBD_CHARSET_UTF8
  else if has_flag KSMBD_DCERPC_LITTLE_ENDIAN d then KSMBD_CHARSET_UTF16LE
  else KSMBD_CHARSET_UTF16BE.

Definition ndr_convert_char_to_unicode (d : dcerpc) (s : bytes) : option bytes :=
  ksmbd_gconvert s (wire_charset d) KSMBD_CHARSET_UTF8.

(** The three counts and the octets that every string writer emits. *)
Definition write_counted (max_count actual_count : Z) (out : bytes) : prog dcerpc unit :=
  ndr_write_int32 max_count ;;
  ndr_write_int32 0 ;;
  ndr_write_int32 actual_count ;;
  ndr_write_bytes out.

(** [None] is the NULL string; strings are given without their NUL. *)
Definition ndr_write_vstring (value : option bytes) : prog dcerpc unit :=
  let raw := default [] value in
  d <- get ;;
  match ndr_convert_char_to_unicode d (raw ++ [0]) with
  | None => fail (- EINVAL)
  | Some out =>
      let str_len := g_utf8_strlen raw + 1 in
      write_counted str_len str_len out ;;
      auto_align_offset
  end.

(** The last write's error is returned after the cursor is aligned. *)
Definition write_then_align (m : prog dcerpc unit) : prog dcerpc unit :=
  r <- attempt m ;;
  auto_align_offset ;;
  match r with inl _ => ret tt | inr e => fail e end.

Definition ndr_write_string (value : option bytes) : prog dcerpc unit :=
  let s := default [] value in
  let len := Z.of_nat (length s) in
  d <- get ;;
  match ndr_convert_char_to_unicode d (s ++ [0]) with
  | None => fail (- EINVAL)
  | Some out =>
      ndr_write_int32 (len + 1) ;;
      ndr_write_int32 0 ;;
      ndr_write_int32 (len + 1) ;;
      write_then_align (ndr_write_bytes out)
  end.

Definition ndr_write_lsa_string (value : option bytes) : prog dcerpc unit :=
  let s := default [] value in
  let len := Z.of_nat (length s) in
  d <- get ;;
  match ndr_convert_char_to_unicode d s with
  | None => fail (- EINVAL)
  | Some out =>
      ndr_write_int32 (len + 1) ;;
      ndr_write_int32 0 ;;
      ndr_write_int32 len ;;
      write_then_align (ndr_write_bytes out)
  end.

(** NULL is [Err]; the code returned by the callers is -EINVAL. *)
Definition ndr_read_vstring : prog dcerpc bytes :=
  raw_len <- ndr_read_int32 ;;
  ndr_read_int32 ;;
  actual_len <- ndr_read_int32 ;;
  if raw_len <? actual_len then fail (- EINVAL)
  else if actual_len =? 0 then ret []
  else
    d <- get ;;
    if payload_sz d <? dce_offset d then fail (- EINVAL)
    else
      let left := payload_sz d - dce_offset d in
      let* raw_bytes :=
        (if has_flag KSMBD_DCERPC_ASCII_STRING d then
           if left <? actual_len then fail (- EINVAL) else ret actual_len
         else
           if left / 2 <? actual_len then fail (- EINVAL) else ret (actual_len * 2)) in
      raw <- fetch raw_bytes ;;
      match ksmbd_gconvert raw KSMBD_CHARSET_UTF8 (wire_charset d) with
      | None => modify (set_offset (dce_offset d)) ;; fail (- EINVAL)
      | Some out => auto_align_offset ;; ret out
      end.

Definition ndr_read_vstring_ptr : prog dcerpc bytes :=
  ndr_read_vstring else_return (- EINVAL).

(** Returns [(ref_id, string)]; a zero referent is the NULL string. *)
Definition ndr_read_uniq_vstring_ptr : prog dcerpc (Z * option bytes) :=
  ref_id <- ndr_read_int32 else_return (- EINVAL) ;;
  if ref_id =? 0 then ret (0, None)
  else s <- ndr_read_vstring else_return (- EINVAL) ;; ret (ref_id, Some s).
End Strings.
End Marshal.

(** ** Alignment *)
Lemma ldiff_mask y k : 0 ≤ k → Z.ldiff y (2 ^ k - 1) = y - y mod 2 ^ k.
Proof.
  intros. replace (2 ^ k - 1) with (Z.ones k) by (rewrite Z.ones_equiv; lia).
  rewrite Z.ldiff_ones_r, shiftl_mul, shiftr_div by lia.
  pose proof (Z.pow_pos_nonneg 2 k). pose proof (Z.div_mod y (2 ^ k)). lia.
Qed.

Lemma land_u64_lnot y m : 0 ≤ y < 2 ^ 64 → Z.land y (u64 (Z.lnot m)) = Z.ldiff y m.
Proof.
  intros Hy. unfold u64, wrap. rewrite <-Z.land_ones by lia.
  rewrite Z.land_assoc, (Z.land_comm (Z.land y _)), Z.land_assoc.
  rewrite (Z.land_comm _ y), Z.land_ones, Z.mod_small by lia.
  apply Z.bits_inj'. intros i Hi. by rewrite Z.land_spec, Z.ldiff_spec, Z.lnot_spec by lia.
Qed.

(** [__ALIGN] is rounding up to a multiple. *)
Lemma ALIGN_spec x k :
  0 ≤ k → 0 ≤ x → x + 2 ^ k ≤ 2 ^ 64 →
  ALIGN x (2 ^ k) mod 2 ^ k = 0 ∧ x ≤ ALIGN x (2 ^ k) < x + 2 ^ k.
Proof.
  intros Hk Hx Hm. unfold ALIGN. rewrite land_mask by lia.
  pose proof (Z.pow_pos_nonneg 2 k). pose proof (Z.mod_pos_bound x (2 ^ k)).
  destruct (Z.eqb_spec (x mod 2 ^ k) 0); [lia|].
  rewrite u64_small, land_u64_lnot, ldiff_mask by lia.
  pose proof (Z.mod_pos_bound (x + (2 ^ k - 1)) (2 ^ k)).
  split; [|lia].
  rewrite Zminus_mod_idemp_r, Z.sub_diag. by apply Z.mod_0_l; lia.
Qed.

(** An aligned cursor stays; a cursor below an aligned bound stays below. *)
Lemma ALIGN_id x k : 0 ≤ k → x mod 2 ^ k = 0 → ALIGN x (2 ^ k) = x.
Proof. intros Hk Hx. unfold ALIGN. rewrite land_mask, Hx by lia. done. Qed.

Lemma ALIGN_le x k B :
  0 ≤ k → 0 ≤ x ≤ B → B mod 2 ^ k = 0 → x + 2 ^ k ≤ 2 ^ 64 → ALIGN x (2 ^ k) ≤ B.
Proof.
  intros Hk Hx HB Hm. pose proof (Z.pow_pos_nonneg 2 k). destruct (ALIGN_spec x k) as [Ha Hr]; [lia..|].
  apply Z.mod_divide in Ha as [q Hq]; [|lia]. apply Z.mod_divide in HB as [b Hb]; [|lia].
  rewrite Hq in *. clear Hq. subst B.
  assert (q < b + 1); [|apply Z.mul_le_mono_nonneg_r; lia].
  apply (Z.mul_lt_mono_pos_r (2 ^ k)); lia.
Qed.

(** ** Invariant and frame *)

(** A dcerpc handle over a caller's buffer of fixed size. *)
Definition dce_ok (d : dcerpc) : Prop :=
  0 ≤ dce_offset d ≤ 2 ^ 62 ∧ payload_sz d ≤ 2 ^ 62 ∧
  has_flag KSMBD_DCERPC_FIXED_PAYLOAD_SZ d = true.

(** [appends d d']: only octets at or behind the cursor were written. *)
Record appends (d d' : dcerpc) : Prop := {
  app_flags : dce_flags d' = dce_flags d;
  app_ptrs : dce_num_pointers d' = dce_num_pointers d;
  app_length : length (dce_payload d') = length (dce_payload d);
  app_offset : dce_offset d ≤ dce_offset d';
  app_prefix : take (Z.to_nat (dce_offset d)) (dce_payload d') =
               take (Z.to_nat (dce_offset d)) (dce_payload d);
}.

#[export] Instance appends_refl : Reflexive appends.
Proof. intros d. by split. Qed.
#[export] Instance appends_trans : Transitive appends.
Proof.
  intros d1 d2 d3 [f1 n1 l1 o1 p1] [f2 n2 l2 o2 p2]. split; try (congruence || lia).
  rewrite <-p1. apply (f_equal (take (Z.to_nat (dce_offset d1)))) in p2.
  rewrite !take_take in p2. by rewrite !Nat.min_l in p2 by lia.
Qed.

(** [reads m a d o o']: in any state that has the flags of [d] and its first
    [o'] octets, reading with [m] from the cursor [o] yields [a] and leaves
    the cursor at [o']. *)
Definition reads {T} (m : prog dcerpc T) (a : T) (d : dcerpc) (o o' : Z) : Prop :=
  0 ≤ o ≤ o' ∧ o' ≤ payload_sz d ∧
  ∀ d', dce_flags d' = dce_flags d → length (dce_payload d') = length (dce_payload d) →
        take (Z.to_nat o') (dce_payload d') = take (Z.to_nat o') (dce_payload d) →
        dce_offset d' = o → m d' = Done a (set_offset o' d').

Lemma reads_bind {T U} (m : prog dcerpc T) (k : T → prog dcerpc U) a b d o o1 o2 :
  reads m a d o o1 → reads (k a) b d o1 o2 → reads (bind m k) b d o o2.
Proof.
  intros (H1 & H2 & Hm) (H3 & H4 & Hk). split; [lia|]. split; [done|].
  intros d' Hf Hl Ht Ho. unfold bind. rewrite Hm; [by rewrite Hk|done|done| |done].
  apply (f_equal (take (Z.to_nat o1))) in Ht. rewrite !take_take in Ht.
  by rewrite !Nat.min_l in Ht by lia.
Qed.
Lemma reads_ret {T} (a : T) d o : 0 ≤ o ≤ payload_sz d → reads (ret a) a d o o.
Proof.
  intros Ho. split; [lia|]. split; [lia|]. intros [fl ofs pl np] _ _ _ ?. by simplify_eq/=.
Qed.
Lemma reads_or_return {T} (m : prog dcerpc T) a d o o' e :
  reads m a d o o' → reads (or_return m e) a d o o'.
Proof.
  intros (H1 & H2 & Hm). split; [done|]. split; [done|].
  intros d' ????. unfold or_return. by rewrite Hm.
Qed.
(** What was readable stays readable while the stream is appended to. *)
Lemma reads_appends {T} (m : prog dcerpc T) a d d2 o o' :
  reads m a d o o' → appends d d2 → o' ≤ dce_offset d → reads m a d2 o o'.
Proof.
  intros (H1 & H2 & Hm) [f n l ofs p] Ho. split; [done|].
  split; [unfold payload_sz in *; lia|].
  intros d' Hf Hl Ht Hof. apply Hm; [congruence|congruence| |done]. rewrite Ht.
  apply (f_equal (take (Z.to_nat o'))) in p. rewrite !take_take in p.
  by rewrite !Nat.min_l in p by lia.
Qed.

(** ** The codec interface

    What a pair of a writer and a reader promises to its clients: from a
    handle that satisfies the invariant the writer does not fault, keeps the
    invariant and only appends, and after success the reader started where
    the writer started returns the value and stops where the writer stopped. *)
Class Codec {T} (write : T → prog dcerpc unit) (read : prog dcerpc T) (valid : T → Prop) :=
  codec_spec : ∀ v d, dce_ok d → valid v →
    wp (write v) d
      (λ _ d', dce_ok d' ∧ appends d d' ∧
               reads read v d' (dce_offset d) (dce_offset d'))
      (λ _ d', dce_ok d' ∧ appends d d').

(** ** The primitives as codecs *)
Definition int_width (n : nat) : Prop := n = 1%nat ∨ n = 2%nat ∨ n = 4%nat ∨ n = 8%nat.
Existing Class int_width.
#[export] Instance int_width_1 : int_width 1. Proof. unfold int_width; lia. Qed.
#[export] Instance int_width_2 : int_width 2. Proof. unfold int_width; lia. Qed.
#[export] Instance int_width_4 : int_width 4. Proof. unfold int_width; lia. Qed.
#[export] Instance int_width_8 : int_width 8. Proof. unfold int_width; lia. Qed.
Definition int_valid (n : nat) (v : Z) : Prop := 0 ≤ v < 2 ^ (8 * Z.of_nat n).

Lemma int_width_pow n : int_width n → ∃ k, 0 ≤ k ≤ 3 ∧ Z.of_nat n = 2 ^ k.
Proof.
  intros [-> | [-> | [-> | ->]]]; [exists 0|exists 1|exists 2|exists 3]; (split; [lia|done]).
Qed.
Lemma ALIGN_ok n x :
  int_width n → 0 ≤ x ≤ 2 ^ 62 →
  x ≤ ALIGN x (Z.of_nat n) ≤ 2 ^ 62 ∧ ALIGN (ALIGN x (Z.of_nat n)) (Z.of_nat n) = ALIGN x (Z.of_nat n).
Proof.
  intros (k & Hk & ->)%int_width_pow Hx.
  assert (2 ^ k ≤ 2 ^ 3) by (apply Z.pow_le_mono_r; lia).
  destruct (ALIGN_spec x k) as [Hm Hr]; [lia..|].
  pose proof (ALIGN_le x k (2 ^ 62)) as Hb. split.
  - split; [lia|]. apply Hb; [lia..| |lia].
    replace (2 ^ 62) with (2 ^ (62 - k) * 2 ^ k) by (rewrite <-Z.pow_add_r by lia; f_equal; lia).
    apply Z.mod_mul. lia.
  - apply ALIGN_id; [lia|done].
Qed.

Lemma appends_set_offset d o : dce_offset d ≤ o → appends d (set_offset o d).
Proof. by split. Qed.
Lemma dce_ok_set_offset d o : dce_ok d → 0 ≤ o ≤ 2 ^ 62 → dce_ok (set_offset o d).
Proof. intros (?&?&?) ?. by split. Qed.

Section Codecs.
Context {A : Allocator}.

(** With a fixed payload the check is exactly that the data fit. *)
Lemma try_realloc_fixed d sz :
  dce_ok d → 0 ≤ sz ≤ 2 ^ 62 →
  try_realloc_payload sz d =
    if dce_offset d + sz <=? payload_sz d then Done tt d else Err (- ENOMEM) d.
Proof.
  intros (H1 & H2 & H3) Hs. unfold try_realloc_payload, SIZE_MAX. rewrite H3.
  rewrite (proj2 (Z.ltb_ge _ _)) by lia. done.
Qed.

(** A fitting [put] appends exactly [src], which can be fetched back. *)
Lemma put_spec d src :
  dce_ok d → dce_offset d + Z.of_nat (length src) ≤ payload_sz d →
  ∃ d', put src d = Done tt d' ∧ dce_ok d' ∧ appends d d' ∧
    dce_offset d' = dce_offset d + Z.of_nat (length src) ∧
    mem_read (Z.to_nat (dce_offset d)) (length src) (dce_payload d') = src.
Proof.
  intros (H1 & H2 & H3) Hfit. unfold put. unfold payload_sz in *.
  rewrite (proj2 (Z.leb_le _ _)), (proj2 (Z.leb_le _ _)) by lia. cbn [andb].
  rewrite u64_small by lia.
  assert (Z.to_nat (dce_offset d) + length src ≤ length (dce_payload d))%nat by lia.
  eexists; split_and!; [done|..].
  - split; cbn; [lia|]. unfold payload_sz; cbn. by rewrite length_mem_write.
  - split; cbn; [done|done|by apply length_mem_write|lia|].
    unfold mem_write. rewrite take_app_le by (rewrite length_take; lia).
    rewrite take_take. f_equal. lia.
  - done.
  - by apply mem_read_write.
Qed.
(** A reader that aligns the cursor to [a], checks that [n] octets are left
    and fetches them, reads back what [put] left there. *)
Lemma reads_aligned {T} (a : nat) (dec : dcerpc → bytes → T) d d' src o :
  int_width a → dce_ok d → appends d d' → dce_ok d' →
  o = ALIGN (dce_offset d) (Z.of_nat a) →
  dce_offset d' = o + Z.of_nat (length src) → dce_offset d' ≤ payload_sz d' →
  mem_read (Z.to_nat o) (length src) (dce_payload d') = src →
  (∀ x y, dce_flags x = dce_flags y → dec x = dec y) →
  reads (align_offset (Z.of_nat a) ;;
         x <- get ;;
         if payload_sz x <? u64 (dce_offset x + Z.of_nat (length src)) then fail (- EINVAL)
         else raw <- fetch (Z.of_nat (length src)) ;; ret (dec x raw))
        (dec d src) d' (dce_offset d) (dce_offset d').
Proof.
  intros Ha (Ho & Hp & _) Happ (Ho' & Hp' & _) -> Hoff Hfit Hmem Hdec.
  destruct (ALIGN_ok a (dce_offset d)) as [Hal _]; [done|lia|].
  split; [lia|]. split; [lia|]. intros x Hf Hl Ht Hx.
  unfold bind, align_offset, modify, get, fetch, ret, payload_sz in *. cbn. rewrite Hl, Hx.
  rewrite u64_small by lia.
  rewrite (proj2 (Z.ltb_ge _ _)) by lia. cbn. unfold payload_sz; cbn. rewrite Hl.
  rewrite !(proj2 (Z.leb_le _ _)) by lia. cbn. rewrite u64_small by lia. f_equal.
  - rewrite <-(Hdec (set_offset (ALIGN (dce_offset d) (Z.of_nat a)) x) d).
    2:{ cbn. rewrite Hf. apply Happ. }
    f_equal. rewrite <-Hmem at 2. unfold mem_read. rewrite Nat2Z.id.
    rewrite Hoff in Ht. rewrite Z2Nat.inj_add, Nat2Z.id in Ht by lia.
    apply (f_equal (drop (Z.to_nat (ALIGN (dce_offset d) (Z.of_nat a))))) in Ht.
    by rewrite !skipn_firstn_comm, !Nat.add_sub_swap, !Nat.sub_diag in Ht by lia.
  - unfold set_offset; cbn. by rewrite Hoff.
Qed.

(** The common shape of the writers: align, make room, copy. *)
Lemma write_aligned {T} (a len : nat) (f : dcerpc → bytes) (dec : dcerpc → bytes → T) d :
  int_width a → dce_ok d → Z.of_nat len ≤ 2 ^ 62 →
  (∀ x, length (f x) = len) →
  (∀ x y, dce_flags x = dce_flags y → f x = f y) →
  (∀ x y, dce_flags x = dce_flags y → dec x = dec y) →
  wp (align_offset (Z.of_nat a) ;;
      try_realloc_payload (Z.of_nat len) else_return (- ENOMEM) ;;
      x <- get ;; put (f x)) d
    (λ _ d', dce_ok d' ∧ appends d d' ∧
       reads (align_offset (Z.of_nat a) ;;
              x <- get ;;
              if payload_sz x <? u64 (dce_offset x + Z.of_nat len) then fail (- EINVAL)
              else raw <- fetch (Z.of_nat len) ;; ret (dec x raw))
             (dec d (f d)) d' (dce_offset d) (dce_offset d'))
    (λ _ d', dce_ok d' ∧ appends d d').
Proof.
  intros Ha Hd Hlen Hf Hff Hdec.
  destruct (ALIGN_ok a (dce_offset d)) as [Hal _]; [done|apply Hd|].
  set (d1 := set_offset (ALIGN (dce_offset d) (Z.of_nat a)) d).
  assert (dce_ok d1) as Hd1 by (apply dce_ok_set_offset; [done|destruct Hd; lia]).
  assert (appends d d1) as Ha1 by (apply appends_set_offset; lia).
  unfold align_offset at 1. do 2 wp_step. fold d1. do 2 wp_step.
  unfold wp at 1. rewrite try_realloc_fixed by (done || lia).
  destruct (Z.leb_spec (dce_offset d1 + Z.of_nat len) (payload_sz d1)) as [Hfit|]; [|done].
  do 2 wp_step.
  destruct (put_spec d1 (f d1)) as (d' & Hput & Hok & Happ & Ho & Hmem); [done|by rewrite Hf|].
  eapply wp_run; [exact Hput|]. split; [done|]. split; [by trans d1|].
  pose proof (reads_aligned a dec d d' (f d1) (dce_offset d1)) as Hr.
  rewrite Hf in *. rewrite (Hff d d1) by done. apply Hr; try done.
  - by trans d1.
  - destruct Happ as [_ _ Hl _ _]. unfold payload_sz in *. rewrite Hl. lia.
Qed.

(** Integers of every width, in either byte order. *)
#[global] Instance int_codec n :
  int_width n → Codec (ndr_write_int n) (ndr_read_int n) (int_valid n).
Proof.
  intros Hn v d Hd Hv.
  assert (dec_int d (enc_int d n v) = v) as Hde.
  { unfold dec_int, enc_int. destruct has_flag;
      [rewrite le_val_bytes|rewrite be_val_bytes]; by apply Z.mod_small. }
  pose proof (write_aligned n n (λ x, enc_int x n v) dec_int d) as Hw.
  cbv beta in Hw. rewrite Hde in Hw. apply Hw; try done.
  - destruct Hn as [-> | [-> | [-> | ->]]]; lia.
  - intros x. unfold enc_int. destruct has_flag; by autorewrite with ksmbd.
  - intros x y Hxy. unfold enc_int, has_flag. by rewrite Hxy.
  - intros x y Hxy. unfold dec_int, has_flag. by rewrite Hxy.
Qed.

Lemma reads_ext {T} (m m' : prog dcerpc T) a d o o' :
  (∀ x, m x = m' x) → reads m a d o o' → reads m' a d o o'.
Proof. intros Hx (H1 & H2 & Hm). split; [done|]. split; [done|]. intros. rewrite <-Hx. by apply Hm. Qed.

(** Counted octets. *)
#[global] Instance bytes_codec sz :
  Z.of_nat sz ≤ 2 ^ 62 →
  Codec ndr_write_bytes (ndr_read_bytes (Z.of_nat sz)) (λ v, length v = sz).
Proof.
  intros Hsz v d Hd Hv. unfold ndr_write_bytes. rewrite Hv.
  wp_by (apply (write_aligned 2 sz (λ _, v) (λ _ raw, raw)); try done; by right; left).
  - intros _ d' (? & ? & Hr). split_and!; [done..|]. eapply reads_ext; [|exact Hr].
    intros x. unfold ndr_read_bytes, bind, get, align_offset, modify, ret. cbn.
    destruct (_ <? _); [done|]. by destruct fetch.
  - done.
Qed.

(** *** Use of the interface *)
Lemma wp_codec {T} (w : T → prog dcerpc unit) r valid `{!Codec w r valid} v d Q E :
  dce_ok d → valid v →
  (∀ d', dce_ok d' → appends d d' → reads r v d' (dce_offset d) (dce_offset d') → Q tt d') →
  (∀ e d', dce_ok d' → appends d d' → E e d') →
  wp (w v) d Q E.
Proof.
  intros Hd Hv HQ HE. eapply wp_mono; [by apply codec_spec|..].
  - intros [] d' (?&?&?). auto.
  - intros e d' (?&?). auto.
Qed.

(** Writing one value after the other and reading them in the same order. *)
#[global] Instance pair_codec {T U} (w1 : T → _) r1 v1 (w2 : U → _) r2 v2 :
  Codec w1 r1 v1 → Codec w2 r2 v2 →
  Codec (λ p, w1 p.1 ;; w2 p.2) (x <- r1 ;; y <- r2 ;; ret (x, y))
        (λ p, v1 p.1 ∧ v2 p.2).
Proof.
  intros C1 C2 [x y] d Hd [Hx Hy]. cbn in *. wp_step.
  apply (wp_codec w1 r1 v1); [done|done| |done]. intros d1 Hd1 Ha1 Hr1.
  apply (wp_codec w2 r2 v2); [done|done| |].
  - intros d2 Hd2 Ha2 Hr2. split; [done|]. split; [by trans d1|].
    eapply reads_bind; [eapply reads_appends; [exact Hr1|done|done]|].
    eapply reads_bind; [exact Hr2|]. apply reads_ret.
    destruct Hr2 as (? & ? & _). destruct Hd. lia.
  - intros e d2 Hd2 Ha2. split; [done|by trans d1].
Qed.

(** Replacing the error codes keeps a codec a codec. *)
#[global] Instance or_return_codec {T} (w : T → _) r v e e' :
  Codec w r v → Codec (λ x, or_return (w x) e) (or_return r e') v.
Proof.
  intros C x d Hd Hx. wp_step. apply (wp_codec w r v); [done|done| |done].
  intros d' ?? Hr. split_and!; [done..|by apply reads_or_return].
Qed.

(** A list of values, written in order; the reader knows their number. *)
Fixpoint write_list {T} (w : T → prog dcerpc unit) (l : list T) : prog dcerpc unit :=
  match l with [] => ret tt | x :: l => w x ;; write_list w l end.
Fixpoint read_list {T} (r : prog dcerpc T) (n : nat) : prog dcerpc (list T) :=
  match n with O => ret [] | S n => x <- r ;; l <- read_list r n ;; ret (x :: l) end.

(** The cursor is inside the payload where a first value was read. *)
Lemma list_codec {T} (w : T → prog dcerpc unit) r valid `{!Codec w r valid} l d :
  dce_ok d → Forall valid l → dce_offset d ≤ payload_sz d →
  wp (write_list w l) d
    (λ _ d', dce_ok d' ∧ appends d d' ∧
             reads (read_list r (length l)) l d' (dce_offset d) (dce_offset d'))
    (λ _ d', dce_ok d' ∧ appends d d').
Proof.
  intros Hd Hl. revert d Hd. induction Hl as [|x l Hx _ IH]; intros d Hd Hin; cbn [write_list read_list length].
  { wp_step. split_and!; [done..|]. apply reads_ret. destruct Hd. lia. }
  wp_step. apply (wp_codec w r valid); [done|done| |done]. intros d1 Hd1 Ha1 Hr1.
  wp_by (apply IH; [done|destruct Hr1; lia]).
  - intros _ d2 (Hd2 & Ha2 & Hr2). split; [done|]. split; [by trans d1|].
    eapply reads_bind; [eapply reads_appends; [exact Hr1|done|done]|].
    eapply reads_bind; [exact Hr2|]. apply reads_ret.
    destruct Hr2 as (? & ? & _). destruct Hd1. lia.
  - intros e d2 (Hd2 & Ha2). split; [done|by trans d1].
Qed.
End Codecs.

(** ** Memory safety of composed programs

    [safe R m]: from a handle that satisfies the invariant, [m] does not
    fault, keeps the invariant, and relates the handles before and after by
    [R], whether it succeeds or fails. *)
Definition safe {T} (R : dcerpc → dcerpc → Prop) (m : prog dcerpc T) : Prop :=
  ∀ d, dce_ok d → wp m d (λ _ d', dce_ok d' ∧ R d d') (λ _ d', dce_ok d' ∧ R d d').

(** A reader leaves everything but the cursor. *)
Definition moved (d d' : dcerpc) : Prop := d' = set_offset (dce_offset d') d.
#[export] Instance moved_refl : Reflexive moved.
Proof. by intros []. Qed.
#[export] Instance moved_trans : Transitive moved.
Proof. intros [] [] [] H1 H2. unfold moved, set_offset in *. cbn in *. congruence. Qed.

Section Safe.
Context {R : dcerpc → dcerpc → Prop} `{!Reflexive R, !Transitive R}.

Lemma dce_safe_ret {T} (a : T) : safe R (ret a).
Proof. intros d Hd. by wp_step. Qed.
Lemma dce_safe_fail {T} e : safe R (fail (A:=T) e).
Proof. intros d Hd. by wp_step. Qed.
Lemma safe_get : safe R get.
Proof. intros d Hd. by wp_step. Qed.
Lemma safe_gets {T} (f : dcerpc → T) : safe R (gets f).
Proof. intros d Hd. by wp_step. Qed.
Lemma dce_safe_bind {T U} (m : prog dcerpc T) (k : T → prog dcerpc U) :
  safe R m → (∀ a, safe R (k a)) → safe R (bind m k).
Proof.
  intros Hm Hk d Hd. wp_step. wp_by (by apply Hm).
  - intros a d' [Hd' Hr]. wp_by (by apply Hk).
    + intros _ d2 []. split; [done|by trans d'].
    + intros _ d2 []. split; [done|by trans d'].
  - done.
Qed.
Lemma safe_or_return {T} (m : prog dcerpc T) e : safe R m → safe R (or_return m e).
Proof. intros Hm d Hd. wp_step. by apply Hm. Qed.
Lemma safe_attempt {T} (m : prog dcerpc T) : safe R m → safe R (attempt m).
Proof. intros Hm d Hd. wp_step. by apply Hm. Qed.
Lemma safe_ignore {T} (m : prog dcerpc T) : safe R m → safe R (ignore m).
Proof. intros Hm d Hd. wp_step. by apply Hm. Qed.
End Safe.

#[export] Hint Resolve dce_safe_ret dce_safe_fail safe_get safe_gets safe_or_return
  safe_attempt safe_ignore : ksmbd.
#[export] Hint Extern 2 (Reflexive _) => apply _ : ksmbd.

(** Runs through a program by the structure of its statements. *)
Ltac safe_step :=
  match goal with
  | |- safe _ (bind _ _) => apply dce_safe_bind; [|intros ?]
  | |- safe _ (if ?b then _ else _) => destruct b eqn:?
  | |- safe _ (match ?x with _ => _ end) => destruct x eqn:?
  | |- safe _ (let _ := _ in _) => cbv zeta
  | |- safe _ _ => solve [eauto 4 with ksmbd]
  end.
Ltac safes := repeat safe_step.

Section SafePrimitives.
Context {A : Allocator}.

Lemma codec_safe {T} (w : T → prog dcerpc unit) r valid `{!Codec w r valid} v :
  valid v → safe appends (w v).
Proof. intros Hv d Hd. apply (wp_codec w r valid); auto. Qed.

(** The octets of an over-wide value are those of its remainder. *)
Lemma le_bytes_wrap n v : le_bytes n (v mod 2 ^ (8 * Z.of_nat n)) = le_bytes n v.
Proof.
  rewrite <-le_val_bytes. rewrite <-(length_le_bytes n v) at 1.
  apply le_bytes_val, le_bytes_bytes.
Qed.
Lemma ndr_write_int_wrap n v :
  ndr_write_int n (v mod 2 ^ (8 * Z.of_nat n)) = ndr_write_int n v.
Proof.
  unfold ndr_write_int, enc_int, be_bytes. by rewrite le_bytes_wrap.
Qed.
Lemma ndr_write_int_safe n v : int_width n → safe appends (ndr_write_int n v).
Proof.
  intros Hn. rewrite <-ndr_write_int_wrap.
  apply (codec_safe _ (ndr_read_int n) (int_valid n)).
  apply Z.mod_pos_bound, Z.pow_pos_nonneg; lia.
Qed.
Lemma ndr_write_bytes_safe l : Z.of_nat (length l) ≤ 2 ^ 62 → safe appends (ndr_write_bytes l).
Proof.
  intros. pose proof (bytes_codec (length l) ltac:(done)).
  by apply (codec_safe _ (ndr_read_bytes (Z.of_nat (length l))) (λ v, length v = length l)).
Qed.
Lemma align_offset_safe n R : (∀ d o, dce_offset d ≤ o → R d (set_offset o d)) →
  int_width n → safe R (align_offset (Z.of_nat n)).
Proof.
  intros HR Hn d Hd. destruct (ALIGN_ok n (dce_offset d)) as [Hal _]; [done|apply Hd|].
  unfold align_offset. wp_step. split; [apply dce_ok_set_offset; [done|destruct Hd; lia]|].
  apply HR. lia.
Qed.
Lemma auto_align_safe R : Reflexive R → (∀ d o, dce_offset d ≤ o → R d (set_offset o d)) →
  safe R auto_align_offset.
Proof.
  intros Hr HR d Hd. unfold auto_align_offset. wp_step.
  assert (∀ n, int_width n → dce_ok (set_offset (ALIGN (dce_offset d) (Z.of_nat n)) d) ∧
    R d (set_offset (ALIGN (dce_offset d) (Z.of_nat n)) d)) as HA.
  { intros n Hn. by apply (align_offset_safe n R). }
  destruct has_flag; [apply (HA 8%nat); unfold int_width; lia|].
  destruct has_flag; [apply (HA 4%nat); unfold int_width; lia|done].
Qed.
Lemma ndr_read_int_safe n : int_width n → safe moved (ndr_read_int n).
Proof.
  intros Hn. unfold ndr_read_int. apply dce_safe_bind; [by apply align_offset_safe|intros _].
  intros d Hd. do 2 wp_step. wp_step; [by wp_step|]. destruct Hd as (Ho & Hp & Hf). zbool.
  assert (1 ≤ Z.of_nat n ≤ 8) by (destruct Hn as [-> | [-> | [-> | ->]]]; lia).
  rewrite u64_small in Heqb by lia.
  wp_step. unfold fetch, wp at 1. rewrite !(proj2 (Z.leb_le _ _)) by lia. cbn [andb].
  rewrite u64_small by lia. wp_step. split; [|done].
  apply dce_ok_set_offset; [done|lia].
Qed.
Lemma ndr_read_bytes_safe sz : 0 ≤ sz ≤ 2 ^ 62 → safe moved (ndr_read_bytes sz).
Proof.
  intros Hsz. unfold ndr_read_bytes.
  apply dce_safe_bind; [by apply (align_offset_safe 2); [|right; left]|intros _].
  intros d Hd. do 2 wp_step. wp_step; [by wp_step|]. destruct Hd as (Ho & Hp & Hf). zbool.
  rewrite u64_small in Heqb by lia.
  unfold fetch, wp at 1. rewrite !(proj2 (Z.leb_le _ _)) by lia. cbn [andb].
  rewrite u64_small by lia. split; [|done]. apply dce_ok_set_offset; [done|lia].
Qed.
End SafePrimitives.

(** The primitives, as hints: [safes] needs nothing else for a composition. *)
#[export] Hint Extern 1 (safe _ (ndr_write_int8 _)) => apply ndr_write_int_safe; apply _ : ksmbd.
#[export] Hint Extern 1 (safe _ (ndr_write_int16 _)) => apply ndr_write_int_safe; apply _ : ksmbd.
#[export] Hint Extern 1 (safe _ (ndr_write_int32 _)) => apply ndr_write_int_safe; apply _ : ksmbd.
#[export] Hint Extern 1 (safe _ (ndr_write_int64 _)) => apply ndr_write_int_safe; apply _ : ksmbd.
#[export] Hint Extern 1 (safe _ ndr_read_int8) => apply ndr_read_int_safe; apply _ : ksmbd.
#[export] Hint Extern 1 (safe _ ndr_read_int16) => apply ndr_read_int_safe; apply _ : ksmbd.
#[export] Hint Extern 1 (safe _ ndr_read_int32) => apply ndr_read_int_safe; apply _ : ksmbd.
#[export] Hint Extern 1 (safe _ ndr_read_int64) => apply ndr_read_int_safe; apply _ : ksmbd.
#[export] Hint Extern 1 (safe _ auto_align_offset) =>
  apply auto_align_safe; [apply _|intros; by (apply appends_set_offset || idtac)] : ksmbd.
#[export] Hint Resolve ndr_write_bytes_safe : ksmbd.

Section StringSafety.
Context {A : Allocator}.
Variable g_convert : Z → Z → bytes → option bytes.
Variable g_utf8_strlen : bytes → Z.
(** Objects in memory are smaller than 2^62 octets. *)
Hypothesis g_convert_small : ∀ t f s out, g_convert t f s = Some out → Z.of_nat (length out) ≤ 2 ^ 62.

Lemma gconvert_small s t f out :
  ksmbd_gconvert g_convert s t f = Some out → Z.of_nat (length out) ≤ 2 ^ 62.
Proof.
  unfold ksmbd_gconvert. generalize 2%nat. intros fuel. revert t f.
  induction fuel as [|fuel IH]; intros t f H; cbn in H; [done|].
  repeat case_match; simplify_eq; eauto.
Qed.
#[local] Hint Resolve gconvert_small : ksmbd.

Lemma ndr_write_vstring_safe v : safe appends (ndr_write_vstring g_convert g_utf8_strlen v).
Proof.
  unfold ndr_write_vstring, ndr_convert_char_to_unicode, write_counted. safes.
Qed.
Lemma ndr_write_string_safe v : safe appends (ndr_write_string g_convert v).
Proof. unfold ndr_write_string, ndr_convert_char_to_unicode, write_then_align. safes. Qed.
Lemma ndr_write_lsa_string_safe v : safe appends (ndr_write_lsa_string g_convert v).
Proof. unfold ndr_write_lsa_string, ndr_convert_char_to_unicode, write_then_align. safes. Qed.

Lemma fetch_spec d n :
  dce_ok d → 0 ≤ n → dce_offset d + n ≤ payload_sz d →
  fetch n d = Done (mem_read (Z.to_nat (dce_offset d)) (Z.to_nat n) (dce_payload d))
                   (set_offset (dce_offset d + n) d).
Proof.
  intros (Ho & Hp & _) Hn Hfit. unfold fetch.
  rewrite !(proj2 (Z.leb_le _ _)) by lia. cbn [andb]. by rewrite u64_small by lia.
Qed.

(** Values read are not negative. *)
Lemma ndr_read_int_nonneg n `{!int_width n} d :
  dce_ok d → is_bytes (dce_payload d) →
  wp (ndr_read_int n) d (λ v d', dce_ok d' ∧ moved d d' ∧ int_valid n v)
     (λ _ d', dce_ok d' ∧ moved d d').
Proof.
  intros Hd Hb. pose proof (ndr_read_int_safe n _ d Hd) as Hs.
  destruct (ndr_read_int n d) as [v d'|e d'|] eqn:Hr; unfold wp in Hs; rewrite Hr in Hs.
  2: by unfold wp; rewrite Hr. 2: done.
  unfold wp; rewrite Hr. destruct Hs as [? ?]. split_and!; [done..|].
  unfold ndr_read_int, bind, align_offset, modify, get, fetch, ret, fail in Hr.
  repeat case_match; simplify_eq.
  set (raw := mem_read _ _ _). assert (is_bytes raw) as Hraw.
  { apply Forall_take, Forall_drop. done. }
  assert (length raw = n) as Hlen.
  { zbool. unfold raw. rewrite length_mem_read; [lia|]. unfold payload_sz in *. cbn in *. lia. }
  unfold int_valid, dec_int. rewrite <-Hlen.
  destruct has_flag; [by apply le_val_range|].
  unfold be_val. rewrite <-length_reverse. by apply le_val_range, Forall_reverse.
Qed.

(** The string reader stays in the payload for every content of it. *)
Lemma ndr_read_vstring_wp d :
  dce_ok d → is_bytes (dce_payload d) →
  wp (ndr_read_vstring g_convert) d
     (λ _ d', dce_ok d' ∧ moved d d') (λ _ d', dce_ok d' ∧ moved d d').
Proof.
  intros Hd Hb. unfold ndr_read_vstring.
  assert (∀ d', moved d d' → dce_payload d' = dce_payload d) as Hpl.
  { intros d' Hm. by rewrite Hm. }
  wp_step. wp_by (by apply (ndr_read_int_nonneg 4)); [|tauto].
  intros raw_len d1 (Hd1 & Hm1 & Hv1).
  wp_step. wp_by (apply (ndr_read_int_nonneg 4); [done|by rewrite Hpl]).
  2:{ intros _ d2 [? ?]. split; [done|by trans d1]. }
  intros _ d2 (Hd2 & Hm2 & _). assert (moved d d2) as Hm2' by by trans d1.
  wp_step. wp_by (apply (ndr_read_int_nonneg 4); [done|by rewrite Hpl]).
  2:{ intros _ d3 [? ?]. split; [done|by trans d2]. }
  intros actual_len d3 (Hd3 & Hm3 & Hv3). assert (moved d d3) as Hm3' by by trans d2.
  clear Hm1 Hm2 Hm3 Hm2' Hd1 Hd2. red in Hv1, Hv3.
  wp_step; [by wp_step|]. wp_step; [by wp_step|]. do 2 wp_step.
  wp_step; [by wp_step|]. zbool. wp_step.
  assert (∀ n, 0 ≤ n ≤ payload_sz d3 - dce_offset d3 →
    wp (raw <- fetch n;; match ksmbd_gconvert g_convert raw KSMBD_CHARSET_UTF8 (wire_charset d3) with
      | Some out => auto_align_offset ;; ret out
      | None => modify (set_offset (dce_offset d3)) ;; fail (- EINVAL) end) d3
      (λ _ d', dce_ok d' ∧ moved d d') (λ _ d', dce_ok d' ∧ moved d d')) as Hfetch.
  { intros n Hn. wp_step. eapply wp_run; [apply fetch_spec; [done|lia|lia]|]. cbn beta.
    assert (dce_ok (set_offset (dce_offset d3 + n) d3)) as Hd4.
    { apply dce_ok_set_offset; [done|]. destruct Hd3 as (?&?&?). lia. }
    destruct ksmbd_gconvert.
    - wp_step. wp_by (apply (auto_align_safe moved); [apply _|done|done]).
      + intros _ d4 [? Hm]. wp_step. split; [done|]. trans d3; [done|].
        rewrite Hm. by destruct d3.
      + intros _ d4 [? Hm]. split; [done|]. trans d3; [done|]. rewrite Hm. by destruct d3.
    - do 2 wp_step. wp_step. split.
      + apply dce_ok_set_offset; [by destruct d3|]. by destruct Hd3.
      + trans d3; [done|]. by destruct d3. }
  destruct has_flag; (wp_step; [by wp_step|]); wp_step; zbool; apply Hfetch; Z.to_euclidean_division_equations; lia.
Qed.
End StringSafety.

(** ** Functional behaviour *)
Section Exact.
Context {A : Allocator}.

(** The handle after [src] was copied to the aligned offset [o]. *)
Definition copied (o : Z) (src : bytes) (d : dcerpc) : dcerpc :=
  set_offset (o + Z.of_nat (length src))
    (set_payload (mem_write (Z.to_nat o) src (dce_payload d)) d).

Lemma ndr_write_int_exact n v d :
  int_width n → dce_ok d →
  let o := ALIGN (dce_offset d) (Z.of_nat n) in
  ndr_write_int n v d =
    if o + Z.of_nat n <=? payload_sz d
    then Done tt (copied o (enc_int d n v) d)
    else Err (- ENOMEM) (set_offset o d).
Proof.
  intros Hn Hd o. destruct (ALIGN_ok n (dce_offset d)) as [Hal _]; [done|apply Hd|].
  unfold ndr_write_int, align_offset, modify, bind, or_return, get. fold o.
  assert (1 ≤ Z.of_nat n ≤ 8) by (destruct Hn as [-> | [-> | [-> | ->]]]; lia).
  assert (dce_ok (set_offset o d)) as Hd1
    by (apply dce_ok_set_offset; [done|destruct Hd; unfold o; lia]).
  assert (length (enc_int d n v) = n) as Hlen.
  { unfold enc_int. destruct has_flag; by autorewrite with ksmbd. }
  rewrite try_realloc_fixed by (done || lia). cbn [dce_offset set_offset].
  change (payload_sz (set_offset o d)) with (payload_sz d).
  destruct (Z.leb_spec (o + Z.of_nat n) (payload_sz d)) as [Hfit|]; [|done].
  unfold put, copied, payload_sz in *. cbn [dce_offset dce_payload set_offset set_payload].
  change (enc_int (set_offset o d) n v) with (enc_int d n v).
  destruct Hd as (Ho & Hp & _). rewrite Hlen.
  rewrite (proj2 (Z.leb_le 0 o)), (proj2 (Z.leb_le _ _)) by (fold o in Hal; lia).
  rewrite u64_small by (fold o in Hal; lia).
  done.
Qed.

Lemma ndr_write_bytes_exact l d :
  dce_ok d → Z.of_nat (length l) ≤ 2 ^ 62 →
  let o := ALIGN (dce_offset d) 2 in
  ndr_write_bytes l d =
    if o + Z.of_nat (length l) <=? payload_sz d
    then Done tt (copied o l d) else Err (- ENOMEM) (set_offset o d).
Proof.
  intros Hd Hlen o. destruct (ALIGN_ok 2 (dce_offset d)) as [Hal _]; [apply _|apply Hd|].
  change (Z.of_nat 2) with 2 in Hal.
  unfold ndr_write_bytes, align_offset, modify, bind, or_return, get. fold o.
  assert (dce_ok (set_offset o d)) as Hd1
    by (apply dce_ok_set_offset; [done|destruct Hd; unfold o; lia]).
  rewrite try_realloc_fixed by (done || lia). cbn [dce_offset set_offset].
  change (payload_sz (set_offset o d)) with (payload_sz d).
  destruct (Z.leb_spec (o + Z.of_nat (length l)) (payload_sz d)) as [Hfit|]; [|done].
  unfold put, copied, payload_sz in *. cbn [dce_offset dce_payload set_offset set_payload].
  destruct Hd as (Ho & Hp & _).
  rewrite (proj2 (Z.leb_le 0 o)), (proj2 (Z.leb_le _ _)) by (fold o in Hal; lia).
  rewrite u64_small by (fold o in Hal; lia).
  done.
Qed.

Lemma set_offset_back d' : set_offset (dce_offset d') d' = d'.
Proof. by destruct d'. Qed.

Lemma reads_run {T} (m : prog dcerpc T) a d o o' x :
  reads m a d o o' → dce_flags x = dce_flags d → dce_payload x = dce_payload d →
  dce_offset x = o → m x = Done a (set_offset o' x).
Proof. intros (_ & _ & H) Hf Hp Ho. apply H; by rewrite ?Hp. Qed.

(** An integer of 8, 16, 32 or 64 bits is written exactly
    when its aligned position fits in the payload, and reading from where the
    writer started returns the value and stops where the writer stopped;
    otherwise the write is refused with -ENOMEM and no octet changes. *)
Theorem ndr_int_roundtrip n v d :
  int_width n → dce_ok d → int_valid n v →
  if ALIGN (dce_offset d) (Z.of_nat n) + Z.of_nat n <=? payload_sz d
  then ∃ d', ndr_write_int n v d = Done tt d' ∧ appends d d' ∧
             ndr_read_int n (set_offset (dce_offset d) d') = Done v d'
  else ∃ d', ndr_write_int n v d = Err (- ENOMEM) d' ∧ dce_payload d' = dce_payload d.
Proof.
  intros Hn Hd Hv. pose proof (ndr_write_int_exact n v d Hn Hd) as He.
  pose proof (int_codec n Hn v d Hd Hv) as Hc. unfold wp in Hc. cbv zeta in He.
  rewrite He in Hc |- *. destruct (_ <=? _).
  - destruct Hc as (_ & Happ & Hr). eexists. split; [done|]. split; [done|].
    rewrite (reads_run _ _ _ _ _ _ Hr); [|done..]. f_equal.
  - by eexists.
Qed.


(** After an integer of [n] octets the cursor is a multiple of [n]. *)
Lemma ALIGN_after n x :
  int_width n → 0 ≤ x ≤ 2 ^ 62 →
  ALIGN (ALIGN x (Z.of_nat n) + Z.of_nat n) (Z.of_nat n) = ALIGN x (Z.of_nat n) + Z.of_nat n.
Proof.
  intros (k & Hk & ->)%int_width_pow Hx.
  assert (2 ^ k ≤ 2 ^ 3) by (apply Z.pow_le_mono_r; lia).
  destruct (ALIGN_spec x k) as [Hm _]; [lia..|]. apply ALIGN_id; [lia|].
  pose proof (Z.pow_pos_nonneg 2 k).
  by rewrite Zplus_mod, Hm, Z.mod_same, Z.mod_0_l by lia.
Qed.
Lemma ALIGN_4_2 x : ALIGN x 4 = x → ALIGN x 2 = x.
Proof.
  intros H. apply (ALIGN_id x 1); [lia|]. revert H. unfold ALIGN.
  change (4 - 1) with (2 ^ 2 - 1). rewrite land_mask by lia.
  destruct (Z.eqb_spec (x mod 2 ^ 2) 0) as [E|_]; [intros _|].
  - apply Z.mod_divide in E as [q ->]; [|done]. apply Z.mod_divide; [done|]. exists (q * 2). lia.
  - intros H. rewrite <-H.
    set (y := Z.land _ _). assert (Z.testbit y 0 = false) as Hy.
    { unfold y. rewrite Z.land_spec. change (u64 (Z.lnot (2 ^ 2 - 1))) with 18446744073709551612.
      apply andb_false_r. }
    change (2 ^ 1) with 2. by rewrite Zmod_odd, <-Z.bit0_odd, Hy.
Qed.

(** What the counted writer leaves in the payload. *)
Lemma write_counted_spec m n out d :
  dce_ok d → int_valid 4 m → int_valid 4 n → Z.of_nat (length out) ≤ 2 ^ 62 →
  wp (write_counted m n out) d
    (λ _ d', dce_ok d' ∧ dce_flags d' = dce_flags d ∧ ∃ o1 o2 o3,
       reads ndr_read_int32 m d' (dce_offset d) o1 ∧ reads ndr_read_int32 0 d' o1 o2 ∧
       reads ndr_read_int32 n d' o2 o3 ∧
       dce_offset d' = o3 + Z.of_nat (length out) ∧ dce_offset d' ≤ payload_sz d' ∧
       mem_read (Z.to_nat o3) (length out) (dce_payload d') = out)
    (λ _ d', dce_ok d' ∧ appends d d').
Proof.
  intros Hd Hm Hn Hlen. unfold write_counted.
  wp_step. apply (wp_codec _ (ndr_read_int 4) (int_valid 4)); [done|done| |done]. intros d1 Hd1 Ha1 Hr1.
  wp_step. apply (wp_codec _ (ndr_read_int 4) (int_valid 4)); [done|unfold int_valid; cbn; lia| |].
  2:{ intros e d2 ??. split; [done|by trans d1]. }
  intros d2 Hd2 Ha2 Hr2. wp_step. unfold wp at 1, ndr_write_int32.
  pose proof (int_codec 4 _ n d2 Hd2 Hn) as Hc. unfold wp in Hc.
  rewrite ndr_write_int_exact in Hc |- * by (done || apply _). destruct (_ <=? _).
  2:{ destruct Hc. split; [done|]. trans d1; [done|]. by trans d2. }
  set (d3 := copied _ _ _) in *. destruct Hc as (Hd3 & Ha3 & Hr3). unfold wp.
  assert (ALIGN (dce_offset d3) 2 = dce_offset d3) as Hal.
  { apply ALIGN_4_2. unfold d3, copied, enc_int. cbn [dce_offset set_offset].
    replace (length _) with 4%nat by (destruct has_flag; by autorewrite with ksmbd).
    apply (ALIGN_after 4); [apply _|apply Hd2]. }
  pose proof (ndr_write_bytes_safe out Hlen d3 Hd3) as Hs. unfold wp in Hs.
  rewrite ndr_write_bytes_exact in Hs |- * by done. rewrite Hal in *.
  destruct (Z.leb_spec (dce_offset d3 + Z.of_nat (length out)) (payload_sz d3)) as [Hfit|];
    destruct Hs as [Hd4 Ha4].
  2:{ split; [done|]. trans d1; [done|]. trans d2; [done|]. by trans d3. }
  set (d4 := copied _ _ _) in *.
  split; [done|]. split; [by rewrite (app_flags _ _ Ha4), (app_flags _ _ Ha3), (app_flags _ _ Ha2), (app_flags _ _ Ha1)|].
  destruct Hd3 as (? & ? & _). exists (dce_offset d1), (dce_offset d2), (dce_offset d3). split_and!.
  - eapply reads_appends; [exact Hr1| |done]. trans d2; [done|]. by trans d3.
  - eapply reads_appends; [exact Hr2| |done]. by trans d3.
  - by eapply reads_appends.
  - done.
  - unfold payload_sz in *. rewrite (app_length _ _ Ha4). exact Hfit.
  - apply mem_read_write. unfold payload_sz in *. lia.
Qed.
End Exact.

Lemma ndr_int_roundtrip_witness :
  ∃ d', ndr_write_int (A:=plenty) 4 0x12345678 (mk_dcerpc KSMBD_DCERPC_FIXED_PAYLOAD_SZ 1 (replicate 12 0) 0)
          = Done tt d' ∧
        appends (mk_dcerpc KSMBD_DCERPC_FIXED_PAYLOAD_SZ 1 (replicate 12 0) 0) d' ∧
        ndr_read_int 4 (set_offset 1 d') = Done 0x12345678 d'.
Proof.
  apply (ndr_int_roundtrip (A:=plenty) 4 0x12345678
    (mk_dcerpc KSMBD_DCERPC_FIXED_PAYLOAD_SZ 1 (replicate 12 0) 0)).
  - apply _.
  - split; [cbn; lia|split; [vm_compute; congruence|reflexivity]].
  - unfold int_valid; cbn; lia.
Defined.
(** C11 (safety): with a payload of fixed size, the string writers never
    touch an octet outside the payload or before the cursor, and the string
    reader never reads outside it, whatever the octets received say about
    lengths; each keeps the handle's invariant on success and on failure. *)
Theorem ndr_strings_safe {A : Allocator} g_convert g_utf8_strlen v d :
  (∀ t f s out, g_convert t f s = Some out → Z.of_nat (length out) ≤ 2 ^ 62) →
  dce_ok d → is_bytes (dce_payload d) →
  wp (ndr_write_vstring g_convert g_utf8_strlen v) d
     (λ _ d', dce_ok d' ∧ appends d d') (λ _ d', dce_ok d' ∧ appends d d') ∧
  wp (ndr_write_string g_convert v) d
     (λ _ d', dce_ok d' ∧ appends d d') (λ _ d', dce_ok d' ∧ appends d d') ∧
  wp (ndr_write_lsa_string g_convert v) d
     (λ _ d', dce_ok d' ∧ appends d d') (λ _ d', dce_ok d' ∧ appends d d') ∧
  wp (ndr_read_uniq_vstring_ptr g_convert) d
     (λ _ d', dce_ok d' ∧ moved d d') (λ _ d', dce_ok d' ∧ moved d d').
Proof.
  intros Hg Hd Hb. split_and!.
  - by apply ndr_write_vstring_safe.
  - by apply ndr_write_string_safe.
  - by apply ndr_write_lsa_string_safe.
  - unfold ndr_read_uniq_vstring_ptr. do 2 wp_step.
    wp_by (by apply (ndr_read_int_safe 4 _)); [|done]. intros ref d1 [Hd1 Hm1].
    wp_step; [by wp_step|]. do 2 wp_step.
    wp_by (apply ndr_read_vstring_wp; [done|by rewrite Hm1]).
    + intros s d2 [? ?]. wp_step. split; [done|by trans d1].
    + intros _ d2 [? ?]. split; [done|by trans d1].
Qed.

(** ** Emission

    [emits m a l d]: run from [d], [m] appends exactly the octets [l] and
    returns [a] when they fit, and fails with -ENOMEM when they do not. *)
Definition emits {T} (m : prog dcerpc T) (a : T) (l : bytes) (d : dcerpc) : Prop :=
  if dce_offset d + Z.of_nat (length l) <=? payload_sz d
  then m d = Done a (copied (dce_offset d) l d)
  else ∃ d', m d = Err (- ENOMEM) d'.

Section Emission.
Context {A : Allocator}.

Lemma payload_sz_copied l d :
  0 ≤ dce_offset d → dce_offset d + Z.of_nat (length l) ≤ payload_sz d →
  payload_sz (copied (dce_offset d) l d) = payload_sz d.
Proof.
  intros Ho Hf. unfold payload_sz in *. cbn. rewrite length_mem_write; [done|lia].
Qed.
Lemma copied_ok l d :
  dce_ok d → dce_offset d + Z.of_nat (length l) ≤ payload_sz d →
  dce_ok (copied (dce_offset d) l d).
Proof.
  intros (Ho & Hp & Hf) Hfit. unfold dce_ok. rewrite payload_sz_copied by lia.
  split; [cbn; lia|done].
Qed.
Lemma copied_app l k d :
  0 ≤ dce_offset d → dce_offset d + Z.of_nat (length l) ≤ payload_sz d →
  copied (dce_offset (copied (dce_offset d) l d)) k (copied (dce_offset d) l d) =
  copied (dce_offset d) (l ++ k) d.
Proof.
  intros Ho Hf. unfold payload_sz in Hf. unfold copied, set_offset, set_payload.
  cbn [dce_flags dce_offset dce_payload dce_num_pointers]. f_equal.
  - rewrite length_app. lia.
  - rewrite Z2Nat.inj_add, Nat2Z.id by lia. apply mem_write_app. lia.
Qed.

Lemma emits_ret {T} (a : T) d :
  dce_ok d → dce_offset d ≤ payload_sz d → emits (ret a) a [] d.
Proof.
  intros Hd Hf. unfold emits. cbn [length]. rewrite (proj2 (Z.leb_le _ _)) by lia.
  unfold ret, copied, mem_write. cbn. rewrite Nat.add_0_r, take_drop, Z.add_0_r. by destruct d.
Qed.
Lemma emits_bind {T U} (m : prog dcerpc T) (k : T → prog dcerpc U) a b l1 l2 d :
  dce_ok d → emits m a l1 d →
  (dce_offset d + Z.of_nat (length l1) ≤ payload_sz d →
   emits (k a) b l2 (copied (dce_offset d) l1 d)) →
  emits (bind m k) b (l1 ++ l2) d.
Proof.
  intros Hd Hm Hk. unfold emits, bind in *. destruct Hd as (Ho & Hp & _). rewrite length_app.
  destruct (Z.leb_spec (dce_offset d + Z.of_nat (length l1)) (payload_sz d)) as [Hf|Hf].
  - rewrite Hm. specialize (Hk Hf). rewrite copied_app, payload_sz_copied in Hk by lia.
    cbn [dce_offset copied set_offset] in Hk. revert Hk.
    destruct (Z.leb_spec (dce_offset d + Z.of_nat (length l1) + Z.of_nat (length l2)) (payload_sz d)),
      (Z.leb_spec (dce_offset d + Z.of_nat (length l1 + length l2)) (payload_sz d)); done || lia.
  - rewrite (proj2 (Z.leb_gt _ _)) by lia. destruct Hm as [d' ->]. by exists d'.
Qed.
Lemma emits_or_return {T} (m : prog dcerpc T) a l d :
  emits m a l d → emits (m else_return (- ENOMEM)) a l d.
Proof.
  unfold emits, or_return. destruct (_ <=? _); [by intros ->|intros [d' ->]; by exists d'].
Qed.
Lemma emits_int n v d :
  int_width n → dce_ok d → dce_offset d mod Z.of_nat n = 0 →
  emits (ndr_write_int n v) tt (enc_int d n v) d.
Proof.
  intros Hn Hd Ha. unfold emits. rewrite ndr_write_int_exact by done. cbv zeta.
  replace (length (enc_int d n v)) with n
    by (unfold enc_int; destruct has_flag; by autorewrite with ksmbd).
  destruct (int_width_pow n Hn) as (k & Hk & E). rewrite E in *.
  rewrite ALIGN_id by (done || lia). destruct (_ <=? _); [done|by eexists].
Qed.
Lemma length_enc_int d n v : length (enc_int d n v) = n.
Proof. unfold enc_int. destruct has_flag; by autorewrite with ksmbd. Qed.
Lemma emits_list {T} (w : T → prog dcerpc unit) (f : T → bytes) (a : Z) l d :
  dce_ok d → dce_offset d ≤ payload_sz d → dce_offset d mod a = 0 → 0 < a →
  (∀ x, Z.of_nat (length (f x)) mod a = 0) →
  (∀ x d', dce_ok d' → dce_flags d' = dce_flags d → dce_offset d' mod a = 0 → emits (w x) tt (f x) d') →
  emits (write_list w l) tt (concat (map f l)) d.
Proof.
  intros Hd Hf Ha Hpos Hlen Hw. remember (dce_flags d) as fl eqn:Hfl.
  revert d Hd Hf Ha Hfl. induction l as [|x l IH]; intros d Hd Hf Ha Hfl; cbn [write_list map concat].
  { by apply emits_ret. }
  eapply emits_bind; [done|by apply Hw|]. intros Hfit. apply IH.
  - by apply copied_ok.
  - rewrite payload_sz_copied by (destruct Hd; lia). exact Hfit.
  - cbn. rewrite Zplus_mod, Ha, Hlen, Z.mod_0_l by lia. done.
  - done.
Qed.
End Emission.
#[export] Hint Rewrite @length_enc_int : ksmbd.

(** A conversion of ASCII text between UTF-8 and UTF-16LE, for the witnesses. *)
Fixpoint even_octets (l : bytes) : bytes :=
  match l with x :: _ :: l => x :: even_octets l | _ => [] end.
Definition ascii_convert (to from : Z) (s : bytes) : option bytes :=
  if 2 ^ 61 <? Z.of_nat (length s) then None
  else if (to =? KSMBD_CHARSET_UTF16LE) && (from =? KSMBD_CHARSET_UTF8)
  then Some (concat (map (λ b, [b; 0]) s))
  else if (to =? KSMBD_CHARSET_UTF8) && (from =? KSMBD_CHARSET_UTF16LE)
  then Some (even_octets s) else None.
Lemma length_even_octets l : (length (even_octets l) ≤ length l)%nat.
Proof.
  cut (∀ n l, length l ≤ n → length (even_octets l) ≤ length l)%nat; [eauto|].
  clear l. induction n as [|n IH]; intros [|x [|y l]] H; cbn in *; try lia.
  specialize (IH l). lia.
Qed.
Lemma ascii_convert_small t f s out :
  ascii_convert t f s = Some out → Z.of_nat (length out) ≤ 2 ^ 62.
Proof.
  unfold ascii_convert. intros H. destruct (Z.ltb_spec (2 ^ 61) (Z.of_nat (length s))); [done|].
  repeat case_match; simplify_eq.
  - replace (length (concat (map (λ b, [b; 0]) s))) with (2 * length s)%nat; [lia|].
    clear. induction s; cbn in *; lia.
  - pose proof (length_even_octets s). lia.
Qed.

Lemma ndr_strings_safe_witness :
  let d := mk_dcerpc KSMBD_DCERPC_FIXED_PAYLOAD_SZ 2 (replicate 3 255) 0 in
  wp (ndr_write_vstring (A:=plenty) ascii_convert (λ s, Z.of_nat (length s)) (Some (str "IPC$"))) d
     (λ _ d', dce_ok d' ∧ appends d d') (λ _ d', dce_ok d' ∧ appends d d').
Proof.
  apply (ndr_strings_safe (A:=plenty) ascii_convert (λ s, Z.of_nat (length s))).
  - exact ascii_convert_small.
  - split; [cbn; lia|split; [vm_compute; congruence|reflexivity]].
  - repeat constructor; vm_compute; congruence.
Defined.

(** A wide string whose conversion has two octets per
    counted character is read back as written (with its terminating NUL),
    the reader stopping where the writer stopped. *)
Theorem ndr_vstring_roundtrip {A : Allocator} g_convert g_utf8_strlen raw out d d1 :
  dce_ok d → has_flag KSMBD_DCERPC_ASCII_STRING d = false →
  0 ≤ g_utf8_strlen raw < 2 ^ 32 - 1 →
  ndr_convert_char_to_unicode g_convert d (raw ++ [0]) = Some out →
  Z.of_nat (length out) = 2 * (g_utf8_strlen raw + 1) →
  ksmbd_gconvert g_convert out KSMBD_CHARSET_UTF8 (wire_charset d) = Some (raw ++ [0]) →
  ndr_write_vstring g_convert g_utf8_strlen (Some raw) d = Done tt d1 →
  ndr_read_vstring g_convert (set_offset (dce_offset d) d1) = Done (raw ++ [0]) d1.
Proof.
  intros Hd Hasc Hn Hout Hlen Hback Hw.
  unfold ndr_write_vstring, from_option, id in Hw. unfold bind at 1, get in Hw.
  cbv beta iota zeta in Hw. rewrite Hout in Hw.
  set (n := g_utf8_strlen raw + 1) in *.
  assert (int_valid 4 n) as Hvn by (unfold int_valid, n; cbn; lia).
  pose proof (write_counted_spec n n out d Hd Hvn Hvn ltac:(lia)) as Hc.
  unfold bind at 1 in Hw. unfold wp in Hc.
  destruct write_counted as [[] d0|e d0|]; [|done..].
  destruct Hc as (Hd0 & Hf0 & o1 & o2 & o3 & Hr1 & Hr2 & Hr3 & Ho & Hfit & Hmem).
  unfold auto_align_offset, modify in Hw. simplify_eq.
  set (d1 := if has_flag _ _ then _ else _) in *.
  assert (dce_flags d1 = dce_flags d0 ∧ dce_payload d1 = dce_payload d0) as [Hf1 Hp1].
  { unfold d1. by repeat case_match. }
  unfold ndr_read_vstring.
  unfold bind at 1. rewrite (reads_run _ _ _ _ _ _ Hr1) by done.
  unfold bind at 1. rewrite (reads_run _ _ _ _ _ _ Hr2) by done.
  unfold bind at 1. rewrite (reads_run _ _ _ _ _ _ Hr3) by done.
  rewrite Z.ltb_irrefl, (proj2 (Z.eqb_neq n 0)) by (unfold n; lia).
  unfold bind at 1, get. set (d3 := set_offset o3 _).
  assert (dce_ok d3 ∧ payload_sz d3 = payload_sz d0) as [Hd3 Hp3].
  { destruct Hd0 as (?&?&?). destruct Hr3 as (?&?&_). unfold payload_sz. cbn. rewrite Hp1.
    split; [|done]. unfold dce_ok, payload_sz, has_flag in *. cbn. rewrite Hf1, Hp1. split; [lia|done]. }
  change (dce_offset d3) with o3. rewrite Hp3, (proj2 (Z.ltb_ge (payload_sz d0) o3)) by lia.
  assert (has_flag KSMBD_DCERPC_ASCII_STRING d3 = false ∧ wire_charset d3 = wire_charset d) as [Ha3 Hw3].
  { unfold wire_charset, has_flag in *. cbn. by rewrite Hf1, Hf0. }
  rewrite Ha3, Hw3. rewrite (proj2 (Z.ltb_ge _ n)).
  2:{ apply Z.div_le_lower_bound; lia. }
  unfold bind at 1, ret at 1. unfold bind at 1.
  rewrite fetch_spec; [|done|lia|rewrite Hp3; cbn; lia].
  replace (mem_read _ _ _) with out.
  2:{ cbn. rewrite Hp1, <-Hmem at 1. f_equal. lia. }
  rewrite Hback. unfold bind, auto_align_offset, modify, ret. f_equal.
  replace (set_offset (dce_offset d3 + n * 2) d3) with (set_offset (dce_offset d0) d1).
  2:{ rewrite Ho. unfold d3. unfold set_offset; cbn. f_equal. lia. }
  unfold has_flag in *. cbn [dce_flags dce_offset set_offset]. rewrite Hf1. unfold d1.
  destruct d0; cbn. by repeat case_match.
Qed.

Lemma ndr_vstring_roundtrip_witness :
  let d := mk_dcerpc (set_flag KSMBD_DCERPC_FIXED_PAYLOAD_SZ KSMBD_DCERPC_LITTLE_ENDIAN)
             0 (replicate 20 7) 0 in
  ∃ d1, ndr_write_vstring (A:=plenty) ascii_convert (λ s, Z.of_nat (length s)) (Some (str "srv")) d
          = Done tt d1 ∧
        ndr_read_vstring ascii_convert (set_offset 0 d1) = Done (str "srv" ++ [0]) d1.
Proof.
  eexists. split; [vm_compute; reflexivity|].
  eapply (ndr_vstring_roundtrip (A:=plenty) ascii_convert (λ s, Z.of_nat (length s)) (str "srv") _
    (mk_dcerpc (set_flag KSMBD_DCERPC_FIXED_PAYLOAD_SZ KSMBD_DCERPC_LITTLE_ENDIAN)
             0 (replicate 20 7) 0)).
  - split; [cbn; lia|split; [vm_compute; congruence|reflexivity]].
  - reflexivity.
  - vm_compute; split; congruence.
  - vm_compute; reflexivity.
  - reflexivity.
  - vm_compute; reflexivity.
  - vm_compute; reflexivity.
Defined.

(** ** Cursors below a bound

    A reply is written into a buffer whose size fits an [int]; the cursor then
    stays below the bound too, which the callers need to convert it. *)
Definition appends_in (B : Z) (d d' : dcerpc) : Prop :=
  appends d d' ∧ (payload_sz d ≤ B → dce_offset d ≤ B → dce_offset d' ≤ B).
#[export] Instance appends_in_refl B : Reflexive (appends_in B).
Proof. by split. Qed.
#[export] Instance appends_in_trans B : Transitive (appends_in B).
Proof.
  intros d1 d2 d3 [A1 B1] [A2 B2]. split; [by trans d2|]. intros Hp Ho. apply B2; [|by apply B1].
  unfold payload_sz in *. by rewrite (app_length _ _ A1).
Qed.

Section Bounded.
Context {A : Allocator} (B : Z).
Hypothesis B_aligned : B mod 8 = 0.
Hypothesis B_small : B ≤ 2 ^ 62.

Lemma ALIGN_bound n x : int_width n → 0 ≤ x ≤ B → ALIGN x (Z.of_nat n) ≤ B.
Proof.
  intros (k & Hk & ->)%int_width_pow Hx. assert (2 ^ k ≤ 2 ^ 3) by (apply Z.pow_le_mono_r; lia).
  apply ALIGN_le; [lia..| |lia]. apply Z.mod_divide in B_aligned as [q ->]; [|done].
  replace 8 with (2 ^ (3 - k) * 2 ^ k) by (rewrite <-Z.pow_add_r by lia; by replace (3 - k + k) with 3 by lia).
  rewrite Z.mul_assoc. apply Z.mod_mul. lia.
Qed.
Lemma set_offset_in n d :
  int_width n → dce_ok d → appends_in B d (set_offset (ALIGN (dce_offset d) (Z.of_nat n)) d).
Proof.
  intros Hn (Ho & _). destruct (ALIGN_ok n (dce_offset d)) as [? _]; [done|done|].
  split; [apply appends_set_offset; lia|]. intros _ Hb. apply ALIGN_bound; [done|lia].
Qed.
Lemma ndr_write_int_in n v : int_width n → safe (appends_in B) (ndr_write_int n v).
Proof.
  intros Hn d Hd. pose proof (ndr_write_int_safe n v Hn d Hd) as Hs. unfold wp in *.
  pose proof (ndr_write_int_exact n v d Hn Hd) as He. cbv zeta in He. rewrite He in *.
  destruct (Z.leb_spec (ALIGN (dce_offset d) (Z.of_nat n) + Z.of_nat n) (payload_sz d));
    destruct Hs; (split; [done|]); (split; [done|]); intros Hp Ho.
  - cbn [copied set_offset dce_offset]. autorewrite with ksmbd. lia.
  - destruct Hd as (? & _). cbn [set_offset dce_offset]. apply ALIGN_bound; [done|lia].
Qed.
Lemma ndr_write_bytes_in l : Z.of_nat (length l) ≤ 2 ^ 62 → safe (appends_in B) (ndr_write_bytes l).
Proof.
  intros Hl d Hd. pose proof (ndr_write_bytes_safe l Hl d Hd) as Hs. unfold wp in *.
  pose proof (ndr_write_bytes_exact l d Hd Hl) as He. cbv zeta in He. rewrite He in *.
  destruct (Z.leb_spec (ALIGN (dce_offset d) 2 + Z.of_nat (length l)) (payload_sz d));
    destruct Hs; (split; [done|]); (split; [done|]); intros Hp Ho.
  - cbn [copied set_offset dce_offset]. lia.
  - destruct Hd as (? & _). cbn [set_offset dce_offset]. apply (ALIGN_bound 2); [apply _|lia].
Qed.
Lemma align_offset_in n : int_width n → safe (appends_in B) (align_offset (Z.of_nat n)).
Proof.
  intros Hn d Hd. destruct (ALIGN_ok n (dce_offset d)) as [Hal _]; [done|apply Hd|].
  unfold align_offset. wp_step. split; [apply dce_ok_set_offset; [done|destruct Hd; lia]|].
  by apply set_offset_in.
Qed.
Lemma auto_align_in : safe (appends_in B) auto_align_offset.
Proof.
  intros d Hd. unfold auto_align_offset. wp_step. destruct has_flag; [by apply (align_offset_in 8 _ d)|].
  destruct has_flag; [by apply (align_offset_in 4 _ d)|done].
Qed.
End Bounded.

(** The largest aligned cursor that an [int] holds. *)
Definition reply_limit : Z := 2 ^ 31 - 8.
#[export] Hint Extern 1 (safe (appends_in _) (ndr_write_int8 _)) =>
  apply ndr_write_int_in; [reflexivity|done|apply _] : ksmbd.
#[export] Hint Extern 1 (safe (appends_in _) (ndr_write_int16 _)) =>
  apply ndr_write_int_in; [reflexivity|done|apply _] : ksmbd.
#[export] Hint Extern 1 (safe (appends_in _) (ndr_write_int32 _)) =>
  apply ndr_write_int_in; [reflexivity|done|apply _] : ksmbd.
#[export] Hint Extern 1 (safe (appends_in _) (ndr_write_int64 _)) =>
  apply ndr_write_int_in; [reflexivity|done|apply _] : ksmbd.
#[export] Hint Extern 1 (safe (appends_in _) (ndr_write_bytes _)) =>
  apply ndr_write_bytes_in; [reflexivity|done|] : ksmbd.
#[export] Hint Extern 1 (safe (appends_in _) (align_offset 2)) =>
  apply (align_offset_in reply_limit eq_refl ltac:(done) 2 ltac:(apply _)) : ksmbd.
#[export] Hint Extern 1 (safe (appends_in _) (align_offset 4)) =>
  apply (align_offset_in reply_limit eq_refl ltac:(done) 4 ltac:(apply _)) : ksmbd.
#[export] Hint Extern 1 (safe (appends_in _) auto_align_offset) =>
  apply auto_align_in; [reflexivity|done] : ksmbd.

Section BoundedStrings.
Context {A : Allocator}.
Variable g_convert : Z → Z → bytes → option bytes.
Variable g_utf8_strlen : bytes → Z.
Hypothesis g_convert_small : ∀ t f s out, g_convert t f s = Some out → Z.of_nat (length out) ≤ 2 ^ 62.
Lemma ndr_write_vstring_in v : safe (appends_in reply_limit) (ndr_write_vstring g_convert g_utf8_strlen v).
Proof.
  pose proof (gconvert_small g_convert g_convert_small).
  unfold ndr_write_vstring, ndr_convert_char_to_unicode, write_counted. safes.
Qed.
Lemma ndr_write_string_in v : safe (appends_in reply_limit) (ndr_write_string g_convert v).
Proof.
  pose proof (gconvert_small g_convert g_convert_small).
  unfold ndr_write_string, ndr_convert_char_to_unicode, write_then_align. safes.
Qed.
Lemma ndr_write_lsa_string_in v : safe (appends_in reply_limit) (ndr_write_lsa_string g_convert v).
Proof.
  pose proof (gconvert_small g_convert g_convert_small).
  unfold ndr_write_lsa_string, ndr_convert_char_to_unicode, write_then_align. safes.
Qed.
Lemma ndr_write_union_int16_in v : safe (appends_in reply_limit) (ndr_write_union_int16 v).
Proof. unfold ndr_write_union_int16. safes. Qed.
Lemma ndr_write_union_int32_in v : safe (appends_in reply_limit) (ndr_write_union_int32 v).
Proof. unfold ndr_write_union_int32. safes. Qed.
End BoundedStrings.
#[export] Hint Resolve ndr_write_union_int16_in ndr_write_union_int32_in : ksmbd.

(** The octets read are at most as many as asked for. *)
Lemma ndr_read_bytes_length sz d :
  dce_ok d → 0 ≤ sz ≤ 2 ^ 62 →
  wp (ndr_read_bytes sz) d (λ l d', (dce_ok d' ∧ moved d d') ∧ Z.of_nat (length l) ≤ sz)
     (λ _ d', dce_ok d' ∧ moved d d').
Proof.
  intros Hd Hsz. pose proof (ndr_read_bytes_safe sz Hsz d Hd) as Hs. unfold wp in *.
  destruct (ndr_read_bytes sz d) as [l d'|e d'|] eqn:E; [|done..]. split; [done|].
  unfold ndr_read_bytes, bind, align_offset, modify, get, fetch, fail in E. repeat case_match; simplify_eq.
  unfold mem_read. rewrite length_take. lia.
Qed.
