(* ===== verification/Smbacl.v ===== *)
(** * Security identifiers and descriptors ([src/mountd/smbacl.c])

    [struct smb_sid] with its marshalling, comparison and printing, and the
    security descriptor that the SAMR pipe returns.  The marshalling runs over
    the NDR handle of [Ndr]; [gen_subauth] is [global_conf.gen_subauth].  The
    file ends with the properties of each operation. *)

From S2P Require Import Prelude Ndr.

Definition NUM_AUTHS : nat := 6.
Definition SID_MAX_SUB_AUTHORITIES : Z := 15.
Definition SMB_ACCESS_ALLOWED : Z := 0.
Definition SMB_DACL_PRESENT : Z := 0x0004.
Definition SMB_SELF_RELATIVE : Z := 0x8000.
Definition SMB_SID_TYPE_USER : Z := 1.
Definition SMB_SID_TYPE_GROUP : Z := 2.
Definition SMB_SID_TYPE_UNKNOWN : Z := 8.
Definition DOMAIN_STR_SIZE : Z := 257.
(** [sizeof(struct smb_ntsd)] and [sizeof(struct smb_acl)], both packed *)
Definition sizeof_smb_ntsd : Z := 20.
Definition sizeof_smb_acl : Z := 8.

Record smb_sid := mk_sid {
  sid_revision : Z;
  sid_num_subauth : Z;
  sid_authority : list Z;
  sid_sub_auth : list Z;
}.
#[export] Instance smb_sid_eq_dec : EqDecision smb_sid.
Proof. solve_decision. Defined.

(** The C type: array lengths and ranges of the fields. *)
Definition sid_typed (s : smb_sid) : Prop :=
  is_byte (sid_revision s) ∧ is_byte (sid_num_subauth s) ∧
  is_bytes (sid_authority s) ∧ length (sid_authority s) = NUM_AUTHS ∧
  Forall (λ x, 0 ≤ x < 2 ^ 32) (sid_sub_auth s) ∧
  length (sid_sub_auth s) = Z.to_nat SID_MAX_SUB_AUTHORITIES.
(** A SID as the wire format allows it. *)
Definition sid_ok (s : smb_sid) : Prop :=
  sid_typed s ∧ 0 < sid_num_subauth s ≤ SID_MAX_SUB_AUTHORITIES.

Definition sid_domain : smb_sid :=
  mk_sid 1 1 [0; 0; 0; 0; 0; 5] (21 :: replicate 14 0).
Definition sid_everyone : smb_sid :=
  mk_sid 1 1 [0; 0; 0; 0; 0; 1] (replicate 15 0).
Definition sid_unix_users : smb_sid :=
  mk_sid 1 1 [0; 0; 0; 0; 0; 22] (1 :: replicate 14 0).
Definition sid_unix_groups : smb_sid :=
  mk_sid 1 1 [0; 0; 0; 0; 0; 22] (2 :: replicate 14 0).
Definition sid_local_group : smb_sid :=
  mk_sid 1 1 [0; 0; 0; 0; 0; 5] (32 :: replicate 14 0).

(** The sub-authorities that count. *)
Definition sub_auths (s : smb_sid) : list Z :=
  take (Z.to_nat (sid_num_subauth s)) (sid_sub_auth s).

Section Sid.
Context {A : Allocator}.

(** [sid] is the caller's structure: slots that are not read keep their
    value.  On failure the callers drop the structure. *)
Definition smb_read_sid (sid : smb_sid) : prog dcerpc smb_sid :=
  revision <- ndr_read_int8 else_return (- EINVAL) ;;
  num_subauth <- ndr_read_int8 else_return (- EINVAL) ;;
  if (num_subauth =? 0) || (SID_MAX_SUB_AUTHORITIES <? num_subauth)
  then fail (- EINVAL)
  else
    authority <- read_list (ndr_read_int8 else_return (- EINVAL)) NUM_AUTHS ;;
    sub_auth <- read_list (ndr_read_int32 else_return (- EINVAL)) (Z.to_nat num_subauth) ;;
    ret (mk_sid revision num_subauth authority
           (sub_auth ++ drop (length sub_auth) (sid_sub_auth sid))).

Definition smb_write_sid (src : smb_sid) : prog dcerpc unit :=
  if SID_MAX_SUB_AUTHORITIES <? sid_num_subauth src then fail (- EINVAL)
  else
    ndr_write_int8 (sid_revision src) else_return (- ENOMEM) ;;
    ndr_write_int8 (sid_num_subauth src) else_return (- ENOMEM) ;;
    write_list (λ a, ndr_write_int8 a else_return (- ENOMEM)) (sid_authority src) ;;
    write_list (λ a, ndr_write_int32 a else_return (- ENOMEM)) (sub_auths src).

Definition smb_copy_sid (dst src : smb_sid) : smb_sid :=
  if SID_MAX_SUB_AUTHORITIES <? sid_num_subauth src then dst
  else mk_sid (sid_revision src) (sid_num_subauth src) (sid_authority src)
         (sub_auths src ++ drop (length (sub_auths src)) (sid_sub_auth dst)).

(** [gen_subauth] has three elements. *)
Definition smb_init_domain_sid (gen_subauth : list Z) : smb_sid :=
  mk_sid 1 4 [0; 0; 0; 0; 0; 5] (21 :: gen_subauth ++ replicate 11 0).

(** The loops of [smb_compare_sids]: the first differing element decides. *)
Fixpoint compare_vals (l k : list Z) : Z :=
  match l, k with
  | x :: l, y :: k => if x =? y then compare_vals l k else if y <? x then 1 else -1
  | _, _ => 0
  end.

(** [None] is a NULL pointer. *)
Definition smb_compare_sids (ctsid cwsid : option smb_sid) : Z :=
  match ctsid, cwsid with
  | Some t, Some w =>
      if negb (sid_revision t =? sid_revision w)
      then if sid_revision w <? sid_revision t then 1 else -1
      else
        let c := compare_vals (sid_authority t) (sid_authority w) in
        if negb (c =? 0) then c
        else
          let n := Z.to_nat (Z.min (sid_num_subauth t) (sid_num_subauth w)) in
          compare_vals (take n (sid_sub_auth t)) (take n (sid_sub_auth w))
  | _, _ => 1
  end.


(** [domain_len] is the size of the buffer; [Err] is a negative return, and
    the length the C function returns is that of the text. *)
Fixpoint sid_to_string_loop (domain_len : Z) (subs : list Z) (text : bytes) : bytes + Z :=
  match subs with
  | [] => inl text
  | x :: subs =>
      let text := text ++ str "-" ++ print_uint x in
      if domain_len <=? Z.of_nat (length text) then inr (- ENOMEM)
      else sid_to_string_loop domain_len subs text
  end.
Definition smb_sid_to_string (domain_len : Z) (sid : smb_sid) : bytes + Z :=
  let text := str "S-" ++ print_uint (sid_revision sid) ++ str "-" ++
              print_uint (nth 5 (sid_authority sid) 0) in
  if domain_len <=? Z.of_nat (length text) then inr (- ENOMEM)
  else sid_to_string_loop domain_len (sub_auths sid) text.

(** [snprintf(domain, domain_len, "%s", s)] with the check behind it *)
Definition print_domain (domain_len : Z) (s : bytes) : option bytes :=
  if domain_len <=? Z.of_nat (length s) then None else Some s.

(** GLib's [g_ascii_strup] on octets *)
Definition g_ascii_toupper (c : Z) : Z := if (97 <=? c) && (c <=? 122) then c - 32 else c.
Definition g_ascii_strup (s : bytes) : bytes := g_ascii_toupper <$> s.

(** Returned value and, where the caller may use them, the domain and the
    type.  [gethostname] is the answer of the system, [None] on failure. *)
Definition set_domain_name (gen_subauth : list Z) (gethostname : option bytes)
    (sid : smb_sid) (domain_len : Z) : Z * option (bytes * Z) :=
  if (smb_compare_sids (Some sid) (Some sid_domain) =? 0) &&
     bool_decide (take 3 (drop 1 (sid_sub_auth sid)) = gen_subauth)
  then
    match gethostname with
    | None => (- ENOMEM, None)
    | Some domain_string =>
        match print_domain domain_len (g_ascii_strup domain_string) with
        | None => (- ENOMEM, None)
        | Some domain => (Z.of_nat (length domain), Some (domain, SMB_SID_TYPE_USER))
        end
    end
  else if smb_compare_sids (Some sid) (Some sid_unix_users) =? 0 then
    match print_domain domain_len (str "Unix User") with
    | None => (- ENOMEM, None)
    | Some domain => (Z.of_nat (length domain), Some (domain, SMB_SID_TYPE_USER))
    end
  else if smb_compare_sids (Some sid) (Some sid_unix_groups) =? 0 then
    match print_domain domain_len (str "Unix Group") with
    | None => (- ENOMEM, None)
    | Some domain => (Z.of_nat (length domain), Some (domain, SMB_SID_TYPE_GROUP))
    end
  else
    match smb_sid_to_string DOMAIN_STR_SIZE sid with
    | inr e => (e, None)
    | inl domain_string =>
        if domain_len <? Z.of_nat (length domain_string) then (- ENOMEM, None)
        else match print_domain domain_len (g_ascii_strup domain_string) with
             | None => (- ENOMEM, None)
             | Some domain => (- ENOENT, Some (domain, SMB_SID_TYPE_UNKNOWN))
             end
    end.

(** ** Security descriptor *)

(** Returns the size of the entry. *)
Definition smb_set_ace (access_req rid : Z) (rsid : smb_sid) : prog dcerpc Z :=
  ndr_write_int8 SMB_ACCESS_ALLOWED else_return (- ENOMEM) ;;
  ndr_write_int8 0 else_return (- ENOMEM) ;;
  let size := 1 + 1 + 2 + 4 + 1 + 1 + 6 + sid_num_subauth rsid * 4
              + (if rid =? 0 then 0 else 4) in
  ndr_write_int16 size else_return (- ENOMEM) ;;
  ndr_write_int32 access_req else_return (- ENOMEM) ;;
  let* sid :=
    (if rid =? 0 then ret rsid
     else if SID_MAX_SUB_AUTHORITIES <=? sid_num_subauth rsid then fail (- EINVAL)
     else ret (mk_sid (sid_revision rsid) (sid_num_subauth rsid + 1) (sid_authority rsid)
                 (<[Z.to_nat (sid_num_subauth rsid) := u32 rid]> (sid_sub_auth rsid)))) in
  smb_write_sid sid else_return (- ENOMEM) ;;
  ret size.

(** [owner_domain]: [sid_domain] extended by the three generated values *)
Definition owner_domain (gen_subauth : list Z) : smb_sid :=
  mk_sid (sid_revision sid_domain) 4 (sid_authority sid_domain)
    (21 :: gen_subauth ++ drop 4 (sid_sub_auth sid_domain)).

Definition set_dacl (gen_subauth : list Z) (rid : Z) : prog dcerpc Z :=
  s1 <- smb_set_ace 0x0002035b 0 sid_everyone ;;
  s2 <- smb_set_ace 0x000f07ff 544 sid_local_group ;;
  s3 <- smb_set_ace 0x000f07ff 548 sid_local_group ;;
  s4 <- smb_set_ace 0x00020044 rid (owner_domain gen_subauth) ;;
  ret (s1 + s2 + s3 + s4).

Definition KSMBD_NUM_DEFAULT_ACES : Z := 4.

(** Returns [*secdesclen].  The saved offsets are C [int]s; the sum with
    [sizeof(struct smb_acl)] is done in [size_t] and stored in an [int]. *)
Definition build_sec_desc (gen_subauth : list Z) (rid : Z) : prog dcerpc Z :=
  ndr_write_int16 1 else_return (- ENOMEM) ;;
  ndr_write_int16 (Z.lor SMB_SELF_RELATIVE SMB_DACL_PRESENT) else_return (- ENOMEM) ;;
  ndr_write_int32 0 else_return (- ENOMEM) ;;
  ndr_write_int32 0 else_return (- ENOMEM) ;;
  ndr_write_int32 0 else_return (- ENOMEM) ;;
  ndr_write_int32 sizeof_smb_ntsd else_return (- ENOMEM) ;;
  ndr_write_int16 2 else_return (- ENOMEM) ;;
  acl_size_offset <- gets (λ d, s32 (dce_offset d)) ;;
  modify (λ d, set_offset (u64 (dce_offset d + 2)) d) ;;
  ndr_write_int32 KSMBD_NUM_DEFAULT_ACES else_return (- ENOMEM) ;;
  dacl <- attempt (set_dacl gen_subauth rid) ;;
  let acl_size := s32 (u64 ((match dacl with inl s => s | inr e => e end) + sizeof_smb_acl)) in
  if acl_size <? 0 then fail (- ENOMEM)
  else
    l_offset <- gets (λ d, s32 (dce_offset d)) ;;
    modify (set_offset (u64 acl_size_offset)) ;;
    ndr_write_int16 acl_size else_return (- ENOMEM) ;;
    modify (set_offset (u64 l_offset)) ;;
    ret (u32 (sizeof_smb_ntsd + acl_size)).
End Sid.

(** ** SIDs on the wire *)
Section SidLemmas.
Context {A : Allocator}.

Lemma sub_auths_length s :
  sid_ok s → length (sub_auths s) = Z.to_nat (sid_num_subauth s).
Proof.
  intros [(_ & _ & _ & _ & _ & Hl) Hn]. unfold sub_auths. rewrite length_take, Hl. lia.
Qed.

(** A client of the codec interface: the fields one after the other. *)
Lemma smb_sid_codec dst src d :
  dce_ok d → sid_ok src →
  wp (smb_write_sid src) d
    (λ _ d', dce_ok d' ∧ appends d d' ∧
       reads (smb_read_sid dst) (smb_copy_sid dst src) d' (dce_offset d) (dce_offset d'))
    (λ _ d', dce_ok d' ∧ appends d d').
Proof.
  intros Hd Hs. pose proof (sub_auths_length src Hs) as Hlen.
  destruct Hs as [(Hrev & Hnum & Hau & Hal & Hsub & Hsl) Hn].
  unfold smb_write_sid, smb_copy_sid. rewrite (proj2 (Z.ltb_ge _ _)) by lia.
  set (r8 := ndr_read_int8 else_return - EINVAL). set (r32 := ndr_read_int32 else_return - EINVAL).
  assert (Codec (λ a, ndr_write_int8 a else_return - ENOMEM) r8 (int_valid 1)) as C8.
  { apply or_return_codec, int_codec, _. }
  assert (Codec (λ a, ndr_write_int32 a else_return - ENOMEM) r32 (int_valid 4)) as C32.
  { apply or_return_codec, int_codec, _. }
  wp_step. apply (wp_codec (λ a, ndr_write_int8 a else_return - ENOMEM) r8 (int_valid 1)); [done|exact Hrev| |done]. intros d1 Hd1 Ha1 Hr1.
  wp_step. apply (wp_codec (λ a, ndr_write_int8 a else_return - ENOMEM) r8 (int_valid 1)); [done|exact Hnum| |].
  2:{ intros e d2 ??. split; [done|by trans d1]. }
  intros d2 Hd2 Ha2 Hr2. assert (appends d d2) as Ha2' by by trans d1.
  wp_step. wp_by (apply (list_codec _ r8 (int_valid 1)); [done|exact Hau|by destruct Hr2 as (_&?&_)]).
  2:{ intros e d3 [??]. split; [done|by trans d2]. }
  intros _ d3 (Hd3 & Ha3 & Hr3). assert (appends d d3) as Ha3' by by trans d2.
  wp_by (apply (list_codec _ r32 (int_valid 4));
    [done|by apply Forall_take|by destruct Hr3 as (_&?&_)]).
  2:{ intros e d4 [??]. split; [done|by trans d3]. }
  intros _ d4 (Hd4 & Ha4 & Hr4). split; [done|]. split; [by trans d3|].
  unfold smb_read_sid. fold r8 r32.
  eapply reads_bind; [eapply reads_appends; [exact Hr1| |done]; trans d2; [done|by trans d3]|].
  eapply reads_bind; [eapply reads_appends; [exact Hr2| |done]; by trans d3|].
  rewrite (proj2 (Z.eqb_neq _ _)), (proj2 (Z.ltb_ge _ _)) by lia. cbn [orb].
  rewrite Hal in Hr3. rewrite Hlen in Hr4.
  eapply reads_bind; [by eapply reads_appends|]. eapply reads_bind; [exact Hr4|].
  apply reads_ret. destruct Hr4 as (? & ? & _). destruct Hd3. lia.
Qed.

(** C26 (roundtrip): what [smb_write_sid] wrote, [smb_read_sid] reads back:
    the structure it fills is the one [smb_copy_sid] would have filled, and
    the cursor ends where the writer left it.  The write never faults. *)
Theorem smb_sid_roundtrip dst src d :
  dce_ok d → sid_ok src →
  match smb_write_sid src d with
  | Done _ d' => smb_read_sid dst (set_offset (dce_offset d) d') = Done (smb_copy_sid dst src) d'
                 ∧ sub_auths (smb_copy_sid dst src) = sub_auths src
  | Err e d' => appends d d'
  | Fault => False
  end.
Proof.
  intros Hd Hs. pose proof (smb_sid_codec dst src d Hd Hs) as Hc. unfold wp in Hc.
  destruct (smb_write_sid src d) as [u d'|e d'|]; [|by destruct Hc|done].
  destruct Hc as (_ & _ & Hr). split.
  - rewrite (reads_run _ _ _ _ _ _ Hr) by done. f_equal. by destruct d'.
  - pose proof (sub_auths_length src Hs) as Hl. destruct Hs as [_ Hn].
    unfold smb_copy_sid. rewrite (proj2 (Z.ltb_ge _ _)) by lia.
    unfold sub_auths at 1. cbn [sid_num_subauth sid_sub_auth]. rewrite <-Hl.
    apply take_app_length.
Qed.

(** Every content of the payload is parsed without a fault, into a SID whose
    sub-authority count is in range. *)
Lemma read_list_safe {T} (m : prog dcerpc T) n : safe moved m → safe moved (read_list m n).
Proof. intros Hm. induction n; cbn [read_list]; safes. Qed.
Lemma smb_read_sid_safe sid : safe moved (smb_read_sid sid).
Proof.
  unfold smb_read_sid. repeat (safe_step || (apply read_list_safe; safe_step)).
Qed.
Lemma smb_write_sid_safe src : safe appends (smb_write_sid src).
Proof.
  assert (∀ w (l : list Z), (∀ a, safe appends (w a)) → safe appends (write_list w l)) as Hl.
  { intros w l Hw. induction l; cbn [write_list]; safes. }
  unfold smb_write_sid. repeat (safe_step || (apply Hl; intros ?; safe_step)).
Qed.

(** ** Comparison *)
Lemma compare_vals_0 l k : length l = length k → compare_vals l k = 0 ↔ l = k.
Proof.
  revert k. induction l as [|x l IH]; intros [|y k] Hlen; try done. cbn in *.
  destruct (Z.eqb_spec x y) as [->|Hne].
  - rewrite IH by lia. split; congruence.
  - destruct (y <? x); split; congruence || lia.
Qed.
Lemma compare_vals_anti l k : compare_vals k l = - compare_vals l k.
Proof.
  revert k. induction l as [|x l IH]; intros [|y k]; try done. cbn.
  rewrite (Z.eqb_sym y x). destruct (Z.eqb_spec x y) as [->|]; [done|].
  destruct (Z.ltb_spec x y), (Z.ltb_spec y x); lia.
Qed.

Lemma prefix_takes (l k : list Z) n m :
  (n ≤ m)%nat → (m ≤ length k)%nat → (n ≤ length l)%nat →
  take n l = take n k ↔ take n l `prefix_of` take m k ∨ take m k `prefix_of` take n l.
Proof.
  intros Hnm Hm Hn. assert (take n k = take n (take m k)) as -> by (rewrite take_take; f_equal; lia).
  split.
  - intros ->. left. exists (drop n (take m k)). by rewrite take_drop.
  - intros [[j Hj] | [j Hj]]; apply (f_equal (take n)) in Hj;
      rewrite take_app_le, take_idemp in Hj by (rewrite length_take; lia); congruence.
Qed.

(** [smb_compare_sids] is an antisymmetric comparison that
    answers 0 exactly when revisions and authorities agree and the shorter
    list of sub-authorities is a prefix of the longer. *)
Theorem smb_compare_sids_spec t w :
  sid_ok t → sid_ok w →
  (smb_compare_sids (Some t) (Some w) = 0 ↔
     sid_revision t = sid_revision w ∧ sid_authority t = sid_authority w ∧
     (sub_auths t `prefix_of` sub_auths w ∨ sub_auths w `prefix_of` sub_auths t)) ∧
  smb_compare_sids (Some w) (Some t) = - smb_compare_sids (Some t) (Some w).
Proof.
  intros [(_ & _ & _ & Ht1 & _ & Ht2) Htn] [(_ & _ & _ & Hw1 & _ & Hw2) Hwn].
  unfold smb_compare_sids. split.
  - destruct (Z.eqb_spec (sid_revision t) (sid_revision w)) as [Er|Hr]; cbn [negb].
    2:{ split; [destruct (_ <? _); lia|tauto]. }
    destruct (Z.eqb_spec (compare_vals (sid_authority t) (sid_authority w)) 0) as [Ea|Ha]; cbn [negb].
    + rewrite compare_vals_0 in Ea by congruence.
      rewrite compare_vals_0 by (rewrite !length_take; lia).
      unfold sub_auths. destruct (Z.min_spec (sid_num_subauth t) (sid_num_subauth w)) as [[? ->]|[? ->]].
      * rewrite (prefix_takes _ _ (Z.to_nat (sid_num_subauth t)) (Z.to_nat (sid_num_subauth w))) by lia. tauto.
      * rewrite (eq_comm (take _ _)).
        rewrite (prefix_takes _ _ (Z.to_nat (sid_num_subauth w)) (Z.to_nat (sid_num_subauth t))) by lia. tauto.
    + rewrite compare_vals_0 in Ha |- * by congruence. tauto.
  - rewrite (Z.eqb_sym (sid_revision w)), (Z.min_comm (sid_num_subauth w)).
    rewrite (compare_vals_anti (sid_authority t)).
    destruct (Z.eqb_spec (sid_revision t) (sid_revision w)) as [Er|Hr]; cbn [negb].
    + destruct (Z.eqb_spec (compare_vals (sid_authority t) (sid_authority w)) 0) as [->|Ha]; cbn [negb].
      * apply compare_vals_anti.
      * by rewrite (proj2 (Z.eqb_neq _ _)) by lia.
    + destruct (Z.ltb_spec (sid_revision t) (sid_revision w)), (Z.ltb_spec (sid_revision w) (sid_revision t)); lia.
Qed.
End SidLemmas.

(** ** Names *)

Lemma sid_to_string_loop_fits len subs text :
  Z.of_nat (length text) + 11 * Z.of_nat (length subs) < len →
  ∃ t, sid_to_string_loop len subs text = inl t ∧
       t = text ++ concat (map (λ x, str "-" ++ print_uint x) subs).
Proof.
  revert text. induction subs as [|x subs IH]; intros text Hlen; cbn [sid_to_string_loop].
  { eexists. split; [done|]. cbn. by rewrite app_nil_r. }
  pose proof (print_uint_length x). cbn [length] in Hlen.
  rewrite (proj2 (Z.leb_gt _ _)).
  2:{ rewrite !length_app. change (length (str "-")) with 1%nat. lia. }
  destruct (IH (text ++ str "-" ++ print_uint x)) as (t & -> & ->).
  { rewrite !length_app. change (length (str "-")) with 1%nat. lia. }
  eexists. split; [done|]. cbn [map concat]. by rewrite <-!app_assoc.
Qed.

(** The text form of a SID. *)
Definition sid_text (sid : smb_sid) : bytes :=
  str "S-" ++ print_uint (sid_revision sid) ++ str "-" ++
  print_uint (nth 5 (sid_authority sid) 0) ++
  concat (map (λ x, str "-" ++ print_uint x) (sub_auths sid)).

Lemma smb_sid_to_string_spec sid :
  sid_ok sid → smb_sid_to_string DOMAIN_STR_SIZE sid = inl (sid_text sid) ∧
  Z.of_nat (length (sid_text sid)) < DOMAIN_STR_SIZE.
Proof.
  intros Hs. pose proof (sub_auths_length sid Hs) as Hl. destruct Hs as [_ Hn].
  unfold smb_sid_to_string, SID_MAX_SUB_AUTHORITIES, DOMAIN_STR_SIZE in *. set (text := str "S-" ++ _).
  assert (length text ≤ 23)%nat as Ht.
  { unfold text. rewrite !length_app. change (length (str "S-")) with 2%nat.
    change (length (str "-")) with 1%nat.
    pose proof (print_uint_length (sid_revision sid)).
    pose proof (print_uint_length (nth 5 (sid_authority sid) 0)). lia. }
  rewrite (proj2 (Z.leb_gt _ _)) by lia.
  destruct (sid_to_string_loop_fits 257 (sub_auths sid) text) as (t & -> & ->); [lia|].
  unfold sid_text. split; [f_equal; unfold text; by rewrite <-!app_assoc|].
  assert (∀ l, length (concat (map (λ x, str "-" ++ print_uint x) l)) ≤ 11 * length l)%nat as Hc.
  { induction l as [|x l IH]; cbn [map concat]; [done|].
    rewrite !length_app. change (length (str "-")) with 1%nat. cbn [length].
    pose proof (print_uint_length x). lia. }
  specialize (Hc (sub_auths sid)). unfold text in Ht. rewrite !length_app in Ht. rewrite !length_app. lia.
Qed.

(** Domain of a SID: the specification of [set_domain_name]. *)
Inductive domain_class := LocalDomain | UnixUser | UnixGroup | Foreign.
Definition classify (gen_subauth : list Z) (sid : smb_sid) : domain_class :=
  if decide (sid_revision sid = 1) then
    if decide (sid_authority sid = [0;0;0;0;0;5] ∧ take 4 (sid_sub_auth sid) = 21 :: gen_subauth)
    then LocalDomain
    else if decide (sid_authority sid = [0;0;0;0;0;22] ∧ take 1 (sid_sub_auth sid) = [1]) then UnixUser
    else if decide (sid_authority sid = [0;0;0;0;0;22] ∧ take 1 (sid_sub_auth sid) = [2]) then UnixGroup
    else Foreign
  else Foreign.

(** Comparison with a constant of one sub-authority. *)
Lemma compare_one sid a x :
  sid_ok sid → length a = NUM_AUTHS →
  smb_compare_sids (Some sid) (Some (mk_sid 1 1 a (x :: replicate 14 0))) = 0 ↔
  sid_revision sid = 1 ∧ sid_authority sid = a ∧ take 1 (sid_sub_auth sid) = [x].
Proof.
  intros [(_ & _ & _ & Hal & _ & Hl) Hn] Ha. unfold smb_compare_sids.
  cbn [sid_revision sid_authority sid_num_subauth sid_sub_auth].
  destruct (Z.eqb_spec (sid_revision sid) 1); cbn [negb].
  2:{ split; [destruct (_ <? _); lia|tauto]. }
  destruct (Z.eqb_spec (compare_vals (sid_authority sid) a) 0) as [E|E]; cbn [negb].
  - rewrite Z.min_r by lia. rewrite compare_vals_0 in E by congruence.
    rewrite compare_vals_0 by (rewrite !length_take, Hl; done). tauto.
  - rewrite compare_vals_0 in E |- * by congruence. tauto.
Qed.

(** For a well-formed SID and a 257-octet buffer (the size of
    every caller's) [set_domain_name] never runs out of room: it names the local
    domain after the host, the Unix users and groups by their fixed names,
    and any other SID by its text, which it reports with -ENOENT. *)
Theorem set_domain_name_spec gen_subauth host sid :
  sid_ok sid → length gen_subauth = 3%nat →
  Z.of_nat (length host) < DOMAIN_STR_SIZE →
  set_domain_name gen_subauth (Some host) sid DOMAIN_STR_SIZE =
  match classify gen_subauth sid with
  | LocalDomain => (Z.of_nat (length host), Some (g_ascii_strup host, SMB_SID_TYPE_USER))
  | UnixUser => (9, Some (str "Unix User", SMB_SID_TYPE_USER))
  | UnixGroup => (10, Some (str "Unix Group", SMB_SID_TYPE_GROUP))
  | Foreign => (- ENOENT, Some (g_ascii_strup (sid_text sid), SMB_SID_TYPE_UNKNOWN))
  end.
Proof.
  intros Hs Hg Hh. unfold set_domain_name, classify.
  assert (∀ s, length (g_ascii_strup s) = length s) as Hup.
  { intros s. apply length_fmap. }
  pose proof (compare_one sid [0;0;0;0;0;5] 21 Hs eq_refl) as Hdom.
  pose proof (compare_one sid [0;0;0;0;0;22] 1 Hs eq_refl) as Huu.
  pose proof (compare_one sid [0;0;0;0;0;22] 2 Hs eq_refl) as Hug.
  fold sid_domain in Hdom. fold sid_unix_users in Huu. fold sid_unix_groups in Hug.
  assert (take 4 (sid_sub_auth sid) = 21 :: gen_subauth ↔
    take 1 (sid_sub_auth sid) = [21] ∧ take 3 (drop 1 (sid_sub_auth sid)) = gen_subauth) as Hsplit.
  { destruct Hs as [(_ & _ & _ & _ & _ & Hl) _]. destruct (sid_sub_auth sid); [done|].
    cbn [take drop]. rewrite drop_0. split; [intros [= -> ->]; done|intros [[= ->] ->]; done]. }
  destruct (smb_sid_to_string_spec sid Hs) as [Hts Htl].
  unfold print_domain. rewrite !Hup.
  rewrite !(proj2 (Z.leb_gt _ (Z.of_nat (length host)))) by lia.
  rewrite Hts. cbv beta iota.
  rewrite !Hup, (proj2 (Z.ltb_ge _ _)), (proj2 (Z.leb_gt _ (Z.of_nat (length (sid_text sid))))) by lia.
  destruct (Z.eqb_spec (smb_compare_sids (Some sid) (Some sid_domain)) 0) as [E1|E1];
    rewrite Hdom in E1; [case_bool_decide as E4|]; cbn [andb];
    [case_decide as D1; [case_decide as D2; [done|]|]; exfalso; tauto|..];
  (destruct (Z.eqb_spec (smb_compare_sids (Some sid) (Some sid_unix_users)) 0) as [E2|E2];
    rewrite Huu in E2; [|destruct (Z.eqb_spec (smb_compare_sids (Some sid) (Some sid_unix_groups)) 0) as [E3|E3];
    rewrite Hug in E3]); clear Hdom Huu Hug Hup Hh Hg Hts Htl;
  repeat (case_decide; try (first [reflexivity|exfalso; tauto])).
Qed.

Lemma set_domain_name_spec_witness :
  set_domain_name [7; 8; 9] (Some (str "nas")) (smb_init_domain_sid [7; 8; 9]) DOMAIN_STR_SIZE
    = (3, Some (str "NAS", SMB_SID_TYPE_USER)).
Proof.
  rewrite (set_domain_name_spec [7; 8; 9] (str "nas") (smb_init_domain_sid [7; 8; 9])).
  - reflexivity.
  - split; [|cbv; split; congruence]. unfold sid_typed, is_byte. cbn.
    split_and!; try lia; repeat constructor; cbn; lia.
  - reflexivity.
  - reflexivity.
Defined.

(** ** The security descriptor *)

(** Wire form of a SID and of an access control entry. *)
Definition sid_octets (d : dcerpc) (s : smb_sid) : bytes :=
  enc_int d 1 (sid_revision s) ++ enc_int d 1 (sid_num_subauth s) ++
  concat (map (enc_int d 1) (sid_authority s)) ++ concat (map (enc_int d 4) (sub_auths s)).
Definition add_rid (rid : Z) (s : smb_sid) : smb_sid :=
  if rid =? 0 then s
  else mk_sid (sid_revision s) (sid_num_subauth s + 1) (sid_authority s)
         (<[Z.to_nat (sid_num_subauth s) := u32 rid]> (sid_sub_auth s)).
Definition ace_octets (d : dcerpc) (access rid : Z) (s : smb_sid) : bytes :=
  enc_int d 1 SMB_ACCESS_ALLOWED ++ enc_int d 1 0 ++
  enc_int d 2 (16 + sid_num_subauth (add_rid rid s) * 4) ++ enc_int d 4 access ++
  sid_octets d (add_rid rid s).
Definition dacl_octets (d : dcerpc) (gen_subauth : list Z) (rid : Z) : bytes :=
  ace_octets d 0x0002035b 0 sid_everyone ++
  ace_octets d 0x000f07ff 544 sid_local_group ++
  ace_octets d 0x000f07ff 548 sid_local_group ++
  ace_octets d 0x00020044 rid (owner_domain gen_subauth).
Definition sec_desc_octets (d : dcerpc) (gen_subauth : list Z) (rid : Z) : bytes :=
  let dacl := dacl_octets d gen_subauth rid in
  enc_int d 2 1 ++ enc_int d 2 0x8004 ++ enc_int d 4 0 ++ enc_int d 4 0 ++ enc_int d 4 0 ++
  enc_int d 4 20 ++
  enc_int d 2 2 ++ enc_int d 2 (8 + Z.of_nat (length dacl)) ++ enc_int d 4 4 ++ dacl.

#[local] Opaque enc_int.

Section SecDesc.
Context {A : Allocator}.

Lemma length_concat_enc d n l : length (concat (map (enc_int d n) l)) = (n * length l)%nat.
Proof.
  induction l as [|x l IH]; cbn [map concat length]; [lia|].
  rewrite length_app, length_enc_int, IH. lia.
Qed.
Lemma length_sid_octets d s :
  sid_ok s → Z.of_nat (length (sid_octets d s)) = 8 + 4 * sid_num_subauth s.
Proof.
  intros Hs. pose proof (sub_auths_length s Hs) as Hl. destruct Hs as [(_&_&_&Ha&_) Hn].
  unfold sid_octets. rewrite !length_app, !length_concat_enc, !length_enc_int, Hl, Ha.
  unfold NUM_AUTHS. lia.
Qed.

(** A chain of writers at a cursor whose alignment is known.  [emit] splits
    off the first writer and leaves the alignment of the rest to [lia]. *)
Lemma copied_offset l d : dce_offset (copied (dce_offset d) l d) = dce_offset d + Z.of_nat (length l).
Proof. done. Qed.
Lemma emits_int_or d n v :
  int_width n → dce_ok d → dce_offset d mod Z.of_nat n = 0 →
  emits (ndr_write_int n v else_return (- ENOMEM)) tt (enc_int d n v) d.
Proof. intros. by apply emits_or_return, emits_int. Qed.

Lemma emits_cons {U} n v (k : unit → prog dcerpc U) b l2 d :
  int_width n → dce_ok d → dce_offset d mod Z.of_nat n = 0 →
  (∀ d', dce_ok d' → dce_flags d' = dce_flags d → dce_offset d' = dce_offset d + Z.of_nat n →
         dce_offset d' ≤ payload_sz d' → emits (k tt) b l2 d') →
  emits (bind (ndr_write_int n v else_return (- ENOMEM)) k) b (enc_int d n v ++ l2) d.
Proof.
  intros Hn Hd Ha Hk. eapply emits_bind; [done|by apply emits_int_or|].
  intros Hf. apply Hk.
  - by apply copied_ok.
  - done.
  - by rewrite copied_offset, length_enc_int.
  - rewrite payload_sz_copied by (destruct Hd; lia). done.
Qed.

Lemma enc_int_flags d d' n v : dce_flags d' = dce_flags d → enc_int d' n v = enc_int d n v.
Proof. intros Hf. Transparent enc_int. unfold enc_int, has_flag. by rewrite Hf. Qed.
#[local] Opaque enc_int.
Lemma sid_octets_flags d d' s : dce_flags d' = dce_flags d → sid_octets d' s = sid_octets d s.
Proof.
  intros Hf. unfold sid_octets. rewrite !(enc_int_flags d d') by done. do 3 f_equal.
  - f_equal. apply map_ext. intros. by apply enc_int_flags.
  - f_equal. apply map_ext. intros. by apply enc_int_flags.
Qed.
Lemma ace_octets_flags d d' a r s : dce_flags d' = dce_flags d → ace_octets d' a r s = ace_octets d a r s.
Proof. intros Hf. unfold ace_octets. by rewrite !(enc_int_flags d d'), (sid_octets_flags d d') by done. Qed.

Lemma emits_sid s d :
  dce_ok d → sid_ok s → dce_offset d mod 4 = 0 →
  emits (smb_write_sid s) tt (sid_octets d s) d.
Proof.
  intros Hd Hs Ha. pose proof Hs as [(_&_&_&Hal&_) Hn].
  unfold smb_write_sid, sid_octets. rewrite (proj2 (Z.ltb_ge _ _)) by lia.
  apply (emits_cons 1); [apply _|done|apply Z.mod_1_r|].
  intros d1 Hd1 Hf1 Ho1 Hp1. rewrite <-(enc_int_flags d d1) by done.
  apply (emits_cons 1); [apply _|done|apply Z.mod_1_r|].
  intros d2 Hd2 Hf2 Ho2 Hp2. eapply emits_bind; [done|..].
  - eapply (emits_list _ _ 1); [done|done|apply Z.mod_1_r|lia|intros; apply Z.mod_1_r|].
    intros x d' Hd' Hf' _. rewrite <-(enc_int_flags d d') by congruence.
    apply (emits_int_or d' 1); [apply _|done|apply Z.mod_1_r].
  - intros Hf. eapply (emits_list _ _ 4).
    + by apply copied_ok.
    + rewrite payload_sz_copied by (destruct Hd2; lia). done.
    + rewrite copied_offset, length_concat_enc, Hal, Ho2, Ho1. unfold NUM_AUTHS.
      replace (_ + _) with (dce_offset d + 2 * 4) by lia. by rewrite Z.mod_add by lia.
    + lia.
    + intros x. by rewrite length_enc_int.
    + intros x d' Hd' Hf' Ha'. rewrite <-(enc_int_flags d d') by (cbn in Hf'; congruence).
      by apply (emits_int_or d' 4); [apply _|done|].
Qed.

Lemma emits_ace access rid s d :
  dce_ok d → sid_ok (add_rid rid s) → sid_num_subauth s < SID_MAX_SUB_AUTHORITIES →
  dce_offset d mod 4 = 0 →
  emits (smb_set_ace access rid s) (Z.of_nat (length (ace_octets d access rid s)))
    (ace_octets d access rid s) d.
Proof.
  intros Hd Hs Hn Ha.
  assert (16 + sid_num_subauth (add_rid rid s) * 4 =
    1 + 1 + 2 + 4 + 1 + 1 + 6 + sid_num_subauth s * 4 + (if rid =? 0 then 0 else 4)) as Hsize.
  { unfold add_rid. destruct (rid =? 0); cbn; lia. }
  assert (Z.of_nat (length (ace_octets d access rid s)) = 16 + sid_num_subauth (add_rid rid s) * 4) as Hlen.
  { unfold ace_octets. rewrite !length_app, !length_enc_int.
    pose proof (length_sid_octets d (add_rid rid s) Hs). lia. }
  rewrite Hlen. unfold smb_set_ace, ace_octets. rewrite Hsize.
  apply (emits_cons 1); [apply _|done|apply Z.mod_1_r|].
  intros d1 Hd1 Hf1 Ho1 Hp1. rewrite <-!(enc_int_flags d d1) by done.
  apply (emits_cons 1); [apply _|done|apply Z.mod_1_r|].
  intros d2 Hd2 Hf2 Ho2 Hp2. rewrite <-!(enc_int_flags d1 d2) by done.
  assert (dce_offset d2 = dce_offset d + 2) as Ho2' by lia.
  apply (emits_cons 2); [apply _|done|Z.to_euclidean_division_equations; lia|].
  intros d3 Hd3 Hf3 Ho3 Hp3. rewrite <-!(enc_int_flags d2 d3) by done.
  apply (emits_cons 4); [apply _|done|Z.to_euclidean_division_equations; lia|].
  intros d4 Hd4 Hf4 Ho4 Hp4. rewrite <-(sid_octets_flags d d4) by congruence.
  rewrite <-(app_nil_l (sid_octets _ _)). eapply (emits_bind _ _ (add_rid rid s)); [done|..].
  - unfold add_rid. destruct (rid =? 0); [by apply emits_ret|].
    rewrite (proj2 (Z.leb_gt _ _)) by lia. by apply emits_ret.
  - intros _.
    assert (copied (dce_offset d4) [] d4 = d4) as ->.
    { unfold copied, mem_write; cbn. rewrite Nat.add_0_r, take_drop, Z.add_0_r. by destruct d4. }
    rewrite <-(app_nil_r (sid_octets _ _)). eapply emits_bind; [done|apply emits_or_return, emits_sid|].
    + done.
    + done.
    + Z.to_euclidean_division_equations; lia.
    + intros Hf. apply emits_ret; [by apply copied_ok|].
      rewrite payload_sz_copied by (destruct Hd4; lia). done.
Qed.

Lemma sid_const_ok a x : length a = NUM_AUTHS → is_bytes a → 0 ≤ x < 2 ^ 32 →
  sid_ok (mk_sid 1 1 a (x :: replicate 14 0)).
Proof.
  intros Ha Hb Hx. split; [|unfold SID_MAX_SUB_AUTHORITIES; cbn; lia].
  unfold sid_typed, is_byte; cbn. split_and!; try done; try lia.
  repeat constructor; lia || done.
Qed.
Lemma add_rid_ok rid s :
  sid_ok s → sid_num_subauth s < SID_MAX_SUB_AUTHORITIES → sid_ok (add_rid rid s).
Proof.
  intros [(Hr & Hnb & Ha & Hal & Hs & Hl) Hn] Hlt. unfold add_rid.
  destruct (rid =? 0); [done|]. split; cbn; [|lia].
  unfold sid_typed; cbn. split_and!; try done.
  - unfold is_byte, SID_MAX_SUB_AUTHORITIES in *. lia.
  - apply Forall_insert; [done|]. apply u32_range.
  - by rewrite length_insert.
Qed.
Lemma owner_domain_ok gen_subauth :
  length gen_subauth = 3%nat → Forall (λ x, 0 ≤ x < 2 ^ 32) gen_subauth →
  sid_ok (owner_domain gen_subauth).
Proof.
  intros Hl Hf. split; [|cbn; unfold SID_MAX_SUB_AUTHORITIES; lia].
  unfold sid_typed, is_byte; cbn. split_and!; try lia; try done.
  - repeat constructor; unfold is_byte; lia.
  - constructor; [lia|]. apply Forall_app. split; [done|]. repeat constructor; lia.
  - rewrite length_app, Hl. done.
Qed.
Lemma length_ace d a r s :
  sid_ok (add_rid r s) →
  Z.of_nat (length (ace_octets d a r s)) = 16 + sid_num_subauth (add_rid r s) * 4.
Proof.
  intros Hs. unfold ace_octets. rewrite !length_app, !length_enc_int.
  pose proof (length_sid_octets d (add_rid r s) Hs). lia.
Qed.

(** The entries follow each other at offsets that are multiples of four. *)
Lemma emits_ace_then {U} access rid s (k : Z → prog dcerpc U) b l2 d :
  dce_ok d → sid_ok s → sid_num_subauth s < SID_MAX_SUB_AUTHORITIES →
  dce_offset d mod 4 = 0 →
  (∀ d', dce_ok d' → dce_flags d' = dce_flags d → dce_offset d' mod 4 = 0 →
         dce_offset d' ≤ payload_sz d' →
         emits (k (16 + sid_num_subauth (add_rid rid s) * 4)) b l2 d') →
  emits (bind (smb_set_ace access rid s) k) b (ace_octets d access rid s ++ l2) d.
Proof.
  intros Hd Hs Hlt Ha Hk. pose proof (add_rid_ok rid s Hs Hlt) as Hs'.
  eapply emits_bind; [done|by apply emits_ace|]. intros Hf. rewrite length_ace by done.
  apply Hk.
  - by apply copied_ok.
  - done.
  - rewrite copied_offset, length_ace by done.
    replace (_ + _) with (dce_offset d + (4 + sid_num_subauth (add_rid rid s)) * 4) by lia.
    by rewrite Z.mod_add by lia.
  - rewrite payload_sz_copied by (destruct Hd; lia). done.
Qed.

Lemma emits_dacl gen_subauth rid d :
  length gen_subauth = 3%nat → Forall (λ x, 0 ≤ x < 2 ^ 32) gen_subauth →
  dce_ok d → dce_offset d mod 4 = 0 →
  emits (set_dacl gen_subauth rid) (Z.of_nat (length (dacl_octets d gen_subauth rid)))
    (dacl_octets d gen_subauth rid) d.
Proof.
  intros Hl Hg Hd Ha. unfold set_dacl, dacl_octets.
  pose proof (owner_domain_ok gen_subauth Hl Hg) as Hown.
  assert (sid_ok sid_everyone) as Hev by by apply (sid_const_ok [0;0;0;0;0;1] 0); [|repeat constructor|].
  assert (sid_ok sid_local_group) as Hlg by by apply (sid_const_ok [0;0;0;0;0;5] 32); [|repeat constructor|].
  assert (∀ r, sid_ok (add_rid r sid_local_group)) as Hlg' by (intros; by apply add_rid_ok).
  assert (sid_ok (add_rid rid (owner_domain gen_subauth))) as Hown' by by apply add_rid_ok.
  rewrite !length_app, !Nat2Z.inj_add, !length_ace by done.
  apply emits_ace_then; [done..|]. intros d1 Hd1 Hf1 Ha1 Hp1.
  rewrite <-!(ace_octets_flags d d1) by done.
  apply emits_ace_then; [done..|]. intros d2 Hd2 Hf2 Ha2 Hp2.
  rewrite <-!(ace_octets_flags d1 d2) by done.
  apply emits_ace_then; [done..|]. intros d3 Hd3 Hf3 Ha3 Hp3.
  rewrite <-!(ace_octets_flags d2 d3) by done.
  rewrite <-(app_nil_r (ace_octets _ _ _ _)).
  apply emits_ace_then; [done..|]. intros d4 Hd4 Hf4 Ha4 Hp4.
  match goal with |- emits (ret ?x) ?y _ _ => replace x with y by lia end.
  by apply emits_ret.
Qed.
Lemma length_dacl d gen_subauth rid :
  length gen_subauth = 3%nat → Forall (λ x, 0 ≤ x < 2 ^ 32) gen_subauth →
  Z.of_nat (length (dacl_octets d gen_subauth rid)) = if rid =? 0 then 100 else 104.
Proof.
  intros Hl Hg. unfold dacl_octets. rewrite !length_app, !Nat2Z.inj_add.
  rewrite !length_ace.
  - unfold add_rid. cbn. by destruct (rid =? 0).
  - by apply add_rid_ok; [apply owner_domain_ok|].
  - apply add_rid_ok; [|done]. by apply (sid_const_ok [0;0;0;0;0;5] 32); [|repeat constructor|].
  - apply add_rid_ok; [|done]. by apply (sid_const_ok [0;0;0;0;0;5] 32); [|repeat constructor|].
  - by apply (sid_const_ok [0;0;0;0;0;1] 0); [|repeat constructor|].
Qed.

(** The fields before the size of the access control list. *)
Definition desc_header : prog dcerpc unit :=
  ndr_write_int16 1 else_return (- ENOMEM) ;;
  ndr_write_int16 (Z.lor SMB_SELF_RELATIVE SMB_DACL_PRESENT) else_return (- ENOMEM) ;;
  ndr_write_int32 0 else_return (- ENOMEM) ;;
  ndr_write_int32 0 else_return (- ENOMEM) ;;
  ndr_write_int32 0 else_return (- ENOMEM) ;;
  ndr_write_int32 sizeof_smb_ntsd else_return (- ENOMEM) ;;
  ndr_write_int16 2 else_return (- ENOMEM).
Definition desc_header_octets (d : dcerpc) : bytes :=
  enc_int d 2 1 ++ enc_int d 2 0x8004 ++ enc_int d 4 0 ++ enc_int d 4 0 ++ enc_int d 4 0 ++
  enc_int d 4 20 ++ enc_int d 2 2.

(** Emit the next integer of [n] octets behind the state [prev]. *)
Ltac hdr n prev :=
  apply (emits_cons n); [apply _|done|Z.to_euclidean_division_equations; lia|];
  let d' := fresh "d" in let Hf := fresh "Hf" in
  intros d' ? Hf ? ?; rewrite <-!(enc_int_flags prev d') by exact Hf.
Lemma emits_header d :
  dce_ok d → dce_offset d mod 4 = 0 → emits desc_header tt (desc_header_octets d) d.
Proof.
  intros Hd Ha. unfold desc_header, desc_header_octets.
  hdr 2%nat d. hdr 2%nat d0. hdr 4%nat d1. hdr 4%nat d2. hdr 4%nat d3. hdr 4%nat d4.
  apply (emits_int_or d5 2); [apply _|done|Z.to_euclidean_division_equations; lia].
Qed.

(** The part behind the header. *)
Definition desc_rest (gen_subauth : list Z) (rid : Z) : prog dcerpc Z :=
  acl_size_offset <- gets (λ d, s32 (dce_offset d)) ;;
  modify (λ d, set_offset (u64 (dce_offset d + 2)) d) ;;
  ndr_write_int32 KSMBD_NUM_DEFAULT_ACES else_return (- ENOMEM) ;;
  dacl <- attempt (set_dacl gen_subauth rid) ;;
  let acl_size := s32 (u64 ((match dacl with inl s => s | inr e => e end) + sizeof_smb_acl)) in
  if acl_size <? 0 then fail (- ENOMEM)
  else
    l_offset <- gets (λ d, s32 (dce_offset d)) ;;
    modify (set_offset (u64 acl_size_offset)) ;;
    ndr_write_int16 acl_size else_return (- ENOMEM) ;;
    modify (set_offset (u64 l_offset)) ;;
    ret (u32 (sizeof_smb_ntsd + acl_size)).
Lemma build_sec_desc_split g rid d :
  build_sec_desc g rid d = bind desc_header (λ _, desc_rest g rid) d.
Proof.
  unfold build_sec_desc, desc_header. by do 6 (apply bind_assoc_step; intros _ ?).
Qed.

Lemma patched_copied d o e2 e4 dacl :
  length e2 = 2%nat → length e4 = 4%nat → 0 ≤ o →
  o + 6 + Z.of_nat (length dacl) ≤ payload_sz d →
  set_offset (o + 6 + Z.of_nat (length dacl))
    (copied o e2 (set_offset o (copied (o + 6) dacl (copied (o + 2) e4 (set_offset (o + 2) d))))) =
  copied o (e2 ++ e4 ++ dacl) d.
Proof.
  intros H2 H4 Ho Hf. unfold payload_sz in Hf. unfold copied, set_offset, set_payload.
  cbn [dce_flags dce_offset dce_payload dce_num_pointers]. f_equal.
  { rewrite !length_app, H2, H4. lia. }
  set (p := dce_payload d) in *. set (n := Z.to_nat o).
  replace (Z.to_nat (o + 2)) with (n + 2)%nat by (unfold n; lia).
  replace (Z.to_nat (o + 6)) with ((n + 2) + length e4)%nat by (unfold n; lia).
  rewrite mem_write_app by (unfold n; lia).
  set (g := mem_read n 2 p).
  assert (length g = 2%nat) as Hg by (apply length_mem_read; unfold n; lia).
  rewrite <-(mem_write_read n 2 p) at 1 by (unfold n; lia). fold g.
  rewrite <-Hg at 1. rewrite mem_write_app by (unfold n; lia).
  pose proof (mem_write_inside n [] g e2 (e4 ++ dacl) p) as Hi. cbn [length app] in Hi.
  rewrite Nat.add_0_r in Hi. apply Hi; [rewrite !length_app; unfold n; lia|lia].
Qed.

(** Two octets are skipped, the entries written behind them, and the skipped
    octets filled in at the end. *)
Lemma emits_rest gen_subauth rid d :
  length gen_subauth = 3%nat → Forall (λ x, 0 ≤ x < 2 ^ 32) gen_subauth →
  dce_ok d → dce_offset d mod 4 = 2 → dce_offset d ≤ payload_sz d → payload_sz d < 2 ^ 31 →
  let dacl := dacl_octets d gen_subauth rid in
  emits (desc_rest gen_subauth rid) (28 + Z.of_nat (length dacl))
    (enc_int d 2 (8 + Z.of_nat (length dacl)) ++ enc_int d 4 4 ++ dacl) d.
Proof.
  intros Hl Hg Hd Ha Hin Hp dacl. pose proof (length_dacl d gen_subauth rid Hl Hg) as Hdl.
  fold dacl in Hdl.
  assert (90 < Z.of_nat (length dacl) < 110) as Hdb by (rewrite Hdl; destruct (rid =? 0); lia).
  pose proof Hd as (Ho & _ & _). set (o := dce_offset d) in *.
  unfold emits. fold o. rewrite !length_app, !length_enc_int.
  remember (desc_rest gen_subauth rid d) as r eqn:Hr.
  unfold desc_rest, bind, gets, modify, ret, attempt, ndr_write_int32, ndr_write_int16,
    KSMBD_NUM_DEFAULT_ACES, sizeof_smb_acl, sizeof_smb_ntsd in Hr. fold o in Hr.
  rewrite (u64_small (o + 2)) in Hr by lia. set (d1 := set_offset (o + 2) d) in Hr.
  assert (dce_ok d1) as Hd1 by (apply dce_ok_set_offset; [done|lia]).
  (* the number of entries *)
  pose proof (emits_int_or d1 4 4 _ Hd1) as He1. unfold emits in He1.
  rewrite length_enc_int in He1. change (dce_offset d1) with (o + 2) in He1.
  change (payload_sz d1) with (payload_sz d) in He1.
  specialize (He1 ltac:(Z.to_euclidean_division_equations; lia)).
  destruct (Z.leb_spec (o + 2 + Z.of_nat 4) (payload_sz d)) as [Hf1|Hf1].
  2:{ rewrite (proj2 (Z.leb_gt _ _)) by lia. destruct He1 as [d' He1]. rewrite He1 in Hr. by exists d'. }
  rewrite He1 in Hr. clear He1. set (e4 := enc_int d1 4 4) in Hr. set (d2 := copied (o + 2) e4 d1) in Hr.
  assert (length e4 = 4%nat) as He4 by apply length_enc_int.
  assert (dce_ok d2) as Hd2 by (apply (copied_ok e4 d1 Hd1); rewrite He4; exact Hf1).
  assert (dce_offset d2 = o + 6) as Ho2 by (unfold d2, copied; cbn; rewrite He4; lia).
  assert (payload_sz d2 = payload_sz d) as Hp2.
  { apply (payload_sz_copied e4 d1); [cbn; lia|rewrite He4; exact Hf1]. }
  (* the entries *)
  pose proof (emits_dacl gen_subauth rid d2 Hl Hg Hd2) as He2.
  specialize (He2 ltac:(rewrite Ho2; Z.to_euclidean_division_equations; lia)).
  replace (dacl_octets d2 gen_subauth rid) with dacl in He2.
  2:{ unfold dacl, dacl_octets. by rewrite <-!(ace_octets_flags d d2). }
  unfold emits in He2. rewrite Ho2, Hp2 in He2.
  destruct (Z.leb_spec (o + 6 + Z.of_nat (length dacl)) (payload_sz d)) as [Hf2|Hf2].
  2:{ rewrite (proj2 (Z.leb_gt _ _)) by lia. destruct He2 as [d' He2]. rewrite He2 in Hr. by exists d'. }
  rewrite (proj2 (Z.leb_le _ _)) by lia. rewrite He2 in Hr. clear He2.
  set (d3 := copied (o + 6) dacl d2) in Hr.
  assert (s32 (u64 (Z.of_nat (length dacl) + 8)) = 8 + Z.of_nat (length dacl)) as Hsz.
  { rewrite u64_small, s32_small by lia. lia. }
  rewrite Hsz, (proj2 (Z.ltb_ge _ _)) in Hr by lia.
  (* the size of the list *)
  assert (dce_offset d3 = o + 6 + Z.of_nat (length dacl)) as Ho3 by done.
  rewrite Ho3, !s32_small, !(u64_small o) in Hr by lia.
  set (d4 := set_offset o d3) in Hr.
  assert (dce_ok d3) as Hd3 by (unfold d3; rewrite <-Ho2; apply copied_ok; [done|rewrite Ho2, Hp2; lia]).
  assert (payload_sz d4 = payload_sz d) as Hp4.
  { rewrite <-Hp2. unfold d4, d3. rewrite <-Ho2.
    apply (payload_sz_copied dacl d2); rewrite ?Ho2, ?Hp2; lia. }
  pose proof (emits_int_or d4 2 (8 + Z.of_nat (length dacl)) _ ltac:(by apply dce_ok_set_offset; [|lia])) as He3.
  unfold emits in He3. rewrite length_enc_int, Hp4 in He3. change (dce_offset d4) with o in He3.
  specialize (He3 ltac:(Z.to_euclidean_division_equations; lia)).
  rewrite (proj2 (Z.leb_le _ _)) in He3 by lia. rewrite He3 in Hr.
  rewrite u64_small, u32_small in Hr by lia. subst r. f_equal; [lia|].
  change (enc_int d 4 4) with e4. apply patched_copied; rewrite ?length_enc_int; done || lia.
Qed.

(** C13 (functional): at a cursor aligned to four, [build_sec_desc] appends
    exactly the self-relative descriptor with its four access entries, the
    size fields patched in, and reports its length; when the descriptor does
    not fit, it fails with -ENOMEM. *)
Theorem build_sec_desc_exact gen_subauth rid d :
  length gen_subauth = 3%nat → Forall (λ x, 0 ≤ x < 2 ^ 32) gen_subauth →
  dce_ok d → dce_offset d mod 4 = 0 → payload_sz d < 2 ^ 31 →
  dce_offset d < 2 ^ 31 →
  emits (build_sec_desc gen_subauth rid)
    (Z.of_nat (length (sec_desc_octets d gen_subauth rid)))
    (sec_desc_octets d gen_subauth rid) d.
Proof.
  intros Hl Hg Hd Ha Hp Ho. pose proof (length_dacl d gen_subauth rid Hl Hg) as Hdl.
  set (dacl := dacl_octets d gen_subauth rid) in *.
  assert (90 < Z.of_nat (length dacl) < 110) as Hdb by (rewrite Hdl; destruct (rid =? 0); lia).
  set (h := desc_header_octets d).
  assert (length h = 22%nat) as Hh by (unfold h, desc_header_octets; by autorewrite with ksmbd; rewrite !length_app, !length_enc_int).
  assert (sec_desc_octets d gen_subauth rid =
    h ++ enc_int d 2 (8 + Z.of_nat (length dacl)) ++ enc_int d 4 4 ++ dacl) as Hsd.
  { unfold sec_desc_octets, h, desc_header_octets. by rewrite <-!app_assoc. }
  rewrite Hsd. unfold emits. rewrite build_sec_desc_split.
  apply (emits_bind desc_header (λ _, desc_rest gen_subauth rid) tt).
  - done.
  - by apply emits_header.
  - intros Hf. rewrite Hh in Hf. fold h.
    replace (Z.of_nat (length _)) with (28 + Z.of_nat (length dacl))
      by (rewrite !length_app, !length_enc_int, Hh; lia).
    pose proof (payload_sz_copied h d) as Hpc. rewrite Hh in Hpc.
    apply (emits_rest gen_subauth rid (copied (dce_offset d) h d)); [done|done|..].
    + apply copied_ok; [done|]. by rewrite Hh.
    + rewrite copied_offset, Hh. Z.to_euclidean_division_equations; lia.
    + rewrite copied_offset, Hpc, Hh; destruct Hd; lia.
    + rewrite Hpc; destruct Hd; lia.
Qed.
End SecDesc.

(** ** Descriptors in a reply

    Writers of identifiers and descriptors stay below the bound of a reply. *)
Section Bounded.
Context {A : Allocator}.
Lemma write_list_in {T : Type} (w : T → prog dcerpc unit) l :
  (∀ a, safe (appends_in reply_limit) (w a)) → safe (appends_in reply_limit) (write_list w l).
Proof. intros Hw. induction l as [|x l IH]; cbn [write_list]; safes. Qed.
Lemma smb_write_sid_in s : safe (appends_in reply_limit) (smb_write_sid s).
Proof. unfold smb_write_sid. safes; apply write_list_in; intros; safes. Qed.
#[local] Hint Resolve smb_write_sid_in : ksmbd.
Lemma smb_set_ace_in access rid s : safe (appends_in reply_limit) (smb_set_ace access rid s).
Proof. unfold smb_set_ace. safes. Qed.
#[local] Hint Resolve smb_set_ace_in : ksmbd.
Lemma set_dacl_in g rid : safe (appends_in reply_limit) (set_dacl g rid).
Proof. unfold set_dacl. safes. Qed.
Lemma desc_header_in : safe (appends_in reply_limit) desc_header.
Proof. unfold desc_header. safes. Qed.

(** What is left of [appends_in] when the cursor also moves back. *)
Definition stays (d d' : dcerpc) : Prop :=
  dce_flags d' = dce_flags d ∧ length (dce_payload d') = length (dce_payload d) ∧ dce_offset d' ≤ reply_limit.
Lemma appends_stays d d' :
  appends_in reply_limit d d' → payload_sz d ≤ reply_limit → dce_offset d ≤ reply_limit → stays d d'.
Proof. intros [[] Hb] ??. split_and!; auto. Qed.
Lemma stays_trans d1 d2 d3 : stays d1 d2 → stays d2 d3 → stays d1 d3.
Proof. intros (? & ? & ?) (? & ? & ?). split_and!; congruence || done. Qed.
Lemma stays_offset d d' o : stays d d' → 0 ≤ o ≤ reply_limit → stays d (set_offset o d').
Proof. intros (? & ? & ?) ?. split_and!; [done..|cbn; lia]. Qed.
Lemma stays_payload d d' : stays d d' → payload_sz d' = payload_sz d.
Proof. intros (_ & Hl & _). unfold payload_sz. by rewrite Hl. Qed.
Definition kept (d d' : dcerpc) : Prop := dce_ok d' ∧ stays d d'.
(** A writer behind others. *)
Lemma kept_safe {T U : Type} (m : prog dcerpc T) (k : T → prog dcerpc U) d0 d Q E :
  safe (appends_in reply_limit) m → payload_sz d0 ≤ reply_limit → kept d0 d →
  (∀ e d', kept d0 d' → E e d') → (∀ a d', kept d0 d' → wp (k a) d' Q E) → wp (bind m k) d Q E.
Proof.
  intros Hm Hp [Hd Hs] He Hk. wp_step. pose proof (stays_payload _ _ Hs) as Hps. destruct Hs as (? & ? & Ho).
  wp_by (by apply Hm); [intros a d' []; apply Hk|intros e d' []; apply He];
    (split; [done|]; eapply stays_trans; [by split_and!|]; apply appends_stays; [done|lia|lia]).
Qed.
Lemma kept_offset d0 d o : kept d0 d → 0 ≤ o ≤ reply_limit → kept d0 (set_offset o d).
Proof.
  intros [Hd Hs] Ho. split; [|by apply stays_offset]. apply dce_ok_set_offset; [done|]. unfold reply_limit in Ho. lia.
Qed.
Lemma desc_rest_kept g rid d0 d :
  kept d0 d → payload_sz d0 ≤ reply_limit → dce_offset d ≤ 2 ^ 30 + 100 →
  wp (desc_rest g rid) d (λ _, kept d0) (λ _, kept d0).
Proof.
  intros Hk Hp Ho. pose proof Hk as [(Hnn & _) _]. unfold desc_rest. do 3 wp_step. apply wp_modify.
  assert (u64 (dce_offset d + 2) = dce_offset d + 2) as -> by (apply u64_small; lia).
  assert (s32 (dce_offset d) = dce_offset d) as -> by (apply s32_small; lia).
  assert (0 ≤ dce_offset d ≤ reply_limit) as Hl by (unfold reply_limit; lia). set (o := dce_offset d) in *. clearbody o.
  assert (kept d0 (set_offset (o + 2) d)) as Hk1 by (apply kept_offset; [done|unfold reply_limit; lia]).
  eapply (kept_safe _ _ d0); [safes|done|exact Hk1|done|clear d Hk Hk1; intros _ d Hk].
  eapply (kept_safe _ _ d0); [apply safe_attempt, set_dacl_in|done|exact Hk|done|clear d Hk; intros dacl d Hk].
  cbv zeta. destruct (_ <? 0); [by wp_step|]. do 3 wp_step. apply wp_modify.
  assert (0 ≤ dce_offset d ≤ reply_limit) as Hd by (destruct Hk as [(? & _) (_ & _ & ?)]; lia).
  assert (u64 (s32 (dce_offset d)) = dce_offset d) as -> by (unfold reply_limit in Hd; rewrite s32_small, u64_small; lia).
  assert (u64 o = o) as -> by (apply u64_small; unfold reply_limit in Hl; lia).
  set (l := dce_offset d) in *. clearbody l. assert (kept d0 (set_offset o d)) as Hk1 by by apply kept_offset.
  eapply (kept_safe _ _ d0); [safes|done|exact Hk1|done|clear d Hk Hk1; intros _ d Hk].
  wp_step. apply wp_modify. wp_step. by apply kept_offset.
Qed.
Lemma build_sec_desc_kept g rid d :
  dce_ok d → payload_sz d ≤ reply_limit → dce_offset d ≤ 2 ^ 30 → dce_offset d mod 4 = 0 →
  wp (build_sec_desc g rid) d (λ _, kept d) (λ _, kept d).
Proof.
  intros Hd Hp Ho Ha. unfold wp. rewrite build_sec_desc_split. change (wp (bind desc_header (λ _, desc_rest g rid)) d (λ _, kept d) (λ _, kept d)).
  assert (dce_offset d ≤ reply_limit) as Hl by (unfold reply_limit; lia).
  assert (kept d d) as Hk by by split. wp_step.
  assert (wp desc_header d (λ _ d', kept d d' ∧ dce_offset d' ≤ 2 ^ 30 + 100) (λ _, kept d)) as Hh.
  { pose proof (desc_header_in d Hd) as Hin. pose proof (emits_header d Hd Ha) as Hem. unfold emits in Hem.
    assert (length (desc_header_octets d) = 22%nat) as Hlen by by unfold desc_header_octets; rewrite !length_app, !length_enc_int.
    unfold wp in *. destruct (_ <=? _).
    - rewrite Hem in *. destruct Hin as [Hok Hs]. split; [split; [done|by apply appends_stays]|].
      rewrite copied_offset, Hlen. lia.
    - destruct Hem as [d' E]. rewrite E in *. destruct Hin. split; [done|by apply appends_stays]. }
  wp_by (exact Hh); [|done]. intros _ d' [Hk' Ho']. by apply desc_rest_kept.
Qed.
End Bounded.

(** ** Witnesses *)
Lemma dce_ok_blank n fl : 0 ≤ Z.of_nat n ≤ 2 ^ 62 →
  has_flag KSMBD_DCERPC_FIXED_PAYLOAD_SZ (mk_dcerpc fl 0 (replicate n 0) 0) = true →
  dce_ok (mk_dcerpc fl 0 (replicate n 0) 0).
Proof.
  intros Hn Hf. split; [cbn; lia|]. split; [|done]. unfold payload_sz. cbn [dce_payload].
  rewrite length_replicate. lia.
Qed.
Lemma smb_sid_roundtrip_witness :
  let d := mk_dcerpc KSMBD_DCERPC_FIXED_PAYLOAD_SZ 0 (replicate 12 0) 0 in
  ∃ d', smb_write_sid (A:=plenty) sid_unix_users d = Done tt d' ∧
    smb_read_sid sid_everyone (set_offset 0 d') = Done (smb_copy_sid sid_everyone sid_unix_users) d'.
Proof.
  intros d.
  assert (∃ d', smb_write_sid (A:=plenty) sid_unix_users d = Done tt d') as [d' E]
    by (eexists; vm_compute; reflexivity).
  exists d'. split; [exact E|].
  assert (sid_ok sid_unix_users) as Hs.
  { apply (sid_const_ok [0;0;0;0;0;22] 1); [reflexivity|repeat constructor; vm_compute; congruence|lia]. }
  assert (dce_ok d) as Hd by (apply dce_ok_blank; [lia|reflexivity]).
  pose proof (smb_sid_roundtrip (A:=plenty) sid_everyone sid_unix_users d Hd Hs) as H.
  rewrite E in H. apply H.
Defined.
Lemma smb_compare_sids_spec_witness :
  smb_compare_sids (Some sid_unix_groups) (Some sid_unix_users) =
  - smb_compare_sids (Some sid_unix_users) (Some sid_unix_groups).
Proof.
  apply (smb_compare_sids_spec sid_unix_users sid_unix_groups).
  - apply (sid_const_ok [0;0;0;0;0;22] 1); [reflexivity|repeat constructor; vm_compute; congruence|lia].
  - apply (sid_const_ok [0;0;0;0;0;22] 2); [reflexivity|repeat constructor; vm_compute; congruence|lia].
Defined.
Lemma build_sec_desc_exact_witness :
  let d := mk_dcerpc KSMBD_DCERPC_FIXED_PAYLOAD_SZ 0 (replicate 140 0) 0 in
  emits (build_sec_desc (A:=plenty) [1; 2; 3] 1000)
    (Z.of_nat (length (sec_desc_octets d [1; 2; 3] 1000))) (sec_desc_octets d [1; 2; 3] 1000) d.
Proof.
  apply (build_sec_desc_exact (A:=plenty) [1; 2; 3] 1000).
  - reflexivity.
  - repeat constructor; lia.
  - apply dce_ok_blank; [lia|reflexivity].
  - reflexivity.
  - reflexivity.
  - reflexivity.
Defined.
