(* ===== verification/ConfText.v ===== *)
(** * Text helpers of the configuration parser ([src/tools/config_parser.c])

    Strings are octet lists without their NUL.  [strtoull] is the C library's
    (64-bit [unsigned long long]; [unsigned long] has the same width here);
    GLib's ASCII case folding and list splitting are parameters.  The file ends
    with the arithmetic of [cp_memparse] and the trimming laws. *)

From S2P Require Import Prelude.

(** [strchr]: the part before the character and the part behind it. *)
Fixpoint split_at (c : Z) (s : bytes) : option (bytes * bytes) :=
  match s with
  | [] => None
  | x :: s => if x =? c then Some ([], s)
              else match split_at c s with Some (a, b) => Some (x :: a, b) | None => None end
  end.

Definition cp_printable (c : Z) : bool := ((0x20 <=? c) && negb (c =? 0x7F)) || (c =? 9).
(** At [NUL], [;] or [#]: an empty rest is at the NUL. *)
Definition cp_smbconf_eol (p : bytes) : bool :=
  match p with [] => true | c :: _ => (c =? 0) || (c =? 59) || (c =? 35) end.
Definition cp_pwddb_eol (p : bytes) : bool :=
  match p with [] => true | c :: _ => c =? 0 end.

Definition is_ascii_space_tab (c : Z) : bool := (c =? 32) || (c =? 9).
Fixpoint cp_ltrim (v : bytes) : bytes :=
  match v with c :: v' => if is_ascii_space_tab c then cp_ltrim v' else v | [] => [] end.

(** [cp_rtrim v p] moves [p] back over blanks but not before [v]; the callers
    keep the octets from [v] to [p] included. *)
Fixpoint drop_blanks (r : bytes) : bytes :=
  match r with
  | c :: r' => if is_ascii_space_tab c then match r' with [] => r | _ => drop_blanks r' end else r
  | [] => []
  end.
Definition cp_rtrim (v : bytes) : bytes := reverse (drop_blanks (reverse v)).

(** ** [strtoull] *)
Definition ULLONG_MAX : Z := 2 ^ 64 - 1.
Definition is_space (c : Z) : bool := (c =? 32) || ((9 <=? c) && (c <=? 13)).
Fixpoint skip_spaces (v : bytes) : bytes :=
  match v with c :: v' => if is_space c then skip_spaces v' else v | [] => [] end.
Definition digit (c : Z) : Z :=
  if (48 <=? c) && (c <=? 57) then c - 48
  else if (97 <=? c) && (c <=? 122) then c - 87
  else if (65 <=? c) && (c <=? 90) then c - 55
  else 99.
(** Value and rest of the longest run of digits. *)
Fixpoint digits (base acc : Z) (v : bytes) : Z * bytes :=
  match v with
  | c :: v' => if digit c <? base then digits base (acc * base + digit c) v' else (acc, v)
  | [] => (acc, [])
  end.
Definition has_digit (base : Z) (v : bytes) : bool :=
  match v with c :: _ => digit c <? base | [] => false end.
Definition hex_prefix (v : bytes) : option bytes :=
  match v with
  | 48 :: x :: v' => if ((x =? 120) || (x =? 88)) && has_digit 16 v' then Some v' else None
  | _ => None
  end.
Definition strip_sign (v : bytes) : bool * bytes :=
  match v with 45 :: v' => (true, v') | 43 :: v' => (false, v') | _ => (false, v) end.
Definition detect_base (base : Z) (v : bytes) : Z * bytes :=
  match hex_prefix v with
  | Some v' => if (base =? 0) || (base =? 16) then (16, v') else (base, v)
  | None => if base =? 0 then match v with 48 :: _ => (8, v) | _ => (10, v) end else (base, v)
  end.
(** [None]: no conversion ([endptr == v]) or out of range ([errno] set). *)
Definition strtoull (v : bytes) (base : Z) : option (Z * bytes) :=
  let '(neg, v) := strip_sign (skip_spaces v) in
  let '(base, v) := detect_base base v in
  if has_digit base v then
    let '(n, rest) := digits base 0 v in
    if ULLONG_MAX <? n then None
    else Some (if neg then u64 (- n) else n, rest)
  else None.

(** [strtol] in base ten (64-bit [long]). *)
Definition strtol10 (v : bytes) : option (Z * bytes) :=
  let '(neg, v) := strip_sign (skip_spaces v) in
  if has_digit 10 v then
    let '(n, rest) := digits 10 0 v in
    let n := if neg then - n else n in
    if (2 ^ 63 <=? n) || (n <? - 2 ^ 63) then None else Some (n, rest)
  else None.

(** ** Sizes with a unit *)

(** [ull <<= 10], guarded; [None] is the early return of [ULLONG_MAX]. *)
Definition shift10 (ull : Z) : option Z :=
  if Z.shiftr ULLONG_MAX 10 <? ull then None else Some (u64 (Z.shiftl ull 10)).
(** The number of cases that are fallen through from the one of the unit. *)
Definition unit_steps (c : Z) : nat :=
  if (c =? 69) || (c =? 101) then 6
  else if (c =? 80) || (c =? 112) then 5
  else if (c =? 84) || (c =? 116) then 4
  else if (c =? 71) || (c =? 103) then 3
  else if (c =? 77) || (c =? 109) then 2
  else if (c =? 75) || (c =? 107) then 1
  else 0.
Fixpoint shift_steps (n : nat) (ull : Z) : Z :=
  match n with
  | O => ull
  | S n => match shift10 ull with None => ULLONG_MAX | Some ull => shift_steps n ull end
  end.
Definition cp_memparse (v : bytes) : Z :=
  match strtoull v 0 with
  | None => 0
  | Some (ull, rest) => shift_steps (match rest with c :: _ => unit_steps c | [] => 0 end) ull
  end.

Definition cp_get_group_kv_long_base (v : bytes) (base : Z) : Z :=
  match strtoull v base with None => 0 | Some (n, _) => n end.
Definition cp_get_group_kv_long (v : bytes) : Z := cp_get_group_kv_long_base v 10.

(** ** Keys and values *)

(** A group's table: a key stands for all spellings of it, so the map is keyed
    by the folded key and keeps the key as it was spelled with the value. *)
Abbreviation kvs := (gmap bytes (bytes * bytes)).

Section Keys.
(** GLib's [g_ascii_strdown]; [g_ascii_strcasecmp] answers 0 on strings that
    it maps to the same string. *)
Variable g_ascii_strdown : bytes → bytes.

(** [!cp_key_cmp(lk, rk)] *)
Definition key_equal (lk rk : bytes) : bool :=
  bool_decide (g_ascii_strdown lk = g_ascii_strdown rk).

Definition cp_get_group_kv_bool (v : bytes) : bool :=
  key_equal v (str "yes") || key_equal v (str "1") ||
  key_equal v (str "true") || key_equal v (str "enable").

Definition KSMBD_CONFIG_OPT_DISABLED : Z := 0.
Definition KSMBD_CONFIG_OPT_ENABLED : Z := 1.
Definition KSMBD_CONFIG_OPT_AUTO : Z := 2.
Definition KSMBD_CONFIG_OPT_MANDATORY : Z := 3.
Definition cp_get_group_kv_config_opt (v : bytes) : Z :=
  if key_equal v (str "enabled") then KSMBD_CONFIG_OPT_ENABLED
  else if key_equal v (str "auto") then KSMBD_CONFIG_OPT_AUTO
  else if key_equal v (str "mandatory") then KSMBD_CONFIG_OPT_MANDATORY
  else KSMBD_CONFIG_OPT_DISABLED.

Definition kv_lookup (kv : kvs) (k : bytes) : option bytes := snd <$> kv !! g_ascii_strdown k.
(** [cp_group_kv_steal]: the value and the table without it. *)
Definition cp_group_kv_steal (kv : kvs) (k : bytes) : option bytes * kvs :=
  (kv_lookup kv k, delete (g_ascii_strdown k) kv).
End Keys.

(** ** Properties *)
Lemma shift10_spec ull :
  0 ≤ ull < 2 ^ 64 →
  shift10 ull = if ull * 1024 <=? ULLONG_MAX then Some (ull * 1024) else None.
Proof.
  intros H. unfold shift10, ULLONG_MAX. change (Z.shiftr (2 ^ 64 - 1) 10) with (2 ^ 54 - 1).
  rewrite shiftl_mul by lia. change (2 ^ 10) with 1024.
  destruct (Z.ltb_spec (2 ^ 54 - 1) ull), (Z.leb_spec (ull * 1024) (2 ^ 64 - 1)); try lia; [done|].
  by rewrite u64_small by lia.
Qed.
Lemma shift_steps_spec n ull :
  0 ≤ ull < 2 ^ 64 →
  shift_steps n ull = Z.min (ull * 1024 ^ Z.of_nat n) ULLONG_MAX.
Proof.
  revert ull. induction n as [|n IH]; intros ull H; cbn [shift_steps].
  { unfold ULLONG_MAX. rewrite Z.pow_0_r. lia. }
  rewrite shift10_spec by done. rewrite Nat2Z.inj_succ, Z.pow_succ_r by lia.
  assert (1 ≤ 1024 ^ Z.of_nat n) by (pose proof (Z.pow_pos_nonneg 1024 (Z.of_nat n)); lia).
  destruct (Z.leb_spec (ull * 1024) ULLONG_MAX) as [Hf|Hf].
  - rewrite IH by (unfold ULLONG_MAX in *; lia). f_equal. lia.
  - rewrite Z.min_r; [done|]. nia.
Qed.
Lemma digits_nonneg base acc v : 0 ≤ acc → 0 < base → 0 ≤ (digits base acc v).1.
Proof.
  revert acc. induction v as [|c v IH]; intros acc Ha Hb; cbn; [done|].
  destruct (_ <? _); [|done]. apply IH; [|done].
  assert (0 ≤ digit c); [|nia]. unfold digit. repeat case_match; zbool; lia.
Qed.
Lemma strtoull_range v base n rest :
  0 ≤ base → strtoull v base = Some (n, rest) → 0 ≤ n < 2 ^ 64.
Proof.
  intros Hbase. unfold strtoull. destruct (strip_sign (skip_spaces v)) as [neg w].
  destruct (detect_base base w) as [base' w']. destruct (has_digit base' w') eqn:Hd; [|done].
  assert (0 < base') as Hpos.
  { unfold has_digit in Hd. destruct w' as [|c w']; [done|]. apply Z.ltb_lt in Hd.
    assert (0 ≤ digit c); [|lia]. unfold digit. repeat case_match; zbool; lia. }
  pose proof (digits_nonneg base' 0 w' ltac:(lia) Hpos) as Hnn.
  destruct (digits base' 0 w') as [m r]. cbn in Hnn.
  destruct (Z.ltb_spec ULLONG_MAX m) as [|Hm]; [done|]. unfold ULLONG_MAX in Hm.
  intros [= <- <-]. destruct neg; [apply u64_range|lia].
Qed.

(** [cp_memparse] multiplies the number by the power of 1024 of
    its unit exactly, and saturates at [ULLONG_MAX] when that overflows. *)
Theorem cp_memparse_saturates v n rest :
  strtoull v 0 = Some (n, rest) →
  cp_memparse v =
    Z.min (n * 1024 ^ Z.of_nat (match rest with c :: _ => unit_steps c | [] => 0%nat end)) ULLONG_MAX.
Proof.
  intros H. unfold cp_memparse. rewrite H. apply shift_steps_spec.
  by apply (strtoull_range v 0 n rest).
Qed.
Lemma cp_memparse_saturates_witness :
  cp_memparse (str "0x10M") = 16777216 ∧ cp_memparse (str "20E") = ULLONG_MAX.
Proof.
  split.
  - rewrite (cp_memparse_saturates (str "0x10M") 16 (str "M")); reflexivity.
  - rewrite (cp_memparse_saturates (str "20E") 20 (str "E")); reflexivity.
Defined.

(** Trimming is idempotent and removes blanks only. *)
Lemma cp_ltrim_spec v : ∃ b, v = b ++ cp_ltrim v ∧ Forall (λ c, is_ascii_space_tab c = true) b ∧
  match cp_ltrim v with c :: _ => is_ascii_space_tab c = false | [] => True end.
Proof.
  induction v as [|c v IH]; cbn; [by exists []|]. destruct (is_ascii_space_tab c) eqn:Hc.
  - destruct IH as (b & Hb & Hf & Hn). exists (c :: b). split; [cbn; by rewrite <-Hb|].
    split; [by constructor|done].
  - exists []. by rewrite Hc.
Qed.
Lemma cp_ltrim_app_blank s : match s with c :: _ => is_ascii_space_tab c = false | [] => True end →
  ∀ b, Forall (λ c, is_ascii_space_tab c = true) b → cp_ltrim (b ++ s) = s.
Proof.
  intros Hs b Hb. induction Hb as [|c b Hc _ IH]; cbn.
  - destruct s; [done|]. cbn. by rewrite Hs.
  - by rewrite Hc.
Qed.
Lemma drop_blanks_app_blank s b :
  match s with c :: _ => is_ascii_space_tab c = false | [] => False end →
  Forall (λ c, is_ascii_space_tab c = true) b → drop_blanks (b ++ s) = s.
Proof.
  intros Hs Hb. induction Hb as [|c b Hc _ IH]; cbn.
  - destruct s as [|x s]; [done|]. cbn. by rewrite Hs.
  - rewrite Hc. destruct (b ++ s) eqn:E; [|done]. by apply app_eq_nil in E as [_ ->].
Qed.
(** A key followed by blanks: the blanks go. *)
Lemma cp_rtrim_app_blank s c b :
  is_ascii_space_tab c = false → Forall (λ c, is_ascii_space_tab c = true) b →
  cp_rtrim ((s ++ [c]) ++ b) = s ++ [c].
Proof.
  intros Hc Hb. unfold cp_rtrim. rewrite reverse_app, drop_blanks_app_blank.
  - apply reverse_involutive.
  - by rewrite reverse_app.
  - by apply Forall_reverse.
Qed.

(** ** Splitting *)
Lemma split_at_app c a b : Forall (λ x, x ≠ c) a → split_at c (a ++ c :: b) = Some (a, b).
Proof.
  induction 1 as [|x a Hx _ IH]; cbn; [by rewrite Z.eqb_refl|].
  by rewrite (proj2 (Z.eqb_neq _ _)), IH.
Qed.
Lemma split_at_Some c s a b : split_at c s = Some (a, b) → s = a ++ c :: b ∧ Forall (λ x, x ≠ c) a.
Proof.
  revert a. induction s as [|x s IH]; intros a; cbn; [done|].
  destruct (Z.eqb_spec x c) as [->|Hx]; [by intros [= <- <-]|].
  destruct (split_at c s) as [[a' b']|]; [|done]. intros [= <- <-].
  destruct (IH a' eq_refl) as [-> Hf]. split; [done|by constructor].
Qed.
Lemma split_at_None c s : split_at c s = None → Forall (λ x, x ≠ c) s.
Proof.
  induction s as [|x s IH]; cbn; [by constructor|].
  destruct (Z.eqb_spec x c) as [->|Hx]; [done|].
  destruct (split_at c s) as [[]|]; [done|]. constructor; auto.
Qed.
Lemma split_at_none c s : Forall (λ x, x ≠ c) s → split_at c s = None.
Proof. induction 1 as [|x s Hx _ IH]; cbn; [done|]. by rewrite (proj2 (Z.eqb_neq _ _)), IH. Qed.
