(* ===== verification/Krb5.v ===== *)
(** * The Kerberos mechanism ([src/tools/management/spnego_krb5.c])

    The two mechanisms of SPNEGO: their set-up with credentials of a keytab, the
    authentication of a client, and their end; with [spnego_init] and
    [spnego_destroy] of [spnego.c].  The functions of the Kerberos library are
    parameters, in the form that MIT Kerberos gives them.  The objects that the
    library or the allocator hands out are tracked by kind: to use or to free
    one that does not live is a fault. *)

From S2P Require Import Prelude Asn1 Spnego ConfText.

(** ** Data *)
Inductive obj :=
  | OCtx | OContext | OKeytab | OCreds | OPrincipal | OAuthCon | OTicket | OKey | ORep | OAuthenticator | OName | OUser | OSess | OBlob.
#[export] Instance obj_eq_dec : EqDecision obj.
Proof. solve_decision. Defined.

(** The objects that live, and the next address *)
Record kheap := mk_kheap { kh_live : gmap Z obj; kh_next : Z }.
(** [struct spnego_krb5_ctx] *)
Record krb5_ctx := mk_krb5_ctx { kx_self : Z; kx_context : Z; kx_keytab : Z; kx_creds : Z }.
(** [struct spnego_mech_ctx]; the operations are known by the mechanism. *)
Record mech_ctx := mk_mech {
  mc_oid : list Z; mc_private : option krb5_ctx; mc_service_name : option bytes; mc_keytab_name : option bytes; mc_ops : bool;
}.
(** What is left to the caller: the texts, with the objects that hold them *)
Record krb5_out := mk_krb5_out { ko_user : bytes; ko_key : bytes; ko_blob : bytes; ko_objects : list (Z * obj) }.
Definition no_mech : mech_ctx := mk_mech [] None None None false.

Definition alloc (o : obj) : prog kheap Z := λ h, Done (kh_next h) (mk_kheap (<[kh_next h := o]> (kh_live h)) (kh_next h + 1)).
Definition use (o : obj) (p : Z) : prog kheap unit := λ h, if decide (kh_live h !! p = Some o) then Done tt h else Fault.
Definition free (o : obj) (p : Z) : prog kheap unit := λ h,
  if decide (kh_live h !! p = Some o) then Done tt (mk_kheap (delete p (kh_live h)) (kh_next h)) else Fault.

(** The Kerberos library: zero or the error; or the error or the result *)
Class Kerberos := {
  krb5_init_context : Z;
  krb5_kt_resolve : option bytes → Z;
  krb5_sname_to_principal : bytes → bytes → Z;
  krb5_get_init_creds_keytab : bytes → bytes → option bytes → Z;
  krb5_unparse_name : Z + bytes;
  krb5_auth_con_init : Z;
  krb5_rd_req : bytes → Z;
  krb5_auth_con_getrecvsubkey : bytes → Z + option bytes;
  krb5_mk_rep : bytes → Z + bytes;
  krb5_auth_con_getauthenticator : bytes → Z;
  krb5_unparse_name_flags : bytes → Z + bytes;
  get_host_name : option bytes;
}.
Definition KRB5_ERR_HOST_REALM_UNKNOWN : Z := -1765328164.

Section Krb5.
Context `{Kerberos}.
Variable g_try_malloc : Z → bool.
Variable sizeof_krb5_ctx : Z.

(** ** Names of services *)
Definition has_dot (b : bytes) : bool := existsb (λ c, c =? 46) b.
Definition fqdn (r : option (bytes * bytes)) : option (bytes * bytes) :=
  match r with Some (s, h) => if has_dot h then r else None | None => None end.
Definition parse_service_full_name (service_full_name : option bytes) : option (bytes * bytes) :=
  fqdn match service_full_name with
       | None => pair (str "cifs") <$> get_host_name
       | Some name =>
           match split_at 47 name with
           | None => pair name <$> get_host_name
           | Some (service, rest) =>
               Some (service, match split_at 64 rest with Some (host, _) => host | None => rest end)
           end
       end.

(** ** Credentials *)

(** The credentials and the keytab, in the context [context] *)
Definition acquire_creds_from_keytab (context : Z) (service_full_name keytab_name : option bytes) : prog kheap (Z * Z) :=
  use OContext context ;;
  if negb (krb5_kt_resolve keytab_name =? 0) then fail (krb5_kt_resolve keytab_name)
  else
    keytab <- alloc OKeytab ;;
    match parse_service_full_name service_full_name with
    | None => free OKeytab keytab ;; fail KRB5_ERR_HOST_REALM_UNKNOWN
    | Some (service, host) =>
        if negb (krb5_sname_to_principal host service =? 0)
        then free OKeytab keytab ;; fail (krb5_sname_to_principal host service)
        else
          sprinc <- alloc OPrincipal ;;
          let r := krb5_get_init_creds_keytab host service keytab_name in
          if negb (r =? 0) then
            (match krb5_unparse_name with
             | inl _ => fault
             | inr _ => name <- alloc OName ;; free OName name
             end) ;;
            free OPrincipal sprinc ;; free OKeytab keytab ;; fail r
          else
            creds <- alloc OCreds ;;
            free OPrincipal sprinc ;;
            ret (creds, keytab)
    end.
Variable krb5_support : bool.
Definition setup_krb5_ctx (m : mech_ctx) : prog kheap mech_ctx :=
  if negb krb5_support || (if mc_private m then true else false) then ret m
  else if negb (g_try_malloc sizeof_krb5_ctx) then fail (- ENOMEM)
  else
    self <- alloc OCtx ;;
    if negb (krb5_init_context =? 0) then free OCtx self ;; fail (- EINVAL)
    else
      context <- alloc OContext ;;
      r <- attempt (acquire_creds_from_keytab context (mc_service_name m) (mc_keytab_name m)) ;;
      match r with
      | inr _ => free OContext context ;; free OCtx self ;; fail (- EINVAL)
      | inl (creds, keytab) =>
          ret (mk_mech (mc_oid m) (Some (mk_krb5_ctx self context keytab creds)) (mc_service_name m) (mc_keytab_name m) (mc_ops m))
      end.
(** [setup_krb5] and [setup_mskrb5] *)
Definition setup (oid : list Z) (m : mech_ctx) : prog kheap mech_ctx :=
  setup_krb5_ctx (mk_mech oid (mc_private m) (mc_service_name m) (mc_keytab_name m) (mc_ops m)).
Definition cleanup_krb5 (m : mech_ctx) : prog kheap mech_ctx :=
  (match mc_private m with
   | None => ret tt
   | Some x => free OCreds (kx_creds x) ;; free OKeytab (kx_keytab x) ;; free OContext (kx_context x) ;; free OCtx (kx_self x)
   end) ;;
  ret (mk_mech (mc_oid m) None None None (mc_ops m)).

(** ** Authentication *)

(** The labels at the end of [handle_krb5_authen] *)
Definition out_free_con_auth (ticket auth_context : Z) : prog kheap unit := free OTicket ticket ;; free OAuthCon auth_context.
Definition out_free_key (key : option Z) (ticket auth_context : Z) : prog kheap unit :=
  (match key with Some k => free OKey k | None => ret tt end) ;; out_free_con_auth ticket auth_context.
Definition out_free_rep (rep : Z) (key : option Z) (ticket auth_context : Z) : prog kheap unit :=
  free ORep rep ;; out_free_key key ticket auth_context.
Definition out_free_client (authenti rep : Z) (key : option Z) (ticket auth_context : Z) : prog kheap unit :=
  free OAuthenticator authenti ;; out_free_rep rep key ticket auth_context.
(** What is made for the caller: names, key and token; the key may be missing. *)
Definition make_output (m : mech_ctx) (client_name ap_rep : bytes) (session_key : option bytes) : prog kheap krb5_out :=
  name <- alloc OName ;;
  if negb (g_try_malloc (Z.of_nat (length client_name) + 1)) then free OName name ;; fail (- ENOMEM)
  else
    user <- alloc OUser ;;
    free OName name ;;
    match session_key with
    | None => fault
    | Some k =>
        if negb (g_try_malloc (Z.of_nat (length k))) then free OUser user ;; fail (- ENOMEM)
        else
          sess <- alloc OSess ;;
          match encode_negTokenTarg g_try_malloc ap_rep (mc_oid m) tt with
          | Fault => fault
          | Err _ _ => free OUser user ;; free OSess sess ;; fail (- EINVAL)
          | Done (blob, _) _ =>
              b <- alloc OBlob ;;
              ret (mk_krb5_out client_name k blob [(user, OUser); (sess, OSess); (b, OBlob)])
          end
    end.
(** A part whose errors go to a label, as its success does *)
Definition finally {T : Type} (m : prog kheap T) (label : prog kheap unit) : prog kheap T :=
  r <- attempt m ;;
  label ;;
  match r with inl a => ret a | inr e => fail e end.
Definition handle_krb5_authen (m : mech_ctx) (in_blob : bytes) : prog kheap krb5_out :=
  match mc_private m with
  | None => fail (- EINVAL)
  | Some x =>
      use OContext (kx_context x) ;;
      if negb (krb5_auth_con_init =? 0) then fail (- EINVAL)
      else
        auth_context <- alloc OAuthCon ;;
        use OCreds (kx_creds x) ;; use OKeytab (kx_keytab x) ;;
        if negb (krb5_rd_req in_blob =? 0) then
          match krb5_unparse_name with
          | inl _ => fault
          | inr _ => name <- alloc OName ;; free OAuthCon auth_context ;; free OName name ;; fail (- EINVAL)
          end
        else
          ticket <- alloc OTicket ;;
          match krb5_auth_con_getrecvsubkey in_blob with
          | inl _ => out_free_con_auth ticket auth_context ;; fail (- EINVAL)
          | inr session_key =>
              key <- (match session_key with Some _ => k <- alloc OKey ;; ret (Some k) | None => ret None end) ;;
              match krb5_mk_rep in_blob with
              | inl _ => out_free_key key ticket auth_context ;; fail (- EINVAL)
              | inr ap_rep =>
                  rep <- alloc ORep ;;
                  if negb (krb5_auth_con_getauthenticator in_blob =? 0)
                  then out_free_rep rep key ticket auth_context ;; fail (- EINVAL)
                  else
                    authenti <- alloc OAuthenticator ;;
                    finally
                      (match krb5_unparse_name_flags in_blob with
                       | inl _ => fail (- EINVAL)
                       | inr client_name => make_output m client_name ap_rep session_key
                       end)
                      (out_free_client authenti rep key ticket auth_context)
              end
          end
  end.

(** ** The mechanisms *)
Record mechs := mk_mechs { ms_mskrb5 : mech_ctx; ms_krb5 : mech_ctx }.
Definition set_params (service keytab : option bytes) (m : mech_ctx) : mech_ctx :=
  mk_mech (mc_oid m) (mc_private m) (if mc_service_name m then mc_service_name m else service)
    (if mc_keytab_name m then mc_keytab_name m else keytab) true.
(** [krb5_service_name] and [krb5_keytab_file] of the configuration; an error
    of a set-up ends the program. *)
Definition spnego_init (service keytab : option bytes) (ms : mechs) : prog kheap mechs :=
  a <- setup MSKRB5_OID (set_params service keytab (ms_mskrb5 ms)) ;;
  b <- setup KRB5_OID (set_params service keytab (ms_krb5 ms)) ;;
  ret (mk_mechs a b).
Definition spnego_destroy (ms : mechs) : prog kheap mechs :=
  a <- (if mc_ops (ms_mskrb5 ms) then cleanup_krb5 (ms_mskrb5 ms) else ret (ms_mskrb5 ms)) ;;
  b <- (if mc_ops (ms_krb5 ms) then cleanup_krb5 (ms_krb5 ms) else ret (ms_krb5 ms)) ;;
  ret (mk_mechs a b).
Definition get_mech (mech_type : Z) (ms : mechs) : option mech_ctx :=
  if SPNEGO_MAX_MECHS <=? mech_type then None
  else if mech_type =? SPNEGO_MECH_MSKRB5 then Some (ms_mskrb5 ms) else Some (ms_krb5 ms).
(** [handle_authen] of the mechanisms, for [spnego_handle_authen_request] *)
Definition handle_authen (ms : mechs) (h : kheap) (mech_type : Z) (mech_token : bytes) : option krb5_out :=
  m ← get_mech mech_type ms;
  match handle_krb5_authen m mech_token h with Done out _ => Some out | _ => None end.
End Krb5.

(** ** Accounting for objects

    [owns l L h]: beside the objects of [L], exactly those of [l] live. *)
Record owns (l : list (Z * obj)) (L : gmap Z obj) (h : kheap) : Prop := {
  ow_live : kh_live h = list_to_map l ∪ L;
  ow_nodup : NoDup l.*1;
  ow_new : Forall (λ p, L !! p = None) l.*1;
  ow_fresh : ∀ p, is_Some (kh_live h !! p) → p < kh_next h;
}.
#[export] Instance owns_proper : Proper ((≡ₚ) ==> (=) ==> (=) ==> iff) owns.
Proof.
  assert (∀ l l' L h, l ≡ₚ l' → owns l L h → owns l' L h) as Hp.
  { intros l l' L h Hl [H1 H2 H3 H4]. split; [|by rewrite <-Hl|by rewrite <-Hl|done].
    rewrite H1. f_equal. by apply list_to_map_proper. }
  intros l l' Hl L ? <- h ? <-. split; by apply Hp.
Qed.
Lemma owns_all L h : kh_live h = L → (∀ p, is_Some (L !! p) → p < kh_next h) → owns [] L h.
Proof. intros <- Hf. split; [by rewrite list_to_map_nil, map_empty_union|constructor|constructor|done]. Qed.
Lemma owns_none L h : owns [] L h → kh_live h = L.
Proof. intros [-> _ _ _]. by rewrite list_to_map_nil, map_empty_union. Qed.
Lemma alloc_wp o l L h : owns l L h → wp (alloc o) h (λ p h', owns ((p, o) :: l) L h') (λ _ _, False).
Proof.
  intros [H1 H2 H3 H4]. unfold wp, alloc. set (p := kh_next h).
  assert (kh_live h !! p = None) as Hn.
  { destruct (kh_live h !! p) eqn:E; [|done]. specialize (H4 p (ltac:(by eexists))). unfold p in H4. lia. }
  rewrite H1, lookup_union_None in Hn. destruct Hn as [Hnl HnL]. split.
  - cbn. rewrite H1. by rewrite insert_union_l.
  - cbn. constructor; [|done]. by apply not_elem_of_list_to_map.
  - cbn. by constructor.
  - cbn. intros q Hq. destruct (decide (q = p)) as [->|]; [unfold p; lia|]. rewrite lookup_insert_ne in Hq by done.
    apply H4 in Hq. lia.
Qed.
Lemma free_wp o p l L h : owns ((p, o) :: l) L h → wp (free o p) h (λ _ h', owns l L h') (λ _ _, False).
Proof.
  intros [H1 H2 H3 H4]. unfold wp, free. cbn in H2, H3. apply NoDup_cons in H2 as [Hni H2]. apply Forall_cons in H3 as [Hp H3].
  rewrite decide_True by (rewrite H1; cbn; by rewrite <-insert_union_l, lookup_insert_eq). split; [|done|done|].
  - cbn. rewrite H1. cbn. rewrite <-insert_union_l, delete_insert_id; [done|]. apply lookup_union_None. split; [|done].
    by apply not_elem_of_list_to_map_1.
  - cbn. intros q [o' [_ Hq]%lookup_delete_Some]. apply H4. by exists o'.
Qed.
Lemma use_wp o p l L h : owns l L h → L !! p = Some o → wp (use o p) h (λ _ h', h' = h) (λ _ _, False).
Proof.
  intros [H1 _ H3 _] Hp. unfold wp, use. rewrite decide_True; [done|]. rewrite H1, lookup_union_r; [done|].
  apply not_elem_of_list_to_map_1. intros Hin. rewrite Forall_forall in H3. rewrite (H3 p Hin) in Hp. done.
Qed.
(** Allocate an object and call it [p]; free one from anywhere in the list.  The
    heap is [h] and what is known of it [Ho]. *)
Ltac alloc_object p :=
  match goal with
  | HO : owns ?l ?L ?hh |- wp (alloc ?o) ?hh _ _ =>
      eapply (wp_mono _ _ (λ a h', owns ((a, o) :: l) L h') _ (λ _ _, False));
      [by apply alloc_wp|cbv beta; clear HO hh; intros p h Ho|done]
  end.
Lemma free_nth n o p l L h :
  l !! n = Some (p, o) → owns l L h → wp (free o p) h (λ _ h', owns (take n l ++ drop (S n) l) L h') (λ _ _, False).
Proof.
  intros Hn Ho. apply free_wp. rewrite Permutation_middle. by rewrite (take_drop_middle l n (p, o) Hn).
Qed.
Ltac free_at HO n :=
  match type of HO with
  | owns ?l ?L ?hh =>
      eapply wp_mono; [eapply (free_nth n); [|exact HO]; reflexivity|cbn [take drop app]; clear HO hh; intros ? h Ho|done]
  end.
Ltac free_object :=
  match goal with
  | HO : owns ?l ?L ?hh |- wp (free ?o ?p) ?hh _ _ =>
      first [free_at HO 0%nat | free_at HO 1%nat | free_at HO 2%nat | free_at HO 3%nat | free_at HO 4%nat | free_at HO 5%nat | free_at HO 6%nat | free_at HO 7%nat]
  end.

(** *** The encoder of the answer *)
Lemma headers_encode_no_fault hs len s : wp (headers_encode hs len) s (λ _ _, True) (λ _ _, True).
Proof.
  revert len s. induction hs as [|[[cls con] tag] hs IH]; intros len s; cbn [headers_encode]; [by wp_step|].
  wp_step. eapply (wp_mono _ _ (λ _ _, True) _ (λ _ _, True)); [|cbv beta|done].
  - unfold asn1_header_encode. repeat (case_match; try by wp_step).
  - intros [b len'] s' _. wp_step. eapply wp_mono; [apply IH| |done]. intros [bs len2] s2 _. by wp_step.
Qed.
Lemma oid_encode_no_fault alloc oid s : (2 ≤ length oid)%nat → wp (asn1_oid_encode alloc oid) s (λ _ _, True) (λ _ _, True).
Proof. intros Hl. unfold asn1_oid_encode. destruct (alloc _); [|by wp_step]. destruct oid as [|a [|b oid]]; cbn in Hl; [lia..|]. by wp_step. Qed.
Lemma encode_no_fault alloc blob oid s : (2 ≤ length oid)%nat → wp (encode_negTokenTarg alloc blob oid) s (λ _ _, True) (λ _ _, True).
Proof.
  intros Hl. unfold encode_negTokenTarg. cbv zeta.
  assert (∀ T (m : prog unit T) (k : T → prog unit (bytes * Z)) s, wp m s (λ _ _, True) (λ _ _, True) →
    (∀ a s', wp (k a) s' (λ _ _, True) (λ _ _, True)) → wp (bind m k) s (λ _ _, True) (λ _ _, True)) as Hb.
  { intros T m k s0 Hm Hk. wp_step. eapply wp_mono; [exact Hm| |done]. intros a s' _. apply Hk. }
  apply Hb; [apply wp_or_return; eapply wp_mono; [apply oid_encode_no_fault; first [done|cbn; lia]|done|done]|]. intros sup s1.
  apply Hb; [apply wp_or_return; eapply wp_mono; [apply oid_encode_no_fault; first [done|cbn; lia]|done|done]|]. intros krb s2.
  destruct (negb _); [by wp_step|]. repeat (apply Hb; [apply headers_encode_no_fault|intros [? ?] ?]). by wp_step.
Qed.

Section Laws.
Context `{Kerberos}.
Variable g_try_malloc : Z → bool.
Variable sizeof_krb5_ctx : Z.
Variable krb5_support : bool.
(** *** Authentication *)

(** What a mechanism holds lives. *)
Definition mech_ok (L : gmap Z obj) (m : mech_ctx) : Prop :=
  (2 ≤ length (mc_oid m))%nat ∧
  ∀ x, mc_private m = Some x →
    L !! kx_self x = Some OCtx ∧ L !! kx_context x = Some OContext ∧ L !! kx_keytab x = Some OKeytab ∧ L !! kx_creds x = Some OCreds.
(** The errors of an authentication *)
Definition refused_with (l : list (Z * obj)) (L : gmap Z obj) (e : Z) (h : kheap) : Prop := owns l L h ∧ (e = - EINVAL ∨ e = - ENOMEM).
Definition accepted (m : mech_ctx) (client_name ap_rep k : bytes) (out : krb5_out) : Prop :=
  ko_user out = client_name ∧ ko_key out = k ∧ (ko_objects out).*2 = [OUser; OSess; OBlob] ∧
  ∃ n, encode_negTokenTarg g_try_malloc ap_rep (mc_oid m) tt = Done (ko_blob out, n) tt.
Lemma make_output_wp m client_name ap_rep k l L h :
  mech_ok L m → owns l L h →
  wp (make_output g_try_malloc m client_name ap_rep (Some k)) h
    (λ out h', accepted m client_name ap_rep k out ∧ owns (ko_objects out ++ l) L h') (refused_with l L).
Proof.
  intros Hm Ho. unfold make_output. wp_step. alloc_object name.
  destruct (g_try_malloc _); cbn [negb]; [|wp_step; free_object; wp_step; split; [exact Ho|by right]].
  wp_step. alloc_object user. wp_step. free_object.
  destruct (g_try_malloc (Z.of_nat (length k))); cbn [negb]; [|wp_step; free_object; wp_step; split; [exact Ho|by right]].
  wp_step. alloc_object sess.
  pose proof (encode_no_fault g_try_malloc ap_rep (mc_oid m) tt (proj1 Hm)) as He. unfold wp in He.
  destruct (encode_negTokenTarg _ _ _ _) as [[blob n] []|e []|] eqn:Ee; [| |done].
  - wp_step. alloc_object b. wp_step. split; [split_and!; [done|done|done|by exists n]|].
    cbn [ko_objects]. eapply owns_proper; [|reflexivity|reflexivity|exact Ho]. cbn [app]. solve_Permutation.
  - wp_step. free_object. wp_step. free_object. wp_step. split; [exact Ho|by left].
Qed.
Abbreviation authenticate := (handle_krb5_authen g_try_malloc).
(** The client that the ticket and the authenticator are for, with a key *)
Definition client_of (in_blob client_name ap_rep k : bytes) : Prop :=
  krb5_rd_req in_blob = 0 ∧ krb5_auth_con_getrecvsubkey in_blob = inr (Some k) ∧ krb5_mk_rep in_blob = inr ap_rep ∧
  krb5_unparse_name_flags in_blob = inr client_name.
Lemma handle_krb5_authen_wp m in_blob L h :
  mech_ok L m → owns [] L h →
  (krb5_rd_req in_blob ≠ 0 → ∃ n, krb5_unparse_name = inr n) → (krb5_rd_req in_blob = 0 → krb5_auth_con_getrecvsubkey in_blob ≠ inr None) →
  wp (authenticate m in_blob) h
    (λ out h', owns (ko_objects out) L h' ∧
       ∃ client_name ap_rep k, client_of in_blob client_name ap_rep k ∧ accepted m client_name ap_rep k out)
    (refused_with [] L).
Proof.
  intros Hm Ho Hname Hkey. unfold handle_krb5_authen. destruct (mc_private m) as [x|] eqn:Ex; [|wp_step; split; [done|by left]].
  destruct (proj2 Hm x Ex) as (_ & Hc & Hkt & Hcr).
  wp_step. eapply wp_mono; [by apply (use_wp OContext _ [] L)| |done]. intros ? ? ->.
  destruct (_ =? 0); cbn [negb]; [|wp_step; split; [done|by left]]. wp_step. alloc_object ac.
  wp_step. eapply wp_mono; [by eapply (use_wp OCreds _ _ L)| |done]. intros ? ? ->.
  wp_step. eapply wp_mono; [by eapply (use_wp OKeytab _ _ L)| |done]. intros ? ? ->.
  destruct (Z.eqb_spec (krb5_rd_req in_blob) 0) as [Erd|Erd]; cbn [negb].
  2:{ destruct (Hname Erd) as [n ->]. wp_step. alloc_object name. wp_step. free_object. wp_step. free_object. wp_step. split; [done|by left]. }
  specialize (Hkey Erd).
  wp_step. alloc_object tk. destruct (krb5_auth_con_getrecvsubkey in_blob) as [e|[k|]] eqn:Ek; [| |done].
  { wp_step. unfold out_free_con_auth. wp_step. free_object. free_object. wp_step. split; [done|by left]. }
  wp_step. wp_step. alloc_object key. wp_step.
  destruct (krb5_mk_rep in_blob) as [e|ap_rep] eqn:Er.
  { wp_step. unfold out_free_key, out_free_con_auth. wp_step. free_object. wp_step. free_object. free_object. wp_step. split; [done|by left]. }
  wp_step. alloc_object rep. destruct (_ =? 0); cbn [negb].
  2:{ wp_step. unfold out_free_rep, out_free_key, out_free_con_auth. wp_step. free_object. wp_step. free_object. wp_step. free_object. free_object.
      wp_step. split; [done|by left]. }
  wp_step. alloc_object au. unfold finally. wp_step. apply wp_attempt.
  assert (∀ l h, owns ((au, OAuthenticator) :: (rep, ORep) :: (key, OKey) :: (tk, OTicket) :: (ac, OAuthCon) :: l) L h →
    wp (out_free_client au rep (Some key) tk ac) h (λ _ h', owns l L h') (λ _ _, False)) as Hend.
  { clear. intros l h Ho. unfold out_free_client, out_free_rep, out_free_key, out_free_con_auth.
    wp_step. free_object. wp_step. free_object. wp_step. free_object. wp_step. free_object. free_object. exact Ho. }
  eapply (wp_mono _ _ (λ out h', owns (ko_objects out ++ [(au, OAuthenticator); (rep, ORep); (key, OKey); (tk, OTicket); (ac, OAuthCon)]) L h' ∧
      ∃ client_name, krb5_unparse_name_flags in_blob = inr client_name ∧ accepted m client_name ap_rep k out)
    _ (refused_with [(au, OAuthenticator); (rep, ORep); (key, OKey); (tk, OTicket); (ac, OAuthCon)] L)); [|cbv beta|].
  - destruct (krb5_unparse_name_flags in_blob) as [e|client_name] eqn:Eu; [wp_step; split; [done|by left]|].
    eapply wp_mono; [by apply make_output_wp| |done]. intros out h' [Ha Ho']. split; [done|]. by exists client_name.
  - clear h Ho. intros out h [Ho (client_name & Eu & Ha)]. wp_step. rewrite Permutation_app_comm in Ho.
    eapply wp_mono; [apply (Hend (ko_objects out)); exact Ho| |done]. clear h Ho. intros ? h Ho. wp_step. split; [done|]. by exists client_name, ap_rep, k.
  - clear h Ho. intros e h [Ho He]. wp_step. eapply wp_mono; [by apply (Hend [])| |done]. clear h Ho. intros ? h Ho. wp_step. by split.
Qed.

(** *** The two faults *)
Lemma use_eq o p h : kh_live h !! p = Some o → use o p h = Done tt h.
Proof. intros E. unfold use. by rewrite decide_True. Qed.
Lemma make_output_keyless m client_name ap_rep h :
  (∀ n, g_try_malloc n = true) → make_output g_try_malloc m client_name ap_rep None h = Fault.
Proof.
  intros Hg. unfold make_output, bind at 1, alloc at 1. rewrite Hg. cbn [negb]. unfold bind, alloc, free. by destruct (decide _).
Qed.
Lemma authen_faults m in_blob h x :
  mc_private m = Some x → mech_ok (kh_live h) m → (∀ p, is_Some (kh_live h !! p) → p < kh_next h) → krb5_auth_con_init = 0 →
  (krb5_rd_req in_blob ≠ 0 → (∃ e, krb5_unparse_name = inl e) → authenticate m in_blob h = Fault) ∧
  (krb5_rd_req in_blob = 0 → krb5_auth_con_getrecvsubkey in_blob = inr None → (∃ ap_rep, krb5_mk_rep in_blob = inr ap_rep) →
   krb5_auth_con_getauthenticator in_blob = 0 → (∃ client_name, krb5_unparse_name_flags in_blob = inr client_name) →
   (∀ n, g_try_malloc n = true) → authenticate m in_blob h = Fault).
Proof.
  intros Hx Hm Hf Hi. destruct (proj2 Hm x Hx) as (_ & Hc & Hkt & Hcr).
  assert (∀ p o o', kh_live h !! p = Some o → <[kh_next h := o']> (kh_live h) !! p = Some o) as Hne.
  { intros p o o' Hp. rewrite lookup_insert_ne; [done|]. specialize (Hf p ltac:(by eexists)). lia. }
  assert (∀ T (k : Z → prog kheap T),
    (use OContext (kx_context x) ;; if negb (krb5_auth_con_init =? 0) then fail (- EINVAL)
     else ac <- alloc OAuthCon ;; use OCreds (kx_creds x) ;; use OKeytab (kx_keytab x) ;; k ac) h =
    k (kh_next h) (mk_kheap (<[kh_next h := OAuthCon]> (kh_live h)) (kh_next h + 1))) as Hstart.
  { intros T k. unfold bind at 1. rewrite (use_eq OContext), Hi by done. cbn [negb Z.eqb]. unfold bind, alloc.
    rewrite (use_eq OCreds) by (cbn; by apply Hne). by rewrite (use_eq OKeytab) by (cbn; by apply Hne). }
  unfold handle_krb5_authen. rewrite Hx, Hstart. split.
  - intros Hrd [e Hu]. by rewrite (proj2 (Z.eqb_neq _ _) Hrd), Hu.
  - intros Hrd Hk [ap_rep Hr] Ha [client_name Hn] Hg. rewrite Hrd, Hk, Hr, Ha, Hn. cbn [negb Z.eqb].
    unfold finally, bind, alloc, ret, attempt. by rewrite make_output_keyless.
Qed.

(** The client's token is refused, and the principal that is looked for cannot
    be printed. *)
Definition unprintable (in_blob : bytes) : Prop := krb5_rd_req in_blob ≠ 0 ∧ ∃ e, krb5_unparse_name = inl e.
(** The client has sent no subkey. *)
Definition keyless (in_blob : bytes) : Prop := krb5_rd_req in_blob = 0 ∧ krb5_auth_con_getrecvsubkey in_blob = inr None.


(** *** Set-up and end

    where the name of a principal that is in use can be printed. *)
Hypothesis unparse_ok : ∃ n, krb5_unparse_name = inr n.
Definition objects_of (m : mech_ctx) : list (Z * obj) :=
  match mc_private m with
  | None => []
  | Some x => [(kx_creds x, OCreds); (kx_keytab x, OKeytab); (kx_context x, OContext); (kx_self x, OCtx)]
  end.
Lemma acquire_wp context service keytab l L h :
  owns ((context, OContext) :: l) L h →
  wp (acquire_creds_from_keytab context service keytab) h
    (λ r h', owns ((r.1, OCreds) :: (r.2, OKeytab) :: (context, OContext) :: l) L h')
    (λ _ h', owns ((context, OContext) :: l) L h').
Proof.
  intros Ho. unfold acquire_creds_from_keytab. wp_step. eapply (wp_mono _ _ (λ _ h', h' = h) _ (λ _ _, False)); [|cbv beta|done].
  { unfold wp, use. rewrite decide_True; [done|]. rewrite (ow_live _ _ _ Ho). cbn. by rewrite <-insert_union_l, lookup_insert_eq. }
  intros ? ? ->. destruct (_ =? 0); cbn [negb]; [|by wp_step]. wp_step. alloc_object kt.
  destruct (parse_service_full_name service) as [[sv host]|]; [|wp_step; free_object; by wp_step].
  destruct (_ =? 0); cbn [negb]; [|wp_step; free_object; by wp_step]. wp_step. alloc_object pr. cbv zeta.
  destruct (_ =? 0); cbn [negb].
  - wp_step. alloc_object cr. wp_step. free_object. by wp_step.
  - destruct unparse_ok as [n ->]. wp_step. wp_step. alloc_object name. free_object. wp_step. free_object. wp_step. free_object. by wp_step.
Qed.
Lemma setup_wp oid m l L h :
  mc_private m = None → owns l L h →
  wp (setup g_try_malloc sizeof_krb5_ctx krb5_support oid m) h
    (λ m' h', owns (objects_of m' ++ l) L h' ∧ mc_oid m' = oid ∧ mc_ops m' = mc_ops m ∧ (is_Some (mc_private m') ↔ krb5_support = true))
    (λ e h', owns l L h' ∧ (e = - EINVAL ∨ e = - ENOMEM)).
Proof.
  intros Hn Ho. unfold setup, setup_krb5_ctx. cbn [mc_private mc_service_name mc_keytab_name mc_oid mc_ops]. rewrite Hn, orb_false_r.
  destruct krb5_support; cbn [negb]; [|wp_step; split_and!; [done..|split; [by intros []|done]]].
  destruct (g_try_malloc _); cbn [negb]; [|wp_step; split; [done|by right]]. wp_step. alloc_object self.
  destruct (_ =? 0); cbn [negb]; [|wp_step; free_object; wp_step; split; [done|by left]].
  wp_step. alloc_object cx. wp_step. apply wp_attempt. eapply wp_mono; [by apply acquire_wp| |]; cbv beta; clear h Ho.
  - intros [cr kt] h Ho. wp_step. split_and!; [done..|]. split; [done|by eexists].
  - intros e h Ho. wp_step. free_object. wp_step. free_object. wp_step. split; [done|by left].
Qed.
Lemma cleanup_wp m l L h :
  owns (objects_of m ++ l) L h →
  wp (cleanup_krb5 m) h (λ m' h', owns l L h' ∧ mc_private m' = None) (λ _ _, False).
Proof.
  intros Ho. unfold cleanup_krb5, objects_of in *. destruct (mc_private m) as [x|].
  - cbn [app] in Ho. wp_step. wp_step. free_object. wp_step. free_object. wp_step. free_object. free_object. by wp_step.
  - wp_step. wp_step. by wp_step.
Qed.
(** The objects of two mechanisms live side by side. *)
Lemma owned_mech_ok l k L h m :
  owns (l ++ objects_of m ++ k) L h → (2 ≤ length (mc_oid m))%nat → mech_ok (kh_live h) m.
Proof.
  intros [H1 H2 _ _] Hl. split; [done|]. intros x Ex. rewrite H1.
  assert (∀ p o, (p, o) ∈ objects_of m → (list_to_map (l ++ objects_of m ++ k) ∪ L : gmap Z obj) !! p = Some o) as Hin.
  { intros p o Hp. apply lookup_union_Some_l, elem_of_list_to_map_1; [done|]. apply elem_of_app. right. apply elem_of_app. by left. }
  assert (objects_of m = [(kx_creds x, OCreds); (kx_keytab x, OKeytab); (kx_context x, OContext); (kx_self x, OCtx)]) as Eo
    by (unfold objects_of; by rewrite Ex).
  split_and!; apply Hin; rewrite Eo; set_solver.
Qed.

(** The two mechanisms, from their set-up to their end: both can be used when
    Kerberos is switched on; and the end frees all that the set-up made. *)
Theorem mechanisms_balanced service keytab h :
  (∀ p, is_Some (kh_live h !! p) → p < kh_next h) →
  wp (spnego_init g_try_malloc sizeof_krb5_ctx krb5_support service keytab (mk_mechs no_mech no_mech)) h
    (λ ms h', mech_ok (kh_live h') (ms_mskrb5 ms) ∧ mech_ok (kh_live h') (ms_krb5 ms) ∧
       (is_Some (mc_private (ms_mskrb5 ms)) ↔ krb5_support = true) ∧ (is_Some (mc_private (ms_krb5 ms)) ↔ krb5_support = true) ∧
       wp (spnego_destroy ms) h' (λ ms' h2, kh_live h2 = kh_live h ∧ mc_private (ms_mskrb5 ms') = None ∧ mc_private (ms_krb5 ms') = None)
         (λ _ _, False))
    (λ e _, e = - EINVAL ∨ e = - ENOMEM).
Proof.
  intros Hf. pose proof (owns_all _ h eq_refl Hf) as Ho. set (L := kh_live h) in *. clearbody L. unfold spnego_init.
  wp_step. eapply wp_mono; [by apply setup_wp| |by intros e h' []]. clear h Ho Hf. intros a h (Ho & Eoa & Eopa & Hpa).
  wp_step. eapply wp_mono; [by apply setup_wp| |by intros e h' []]. clear h Ho. intros b h (Ho & Eob & Eopb & Hpb).
  wp_step. cbn [ms_mskrb5 ms_krb5]. rewrite app_nil_r in Ho. split_and!; [| |done|done|].
  - apply (owned_mech_ok (objects_of b) [] L); [by rewrite app_nil_r|]. rewrite Eoa. cbn. lia.
  - apply (owned_mech_ok [] (objects_of a) L); [done|]. rewrite Eob. cbn. lia.
  - unfold spnego_destroy. cbn [ms_mskrb5 ms_krb5]. rewrite Eopa, Eopb. cbn [mc_ops set_params no_mech]. rewrite Permutation_app_comm in Ho.
    wp_step. eapply wp_mono; [by apply cleanup_wp| |done]. clear h Ho. intros a' h [Ho Ha']. rewrite <-(app_nil_r (objects_of b)) in Ho.
    wp_step. eapply wp_mono; [by apply cleanup_wp| |done]. clear h Ho. intros b' h [Ho Hb']. wp_step. split_and!; [by apply owns_none|done|done].
Qed.
End Laws.

(** The name of a service, with a realm or without, is taken apart as it was put
    together, when its host has a domain. *)
Lemma service_name_roundtrip `{Kerberos} service host realm :
  Forall (λ c, c ≠ 47) service → Forall (λ c, c ≠ 64) host → has_dot host = true →
  parse_service_full_name (Some (service ++ 47 :: host ++ 64 :: realm)) = Some (service, host) ∧
  parse_service_full_name (Some (service ++ 47 :: host)) = Some (service, host).
Proof.
  intros Hs Hh Hd. unfold parse_service_full_name. rewrite !split_at_app by done. unfold fqdn. split.
  - by rewrite Hd.
  - assert (split_at 64 host = None) as ->; [|by rewrite Hd]. clear Hd. induction Hh as [|c host Hc _ IH]; [done|]. cbn.
    rewrite IH. by destruct (Z.eqb_spec c 64).
Qed.

(** ** Examples *)
Definition toy_kerberos (subkey : option bytes) : Kerberos := {|
  krb5_init_context := 0; krb5_kt_resolve _ := 0; krb5_sname_to_principal _ _ := 0; krb5_get_init_creds_keytab _ _ _ := 0;
  krb5_unparse_name := inr (str "cifs/files.example.org"); krb5_auth_con_init := 0; krb5_rd_req _ := 0;
  krb5_auth_con_getrecvsubkey _ := inr subkey; krb5_mk_rep _ := inr [1; 2; 3]; krb5_auth_con_getauthenticator _ := 0;
  krb5_unparse_name_flags _ := inr (str "alice"); get_host_name := Some (str "files.example.org");
|}.
Definition toy_heap : kheap := mk_kheap (list_to_map [(1, OCtx); (2, OContext); (3, OKeytab); (4, OCreds)]) 5.
Definition toy_mech : mech_ctx := mk_mech KRB5_OID (Some (mk_krb5_ctx 1 2 3 4)) None None true.
Lemma toy_heap_fresh p : is_Some (kh_live toy_heap !! p) → p < kh_next toy_heap.
Proof.
  intros [o Ho]. change (kh_live toy_heap) with (list_to_map [(1, OCtx); (2, OContext); (3, OKeytab); (4, OCreds)] : gmap Z obj) in Ho.
  apply elem_of_list_to_map_2 in Ho. cbn [kh_next toy_heap]. set_unfold. destruct_or?; simplify_eq; lia.
Qed.
(** The library answers without a key when the client has sent none. *)
Theorem no_subkey_faults : handle_krb5_authen (H:=toy_kerberos None) (λ _, true) toy_mech [0] toy_heap = Fault.
Proof. vm_compute. reflexivity. Qed.
