(* ===== verification/Logging.v ===== *)
(** * Messages of the programs ([src/tools/tools.c], [src/include/tools.h])

    Every program reports through [pr_err], [pr_info] and [pr_debug], which put
    the name of the tool, the process and the level in front of a message.  It
    goes to the terminal, to the system log, or, stripped of that prefix and of
    the colours, into a line with a JSON object. *)

From S2P Require Import Prelude ConfText.

Definition PR_ERROR : Z := 0.
Definition PR_INFO : Z := 1.
Definition PR_DEBUG : Z := 2.
Definition ESC : Z := 27.
Definition quote : Z := 34.
Definition backslash : Z := 92.
(** [sizeof(buf)] and [sizeof(escaped)] of [__pr_log_json] *)
Definition buf_size : Z := 1024.
Definition escaped_size : Z := 2048.

(** ** The JSON text *)
Definition json_level_str (level : Z) : bytes :=
  if level =? PR_ERROR then str "error"
  else if level =? PR_INFO then str "info"
  else if level =? PR_DEBUG then str "debug"
  else str "error".
(** [dst] is what was stored so far, [di] octets; [pair] stores a backslash and
    [c], or stops behind the backslash. *)
Fixpoint json_escape_loop (dst_sz : Z) (src dst : bytes) : bytes :=
  match src with
  | [] => dst
  | c :: src =>
      if negb (Z.of_nat (length dst) + 2 <? dst_sz) then dst
      else
        let pair c' :=
          if dst_sz <=? Z.of_nat (length dst) + 1 + 1 then dst ++ [backslash]
          else json_escape_loop dst_sz src (dst ++ [backslash; c']) in
        if (c =? quote) || (c =? backslash) then pair c
        else if c =? 10 then pair 110
        else if c =? 9 then pair 116
        else if 0x20 <=? c then json_escape_loop dst_sz src (dst ++ [c])
        else json_escape_loop dst_sz src dst
  end.
Definition json_escape_string (src : bytes) (dst_sz : Z) : bytes := json_escape_loop dst_sz src [].

(** The loop over the message, with the one over an escape sequence *)
Fixpoint strip_ansi (escape : bool) (src : bytes) : bytes :=
  match src with
  | [] => []
  | c :: src =>
      if escape then strip_ansi (negb (c =? 109)) src
      else if c =? ESC then strip_ansi true src
      else c :: strip_ansi false src
  end.
Fixpoint skip_colons (s : bytes) : bytes :=
  match s with c :: s' => if (c =? 58) || (c =? 32) then skip_colons s' else s | [] => [] end.
Definition skip_tag (s : bytes) : bytes :=
  if bool_decide (take 7 s = str "ERROR: ") then drop 7 s
  else if bool_decide (take 6 s = str "INFO: ") then drop 6 s
  else if bool_decide (take 7 s = str "DEBUG: ") then drop 7 s
  else s.
Definition strip_prefix (msg : bytes) : bytes :=
  match msg with
  | c :: _ =>
      if c =? 91 then match split_at 93 msg with Some (_, rest) => skip_tag (skip_colons rest) | None => msg end
      else msg
  | [] => msg
  end.
Definition is_newline (c : Z) : bool := (c =? 10) || (c =? 13).
Fixpoint drop_newlines (r : bytes) : bytes :=
  match r with c :: r' => if is_newline c then drop_newlines r' else r | [] => [] end.
Definition rstrip (msg : bytes) : bytes := reverse (drop_newlines (reverse msg)).
Definition strip_log_prefix (msg : bytes) : bytes := rstrip (strip_prefix (strip_ansi false msg)).

(** ** Loggers *)
Inductive logger := PR_LOGGER_STDIO | PR_LOGGER_SYSLOG | PR_LOGGER_JSON.
Record log_state := mk_log { lg_level : Z; lg_logger : logger; lg_open : bool }.
Inductive log_output :=
  | Printed (text : bytes)
  | Logged (priority : Z) (text : bytes).
Definition LOG_ERR : Z := 3.
Definition LOG_INFO : Z := 6.
Definition LOG_DEBUG : Z := 7.
Definition syslog_level (level : Z) : Z :=
  if level =? PR_ERROR then LOG_ERR
  else if level =? PR_INFO then LOG_INFO
  else if level =? PR_DEBUG then LOG_DEBUG
  else LOG_ERR.
(** [vsnprintf(buf, sizeof(buf), ...)] of a text that is formatted already *)
Definition in_buf (text : bytes) : bytes := take (Z.to_nat (buf_size - 1)) text.
(** [%03ld] of a number below a thousand *)
Definition milliseconds (n : Z) : bytes := [48 + n / 100; 48 + n / 10 mod 10; 48 + n mod 10].
Definition json_record (sec nsec level : Z) (escaped : bytes) : bytes :=
  str "{" ++ [quote] ++ str "ts" ++ [quote] ++ str ":" ++ decimal 19 sec ++ str "." ++ milliseconds (nsec / 1000000) ++
  str "," ++ [quote] ++ str "level" ++ [quote] ++ str ":" ++ [quote] ++ json_level_str level ++ [quote] ++
  str "," ++ [quote] ++ str "msg" ++ [quote] ++ str ":" ++ [quote] ++ escaped ++ [quote] ++ str "}" ++ [10].
Definition __pr_log_stdio (text : bytes) : log_output := Printed (in_buf text).
Definition __pr_log_syslog (level : Z) (text : bytes) : log_output := Logged (syslog_level level) text.
(** [sec] and [nsec]: the time of [clock_gettime] *)
Definition __pr_log_json (sec nsec level : Z) (text : bytes) : log_output :=
  Printed (json_record sec nsec level (json_escape_string (strip_log_prefix (in_buf text)) escaped_size)).
Definition __pr_log (st : log_state) (sec nsec level : Z) (text : bytes) : log_output :=
  match lg_logger st with
  | PR_LOGGER_STDIO => __pr_log_stdio text
  | PR_LOGGER_SYSLOG => __pr_log_syslog level text
  | PR_LOGGER_JSON => __pr_log_json sec nsec level text
  end.
Definition pr_logger_init (flag : logger) (st : log_state) : log_state :=
  match flag with
  | PR_LOGGER_SYSLOG => mk_log (lg_level st) PR_LOGGER_SYSLOG true
  | PR_LOGGER_JSON => mk_log (lg_level st) PR_LOGGER_JSON false
  | PR_LOGGER_STDIO => st
  end.
Definition set_log_level (level : Z) (st : log_state) : Z * log_state :=
  if lg_level st =? PR_DEBUG then (lg_level st, st) else (lg_level st, mk_log level (lg_logger st) (lg_open st)).
(** [pr_err], [pr_info] and [pr_debug] of a message, by the tool and its
    process *)
Definition level_tag (level : Z) : bytes :=
  if level =? PR_ERROR then str "ERROR: " else if level =? PR_INFO then str "INFO: " else str "DEBUG: ".
Definition log_text (tool : bytes) (pid level : Z) (msg : bytes) : bytes :=
  str "[" ++ tool ++ str "/" ++ print_uint pid ++ str "]: " ++ level_tag level ++ msg.
Definition pr_log (st : log_state) (sec nsec : Z) (tool : bytes) (pid level : Z) (msg : bytes) : option log_output :=
  if level <=? lg_level st then Some (__pr_log st sec nsec level (log_text tool pid level msg)) else None.

(** ** JSON strings *)

(** The octets between the quotes of a JSON string, decoded; [None] where an
    octet may not stand there. *)
Fixpoint json_decode (s : bytes) : option bytes :=
  match s with
  | [] => Some []
  | c :: s' =>
      if c =? backslash then
        match s' with
        | e :: s =>
            if (e =? quote) || (e =? backslash) then (e ::.) <$> json_decode s
            else if e =? 110 then (10 ::.) <$> json_decode s
            else if e =? 116 then (9 ::.) <$> json_decode s
            else None
        | [] => None
        end
      else if (c =? quote) || (c <? 0x20) then None
      else (c ::.) <$> json_decode s'
  end.
(** What can be said in a message: the other control characters are left out. *)
Definition sayable (c : Z) : Prop := 0x20 ≤ c ∨ c = 10 ∨ c = 9.
#[export] Instance sayable_dec c : Decision (sayable c).
Proof. unfold sayable. apply _. Defined.

Lemma decode_app a b x y : json_decode a = Some x → json_decode b = Some y → json_decode (a ++ b) = Some (x ++ y).
Proof.
  revert x. induction a as [a IH] using (induction_ltof1 _ length). unfold ltof in IH. intros x.
  destruct a as [|c a]; [by intros [= <-]|]. cbn [json_decode app]. destruct (c =? backslash).
  - destruct a as [|e a]; [done|]. cbn [app]. repeat case_match; try done;
      (destruct (json_decode a) as [z|] eqn:E; [|done]; intros [= <-] Hb; rewrite (IH a ltac:(cbn; lia) z E Hb); done).
  - destruct (_ || _); [done|]. destruct (json_decode a) as [z|] eqn:E; [|done]. intros [= <-] Hb.
    by rewrite (IH a ltac:(cbn; lia) z E Hb).
Qed.
(** How one octet is written *)
Definition json_octet (c : Z) : bytes :=
  if (c =? quote) || (c =? backslash) then [backslash; c]
  else if c =? 10 then [backslash; 110]
  else if c =? 9 then [backslash; 116]
  else if 0x20 <=? c then [c] else [].
Lemma json_octet_decode c : json_decode (json_octet c) = Some (filter sayable [c]).
Proof.
  unfold json_octet. destruct ((c =? quote) || (c =? backslash)) eqn:E1.
  { cbn [json_decode]. rewrite Z.eqb_refl, E1. cbn. rewrite decide_True; [done|]. left.
    apply orb_true_iff in E1 as [->%Z.eqb_eq | ->%Z.eqb_eq]; unfold quote, backslash; lia. }
  apply orb_false_iff in E1 as [Hq Hb]. destruct (Z.eqb_spec c 10) as [->|]; [reflexivity|].
  destruct (Z.eqb_spec c 9) as [->|]; [reflexivity|]. destruct (Z.leb_spec 0x20 c) as [Hc|Hc].
  - cbn [json_decode]. rewrite Hb, Hq, (proj2 (Z.ltb_ge _ _)) by done. cbn. rewrite decide_True; [done|by left].
  - cbn. rewrite decide_False; [done|]. intros [?|[?|?]]; lia.
Qed.
(** The loop writes octet by octet while there is room for two more and the
    NUL: it never stops behind a lone backslash. *)
Fixpoint json_spec (dst_sz : Z) (src : bytes) (di : Z) : bytes :=
  match src with
  | [] => []
  | c :: src =>
      if negb (di + 2 <? dst_sz) then []
      else json_octet c ++ json_spec dst_sz src (di + Z.of_nat (length (json_octet c)))
  end.
Lemma json_escape_loop_eq dst_sz src dst :
  json_escape_loop dst_sz src dst = dst ++ json_spec dst_sz src (Z.of_nat (length dst)).
Proof.
  revert dst. induction src as [|c src IH]; intros dst; cbn [json_escape_loop json_spec]; [by rewrite app_nil_r|].
  destruct (Z.ltb_spec (Z.of_nat (length dst) + 2) dst_sz) as [Hr|Hr]; cbn [negb]; [|by rewrite app_nil_r].
  rewrite (proj2 (Z.leb_gt _ _)) by lia. unfold json_octet.
  assert (∀ k, Z.of_nat (length (dst ++ k)) = Z.of_nat (length dst) + Z.of_nat (length k)) as Hl by (intros; rewrite length_app; lia).
  repeat case_match; rewrite ?IH, <-?app_assoc, ?Hl; cbn [length app]; rewrite ?Z.add_0_r; done.
Qed.
Lemma json_octet_length c : (length (json_octet c) ≤ 2)%nat.
Proof. unfold json_octet. repeat case_match; cbn; lia. Qed.
Lemma json_spec_length dst_sz src di : 0 ≤ di < dst_sz → di + Z.of_nat (length (json_spec dst_sz src di)) < dst_sz.
Proof.
  revert di. induction src as [|c src IH]; intros di Hd; cbn [json_spec length]; [lia|].
  destruct (Z.ltb_spec (di + 2) dst_sz); cbn [negb length]; [|lia]. rewrite length_app. pose proof (json_octet_length c).
  specialize (IH (di + Z.of_nat (length (json_octet c))) ltac:(lia)). lia.
Qed.
Lemma json_spec_decode dst_sz src di :
  ∃ n, json_decode (json_spec dst_sz src di) = Some (filter sayable (take n src)) ∧
       (di + 2 * Z.of_nat (length src) + 1 ≤ dst_sz → n = length src).
Proof.
  revert di. induction src as [|c src IH]; intros di; cbn [json_spec]; [by exists 0%nat|].
  destruct (Z.ltb_spec (di + 2) dst_sz) as [Hr|Hr]; cbn [negb].
  - destruct (IH (di + Z.of_nat (length (json_octet c)))) as (n & Hn & Hfull). exists (S n). split.
    + erewrite decode_app; [|apply json_octet_decode|exact Hn]. cbn [take]. by rewrite <-filter_app.
    + cbn [length]. intros Hd. f_equal. apply Hfull. pose proof (json_octet_length c). lia.
  - exists 0%nat. split; [done|]. cbn [length]. lia.
Qed.

(** ** Stripping *)
Lemma strip_ansi_plain s : Forall (λ c, c ≠ ESC) s → strip_ansi false s = s.
Proof. induction 1 as [|c s Hc _ IH]; [done|]. cbn [strip_ansi]. by rewrite (proj2 (Z.eqb_neq _ _) Hc), IH. Qed.
Lemma skip_tag_level level msg : 0 ≤ level ≤ 2 → skip_tag (level_tag level ++ msg) = msg.
Proof.
  intros Hl. assert (level = 0 ∨ level = 1 ∨ level = 2) as [-> | [-> | ->]] by lia; cbn -[bool_decide];
    repeat (rewrite bool_decide_true by done || rewrite bool_decide_false by done); done.
Qed.
Lemma print_uint_all pid (P : Z → Prop) : 0 ≤ pid → (∀ c, 48 ≤ c ≤ 57 → P c) → Forall P (print_uint pid).
Proof. intros Hp HP. eapply Forall_impl; [by apply decimal_digits|]. auto. Qed.
Lemma strip_log_text tool pid level msg :
  0 ≤ pid → 0 ≤ level ≤ 2 → Forall (λ c, c ≠ ESC ∧ c ≠ 93) tool → Forall (λ c, c ≠ ESC) msg →
  strip_log_prefix (log_text tool pid level msg) = rstrip msg.
Proof.
  intros Hp Hl Ht Hm. unfold strip_log_prefix. f_equal. rewrite strip_ansi_plain.
  2:{ unfold log_text. rewrite !Forall_app. split_and!; try done; try (by repeat constructor).
      - eapply Forall_impl; [exact Ht|]. by intros c [].
      - apply print_uint_all; [done|]. unfold ESC. lia.
      - unfold level_tag, ESC. repeat case_match; by repeat constructor. }
  unfold strip_prefix, log_text.
  assert (str "[" ++ tool ++ str "/" ++ print_uint pid ++ str "]: " ++ level_tag level ++ msg =
          (91 :: tool ++ str "/" ++ print_uint pid) ++ 93 :: (str ": " ++ level_tag level ++ msg)) as ->.
  { cbn. by rewrite <-!app_assoc. }
  cbn [app Z.eqb Pos.eqb]. rewrite app_comm_cons, split_at_app.
  - assert (skip_colons (str ": " ++ level_tag level ++ msg) = level_tag level ++ msg) as ->.
    { assert (level = 0 ∨ level = 1 ∨ level = 2) as [-> | [-> | ->]] by lia; reflexivity. }
    by apply skip_tag_level.
  - constructor; [done|]. rewrite !Forall_app. split_and!; [|by repeat constructor|].
    + eapply Forall_impl; [exact Ht|]. by intros c [].
    + apply print_uint_all; [done|]. lia.
Qed.
Lemma drop_newlines_length r : (length (drop_newlines r) ≤ length r)%nat.
Proof. induction r as [|c r IH]; cbn; [done|]. destruct is_newline; cbn; lia. Qed.
Lemma skip_colons_length s : (length (skip_colons s) ≤ length s)%nat.
Proof. induction s as [|c s IH]; cbn; [done|]. destruct (_ || _); cbn; lia. Qed.
Lemma strip_ansi_length b s : (length (strip_ansi b s) ≤ length s)%nat.
Proof.
  revert b. induction s as [|c s IH]; intros b; cbn [strip_ansi length]; [lia|].
  destruct b; [specialize (IH (negb (c =? 109))); lia|]. destruct (c =? ESC); [specialize (IH true); lia|].
  cbn. specialize (IH false). lia.
Qed.
Lemma strip_length msg : (length (strip_log_prefix msg) ≤ length msg)%nat.
Proof.
  unfold strip_log_prefix, rstrip. rewrite length_reverse.
  etrans; [apply drop_newlines_length|]. rewrite length_reverse. etrans; [|apply (strip_ansi_length false)].
  unfold strip_prefix. destruct (strip_ansi false msg) as [|c s] eqn:E; [done|]. rewrite <-E.
  assert (∀ t, (length (skip_tag t) ≤ length t)%nat) as Htag by (intros t; unfold skip_tag; repeat case_match; rewrite ?length_drop; lia).
  destruct (c =? 91); [|lia]. destruct (split_at 93 _) as [[a rest]|] eqn:Es; [|lia].
  etrans; [apply Htag|]. etrans; [apply skip_colons_length|].
  destruct (split_at_Some _ _ _ _ Es) as [-> _]. rewrite length_app. cbn. lia.
Qed.

(** C38 (roundtrip): in the JSON format every message is one well-formed line.
    Whatever text is logged, the string of the record is a valid JSON string
    that fits its buffer: no octet of the message ends the string or the line.
    A message of one of the programs that fits the buffer is read back from it
    as it was written, without its prefix, its trailing newlines and the control
    characters that can not be said. *)
Theorem json_log_lines (st : log_state) (sec nsec level : Z) :
  lg_logger st = PR_LOGGER_JSON → level ≤ lg_level st → 0 ≤ level ≤ 2 →
  (∀ text, ∃ e m, __pr_log st sec nsec level text = Printed (json_record sec nsec level e) ∧
     json_decode e = Some m ∧ Z.of_nat (length e) < escaped_size) ∧
  (∀ tool pid msg, 0 ≤ pid → Forall (λ c, c ≠ ESC ∧ c ≠ 93) tool → Forall (λ c, c ≠ ESC) msg →
     Z.of_nat (length (log_text tool pid level msg)) < buf_size →
     ∃ e, pr_log st sec nsec tool pid level msg = Some (Printed (json_record sec nsec level e)) ∧
          json_decode e = Some (filter sayable (rstrip msg))).
Proof.
  intros Hst Hle Hl. unfold pr_log, __pr_log. rewrite Hst, (proj2 (Z.leb_le _ _)) by done. unfold __pr_log_json, json_escape_string. split.
  - intros text. rewrite json_escape_loop_eq. cbn [app length]. change (Z.of_nat 0) with 0. destruct (json_spec_decode escaped_size (strip_log_prefix (in_buf text)) 0) as (n & Hn & _).
    eexists _, _. split; [reflexivity|]. split; [exact Hn|].
    pose proof (json_spec_length escaped_size (strip_log_prefix (in_buf text)) 0 ltac:(unfold escaped_size; lia)). lia.
  - intros tool pid msg Hp Ht Hm Hlen. eexists. split; [reflexivity|]. unfold in_buf. rewrite take_ge by (unfold buf_size in *; lia).
    rewrite json_escape_loop_eq, strip_log_text by done. cbn [app length].
    destruct (json_spec_decode escaped_size (rstrip msg) (Z.of_nat 0)) as (n & -> & Hfull). rewrite Hfull, firstn_all; [done|].
    pose proof (strip_length (log_text tool pid level msg)) as Hs. rewrite strip_log_text in Hs by done.
    unfold escaped_size, buf_size in *. lia.
Qed.
Lemma json_log_lines_witness :
  ∃ e, pr_log (mk_log PR_INFO PR_LOGGER_JSON false) 7 5000000 (str "ksmbdctl(user)") 42 PR_INFO (str "Added user " ++ [34; 10])
         = Some (Printed (json_record 7 5000000 PR_INFO e)) ∧ json_decode e = Some (str "Added user " ++ [34]).
Proof.
  destruct (json_log_lines (mk_log PR_INFO PR_LOGGER_JSON false) 7 5000000 PR_INFO eq_refl ltac:(done) ltac:(done)) as [_ Hmsg].
  destruct (Hmsg (str "ksmbdctl(user)") 42 (str "Added user " ++ [34; 10]) ltac:(done) ltac:(repeat constructor; discriminate)
    ltac:(repeat constructor; discriminate) ltac:(reflexivity)) as (e & E & Hd).
  exists e. split; [exact E|]. etransitivity; [exact Hd|]. reflexivity.
Defined.
