(* ===== verification/Getopt.v ===== *)
(** * Options of a command line

    [getopt_long] of the C library as the programs use it, in two orders.  Its
    first call in [ksmbdctl_main] has an option string that begins with [+]: the
    scan stops at the first argument that is no option, and as [optind] is never
    reset to zero, all later scans do the same ([getopt_long]).  The older programs
    have no [+]: their scan looks for options behind other arguments too
    ([getopt_permute]). *)

From S2P Require Import Prelude ConfText.

(** An option: its character, its long name, and whether it takes an argument *)
Inductive has_arg := no_argument | required_argument | optional_argument.
Record opt := mk_opt { op_char : Z; op_long : bytes; op_arg : has_arg }.
Definition question : Z := 63.

Section Getopt.
Variable opts : list opt.

Definition find_char (c : Z) : option opt := find (λ o, op_char o =? c) opts.
(** A long name may be shortened as long as one option begins with it. *)
Definition is_prefix (a b : bytes) : bool := bool_decide (take (length a) b = a).
Definition find_long (name : bytes) : option opt :=
  match find (λ o, bool_decide (op_long o = name)) opts with
  | Some o => Some o
  | None => match filter (λ o, is_prefix name (op_long o) = true) opts with [o] => Some o | _ => None end
  end.

(** The options of one argument: what they are, with their arguments, and the
    arguments behind; [63] stands for an option that is refused. *)
Fixpoint short_options (cluster : bytes) (argv : list bytes) : list (Z * option bytes) * list bytes :=
  match cluster with
  | [] => ([], argv)
  | c :: cluster =>
      match op_arg <$> find_char c with
      | None => let '(l, argv) := short_options cluster argv in ((question, None) :: l, argv)
      | Some no_argument => let '(l, argv) := short_options cluster argv in ((c, None) :: l, argv)
      | Some required_argument =>
          match cluster, argv with
          | [], [] => ([(question, None)], [])
          | [], v :: argv => ([(c, Some v)], argv)
          | _, _ => ([(c, Some cluster)], argv)
          end
      | Some optional_argument => ([(c, match cluster with [] => None | _ => Some cluster end)], argv)
      end
  end.
Definition long_option (text : bytes) (argv : list bytes) : (Z * option bytes) * list bytes :=
  let '(name, value) := match split_at 61 text with Some (n, v) => (n, Some v) | None => (text, None) end in
  match find_long name with
  | None => ((question, None), argv)
  | Some o =>
      match op_arg o, value with
      | no_argument, None => ((op_char o, None), argv)
      | no_argument, Some _ => ((question, None), argv)
      | required_argument, Some v => ((op_char o, Some v), argv)
      | required_argument, None =>
          match argv with [] => ((question, None), []) | v :: argv => ((op_char o, Some v), argv) end
      | optional_argument, v => ((op_char o, v), argv)
      end
  end.
(** The whole scan: the options in order, and the arguments from [optind] on.
    Each round uses an argument up, so that one more round than there are
    arguments is enough. *)
Inductive shape := Word | EndOfOptions | LongOption (text : bytes) | ShortOptions (cluster : bytes).
Definition shape_of (a : bytes) : shape :=
  match a with
  | c :: d :: t =>
      if negb (c =? 45) then Word
      else if d =? 45 then match t with [] => EndOfOptions | _ => LongOption t end
      else ShortOptions (d :: t)
  | _ => Word
  end.
Fixpoint scan (fuel : nat) (argv : list bytes) : list (Z * option bytes) * list bytes :=
  match fuel, argv with
  | S fuel, a :: rest =>
      match shape_of a with
      | Word => ([], argv)
      | EndOfOptions => ([], rest)
      | LongOption text => let '(o, argv) := long_option text rest in let '(l, rest) := scan fuel argv in (o :: l, rest)
      | ShortOptions cluster => let '(o, argv) := short_options cluster rest in let '(l, rest) := scan fuel argv in (o ++ l, rest)
      end
  | _, _ => ([], argv)
  end.
Definition getopt_long (argv : list bytes) : list (Z * option bytes) * list bytes := scan (S (length argv)) argv.
(** The scan of a program whose first option string has no [+]: it looks for
    options behind other arguments too, and moves these to the end. *)
Fixpoint scan_all (fuel : nat) (argv : list bytes) : list (Z * option bytes) * list bytes :=
  match fuel, argv with
  | S fuel, a :: rest =>
      match shape_of a with
      | Word => let '(l, rest) := scan_all fuel rest in (l, a :: rest)
      | EndOfOptions => ([], rest)
      | LongOption text => let '(o, argv) := long_option text rest in let '(l, rest) := scan_all fuel argv in (o :: l, rest)
      | ShortOptions cluster => let '(o, argv) := short_options cluster rest in let '(l, rest) := scan_all fuel argv in (o ++ l, rest)
      end
  | _, _ => ([], argv)
  end.
Definition getopt_permute (argv : list bytes) : list (Z * option bytes) * list bytes := scan_all (S (length argv)) argv.
End Getopt.

Lemma short_options_shorter opts cluster argv : (length (short_options opts cluster argv).2 ≤ length argv)%nat.
Proof.
  induction cluster as [|c cluster IH]; cbn [short_options]; [done|].
  destruct (op_arg <$> find_char opts c) as [[]|]; try (destruct (short_options opts cluster argv); done).
  destruct cluster, argv; cbn; lia.
Qed.
Lemma long_option_shorter opts text argv : (length (long_option opts text argv).2 ≤ length argv)%nat.
Proof.
  unfold long_option. destruct (match split_at 61 text with Some (n, v) => (n, Some v) | None => (text, None) end) as [name value].
  destruct (find_long opts name) as [o|]; [|done]. destruct (op_arg o), value, argv; cbn; lia.
Qed.
(** More rounds change nothing. *)
Lemma scan_enough opts n m argv : (length argv < n)%nat → (length argv < m)%nat → scan opts n argv = scan opts m argv.
Proof.
  revert m argv. induction n as [|n IH]; intros m argv Hn Hm; [lia|]. destruct m as [|m]; [lia|].
  destruct argv as [|a argv]; [done|]. cbn [length] in *.
  assert (∀ l : list bytes, (length l ≤ length argv)%nat → scan opts n l = scan opts m l) as Hrest by (intros l Hl; apply IH; lia).
  assert (∀ text, (let '(o, l) := long_option opts text argv in let '(k, rest) := scan opts n l in (o :: k, rest)) =
    (let '(o, l) := long_option opts text argv in let '(k, rest) := scan opts m l in (o :: k, rest))) as Hlong.
  { intros text. pose proof (long_option_shorter opts text argv) as Hs. destruct (long_option opts text argv) as [o l]. by rewrite Hrest. }
  assert (∀ cl, (let '(o, l) := short_options opts cl argv in let '(k, rest) := scan opts n l in (o ++ k, rest)) =
    (let '(o, l) := short_options opts cl argv in let '(k, rest) := scan opts m l in (o ++ k, rest))) as Hshort.
  { intros cl. pose proof (short_options_shorter opts cl argv) as Hs. destruct (short_options opts cl argv) as [o l]. by rewrite Hrest. }
  cbn [scan]. destruct (shape_of a); [done|done|apply Hlong|apply Hshort].
Qed.
(** A scan that begins with an argument that is no option leaves everything. *)
Lemma getopt_nothing opts a argv : shape_of a = Word → getopt_long opts (a :: argv) = ([], a :: argv).
Proof. intros Ha. unfold getopt_long. cbn [length scan]. by rewrite Ha. Qed.
