(* ===== verification/Refcount.v ===== *)
(** * Reference-counted objects behind a table

    The pattern that the users and the shares have in common: objects on a
    heap carry a reference count; a table maps a key to the address of an
    object and owns one of its references; an object that left the table is
    marked as being freed and goes away with its last reference.  [counted] is
    the invariant, proved to survive each of the steps that the operations of
    [Users] and [Shares] take. *)

From S2P Require Import Prelude.

(** One reference more or less to [p]. *)
Definition hold (p k : Z) (held : Z → Z) : Z → Z :=
  λ q, if decide (q = p) then held q + k else held q.
Lemma hold_same p k held : hold p k held p = held p + k.
Proof. unfold hold. by rewrite decide_True. Qed.
Lemma hold_other p k held q : q ≠ p → hold p k held q = held q.
Proof. intros. unfold hold. by rewrite decide_False. Qed.
Lemma hold_0 p held q : hold p 0 held q = held q.
Proof. unfold hold. destruct (decide (q = p)); lia. Qed.

(** ** Counting references *)

(** How often [p] occurs. *)
Definition count (p : Z) (l : list Z) : Z := Z.of_nat (length (filter (λ q, q = p) l)).
Lemma count_app p l k : count p (l ++ k) = count p l + count p k.
Proof. unfold count. rewrite filter_app, length_app. lia. Qed.
Lemma count_cons p q l : count p (q :: l) = count p l + (if decide (q = p) then 1 else 0).
Proof. unfold count. rewrite filter_cons. destruct (decide (q = p)); cbn [length]; lia. Qed.
Lemma count_nonneg p l : 0 ≤ count p l.
Proof. unfold count. lia. Qed.
Lemma count_pos p l : p ∈ l → 0 < count p l.
Proof.
  induction l as [|q l IH]; [by intros ?%elem_of_nil|]. rewrite count_cons. intros [->|Hp]%elem_of_cons.
  - rewrite decide_True by done. pose proof (count_nonneg q l). lia.
  - specialize (IH Hp). destruct (decide (q = p)); lia.
Qed.
#[export] Instance count_proper p : Proper ((≡ₚ) ==> (=)) (count p).
Proof. intros l k Hl. unfold count. by rewrite Hl. Qed.

(** The references that the objects of a heap hold, an object [o] those of
    [f o]. *)
Section HeapRefs.
Context `{Countable K} {O : Type} (f : O → list Z).
Definition heap_refs (h : gmap K O) : list Z := concat (f <$> (map_to_list h).*2).

Lemma heap_refs_insert h p o : h !! p = None → heap_refs (<[p := o]> h) ≡ₚ f o ++ heap_refs h.
Proof.
  intros Hp. unfold heap_refs.
  assert (map_to_list (<[p := o]> h) ≡ₚ (p, o) :: map_to_list h) as E by by apply map_to_list_insert.
  apply (fmap_Permutation snd), (fmap_Permutation f) in E. by rewrite E.
Qed.
Lemma heap_refs_delete h p o : h !! p = Some o → heap_refs h ≡ₚ f o ++ heap_refs (delete p h).
Proof.
  intros Hp. rewrite <-heap_refs_insert by apply lookup_delete_eq.
  by rewrite insert_delete_eq, insert_id.
Qed.
(** Replacing an object exchanges its references. *)
Lemma heap_refs_update h p o o' q :
  h !! p = Some o →
  count q (heap_refs (<[p := o']> h)) = count q (heap_refs h) - count q (f o) + count q (f o').
Proof.
  intros Hp. rewrite (heap_refs_delete (<[p := o']> h) p o') by apply lookup_insert_eq.
  rewrite delete_insert_eq, (heap_refs_delete h p o), !count_app by done. lia.
Qed.
Lemma heap_refs_same h p o o' : h !! p = Some o → f o' = f o → heap_refs (<[p := o']> h) ≡ₚ heap_refs h.
Proof.
  intros Hp Hf. rewrite (heap_refs_delete (<[p := o']> h) p o') by apply lookup_insert_eq.
  rewrite delete_insert_eq, (heap_refs_delete h p o) by done. by rewrite Hf.
Qed.
End HeapRefs.

Section Refcount.
Context {O : Type} (key : O → bytes) (refs : O → Z) (freeing : O → bool).

(** [held p] is the number of references to [p] that the rest of the program
    holds.  The count of an object is exactly what is held, and one more when
    the table has it: a reference that nobody gives back stays among those that
    are held, and one given back twice is not there. *)
Record counted (held : Z → Z) (heap : gmap Z O) (table : gmap bytes Z) (next : Z) : Prop := {
  co_table : ∀ n p, table !! n = Some p → ∃ o, heap !! p = Some o ∧ key o = n ∧ freeing o = false;
  co_count : ∀ p o, heap !! p = Some o →
    1 ≤ refs o ∧ refs o = held p + (if decide (table !! key o = Some p) then 1 else 0);
  co_state : ∀ p o, heap !! p = Some o → freeing o = false → table !! key o = Some p;
  co_next : ∀ p, is_Some (heap !! p) → p < next;
  co_held : ∀ p, 0 ≤ held p ∧ (0 < held p → is_Some (heap !! p));
}.

Lemma counted_ext held held' heap table next :
  (∀ p, held p = held' p) → counted held heap table next → counted held' heap table next.
Proof.
  intros He [Ht Hc Hs Hn Hh]. split; [done| |done|done|].
  - intros p u Hp. rewrite <-He. by apply Hc.
  - intros p. rewrite <-He. apply Hh.
Qed.

(** Replacing an object by one with the same key and state. *)
Lemma counted_update held heap table next p o o' k :
  counted held heap table next → heap !! p = Some o →
  key o' = key o → freeing o' = freeing o →
  1 ≤ refs o' → 0 ≤ held p + k → refs o' = refs o + k →
  counted (hold p k held) (<[p := o']> heap) table next.
Proof.
  intros [Ht Hc Hs Hn Hh] Hp Hkey Hstate Href Hk Hcount. split.
  - intros n q Hq. destruct (Ht n q Hq) as (w & Hw & ? & ?).
    destruct (decide (q = p)) as [->|]; simplify_eq.
    + exists o'. rewrite lookup_insert_eq. by rewrite Hkey, Hstate.
    + exists w. by rewrite lookup_insert_ne.
  - intros q w Hw. destruct (decide (q = p)) as [->|].
    + rewrite lookup_insert_eq in Hw. simplify_eq. rewrite hold_same, Hkey.
      specialize (Hc p o Hp). lia.
    + rewrite lookup_insert_ne in Hw by done. rewrite hold_other by done. by apply Hc.
  - intros q w Hw Hst. destruct (decide (q = p)) as [->|].
    + rewrite lookup_insert_eq in Hw. simplify_eq. rewrite Hkey. apply Hs; [done|congruence].
    + rewrite lookup_insert_ne in Hw by done. by apply Hs.
  - intros q Hq. apply Hn. destruct (decide (q = p)) as [->|]; [by eexists|].
    by rewrite lookup_insert_ne in Hq.
  - intros q. destruct (decide (q = p)) as [->|].
    + rewrite hold_same, lookup_insert_eq. by split; [|eexists].
    + rewrite hold_other, lookup_insert_ne by done. apply Hh.
Qed.

(** The last reference: the object has left the table and can be freed. *)
Lemma counted_last held heap table next p o :
  counted held heap table next → heap !! p = Some o → 1 ≤ held p → refs o = 1 →
  freeing o = true ∧ counted (hold p (-1) held) (delete p heap) table next.
Proof.
  intros Hok Hp Hheld H1. pose proof (co_count _ _ _ _ Hok _ _ Hp) as [_ Hcnt].
  assert (table !! key o ≠ Some p) as Hnot.
  { intros E. rewrite E, decide_True in Hcnt by done. lia. }
  split.
  { destruct (freeing o) eqn:E; [done|]. by destruct Hnot; apply (co_state _ _ _ _ Hok). }
  destruct Hok as [Ht Hc Hs Hn Hh]. split.
  - intros n q Hq. destruct (Ht n q Hq) as (w & Hw & Hnm & ?).
    exists w. rewrite lookup_delete_ne; [done|]. intros ->. simplify_eq.
  - intros q w [Hne Hw]%lookup_delete_Some. rewrite hold_other by done. by apply Hc.
  - intros q w [Hne Hw]%lookup_delete_Some. by apply Hs.
  - intros q [w [Hne Hw]%lookup_delete_Some]. apply Hn. by eexists.
  - intros q. destruct (decide (q = p)) as [->|].
    + rewrite hold_same. rewrite decide_False in Hcnt by done. lia.
    + rewrite hold_other, lookup_delete_ne by done. apply Hh.
Qed.

(** The entry leaves the table: the object is freed when the table's was the
    only reference, else it stays with one reference less, marked. *)
Lemma counted_unlink held heap table next n p o (h : gmap Z O) :
  counted held heap table next → table !! n = Some p → heap !! p = Some o →
  (∀ q, q ≠ p → h !! q = heap !! q) →
  (∀ w, h !! p = Some w → freeing w = true ∧ key w = n ∧ 1 ≤ refs w ∧ refs w = refs o - 1) →
  (1 < refs o → is_Some (h !! p)) →
  counted held h (delete n table) next.
Proof.
  intros Hok Hp Ho Hother Hat Hlive. destruct Hok as [Ht Hc Hs Hnx Hh].
  destruct (Ht n p Hp) as (o' & Ho' & Hkey & Hfr). simplify_eq.
  pose proof (Hc _ _ Ho) as [Href Hcnt]. rewrite decide_True in Hcnt by done. split.
  - intros n q [Hne Hq]%lookup_delete_Some. destruct (Ht n q Hq) as (w & Hw & Hnm & ?).
    exists w. rewrite Hother; [done|]. intros ->. simplify_eq.
  - intros q w Hw. destruct (decide (q = p)) as [->|Hne].
    + destruct (Hat w Hw) as (_ & -> & ? & ?). rewrite lookup_delete_eq, decide_False by done. lia.
    + rewrite Hother in Hw by done. specialize (Hc q w Hw). split; [lia|].
      destruct (decide (delete (key o) table !! key w = Some q)) as [E|E].
      * apply lookup_delete_Some in E as [_ E]. rewrite decide_True in Hc by done. lia.
      * rewrite decide_False in Hc; [lia|]. intros E'. apply E. rewrite lookup_delete_ne; congruence.
  - intros q w Hw Hstw. destruct (decide (q = p)) as [->|Hne].
    { destruct (Hat w Hw). congruence. }
    rewrite Hother in Hw by done. specialize (Hs q w Hw Hstw).
    rewrite lookup_delete_ne; [done|]. congruence.
  - intros q [w Hw]. apply Hnx. destruct (decide (q = p)) as [->|]; [by eexists|].
    rewrite Hother in Hw by done. by eexists.
  - intros q. split; [apply Hh|]. intros Hq. destruct (decide (q = p)) as [->|].
    + apply Hlive. lia.
    + rewrite Hother by done. by apply Hh.
Qed.

(** A new object goes into the table with one reference. *)
Lemma counted_insert held heap table next o :
  counted held heap table next → table !! key o = None → refs o = 1 → freeing o = false →
  counted held (<[next := o]> heap) (<[key o := next]> table) (next + 1).
Proof.
  intros Hok Hnone Href Hst.
  assert (heap !! next = None) as Hfresh.
  { destruct (heap !! next) eqn:E; [|done].
    pose proof (co_next _ _ _ _ Hok next ltac:(by eexists)). lia. }
  destruct Hok as [Ht Hc Hs Hnx Hh]. split.
  - intros n p. destruct (decide (n = key o)) as [->|].
    + rewrite lookup_insert_eq. intros [= <-]. exists o. by rewrite lookup_insert_eq.
    + rewrite lookup_insert_ne by done. intros Hp. destruct (Ht n p Hp) as (w & Hw & ? & ?).
      exists w. rewrite lookup_insert_ne by congruence. done.
  - intros p w. destruct (decide (p = next)) as [->|].
    + rewrite lookup_insert_eq. intros [= <-]. rewrite lookup_insert_eq, decide_True, Href by done.
      destruct (Hh next) as [H0 H1].
      destruct (decide (held next = 0)); [lia|]. destruct H1; [lia|congruence].
    + rewrite lookup_insert_ne by done. intros Hw. specialize (Hc p w Hw).
      destruct (decide (key w = key o)) as [E|].
      * rewrite E in *. rewrite lookup_insert_eq, decide_False by congruence.
        destruct (decide (table !! key o = Some p)); [congruence|lia].
      * by rewrite lookup_insert_ne.
  - intros p w. destruct (decide (p = next)) as [->|].
    + rewrite lookup_insert_eq. intros [= <-] _. by rewrite lookup_insert_eq.
    + rewrite lookup_insert_ne by done. intros Hw Hst'. specialize (Hs p w Hw Hst').
      rewrite lookup_insert_ne; [done|]. congruence.
  - intros p. destruct (decide (p = next)) as [->|]; [lia|].
    rewrite lookup_insert_ne by done. intros Hp. specialize (Hnx p Hp). lia.
  - intros p. split; [apply Hh|]. intros Hp. destruct (decide (p = next)) as [->|].
    + by rewrite lookup_insert_eq.
    + rewrite lookup_insert_ne by done. by apply Hh.
Qed.

(** A reference that was handed out keeps its object. *)
Lemma counted_live held heap table next p :
  counted held heap table next → 1 ≤ held p → ∃ o, heap !! p = Some o ∧ 1 ≤ refs o ∧ held p ≤ refs o.
Proof.
  intros Hok Hp. destruct (co_held _ _ _ _ Hok p) as [_ [o Ho]]; [lia|]. exists o.
  destruct (co_count _ _ _ _ Hok _ _ Ho) as [? Hc]. split_and!; [done|done|].
  destruct (decide _); lia.
Qed.
End Refcount.
Arguments co_table {O key refs freeing held heap table next}.
Arguments co_count {O key refs freeing held heap table next}.
Arguments co_state {O key refs freeing held heap table next}.
Arguments co_next {O key refs freeing held heap table next}.
Arguments co_held {O key refs freeing held heap table next}.

(** A walk over the table that unlinks every entry empties it: [body] must
    keep the invariant [P] and remove the entry it is run for. *)
Lemma unlink_all {S} (table : S → gmap bytes Z) (P : S → Prop) (body : bytes * Z → prog S unit) l s :
  P s → l ≡ₚ map_to_list (table s) →
  (∀ s n p, P s → table s !! n = Some p →
     wp (body (n, p)) s (λ _ s', P s' ∧ table s' = delete n (table s)) (λ _ _, False)) →
  wp (for_each l body) s (λ _ s', P s' ∧ table s' = ∅) (λ _ _, False).
Proof.
  intros HP Hl Hbody.
  assert (∀ n p, (n, p) ∈ l ↔ table s !! n = Some p) as Hin.
  { intros n p. rewrite Hl. apply elem_of_map_to_list. }
  assert (NoDup l.*1) as Hnd by (rewrite Hl; apply NoDup_fst_map_to_list).
  clear Hl. revert s HP Hin. induction l as [|[n p] l IH]; intros s HP Hin; cbn [for_each].
  { wp_step. split; [done|]. apply map_empty. intros n.
    destruct (table s !! n) as [p|] eqn:E; [|done]. apply Hin in E. by apply elem_of_nil in E. }
  cbn in Hnd. apply NoDup_cons in Hnd as [Hni Hnd].
  wp_step. wp_by (apply Hbody; [done|apply Hin; left]); [|done].
  intros _ s' [HP' Ht']. apply IH; [done|done|].
  intros m q. rewrite Ht', lookup_delete_Some, <-Hin, elem_of_cons. split.
  - intros Hm. split; [|by right]. intros <-. apply Hni. by apply (list_elem_of_fmap_2 fst l (n, q)).
  - intros [Hne [E|Hm]]; [congruence|done].
Qed.
