(* ===== verification/Users.v ===== *)
(** * User management ([src/tools/management/user.c])

    The users live on a heap and are counted; the table maps a name to the
    address of its user.  Deallocation is [release], so that a use after free
    or a double free is a [Fault].  Password decoding, the group and
    password databases, and the order in which GLib walks a hash table are
    parameters.  The locks are not represented: each operation here runs under
    the lock that the code takes. *)

From S2P Require Import Prelude ConfText Refcount.

Definition KSMBD_USER_STATE_FREEING : Z := 1.
Definition KSMBD_REQ_MAX_ACCOUNT_NAME_SZ : Z := 256.
Definition KSMBD_REQ_MAX_HASH_SZ : Z := 18.
Definition KSMBD_SHARE_INVALID_UID : Z := 65535.
Definition KSMBD_SHARE_INVALID_GID : Z := 65535.
Definition KSMBD_USER_FLAG_INVALID : Z := 0.
Definition KSMBD_USER_FLAG_OK : Z := BIT 0.
Definition KSMBD_USER_FLAG_BAD_PASSWORD : Z := BIT 1.
Definition KSMBD_USER_FLAG_BAD_USER : Z := BIT 3.
Definition KSMBD_USER_FLAG_GUEST_ACCOUNT : Z := BIT 4.
Definition KSMBD_USER_FLAG_DELAY_SESSION : Z := BIT 5.
Definition KSMBD_USER_FLAG_EXTENSION : Z := BIT 6.
Definition KSMBD_LOGIN_FLAG_IGNORE_MAP_TO_GUEST : Z := BIT 0.
Definition KSMBD_CONF_MAP_TO_GUEST_NEVER : Z := 0.
Definition KSMBD_CONF_MAP_TO_GUEST_BAD_USER : Z := 1.
Definition KSMBD_IPC_MAX_MESSAGE_SIZE : Z := 4096.
(** [sizeof(struct ksmbd_login_response_ext)]: two words and 128 octets *)
Definition sizeof_login_response_ext : Z := 136.
Definition INT_MAX : Z := 2 ^ 31 - 1.

(** [pass_sz] is the length of [u_pass], [ngroups] that of [u_sgid]. *)
Record user := mk_user {
  u_name : bytes;
  u_pass_b64 : bytes;
  u_pass : bytes;
  u_uid : Z;
  u_gid : Z;
  u_ref_count : Z;
  u_flags : Z;
  u_state : Z;
  u_failed_login_count : Z;
  u_sgid : list Z;
}.
Definition set_ref_count (n : Z) (u : user) : user :=
  mk_user (u_name u) (u_pass_b64 u) (u_pass u) (u_uid u) (u_gid u) n
    (u_flags u) (u_state u) (u_failed_login_count u) (u_sgid u).
Definition set_user_state (n : Z) (u : user) : user :=
  mk_user (u_name u) (u_pass_b64 u) (u_pass u) (u_uid u) (u_gid u) (u_ref_count u)
    (u_flags u) n (u_failed_login_count u) (u_sgid u).
Definition set_user_flags (n : Z) (u : user) : user :=
  mk_user (u_name u) (u_pass_b64 u) (u_pass u) (u_uid u) (u_gid u) (u_ref_count u)
    n (u_state u) (u_failed_login_count u) (u_sgid u).
Definition set_failed_login_count (n : Z) (u : user) : user :=
  mk_user (u_name u) (u_pass_b64 u) (u_pass u) (u_uid u) (u_gid u) (u_ref_count u)
    (u_flags u) (u_state u) n (u_sgid u).
Definition set_password (b64 pass : bytes) (u : user) : user :=
  mk_user (u_name u) b64 pass (u_uid u) (u_gid u) (u_ref_count u)
    (u_flags u) (u_state u) (u_failed_login_count u) (u_sgid u).

(** [users_table] with the objects it refers to; [us_next] is the address the
    next allocation returns. *)
Record ustate := mk_ustate {
  us_heap : gmap Z user;
  us_table : gmap bytes Z;
  us_next : Z;
}.
Definition set_us_heap (h : gmap Z user) (s : ustate) : ustate :=
  mk_ustate h (us_table s) (us_next s).
Definition set_us_table (t : gmap bytes Z) (s : ustate) : ustate :=
  mk_ustate (us_heap s) t (us_next s).

Abbreviation uload := (load us_heap).
Abbreviation ustore := (store us_heap set_us_heap).

Definition test_user_flag (u : user) (bit : Z) : bool := test_flag (u_flags u) bit.

Definition usm_is_valid_ipc_account (account : bytes) : bool :=
  terminated account KSMBD_REQ_MAX_ACCOUNT_NAME_SZ.

(** ** Life cycle *)
Definition kill_ksmbd_user (p : Z) : prog ustate unit := release us_heap set_us_heap p.

Definition usm_remove_user (p : Z) : prog ustate unit :=
  u <- uload p ;;
  (if negb (u_state u =? KSMBD_USER_STATE_FREEING) then
     s <- get ;;
     match us_table s !! u_name u with
     | None => fail (- EINVAL)
     | Some _ => modify (set_us_table (delete (u_name u) (us_table s)))
     end
   else ret tt) ;;
  kill_ksmbd_user p.

(** NULL is [None]. *)
Definition get_ksmbd_user (p : Z) : prog ustate (option Z) :=
  u <- uload p ;;
  if negb (u_ref_count u =? 0)
  then ustore p (set_ref_count (u_ref_count u + 1) u) ;; ret (Some p)
  else ret None.

Definition put_ksmbd_user (user : option Z) : prog ustate unit :=
  match user with
  | None => ret tt
  | Some p =>
      u <- uload p ;;
      let n := u_ref_count u - 1 in
      ustore p (set_ref_count n u) ;;
      if n =? 0 then ignore (usm_remove_user p) else ret tt
  end.

Section Env.
Context {A : Allocator}.
(** [base64_decode], [getpwnam], [getgrouplist] (the groups it lists when the
    array is large enough, the base group among them), and the order in which
    [g_hash_table_iter_next] yields the entries. *)
Variable base64_decode : bytes → option bytes.
Variable getpwnam : bytes → option (Z * Z).
Variable getgrouplist : bytes → list Z.
Variable hash_order : gmap bytes Z → list (bytes * Z).

(** The entry is removed after the body ran for it. *)
Definition usm_remove_all_users : prog ustate unit :=
  s <- get ;;
  for_each (hash_order (us_table s)) (λ '(name, p),
    u <- uload p ;;
    ustore p (set_user_state KSMBD_USER_STATE_FREEING u) ;;
    put_ksmbd_user (Some p) ;;
    modify (λ s, set_us_table (delete name (us_table s)) s)).

(** The removal loop: behind a removed entry the index moves on as well. *)
Fixpoint drop_invalid_gids (sgid : list Z) : list Z :=
  match sgid with
  | [] => []
  | g :: rest =>
      if g =? KSMBD_SHARE_INVALID_GID
      then match rest with [] => [] | g' :: rest' => g' :: drop_invalid_gids rest' end
      else g :: drop_invalid_gids rest
  end.

(** Outcome of [new_ksmbd_user]: on failure the caller's strings are either
    still allocated or were freed by [kill_ksmbd_user]. *)
Inductive new_user :=
  | NewUser (u : user)
  | FailedStringsLive
  | FailedStringsFreed.

Definition sizeof_ksmbd_user : Z := 96.

(** The do-while loop asks with one slot first and, when the answer is that
    more are needed, with exactly as many: at most two turns. *)
Definition get_groups (name : bytes) : option (list Z) :=
  if negb (g_try_malloc 4) then None
  else let groups := getgrouplist name in
       if (length groups <=? 1)%nat then Some groups
       else if negb (g_try_malloc (4 * Z.of_nat (length groups))) then None
       else Some groups.

Definition new_ksmbd_user (name pwd : bytes) : new_user :=
  if negb (g_try_malloc sizeof_ksmbd_user) then FailedStringsLive
  else
    let e := getpwnam name in
    let '(uid, gid) := default (KSMBD_SHARE_INVALID_UID, KSMBD_SHARE_INVALID_GID) e in
    match base64_decode pwd with
    | None => FailedStringsFreed
    | Some pass =>
        if INT_MAX <? Z.of_nat (length pass) then FailedStringsFreed
        else
          match e with
          | None => NewUser (mk_user name pwd pass uid gid 1 0 0 0 [])
          | Some _ =>
              match get_groups name with
              | None => FailedStringsLive
              | Some groups =>
                  NewUser (mk_user name pwd pass uid gid 1 0 0 0 (drop_invalid_gids groups))
              end
          end
    end.

Definition __usm_lookup_user (name : bytes) (s : ustate) : option Z := us_table s !! name.

Definition usm_lookup_user (name : option bytes) : prog ustate (option Z) :=
  match name with
  | None => ret None
  | Some name =>
      s <- get ;;
      match __usm_lookup_user name s with
      | None => ret None
      | Some p => get_ksmbd_user p
      end
  end.

(** Freeing the strings of a failed creation a second time is undefined. *)
Definition usm_add_new_user (name pwd : bytes) : prog ustate unit :=
  match new_ksmbd_user name pwd with
  | FailedStringsLive => fail (- ENOMEM)
  | FailedStringsFreed => fault
  | NewUser u =>
      s <- get ;;
      match __usm_lookup_user name s with
      | Some _ => ret tt
      | None =>
          modify (λ s, mk_ustate (<[us_next s := u]> (us_heap s))
                                 (<[u_name u := us_next s]> (us_table s)) (us_next s + 1))
      end
  end.

Definition usm_add_guest_account (name : bytes) : prog ustate unit :=
  usm_add_new_user name (str "NULL") ;;
  user <- usm_lookup_user (Some name) ;;
  match user with
  | None => fail (- EINVAL)
  | Some p =>
      u <- uload p ;;
      ustore p (set_user_flags (set_flag (u_flags u) KSMBD_USER_FLAG_GUEST_ACCOUNT) u) ;;
      put_ksmbd_user (Some p)
  end.

Definition usm_update_user_password (p : Z) (pwd : bytes) : prog ustate unit :=
  match base64_decode pwd with
  | None => ret tt
  | Some pass => u <- uload p ;; ustore p (set_password pwd pass u)
  end.

(** [usm_clear_users] of [usm_destroy] *)
Definition usm_destroy : prog ustate unit :=
  s <- get ;;
  for_each (hash_order (us_table s)) (λ '(_, p), kill_ksmbd_user p) ;;
  modify (set_us_table ∅).

(** ** Requests of the kernel *)
Record login_request := mk_login_request { lq_account : bytes; lq_flags : Z }.
Record login_response := mk_login_response {
  lr_gid : Z; lr_uid : Z; lr_account : bytes; lr_status : Z; lr_hash_sz : Z; lr_hash : bytes;
}.
(** The response buffer is allocated zeroed. *)
Definition blank_login_response : login_response :=
  mk_login_response 0 0 (replicate (Z.to_nat KSMBD_REQ_MAX_ACCOUNT_NAME_SZ) 0) 0 0
    (replicate (Z.to_nat KSMBD_REQ_MAX_HASH_SZ) 0).

(** Returns the size and the array. *)
Definition usm_copy_user_passhash (u : user) (pass : bytes) : Z * bytes :=
  if test_user_flag u KSMBD_USER_FLAG_GUEST_ACCOUNT then (0, pass)
  else if Z.of_nat (length (u_pass u)) <=? Z.of_nat (length pass)
  then (Z.of_nat (length (u_pass u)), mem_write 0 (u_pass u) pass)
  else (- ENOSPC, pass).
Definition usm_copy_user_account (u : user) (account : bytes) : Z * bytes :=
  if test_user_flag u KSMBD_USER_FLAG_GUEST_ACCOUNT then (0, account)
  else if Z.of_nat (length (u_name u)) <=? Z.of_nat (length account)
  then (0, mem_write 0 (u_name u) account)
  else (- ENOSPC, account).

Definition __handle_login_request (resp : login_response) (u : user) : login_response :=
  let status := set_flag (u16 (u_flags u)) KSMBD_USER_FLAG_OK in
  let status := if (0 <? length (u_sgid u))%nat
                then set_flag status KSMBD_USER_FLAG_EXTENSION else status in
  let '(hash_sz, hash) := usm_copy_user_passhash u (lr_hash resp) in
  if hash_sz <? 0 then
    mk_login_response (u_gid u) (u_uid u) (lr_account resp) KSMBD_USER_FLAG_INVALID
      (lr_hash_sz resp) hash
  else
    let '(r, account) := usm_copy_user_account u (lr_account resp) in
    mk_login_response (u_gid u) (u_uid u) account
      (if r =? 0 then status else KSMBD_USER_FLAG_INVALID) (u16 hash_sz) hash.

Section Conf.
(** [global_conf.map_to_guest] and [global_conf.guest_account] *)
Variable map_to_guest : Z.
Variable guest_account : option bytes.

Definition set_status (st : Z) (r : login_response) : login_response :=
  mk_login_response (lr_gid r) (lr_uid r) (lr_account r) st (lr_hash_sz r) (lr_hash r).

(** Returned code and response. *)
Definition usm_handle_login_request (req : login_request) (resp : login_response)
    : prog ustate (Z * login_response) :=
  if negb (usm_is_valid_ipc_account (lq_account req))
  then ret (- EINVAL, set_status KSMBD_USER_FLAG_INVALID resp)
  else
    let account := cstr (lq_account req) in
    let null_session := bool_decide (account = []) in
    let ignore_map_to_guest := test_flag (lq_flags req) KSMBD_LOGIN_FLAG_IGNORE_MAP_TO_GUEST in
    user <- (if null_session then ret None else usm_lookup_user (Some account)) ;;
    match user with
    | Some p =>
        u <- uload p ;;
        put_ksmbd_user (Some p) ;;
        ret (0, __handle_login_request resp u)
    | None =>
        let resp := set_status KSMBD_USER_FLAG_BAD_USER resp in
        if negb null_session &&
           (ignore_map_to_guest || (map_to_guest =? KSMBD_CONF_MAP_TO_GUEST_NEVER))
        then ret (0, resp)
        else
          user <- (if null_session || (map_to_guest =? KSMBD_CONF_MAP_TO_GUEST_BAD_USER)
                   then usm_lookup_user guest_account else ret None) ;;
          match user with
          | None => ret (0, resp)
          | Some p =>
              u <- uload p ;;
              put_ksmbd_user (Some p) ;;
              ret (0, __handle_login_request resp u)
          end
    end.

(** The response carries the group count and the groups copied behind it. *)
Definition usm_handle_login_request_ext (req : login_request) : prog ustate (Z * list Z) :=
  if negb (usm_is_valid_ipc_account (lq_account req)) then ret (- EINVAL, [])
  else
    let account := cstr (lq_account req) in
    if bool_decide (account = []) then ret (0, [])
    else
      let max_ngroups := (KSMBD_IPC_MAX_MESSAGE_SIZE - sizeof_login_response_ext) / 4 in
      user <- usm_lookup_user (Some account) ;;
      match user with
      | None => ret (0, [])
      | Some p =>
          u <- uload p ;;
          let ngroups := Z.min (Z.of_nat (length (u_sgid u))) max_ngroups in
          put_ksmbd_user (Some p) ;;
          ret (0, take (Z.to_nat ngroups) (u_sgid u))
      end.

Record logout_request := mk_logout_request { oq_account : bytes; oq_account_flags : Z }.

(** The counter and the delay flag after a logout report. *)
Definition note_logout (account_flags : Z) (u : user) : user :=
  if test_flag account_flags KSMBD_USER_FLAG_BAD_PASSWORD then
    if u_failed_login_count u <? 10
    then set_failed_login_count (u_failed_login_count u + 1) u
    else set_user_flags (set_flag (u_flags u) KSMBD_USER_FLAG_DELAY_SESSION) u
  else set_user_flags (clear_flag (u_flags u) KSMBD_USER_FLAG_DELAY_SESSION)
         (set_failed_login_count 0 u).

Definition usm_handle_logout_request (req : logout_request) : prog ustate unit :=
  if negb (usm_is_valid_ipc_account (oq_account req)) then fail (- EINVAL)
  else
    user <- usm_lookup_user (Some (cstr (oq_account req))) ;;
    match user with
    | None => fail (- ENOENT)
    | Some p =>
        u <- uload p ;;
        ustore p (note_logout (oq_account_flags req) u) ;;
        put_ksmbd_user (Some p)
    end.
End Conf.

(** ** Names *)
Variable g_utf8_validate : bytes → bool.

(** The octets between [name] and [p]; a range that is empty or reversed is
    no name. *)
Definition usm_user_name (name : bytes) : bool :=
  (0 <? length name)%nat &&
  (Z.of_nat (length name) <? KSMBD_REQ_MAX_ACCOUNT_NAME_SZ) &&
  g_utf8_validate name &&
  forallb (λ c, cp_printable c && negb (c =? 58)) name.
End Env.

(** ** Reference counting *)
Definition user_freeing (u : user) : bool := u_state u =? KSMBD_USER_STATE_FREEING.
(** [held p]: the references to the user at [p] outside of the table. *)
Definition users_ok (held : Z → Z) (s : ustate) : Prop :=
  counted u_name u_ref_count user_freeing held (us_heap s) (us_table s) (us_next s).

(** A lookup takes a reference. *)
Lemma usm_lookup_user_wp held s n :
  users_ok held s →
  wp (usm_lookup_user n) s
    (λ r s', match r with
     | None => s' = s ∧ (n ≫= λ n, us_table s !! n) = None
     | Some p => (n ≫= λ n, us_table s !! n) = Some p ∧
         ∃ u, us_heap s !! p = Some u ∧
              s' = set_us_heap (<[p := set_ref_count (u_ref_count u + 1) u]> (us_heap s)) s ∧
              users_ok (hold p 1 held) s'
     end)
    (λ _ _, False).
Proof.
  intros Hok. destruct n as [n|]; cbn [usm_lookup_user]; [|by wp_step].
  do 2 wp_step. unfold __usm_lookup_user. cbn.
  destruct (us_table s !! n) as [p|] eqn:Ht; [|by wp_step].
  destruct (co_table Hok _ _ Ht) as (u & Hu & _ & _).
  destruct (co_count Hok _ _ Hu) as [Href _].
  unfold get_ksmbd_user. wp_step. eapply wp_load; [done|].
  rewrite (proj2 (Z.eqb_neq _ _)) by lia. cbn [negb]. wp_step.
  eapply wp_store; [done|]. wp_step. split; [done|]. exists u. split_and!; [done..|].
  pose proof (co_held Hok p).
  eapply counted_update with (o := u); [exact Hok|..]; done || cbn; lia.
Qed.

(** Giving back a held reference. *)
Lemma put_ksmbd_user_wp held s p :
  users_ok held s → 1 ≤ held p →
  wp (put_ksmbd_user (Some p)) s
    (λ _ s', users_ok (hold p (-1) held) s' ∧ us_table s' = us_table s ∧
             us_next s' = us_next s ∧
             ∀ q, q ≠ p → us_heap s' !! q = us_heap s !! q)
    (λ _ _, False).
Proof.
  intros Hok Hheld. destruct (counted_live _ _ _ _ _ _ _ _ Hok Hheld) as (u & Hu & Href & _).
  unfold put_ksmbd_user. wp_step. eapply wp_load; [done|]. wp_step. eapply wp_store; [done|].
  destruct (Z.eqb_spec (u_ref_count u - 1) 0) as [H0|H0].
  2:{ wp_step. split_and!; [|done|done|intros q Hq; by apply lookup_insert_ne].
      eapply counted_update with (o := u); [exact Hok|..]; done || cbn; lia. }
  destruct (counted_last _ _ _ _ _ _ _ _ _ Hok Hu Hheld ltac:(lia)) as [Hst Hdel].
  wp_step. unfold usm_remove_user. wp_step.
  eapply wp_load; [apply lookup_insert_eq|]. cbn [u_state set_ref_count].
  unfold user_freeing in Hst. rewrite Hst. cbn [negb].
  wp_step. wp_step. unfold kill_ksmbd_user. eapply wp_release; [apply lookup_insert_eq|].
  unfold users_ok. cbn [us_heap us_table us_next set_us_heap]. rewrite delete_insert_eq.
  split_and!; [exact Hdel|done|done|intros q Hq; by apply lookup_delete_ne].
Qed.

(** Taking a reference and giving it back leaves the state as it was. *)
Lemma put_after_lookup held s p u :
  users_ok held s → us_heap s !! p = Some u →
  put_ksmbd_user (Some p) (set_us_heap (<[p := set_ref_count (u_ref_count u + 1) u]> (us_heap s)) s)
    = Done tt s.
Proof.
  intros Hok Hu. destruct (co_count Hok _ _ Hu) as [Href _].
  unfold put_ksmbd_user, bind, load, store, set_us_heap. cbn [us_heap us_table us_next].
  rewrite lookup_insert_eq. cbn [us_heap us_table us_next].
  rewrite lookup_insert_eq, insert_insert_eq.
  cbn [u_ref_count set_ref_count].
  rewrite (proj2 (Z.eqb_neq _ _)) by lia. unfold ret. f_equal.
  destruct s as [h t n]; cbn in *. f_equal. apply insert_id. rewrite Hu. f_equal.
  destruct u; unfold set_ref_count; cbn. f_equal. lia.
Qed.

(** What a login answers: the user of the account; for a null session, or an
    unknown account when unknown users are mapped to the guest, the guest. *)
Section LoginSpec.
Variable map_to_guest : Z.
Variable guest_account : option bytes.

Definition find_user (s : ustate) (name : option bytes) : option user :=
  name ≫= λ n, us_table s !! n ≫= λ p, us_heap s !! p.

Definition login_result (req : login_request) (resp : login_response) (s : ustate)
    : Z * login_response :=
  if negb (usm_is_valid_ipc_account (lq_account req))
  then (- EINVAL, set_status KSMBD_USER_FLAG_INVALID resp)
  else
    let account := cstr (lq_account req) in
    let bad := set_status KSMBD_USER_FLAG_BAD_USER resp in
    let guest := match find_user s guest_account with
                 | Some g => __handle_login_request bad g | None => bad end in
    match account with
    | [] => (0, guest)
    | _ =>
        match find_user s (Some account) with
        | Some u => (0, __handle_login_request resp u)
        | None =>
            if test_flag (lq_flags req) KSMBD_LOGIN_FLAG_IGNORE_MAP_TO_GUEST then (0, bad)
            else if map_to_guest =? KSMBD_CONF_MAP_TO_GUEST_BAD_USER then (0, guest)
            else (0, bad)
        end
    end.

(** Look a user up, use it and put it back. *)
Lemma with_user held s {B} name (f : user → B) (none : prog ustate B) r :
  users_ok held s → (∀ k u, f (set_ref_count k u) = f u) →
  (find_user s name = None → none s = Done r s) →
  (∀ u, find_user s name = Some u → r = f u) →
  (user <- usm_lookup_user name ;;
   match user with
   | None => none
   | Some p => u <- uload p ;; put_ksmbd_user (Some p) ;; ret (f u)
   end) s = Done r s.
Proof.
  intros Hok Hf Hnone Hsome. pose proof (usm_lookup_user_wp held s name Hok) as Hl.
  unfold wp in Hl. unfold bind at 1. destruct (usm_lookup_user name s) as [[p|] s'|e s'|]; [| |done..].
  - destruct Hl as (Ht & u & Hu & -> & _). unfold bind, load. cbn [us_heap set_us_heap].
    rewrite lookup_insert_eq, (put_after_lookup held) by done. unfold ret. f_equal.
    rewrite (Hsome u). 2:{ unfold find_user. destruct name; cbn in *; [by rewrite Ht|done]. }
    apply Hf.
  - destruct Hl as [-> Hl]. apply Hnone. unfold find_user. destruct name; cbn in *; [by rewrite Hl|done].
Qed.

Lemma login_request_exact held req resp s :
  users_ok held s →
  (map_to_guest = KSMBD_CONF_MAP_TO_GUEST_NEVER ∨ map_to_guest = KSMBD_CONF_MAP_TO_GUEST_BAD_USER) →
  usm_handle_login_request map_to_guest guest_account req resp s
    = Done (login_result req resp s) s.
Proof.
  intros Hok Hm. unfold usm_handle_login_request, login_result.
  destruct (usm_is_valid_ipc_account _); [|done]. cbn [negb].
  set (bad := set_status _ resp). destruct (cstr (lq_account req)) as [|c account].
  - rewrite bool_decide_true by done. unfold bind at 1, ret at 1. cbn [negb andb orb].
    apply (with_user held _ _ (λ u, (0, __handle_login_request bad u))); [done|done|..].
    + intros ->. done.
    + by intros u ->.
  - rewrite bool_decide_false by done. cbn [negb andb orb].
    apply (with_user held _ _ (λ u, (0, __handle_login_request resp u))); [done|done|..].
    2:{ by intros u ->. }
    intros ->. destruct test_flag; cbn [orb]; [done|].
    destruct Hm as [-> | ->]; [done|]. cbn [Z.eqb].
    apply (with_user held _ _ (λ u, (0, __handle_login_request bad u))); [done|done|..].
    + intros ->. done.
    + by intros u ->.
Qed.
(** *** What a login is answered

    [n] octets that begin with [l], the others zero *)
Definition padded (n : nat) (l : bytes) : bytes := l ++ replicate (n - length l) 0.
(** A refusal says why, and nothing else. *)
Definition refusal (status : Z) : login_response := mk_login_response 0 0 (padded 256 []) status 0 (padded 18 []).
(** Bit 0 (OK) and bit 6 (there are more groups) besides the flags of the user *)
Definition granted_status (u : user) : Z :=
  Z.lor (Z.lor (u_flags u mod 2 ^ 16) KSMBD_USER_FLAG_OK) (match u_sgid u with [] => 0 | _ => KSMBD_USER_FLAG_EXTENSION end).
(** The answer for a user: who it is, and the digest the kernel compares with;
    neither name nor digest for a guest, and a refusal when one of them does
    not fit. *)
Definition grant (u : user) : login_response :=
  let answer name status hash := mk_login_response (u_gid u) (u_uid u) (padded 256 name) status (Z.of_nat (length hash)) (padded 18 hash) in
  if test_flag (u_flags u) KSMBD_USER_FLAG_GUEST_ACCOUNT then answer [] (granted_status u) []
  else if (18 <? length (u_pass u))%nat then answer [] KSMBD_USER_FLAG_INVALID []
  else if (256 <? length (u_name u))%nat then answer [] KSMBD_USER_FLAG_INVALID (u_pass u)
  else answer (u_name u) (granted_status u) (u_pass u).
(** Which user answers for an account: itself; the guest for nobody, and for
    an unknown account when these are mapped. *)
Definition login_spec (req : login_request) (s : ustate) : Z * login_response :=
  let account := cstr (lq_account req) in
  let guest := from_option grant (refusal KSMBD_USER_FLAG_BAD_USER) (find_user s guest_account) in
  if 256 <=? Z.of_nat (length account) then (- EINVAL, refusal KSMBD_USER_FLAG_INVALID)
  else if bool_decide (account = []) then (0, guest)
  else match find_user s (Some account) with
       | Some u => (0, grant u)
       | None =>
           if test_flag (lq_flags req) KSMBD_LOGIN_FLAG_IGNORE_MAP_TO_GUEST then (0, refusal KSMBD_USER_FLAG_BAD_USER)
           else if map_to_guest =? KSMBD_CONF_MAP_TO_GUEST_BAD_USER then (0, guest)
           else (0, refusal KSMBD_USER_FLAG_BAD_USER)
       end.

Lemma write_padded n l : (length l ≤ n)%nat → mem_write 0 l (replicate n 0) = padded n l.
Proof. intros Hl. unfold mem_write, padded. rewrite take_0, drop_replicate. done. Qed.
Lemma granted_status_flags u :
  (if (0 <? length (u_sgid u))%nat then set_flag (set_flag (u16 (u_flags u)) KSMBD_USER_FLAG_OK) KSMBD_USER_FLAG_EXTENSION
   else set_flag (u16 (u_flags u)) KSMBD_USER_FLAG_OK) = granted_status u.
Proof. unfold granted_status, set_flag. destruct (u_sgid u); cbn [length Nat.ltb Nat.leb]; [by rewrite Z.lor_0_r|done]. Qed.
Lemma handle_login_grant status u :
  __handle_login_request (set_status status blank_login_response) u = grant u.
Proof.
  unfold __handle_login_request, grant, usm_copy_user_passhash, usm_copy_user_account, blank_login_response, test_user_flag.
  cbn [set_status lr_gid lr_uid lr_account lr_status lr_hash_sz lr_hash]. rewrite granted_status_flags.
  change (Z.to_nat KSMBD_REQ_MAX_ACCOUNT_NAME_SZ) with 256%nat. change (Z.to_nat KSMBD_REQ_MAX_HASH_SZ) with 18%nat.
  destruct (test_flag (u_flags u) _); [done|]. rewrite !length_replicate.
  destruct (Nat.ltb_spec 18 (length (u_pass u))).
  { rewrite (proj2 (Z.leb_gt _ _)) by lia. done. }
  rewrite (proj2 (Z.leb_le _ _)), write_padded by lia. cbv beta iota. rewrite (proj2 (Z.ltb_ge _ _)) by lia.
  assert (u16 (Z.of_nat (length (u_pass u))) = Z.of_nat (length (u_pass u))) as -> by (apply Z.mod_small; lia).
  destruct (Nat.ltb_spec 256 (length (u_name u))).
  - rewrite (proj2 (Z.leb_gt _ _)) by lia. done.
  - rewrite (proj2 (Z.leb_le _ _)), write_padded by lia. done.
Qed.

(** C7 (functional): a login request never faults and leaves the users as they
    were, and its answer is the one of [login_spec], which does not use the
    code: an account that is not terminated is an error; the user of the
    account answers, or the guest account for an empty account, and for an
    unknown one when these are mapped and the request does not forbid it, or
    it is an unknown user.  The answer is the user's identity, flags and stored
    digest: the daemon compares no password, the kernel does. *)
Theorem usm_handle_login_request_spec held req s :
  users_ok held s →
  (map_to_guest = KSMBD_CONF_MAP_TO_GUEST_NEVER ∨ map_to_guest = KSMBD_CONF_MAP_TO_GUEST_BAD_USER) →
  usm_handle_login_request map_to_guest guest_account req blank_login_response s = Done (login_spec req s) s.
Proof.
  intros Hok Hm. rewrite (login_request_exact held) by done. f_equal. unfold login_result, login_spec.
  unfold usm_is_valid_ipc_account, terminated, strnlen, KSMBD_REQ_MAX_ACCOUNT_NAME_SZ.
  assert (∀ u, __handle_login_request blank_login_response u = grant u) as Hg by (intros u; apply (handle_login_grant 0)).
  destruct (Z.leb_spec 256 (Z.of_nat (length (cstr (lq_account req))))) as [Hl|Hl].
  { rewrite (proj2 (Z.ltb_ge _ _)) by lia. done. }
  rewrite (proj2 (Z.ltb_lt _ _)) by lia. cbn [negb].
  assert (match find_user s guest_account with
          | Some g => __handle_login_request (set_status KSMBD_USER_FLAG_BAD_USER blank_login_response) g
          | None => set_status KSMBD_USER_FLAG_BAD_USER blank_login_response
          end = from_option grant (refusal KSMBD_USER_FLAG_BAD_USER) (find_user s guest_account)) as ->.
  { destruct (find_user s guest_account); [apply handle_login_grant|done]. }
  destruct (cstr (lq_account req)) as [|c account]; [done|]. rewrite bool_decide_false by done.
  destruct (find_user s _); [by rewrite Hg|done].
Qed.
End LoginSpec.

(** ** Creation and removal *)
Section Life.
Context {A : Allocator}.
Variable base64_decode : bytes → option bytes.
Variable getpwnam : bytes → option (Z * Z).
Variable getgrouplist : bytes → list Z.
Variable hash_order : gmap bytes Z → list (bytes * Z).
(** A walk over a hash table meets every entry once. *)
Hypothesis hash_order_perm : ∀ t, hash_order t ≡ₚ map_to_list t.
(** GLib's decoder returns a block for every text, and no password has 2 GiB. *)
Hypothesis base64_decode_total : ∀ b, ∃ p, base64_decode b = Some p ∧ Z.of_nat (length p) ≤ INT_MAX.

Abbreviation add_user := (usm_add_new_user base64_decode getpwnam getgrouplist).

Lemma new_ksmbd_user_spec name pwd :
  match new_ksmbd_user base64_decode getpwnam getgrouplist name pwd with
  | NewUser u => u_name u = name ∧ u_ref_count u = 1 ∧ u_state u = 0 ∧ u_flags u = 0
  | FailedStringsLive => True
  | FailedStringsFreed => False
  end.
Proof.
  unfold new_ksmbd_user. destruct (base64_decode_total pwd) as (p & -> & Hp).
  rewrite (proj2 (Z.ltb_ge _ _)) by lia.
  repeat case_match; simplify_eq; done.
Qed.

Lemma usm_add_new_user_wp held s name pwd :
  users_ok held s →
  wp (add_user name pwd) s
    (λ _ s', users_ok held s' ∧ is_Some (us_table s' !! name) ∧
             (∀ n p, us_table s !! n = Some p → us_table s' !! n = Some p))
    (λ e s', e = - ENOMEM ∧ s' = s).
Proof.
  intros Hok. unfold usm_add_new_user. pose proof (new_ksmbd_user_spec name pwd) as Hn.
  destruct new_ksmbd_user as [u| |]; [|by wp_step|done]. destruct Hn as (Hname & Href & Hst & _).
  do 2 wp_step. unfold __usm_lookup_user. destruct (us_table s !! name) as [q|] eqn:Hq; wp_step.
  { split; [done|]. by split. }
  split_and!; [|cbn; by rewrite Hname, lookup_insert_eq|].
  2:{ intros n p Hp. cbn. rewrite lookup_insert_ne; [done|]. congruence. }
  unfold users_ok. cbn [us_heap us_table us_next]. apply counted_insert; [done|by rewrite Hname|done|].
  unfold user_freeing. by rewrite Hst.
Qed.

(** One turn of the removal loop. *)
Lemma remove_entry_wp held s name p :
  users_ok held s → us_table s !! name = Some p →
  wp (u <- uload p ;;
      ustore p (set_user_state KSMBD_USER_STATE_FREEING u) ;;
      put_ksmbd_user (Some p) ;;
      modify (λ s, set_us_table (delete name (us_table s)) s)) s
    (λ _ s', users_ok held s' ∧ us_table s' = delete name (us_table s))
    (λ _ _, False).
Proof.
  intros Hok Hp. destruct (co_table Hok _ _ Hp) as (u & Hu & Hname & _).
  destruct (co_count Hok _ _ Hu) as [Href _].
  wp_step. eapply wp_load; [done|]. wp_step. eapply wp_store; [done|].
  wp_step. unfold put_ksmbd_user. wp_step. eapply wp_load; [apply lookup_insert_eq|].
  wp_step. eapply wp_store; [apply lookup_insert_eq|]. cbn [us_heap set_us_heap].
  rewrite insert_insert_eq. cbn [u_ref_count set_user_state].
  destruct (Z.eqb_spec (u_ref_count u - 1) 0) as [H0|H0].
  - wp_step. unfold usm_remove_user. wp_step. eapply wp_load; [apply lookup_insert_eq|].
    cbn [u_state set_ref_count set_user_state]. rewrite Z.eqb_refl. cbn [negb]. wp_step. wp_step.
    unfold kill_ksmbd_user. eapply wp_release; [apply lookup_insert_eq|]. wp_step. split; [|done].
    eapply counted_unlink; [exact Hok|exact Hp|exact Hu|..]; cbn.
    + intros q Hq. by rewrite lookup_delete_ne, lookup_insert_ne.
    + intros w. by rewrite lookup_delete_eq.
    + lia.
  - wp_step. wp_step. split; [|done].
    eapply counted_unlink; [exact Hok|exact Hp|exact Hu|..]; cbn.
    + intros q Hq. by rewrite lookup_insert_ne.
    + intros w. rewrite lookup_insert_eq. intros [= <-]. cbn. split_and!; done || lia.
    + rewrite lookup_insert_eq. by eexists.
Qed.

Lemma usm_remove_all_users_wp held s :
  users_ok held s →
  wp (usm_remove_all_users hash_order) s
    (λ _ s', users_ok held s' ∧ us_table s' = ∅) (λ _ _, False).
Proof.
  intros Hok. unfold usm_remove_all_users. do 2 wp_step.
  apply (unlink_all us_table (users_ok held)); [done|apply hash_order_perm|].
  intros s' n p Hok' Hp. by apply remove_entry_wp.
Qed.

(** Marking an account as guest keeps the counts. *)
Lemma usm_add_guest_account_wp held s name :
  users_ok held s →
  wp (usm_add_guest_account base64_decode getpwnam getgrouplist name) s
    (λ _ s', users_ok held s' ∧
       ∃ p u, us_table s' !! name = Some p ∧ us_heap s' !! p = Some u ∧
              test_user_flag u KSMBD_USER_FLAG_GUEST_ACCOUNT = true)
    (λ _ s', s' = s).
Proof.
  intros Hok. unfold usm_add_guest_account. wp_step.
  wp_by (by apply (usm_add_new_user_wp held)); [|by intros e s' [_ ->]].
  intros _ s1 (Hok1 & [p Hp] & _). wp_step. wp_by (by apply (usm_lookup_user_wp held)); [|done].
  intros [q|] s2 Hr; cbn in Hr; [|by destruct Hr; congruence].
  destruct Hr as (Hq & u & Hu & -> & Hok2). simplify_eq.
  destruct (co_count Hok1 _ _ Hu) as [Href _].
  wp_step. eapply wp_load; [apply lookup_insert_eq|]. wp_step. eapply wp_store; [apply lookup_insert_eq|].
  cbn [us_heap set_us_heap]. rewrite insert_insert_eq.
  unfold put_ksmbd_user. wp_step. eapply wp_load; [apply lookup_insert_eq|].
  wp_step. eapply wp_store; [apply lookup_insert_eq|]. cbn [us_heap set_us_heap]. rewrite insert_insert_eq.
  cbn [u_ref_count set_user_flags set_ref_count]. rewrite (proj2 (Z.eqb_neq _ _)) by lia. wp_step.
  set (u' := set_ref_count _ _).
  change (users_ok held (set_us_heap (<[p:=u']> (us_heap s1)) s1) ∧
    ∃ p0 u0, us_table s1 !! name = Some p0 ∧ <[p:=u']> (us_heap s1) !! p0 = Some u0 ∧
      test_user_flag u0 KSMBD_USER_FLAG_GUEST_ACCOUNT = true).
  pose proof (co_held Hok1 p). split.
  - eapply counted_ext; [apply hold_0|].
    eapply counted_update with (o := u); [exact Hok1|..]; done || cbn; lia.
  - exists p, u'. rewrite lookup_insert_eq. split_and!; [done..|].
    unfold u', test_user_flag, KSMBD_USER_FLAG_GUEST_ACCOUNT. cbn [u_flags set_ref_count set_user_flags].
    rewrite test_flag_BIT, testbit_set_flag by lia. by rewrite Z.eqb_refl, orb_true_r.
Qed.

(** Creating, guest-marking, looking up, putting back and
    removing users keep the reference counts right and never touch freed
    memory; whoever holds a reference keeps its user allocated, also across a
    removal of all users. *)
Theorem users_refcounts held s name pwd p :
  users_ok held s →
  wp (add_user name pwd) s (λ _ s', users_ok held s') (λ _ s', users_ok held s') ∧
  wp (usm_add_guest_account base64_decode getpwnam getgrouplist name) s
     (λ _ s', users_ok held s') (λ _ s', users_ok held s') ∧
  wp (usm_lookup_user (Some name)) s
     (λ r s', users_ok (match r with Some q => hold q 1 held | None => held end) s') (λ _ _, False) ∧
  (1 ≤ held p → wp (put_ksmbd_user (Some p)) s (λ _ s', users_ok (hold p (-1) held) s') (λ _ _, False)) ∧
  wp (usm_remove_all_users hash_order) s
     (λ _ s', users_ok held s' ∧ us_table s' = ∅ ∧ ∀ q, 1 ≤ held q → is_Some (us_heap s' !! q))
     (λ _ _, False).
Proof.
  intros Hok. split_and!.
  - wp_by (by apply (usm_add_new_user_wp held)); [by intros _ s' []|by intros e s' [_ ->]].
  - wp_by (by apply (usm_add_guest_account_wp held)); [by intros _ s' []|by intros e s' ->].
  - wp_by (by apply (usm_lookup_user_wp held)); [|done].
    intros [q|] s' Hr; [by destruct Hr as (_ & u & _ & _ & ?)|by destruct Hr as [-> _]].
  - intros Hh. wp_by (by apply (put_ksmbd_user_wp held)); [by intros _ s' []|done].
  - wp_by (by apply (usm_remove_all_users_wp held)); [|done].
    intros _ s' [Hok' Ht]. split_and!; [done|done|]. intros q Hq.
    apply (co_held Hok'). lia.
Qed.
End Life.

(** *** The answer of a login *)

(** The answer fits the fixed arrays of the response; a password
    or a name that is too long yields the status INVALID, and in every other
    case the status carries OK and the arrays begin with the password hash and
    the account of a user that is no guest. *)
Theorem login_response_bounds resp u :
  length (lr_account resp) = Z.to_nat KSMBD_REQ_MAX_ACCOUNT_NAME_SZ →
  length (lr_hash resp) = Z.to_nat KSMBD_REQ_MAX_HASH_SZ →
  0 ≤ lr_hash_sz resp ≤ KSMBD_REQ_MAX_HASH_SZ →
  let r := __handle_login_request resp u in
  length (lr_account r) = Z.to_nat KSMBD_REQ_MAX_ACCOUNT_NAME_SZ ∧
  length (lr_hash r) = Z.to_nat KSMBD_REQ_MAX_HASH_SZ ∧
  0 ≤ lr_hash_sz r ≤ KSMBD_REQ_MAX_HASH_SZ ∧
  (lr_status r = KSMBD_USER_FLAG_INVALID ∨
   test_flag (lr_status r) KSMBD_USER_FLAG_OK = true ∧
   (test_user_flag u KSMBD_USER_FLAG_GUEST_ACCOUNT = false →
    mem_read 0 (Z.to_nat (lr_hash_sz r)) (lr_hash r) = u_pass u ∧
    mem_read 0 (length (u_name u)) (lr_account r) = u_name u)).
Proof.
  intros Ha Hh Hsz. unfold __handle_login_request, usm_copy_user_passhash, usm_copy_user_account.
  set (status := if (0 <? length (u_sgid u))%nat then _ else _).
  assert (test_flag status KSMBD_USER_FLAG_OK = true) as Hst.
  { unfold status, KSMBD_USER_FLAG_OK, KSMBD_USER_FLAG_EXTENSION.
    destruct (0 <? _)%nat; rewrite test_flag_BIT, ?testbit_set_flag by lia;
      by rewrite Z.eqb_refl, ?orb_true_r. }
  unfold KSMBD_REQ_MAX_ACCOUNT_NAME_SZ, KSMBD_REQ_MAX_HASH_SZ in *.
  destruct (test_user_flag u KSMBD_USER_FLAG_GUEST_ACCOUNT) eqn:Hg; cbn.
  { split_and!; [done|done|vm_compute; congruence|vm_compute; congruence|by right]. }
  destruct (Z.leb_spec (Z.of_nat (length (u_pass u))) (Z.of_nat (length (lr_hash resp)))) as [Hp|Hp]; cbn.
  2:{ change (- ENOSPC <? 0) with true. cbn. split_and!; [done|done|lia|lia|by left]. }
  rewrite (proj2 (Z.ltb_ge _ _)) by lia.
  assert (u16 (Z.of_nat (length (u_pass u))) = Z.of_nat (length (u_pass u))) as Hu16.
  { apply wrap_small. lia. }
  assert (length (mem_write 0 (u_pass u) (lr_hash resp)) = Z.to_nat 18) as Hlh.
  { rewrite length_mem_write; lia. }
  destruct (Z.leb_spec (Z.of_nat (length (u_name u))) (Z.of_nat (length (lr_account resp)))) as [Hn|Hn]; cbn.
  - split_and!; [rewrite length_mem_write; lia|done|rewrite Hu16; lia|rewrite Hu16; lia|].
    right. split; [done|]. intros _. rewrite Hu16, Nat2Z.id.
    split; apply mem_read_write; lia.
  - split_and!; [done|done|rewrite Hu16; lia|rewrite Hu16; lia|by left].
Qed.

(** *** Failed logins *)
Lemma note_logout_ref fl k u :
  set_ref_count k (note_logout fl u) = note_logout fl (set_ref_count k u).
Proof. unfold note_logout. destruct test_flag; [|done]. cbn. by destruct (_ <? 10). Qed.
Lemma note_logout_name fl u : u_name (note_logout fl u) = u_name u ∧
  u_state (note_logout fl u) = u_state u ∧ u_ref_count (note_logout fl u) = u_ref_count u.
Proof. unfold note_logout. destruct test_flag; [|done]. by destruct (_ <? 10). Qed.

(** The report updates the user in place and changes nothing else. *)
Lemma usm_handle_logout_exact held s req p u :
  users_ok held s → usm_is_valid_ipc_account (oq_account req) = true →
  us_table s !! cstr (oq_account req) = Some p → us_heap s !! p = Some u →
  usm_handle_logout_request req s =
    Done tt (set_us_heap (<[p := note_logout (oq_account_flags req) u]> (us_heap s)) s).
Proof.
  intros Hok Hv Ht Hu. unfold usm_handle_logout_request. rewrite Hv. cbn [negb].
  pose proof (usm_lookup_user_wp held s (Some (cstr (oq_account req))) Hok) as Hl.
  unfold wp in Hl. unfold bind at 1. destruct usm_lookup_user as [[q|] s'|e s'|]; [| |done..].
  2:{ destruct Hl as [_ Hl]. cbn in Hl. congruence. }
  destruct Hl as (Hq & w & Hw & -> & _). cbn in Hq. simplify_eq.
  destruct (co_count Hok _ _ Hu) as [Href _].
  unfold put_ksmbd_user, bind, load, store, set_us_heap. cbn [us_heap us_table us_next].
  rewrite lookup_insert_eq. cbn [us_heap us_table us_next]. rewrite lookup_insert_eq.
  cbn [us_heap us_table us_next]. rewrite insert_insert_eq, lookup_insert_eq.
  cbn [us_heap us_table us_next]. rewrite lookup_insert_eq, insert_insert_eq.
  rewrite !note_logout_ref. destruct (note_logout_name (oq_account_flags req)
    (set_ref_count (u_ref_count u + 1) u)) as (_ & _ & ->). cbn [u_ref_count set_ref_count].
  rewrite (proj2 (Z.eqb_neq _ _)) by lia. unfold ret. do 4 f_equal.
  destruct u; unfold set_ref_count; cbn. f_equal. lia.
Qed.

Lemma note_bad_iter k u :
  u_failed_login_count u = 0 → test_user_flag u KSMBD_USER_FLAG_DELAY_SESSION = false →
  let v := Nat.iter k (note_logout KSMBD_USER_FLAG_BAD_PASSWORD) u in
  u_failed_login_count v = Z.min (Z.of_nat k) 10 ∧
  test_user_flag v KSMBD_USER_FLAG_DELAY_SESSION = bool_decide (10 < k)%nat.
Proof.
  intros H0 Hd. induction k as [|k [IHc IHf]].
  { cbn. rewrite H0, Hd. by split. }
  cbn zeta in *. rewrite Nat.iter_succ.
  set (v := Nat.iter k (note_logout KSMBD_USER_FLAG_BAD_PASSWORD) u) in *. clearbody v.
  assert (note_logout KSMBD_USER_FLAG_BAD_PASSWORD v =
    if u_failed_login_count v <? 10 then set_failed_login_count (u_failed_login_count v + 1) v
    else set_user_flags (set_flag (u_flags v) KSMBD_USER_FLAG_DELAY_SESSION) v) as -> by done.
  rewrite IHc. destruct (Z.ltb_spec (Z.min (Z.of_nat k) 10) 10) as [Hk|Hk].
  - cbn. split; [lia|]. unfold test_user_flag in *. cbn. rewrite IHf.
    apply bool_decide_ext. lia.
  - cbn. split; [lia|]. unfold test_user_flag, KSMBD_USER_FLAG_DELAY_SESSION. cbn.
    rewrite test_flag_BIT, testbit_set_flag, Z.eqb_refl, orb_true_r by lia.
    symmetry. apply bool_decide_eq_true. lia.
Qed.

(** After [k] reports of a bad password in a row the user's
    sessions are delayed exactly when [k] is more than ten, and one report
    without it clears the counter and the delay. *)
Theorem logout_lockout held s account p u k :
  users_ok held s → usm_is_valid_ipc_account account = true →
  us_table s !! cstr account = Some p → us_heap s !! p = Some u →
  u_failed_login_count u = 0 → test_user_flag u KSMBD_USER_FLAG_DELAY_SESSION = false →
  let bad := usm_handle_logout_request (mk_logout_request account KSMBD_USER_FLAG_BAD_PASSWORD) in
  let good := usm_handle_logout_request (mk_logout_request account 0) in
  ∃ v w, for_each (replicate k tt) (λ _, bad) s = Done tt (set_us_heap (<[p := v]> (us_heap s)) s) ∧
    test_user_flag v KSMBD_USER_FLAG_DELAY_SESSION = bool_decide (10 < k)%nat ∧
    good (set_us_heap (<[p := v]> (us_heap s)) s) = Done tt (set_us_heap (<[p := w]> (us_heap s)) s) ∧
    test_user_flag w KSMBD_USER_FLAG_DELAY_SESSION = false ∧ u_failed_login_count w = 0.
Proof.
  intros Hok Hv Ht Hu H0 Hd bad good.
  assert (∀ v, u_name v = u_name u → u_state v = u_state u → u_ref_count v = u_ref_count u →
    users_ok held (set_us_heap (<[p := v]> (us_heap s)) s)) as Hupd.
  { intros v Hn Hs Hr. destruct (co_count Hok _ _ Hu). pose proof (co_held Hok p).
    eapply counted_ext; [apply hold_0|].
    eapply counted_update with (o := u); [exact Hok|..]; unfold user_freeing; congruence || lia. }
  assert (∀ fl v, u_name v = u_name u → u_state v = u_state u → u_ref_count v = u_ref_count u →
    usm_handle_logout_request (mk_logout_request account fl) (set_us_heap (<[p := v]> (us_heap s)) s) =
    Done tt (set_us_heap (<[p := note_logout fl v]> (us_heap s)) s)) as Hstep.
  { intros fl v Hn Hs Hr. rewrite (usm_handle_logout_exact held _ _ p v); [|by apply Hupd|done|done|].
    - unfold set_us_heap; cbn. by rewrite insert_insert_eq.
    - apply lookup_insert_eq. }
  assert (∀ j v, u_name v = u_name u → u_state v = u_state u → u_ref_count v = u_ref_count u →
    for_each (replicate j tt) (λ _, bad) (set_us_heap (<[p := v]> (us_heap s)) s) =
    Done tt (set_us_heap (<[p := Nat.iter j (note_logout KSMBD_USER_FLAG_BAD_PASSWORD) v]> (us_heap s)) s)) as Hiter.
  { induction j as [|j IH]; intros v Hn Hs Hr; cbn [replicate for_each]; [done|].
    unfold bind, bad. rewrite Hstep by done. fold bad.
    destruct (note_logout_name KSMBD_USER_FLAG_BAD_PASSWORD v) as (E1 & E2 & E3).
    rewrite IH by congruence. by rewrite Nat.iter_succ_r. }
  destruct (note_bad_iter k u H0 Hd) as [_ Hf].
  assert (set_us_heap (<[p := u]> (us_heap s)) s = s) as Hid.
  { destruct s; unfold set_us_heap; cbn in *. by rewrite insert_id. }
  eexists _, _. rewrite <-Hid at 1. rewrite Hiter by done. split; [done|]. split; [exact Hf|].
  assert (∀ j, let v := Nat.iter j (note_logout KSMBD_USER_FLAG_BAD_PASSWORD) u in
    u_name v = u_name u ∧ u_state v = u_state u ∧ u_ref_count v = u_ref_count u) as Hkeep.
  { induction j as [|j (E1 & E2 & E3)]; [done|]. cbv zeta. rewrite Nat.iter_succ.
    by destruct (note_logout_name KSMBD_USER_FLAG_BAD_PASSWORD
      (Nat.iter j (note_logout KSMBD_USER_FLAG_BAD_PASSWORD) u)) as (-> & -> & ->). }
  destruct (Hkeep k) as (E1 & E2 & E3). unfold good. rewrite Hstep by done. split; [done|].
  unfold note_logout, test_user_flag, KSMBD_USER_FLAG_DELAY_SESSION. cbn [test_flag]. split; [|done].
  change (test_flag 0 KSMBD_USER_FLAG_BAD_PASSWORD) with false. cbn.
  by rewrite test_flag_BIT, testbit_clear_flag, Z.eqb_refl, andb_false_r by lia.
Qed.

(** *** Supplementary groups *)

(** The extended login answer never exceeds the message: it
    carries the user's groups, cut at what fits behind the header. *)
Theorem login_ext_fits held s req :
  users_ok held s →
  ∃ groups, usm_handle_login_request_ext req s =
    Done (if usm_is_valid_ipc_account (lq_account req) then 0 else - EINVAL, groups) s ∧
  sizeof_login_response_ext + 4 * Z.of_nat (length groups) ≤ KSMBD_IPC_MAX_MESSAGE_SIZE ∧
  (usm_is_valid_ipc_account (lq_account req) = true → cstr (lq_account req) ≠ [] →
   groups = match find_user s (Some (cstr (lq_account req))) with
            | Some u => take 990 (u_sgid u) | None => [] end).
Proof.
  intros Hok. unfold usm_handle_login_request_ext.
  destruct (usm_is_valid_ipc_account (lq_account req)); cbn [negb].
  2:{ exists []. split; [done|]. split; [vm_compute; congruence|done]. }
  case_bool_decide as Hc.
  { exists []. split; [done|]. split; [vm_compute; congruence|done]. }
  set (cut := λ u, take (Z.to_nat (Z.min (Z.of_nat (length (u_sgid u))) 990)) (u_sgid u)).
  exists (match find_user s (Some (cstr (lq_account req))) with Some u => cut u | None => [] end).
  change ((KSMBD_IPC_MAX_MESSAGE_SIZE - sizeof_login_response_ext) / 4) with 990.
  split; [|split].
  - apply (with_user held s (Some (cstr (lq_account req))) (λ u, (0, cut u))); [done|done|..].
    + by intros ->.
    + by intros u ->.
  - unfold sizeof_login_response_ext, KSMBD_IPC_MAX_MESSAGE_SIZE. destruct find_user as [u|]; cbn; [|lia].
    unfold cut. rewrite length_take. lia.
  - intros _ _. destruct find_user as [u|]; [|done]. unfold cut.
    destruct (Z.min_spec (Z.of_nat (length (u_sgid u))) 990) as [[? ->]|[? ->]]; [|done].
    rewrite Nat2Z.id, !take_ge by lia. done.
Qed.

(** No two neighbours of the list are both the invalid group. *)
Fixpoint isolated (l : list Z) : bool :=
  match l with
  | x :: (y :: _) as l' =>
      negb ((x =? KSMBD_SHARE_INVALID_GID) && (y =? KSMBD_SHARE_INVALID_GID)) && isolated l'
  | _ => true
  end.

(** The loop that removes the base group from the list is a
    filter as long as the invalid group does not occur twice in a row; of two
    neighbours it leaves one. *)
Theorem drop_invalid_gids_filter l :
  (isolated l = true → drop_invalid_gids l = filter (λ g, g ≠ KSMBD_SHARE_INVALID_GID) l) ∧
  (∀ k, drop_invalid_gids (KSMBD_SHARE_INVALID_GID :: KSMBD_SHARE_INVALID_GID :: k) =
        KSMBD_SHARE_INVALID_GID :: drop_invalid_gids k).
Proof.
  split; [|done]. remember (length l) as n eqn:Hn.
  assert (length l ≤ n)%nat as Hle by lia. clear Hn. revert l Hle.
  induction n as [|n IH]; intros [|x l] Hle Hi; try done; [cbn in Hle; lia|].
  cbn [length] in Hle. cbn [drop_invalid_gids].
  destruct (Z.eqb_spec x KSMBD_SHARE_INVALID_GID) as [->|Hx].
  - rewrite filter_cons_False by tauto. destruct l as [|y l]; [done|].
    cbn in Hi. apply andb_true_iff in Hi as [Hy Hi].
    assert (y ≠ KSMBD_SHARE_INVALID_GID) as Hne by (intros ->; by rewrite Z.eqb_refl in Hy).
    rewrite filter_cons_True by done. f_equal. apply IH; [cbn in Hle; lia|].
    destruct l; [done|]. by apply andb_true_iff in Hi as [_ Hi].
  - rewrite filter_cons_True by done. f_equal. apply IH; [lia|].
    destruct l; [done|]. cbn in Hi. by apply andb_true_iff in Hi as [_ Hi].
Qed.

(** When the password of a new user cannot be decoded, the name
    and the password are freed twice: once with the half-built user and once by
    [usm_add_new_user]. *)
Theorem usm_add_new_user_double_free {A : Allocator} base64_decode getpwnam getgrouplist name pwd s :
  g_try_malloc sizeof_ksmbd_user = true →
  match base64_decode pwd with None => True | Some p => INT_MAX < Z.of_nat (length p) end →
  usm_add_new_user base64_decode getpwnam getgrouplist name pwd s = Fault.
Proof.
  intros Hm Hd. unfold usm_add_new_user, new_ksmbd_user. rewrite Hm. cbn [negb].
  destruct (base64_decode pwd) as [p|].
  - rewrite (proj2 (Z.ltb_lt _ _)) by done. by destruct default.
  - by destruct default.
Qed.

(** ** Witnesses *)
Definition alice : user :=
  mk_user (str "alice") (str "cHc=") (str "pw") 1000 1000 1 0 0 0 [1000; 27].
Definition alice_state : ustate := mk_ustate {[ 1 := alice ]} {[ str "alice" := 1 ]} 2.
Definition alice_account : bytes := str "alice" ++ replicate 251 0.

Lemma alice_state_ok : users_ok (λ _, 0) alice_state.
Proof.
  unfold alice_state; split; cbn [us_heap us_table us_next].
  - intros n p [<- <-]%lookup_singleton_Some. exists alice. by rewrite lookup_singleton_eq.
  - intros p u [<- <-]%lookup_singleton_Some. cbn. split; [lia|].
    rewrite decide_True by exact (lookup_singleton_eq (M:=gmap bytes) (str "alice") 1). lia.
  - intros p u [<- <-]%lookup_singleton_Some _. exact (lookup_singleton_eq (M:=gmap bytes) (str "alice") 1).
  - intros p [u [<- _]%lookup_singleton_Some]. lia.
  - intros p. lia.
Qed.

Lemma usm_handle_login_request_spec_witness :
  let req := mk_login_request alice_account 0 in
  usm_handle_login_request KSMBD_CONF_MAP_TO_GUEST_BAD_USER None req blank_login_response alice_state
    = Done (login_spec KSMBD_CONF_MAP_TO_GUEST_BAD_USER None req alice_state) alice_state ∧
  (login_spec KSMBD_CONF_MAP_TO_GUEST_BAD_USER None req alice_state).2 =
    mk_login_response 1000 1000 alice_account (Z.lor KSMBD_USER_FLAG_OK KSMBD_USER_FLAG_EXTENSION) 2 (str "pw" ++ replicate 16 0).
Proof.
  intros req. split; [|vm_compute; reflexivity].
  apply (usm_handle_login_request_spec KSMBD_CONF_MAP_TO_GUEST_BAD_USER None (λ _, 0)).
  - exact alice_state_ok.
  - by right.
Defined.
Lemma users_refcounts_witness :
  wp (usm_remove_all_users map_to_list) alice_state
     (λ _ s', users_ok (λ _, 0) s' ∧ us_table s' = ∅ ∧ ∀ q, 1 ≤ 0 → is_Some (us_heap s' !! q))
     (λ _ _, False).
Proof.
  assert (∀ b : bytes, ∃ p : bytes, Some ([] : bytes) = Some p ∧ Z.of_nat (length p) ≤ INT_MAX) as Hb.
  { intros b. exists []. split; [reflexivity|vm_compute; congruence]. }
  apply (users_refcounts (A:=plenty) (λ b, Some []) (λ _, None) (λ _, []) map_to_list
    (λ t, reflexivity (map_to_list t)) Hb (λ _, 0) alice_state [] [] 1).
  exact alice_state_ok.
Defined.
Lemma login_response_bounds_witness :
  let r := __handle_login_request blank_login_response alice in
  length (lr_account r) = Z.to_nat KSMBD_REQ_MAX_ACCOUNT_NAME_SZ ∧ lr_hash_sz r = 2.
Proof.
  split; [|reflexivity]. apply (login_response_bounds blank_login_response alice).
  - reflexivity.
  - reflexivity.
  - split; vm_compute; congruence.
Defined.
Lemma logout_lockout_witness :
  ∃ v, for_each (replicate 11 tt) (λ _, usm_handle_logout_request
         (mk_logout_request alice_account KSMBD_USER_FLAG_BAD_PASSWORD)) alice_state
       = Done tt (set_us_heap (<[1 := v]> (us_heap alice_state)) alice_state) ∧
       test_user_flag v KSMBD_USER_FLAG_DELAY_SESSION = true.
Proof.
  destruct (logout_lockout (λ _, 0) alice_state alice_account 1 alice 11) as (v & w & H1 & H2 & _).
  - exact alice_state_ok.
  - reflexivity.
  - reflexivity.
  - reflexivity.
  - reflexivity.
  - reflexivity.
  - exists v. split; [exact H1|exact H2].
Defined.
Lemma login_ext_fits_witness :
  ∃ groups, usm_handle_login_request_ext (mk_login_request alice_account 0) alice_state
    = Done (0, groups) alice_state ∧ groups = [1000; 27].
Proof.
  destruct (login_ext_fits (λ _, 0) alice_state (mk_login_request alice_account 0) alice_state_ok)
    as (g & H1 & _ & H3).
  exists g. split; [exact H1|]. rewrite H3; [reflexivity|reflexivity|discriminate].
Defined.
Lemma usm_add_new_user_double_free_witness :
  usm_add_new_user (A:=plenty) (λ _, None) (λ _, None) (λ _, []) (str "bob") [] alice_state = Fault.
Proof.
  apply (usm_add_new_user_double_free (A:=plenty)); [reflexivity|exact I].
Defined.
