(* ===== verification/Shares.v ===== *)
(** * Share management ([src/tools/management/share.c])

    Shares live on a heap of their own next to the users: the access maps of a
    share hold references to users.  The table is keyed by the folded share
    name, as its hash and equality functions fold.  A share that is being built
    from a configuration group is a value until it is inserted. *)

From S2P Require Import Prelude ConfText Refcount Users.

(** ** The libraries *)

(** GLib: ASCII folding, UTF-8 checks and folding, splitting, stripping, and the order of
    a walk over a hash table. *)
Class GLib := {
  g_ascii_strdown : bytes → bytes;
  g_utf8_validate : bytes → bool;
  g_utf8_normalize : bytes → option bytes;
  g_utf8_casefold : bytes → bytes;
  g_strsplit_set : bytes → list bytes;
  g_strstrip : bytes → bytes;
  hash_order : gmap bytes Z → list (bytes * Z);
}.
(** The system databases and address parser. *)
Class System := {
  base64_decode : bytes → option bytes;
  getpwnam : bytes → option (Z * Z);
  getgrouplist : bytes → list Z;
  getgrnam : bytes → option (Z * list bytes);
  getpwents : list (bytes * Z);
  inet_pton : bool → bytes → option bytes;
}.

(** ** Constants *)
Definition KSMBD_SHARE_STATE_FREEING : Z := 1.
Definition KSMBD_REQ_MAX_SHARE_NAME : Z := 64.
Definition KSMBD_CONF_MAX_CONNECTIONS : Z := 65536.
Definition KSMBD_SHARE_FLAG_INVALID : Z := 0.
Definition KSMBD_SHARE_FLAG_AVAILABLE : Z := BIT 0.
Definition KSMBD_SHARE_FLAG_BROWSEABLE : Z := BIT 1.
Definition KSMBD_SHARE_FLAG_WRITEABLE : Z := BIT 2.
Definition KSMBD_SHARE_FLAG_READONLY : Z := BIT 3.
Definition KSMBD_SHARE_FLAG_GUEST_OK : Z := BIT 4.
Definition KSMBD_SHARE_FLAG_STORE_DOS_ATTRS : Z := BIT 6.
Definition KSMBD_SHARE_FLAG_OPLOCKS : Z := BIT 7.
Definition KSMBD_SHARE_FLAG_PIPE : Z := BIT 8.
Definition KSMBD_SHARE_FLAG_HIDE_DOT_FILES : Z := BIT 9.
Definition KSMBD_SHARE_FLAG_INHERIT_OWNER : Z := BIT 10.
Definition KSMBD_SHARE_FLAG_STREAMS : Z := BIT 11.
Definition KSMBD_SHARE_FLAG_FOLLOW_SYMLINKS : Z := BIT 12.
Definition KSMBD_SHARE_FLAG_ACL_XATTR : Z := BIT 13.
Definition KSMBD_SHARE_FLAG_UPDATE : Z := BIT 14.
Definition KSMBD_SHARE_FLAG_CROSSMNT : Z := BIT 15.
Definition KSMBD_SHARE_FLAG_CONTINUOUS_AVAILABILITY : Z := BIT 16.
Definition KSMBD_SHARE_FLAG_FRUIT_TIME_MACHINE : Z := BIT 17.
Definition KSMBD_SHARE_FLAG_FRUIT_FINDER_INFO : Z := BIT 18.
Definition KSMBD_SHARE_FLAG_FRUIT_RFORK_SIZE : Z := BIT 19.
Definition KSMBD_SHARE_FLAG_FRUIT_MAX_ACCESS : Z := BIT 20.
Definition KSMBD_SHARE_FLAG_STREAMS_DISABLED : Z := BIT 23.

(** [enum share_users] *)
Definition KSMBD_SHARE_ADMIN_USERS_MAP : nat := 0.
Definition KSMBD_SHARE_VALID_USERS_MAP : nat := 1.
Definition KSMBD_SHARE_INVALID_USERS_MAP : nat := 2.
Definition KSMBD_SHARE_READ_LIST_MAP : nat := 3.
Definition KSMBD_SHARE_WRITE_LIST_MAP : nat := 4.
Definition KSMBD_SHARE_USERS_MAX : nat := 5.

(** [enum KSMBD_SHARE_CONF] with the names of [KSMBD_SHARE_CONF] *)
Inductive share_conf :=
  | CONF_COMMENT | CONF_PATH | CONF_GUEST_OK | CONF_GUEST_ACCOUNT | CONF_READ_ONLY
  | CONF_BROWSEABLE | CONF_WRITE_OK | CONF_WRITEABLE | CONF_STORE_DOS_ATTRIBUTES | CONF_OPLOCKS
  | CONF_CREATE_MASK | CONF_DIRECTORY_MASK | CONF_FORCE_CREATE_MODE | CONF_FORCE_DIRECTORY_MODE
  | CONF_FORCE_GROUP | CONF_FORCE_USER | CONF_HIDE_DOT_FILES | CONF_VALID_USERS
  | CONF_INVALID_USERS | CONF_READ_LIST | CONF_WRITE_LIST | CONF_ADMIN_USERS | CONF_HOSTS_ALLOW
  | CONF_HOSTS_DENY | CONF_MAX_CONNECTIONS | CONF_VETO_FILES | CONF_INHERIT_OWNER
  | CONF_FOLLOW_SYMLINKS | CONF_VFS_OBJECTS | CONF_WRITABLE | CONF_CROSSMNT
  | CONF_FRUIT_TIME_MACHINE | CONF_FRUIT_TIME_MACHINE_MAX_SIZE | CONF_FRUIT_FINDER_INFO
  | CONF_FRUIT_RFORK_SIZE | CONF_FRUIT_MAX_ACCESS | CONF_CONTINUOUS_AVAILABILITY
  | CONF_STREAMS | CONF_ACL_XATTR.
#[export] Instance share_conf_eq_dec : EqDecision share_conf.
Proof. solve_decision. Defined.

Definition KSMBD_SHARE_CONF (c : share_conf) : bytes :=
  str match c with
  | CONF_COMMENT => "comment" | CONF_PATH => "path" | CONF_GUEST_OK => "guest ok"
  | CONF_GUEST_ACCOUNT => "guest account" | CONF_READ_ONLY => "read only"
  | CONF_BROWSEABLE => "browseable" | CONF_WRITE_OK => "write ok"
  | CONF_WRITEABLE => "writeable" | CONF_STORE_DOS_ATTRIBUTES => "store dos attributes"
  | CONF_OPLOCKS => "oplocks" | CONF_CREATE_MASK => "create mask"
  | CONF_DIRECTORY_MASK => "directory mask" | CONF_FORCE_CREATE_MODE => "force create mode"
  | CONF_FORCE_DIRECTORY_MODE => "force directory mode" | CONF_FORCE_GROUP => "force group"
  | CONF_FORCE_USER => "force user" | CONF_HIDE_DOT_FILES => "hide dot files"
  | CONF_VALID_USERS => "valid users" | CONF_INVALID_USERS => "invalid users"
  | CONF_READ_LIST => "read list" | CONF_WRITE_LIST => "write list"
  | CONF_ADMIN_USERS => "admin users" | CONF_HOSTS_ALLOW => "hosts allow"
  | CONF_HOSTS_DENY => "hosts deny" | CONF_MAX_CONNECTIONS => "max connections"
  | CONF_VETO_FILES => "veto files" | CONF_INHERIT_OWNER => "inherit owner"
  | CONF_FOLLOW_SYMLINKS => "follow symlinks" | CONF_VFS_OBJECTS => "vfs objects"
  | CONF_WRITABLE => "writable" | CONF_CROSSMNT => "crossmnt"
  | CONF_FRUIT_TIME_MACHINE => "fruit time machine"
  | CONF_FRUIT_TIME_MACHINE_MAX_SIZE => "fruit time machine max size"
  | CONF_FRUIT_FINDER_INFO => "fruit finder info"
  | CONF_FRUIT_RFORK_SIZE => "fruit resource fork size"
  | CONF_FRUIT_MAX_ACCESS => "fruit max access"
  | CONF_CONTINUOUS_AVAILABILITY => "continuous availability"
  | CONF_STREAMS => "streams" | CONF_ACL_XATTR => "acl xattr"
  end%string.

Definition KSMBD_SHARE_CONF_IS_BROKEN (c : share_conf) : bool := bool_decide (c = CONF_ADMIN_USERS).

(** ** Shares *)

(** [veto_list_sz] is the length of [sh_veto_list]; a map that was not created
    is [None]; the values of [sh_maps] are the addresses of users. *)
Record share := mk_share {
  sh_name : bytes;
  sh_path : option bytes;
  sh_max_connections : Z;
  sh_num_connections : Z;
  sh_ref_count : Z;
  sh_create_mask : Z;
  sh_directory_mask : Z;
  sh_force_create_mode : Z;
  sh_force_directory_mode : Z;
  sh_force_uid : Z;
  sh_force_gid : Z;
  sh_flags : Z;
  sh_state : Z;
  sh_time_machine_max_size : Z;
  sh_veto_list : option bytes;
  sh_guest_account : option bytes;
  sh_maps : list (option (gmap bytes Z));
  sh_hosts_allow : option (gset bytes);
  sh_hosts_deny : option (gset bytes);
  sh_comment : option bytes;
}.
(** Assignment to a field. *)
Definition set_sh_path (v : option bytes) (x : share) : share :=
  mk_share (sh_name x) v (sh_max_connections x) (sh_num_connections x) (sh_ref_count x)
    (sh_create_mask x) (sh_directory_mask x) (sh_force_create_mode x)
    (sh_force_directory_mode x) (sh_force_uid x) (sh_force_gid x) (sh_flags x) (sh_state x)
    (sh_time_machine_max_size x) (sh_veto_list x) (sh_guest_account x) (sh_maps x)
    (sh_hosts_allow x) (sh_hosts_deny x) (sh_comment x).
Definition set_sh_max_connections (v : Z) (x : share) : share :=
  mk_share (sh_name x) (sh_path x) v (sh_num_connections x) (sh_ref_count x) (sh_create_mask x)
    (sh_directory_mask x) (sh_force_create_mode x) (sh_force_directory_mode x) (sh_force_uid x)
    (sh_force_gid x) (sh_flags x) (sh_state x) (sh_time_machine_max_size x) (sh_veto_list x)
    (sh_guest_account x) (sh_maps x) (sh_hosts_allow x) (sh_hosts_deny x) (sh_comment x).
Definition set_sh_num_connections (v : Z) (x : share) : share :=
  mk_share (sh_name x) (sh_path x) (sh_max_connections x) v (sh_ref_count x) (sh_create_mask x)
    (sh_directory_mask x) (sh_force_create_mode x) (sh_force_directory_mode x) (sh_force_uid x)
    (sh_force_gid x) (sh_flags x) (sh_state x) (sh_time_machine_max_size x) (sh_veto_list x)
    (sh_guest_account x) (sh_maps x) (sh_hosts_allow x) (sh_hosts_deny x) (sh_comment x).
Definition set_sh_ref_count (v : Z) (x : share) : share :=
  mk_share (sh_name x) (sh_path x) (sh_max_connections x) (sh_num_connections x) v
    (sh_create_mask x) (sh_directory_mask x) (sh_force_create_mode x)
    (sh_force_directory_mode x) (sh_force_uid x) (sh_force_gid x) (sh_flags x) (sh_state x)
    (sh_time_machine_max_size x) (sh_veto_list x) (sh_guest_account x) (sh_maps x)
    (sh_hosts_allow x) (sh_hosts_deny x) (sh_comment x).
Definition set_sh_create_mask (v : Z) (x : share) : share :=
  mk_share (sh_name x) (sh_path x) (sh_max_connections x) (sh_num_connections x)
    (sh_ref_count x) v (sh_directory_mask x) (sh_force_create_mode x)
    (sh_force_directory_mode x) (sh_force_uid x) (sh_force_gid x) (sh_flags x) (sh_state x)
    (sh_time_machine_max_size x) (sh_veto_list x) (sh_guest_account x) (sh_maps x)
    (sh_hosts_allow x) (sh_hosts_deny x) (sh_comment x).
Definition set_sh_directory_mask (v : Z) (x : share) : share :=
  mk_share (sh_name x) (sh_path x) (sh_max_connections x) (sh_num_connections x)
    (sh_ref_count x) (sh_create_mask x) v (sh_force_create_mode x) (sh_force_directory_mode x)
    (sh_force_uid x) (sh_force_gid x) (sh_flags x) (sh_state x) (sh_time_machine_max_size x)
    (sh_veto_list x) (sh_guest_account x) (sh_maps x) (sh_hosts_allow x) (sh_hosts_deny x)
    (sh_comment x).
Definition set_sh_force_create_mode (v : Z) (x : share) : share :=
  mk_share (sh_name x) (sh_path x) (sh_max_connections x) (sh_num_connections x)
    (sh_ref_count x) (sh_create_mask x) (sh_directory_mask x) v (sh_force_directory_mode x)
    (sh_force_uid x) (sh_force_gid x) (sh_flags x) (sh_state x) (sh_time_machine_max_size x)
    (sh_veto_list x) (sh_guest_account x) (sh_maps x) (sh_hosts_allow x) (sh_hosts_deny x)
    (sh_comment x).
Definition set_sh_force_directory_mode (v : Z) (x : share) : share :=
  mk_share (sh_name x) (sh_path x) (sh_max_connections x) (sh_num_connections x)
    (sh_ref_count x) (sh_create_mask x) (sh_directory_mask x) (sh_force_create_mode x) v
    (sh_force_uid x) (sh_force_gid x) (sh_flags x) (sh_state x) (sh_time_machine_max_size x)
    (sh_veto_list x) (sh_guest_account x) (sh_maps x) (sh_hosts_allow x) (sh_hosts_deny x)
    (sh_comment x).
Definition set_sh_force_uid (v : Z) (x : share) : share :=
  mk_share (sh_name x) (sh_path x) (sh_max_connections x) (sh_num_connections x)
    (sh_ref_count x) (sh_create_mask x) (sh_directory_mask x) (sh_force_create_mode x)
    (sh_force_directory_mode x) v (sh_force_gid x) (sh_flags x) (sh_state x)
    (sh_time_machine_max_size x) (sh_veto_list x) (sh_guest_account x) (sh_maps x)
    (sh_hosts_allow x) (sh_hosts_deny x) (sh_comment x).
Definition set_sh_force_gid (v : Z) (x : share) : share :=
  mk_share (sh_name x) (sh_path x) (sh_max_connections x) (sh_num_connections x)
    (sh_ref_count x) (sh_create_mask x) (sh_directory_mask x) (sh_force_create_mode x)
    (sh_force_directory_mode x) (sh_force_uid x) v (sh_flags x) (sh_state x)
    (sh_time_machine_max_size x) (sh_veto_list x) (sh_guest_account x) (sh_maps x)
    (sh_hosts_allow x) (sh_hosts_deny x) (sh_comment x).
Definition set_sh_flags (v : Z) (x : share) : share :=
  mk_share (sh_name x) (sh_path x) (sh_max_connections x) (sh_num_connections x)
    (sh_ref_count x) (sh_create_mask x) (sh_directory_mask x) (sh_force_create_mode x)
    (sh_force_directory_mode x) (sh_force_uid x) (sh_force_gid x) v (sh_state x)
    (sh_time_machine_max_size x) (sh_veto_list x) (sh_guest_account x) (sh_maps x)
    (sh_hosts_allow x) (sh_hosts_deny x) (sh_comment x).
Definition set_sh_state (v : Z) (x : share) : share :=
  mk_share (sh_name x) (sh_path x) (sh_max_connections x) (sh_num_connections x)
    (sh_ref_count x) (sh_create_mask x) (sh_directory_mask x) (sh_force_create_mode x)
    (sh_force_directory_mode x) (sh_force_uid x) (sh_force_gid x) (sh_flags x) v
    (sh_time_machine_max_size x) (sh_veto_list x) (sh_guest_account x) (sh_maps x)
    (sh_hosts_allow x) (sh_hosts_deny x) (sh_comment x).
Definition set_sh_time_machine_max_size (v : Z) (x : share) : share :=
  mk_share (sh_name x) (sh_path x) (sh_max_connections x) (sh_num_connections x)
    (sh_ref_count x) (sh_create_mask x) (sh_directory_mask x) (sh_force_create_mode x)
    (sh_force_directory_mode x) (sh_force_uid x) (sh_force_gid x) (sh_flags x) (sh_state x) v
    (sh_veto_list x) (sh_guest_account x) (sh_maps x) (sh_hosts_allow x) (sh_hosts_deny x)
    (sh_comment x).
Definition set_sh_veto_list (v : option bytes) (x : share) : share :=
  mk_share (sh_name x) (sh_path x) (sh_max_connections x) (sh_num_connections x)
    (sh_ref_count x) (sh_create_mask x) (sh_directory_mask x) (sh_force_create_mode x)
    (sh_force_directory_mode x) (sh_force_uid x) (sh_force_gid x) (sh_flags x) (sh_state x)
    (sh_time_machine_max_size x) v (sh_guest_account x) (sh_maps x) (sh_hosts_allow x)
    (sh_hosts_deny x) (sh_comment x).
Definition set_sh_guest_account (v : option bytes) (x : share) : share :=
  mk_share (sh_name x) (sh_path x) (sh_max_connections x) (sh_num_connections x)
    (sh_ref_count x) (sh_create_mask x) (sh_directory_mask x) (sh_force_create_mode x)
    (sh_force_directory_mode x) (sh_force_uid x) (sh_force_gid x) (sh_flags x) (sh_state x)
    (sh_time_machine_max_size x) (sh_veto_list x) v (sh_maps x) (sh_hosts_allow x)
    (sh_hosts_deny x) (sh_comment x).
Definition set_sh_maps (v : list (option (gmap bytes Z))) (x : share) : share :=
  mk_share (sh_name x) (sh_path x) (sh_max_connections x) (sh_num_connections x)
    (sh_ref_count x) (sh_create_mask x) (sh_directory_mask x) (sh_force_create_mode x)
    (sh_force_directory_mode x) (sh_force_uid x) (sh_force_gid x) (sh_flags x) (sh_state x)
    (sh_time_machine_max_size x) (sh_veto_list x) (sh_guest_account x) v (sh_hosts_allow x)
    (sh_hosts_deny x) (sh_comment x).
Definition set_sh_hosts_allow (v : option (gset bytes)) (x : share) : share :=
  mk_share (sh_name x) (sh_path x) (sh_max_connections x) (sh_num_connections x)
    (sh_ref_count x) (sh_create_mask x) (sh_directory_mask x) (sh_force_create_mode x)
    (sh_force_directory_mode x) (sh_force_uid x) (sh_force_gid x) (sh_flags x) (sh_state x)
    (sh_time_machine_max_size x) (sh_veto_list x) (sh_guest_account x) (sh_maps x) v
    (sh_hosts_deny x) (sh_comment x).
Definition set_sh_hosts_deny (v : option (gset bytes)) (x : share) : share :=
  mk_share (sh_name x) (sh_path x) (sh_max_connections x) (sh_num_connections x)
    (sh_ref_count x) (sh_create_mask x) (sh_directory_mask x) (sh_force_create_mode x)
    (sh_force_directory_mode x) (sh_force_uid x) (sh_force_gid x) (sh_flags x) (sh_state x)
    (sh_time_machine_max_size x) (sh_veto_list x) (sh_guest_account x) (sh_maps x)
    (sh_hosts_allow x) v (sh_comment x).
Definition set_sh_comment (v : option bytes) (x : share) : share :=
  mk_share (sh_name x) (sh_path x) (sh_max_connections x) (sh_num_connections x)
    (sh_ref_count x) (sh_create_mask x) (sh_directory_mask x) (sh_force_create_mode x)
    (sh_force_directory_mode x) (sh_force_uid x) (sh_force_gid x) (sh_flags x) (sh_state x)
    (sh_time_machine_max_size x) (sh_veto_list x) (sh_guest_account x) (sh_maps x)
    (sh_hosts_allow x) (sh_hosts_deny x) v.

Definition set_share_flag (flag : Z) (x : share) : share := set_sh_flags (set_flag (sh_flags x) flag) x.
Definition clear_share_flag (flag : Z) (x : share) : share := set_sh_flags (clear_flag (sh_flags x) flag) x.
Definition test_share_flag (x : share) (flag : Z) : bool := test_flag (sh_flags x) flag.

(** [shares_table], the shares, and the users they refer to. *)
Record sstate := mk_sstate {
  ss_users : ustate;
  ss_heap : gmap Z share;
  ss_table : gmap bytes Z;
  ss_next : Z;
}.
Definition set_ss_users (u : ustate) (s : sstate) : sstate :=
  mk_sstate u (ss_heap s) (ss_table s) (ss_next s).
Definition set_ss_heap (h : gmap Z share) (s : sstate) : sstate :=
  mk_sstate (ss_users s) h (ss_table s) (ss_next s).
Definition set_ss_table (t : gmap bytes Z) (s : sstate) : sstate :=
  mk_sstate (ss_users s) (ss_heap s) t (ss_next s).
Abbreviation sload := (load ss_heap).
Abbreviation sstore := (store ss_heap set_ss_heap).
Abbreviation on_users := (zoom ss_users set_ss_users).

Section Shares.
Context `{GLib, System, Allocator}.

(** *** Names *)
Definition shm_share_name (name : bytes) : bool :=
  (0 <? length name)%nat &&
  (Z.of_nat (length name) <? KSMBD_REQ_MAX_SHARE_NAME) &&
  g_utf8_validate name &&
  forallb (λ c, cp_printable c && negb (c =? 91) && negb (c =? 93)) name.
Definition shm_share_config (k : bytes) (c : share_conf) : bool :=
  negb (KSMBD_SHARE_CONF_IS_BROKEN c) && key_equal g_ascii_strdown k (KSMBD_SHARE_CONF c).
Definition shm_casefold_share_name (name : bytes) : bytes :=
  match g_utf8_normalize name with
  | None => g_ascii_strdown name
  | Some nfdi_name => g_utf8_casefold nfdi_name
  end.
Definition shm_share_name_equal (lname rname : bytes) : bool :=
  bool_decide (shm_casefold_share_name lname = shm_casefold_share_name rname).

(** *** Life cycle *)
Definition free_user_map (map : option (gmap bytes Z)) : prog ustate unit :=
  match map with
  | None => ret tt
  | Some m => for_each (hash_order m) (λ '(_, user), put_ksmbd_user (Some user))
  end.
(** The part of [kill_ksmbd_share] that gives back the users of the maps. *)
Definition free_maps (x : share) : prog ustate unit := for_each (sh_maps x) free_user_map.
Definition kill_ksmbd_share (p : Z) : prog sstate unit :=
  x <- sload p ;;
  on_users (free_maps x) ;;
  release ss_heap set_ss_heap p.

Definition __shm_remove_share (p : Z) : prog sstate unit :=
  x <- sload p ;;
  (if negb (sh_state x =? KSMBD_SHARE_STATE_FREEING) then
     s <- get ;;
     match ss_table s !! shm_casefold_share_name (sh_name x) with
     | None => fail (- EINVAL)
     | Some _ =>
         modify (set_ss_table (delete (shm_casefold_share_name (sh_name x)) (ss_table s)))
     end
   else ret tt) ;;
  kill_ksmbd_share p.

Definition get_ksmbd_share (p : Z) : prog sstate (option Z) :=
  x <- sload p ;;
  if negb (sh_ref_count x =? 0)
  then sstore p (set_sh_ref_count (sh_ref_count x + 1) x) ;; ret (Some p)
  else ret None.

Definition put_ksmbd_share (share : option Z) : prog sstate unit :=
  match share with
  | None => ret tt
  | Some p =>
      x <- sload p ;;
      let n := sh_ref_count x - 1 in
      sstore p (set_sh_ref_count n x) ;;
      if n =? 0 then ignore (__shm_remove_share p) else ret tt
  end.

Definition shm_remove_all_shares : prog sstate unit :=
  s <- get ;;
  for_each (hash_order (ss_table s)) (λ '(name, p),
    x <- sload p ;;
    sstore p (set_sh_state KSMBD_SHARE_STATE_FREEING x) ;;
    put_ksmbd_share (Some p) ;;
    modify (λ s, set_ss_table (delete name (ss_table s)) s)).

Definition shm_destroy : prog sstate unit :=
  s <- get ;;
  for_each (hash_order (ss_table s)) (λ '(_, p), kill_ksmbd_share p) ;;
  modify (set_ss_table ∅).

Definition __shm_lookup_share (name : bytes) (s : sstate) : option Z :=
  ss_table s !! shm_casefold_share_name name.
Definition shm_lookup_share (name : bytes) : prog sstate (option Z) :=
  s <- get ;;
  match __shm_lookup_share name s with
  | None => ret None
  | Some p => get_ksmbd_share p
  end.

(** *** Connections *)
Definition shm_open_connection (p : Z) : prog sstate Z :=
  x <- sload p ;;
  if negb (sh_max_connections x =? 0) && (sh_max_connections x <=? sh_num_connections x)
  then ret (- EINVAL)
  else sstore p (set_sh_num_connections (sh_num_connections x + 1) x) ;; ret 0.
Definition shm_close_connection (share : option Z) : prog sstate unit :=
  match share with
  | None => ret tt
  | Some p =>
      x <- sload p ;;
      if 0 <? sh_num_connections x
      then sstore p (set_sh_num_connections (sh_num_connections x - 1) x) else ret tt
  end.

(** *** Access maps *)
Definition shm_lookup_users_map (x : share) (map : nat) (name : bytes) : Z :=
  if (KSMBD_SHARE_USERS_MAX <=? map)%nat then - EINVAL
  else match nth map (sh_maps x) None with
       | None => - EINVAL
       | Some m => match m !! name with Some _ => 0 | None => - ENOENT end
       end.

(** [INET6_ADDRSTRLEN + 1], the size of [network_str] *)
Definition network_str_size : Z := 47.
(** The octets are compared up to [full_bytes], then the masked next one. *)
Definition prefix_match (prefix_len : Z) (net_addr host_addr : bytes) : bool :=
  let full_bytes := Z.to_nat (prefix_len / 8) in
  let remaining_bits := prefix_len mod 8 in
  bool_decide (take full_bytes net_addr = take full_bytes host_addr) &&
  (if 0 <? remaining_bits then
     let mask := u8 (Z.shiftl 0xFF (8 - remaining_bits)) in
     Z.land (nth full_bytes net_addr 0) mask =? Z.land (nth full_bytes host_addr 0) mask
   else true).


Definition match_host_cidr (pattern addr : bytes) : bool :=
  let exact := bool_decide (pattern = addr) in
  match split_at 47 pattern with
  | None => exact
  | Some (network_str, len_str) =>
      if (length network_str =? 0)%nat || (network_str_size <=? Z.of_nat (length network_str))
      then exact
      else match strtol10 len_str with
      | Some (n, []) =>
          let prefix_len := s32 n in
          if prefix_len <? 0 then exact
          else
            let af_inet6 := match split_at 58 network_str with Some _ => true | None => false end in
            match inet_pton af_inet6 network_str, inet_pton af_inet6 addr with
            | Some net_addr, Some host_addr =>
                let addr_len := if af_inet6 then 16 else 4 in
                if addr_len * 8 <? prefix_len then exact
                else prefix_match prefix_len net_addr host_addr
            | _, _ => exact
            end
      | _ => exact
      end
  end.

Inductive share_hosts := KSMBD_SHARE_HOSTS_ALLOW_MAP | KSMBD_SHARE_HOSTS_DENY_MAP.
Definition shm_lookup_hosts_map (x : share) (map : share_hosts) (host : bytes) : Z :=
  match (match map with KSMBD_SHARE_HOSTS_ALLOW_MAP => sh_hosts_allow x
                      | KSMBD_SHARE_HOSTS_DENY_MAP => sh_hosts_deny x end) with
  | None => - EINVAL
  | Some patterns =>
      if existsb (λ pattern, match_host_cidr pattern host) (elements patterns) then 0 else - ENOENT
  end.
End Shares.

(** ** Shares from configuration groups *)
Section ShareConf.
Context `{GLib, System, Allocator}.
(** [ksmbd_health_status & KSMBD_SHOULD_RELOAD_CONFIG] *)
Variable reload_config : bool.

(** The state of [process_share_conf_kv]: the users, the group's table and
    the share under construction. *)
Record pstate := mk_pstate { ps_users : ustate; ps_kv : kvs; ps_share : share }.
Definition set_ps_users (u : ustate) (s : pstate) : pstate := mk_pstate u (ps_kv s) (ps_share s).
Definition upd_share (f : share → share) : prog pstate unit :=
  modify (λ s, mk_pstate (ps_users s) (ps_kv s) (f (ps_share s))).
Definition p_users {T} : prog ustate T → prog pstate T := zoom ps_users set_ps_users.

Definition new_ksmbd_share : share :=
  let x := mk_share [] None 0 0 1 0 0 0 0 KSMBD_SHARE_INVALID_UID KSMBD_SHARE_INVALID_GID 0 0 0
             None None (replicate KSMBD_SHARE_USERS_MAX None) None None None in
  let x := if reload_config then set_share_flag KSMBD_SHARE_FLAG_UPDATE x else x in
  set_share_flag KSMBD_SHARE_FLAG_AVAILABLE x.
Definition sizeof_ksmbd_share : Z := 192.

(** *** Maps *)
Definition ensure_map (map : nat) (x : share) : share :=
  match nth map (sh_maps x) None with
  | Some _ => x
  | None => set_sh_maps (<[map := Some ∅]> (sh_maps x)) x
  end.

(** One name that is no group: the looked-up reference goes into the map
    unless the user is already there. *)
Definition add_user_name (map : nat) (name : bytes) : prog pstate unit :=
  if bool_decide (name = []) then ret tt
  else
    user <- p_users (usm_lookup_user (Some name)) ;;
    match user with
    | None => ret tt
    | Some p =>
        u <- p_users (uload p) ;;
        s <- get ;;
        let m := default ∅ (nth map (sh_maps (ps_share s)) None) in
        match m !! u_name u with
        | Some _ => p_users (put_ksmbd_user (Some p))
        | None => upd_share (λ x, set_sh_maps (<[map := Some (<[u_name u := p]> m)]> (sh_maps x)) x)
        end
    end.
(** An entry that starts with [grc] names a group: the users whose group it is
    and its members, none of which is a group again. *)
Definition add_users_map (map : nat) (names : list bytes) (grc : Z) : prog pstate unit :=
  upd_share (ensure_map map) ;;
  for_each names (λ name,
    match name with
    | [] => ret tt
    | c :: rest =>
        if c =? grc then
          match getgrnam rest with
          | None => ret tt
          | Some (gid, gr_mem) =>
              for_each (filter (λ e, e.2 = gid) getpwents).*1 (add_user_name map) ;;
              for_each gr_mem (add_user_name map)
          end
        else add_user_name map name
    end).

Definition add_hosts_map (map : share_hosts) (names : list bytes) : prog pstate unit :=
  let add (m : option (gset bytes)) : option (gset bytes) :=
    Some (default ∅ m ∪ list_to_set (filter (λ n, n ≠ []) names)) in
  upd_share (λ x, match map with
    | KSMBD_SHARE_HOSTS_ALLOW_MAP => set_sh_hosts_allow (add (sh_hosts_allow x)) x
    | KSMBD_SHARE_HOSTS_DENY_MAP => set_sh_hosts_deny (add (sh_hosts_deny x)) x
    end).

Definition make_veto_list (veto : bytes) : bytes := (λ c, if c =? 47 then 0 else c) <$> veto.

Definition force_group (name : bytes) : prog pstate unit :=
  match getgrnam name with
  | None => fail (- EINVAL)
  | Some (gr_gid, _) =>
      upd_share (set_sh_force_gid (u16 gr_gid)) ;;
      assert_ (negb (u16 gr_gid =? KSMBD_SHARE_INVALID_GID)) (- EINVAL)
  end.
Definition force_user (name : bytes) : prog pstate unit :=
  match getpwnam name with
  | None => fail (- EINVAL)
  | Some (pw_uid, pw_gid) =>
      upd_share (set_sh_force_uid (u16 pw_uid)) ;;
      assert_ (negb (u16 pw_uid =? KSMBD_SHARE_INVALID_UID)) (- EINVAL) ;;
      s <- get ;;
      if sh_force_gid (ps_share s) =? KSMBD_SHARE_INVALID_GID then
        upd_share (set_sh_force_gid (u16 pw_gid)) ;;
        assert_ (negb (u16 pw_gid =? KSMBD_SHARE_INVALID_GID)) (- EINVAL)
      else ret tt
  end.

(** *** Keys *)
Definition group_kv_steal (c : share_conf) : prog pstate (option bytes) := λ s,
  if KSMBD_SHARE_CONF_IS_BROKEN c then Done None s
  else let '(v, kv) := cp_group_kv_steal g_ascii_strdown (ps_kv s) (KSMBD_SHARE_CONF c) in
       Done v (mk_pstate (ps_users s) kv (ps_share s)).
(** [if (group_kv_steal(kv, c, &k, &v)) { f }] *)
Definition on_kv (c : share_conf) (f : bytes → prog pstate unit) : prog pstate unit :=
  v <- group_kv_steal c ;; match v with Some v => f v | None => ret tt end.
(** Set or clear a flag by the value. *)
Definition flag_kv (c : share_conf) (flag : Z) : prog pstate unit :=
  on_kv c (λ v, upd_share (if cp_get_group_kv_bool g_ascii_strdown v
                           then set_share_flag flag else clear_share_flag flag)).
Definition read_only (on : bool) (x : share) : share :=
  if on then clear_share_flag KSMBD_SHARE_FLAG_WRITEABLE (set_share_flag KSMBD_SHARE_FLAG_READONLY x)
  else set_share_flag KSMBD_SHARE_FLAG_WRITEABLE (clear_share_flag KSMBD_SHARE_FLAG_READONLY x).
Definition mask_kv (c : share_conf) (set : Z → share → share) : prog pstate unit :=
  on_kv c (λ v, upd_share (set (u16 (cp_get_group_kv_long_base v 8)))).
Definition users_kv (c : share_conf) (map : nat) : prog pstate unit :=
  on_kv c (λ v, add_users_map map (g_strsplit_set v) 64).
Definition vfs_object (p : bytes) (x : share) : share :=
  if bool_decide (p = str "acl_xattr") then set_share_flag KSMBD_SHARE_FLAG_ACL_XATTR x
  else if bool_decide (p = str "streams_xattr") then set_share_flag KSMBD_SHARE_FLAG_STREAMS x
  else x.

(** The statements of [process_share_conf_kv] in three parts: up to the guest
    account, the access mode, and the rest. *)
Definition conf_kv_begin : prog pstate unit :=
  on_kv CONF_COMMENT (λ v,
    upd_share (set_sh_comment (Some v)) ;; assert_ (g_utf8_validate v) (- EINVAL)) ;;
  on_kv CONF_PATH (λ v, upd_share (set_sh_path (Some v))) ;;
  flag_kv CONF_GUEST_OK KSMBD_SHARE_FLAG_GUEST_OK ;;
  on_kv CONF_GUEST_ACCOUNT (λ v,
    upd_share (set_sh_guest_account (Some v)) ;;
    p_users (usm_add_guest_account base64_decode getpwnam getgrouplist v) else_return (- EINVAL)).
Definition conf_kv_mode : prog pstate unit :=
  has_read_only <- group_kv_steal CONF_READ_ONLY ;;
  match has_read_only with
  | Some v => upd_share (read_only (cp_get_group_kv_bool g_ascii_strdown v))
  | None => ret tt
  end ;;
  flag_kv CONF_BROWSEABLE KSMBD_SHARE_FLAG_BROWSEABLE ;;
  match has_read_only with
  | Some _ => ret tt
  | None =>
      v1 <- group_kv_steal CONF_WRITABLE ;;
      v2 <- match v1 with Some _ => ret v1 | None => group_kv_steal CONF_WRITEABLE end ;;
      v3 <- match v2 with Some _ => ret v2 | None => group_kv_steal CONF_WRITE_OK end ;;
      match v3 with
      | Some v => upd_share (read_only (negb (cp_get_group_kv_bool g_ascii_strdown v)))
      | None => ret tt
      end
  end.
Definition conf_kv_rest : prog pstate unit :=
  flag_kv CONF_STORE_DOS_ATTRIBUTES KSMBD_SHARE_FLAG_STORE_DOS_ATTRS ;;
  flag_kv CONF_OPLOCKS KSMBD_SHARE_FLAG_OPLOCKS ;;
  mask_kv CONF_CREATE_MASK set_sh_create_mask ;;
  mask_kv CONF_DIRECTORY_MASK set_sh_directory_mask ;;
  mask_kv CONF_FORCE_CREATE_MODE set_sh_force_create_mode ;;
  mask_kv CONF_FORCE_DIRECTORY_MODE set_sh_force_directory_mode ;;
  on_kv CONF_FORCE_GROUP force_group ;;
  on_kv CONF_FORCE_USER force_user ;;
  flag_kv CONF_HIDE_DOT_FILES KSMBD_SHARE_FLAG_HIDE_DOT_FILES ;;
  users_kv CONF_VALID_USERS KSMBD_SHARE_VALID_USERS_MAP ;;
  users_kv CONF_INVALID_USERS KSMBD_SHARE_INVALID_USERS_MAP ;;
  users_kv CONF_READ_LIST KSMBD_SHARE_READ_LIST_MAP ;;
  users_kv CONF_WRITE_LIST KSMBD_SHARE_WRITE_LIST_MAP ;;
  users_kv CONF_ADMIN_USERS KSMBD_SHARE_ADMIN_USERS_MAP ;;
  on_kv CONF_HOSTS_ALLOW (λ v, add_hosts_map KSMBD_SHARE_HOSTS_ALLOW_MAP (g_strsplit_set v)) ;;
  on_kv CONF_HOSTS_DENY (λ v, add_hosts_map KSMBD_SHARE_HOSTS_DENY_MAP (g_strsplit_set v)) ;;
  on_kv CONF_MAX_CONNECTIONS (λ v,
    let n := s32 (cp_memparse v) in
    upd_share (set_sh_max_connections
      (if (n <=? 0) || (KSMBD_CONF_MAX_CONNECTIONS <? n) then KSMBD_CONF_MAX_CONNECTIONS else n))) ;;
  on_kv CONF_VETO_FILES (λ v, upd_share (λ x,
    if test_share_flag x KSMBD_SHARE_FLAG_PIPE then x
    else set_sh_veto_list (Some (make_veto_list (match v with 47 :: v' => v' | _ => v end))) x)) ;;
  flag_kv CONF_INHERIT_OWNER KSMBD_SHARE_FLAG_INHERIT_OWNER ;;
  flag_kv CONF_FOLLOW_SYMLINKS KSMBD_SHARE_FLAG_FOLLOW_SYMLINKS ;;
  on_kv CONF_VFS_OBJECTS (λ v, upd_share (λ x,
    foldl (λ x p, vfs_object p x)
      (clear_share_flag KSMBD_SHARE_FLAG_STREAMS (clear_share_flag KSMBD_SHARE_FLAG_ACL_XATTR x))
      (g_strsplit_set v))) ;;
  on_kv CONF_STREAMS (λ v, upd_share (λ x,
    if cp_get_group_kv_bool g_ascii_strdown v
    then clear_share_flag KSMBD_SHARE_FLAG_STREAMS_DISABLED (set_share_flag KSMBD_SHARE_FLAG_STREAMS x)
    else set_share_flag KSMBD_SHARE_FLAG_STREAMS_DISABLED (clear_share_flag KSMBD_SHARE_FLAG_STREAMS x))) ;;
  flag_kv CONF_ACL_XATTR KSMBD_SHARE_FLAG_ACL_XATTR ;;
  flag_kv CONF_CROSSMNT KSMBD_SHARE_FLAG_CROSSMNT ;;
  flag_kv CONF_FRUIT_TIME_MACHINE KSMBD_SHARE_FLAG_FRUIT_TIME_MACHINE ;;
  on_kv CONF_FRUIT_TIME_MACHINE_MAX_SIZE (λ v, upd_share (set_sh_time_machine_max_size (cp_memparse v))) ;;
  flag_kv CONF_FRUIT_FINDER_INFO KSMBD_SHARE_FLAG_FRUIT_FINDER_INFO ;;
  flag_kv CONF_FRUIT_RFORK_SIZE KSMBD_SHARE_FLAG_FRUIT_RFORK_SIZE ;;
  flag_kv CONF_FRUIT_MAX_ACCESS KSMBD_SHARE_FLAG_FRUIT_MAX_ACCESS ;;
  flag_kv CONF_CONTINUOUS_AVAILABILITY KSMBD_SHARE_FLAG_CONTINUOUS_AVAILABILITY.
Definition process_share_conf_kv : prog pstate unit :=
  conf_kv_begin ;; conf_kv_mode ;; conf_kv_rest.

Record smbconf_group := mk_group { g_name : bytes; g_kv : kvs }.

(** [is_ipc]: the group is [parser.ipc]. *)
Definition init_share_from_group (is_ipc : bool) (group : smbconf_group) (u : ustate)
    : outcome pstate unit :=
  let x := new_ksmbd_share in
  let x := mk_share (g_name group) (sh_path x) (sh_max_connections x) (sh_num_connections x)
             (sh_ref_count x) (sh_create_mask x) (sh_directory_mask x) (sh_force_create_mode x)
             (sh_force_directory_mode x) (sh_force_uid x) (sh_force_gid x) (sh_flags x) (sh_state x)
             (sh_time_machine_max_size x) (sh_veto_list x) (sh_guest_account x) (sh_maps x)
             (sh_hosts_allow x) (sh_hosts_deny x) (sh_comment x) in
  process_share_conf_kv
    (mk_pstate u (g_kv group) (if is_ipc then set_share_flag KSMBD_SHARE_FLAG_PIPE x else x)).

(** A share that is not inserted is killed: its users are given back. *)
Definition discard (x : share) : prog sstate unit := on_users (free_maps x).

(** The insertion under the write lock of the table. *)
Definition insert_new_share (x : share) : prog sstate Z :=
  s <- get ;;
  match __shm_lookup_share (sh_name x) s with
  | Some _ => discard x ;; ret 0
  | None =>
      modify (λ s, mk_sstate (ss_users s) (<[ss_next s := x]> (ss_heap s))
        (<[shm_casefold_share_name (sh_name x) := ss_next s]> (ss_table s)) (ss_next s + 1)) ;;
      ret 0
  end.

(** The returned code; only the IPC share's failure is an error. *)
Definition shm_add_new_share (is_ipc : bool) (group : smbconf_group) : prog sstate Z := λ s,
  if negb (g_try_malloc sizeof_ksmbd_share) then Done (- ENOMEM) s
  else match init_share_from_group is_ipc group (ss_users s) with
  | Fault => Fault
  | Err _ ps =>
      (discard (ps_share ps) ;;
       ret (if test_share_flag (ps_share ps) KSMBD_SHARE_FLAG_PIPE then - EINVAL else 0))
        (set_ss_users (ps_users ps) s)
  | Done _ ps => insert_new_share (ps_share ps) (set_ss_users (ps_users ps) s)
  end.
End ShareConf.

(** ** The answer to a share configuration request *)
Record share_config_response := mk_scr {
  sc_flags : Z; sc_create_mask : Z; sc_directory_mask : Z; sc_force_create_mode : Z;
  sc_force_directory_mode : Z; sc_force_uid : Z; sc_force_gid : Z; sc_share_name : bytes;
  sc_time_machine_max_size : Z; sc_veto_list_sz : Z; sc_payload : bytes;
}.
Section Payload.
(** [global_conf.root_dir] *)
Variable root_dir : option bytes.

Definition veto_bytes (x : share) : bytes := default [] (sh_veto_list x).

(** [None] is the NULL share. *)
Definition shm_share_config_payload_size (share : option share) : Z :=
  match share with
  | None => 0
  | Some x =>
      if test_share_flag x KSMBD_SHARE_FLAG_PIPE then 0
      else match sh_path x with
      | None | Some [] => - EINVAL
      | Some path =>
          let path_sz := Z.of_nat (length path) + 1 + Z.of_nat (length (default [] root_dir)) in
          let veto_sz := Z.of_nat (length (veto_bytes x)) in
          let sz := path_sz + (if veto_sz =? 0 then 0 else veto_sz + 1) in
          if INT_MAX <? sz then - EOVERFLOW else sz
      end
  end.

(** [g_strlcpy(dst, src, sizeof(dst))] into a fresh array *)
Definition g_strlcpy (dst src : bytes) : bytes :=
  let n := Nat.min (length src) (length dst - 1) in
  if (length dst =? 0)%nat then dst else mem_write 0 (take n src ++ [0]) dst.
(** [g_snprintf(buf + off, remaining, ...)] of the text [s]: it is cut to what
    fits with its NUL. *)
Definition put_text (off remaining : nat) (s buf : bytes) : bytes :=
  mem_write off (take (remaining - 1) s ++ [0]) buf.

(** Returned code and response; [Fault] where a copy would leave the payload
    of [payload_sz] octets. *)
Definition shm_handle_share_config_request (share : option share) (resp : share_config_response)
    : outcome share_config_response Z :=
  match share with
  | None => Done (- EINVAL) resp
  | Some x =>
      let veto_sz := Z.of_nat (length (veto_bytes x)) in
      let resp := mk_scr (sh_flags x) (sh_create_mask x) (sh_directory_mask x)
        (sh_force_create_mode x) (sh_force_directory_mode x) (sh_force_uid x) (sh_force_gid x)
        (g_strlcpy (sc_share_name resp) (sh_name x)) (sh_time_machine_max_size x) veto_sz
        (sc_payload resp) in
      let with_payload b := mk_scr (sc_flags resp) (sc_create_mask resp) (sc_directory_mask resp)
        (sc_force_create_mode resp) (sc_force_directory_mode resp) (sc_force_uid resp)
        (sc_force_gid resp) (sc_share_name resp) (sc_time_machine_max_size resp)
        (sc_veto_list_sz resp) b in
      if test_share_flag x KSMBD_SHARE_FLAG_PIPE then Done 0 resp
      else match sh_path x with
      | None =>
          Done (- EINVAL) (mk_scr KSMBD_SHARE_FLAG_INVALID (sc_create_mask resp)
            (sc_directory_mask resp) (sc_force_create_mode resp) (sc_force_directory_mode resp)
            (sc_force_uid resp) (sc_force_gid resp) (sc_share_name resp)
            (sc_time_machine_max_size resp) (sc_veto_list_sz resp) [])
      | Some path =>
          let payload_sz := Z.of_nat (length (sc_payload resp)) in
          if payload_sz =? 0 then Done (- EINVAL) resp
          else if negb (veto_sz =? 0) && (payload_sz <? veto_sz + 1) then Done (- EINVAL) resp
          else
            let '(off, payload) :=
              if veto_sz =? 0 then (0%nat, sc_payload resp)
              else (S (length (veto_bytes x)), mem_write 0 (veto_bytes x ++ [0]) (sc_payload resp)) in
            let remaining := (length (sc_payload resp) - off)%nat in
            if (remaining =? 0)%nat then Done (- EINVAL) (with_payload payload)
            else
              let text := default [] root_dir ++ path in
              let written := S (Nat.min (remaining - 1) (length text)) in
              if (length payload <? off + written)%nat then Fault
              else
                let payload := put_text off remaining text payload in
                if (remaining <=? length text)%nat then Done (- EINVAL) (with_payload payload)
                else Done 0 (with_payload payload)
      end
  end.
End Payload.

(** ** Host patterns *)

(** An octet keeps its upper bits under the mask. *)
Lemma land_prefix_mask x r :
  is_byte x → 0 < r < 8 →
  Z.land x (u8 (Z.shiftl 0xFF (8 - r))) = x / 2 ^ (8 - r) * 2 ^ (8 - r).
Proof.
  intros Hx Hr. unfold is_byte in Hx.
  apply Z.bits_inj'. intros i Hi. unfold u8, wrap. rewrite Z.land_spec, <-Z.shiftr_div_pow2 by lia.
  rewrite <-Z.shiftl_mul_pow2, Z.shiftl_spec by lia.
  destruct (decide (i < 8)).
  - rewrite Z.mod_pow2_bits_low, Z.shiftl_spec by lia.
    destruct (decide (i < 8 - r)).
    + rewrite !(Z.testbit_neg_r _ (i - (8 - r))) by lia. apply andb_false_r.
    + rewrite Z.shiftr_spec by lia. replace (i - (8 - r) + (8 - r)) with i by lia.
      change 0xFF with (Z.ones 8). rewrite Z.ones_spec_low by lia. apply andb_true_r.
  - rewrite Z.mod_pow2_bits_high by lia. rewrite andb_false_r, Z.shiftr_spec by lia.
    replace (i - (8 - r) + (8 - r)) with i by lia.
    rewrite <-(Z.mod_small x (2 ^ 8)) by lia. by rewrite Z.mod_pow2_bits_high by lia.
Qed.

(** The first octets and the octet behind them. *)
Lemma take_nth_drop q l : (q < length l)%nat → l = take q l ++ nth q l 0 :: drop (S q) l.
Proof.
  revert q. induction l as [|x l IH]; intros [|q] Hq; cbn in *; try lia; [by rewrite drop_0|].
  f_equal. apply IH. lia.
Qed.

Lemma nth_byte q l : (q < length l)%nat → is_bytes l → is_byte (nth q l 0).
Proof.
  intros Hq Hl. exact (proj1 (List.Forall_forall _ l) Hl _ (List.nth_In l 0 Hq)).
Qed.

(** The value of the first [n] bits. *)
Definition prefix_bits (n : Z) (l : bytes) : Z := be_val l / 2 ^ (8 * Z.of_nat (length l) - n).

Lemma prefix_bits_split l q r :
  is_bytes l → (q < length l)%nat → 0 < r < 8 →
  prefix_bits (8 * Z.of_nat q + r) l =
    be_val (take q l) * 2 ^ r + nth q l 0 / 2 ^ (8 - r) ∧ 0 ≤ nth q l 0 / 2 ^ (8 - r) < 2 ^ r.
Proof.
  intros Hl Hq Hr. pose proof (nth_byte q l Hq Hl) as Hx.
  set (x := nth q l 0) in *. unfold is_byte in Hx. split.
  - unfold prefix_bits. rewrite (take_nth_drop q l) at 1 by done. fold x.
    assert (is_bytes (drop (S q) l)) as Hd by by apply Forall_drop.
    pose proof (be_val_range _ Hd) as Hr2.
    set (n := length (drop (S q) l)) in *.
    assert (Z.of_nat n = Z.of_nat (length l) - Z.of_nat q - 1) as Hn.
    { unfold n. rewrite length_drop. lia. }
    replace (8 * Z.of_nat (length l) - (8 * Z.of_nat q + r)) with (8 * Z.of_nat n + (8 - r)) by lia.
    rewrite Z.pow_add_r by lia. rewrite <-Z.div_div by first [apply Z.pow_nonzero; lia|apply Z.pow_pos_nonneg; lia].
    rewrite be_val_app. change (x :: drop (S q) l) with ([x] ++ drop (S q) l).
    rewrite be_val_app. cbn [length]. rewrite length_app. fold n.
    change (be_val [x]) with (x + 256 * 0).
    replace (8 * Z.of_nat (length [x] + n)) with (8 + 8 * Z.of_nat n) by (cbn; lia).
    rewrite Z.pow_add_r by lia.
    set (P := 2 ^ (8 * Z.of_nat n)) in *. set (a := be_val (take q l)).
    replace (a * (2 ^ 8 * P) + ((x + 256 * 0) * P + be_val (drop (S q) l)))
      with (be_val (drop (S q) l) + (a * 256 + x) * P) by lia.
    rewrite Z.div_add, (Z.div_small (be_val _)) by lia. rewrite Z.add_0_l.
    replace (a * 256 + x) with (x + a * 2 ^ r * 2 ^ (8 - r)).
    2:{ rewrite <-Z.mul_assoc, <-Z.pow_add_r by lia. replace (r + (8 - r)) with 8 by lia. lia. }
    rewrite Z.div_add by (apply Z.pow_nonzero; lia). lia.
  - split; [apply Z.div_pos; [lia|apply Z.pow_pos_nonneg; lia]|].
    apply Z.div_lt_upper_bound; [apply Z.pow_pos_nonneg; lia|].
    rewrite <-Z.pow_add_r by lia. replace (8 - r + r) with 8 by lia. lia.
Qed.
Lemma prefix_bits_bytes l q :
  is_bytes l → (q ≤ length l)%nat → prefix_bits (8 * Z.of_nat q) l = be_val (take q l).
Proof.
  intros Hl Hq. unfold prefix_bits. rewrite <-(take_drop q l) at 1. rewrite be_val_app, length_drop.
  replace (8 * Z.of_nat (length l) - 8 * Z.of_nat q) with (8 * Z.of_nat (length l - q)) by lia.
  assert (is_bytes (drop q l)) as Hd by by apply Forall_drop.
  pose proof (be_val_range _ Hd) as Hr. rewrite length_drop in Hr.
  rewrite Z.add_comm, Z.div_add, Z.div_small; lia.
Qed.

(** The comparison of octets and of the masked octet compares the prefixes. *)
Lemma prefix_match_spec n net host :
  is_bytes net → is_bytes host → length net = length host →
  0 ≤ n ≤ 8 * Z.of_nat (length net) →
  prefix_match n net host = true ↔ prefix_bits n net = prefix_bits n host.
Proof.
  intros Hn Hh Hlen Hr. unfold prefix_match.
  pose proof (Z.div_mod n 8 ltac:(lia)) as Hdm. pose proof (Z.mod_pos_bound n 8 ltac:(lia)) as Hmb.
  set (q := Z.to_nat (n / 8)). assert (Z.of_nat q = n / 8) as Hq by (unfold q; lia).
  assert (length (take q net) = length (take q host)) as Htl by (rewrite !length_take; lia).
  rewrite andb_true_iff, bool_decide_eq_true.
  destruct (Z.ltb_spec 0 (n mod 8)) as [Hpos|Hz].
  - assert (q < length net)%nat as Hql by lia.
    replace (prefix_bits n) with (prefix_bits (8 * Z.of_nat q + n mod 8)) by (f_equal; lia).
    destruct (prefix_bits_split net q (n mod 8)) as [-> Hb1]; [done|lia|lia|].
    destruct (prefix_bits_split host q (n mod 8)) as [-> Hb2]; [done|lia|lia|].
    rewrite !land_prefix_mask by (lia || apply nth_byte; lia || done).
    rewrite Z.eqb_eq, Z.mul_cancel_r by (apply Z.pow_nonzero; lia).
    assert (0 < 2 ^ (n mod 8)) by (apply Z.pow_pos_nonneg; lia).
    split; [by intros [-> ->]|]. intros E.
    assert (be_val (take q net) = be_val (take q host)) as Ea by nia.
    split; [|rewrite Ea in E; lia]. apply be_val_inj; [by apply Forall_take..|done|done].
  - replace (prefix_bits n) with (prefix_bits (8 * Z.of_nat q)) by (f_equal; lia).
    rewrite !prefix_bits_bytes by (done || lia). split; [by intros [-> _]|].
    intros E. split; [|done]. apply be_val_inj; [by apply Forall_take..|done|done].
Qed.

Section Hosts.
Context `{System}.
(** [inet_pton] stores 4 or 16 octets in network order. *)
Hypothesis inet_pton_size : ∀ v6 s a, inet_pton v6 s = Some a →
  is_bytes a ∧ length a = (if v6 then 16 else 4)%nat.

(** C32 (functional): a pattern of an address and a prefix length matches
    exactly the addresses of its family that agree with it in that many
    leading bits; a pattern without a slash matches itself only. *)
Theorem match_host_cidr_spec pattern addr :
  (∀ network_str len_str n net host,
    let v6 := match split_at 58 network_str with Some _ => true | None => false end in
    split_at 47 pattern = Some (network_str, len_str) →
    0 < Z.of_nat (length network_str) < network_str_size →
    strtol10 len_str = Some (n, []) → 0 ≤ n ≤ (if v6 then 128 else 32) →
    inet_pton v6 network_str = Some net → inet_pton v6 addr = Some host →
    match_host_cidr pattern addr = true ↔ prefix_bits n net = prefix_bits n host) ∧
  (split_at 47 pattern = None → match_host_cidr pattern addr = true ↔ pattern = addr).
Proof.
  split.
  - intros network_str len_str n net host v6 Hs Hlen Hn Hr Hnet Hhost.
    destruct (inet_pton_size _ _ _ Hnet) as [Hnb Hnl]. destruct (inet_pton_size _ _ _ Hhost) as [Hhb Hhl].
    rewrite <-prefix_match_spec; [|done|done|congruence|rewrite Hnl; destruct v6; lia].
    unfold match_host_cidr. rewrite Hs. rewrite (proj2 (Nat.eqb_neq _ _)) by lia.
    rewrite (proj2 (Z.leb_gt _ _)) by lia. cbn [orb]. rewrite Hn. fold v6. rewrite Hnet, Hhost.
    assert (s32 n = n) as ->.
    { unfold s32, signed. rewrite wrap_small by (destruct v6; lia). lia. }
    rewrite (proj2 (Z.ltb_ge _ _)), (proj2 (Z.ltb_ge _ _)) by (destruct v6; lia). done.
  - intros Hs. unfold match_host_cidr. rewrite Hs. apply bool_decide_eq_true.
Qed.
End Hosts.

(** An address parser for the witness: it knows two addresses. *)
Definition toy_system : System := {|
  base64_decode _ := None; getpwnam _ := None; getgrouplist _ := []; getgrnam _ := None;
  getpwents := [];
  inet_pton v6 s := if v6 then None
    else if bool_decide (s = str "10.1.0.0") then Some [10; 1; 0; 0]
    else if bool_decide (s = str "10.1.15.7") then Some [10; 1; 15; 7] else None;
|}.
Lemma match_host_cidr_spec_witness :
  match_host_cidr (H0:=toy_system) (str "10.1.0.0/20") (str "10.1.15.7") = true.
Proof.
  refine (proj2 (proj1 (match_host_cidr_spec (H:=toy_system) _ (str "10.1.0.0/20") (str "10.1.15.7"))
    (str "10.1.0.0") (str "20") 20 [10; 1; 0; 0] [10; 1; 15; 7] _ _ _ _ _ _) _).
  - intros v6 s a. cbn. destruct v6; [discriminate|].
    case_bool_decide; [intros [= <-]|case_bool_decide; [intros [= <-]|discriminate]];
      (split; [repeat constructor; vm_compute; congruence|reflexivity]).
  - reflexivity.
  - vm_compute; split; congruence.
  - reflexivity.
  - vm_compute; split; congruence.
  - reflexivity.
  - reflexivity.
  - reflexivity.
Defined.

(** ** Connection limit *)

(** The number of connections stays between zero and the
    limit; a connection is refused exactly when the limit is reached, and
    closing a connection that was opened restores the share. *)
Theorem connection_limit s p x :
  ss_heap s !! p = Some x → 0 < sh_max_connections x →
  0 ≤ sh_num_connections x ≤ sh_max_connections x →
  let full := sh_max_connections x <=? sh_num_connections x in
  (full = true → shm_open_connection p s = Done (- EINVAL) s) ∧
  (full = false → ∃ s' y, shm_open_connection p s = Done 0 s' ∧ ss_heap s' !! p = Some y ∧
     0 ≤ sh_num_connections y ≤ sh_max_connections y ∧
     shm_close_connection (Some p) s' = Done tt s).
Proof.
  intros Hp Hmax Hnum full. unfold shm_open_connection, bind, load. rewrite Hp.
  rewrite (proj2 (Z.eqb_neq _ _)) by lia. cbn [negb andb]. fold full.
  split; intros Hf; rewrite Hf; [done|]. unfold store. rewrite Hp. cbn.
  eexists _, _. split; [done|]. cbn. rewrite lookup_insert_eq. split; [done|]. cbn.
  unfold full in Hf. apply Z.leb_gt in Hf.
  split; [lia|]. unfold bind, load, store. cbn. rewrite lookup_insert_eq. cbn.
  rewrite (proj2 (Z.ltb_lt _ _)) by lia. cbn. rewrite lookup_insert_eq. f_equal.
  destruct s as [u h t n]; cbn in *. unfold set_ss_heap; cbn. f_equal.
  rewrite insert_insert_eq. apply insert_id. rewrite Hp. f_equal.
  destruct x; unfold set_sh_num_connections; cbn. f_equal. lia.
Qed.
Lemma connection_limit_witness :
  let x := set_sh_max_connections 1 (new_ksmbd_share false) in
  let s := mk_sstate alice_state {[ 7 := x ]} ∅ 8 in
  ∃ s' y, shm_open_connection 7 s = Done 0 s' ∧ ss_heap s' !! 7 = Some y ∧
     0 ≤ sh_num_connections y ≤ sh_max_connections y ∧ shm_close_connection (Some 7) s' = Done tt s.
Proof.
  intros x s. refine (proj2 (connection_limit s 7 x _ _ _) _).
  - reflexivity.
  - reflexivity.
  - vm_compute; split; congruence.
  - reflexivity.
Defined.

(** ** Configuration answers *)
Lemma mem_write_all l buf : length l = length buf → mem_write 0 l buf = l.
Proof.
  intros Hl. unfold mem_write. rewrite Nat.add_0_l, drop_ge by lia. apply app_nil_r.
Qed.

Lemma share_config_exact root_dir x path resp :
  sh_path x = Some path → path ≠ [] → test_share_flag x KSMBD_SHARE_FLAG_PIPE = false →
  0 ≤ shm_share_config_payload_size root_dir (Some x) →
  Z.of_nat (length (sc_payload resp)) = shm_share_config_payload_size root_dir (Some x) →
  ∃ resp', shm_handle_share_config_request root_dir (Some x) resp = Done 0 resp' ∧
    sc_flags resp' = sh_flags x ∧
    sc_veto_list_sz resp' = Z.of_nat (length (veto_bytes x)) ∧
    sc_payload resp' = (match veto_bytes x with [] => [] | v => v ++ [0] end)
                       ++ default [] root_dir ++ path ++ [0].
Proof.
  intros Hpath Hne Hpipe Hpos Hsz. revert Hsz Hpos.
  unfold shm_share_config_payload_size, shm_handle_share_config_request. cbn zeta.
  rewrite Hpipe, Hpath. destruct path as [|c path]; [done|]. clear Hne.
  set (p := c :: path). set (root := default [] root_dir). cbn [sc_payload].
  generalize (veto_bytes x). intros v. set (buf := sc_payload resp).
  assert (0 < length p)%nat as Hp by (cbn; lia). clearbody p root buf.
  set (sz := _ + (if Z.of_nat (length v) =? 0 then 0 else _)).
  destruct (Z.ltb_spec INT_MAX sz) as [|_]; [intros _ Hx; by destruct (Hx eq_refl)|]. intros Hsz _.
  rewrite (proj2 (Z.eqb_neq (Z.of_nat (length buf)) 0))
    by (unfold sz in Hsz; destruct (Z.of_nat (length v) =? 0); lia).
  rewrite length_app.
  destruct (decide (length v = 0)%nat) as [Hvl|Hvl].
  - apply nil_length_inv in Hvl. subst v. change (Z.of_nat (length []) =? 0) with true in *. cbn [negb andb]. unfold sz in Hsz.
    rewrite Nat.sub_0_r. rewrite (proj2 (Nat.eqb_neq _ _)) by lia.
    rewrite (proj2 (Nat.ltb_ge _ _)) by lia. rewrite (proj2 (Nat.leb_gt _ _)) by lia.
    eexists. split; [done|]. cbn [sc_flags sc_veto_list_sz sc_payload]. split_and!; [done..|].
    unfold put_text. rewrite take_ge by (rewrite length_app; lia).
    rewrite mem_write_all by (rewrite !length_app; cbn; lia). cbn [app]. by rewrite <-app_assoc.
  - assert (Z.of_nat (length v) =? 0 = false) as Hv0 by (apply Z.eqb_neq; lia).
    unfold sz in Hsz. rewrite Hv0 in *. cbn [negb andb].
    rewrite (proj2 (Z.ltb_ge _ _)) by lia.
    assert (length (mem_write 0 (v ++ [0]) buf) = length buf) as Hmw.
    { apply length_mem_write. rewrite length_app; cbn; lia. }
    rewrite Hmw. rewrite (proj2 (Nat.eqb_neq _ _)) by lia.
    rewrite (proj2 (Nat.ltb_ge _ _)) by lia. rewrite (proj2 (Nat.leb_gt _ _)) by lia.
    eexists. split; [done|]. cbn [sc_flags sc_veto_list_sz sc_payload]. split_and!; [done..|].
    unfold put_text. rewrite take_ge by (rewrite length_app; lia).
    replace (S (length v)) with (0 + length (v ++ [0%Z]))%nat by (rewrite length_app; cbn; lia).
    rewrite mem_write_app by (rewrite length_app; cbn; lia).
    rewrite mem_write_all by (rewrite !length_app; cbn; lia).
    destruct v; [done|]. by rewrite <-!app_assoc.
Qed.

(** The size announced for a share is the size its answer
    needs: with a payload of that many octets the answer succeeds and the
    payload is the veto list, a NUL, the root directory, the path and a NUL,
    with nothing left over. *)
Theorem share_config_payload_exact root_dir x path resp :
  sh_path x = Some path → path ≠ [] → test_share_flag x KSMBD_SHARE_FLAG_PIPE = false →
  0 ≤ shm_share_config_payload_size root_dir (Some x) →
  Z.of_nat (length (sc_payload resp)) = shm_share_config_payload_size root_dir (Some x) →
  ∃ resp', shm_handle_share_config_request root_dir (Some x) resp = Done 0 resp' ∧
    sc_flags resp' = sh_flags x ∧
    sc_veto_list_sz resp' = Z.of_nat (length (veto_bytes x)) ∧
    sc_payload resp' = (match veto_bytes x with [] => [] | v => v ++ [0] end)
                       ++ default [] root_dir ++ path ++ [0].
Proof. apply share_config_exact. Qed.

Lemma share_config_payload_exact_witness :
  let x := set_sh_path (Some (str "/srv")) (set_sh_veto_list (Some (str "tmp")) (new_ksmbd_share false)) in
  let resp := mk_scr 0 0 0 0 0 0 0 (replicate 64 0) 0 0 (replicate 9 0) in
  ∃ resp', shm_handle_share_config_request None (Some x) resp = Done 0 resp' ∧
    sc_payload resp' = str "tmp" ++ [0] ++ str "/srv" ++ [0].
Proof.
  intros x resp.
  destruct (share_config_payload_exact None x (str "/srv") resp) as (r & H1 & _ & _ & H2).
  - reflexivity.
  - discriminate.
  - reflexivity.
  - vm_compute; congruence.
  - reflexivity.
  - exists r. split; [exact H1|exact H2].
Defined.

(** ** Access mode of a configured share *)
Section Mode.
Context `{GLib, System, Allocator}.
Variable reload_config : bool.

(** What is written about the access mode: the first of the keys decides. *)
Definition mode_of (kv : kvs) : option bool :=
  let get c := kv_lookup g_ascii_strdown kv (KSMBD_SHARE_CONF c) in
  let yes v := cp_get_group_kv_bool g_ascii_strdown v in
  match get CONF_READ_ONLY with
  | Some v => Some (yes v)
  | None =>
      match get CONF_WRITABLE, get CONF_WRITEABLE, get CONF_WRITE_OK with
      | Some v, _, _ | None, Some v, _ | None, None, Some v => Some (negb (yes v))
      | None, None, None => None
      end
  end.

(** The names of the keys are in lower case already. *)
Hypothesis strdown_conf : ∀ c, g_ascii_strdown (KSMBD_SHARE_CONF c) = KSMBD_SHARE_CONF c.

Lemma KSMBD_SHARE_CONF_inj c c' : KSMBD_SHARE_CONF c = KSMBD_SHARE_CONF c' → c = c'.
Proof. destruct c, c'; (reflexivity || discriminate). Qed.

(** [keeps R m]: if [m] succeeds from a state in [R], it ends in [R]. *)
Definition keeps {T} (R : pstate → Prop) (m : prog pstate T) : Prop :=
  ∀ s, R s → match m s with Done _ s' => R s' | _ => True end.
Lemma keeps_ret {T} R (a : T) : keeps R (ret a).
Proof. by intros s Hs. Qed.
Lemma keeps_get R : keeps R get.
Proof. by intros s Hs. Qed.
Lemma keeps_bind {T U} R (m : prog pstate T) (k : T → prog pstate U) :
  keeps R m → (∀ a, keeps R (k a)) → keeps R (bind m k).
Proof.
  intros Hm Hk s Hs. unfold bind. specialize (Hm s Hs). destruct (m s); [by apply Hk|done|done].
Qed.
Lemma keeps_or_return {T} R (m : prog pstate T) e : keeps R m → keeps R (or_return m e).
Proof. intros Hm s Hs. unfold or_return. specialize (Hm s Hs). by destruct (m s). Qed.
Lemma keeps_assert R b e : keeps R (assert_ b e).
Proof. intros s Hs. unfold assert_. by destruct b. Qed.
Lemma keeps_fail {T} R e : keeps R (fail (A:=T) e).
Proof. by intros s Hs. Qed.
Lemma keeps_for_each {X} R (l : list X) f : (∀ x, keeps R (f x)) → keeps R (for_each l f).
Proof.
  intros Hf. induction l; cbn [for_each]; [apply keeps_ret|]. by apply keeps_bind.
Qed.

(** The access mode of the share under construction; the table still holds the
    keys of [l] as [kv0] has them. *)
Definition holds (kv0 : kvs) (l : list share_conf) (mode : option bool) (s : pstate) : Prop :=
  (∀ c, c ∈ l → ps_kv s !! KSMBD_SHARE_CONF c = kv0 !! KSMBD_SHARE_CONF c) ∧
  match mode with
  | None => True
  | Some ro => Z.testbit (sh_flags (ps_share s)) 3 = ro ∧ Z.testbit (sh_flags (ps_share s)) 2 = negb ro
  end.

Lemma keeps_users {T} kv0 l mode (m : prog ustate T) : keeps (holds kv0 l mode) (p_users m).
Proof. intros s Hs. unfold p_users, zoom. by destruct (m (ps_users s)). Qed.
Lemma keeps_upd kv0 l mode f :
  (mode ≠ None → ∀ x, Z.testbit (sh_flags (f x)) 3 = Z.testbit (sh_flags x) 3 ∧
                      Z.testbit (sh_flags (f x)) 2 = Z.testbit (sh_flags x) 2) →
  keeps (holds kv0 l mode) (upd_share f).
Proof.
  intros Hf s [Hk Hm]. split; [exact Hk|]. destruct mode as [ro|]; [|done].
  cbn [ps_share]. destruct (Hf ltac:(done) (ps_share s)) as [-> ->]. exact Hm.
Qed.
Lemma keeps_on_kv kv0 l mode c f :
  c ∉ l → (∀ v, keeps (holds kv0 l mode) (f v)) → keeps (holds kv0 l mode) (on_kv c f).
Proof.
  intros Hc Hf. unfold on_kv. apply keeps_bind.
  - intros s [Hk Hm]. unfold group_kv_steal, cp_group_kv_steal. destruct KSMBD_SHARE_CONF_IS_BROKEN; [done|].
    split; [|exact Hm]. intros c' Hc'. cbn [ps_kv]. rewrite strdown_conf, lookup_delete_ne; [by apply Hk|].
    intros E%KSMBD_SHARE_CONF_inj. congruence.
  - intros [v|]; [apply Hf|apply keeps_ret].
Qed.

(** Flags other than those of the mode. *)
Lemma testbit_set_other x n : n ≠ 2 → n ≠ 3 → 0 ≤ n →
  Z.testbit (set_flag x (BIT n)) 3 = Z.testbit x 3 ∧ Z.testbit (set_flag x (BIT n)) 2 = Z.testbit x 2.
Proof.
  intros. rewrite !testbit_set_flag by lia.
  rewrite !(proj2 (Z.eqb_neq n _)) by lia. by rewrite !orb_false_r.
Qed.
Lemma testbit_clear_other x n : n ≠ 2 → n ≠ 3 → 0 ≤ n →
  Z.testbit (clear_flag x (BIT n)) 3 = Z.testbit x 3 ∧ Z.testbit (clear_flag x (BIT n)) 2 = Z.testbit x 2.
Proof.
  intros. rewrite !testbit_clear_flag by lia.
  rewrite !(proj2 (Z.eqb_neq n _)) by lia. by rewrite !andb_true_r.
Qed.
Lemma keeps_flag_kv kv0 l mode c n :
  c ∉ l → n ≠ 2 → n ≠ 3 → 0 ≤ n → keeps (holds kv0 l mode) (flag_kv c (BIT n)).
Proof.
  intros. unfold flag_kv. apply keeps_on_kv; [done|]. intros v. apply keeps_upd. intros _ x.
  destruct cp_get_group_kv_bool; [by apply testbit_set_other|by apply testbit_clear_other].
Qed.
Lemma keeps_mask_kv kv0 l mode c set :
  c ∉ l → (∀ v x, sh_flags (set v x) = sh_flags x) → keeps (holds kv0 l mode) (mask_kv c set).
Proof.
  intros Hc Hs. unfold mask_kv. apply keeps_on_kv; [done|]. intros v. apply keeps_upd. intros _ x.
  by rewrite Hs.
Qed.
Lemma keeps_users_kv kv0 l mode c map : c ∉ l → keeps (holds kv0 l mode) (users_kv c map).
Proof.
  intros Hc. unfold users_kv. apply keeps_on_kv; [done|]. intros v. unfold add_users_map.
  assert (∀ name, keeps (holds kv0 l mode) (add_user_name map name)) as Hn.
  { intros name. unfold add_user_name. case_bool_decide; [apply keeps_ret|].
    apply keeps_bind; [apply keeps_users|]. intros [p|]; [|apply keeps_ret].
    apply keeps_bind; [apply keeps_users|]. intros u.
    apply keeps_bind; [apply keeps_get|]. intros s.
    destruct (_ !! u_name u); [apply keeps_users|by apply keeps_upd]. }
  apply keeps_bind; [apply keeps_upd; intros _ x; unfold ensure_map; by destruct (nth _ _ _)|intros _].
  apply keeps_for_each. intros [|c0 name]; [apply keeps_ret|].
  destruct (c0 =? 64); [|apply Hn]. destruct (getgrnam name) as [[gid mem]|]; [|apply keeps_ret].
  apply keeps_bind; [by apply keeps_for_each|]. intros _. by apply keeps_for_each.
Qed.
Lemma keeps_force_group kv0 l mode v : keeps (holds kv0 l mode) (force_group v).
Proof.
  unfold force_group. destruct (getgrnam v) as [[g m]|]; [|apply keeps_fail].
  apply keeps_bind; [by apply keeps_upd|]. intros _. apply keeps_assert.
Qed.
Lemma keeps_force_user kv0 l mode v : keeps (holds kv0 l mode) (force_user v).
Proof.
  unfold force_user. destruct (getpwnam v) as [[u g]|]; [|apply keeps_fail].
  apply keeps_bind; [by apply keeps_upd|]. intros _. apply keeps_bind; [apply keeps_assert|]. intros _.
  apply keeps_bind; [apply keeps_get|]. intros s. destruct (_ =? _); [|apply keeps_ret].
  apply keeps_bind; [by apply keeps_upd|]. intros _. apply keeps_assert.
Qed.
Lemma keeps_vfs kv0 l mode v :
  keeps (holds kv0 l mode) (upd_share (λ x,
    foldl (λ x p, vfs_object p x)
      (clear_share_flag KSMBD_SHARE_FLAG_STREAMS (clear_share_flag KSMBD_SHARE_FLAG_ACL_XATTR x))
      (g_strsplit_set v))).
Proof.
  apply keeps_upd. intros _ x. generalize (g_strsplit_set v). intros ps.
  set (y := clear_share_flag _ _).
  assert (Z.testbit (sh_flags y) 3 = Z.testbit (sh_flags x) 3 ∧
          Z.testbit (sh_flags y) 2 = Z.testbit (sh_flags x) 2) as Hy.
  { unfold y, clear_share_flag, KSMBD_SHARE_FLAG_STREAMS, KSMBD_SHARE_FLAG_ACL_XATTR. cbn [sh_flags set_sh_flags]. destruct (testbit_clear_other (clear_flag (sh_flags x) (BIT 13)) 11) as [E1 E2]; [lia..|].
    destruct (testbit_clear_other (sh_flags x) 13) as [E3 E4]; [lia..|].
    split; [by rewrite E1|by rewrite E2]. }
  clearbody y. revert y Hy. induction ps as [|p ps IH]; intros y Hy; [done|]. cbn [foldl]. apply IH.
  destruct Hy as [<- <-]. unfold vfs_object. case_bool_decide; [by apply testbit_set_other|].
  case_bool_decide; [by apply testbit_set_other|done].
Qed.

(** Setting the mode. *)
Lemma read_only_bits ro x :
  Z.testbit (sh_flags (read_only ro x)) 3 = ro ∧ Z.testbit (sh_flags (read_only ro x)) 2 = negb ro.
Proof.
  unfold read_only, set_share_flag, clear_share_flag, KSMBD_SHARE_FLAG_READONLY, KSMBD_SHARE_FLAG_WRITEABLE.
  destruct ro; cbn [sh_flags set_sh_flags];
    repeat first [rewrite testbit_set_flag by lia|rewrite testbit_clear_flag by lia];
    cbn [Z.eqb Pos.eqb]; by rewrite ?orb_true_r, ?andb_false_r, ?orb_false_r, ?andb_true_r.
Qed.
Lemma read_only_holds kv0 l mode ro s :
  holds kv0 l mode s →
  ∃ s', upd_share (read_only ro) s = Done tt s' ∧ holds kv0 l (Some ro) s'.
Proof.
  intros [Hk _]. eexists. split; [done|]. split; [exact Hk|]. apply read_only_bits.
Qed.
Lemma steal_key kv0 c l mode s :
  KSMBD_SHARE_CONF_IS_BROKEN c = false → c ∉ l → holds kv0 (c :: l) mode s →
  ∃ s', group_kv_steal c s = Done (snd <$> kv0 !! KSMBD_SHARE_CONF c) s' ∧ holds kv0 l mode s'.
Proof.
  intros Hb Hc [Hk Hm]. unfold group_kv_steal, cp_group_kv_steal, kv_lookup. rewrite Hb, strdown_conf.
  rewrite Hk by by left. eexists. split; [done|]. split; [|exact Hm].
  intros c' Hc'. cbn [ps_kv]. rewrite lookup_delete_ne.
  - apply Hk. by right.
  - intros E%KSMBD_SHARE_CONF_inj. congruence.
Qed.

(** *** The three parts *)
Ltac notin := unfold not; rewrite ?elem_of_cons, ?elem_of_nil; intuition discriminate.
Lemma keeps_begin kv0 :
  keeps (holds kv0 [CONF_READ_ONLY; CONF_WRITABLE; CONF_WRITEABLE; CONF_WRITE_OK] None) conf_kv_begin.
Proof.
  unfold conf_kv_begin.
  apply keeps_bind; [apply keeps_on_kv; [notin|intros v; apply keeps_bind; [by apply keeps_upd|intros _; apply keeps_assert]]|intros _].
  apply keeps_bind; [apply keeps_on_kv; [notin|intros v; by apply keeps_upd]|intros _].
  apply keeps_bind; [apply keeps_flag_kv; [notin|lia..]|intros _].
  apply keeps_on_kv; [notin|]. intros v. apply keeps_bind; [by apply keeps_upd|].
  intros _. apply keeps_or_return, keeps_users.
Qed.

Lemma mode_spec kv0 ro s s' :
  mode_of kv0 = Some ro →
  holds kv0 [CONF_READ_ONLY; CONF_WRITABLE; CONF_WRITEABLE; CONF_WRITE_OK] None s →
  conf_kv_mode s = Done tt s' → holds kv0 [] (Some ro) s'.
Proof.
  intros Hmode Hs. unfold mode_of, kv_lookup in Hmode. rewrite !strdown_conf in Hmode.
  assert (∀ l mode t t' r, holds kv0 l mode t → CONF_BROWSEABLE ∉ l →
    flag_kv CONF_BROWSEABLE KSMBD_SHARE_FLAG_BROWSEABLE t = Done r t' → holds kv0 l mode t') as Hbr.
  { intros l mode t t' r Ht Hl E. pose proof (keeps_flag_kv kv0 l mode CONF_BROWSEABLE 1 Hl) as Hk.
    specialize (Hk ltac:(lia) ltac:(lia) ltac:(lia) t Ht). fold KSMBD_SHARE_FLAG_BROWSEABLE in Hk. by rewrite E in Hk. }
  unfold conf_kv_mode, bind at 1.
  destruct (steal_key kv0 CONF_READ_ONLY [CONF_WRITABLE; CONF_WRITEABLE; CONF_WRITE_OK] None s eq_refl ltac:(notin) Hs) as (s1 & -> & Hs1).
  destruct (snd <$> kv0 !! KSMBD_SHARE_CONF CONF_READ_ONLY) as [v|].
  - simplify_eq. unfold bind at 1.
    destruct (read_only_holds kv0 _ None (cp_get_group_kv_bool g_ascii_strdown v) s1 Hs1) as (s2 & -> & Hs2).
    unfold bind at 1. destruct (flag_kv _ _ s2) as [[] s3|?|] eqn:E; [|done..].
    apply (Hbr _ _ _ _ _ Hs2) in E; [|notin]. intros [= <-]. split; [intros c Hc; by apply elem_of_nil in Hc|apply E].
  - unfold bind at 1, ret at 1. unfold bind at 1.
    destruct (flag_kv _ _ s1) as [[] s3|?|] eqn:E; [|done..]. apply (Hbr _ _ _ _ _ Hs1) in E; [|notin].
    unfold bind at 1.
    destruct (steal_key kv0 CONF_WRITABLE [CONF_WRITEABLE; CONF_WRITE_OK] None s3 eq_refl ltac:(notin) E) as (s4 & -> & Hs4).
    destruct (snd <$> kv0 !! KSMBD_SHARE_CONF CONF_WRITABLE) as [v|].
    { simplify_eq. unfold bind, ret.
      destruct (read_only_holds kv0 _ None (negb (cp_get_group_kv_bool g_ascii_strdown v)) s4 Hs4) as (s5 & -> & Hs5).
      intros [= <-]. split; [intros c Hc; by apply elem_of_nil in Hc|apply Hs5]. }
    unfold bind at 1.
    destruct (steal_key kv0 CONF_WRITEABLE [CONF_WRITE_OK] None s4 eq_refl ltac:(notin) Hs4) as (s5 & -> & Hs5).
    destruct (snd <$> kv0 !! KSMBD_SHARE_CONF CONF_WRITEABLE) as [v|].
    { simplify_eq. unfold bind, ret.
      destruct (read_only_holds kv0 _ None (negb (cp_get_group_kv_bool g_ascii_strdown v)) s5 Hs5) as (s6 & -> & Hs6).
      intros [= <-]. split; [intros c Hc; by apply elem_of_nil in Hc|apply Hs6]. }
    unfold bind at 1.
    destruct (steal_key kv0 CONF_WRITE_OK [] None s5 eq_refl ltac:(notin) Hs5) as (s6 & -> & Hs6).
    destruct (snd <$> kv0 !! KSMBD_SHARE_CONF CONF_WRITE_OK) as [v|]; [|done]. simplify_eq.
    destruct (read_only_holds kv0 _ None (negb (cp_get_group_kv_bool g_ascii_strdown v)) s6 Hs6) as (s7 & -> & Hs7).
    intros [= <-]. exact Hs7.
Qed.

Lemma keeps_rest kv0 ro : keeps (holds kv0 [] (Some ro)) conf_kv_rest.
Proof.
  assert (∀ c : share_conf, c ∉ []) as Hn by (intros c; apply not_elem_of_nil).
  unfold conf_kv_rest.
  repeat first
    [ apply keeps_bind; [|intros _]
    | apply keeps_flag_kv; [apply Hn|lia..]
    | apply keeps_mask_kv; [apply Hn|done]
    | apply keeps_users_kv, Hn
    | apply keeps_on_kv; [apply Hn|]; intros ?
    | apply keeps_force_group | apply keeps_force_user | apply keeps_vfs ].
  - by apply keeps_upd.
  - by apply keeps_upd.
  - by apply keeps_upd.
  - apply keeps_upd. intros _ x. by destruct test_share_flag.
  - apply keeps_upd. intros _ x. destruct cp_get_group_kv_bool.
    + destruct (testbit_set_other (sh_flags x) 11) as [<- <-]; [lia..|]. by apply testbit_clear_other.
    + destruct (testbit_clear_other (sh_flags x) 11) as [<- <-]; [lia..|]. by apply testbit_set_other.
  - by apply keeps_upd.
Qed.

(** A share that is accepted is read-only or writable, never
    both and never neither, when the configuration says anything about it:
    [read only] decides, else the first of [writable], [writeable] and
    [write ok], in that order. *)
Theorem share_access_mode is_ipc group u ps ro :
  mode_of (g_kv group) = Some ro →
  init_share_from_group reload_config is_ipc group u = Done tt ps →
  test_share_flag (ps_share ps) KSMBD_SHARE_FLAG_READONLY = ro ∧
  test_share_flag (ps_share ps) KSMBD_SHARE_FLAG_WRITEABLE = negb ro.
Proof.
  intros Hmode. unfold init_share_from_group.
  set (x := if is_ipc then _ else _). set (kv0 := g_kv group) in *.
  unfold process_share_conf_kv, bind at 1.
  pose proof (keeps_begin kv0 (mk_pstate u kv0 x) ltac:(by split)) as Hb.
  destruct (conf_kv_begin _) as [[] s1|?|]; [|done..]. unfold bind.
  destruct (conf_kv_mode s1) as [[] s2|?|] eqn:E2; [|done..].
  pose proof (mode_spec kv0 ro s1 s2 Hmode Hb E2) as Hm. intros E3.
  pose proof (keeps_rest kv0 ro s2 Hm) as Hr. rewrite E3 in Hr. destruct Hr as [_ [H3 H2]].
  unfold test_share_flag, KSMBD_SHARE_FLAG_READONLY, KSMBD_SHARE_FLAG_WRITEABLE.
  by rewrite !test_flag_BIT by lia.
Qed.
End Mode.

(** GLib on ASCII text, for the witnesses. *)
Definition ascii_lower (c : Z) : Z := if (65 <=? c) && (c <=? 90) then c + 32 else c.
Fixpoint split_blank (acc : bytes) (s : bytes) : list bytes :=
  match s with
  | [] => [reverse acc]
  | c :: s => if (c =? 32) || (c =? 9) || (c =? 44) then reverse acc :: split_blank [] s
              else split_blank (c :: acc) s
  end.
Definition toy_glib : GLib := {|
  g_ascii_strdown s := ascii_lower <$> s;
  g_utf8_validate s := forallb (λ c, c <? 128) s;
  g_utf8_normalize s := Some s;
  g_utf8_casefold s := ascii_lower <$> s;
  g_strsplit_set := split_blank [];
  g_strstrip s := reverse (skip_spaces (reverse (skip_spaces s)));
  hash_order := map_to_list;
|}.
Lemma share_access_mode_witness :
  let group := mk_group (str "media") {[ str "read only" := (str "read only", str "YES") ]} in
  ∃ ps, init_share_from_group (H:=toy_glib) (H0:=toy_system) (H1:=plenty) false false group alice_state
          = Done tt ps ∧
        test_share_flag (ps_share ps) KSMBD_SHARE_FLAG_READONLY = true.
Proof.
  intros group.
  assert (∃ ps, init_share_from_group (H:=toy_glib) (H0:=toy_system) (H1:=plenty) false false
    group alice_state = Done tt ps) as [ps E] by (eexists; vm_compute; reflexivity).
  exists ps. split; [exact E|].
  eapply (share_access_mode (H:=toy_glib) (H0:=toy_system) (H1:=plenty) false _ false group alice_state ps true).
  - vm_compute; reflexivity.
  - exact E.
  Unshelve. intros c. destruct c; vm_compute; reflexivity.
Defined.

(** ** Reference counting *)

(** The users a map refers to, and those of all the maps of a share. *)
Definition map_users (m : option (gmap bytes Z)) : list Z :=
  match m with None => [] | Some m => (map_to_list m).*2 end.
Definition share_users (x : share) : list Z := concat (map_users <$> sh_maps x).
(** The users all shares refer to. *)
Definition all_users (h : gmap Z share) : list Z := heap_refs share_users h.

(** An update that keeps the maps keeps the references. *)
Lemma all_users_update h p x y :
  h !! p = Some x → sh_maps y = sh_maps x → all_users (<[p := y]> h) ≡ₚ all_users h.
Proof. intros Hp Hm. apply (heap_refs_same _ _ _ x); [done|]. unfold share_users. by rewrite Hm. Qed.

Definition share_freeing (x : share) : bool := sh_state x =? KSMBD_SHARE_STATE_FREEING.

Section ShareCounts.
Context `{GLib, System, Allocator}.
Hypothesis hash_order_perm : ∀ t, hash_order t ≡ₚ map_to_list t.

Definition share_key (x : share) : bytes := shm_casefold_share_name (sh_name x).

(** [uheld] and [sheld] are the references to users and shares held outside of
    this component: the shares are counted like the users, and the users are
    held by the maps of the shares as well. *)
Record shares_ok (uheld sheld : Z → Z) (s : sstate) : Prop := {
  so_users : users_ok (λ p, uheld p + count p (all_users (ss_heap s))) (ss_users s);
  so_uheld : ∀ p, 0 ≤ uheld p;
  so_shares : counted share_key sh_ref_count share_freeing sheld (ss_heap s) (ss_table s) (ss_next s);
}.

(** Giving back a list of references to users. *)
Lemma put_users_wp (l : list (bytes * Z)) held s :
  users_ok (λ p, held p + count p l.*2) s → (∀ p, 0 ≤ held p) →
  wp (for_each l (λ '(_, p), put_ksmbd_user (Some p))) s (λ _ s', users_ok held s') (λ _ _, False).
Proof.
  revert s. induction l as [|[n q] l IH]; intros s Hok Hpos; cbn [for_each].
  { wp_step. eapply counted_ext; [|exact Hok]. intros p. unfold count; cbn. lia. }
  cbn [fmap list_fmap snd] in Hok.
  assert (1 ≤ held q + count q (q :: l.*2)) as Hq.
  { rewrite count_cons, decide_True by done. pose proof (count_nonneg q l.*2). specialize (Hpos q). lia. }
  wp_step. wp_by (by apply (put_ksmbd_user_wp _ _ _ Hok)); [|done].
  intros _ s' (Hok' & _). apply IH; [|done]. eapply counted_ext; [|exact Hok'].
  intros p. unfold hold. rewrite count_cons. destruct (decide (p = q)), (decide (q = p)); congruence || lia.
Qed.
Lemma free_user_map_wp m held s :
  users_ok (λ p, held p + count p (map_users m)) s → (∀ p, 0 ≤ held p) →
  wp (free_user_map m) s (λ _ s', users_ok held s') (λ _ _, False).
Proof.
  intros Hok Hpos. destruct m as [m|]; cbn [free_user_map].
  - apply put_users_wp; [|done]. eapply counted_ext; [|exact Hok]. intros p.
    cbn [map_users]. by rewrite (hash_order_perm m).
  - wp_step. eapply counted_ext; [|exact Hok]. intros p. unfold count; cbn. lia.
Qed.
Lemma free_maps_wp x held s :
  users_ok (λ p, held p + count p (share_users x)) s → (∀ p, 0 ≤ held p) →
  wp (free_maps x) s (λ _ s', users_ok held s') (λ _ _, False).
Proof.
  unfold free_maps, share_users. generalize (sh_maps x). intros l. revert s.
  induction l as [|m l IH]; intros s Hok Hpos; cbn [for_each].
  { wp_step. eapply counted_ext; [|exact Hok]. intros p. unfold count; cbn. lia. }
  wp_step. wp_by (apply (free_user_map_wp m (λ p, held p + count p (concat (map_users <$> l))));
    [|intros p; pose proof (count_nonneg p (concat (map_users <$> l))); specialize (Hpos p); lia];
    eapply counted_ext; [|exact Hok]; intros p; cbn [fmap list_fmap concat]; rewrite count_app; lia); [|done].
  intros _ s' Hok'. by apply IH.
Qed.

(** Killing a share that nobody holds. *)
Lemma kill_ksmbd_share_wp uheld s p x :
  ss_heap s !! p = Some x →
  users_ok (λ q, uheld q + count q (all_users (ss_heap s))) (ss_users s) → (∀ q, 0 ≤ uheld q) →
  wp (kill_ksmbd_share p) s
    (λ _ s', users_ok (λ q, uheld q + count q (all_users (ss_heap s'))) (ss_users s') ∧
             ss_heap s' = delete p (ss_heap s) ∧ ss_table s' = ss_table s ∧ ss_next s' = ss_next s)
    (λ _ _, False).
Proof.
  intros Hp Hok Hpos. unfold kill_ksmbd_share. wp_step. eapply wp_load; [done|].
  set (rest := λ q, uheld q + count q (all_users (delete p (ss_heap s)))).
  assert (∀ q, 0 ≤ rest q) as Hrest.
  { intros q. pose proof (count_nonneg q (all_users (delete p (ss_heap s)))). specialize (Hpos q).
    unfold rest. lia. }
  assert (users_ok (λ q, rest q + count q (share_users x)) (ss_users s)) as Hok1.
  { eapply counted_ext; [|exact Hok]. intros q. cbv beta. unfold rest.
    unfold all_users; rewrite (heap_refs_delete share_users _ p x Hp), count_app. lia. }
  wp_step. apply wp_zoom. wp_by (by apply (free_maps_wp x rest)); [|done].
  intros _ u' Hok'. eapply wp_release; [exact Hp|]. by cbn.
Qed.

(** Giving back a held reference to a share. *)
Lemma put_ksmbd_share_wp uheld sheld s p :
  shares_ok uheld sheld s → 1 ≤ sheld p →
  wp (put_ksmbd_share (Some p)) s
    (λ _ s', shares_ok uheld (hold p (-1) sheld) s' ∧ ss_table s' = ss_table s ∧
             (∀ q, q ≠ p → ss_heap s' !! q = ss_heap s !! q) ∧
             ∀ x, ss_heap s !! p = Some x → ss_heap s' !! p = None ∨
               ss_heap s' !! p = Some (set_sh_ref_count (sh_ref_count x - 1) x))
    (λ _ _, False).
Proof.
  intros [Hu Hpos Hs] Hheld. destruct (counted_live _ _ _ _ _ _ _ _ Hs Hheld) as (x & Hx & Href & _).
  unfold put_ksmbd_share. wp_step. eapply wp_load; [done|]. wp_step. eapply wp_store; [done|].
  set (y := set_sh_ref_count _ x).
  assert (users_ok (λ q, uheld q + count q (all_users (<[p:=y]> (ss_heap s)))) (ss_users s)) as Hu'.
  { eapply counted_ext; [|exact Hu]. intros q. by rewrite (all_users_update _ p x y). }
  destruct (Z.eqb_spec (sh_ref_count x - 1) 0) as [Hz|Hz].
  2:{ wp_step. split_and!; [|done|intros q Hq; by apply lookup_insert_ne|].
      2:{ intros z Hz'. right. cbn. rewrite lookup_insert_eq. unfold y. congruence. }
      split; [exact Hu'|done|]. eapply counted_update with (o := x); [exact Hs|..]; done || cbn; lia. }
  destruct (counted_last _ _ _ _ _ _ _ _ _ Hs Hx Hheld ltac:(lia)) as [Hst Hdel].
  wp_step. unfold __shm_remove_share. wp_step. eapply wp_load; [apply lookup_insert_eq|].
  change (sh_state y) with (sh_state x). unfold share_freeing in Hst. rewrite Hst. cbn [negb]. wp_step. wp_step.
  wp_by (apply (kill_ksmbd_share_wp uheld _ p y); [apply lookup_insert_eq|exact Hu'|done]); [|done].
  intros _ s' (Hok' & Hh & Ht & Hn). cbn in Hh, Ht, Hn. rewrite delete_insert_eq in Hh.
  split_and!; [|done|intros q Hq; rewrite Hh; by apply lookup_delete_ne|].
  2:{ intros z Hz'. left. rewrite Hh. apply lookup_delete_eq. }
  split; [exact Hok'|done|]. by rewrite Hh, Ht, Hn.
Qed.

(** A lookup takes a reference. *)
Lemma shm_lookup_share_wp uheld sheld s name :
  shares_ok uheld sheld s →
  wp (shm_lookup_share name) s
    (λ r s', match r with
     | None => s' = s ∧ ss_table s !! shm_casefold_share_name name = None
     | Some p => ss_table s !! shm_casefold_share_name name = Some p ∧
         shares_ok uheld (hold p 1 sheld) s' ∧
         ∃ x, ss_heap s !! p = Some x ∧
              s' = set_ss_heap (<[p := set_sh_ref_count (sh_ref_count x + 1) x]> (ss_heap s)) s
     end)
    (λ _ _, False).
Proof.
  intros [Hu Hpos Hs]. unfold shm_lookup_share, __shm_lookup_share. do 2 wp_step.
  destruct (ss_table s !! shm_casefold_share_name name) as [p|] eqn:Ht; [|by wp_step].
  destruct (co_table Hs _ _ Ht) as (x & Hx & _ & _). destruct (co_count Hs _ _ Hx) as [Href _].
  unfold get_ksmbd_share. wp_step. eapply wp_load; [done|].
  rewrite (proj2 (Z.eqb_neq _ _)) by lia. cbn [negb]. wp_step. eapply wp_store; [done|]. wp_step.
  split; [done|]. split; [|by eexists]. set (y := set_sh_ref_count _ x). split; cbn.
  - eapply counted_ext; [|exact Hu]. intros q. by rewrite (all_users_update _ p x y).
  - done.
  - pose proof (co_held Hs p). eapply counted_update with (o := x); [exact Hs|..]; done || cbn; lia.
Qed.

(** One turn of the removal of all shares. *)
Lemma remove_share_entry_wp uheld sheld s n p :
  shares_ok uheld sheld s → ss_table s !! n = Some p →
  wp (x <- sload p ;;
      sstore p (set_sh_state KSMBD_SHARE_STATE_FREEING x) ;;
      put_ksmbd_share (Some p) ;;
      modify (λ s, set_ss_table (delete n (ss_table s)) s)) s
    (λ _ s', shares_ok uheld sheld s' ∧ ss_table s' = delete n (ss_table s)) (λ _ _, False).
Proof.
  intros [Hu Hpos Hs] Hp. destruct (co_table Hs _ _ Hp) as (x & Hx & Hkey & _).
  destruct (co_count Hs _ _ Hx) as [Href _].
  wp_step. eapply wp_load; [done|]. wp_step. eapply wp_store; [done|].
  wp_step. unfold put_ksmbd_share. wp_step. eapply wp_load; [apply lookup_insert_eq|].
  wp_step. eapply wp_store; [apply lookup_insert_eq|]. cbn [ss_heap set_ss_heap].
  rewrite insert_insert_eq. cbn [sh_ref_count set_sh_state].
  set (y := set_sh_ref_count _ _).
  assert (users_ok (λ q, uheld q + count q (all_users (<[p:=y]> (ss_heap s)))) (ss_users s)) as Hu'.
  { eapply counted_ext; [|exact Hu]. intros q. by rewrite (all_users_update _ p x y). }
  destruct (Z.eqb_spec (sh_ref_count x - 1) 0) as [Hz|Hz].
  - wp_step. unfold __shm_remove_share. wp_step. eapply wp_load; [apply lookup_insert_eq|].
    change (sh_state y) with KSMBD_SHARE_STATE_FREEING. rewrite Z.eqb_refl. cbn [negb]. wp_step. wp_step.
    wp_by (apply (kill_ksmbd_share_wp uheld _ p y); [apply lookup_insert_eq|exact Hu'|done]); [|done].
    intros _ s' (Hok' & Hh & Ht & Hn). cbn in Hh, Ht, Hn. wp_step. cbv beta. rewrite Ht. split; [|done].
    split; [exact Hok'|done|]. cbn [ss_heap ss_table ss_next set_ss_table]. rewrite Hh, Hn.
    eapply counted_unlink; [exact Hs|exact Hp|exact Hx|..].
    + intros q Hq. by rewrite lookup_delete_ne, lookup_insert_ne.
    + intros w. by rewrite lookup_delete_eq.
    + lia.
  - wp_step. wp_step. split; [|done]. split; [exact Hu'|done|]. cbn [ss_heap ss_table ss_next set_ss_table set_ss_heap].
    eapply counted_unlink; [exact Hs|exact Hp|exact Hx|..].
    + intros q Hq. by rewrite lookup_insert_ne.
    + intros w. rewrite lookup_insert_eq. intros [= <-]. unfold y. cbn. split_and!; done || lia.
    + rewrite lookup_insert_eq. by eexists.
Qed.
Lemma shm_remove_all_shares_wp uheld sheld s :
  shares_ok uheld sheld s →
  wp shm_remove_all_shares s (λ _ s', shares_ok uheld sheld s' ∧ ss_table s' = ∅) (λ _ _, False).
Proof.
  intros Hok. unfold shm_remove_all_shares. do 2 wp_step.
  apply (unlink_all ss_table (shares_ok uheld sheld)); [done|apply hash_order_perm|].
  intros s' n p Hok' Hp. by apply remove_share_entry_wp.
Qed.

(** *** Building a share *)
Hypothesis base64_decode_total : ∀ b, ∃ p, base64_decode b = Some p ∧ Z.of_nat (length p) ≤ INT_MAX.

(** The users are held by the outside and by the share under construction. *)
Definition building (uheld : Z → Z) (s : pstate) : Prop :=
  (length (sh_maps (ps_share s)) = KSMBD_SHARE_USERS_MAX ∧
   sh_ref_count (ps_share s) = 1 ∧ sh_state (ps_share s) = 0) ∧
  users_ok (λ p, uheld p + count p (share_users (ps_share s))) (ps_users s).
Definition builds {T} (uheld : Z → Z) (m : prog pstate T) : Prop :=
  ∀ s, building uheld s → wp m s (λ _ s', building uheld s') (λ _ s', building uheld s').

Lemma builds_ret {T} h (a : T) : builds h (ret a).
Proof. intros s Hs. by wp_step. Qed.
Lemma builds_fail {T} h e : builds h (fail (A:=T) e).
Proof. intros s Hs. by wp_step. Qed.
Lemma builds_get h : builds h get.
Proof. intros s Hs. by wp_step. Qed.
Lemma builds_assert h b e : builds h (assert_ b e).
Proof. intros s Hs. by wp_step. Qed.
Lemma builds_bind {T U} h (m : prog pstate T) (k : T → prog pstate U) :
  builds h m → (∀ a, builds h (k a)) → builds h (bind m k).
Proof. intros Hm Hk s Hs. wp_step. wp_by (by apply Hm); [|done]. intros a s' Hs'. by apply Hk. Qed.
Lemma builds_or_return {T} h (m : prog pstate T) e : builds h m → builds h (or_return m e).
Proof. intros Hm s Hs. wp_step. by apply Hm. Qed.
Lemma builds_for_each {X} h (l : list X) f : (∀ x, builds h (f x)) → builds h (for_each l f).
Proof. intros Hf. induction l; cbn [for_each]; [apply builds_ret|]. by apply builds_bind. Qed.
(** An assignment that leaves the maps, the count and the state alone. *)
Definition plain (f : share → share) : Prop :=
  ∀ x, sh_maps (f x) = sh_maps x ∧ sh_ref_count (f x) = sh_ref_count x ∧ sh_state (f x) = sh_state x.
Lemma builds_upd h f : plain f → builds h (upd_share f).
Proof.
  intros Hf s [Hl Hok]. unfold upd_share. wp_step. unfold building, share_users in *.
  cbn [ps_share ps_users]. by destruct (Hf (ps_share s)) as (-> & -> & ->).
Qed.
Lemma builds_on_kv h c f : (∀ v, builds h (f v)) → builds h (on_kv c f).
Proof.
  intros Hf. unfold on_kv. apply builds_bind; [|intros [v|]; [apply Hf|apply builds_ret]].
  intros s Hs. unfold group_kv_steal, wp. by destruct KSMBD_SHARE_CONF_IS_BROKEN.
Qed.
Lemma builds_flag_kv h c flag : builds h (flag_kv c flag).
Proof. apply builds_on_kv. intros v. apply builds_upd. intros x. by destruct cp_get_group_kv_bool. Qed.
Lemma builds_mask_kv h c set : (∀ v, plain (set v)) → builds h (mask_kv c set).
Proof. intros Hset. apply builds_on_kv. intros v. by apply builds_upd. Qed.

Lemma map_users_insert m n p :
  m !! n = None → map_users (Some (<[n := p]> m)) ≡ₚ p :: map_users (Some m).
Proof.
  intros Hn. cbn [map_users].
  assert (map_to_list (<[n := p]> m) ≡ₚ (n, p) :: map_to_list m) as E by by apply map_to_list_insert.
  by apply (fmap_Permutation snd) in E.
Qed.
(** The references of a list of maps when one map is replaced. *)
Lemma concat_maps_insert (l : list (option (gmap bytes Z))) i m m' k :
  (i < length l)%nat → nth i l None = m → map_users m' ≡ₚ k ++ map_users m →
  concat (map_users <$> <[i := m']> l) ≡ₚ k ++ concat (map_users <$> l).
Proof.
  revert i. induction l as [|a l IH]; intros [|i] Hi Hm Hk; cbn in *; try lia.
  - subst. rewrite Hk. by rewrite app_assoc.
  - rewrite (IH i) by (done || lia). rewrite !app_assoc. f_equiv. apply Permutation_app_comm.
Qed.
Lemma builds_ensure_map h map : (map < KSMBD_SHARE_USERS_MAX)%nat → builds h (upd_share (ensure_map map)).
Proof.
  intros Hmap s [Hl Hok]. unfold upd_share, ensure_map. wp_step. unfold building. cbn [ps_share ps_users].
  destruct (nth map (sh_maps (ps_share s)) None) eqn:E; [done|].
  split; [cbn [sh_maps sh_ref_count sh_state set_sh_maps]; by rewrite length_insert|].
  destruct Hl as [Hl _].
  eapply counted_ext; [|exact Hok]. intros p. f_equal. unfold share_users. cbn [sh_maps set_sh_maps].
  by rewrite (concat_maps_insert _ map None (Some ∅) []) by (done || lia).
Qed.
Lemma builds_add_user_name h map name :
  (map < KSMBD_SHARE_USERS_MAX)%nat → (∀ p, 0 ≤ h p) → builds h (add_user_name map name).
Proof.
  intros Hmap Hpos s [Hl Hok]. unfold add_user_name. case_bool_decide; [by wp_step|].
  wp_step. apply wp_zoom. wp_by (by apply (usm_lookup_user_wp _ _ _ Hok)); [|done].
  intros [p|] u' Hr; [|destruct Hr as [-> _]; wp_step; by destruct s].
  destruct Hr as (_ & u & Hu & -> & Hok').
  wp_step. apply wp_zoom. eapply wp_load; [apply lookup_insert_eq|]. do 2 wp_step.
  cbn [ps_share ps_users set_ps_users u_name set_ref_count].
  set (m := default ∅ (nth map (sh_maps (ps_share s)) None)).
  destruct (m !! u_name u) as [q|] eqn:Hq.
  - apply wp_zoom. wp_by (apply (put_ksmbd_user_wp _ _ p Hok'); rewrite hold_same;
      pose proof (count_nonneg p (share_users (ps_share s))); specialize (Hpos p); lia); [|done].
    intros _ u2 (Hok2 & _). split; [done|]. eapply counted_ext; [|exact Hok2]. intros q'.
    unfold hold. destruct (decide (q' = p)); cbn; lia.
  - unfold upd_share. wp_step. split; [by cbn; rewrite length_insert|]. destruct Hl as [Hl _].
    eapply counted_ext; [|exact Hok']. intros q'. unfold share_users.
    cbn [ps_share ps_users set_ps_users sh_maps set_sh_maps].
    rewrite (concat_maps_insert _ map (nth map (sh_maps (ps_share s)) None) _ [p]).
    + rewrite count_app, count_cons. unfold hold, count at 3; cbn.
      destruct (decide (q' = p)), (decide (p = q')); congruence || lia.
    + rewrite Hl. done.
    + done.
    + rewrite map_users_insert by done. unfold m. by destruct (nth map _ None).
Qed.
Lemma builds_users_kv h c map :
  (map < KSMBD_SHARE_USERS_MAX)%nat → (∀ p, 0 ≤ h p) → builds h (users_kv c map).
Proof.
  intros Hmap Hpos. apply builds_on_kv. intros v. unfold add_users_map.
  apply builds_bind; [by apply builds_ensure_map|]. intros _. apply builds_for_each.
  intros [|c0 name]; [apply builds_ret|]. destruct (c0 =? 64); [|by apply builds_add_user_name].
  destruct (getgrnam name) as [[gid mem]|]; [|apply builds_ret].
  apply builds_bind; [|intros _]; apply builds_for_each; intros; by apply builds_add_user_name.
Qed.

Lemma builds_force_group h v : builds h (force_group v).
Proof.
  unfold force_group. destruct (getgrnam v) as [[gid mem]|]; [|apply builds_fail].
  apply builds_bind; [by apply builds_upd|intros _; apply builds_assert].
Qed.
Lemma builds_force_user h v : builds h (force_user v).
Proof.
  unfold force_user. destruct (getpwnam v) as [[uid gid]|]; [|apply builds_fail].
  apply builds_bind; [by apply builds_upd|intros _].
  apply builds_bind; [apply builds_assert|intros _].
  apply builds_bind; [apply builds_get|intros s].
  destruct (_ =? _); [|apply builds_ret].
  apply builds_bind; [by apply builds_upd|intros _; apply builds_assert].
Qed.
Lemma builds_guest h v :
  builds h (p_users (usm_add_guest_account base64_decode getpwnam getgrouplist v)).
Proof.
  intros s [Hl Hok]. unfold p_users. apply wp_zoom.
  wp_by (by eapply usm_add_guest_account_wp).
  - by intros _ u' [Hok' _].
  - by intros e u' ->.
Qed.
Lemma builds_add_hosts_map h map l : builds h (add_hosts_map map l).
Proof. apply builds_upd. intros x. by destruct map. Qed.
Lemma plain_vfs_objects l : plain (λ x, foldl (λ x p, vfs_object p x) x l).
Proof.
  induction l as [|p l IH]; intros x; cbn; [done|]. destruct (IH (vfs_object p x)) as (-> & -> & ->).
  unfold vfs_object. repeat case_match; done.
Qed.
Lemma builds_steal h c : builds h (group_kv_steal c).
Proof. intros s Hs. unfold group_kv_steal, wp. by destruct KSMBD_SHARE_CONF_IS_BROKEN. Qed.
Lemma builds_conf_kv_begin h : builds h conf_kv_begin.
Proof.
  unfold conf_kv_begin. repeat (apply builds_bind; [|intros _]); [..|apply builds_on_kv; intros v].
  - apply builds_on_kv; intros v. apply builds_bind; [by apply builds_upd|intros _; apply builds_assert].
  - apply builds_on_kv; intros v. by apply builds_upd.
  - apply builds_flag_kv.
  - apply builds_bind; [by apply builds_upd|intros _]. apply builds_or_return, builds_guest.
Qed.
Lemma plain_read_only on : plain (read_only on).
Proof. intros x. by destruct on. Qed.
Lemma builds_conf_kv_mode h : builds h conf_kv_mode.
Proof.
  unfold conf_kv_mode. apply builds_bind; [apply builds_steal|intros ro].
  apply builds_bind; [destruct ro; [apply builds_upd, plain_read_only|apply builds_ret]|intros _].
  apply builds_bind; [apply builds_flag_kv|intros _]. destruct ro; [apply builds_ret|].
  apply builds_bind; [apply builds_steal|intros v1].
  apply builds_bind; [destruct v1; [apply builds_ret|apply builds_steal]|intros v2].
  apply builds_bind; [destruct v2; [apply builds_ret|apply builds_steal]|intros [v|]];
    [apply builds_upd, plain_read_only|apply builds_ret].
Qed.
Lemma builds_conf_kv_rest h : (∀ p, 0 ≤ h p) → builds h conf_kv_rest.
Proof.
  intros Hpos. unfold conf_kv_rest.
  repeat match goal with
  | |- builds _ (bind _ _) => apply builds_bind; [|intros _]
  | |- builds _ (flag_kv _ _) => apply builds_flag_kv
  | |- builds _ (mask_kv _ _) => by apply builds_mask_kv
  | |- builds _ (users_kv _ _) => apply builds_users_kv; [|done]
  | |- builds _ (on_kv _ _) => apply builds_on_kv; intros v
  | |- builds _ (add_hosts_map _ _) => apply builds_add_hosts_map
  | |- builds _ (force_group _) => apply builds_force_group
  | |- builds _ (force_user _) => apply builds_force_user
  | |- (_ < KSMBD_SHARE_USERS_MAX)%nat => vm_compute; lia
  end; apply builds_upd.
  - done.
  - intros x. by destruct test_share_flag.
  - intros x. exact (plain_vfs_objects (g_strsplit_set v)
      (clear_share_flag KSMBD_SHARE_FLAG_STREAMS (clear_share_flag KSMBD_SHARE_FLAG_ACL_XATTR x))).
  - intros x. by destruct cp_get_group_kv_bool.
  - done.
Qed.

Lemma init_share_from_group_wp uheld reload is_ipc group u :
  users_ok uheld u → (∀ p, 0 ≤ uheld p) →
  match init_share_from_group reload is_ipc group u with
  | Done _ s | Err _ s => building uheld s
  | Fault => False
  end.
Proof.
  intros Hu Hpos. unfold init_share_from_group.
  set (s := mk_pstate u (g_kv group) _).
  assert (building uheld s) as Hs.
  { unfold s, new_ksmbd_share. split; [by destruct is_ipc, reload|].
    eapply counted_ext; [|exact Hu]. intros p. cbn [ps_users ps_share].
    assert (∀ (b : bool) x, share_users (if b then set_share_flag KSMBD_SHARE_FLAG_PIPE x else x) = share_users x)
      as -> by by intros []. unfold share_users. destruct reload; cbn; unfold count; cbn; lia. }
  assert (builds uheld process_share_conf_kv) as Hb.
  { unfold process_share_conf_kv. apply builds_bind; [apply builds_conf_kv_begin|intros _].
    apply builds_bind; [apply builds_conf_kv_mode|intros _]. by apply builds_conf_kv_rest. }
  exact (Hb s Hs).
Qed.

Lemma discard_wp uheld sheld s x :
  shares_ok (λ p, uheld p + count p (share_users x)) sheld s → (∀ p, 0 ≤ uheld p) →
  wp (discard x) s (λ _ s', shares_ok uheld sheld s' ∧ ss_table s' = ss_table s) (λ _ _, False).
Proof.
  intros [Hu _ Hs] Hpos. unfold discard. apply wp_zoom.
  set (h := λ p, uheld p + count p (all_users (ss_heap s))).
  wp_by (apply (free_maps_wp x h); [|intros p; unfold h;
      pose proof (count_nonneg p (all_users (ss_heap s))); specialize (Hpos p); lia];
    eapply counted_ext; [|exact Hu]; intros p; unfold h; cbv beta; lia); [|done].
  intros _ u' Hu'. by split.
Qed.

(** A share under construction [x] next to the others. *)
Definition pending (uheld sheld : Z → Z) (x : share) (s : sstate) : Prop :=
  shares_ok (λ p, uheld p + count p (share_users x)) sheld s ∧ ∀ p, 0 ≤ uheld p.
(** The entries of the table stay. *)
Definition grown (uheld sheld : Z → Z) (s s' : sstate) : Prop :=
  shares_ok uheld sheld s' ∧ ∀ n p, ss_table s !! n = Some p → ss_table s' !! n = Some p.

Lemma discard_ret_wp uheld sheld s x (code : Z) :
  pending uheld sheld x s →
  wp (discard x ;; ret code) s (λ _ s', grown uheld sheld s s') (λ _ _, False).
Proof.
  intros [Hok Hpos]. wp_step. wp_by (by apply (discard_wp uheld sheld)); [|done].
  intros _ s' [Hok' Ht]. wp_step. split; [done|]. by rewrite Ht.
Qed.
Lemma insert_new_share_wp uheld sheld s x :
  pending uheld sheld x s → sh_ref_count x = 1 → sh_state x = 0 →
  wp (insert_new_share x) s (λ _ s', grown uheld sheld s s') (λ _ _, False).
Proof.
  intros Hp Href Hst. unfold insert_new_share. do 2 wp_step. unfold __shm_lookup_share.
  destruct (ss_table s !! shm_casefold_share_name (sh_name x)) eqn:Ht; [by apply discard_ret_wp|].
  wp_step. wp_step. wp_step. destruct Hp as [[Hu _ Hs] Hpos].
  assert (ss_heap s !! ss_next s = None) as Hfresh.
  { destruct (ss_heap s !! ss_next s) eqn:E; [|done].
    pose proof (co_next Hs (ss_next s) ltac:(by eexists)). lia. }
  split.
  - split; cbn [ss_users ss_heap ss_table ss_next].
    + eapply counted_ext; [|exact Hu]. intros p. cbv beta. unfold all_users; rewrite heap_refs_insert, count_app by done. lia.
    + done.
    + apply (counted_insert share_key); [done|done|done|]. unfold share_freeing. by rewrite Hst.
  - intros n p Hn. cbn. rewrite lookup_insert_ne; [done|]. congruence.
Qed.

(** A group becomes a share, or leaves the shares as they are. *)
Lemma shm_add_new_share_wp uheld sheld s reload is_ipc group :
  shares_ok uheld sheld s →
  wp (shm_add_new_share reload is_ipc group) s (λ _ s', grown uheld sheld s s') (λ _ _, False).
Proof.
  intros Hok. pose proof Hok as [Hu Hpos Hs]. unfold wp, shm_add_new_share.
  destruct (negb _); [done|].
  set (h := λ p, uheld p + count p (all_users (ss_heap s))) in *.
  assert (∀ p, 0 ≤ h p) as Hh.
  { intros p. unfold h. pose proof (count_nonneg p (all_users (ss_heap s))). specialize (Hpos p). lia. }
  pose proof (init_share_from_group_wp h reload is_ipc group (ss_users s) Hu Hh) as Hi.
  assert (∀ ps, building h ps → pending uheld sheld (ps_share ps) (set_ss_users (ps_users ps) s)) as Hadd.
  { intros ps [_ Hb]. split; [|done]. split; [|intros p; pose proof (count_nonneg p (share_users (ps_share ps)));
      specialize (Hpos p); lia|exact Hs].
    eapply counted_ext; [|exact Hb]. intros p. unfold h. cbn. lia. }
  destruct init_share_from_group as [[] ps|e ps|]; [| |done].
  - apply (insert_new_share_wp uheld sheld (set_ss_users (ps_users ps) s)); [by apply Hadd|apply Hi..].
  - apply (discard_ret_wp uheld sheld (set_ss_users (ps_users ps) s)). by apply Hadd.
Qed.

(** C6 (invariant): adding a share from a configuration group (with the users
    its access lists name), looking one up, putting it back and removing all
    shares never touch freed memory; the count of every user and of every share
    stays exactly the number of the references that are held to it and one for
    the table, so that nothing is lost and nothing is put twice; an existing
    entry is kept, and whoever holds a share keeps it, and the users of its
    maps, allocated across a removal. *)
Theorem shares_refcounts uheld sheld s reload is_ipc group name p :
  shares_ok uheld sheld s →
  wp (shm_add_new_share reload is_ipc group) s (λ _ s', grown uheld sheld s s') (λ _ _, False) ∧
  wp (shm_lookup_share name) s
     (λ r s', shares_ok uheld (match r with Some q => hold q 1 sheld | None => sheld end) s') (λ _ _, False) ∧
  (1 ≤ sheld p →
   wp (put_ksmbd_share (Some p)) s (λ _ s', shares_ok uheld (hold p (-1) sheld) s') (λ _ _, False)) ∧
  wp shm_remove_all_shares s
     (λ _ s', shares_ok uheld sheld s' ∧ ss_table s' = ∅ ∧
              ∀ q, 1 ≤ sheld q → ∃ x, ss_heap s' !! q = Some x ∧
                ∀ u, u ∈ share_users x → is_Some (us_heap (ss_users s') !! u))
     (λ _ _, False).
Proof.
  intros Hok. split_and!.
  - by apply shm_add_new_share_wp.
  - wp_by (by apply (shm_lookup_share_wp uheld sheld)); [|done].
    intros [q|] s' Hr; [by destruct Hr as (_ & ? & _)|by destruct Hr as [-> _]].
  - intros Hp. wp_by (by apply (put_ksmbd_share_wp uheld sheld)); [by intros _ s' []|done].
  - wp_by (by apply (shm_remove_all_shares_wp uheld sheld)); [|done].
    intros _ s' [Hok' Ht]. split_and!; [done|done|]. intros q Hq. pose proof Hok' as [Hu Hpos Hs].
    destruct (co_held Hs q) as [_ [x Hx]]; [lia|]. exists x. split; [done|]. intros u Hin.
    apply (co_held Hu). unfold all_users; rewrite (heap_refs_delete share_users _ q x Hx), count_app.
    pose proof (count_nonneg u (heap_refs share_users (delete q (ss_heap s')))). specialize (Hpos u).
    assert (0 < count u (share_users x)) by by apply count_pos. lia.
Qed.
End ShareCounts.

Definition total_system : System := {|
  base64_decode _ := Some []; getpwnam _ := None; getgrouplist _ := []; getgrnam _ := None;
  getpwents := []; inet_pton _ _ := None;
|}.
Definition no_shares : sstate := mk_sstate alice_state ∅ ∅ 1.
Lemma no_shares_ok : shares_ok (H:=toy_glib) (λ _, 0) (λ _, 0) no_shares.
Proof.
  split; [|done|split]; cbn [no_shares ss_users ss_heap ss_table ss_next].
  - eapply counted_ext; [|exact alice_state_ok]. intros p. unfold count. reflexivity.
  - by intros n p.
  - by intros p o.
  - by intros p o.
  - by intros p [].
  - intros p. lia.
Qed.
Lemma shares_refcounts_witness :
  ∃ s', shm_add_new_share (H:=toy_glib) (H0:=total_system) (H1:=plenty) false false
          (mk_group (str "Media") {[ str "valid users" := (str "valid users", str "alice") ]}) no_shares = Done 0 s' ∧
        shares_ok (H:=toy_glib) (λ _, 0) (λ _, 0) s' ∧
        (u_ref_count <$> us_heap (ss_users s') !! 1) = Some 2.
Proof.
  assert (∃ s', shm_add_new_share (H:=toy_glib) (H0:=total_system) (H1:=plenty) false false
    (mk_group (str "Media") {[ str "valid users" := (str "valid users", str "alice") ]}) no_shares = Done 0 s' ∧
    (u_ref_count <$> us_heap (ss_users s') !! 1) = Some 2) as (s' & E & Hc).
  { eexists; split; [vm_compute; reflexivity|vm_compute; reflexivity]. }
  exists s'. split; [exact E|]. split; [|exact Hc].
  assert (∀ b : bytes, ∃ p : bytes, base64_decode (System:=total_system) b = Some p ∧
    Z.of_nat (length p) ≤ INT_MAX) as Hb.
  { intros b. exists []. split; [reflexivity|vm_compute; congruence]. }
  destruct (shares_refcounts (H:=toy_glib) (H0:=total_system) (H1:=plenty)
    (λ t, reflexivity (map_to_list t)) Hb (λ _, 0) (λ _, 0) no_shares false false
    (mk_group (str "Media") {[ str "valid users" := (str "valid users", str "alice") ]}) [] 1 no_shares_ok) as [Hw _].
  unfold wp in Hw. rewrite E in Hw. apply Hw.
Defined.

(** ** References held by a list *)
(** Solve an equality of counts point by point. *)
Ltac counts :=
  intros; cbv beta; unfold hold; rewrite ?count_app, ?count_cons;
  repeat match goal with |- context [decide (?a = ?b)] => destruct (decide (a = b)) end;
  simplify_eq; unfold count; cbn; lia.

(** The shares of [s'] are shares of [s] that differ in their counts only. *)
Definition same_shares (s s' : sstate) : Prop :=
  ss_table s' = ss_table s ∧
  ∀ p y, ss_heap s' !! p = Some y → ∃ x n, ss_heap s !! p = Some x ∧ y = set_sh_ref_count n x.
#[export] Instance same_shares_refl : Reflexive same_shares.
Proof. intros s. split; [done|]. intros p y Hy. exists y, (sh_ref_count y). split; [done|by destruct y]. Qed.
#[export] Instance same_shares_trans : Transitive same_shares.
Proof.
  intros s1 s2 s3 [T1 H1] [T2 H2]. split; [congruence|]. intros p y Hy.
  destruct (H2 p y Hy) as (x & n & Hx & ->). destruct (H1 p x Hx) as (w & m & Hw & ->). by exists w, n.
Qed.

Section ShareReferences.
Context `{GLib, System, Allocator}.
Hypothesis hash_order_perm : ∀ t, hash_order t ≡ₚ map_to_list t.

Lemma shares_ok_ext uh uh' sh sh' s :
  (∀ p, uh p = uh' p) → (∀ p, sh p = sh' p) → shares_ok uh sh s → shares_ok uh' sh' s.
Proof.
  intros Hu Hs [Hou Hp Hos]. split.
  - eapply counted_ext; [|exact Hou]. intros p. cbv beta. by rewrite Hu.
  - intros p. by rewrite <-Hu.
  - by eapply counted_ext.
Qed.
Lemma shares_ok_live uh sh s p :
  shares_ok uh sh s → 1 ≤ sh p → ∃ x, ss_heap s !! p = Some x.
Proof. intros [_ _ Hs] Hp. destruct (co_held Hs p) as [_ [x Hx]]; [lia|]. by exists x. Qed.
Lemma shares_ok_nonneg uh sh s p : shares_ok uh sh s → 0 ≤ sh p.
Proof. intros [_ _ Hs]. apply (co_held Hs). Qed.

(** Giving back what a NULL or held pointer refers to. *)
Definition refs (p : option Z) : list Z := match p with Some p => [p] | None => [] end.
Lemma put_share_same uh sh s p :
  shares_ok uh (λ q, sh q + count q (refs p)) s → (∀ q, 0 ≤ sh q) →
  wp (put_ksmbd_share p) s (λ _ s', shares_ok uh sh s' ∧ same_shares s s') (λ _ _, False).
Proof.
  intros Hok Hpos. destruct p as [p|]; cbn [refs] in Hok.
  2:{ cbn [put_ksmbd_share]. wp_step. split; [|done]. eapply shares_ok_ext; [done| |exact Hok]. counts. }
  assert (1 ≤ sh p + count p [p]) as Hp.
  { rewrite count_cons, decide_True by done. specialize (Hpos p). pose proof (count_nonneg p []). lia. }
  destruct (shares_ok_live _ _ _ p Hok Hp) as [x Hx].
  wp_by (by apply (put_ksmbd_share_wp hash_order_perm _ _ _ p Hok)); [|done].
  intros _ s' (Hok' & Ht & Ho & Hs). split; [eapply shares_ok_ext; [done| |exact Hok']; counts|].
  split; [done|]. intros q y Hy. destruct (decide (q = p)) as [->|Hq].
  - destruct (Hs x Hx) as [E|E]; [congruence|]. exists x, (sh_ref_count x - 1). split; congruence.
  - rewrite Ho in Hy by done. exists y, (sh_ref_count y). split; [done|by destruct y].
Qed.
Lemma put_share_wp uh sh s p :
  shares_ok uh (λ q, sh q + count q (refs p)) s → (∀ q, 0 ≤ sh q) →
  wp (put_ksmbd_share p) s (λ _ s', shares_ok uh sh s') (λ _ _, False).
Proof. intros. wp_by (by apply (put_share_same uh sh)); [by intros _ s' []|done]. Qed.
(** A reference to a share in the heap. *)
Lemma get_share_same uh sh s p :
  shares_ok uh sh s → is_Some (ss_heap s !! p) →
  wp (get_ksmbd_share p) s
    (λ r s', r = Some p ∧ shares_ok uh (hold p 1 sh) s' ∧ same_shares s s') (λ _ _, False).
Proof.
  intros [Hu Hpos Hs] [x Hx]. destruct (co_count Hs _ _ Hx) as [Href _].
  unfold get_ksmbd_share. wp_step. eapply wp_load; [done|].
  rewrite (proj2 (Z.eqb_neq _ _)) by lia. cbn [negb]. wp_step. eapply wp_store; [done|]. wp_step.
  set (y := set_sh_ref_count _ x). split; [done|]. split; [split; cbn|].
  - eapply counted_ext; [|exact Hu]. intros q. by rewrite (all_users_update _ p x y).
  - done.
  - pose proof (co_held Hs p). eapply counted_update with (o := x); [exact Hs|..]; done || cbn; lia.
  - split; [done|]. cbn. intros q z Hz. destruct (decide (q = p)) as [->|Hq].
    + rewrite lookup_insert_eq in Hz. exists x, (sh_ref_count x + 1). split; [done|]. unfold y in Hz. congruence.
    + rewrite lookup_insert_ne in Hz by done. exists z, (sh_ref_count z). split; [done|by destruct z].
Qed.
End ShareReferences.
