(* ===== verification/Sessions.v ===== *)
(** * Sessions and tree connections
      ([src/tools/management/session.c], [src/tools/management/tree_conn.c])

    A session holds a reference to its user and owns the tree connections,
    each of which holds a reference to its share.  The state is that of
    [Shares] with the sessions, their table and the capacity
    [global_conf.sessions_cap].  [sm_handle_tree_connect] is split where it
    gives up the table lock, so that the steps of two threads can be
    interleaved. *)

From S2P Require Import Prelude ConfText Refcount Users Shares.

(** ** Data *)
Definition KSMBD_TREE_CONN_STATUS_OK : Z := 0.
Definition KSMBD_TREE_CONN_STATUS_NOMEM : Z := 1.
Definition KSMBD_TREE_CONN_STATUS_NO_SHARE : Z := 2.
Definition KSMBD_TREE_CONN_STATUS_NO_USER : Z := 3.
Definition KSMBD_TREE_CONN_STATUS_INVALID_USER : Z := 4.
Definition KSMBD_TREE_CONN_STATUS_HOST_DENIED : Z := 5.
Definition KSMBD_TREE_CONN_STATUS_TOO_MANY_CONNS : Z := 7.
Definition KSMBD_TREE_CONN_STATUS_TOO_MANY_SESSIONS : Z := 8.
Definition KSMBD_TREE_CONN_STATUS_ERROR : Z := 9.
Definition KSMBD_TREE_CONN_FLAG_GUEST_ACCOUNT : Z := BIT 0.
Definition KSMBD_TREE_CONN_FLAG_READ_ONLY : Z := BIT 1.
Definition KSMBD_TREE_CONN_FLAG_WRITABLE : Z := BIT 2.
Definition KSMBD_TREE_CONN_FLAG_ADMIN_ACCOUNT : Z := BIT 3.
Definition KSMBD_TREE_CONN_FLAG_UPDATE : Z := BIT 4.
Definition KSMBD_RESTRICT_ANON_TYPE_1 : Z := 1.

(** [struct ksmbd_tree_conn]; a NULL share is [None]. *)
Record tree_conn := mk_conn { tc_id : Z; tc_share : option Z; tc_flags : Z }.
Definition sizeof_ksmbd_tree_conn : Z := 24.

(** [struct ksmbd_session] *)
Record session := mk_session {
  se_id : Z;
  se_user : Z;
  se_tree_conns : list tree_conn;
  se_ref_counter : Z;
}.
Definition sizeof_ksmbd_session : Z := 48.
Definition set_se_tree_conns (l : list tree_conn) (x : session) : session :=
  mk_session (se_id x) (se_user x) l (se_ref_counter x).
Definition set_se_ref_counter (n : Z) (x : session) : session :=
  mk_session (se_id x) (se_user x) (se_tree_conns x) n.

(** The shares with the users, [sessions_table] with its objects, and
    [global_conf.sessions_cap]. *)
Record wstate := mk_wstate {
  ws_shares : sstate;
  ws_heap : gmap Z session;
  ws_table : gmap Z Z;
  ws_next : Z;
  ws_cap : Z;
}.
Definition set_ws_shares (v : sstate) (w : wstate) : wstate :=
  mk_wstate v (ws_heap w) (ws_table w) (ws_next w) (ws_cap w).
Definition set_ws_heap (v : gmap Z session) (w : wstate) : wstate :=
  mk_wstate (ws_shares w) v (ws_table w) (ws_next w) (ws_cap w).
Definition set_ws_table (v : gmap Z Z) (w : wstate) : wstate :=
  mk_wstate (ws_shares w) (ws_heap w) v (ws_next w) (ws_cap w).
Definition set_ws_cap (v : Z) (w : wstate) : wstate :=
  mk_wstate (ws_shares w) (ws_heap w) (ws_table w) (ws_next w) v.

Abbreviation wload := (load ws_heap).
Abbreviation wstore := (store ws_heap set_ws_heap).
Definition on_shares {T} : prog sstate T → prog wstate T := zoom ws_shares set_ws_shares.
Definition w_users {T} (m : prog ustate T) : prog wstate T := on_shares (on_users m).

(** ** Sessions *)
Section Sessions.
Context `{GLib, System, Allocator}.

Definition tcm_tree_conn_free (conn : tree_conn) : prog sstate unit :=
  shm_close_connection (tc_share conn) ;;
  put_ksmbd_share (tc_share conn).

Definition kill_ksmbd_session (p : Z) : prog wstate unit :=
  x <- wload p ;;
  on_shares (for_each (se_tree_conns x) tcm_tree_conn_free) ;;
  w_users (put_ksmbd_user (Some (se_user x))) ;;
  release ws_heap set_ws_heap p.

(** The new object's address; NULL is [None]. *)
Definition new_ksmbd_session (id user : Z) : prog wstate (option Z) :=
  if negb (g_try_malloc sizeof_ksmbd_session) then ret None
  else
    w <- get ;;
    modify (λ w, mk_wstate (ws_shares w) (<[ws_next w := mk_session id user [] 1]> (ws_heap w))
                   (ws_table w) (ws_next w + 1) (ws_cap w)) ;;
    ret (Some (ws_next w)).

Definition __sm_remove_session (p : Z) : prog wstate unit :=
  x <- wload p ;;
  w <- get ;;
  match ws_table w !! se_id x with
  | None => fail (- EINVAL)
  | Some _ => modify (set_ws_table (delete (se_id x) (ws_table w))) ;; kill_ksmbd_session p
  end.

Definition __get_session (p : Z) : prog wstate (option Z) :=
  x <- wload p ;;
  if negb (se_ref_counter x =? 0)
  then wstore p (set_se_ref_counter (se_ref_counter x + 1) x) ;; ret (Some p)
  else ret None.

Definition __put_session (p : Z) : prog wstate unit :=
  x <- wload p ;;
  let n := se_ref_counter x - 1 in
  wstore p (set_se_ref_counter n x) ;;
  if n =? 0 then ignore (__sm_remove_session p) else ret tt.

Definition __sm_lookup_session (id : Z) (w : wstate) : option Z := ws_table w !! id.

Definition sm_lookup_session (id : Z) : prog wstate (option Z) :=
  w <- get ;;
  match __sm_lookup_session id w with
  | None => ret None
  | Some p => __get_session p
  end.

(** The section under the table's writer lock: the address of the session
    that goes on, or NULL for another turn.  [g_hash_table_insert] replaces the
    value of a key that is present and then returns FALSE. *)
Definition sm_insert_session (id p : Z) : prog wstate (option Z) :=
  w <- get ;;
  lookup <- (match __sm_lookup_session id w with
             | None => ret None
             | Some q => __get_session q
             end) ;;
  sess <- (match lookup with
           | None => ret p
           | Some q => kill_ksmbd_session p ;; ret q
           end) ;;
  x <- wload sess ;;
  w <- get ;;
  modify (set_ws_table (<[se_id x := sess]> (ws_table w))) ;;
  match ws_table w !! se_id x with
  | None => ret (Some sess)
  | Some _ => kill_ksmbd_session sess ;; ret None
  end.

(** One turn of the loop: [inl code] to return, [inr] to go around. *)
Definition connect_turn (id user : Z) : prog wstate (option Z + option Z) :=
  sess <- sm_lookup_session id ;;
  match sess with
  | Some p => ret (inl (Some p))
  | None =>
      sess <- new_ksmbd_session id user ;;
      match sess with
      | None => ret (inl None)
      | Some p => r <- sm_insert_session id p ;; ret (inr r)
      end
  end.
Definition add_tree_conn (p : Z) (conn : tree_conn) : prog wstate Z :=
  x <- wload p ;;
  wstore p (set_se_tree_conns (se_tree_conns x ++ [conn]) x) ;;
  ret 0.
(** [fuel] bounds the turns of the [retry] loop. *)
Fixpoint sm_handle_tree_connect (fuel : nat) (id user : Z) (conn : tree_conn) : prog wstate Z :=
  match fuel with
  | O => fault
  | S fuel =>
      r <- connect_turn id user ;;
      match r with
      | inl None => ret (- EINVAL)
      | inl (Some p) | inr (Some p) => add_tree_conn p conn
      | inr None => sm_handle_tree_connect fuel id user conn
      end
  end.

(** [g_atomic_int_add] returns the value before. *)
Definition sm_check_sessions_capacity (id : Z) : prog wstate Z :=
  sess <- sm_lookup_session id ;;
  match sess with
  | Some p => __put_session p ;; ret 0
  | None =>
      w <- get ;;
      if ws_cap w <? 1 then ret (- EINVAL)
      else
        modify (set_ws_cap (ws_cap w - 1)) ;;
        if ws_cap w <? 1
        then modify (set_ws_cap (ws_cap w)) ;; ret (- EINVAL)
        else ret 0
  end.

(** The first connection with the identifier, and the list without it. *)
Fixpoint take_tree_conn (tree_conn_id : Z) (l : list tree_conn) : option (tree_conn * list tree_conn) :=
  match l with
  | [] => None
  | c :: l =>
      if tc_id c =? tree_conn_id then Some (c, l)
      else match take_tree_conn tree_conn_id l with
           | Some (d, l) => Some (d, c :: l)
           | None => None
           end
  end.

Definition sm_handle_tree_disconnect (sess_id tree_conn_id : Z) : prog wstate Z :=
  sess <- sm_lookup_session sess_id ;;
  match sess with
  | None => ret 0
  | Some p =>
      x <- wload p ;;
      (match take_tree_conn tree_conn_id (se_tree_conns x) with
       | None => ret tt
       | Some (conn, l) =>
           wstore p (set_se_ref_counter (se_ref_counter x - 1) (set_se_tree_conns l x)) ;;
           (match l with
            | [] => modify (λ w, set_ws_cap (s32 (ws_cap w + 1)) w)
            | _ => ret tt
            end) ;;
           on_shares (tcm_tree_conn_free conn)
       end) ;;
      __put_session p ;;
      ret 0
  end.

(** [sm_clear_sessions] of [sm_destroy]; [order] is the order of the walk. *)
Definition sm_destroy (order : gmap Z Z → list (Z * Z)) : prog wstate unit :=
  w <- get ;;
  for_each (order (ws_table w)) (λ '(_, p), kill_ksmbd_session p) ;;
  modify (set_ws_table ∅).

(** ** Tree connections *)
Record tree_connect_request := mk_treq {
  rq_account_flags : Z;
  rq_session_id : Z;
  rq_connect_id : Z;
  rq_account : bytes;
  rq_share : bytes;
  rq_peer_addr : bytes;
}.
Definition sizeof_peer_addr : Z := 64.
Record tree_connect_response := mk_tresp { rs_status : Z; rs_connection_flags : Z }.

(** [global_conf.map_to_guest], [.guest_account] and [.restrict_anon] *)
Variable map_to_guest : Z.
Variable guest_account : option bytes.
Variable restrict_anon : Z.

(** The label [out_error]: returned code and response. *)
Definition out_error (conn : tree_conn) (share user : option Z) (resp : tree_connect_response)
    : prog wstate (Z * tree_connect_response) :=
  on_shares (tcm_tree_conn_free conn ;; shm_close_connection share ;; put_ksmbd_share share) ;;
  w_users (put_ksmbd_user user) ;;
  ret (- EINVAL, resp).

(** The label [bind]. *)
Definition bind_conn (req : tree_connect_request) (share user flags : Z)
    : prog wstate (Z * tree_connect_response) :=
  let conn := mk_conn (rq_connect_id req) (Some share) flags in
  r <- sm_handle_tree_connect 2 (rq_session_id req) user conn ;;
  if negb (r =? 0)
  then out_error conn (Some share) (Some user)
         (mk_tresp KSMBD_TREE_CONN_STATUS_ERROR (u16 flags))
  else
    on_shares (x <- sload share ;; sstore share (clear_share_flag KSMBD_SHARE_FLAG_UPDATE x)) ;;
    ret (0, mk_tresp KSMBD_TREE_CONN_STATUS_OK (u16 flags)).

(** What the hosts lists say; the allow list decides alone when it exists. *)
Definition host_denied (x : share) (peer_addr : bytes) : bool :=
  let r := shm_lookup_hosts_map x KSMBD_SHARE_HOSTS_ALLOW_MAP peer_addr in
  if r =? - ENOENT then true
  else if negb (r =? 0)
  then shm_lookup_hosts_map x KSMBD_SHARE_HOSTS_DENY_MAP peer_addr =? 0
  else false.
(** The two guest tests. *)
Definition guest_denied (x : share) (account_flags : Z) : bool :=
  let guest := test_flag account_flags KSMBD_USER_FLAG_GUEST_ACCOUNT in
  ((KSMBD_RESTRICT_ANON_TYPE_1 <=? restrict_anon) &&
   (guest && (negb (test_share_flag x KSMBD_SHARE_FLAG_GUEST_OK) ||
              test_share_flag x KSMBD_SHARE_FLAG_PIPE))) ||
  (guest && negb (test_share_flag x KSMBD_SHARE_FLAG_GUEST_OK)).

(** The flags the share gives a connection. *)
Definition share_conn_flags (x : share) : Z :=
  let f := if test_share_flag x KSMBD_SHARE_FLAG_WRITEABLE
           then set_flag 0 KSMBD_TREE_CONN_FLAG_WRITABLE else 0 in
  let f := if test_share_flag x KSMBD_SHARE_FLAG_READONLY
           then set_flag f KSMBD_TREE_CONN_FLAG_READ_ONLY else f in
  if test_share_flag x KSMBD_SHARE_FLAG_UPDATE
  then set_flag f KSMBD_TREE_CONN_FLAG_UPDATE else f.

(** The users lists, in the order of the tests. *)
Inductive access := Bind (flags : Z) | Deny | Ask (flags : Z).
Definition users_access (x : share) (account : bytes) (flags : Z) : access :=
  let on map := shm_lookup_users_map x map account in
  if on KSMBD_SHARE_ADMIN_USERS_MAP =? 0
  then Bind (set_flag flags KSMBD_TREE_CONN_FLAG_ADMIN_ACCOUNT)
  else if on KSMBD_SHARE_INVALID_USERS_MAP =? 0 then Deny
  else if on KSMBD_SHARE_READ_LIST_MAP =? 0
  then Bind (clear_flag (set_flag flags KSMBD_TREE_CONN_FLAG_READ_ONLY) KSMBD_TREE_CONN_FLAG_WRITABLE)
  else if on KSMBD_SHARE_WRITE_LIST_MAP =? 0
  then Bind (set_flag flags KSMBD_TREE_CONN_FLAG_WRITABLE)
  else
    let r := on KSMBD_SHARE_VALID_USERS_MAP in
    if r =? 0 then Bind flags
    else if r =? - ENOENT then Deny
    else Ask flags.

(** From the lookup of the account on. *)
Definition connect_account (req : tree_connect_request) (sp : Z) (x : share) (flags : Z)
    : prog wstate (Z * tree_connect_response) :=
  let conn := mk_conn 0 None 0 in
  let account := cstr (rq_account req) in
  let error user status := out_error conn (Some sp) user (mk_tresp status 0) in
  user <- w_users (usm_lookup_user (Some account)) ;;
  match user with
  | None => error None KSMBD_TREE_CONN_STATUS_NO_USER
  | Some p =>
      u <- w_users (uload p) ;;
      let u := set_user_flags (clear_flag (u_flags u) KSMBD_USER_FLAG_DELAY_SESSION)
                 (set_failed_login_count 0 u) in
      w_users (ustore p u) ;;
      let flags := if test_user_flag u KSMBD_USER_FLAG_GUEST_ACCOUNT
                   then set_flag flags KSMBD_TREE_CONN_FLAG_GUEST_ACCOUNT else flags in
      match users_access x account flags with
      | Deny => error (Some p) KSMBD_TREE_CONN_STATUS_INVALID_USER
      | Bind flags => bind_conn req sp p flags
      | Ask flags =>
          r <- sm_check_sessions_capacity (rq_session_id req) ;;
          if negb (r =? 0) then error (Some p) KSMBD_TREE_CONN_STATUS_TOO_MANY_SESSIONS
          else bind_conn req sp p flags
      end
  end.

(** A guest goes in as the share's guest account or the global one. *)
Definition connect_guest (req : tree_connect_request) (sp : Z) (x : share) (flags : Z)
    : prog wstate (Z * tree_connect_response) :=
  let guest_flags := set_flag flags KSMBD_TREE_CONN_FLAG_GUEST_ACCOUNT in
  user <- w_users (usm_lookup_user (sh_guest_account x)) ;;
  match user with
  | Some p => bind_conn req sp p guest_flags
  | None =>
      user <- w_users (usm_lookup_user guest_account) ;;
      match user with
      | Some p => bind_conn req sp p guest_flags
      | None => connect_account req sp x flags
      end
  end.

(** From the opened share on. *)
Definition connect_share (req : tree_connect_request) (sp : Z) (x : share)
    : prog wstate (Z * tree_connect_response) :=
  let error status := out_error (mk_conn 0 None 0) (Some sp) None (mk_tresp status 0) in
  let flags := share_conn_flags x in
  r <- on_shares (shm_open_connection sp) ;;
  if negb (r =? 0) then error KSMBD_TREE_CONN_STATUS_TOO_MANY_CONNS
  else if host_denied x (cstr (rq_peer_addr req)) then error KSMBD_TREE_CONN_STATUS_HOST_DENIED
  else if guest_denied x (rq_account_flags req) then error KSMBD_TREE_CONN_STATUS_ERROR
  else if test_flag (rq_account_flags req) KSMBD_USER_FLAG_GUEST_ACCOUNT &&
          test_share_flag x KSMBD_SHARE_FLAG_GUEST_OK
  then connect_guest req sp x flags
  else connect_account req sp x flags.

(** Returned code and response; the caller has set the response's connection
    flags to 0. *)
Definition tcm_handle_tree_connect (req : tree_connect_request) : prog wstate (Z * tree_connect_response) :=
  let error status := out_error (mk_conn 0 None 0) None None (mk_tresp status 0) in
  if negb (g_try_malloc sizeof_ksmbd_tree_conn)
  then ret (- ENOMEM, mk_tresp KSMBD_TREE_CONN_STATUS_NOMEM 0)
  else if negb (terminated (rq_share req) KSMBD_REQ_MAX_SHARE_NAME) ||
          negb (terminated (rq_account req) KSMBD_REQ_MAX_ACCOUNT_NAME_SZ) ||
          negb (terminated (rq_peer_addr req) sizeof_peer_addr)
  then error KSMBD_TREE_CONN_STATUS_ERROR
  else if (map_to_guest =? KSMBD_CONF_MAP_TO_GUEST_NEVER) &&
          test_flag (rq_account_flags req) KSMBD_USER_FLAG_BAD_PASSWORD
  then error KSMBD_TREE_CONN_STATUS_INVALID_USER
  else
    share <- on_shares (shm_lookup_share (cstr (rq_share req))) ;;
    match share with
    | None => error KSMBD_TREE_CONN_STATUS_NO_SHARE
    | Some p => x <- on_shares (sload p) ;; connect_share req p x
    end.

Definition tcm_handle_tree_disconnect (sess_id tree_conn_id : Z) : prog wstate Z :=
  sm_handle_tree_disconnect sess_id tree_conn_id ;; ret 0.
End Sessions.

(** ** References *)
Definition se_users (x : session) : list Z := [se_user x].
Definition se_shares (x : session) : list Z := omap tc_share (se_tree_conns x).

Section SessionCounts.
Context `{GLib, System, Allocator}.
Hypothesis hash_order_perm : ∀ t, hash_order t ≡ₚ map_to_list t.

(** A change to a share that keeps its name, maps, count and state. *)
Lemma shares_ok_store uh sh s p x y :
  shares_ok uh sh s → ss_heap s !! p = Some x →
  sh_name y = sh_name x → sh_maps y = sh_maps x → sh_ref_count y = sh_ref_count x →
  sh_state y = sh_state x → shares_ok uh sh (set_ss_heap (<[p := y]> (ss_heap s)) s).
Proof.
  intros [Hu Hpos Hs] Hx Hn Hm Hr Hst. split; [|done|].
  - eapply counted_ext; [|exact Hu]. intros q. cbn. by rewrite (all_users_update _ p x y).
  - pose proof (co_held Hs p). destruct (co_count Hs _ _ Hx) as [? _].
    eapply counted_ext; [apply (hold_0 p)|].
    eapply counted_update with (o := x); [exact Hs|done|..]; try lia.
    + unfold share_key. by rewrite Hn.
    + unfold share_freeing. by rewrite Hst.
Qed.
Lemma shm_open_connection_wp uh sh s p :
  shares_ok uh sh s → 1 ≤ sh p →
  wp (shm_open_connection p) s (λ _ s', shares_ok uh sh s') (λ _ _, False).
Proof.
  intros Hok Hp. destruct (shares_ok_live _ _ _ _ Hok Hp) as [x Hx].
  unfold shm_open_connection. wp_step. eapply wp_load; [done|].
  destruct (_ && _); [by wp_step|]. wp_step. eapply wp_store; [done|]. wp_step.
  by eapply shares_ok_store.
Qed.
Lemma shm_close_connection_wp uh sh s p :
  shares_ok uh sh s → (∀ q, p = Some q → 1 ≤ sh q) →
  wp (shm_close_connection p) s (λ _ s', shares_ok uh sh s') (λ _ _, False).
Proof.
  intros Hok Hp. destruct p as [p|]; cbn [shm_close_connection]; [|by wp_step].
  destruct (shares_ok_live _ _ _ p Hok) as [x Hx]; [by apply Hp|].
  wp_step. eapply wp_load; [done|]. destruct (0 <? _); [|by wp_step].
  eapply wp_store; [done|]. by eapply shares_ok_store.
Qed.

Lemma put_user_wp uh sh s p :
  shares_ok (λ q, uh q + count q (refs p)) sh s → (∀ q, 0 ≤ uh q) →
  wp (on_users (put_ksmbd_user p)) s
     (λ _ s', shares_ok uh sh s' ∧ ss_heap s' = ss_heap s ∧ ss_table s' = ss_table s) (λ _ _, False).
Proof.
  intros Hok Hpos. apply wp_zoom. destruct Hok as [Hu _ Hs]. destruct p as [p|]; cbn [refs] in Hu.
  2:{ cbn [put_ksmbd_user]. wp_step. split; [|done]. split; [|done|exact Hs].
      eapply counted_ext; [|exact Hu]. counts. }
  set (h := λ q, uh q + count q [p] + count q (all_users (ss_heap s))) in Hu.
  assert (1 ≤ h p).
  { unfold h. rewrite count_cons, decide_True by done. specialize (Hpos p).
    pose proof (count_nonneg p []). pose proof (count_nonneg p (all_users (ss_heap s))). lia. }
  wp_by (by apply (put_ksmbd_user_wp h)); [|done].
  intros _ u' (Hu' & _). split; [|done]. split; [|done|exact Hs].
  eapply counted_ext; [|exact Hu']. unfold h. cbn [set_ss_users ss_heap]. counts.
Qed.

Lemma tcm_tree_conn_free_wp uh sh s conn :
  shares_ok uh (λ q, sh q + count q (refs (tc_share conn))) s → (∀ q, 0 ≤ sh q) →
  wp (tcm_tree_conn_free conn) s (λ _ s', shares_ok uh sh s') (λ _ _, False).
Proof.
  intros Hok Hpos. unfold tcm_tree_conn_free. wp_step.
  wp_by (apply (shm_close_connection_wp _ _ _ _ Hok); intros q ->; cbn [refs];
    rewrite count_cons, decide_True by done; specialize (Hpos q); pose proof (count_nonneg q []); lia); [|done].
  intros _ s' Hok'. by apply put_share_wp.
Qed.
Lemma free_conns_wp uh sh s l :
  shares_ok uh (λ q, sh q + count q (omap tc_share l)) s → (∀ q, 0 ≤ sh q) →
  wp (for_each l tcm_tree_conn_free) s (λ _ s', shares_ok uh sh s') (λ _ _, False).
Proof.
  revert s. induction l as [|c l IH]; intros s Hok Hpos; cbn [for_each].
  { wp_step. eapply shares_ok_ext; [done| |exact Hok]. counts. }
  wp_step. wp_by (apply (tcm_tree_conn_free_wp uh (λ q, sh q + count q (omap tc_share l)));
    [|intros q; pose proof (count_nonneg q (omap tc_share l)); specialize (Hpos q); lia];
    eapply shares_ok_ext; [done| |exact Hok];
    intros q; cbn [omap list_omap]; destruct (tc_share c); cbn [refs]; counts); [|done].
  intros _ s' Hok'. by apply IH.
Qed.

(** *** Sessions *)

(** Replacing a session by one with the same identifier. *)
Definition tabled (h : gmap Z session) (t : gmap Z Z) : Prop :=
  ∀ id p, t !! id = Some p → ∃ x, h !! p = Some x ∧ se_id x = id.
Lemma tabled_update h t p x y :
  tabled h t → h !! p = Some x → se_id y = se_id x → tabled (<[p := y]> h) t.
Proof.
  intros Ht Hx Hid id q Hq. destruct (Ht _ _ Hq) as (z & Hz & Hz'). destruct (decide (q = p)) as [->|].
  - simplify_eq. exists y. by rewrite lookup_insert_eq.
  - exists z. by rewrite lookup_insert_ne.
Qed.
Definition below (h : gmap Z session) (next : Z) : Prop := ∀ p, is_Some (h !! p) → p < next.
Lemma below_update h next p x y : below h next → h !! p = Some x → below (<[p := y]> h) next.
Proof.
  intros Hn Hx q. destruct (decide (q = p)) as [->|]; [intros _; by apply Hn; eexists|].
  rewrite lookup_insert_ne by done. apply Hn.
Qed.

(** [uh] and [sh]: references to users and shares held outside of the
    sessions. *)
Record refs_ok (uh sh : Z → Z) (w : wstate) : Prop := {
  ro_shares : shares_ok (λ q, uh q + count q (heap_refs se_users (ws_heap w)))
                (λ q, sh q + count q (heap_refs se_shares (ws_heap w))) (ws_shares w);
  ro_users_pos : ∀ q, 0 ≤ uh q;
  ro_shares_pos : ∀ q, 0 ≤ sh q;
}.
(** A session is in the table under its identifier, and its count is the
    number of its connections, at least one. *)
Record sessions_ok (uh sh : Z → Z) (w : wstate) : Prop := {
  wo_refs : refs_ok uh sh w;
  wo_table : tabled (ws_heap w) (ws_table w);
  wo_heap : ∀ p x, ws_heap w !! p = Some x → ws_table w !! se_id x = Some p ∧
    (1 ≤ length (se_tree_conns x))%nat ∧ se_ref_counter x = Z.of_nat (length (se_tree_conns x));
  wo_next : below (ws_heap w) (ws_next w);
}.

Lemma sessions_ok_ext uh uh' sh sh' w :
  (∀ q, uh q = uh' q) → (∀ q, sh q = sh' q) → sessions_ok uh sh w → sessions_ok uh' sh' w.
Proof.
  intros Hu Hs [[Hok Hup Hsp] Ht Hh Hn]. split; [split|..]; try done.
  - eapply shares_ok_ext; [| |exact Hok]; intros q; cbv beta; by rewrite ?Hu, ?Hs.
  - intros q. by rewrite <-Hu.
  - intros q. by rewrite <-Hs.
Qed.

Lemma kill_ksmbd_session_wp uh sh w p x :
  refs_ok uh sh w → ws_heap w !! p = Some x →
  wp (kill_ksmbd_session p) w
    (λ _ w', refs_ok uh sh w' ∧ ws_heap w' = delete p (ws_heap w) ∧ ws_table w' = ws_table w ∧
             ws_next w' = ws_next w ∧ ws_cap w' = ws_cap w)
    (λ _ _, False).
Proof.
  intros [Hok Hup Hsp] Hx. unfold kill_ksmbd_session. wp_step. eapply wp_load; [done|].
  set (ru := λ q, uh q + count q (heap_refs se_users (delete p (ws_heap w)))).
  set (rs := λ q, sh q + count q (heap_refs se_shares (delete p (ws_heap w)))).
  assert (∀ q, 0 ≤ ru q) as Hru.
  { intros q. unfold ru. pose proof (count_nonneg q (heap_refs se_users (delete p (ws_heap w)))).
    specialize (Hup q). lia. }
  assert (∀ q, 0 ≤ rs q) as Hrs.
  { intros q. unfold rs. pose proof (count_nonneg q (heap_refs se_shares (delete p (ws_heap w)))).
    specialize (Hsp q). lia. }
  wp_step. apply wp_zoom.
  wp_by (apply (free_conns_wp (λ q, ru q + count q (refs (Some (se_user x)))) rs); [|done];
    eapply shares_ok_ext; [| |exact Hok]; intros q; unfold ru, rs;
    rewrite (heap_refs_delete _ _ _ _ Hx), count_app; unfold se_users, se_shares; cbn [refs]; lia); [|done].
  intros _ s1 Hok1. wp_step. unfold w_users. apply wp_zoom.
  wp_by (by apply (put_user_wp ru rs)); [|done].
  intros _ s2 (Hok2 & _). eapply wp_release; [exact Hx|]. cbn. by split_and!; [split| | | |].
Qed.

(** The state after a lookup of the session at [p]. *)
Definition looked_up (p : Z) (x : session) (w : wstate) : wstate :=
  set_ws_heap (<[p := set_se_ref_counter (se_ref_counter x + 1) x]> (ws_heap w)) w.

Lemma sm_lookup_session_wp uh sh w id :
  sessions_ok uh sh w →
  wp (sm_lookup_session id) w
    (λ r w', match r with
     | None => w' = w ∧ ws_table w !! id = None
     | Some p => ws_table w !! id = Some p ∧
                 ∃ x, ws_heap w !! p = Some x ∧ se_id x = id ∧ w' = looked_up p x w
     end) (λ _ _, False).
Proof.
  intros [_ Ht Hh _]. unfold sm_lookup_session, __sm_lookup_session. do 2 wp_step.
  destruct (ws_table w !! id) as [p|] eqn:E; [|by wp_step].
  destruct (Ht _ _ E) as (x & Hx & Hid). destruct (Hh _ _ Hx) as (_ & Hlen & Href).
  unfold __get_session. wp_step. eapply wp_load; [done|].
  rewrite (proj2 (Z.eqb_neq _ _)) by lia. cbn [negb]. wp_step. eapply wp_store; [done|]. wp_step.
  split; [done|]. by exists x.
Qed.
(** Giving it back at once leaves everything as it was. *)
Lemma put_looked_up uh sh w p x :
  sessions_ok uh sh w → ws_heap w !! p = Some x → __put_session p (looked_up p x w) = Done tt w.
Proof.
  intros [_ _ Hh _] Hx. destruct (Hh _ _ Hx) as (_ & Hlen & Href).
  unfold __put_session, bind, load, store, looked_up. cbn [ws_heap set_ws_heap].
  rewrite lookup_insert_eq. cbn [ws_heap set_ws_heap]. rewrite lookup_insert_eq, insert_insert_eq.
  cbn [se_ref_counter set_se_ref_counter]. rewrite (proj2 (Z.eqb_neq _ _)) by lia. unfold ret. f_equal.
  destruct w as [s h t n c]; cbn in *. unfold set_ws_heap; cbn. f_equal. apply insert_id. rewrite Hx.
  f_equal. destruct x; unfold set_se_ref_counter; cbn. f_equal. lia.
Qed.
Lemma sm_check_sessions_capacity_wp uh sh w id :
  sessions_ok uh sh w →
  wp (sm_check_sessions_capacity id) w
    (λ r w', sessions_ok uh sh w' ∧
       match ws_table w !! id with
       | Some _ => r = 0 ∧ w' = w
       | None => (r = 0 ∧ 1 ≤ ws_cap w ∧ w' = set_ws_cap (ws_cap w - 1) w) ∨
                 (r = - EINVAL ∧ ws_cap w < 1 ∧ w' = w)
       end) (λ _ _, False).
Proof.
  intros Hok. unfold sm_check_sessions_capacity. wp_step. wp_by (by apply (sm_lookup_session_wp uh sh)); [|done].
  intros [p|] w' Hr.
  - destruct Hr as (E & x & Hx & _ & ->). rewrite E. wp_step.
    eapply wp_run; [by eapply put_looked_up|]. by wp_step.
  - destruct Hr as [-> E]. rewrite E. do 2 wp_step.
    destruct (Z.ltb_spec (ws_cap w) 1) as [Hc|Hc]; wp_step.
    { split; [done|]. by right. }
    wp_step. wp_step. split; [|left; by split_and!]. destruct Hok as [[]]. by split.
Qed.

(** A connection is added to a session whose count was raised for it. *)
Lemma add_conn_ok uh sh w p x conn q :
  sessions_ok uh (hold q 1 sh) w → (∀ q, 0 ≤ sh q) → ws_heap w !! p = Some x → tc_share conn = Some q →
  let y := mk_session (se_id x) (se_user x) (se_tree_conns x ++ [conn]) (se_ref_counter x + 1) in
  sessions_ok uh sh (set_ws_heap (<[p := y]> (ws_heap w)) w).
Proof.
  intros [[Hok Hup _] Ht Hh Hn] Hsp Hx Hq y. destruct (Hh _ _ Hx) as (E & Hlen & Href). split.
  - split; [|done|done]. cbn. eapply shares_ok_ext; [| |exact Hok]; intros r; cbv beta.
    + by rewrite (heap_refs_same _ _ p x y).
    + rewrite (heap_refs_update _ _ p x y) by done. unfold y, se_shares. cbn [se_tree_conns].
      rewrite omap_app. cbn [omap list_omap]. rewrite Hq. counts.
  - by eapply tabled_update.
  - cbn. intros r z. destruct (decide (r = p)) as [->|].
    + rewrite lookup_insert_eq. intros [= <-]. cbn. rewrite length_app. cbn. split_and!; [done|lia|lia].
    + rewrite lookup_insert_ne by done. apply Hh.
  - by eapply below_update.
Qed.
(** A new session with its first connection. *)
Lemma new_session_ok uh sh w id u conn q :
  sessions_ok (hold u 1 uh) (hold q 1 sh) w → (∀ q, 0 ≤ uh q) → (∀ q, 0 ≤ sh q) →
  ws_table w !! id = None → tc_share conn = Some q →
  sessions_ok uh sh (mk_wstate (ws_shares w) (<[ws_next w := mk_session id u [conn] 1]> (ws_heap w))
    (<[id := ws_next w]> (ws_table w)) (ws_next w + 1) (ws_cap w)).
Proof.
  intros [[Hok _ _] Ht Hh Hn] Hup Hsp Hid Hq.
  assert (ws_heap w !! ws_next w = None) as Hfresh.
  { destruct (ws_heap w !! ws_next w) eqn:E; [|done]. specialize (Hn (ws_next w) ltac:(by eexists)). lia. }
  split; cbn.
  - split; [|done|done]. cbn. eapply shares_ok_ext; [| |exact Hok]; intros r; cbv beta.
    + rewrite heap_refs_insert by done. unfold se_users at 2. cbn [se_user]. counts.
    + rewrite heap_refs_insert by done. unfold se_shares at 2. cbn [se_tree_conns omap list_omap].
      rewrite Hq. counts.
  - intros i p. destruct (decide (i = id)) as [->|].
    + rewrite lookup_insert_eq. intros [= <-]. eexists. rewrite lookup_insert_eq. by split.
    + rewrite lookup_insert_ne by done. intros Hp. destruct (Ht _ _ Hp) as (x & Hx & Hi). exists x.
      rewrite lookup_insert_ne by congruence. done.
  - intros p x. destruct (decide (p = ws_next w)) as [->|].
    + rewrite lookup_insert_eq. intros [= <-]. cbn. by rewrite lookup_insert_eq.
    + rewrite lookup_insert_ne by done. intros Hx. destruct (Hh _ _ Hx) as (E & ? & ?).
      split; [|done]. rewrite lookup_insert_ne; [done|]. congruence.
  - intros p. destruct (decide (p = ws_next w)) as [->|]; [lia|].
    rewrite lookup_insert_ne by done. intros Hp. specialize (Hn p Hp). lia.
Qed.
(** The references to a user that a connect to the session [id] loses: the one
    that it has looked up, when the session is there already. *)
Definition connect_lost (id user : Z) (w : wstate) : list Z :=
  match ws_table w !! id with Some _ => [user] | None => [] end.

(** Memory for a session is there. *)
Hypothesis session_memory : g_try_malloc sizeof_ksmbd_session = true.

(** One turn is enough when nobody interferes. *)
Lemma sm_handle_tree_connect_wp n uh sh w id u conn q :
  sessions_ok (hold u 1 uh) (hold q 1 sh) w → (∀ q, 0 ≤ uh q) → (∀ q, 0 ≤ sh q) →
  tc_share conn = Some q →
  wp (sm_handle_tree_connect (S n) id u conn) w
    (λ r w', r = 0 ∧ sessions_ok (λ r, uh r + count r (connect_lost id u w)) sh w' ∧
      ws_shares w' = ws_shares w ∧ ws_cap w' = ws_cap w) (λ _ _, False).
Proof.
  intros Hok Hup Hsp Hq. unfold connect_lost. cbn [sm_handle_tree_connect]. unfold connect_turn. wp_step. wp_step.
  wp_by (by apply (sm_lookup_session_wp _ _ _ _ Hok)); [|done].
  intros [p|] w' Hr.
  - destruct Hr as (E & x & Hx & _ & ->). wp_step. unfold add_tree_conn. wp_step.
    eapply wp_load; [apply lookup_insert_eq|]. wp_step. eapply wp_store; [apply lookup_insert_eq|].
    wp_step. unfold looked_up. cbn [ws_heap set_ws_heap]. rewrite insert_insert_eq.
    split_and!; [done| |done|done]. rewrite E.
    eapply (sessions_ok_ext (hold u 1 uh) _ sh); [counts|done|by apply (add_conn_ok _ sh w p x conn q)].
  - destruct Hr as [-> E]. unfold new_ksmbd_session. rewrite session_memory. cbn [negb]. do 5 wp_step. wp_step.
    unfold sm_insert_session, __sm_lookup_session. do 3 wp_step. cbn [ws_table]. rewrite E. do 5 wp_step.
    eapply wp_load; [apply lookup_insert_eq|]. do 4 wp_step. cbn [ws_table se_id]. rewrite E. do 2 wp_step.
    unfold add_tree_conn. wp_step. eapply wp_load; [apply lookup_insert_eq|]. wp_step.
    eapply wp_store; [apply lookup_insert_eq|]. wp_step. split_and!; [done| |done|done].
    unfold set_ws_heap, set_ws_table. cbn. rewrite insert_insert_eq.
    eapply (sessions_ok_ext uh _ sh); [counts|done|by apply (new_session_ok uh sh w id u conn q)].
Qed.

Lemma take_tree_conn_perm i l c l' : take_tree_conn i l = Some (c, l') → l ≡ₚ c :: l' ∧ tc_id c = i.
Proof.
  revert l'. induction l as [|d l IH]; intros l'; cbn; [done|].
  destruct (Z.eqb_spec (tc_id d) i) as [Hd|Hd]; [by intros [= <- <-]|].
  destruct (take_tree_conn i l) as [[e k]|]; [|done]. intros [= <- <-].
  destruct (IH k eq_refl) as [Hp Hi]. split; [|done]. rewrite Hp. apply Permutation_swap.
Qed.

(** While a session is looked up it is counted once more, and it may have lost
    its last connection. *)
Record lent (uh sh : Z → Z) (p : Z) (x : session) (w : wstate) : Prop := {
  le_refs : refs_ok uh sh w;
  le_at : ws_heap w !! p = Some x;
  le_count : se_ref_counter x = Z.of_nat (length (se_tree_conns x)) + 1;
  le_table : tabled (ws_heap w) (ws_table w);
  le_heap : ∀ q y, ws_heap w !! q = Some y → ws_table w !! se_id y = Some q ∧ (q ≠ p →
    (1 ≤ length (se_tree_conns y))%nat ∧ se_ref_counter y = Z.of_nat (length (se_tree_conns y)));
  le_next : below (ws_heap w) (ws_next w);
}.
Lemma looked_up_lent uh sh w p x :
  sessions_ok uh sh w → ws_heap w !! p = Some x →
  lent uh sh p (set_se_ref_counter (se_ref_counter x + 1) x) (looked_up p x w).
Proof.
  intros [[Hok Hup Hsp] Ht Hh Hn] Hx. set (y := set_se_ref_counter _ x).
  destruct (Hh _ _ Hx) as (Htx & _ & Href). split; unfold looked_up; cbn; fold y.
  - split; [|done|done]. cbn. eapply shares_ok_ext; [| |exact Hok]; intros q;
      by rewrite (heap_refs_same _ _ p x y).
  - apply lookup_insert_eq.
  - lia.
  - by eapply tabled_update.
  - intros q z. destruct (decide (q = p)) as [->|].
    + rewrite lookup_insert_eq. by intros [= <-].
    + rewrite lookup_insert_ne by done. intros Hq. by destruct (Hh _ _ Hq).
  - by eapply below_update.
Qed.
(** A connection [c] leaves the session: its share is now held outside. *)
Lemma lent_drop_conn uh sh w p x c l :
  lent uh sh p x w → se_tree_conns x ≡ₚ c :: l →
  let y := mk_session (se_id x) (se_user x) l (se_ref_counter x - 1) in
  lent uh (λ q, sh q + count q (refs (tc_share c))) p y (set_ws_heap (<[p := y]> (ws_heap w)) w).
Proof.
  intros [[Hok Hup Hsp] Hx Href Ht Hh Hn] Hperm y. pose proof (Permutation_length Hperm) as Hlen.
  cbn in Hlen. destruct (Hh _ _ Hx) as (Htx & _). split; cbn.
  - split; [|done|].
    + cbn. eapply shares_ok_ext; [| |exact Hok]; intros q; cbv beta.
      * by rewrite (heap_refs_same _ _ p x y).
      * rewrite (heap_refs_update _ _ p x y) by done. unfold y, se_shares. cbn [se_tree_conns].
        rewrite Hperm. cbn [omap list_omap]. destruct (tc_share c); cbn [refs]; counts.
    + intros q. specialize (Hsp q). pose proof (count_nonneg q (refs (tc_share c))). lia.
  - apply lookup_insert_eq.
  - lia.
  - by eapply tabled_update.
  - intros q z. destruct (decide (q = p)) as [->|].
    + rewrite lookup_insert_eq. by intros [= <-].
    + rewrite lookup_insert_ne by done. intros Hq. by destruct (Hh _ _ Hq).
  - by eapply below_update.
Qed.
(** Freeing it gives the share back. *)
Lemma lent_free_conn_wp uh sh w p x c :
  lent uh (λ q, sh q + count q (refs (tc_share c))) p x w → (∀ q, 0 ≤ sh q) →
  wp (on_shares (tcm_tree_conn_free c)) w (λ _ w', lent uh sh p x w') (λ _ _, False).
Proof.
  intros [[Hok Hup _] Hx Href Ht Hh Hn] Hsp. apply wp_zoom.
  wp_by (apply (tcm_tree_conn_free_wp (λ q, uh q + count q (heap_refs se_users (ws_heap w)))
      (λ q, sh q + count q (heap_refs se_shares (ws_heap w)))); [|intros q;
        pose proof (count_nonneg q (heap_refs se_shares (ws_heap w))); specialize (Hsp q); lia];
      eapply shares_ok_ext; [| |exact Hok]; intros q; cbv beta; lia); [|done].
  intros _ s' Hs'. by split; [split|..].
Qed.
(** The session is put back: it stays with one reference less, or goes with
    its last connection. *)
Lemma lent_put_wp uh sh w p x :
  lent uh sh p x w →
  wp (__put_session p) w
    (λ _ w', sessions_ok uh sh w' ∧ ws_cap w' = ws_cap w ∧
             (se_tree_conns x = [] ↔ ws_table w' !! se_id x = None)) (λ _ _, False).
Proof.
  intros [Hok Hx Href Ht Hh Hn]. pose proof (Hh _ _ Hx) as [Htx _].
  unfold __put_session. wp_step. eapply wp_load; [done|]. wp_step. eapply wp_store; [done|].
  set (y := set_se_ref_counter _ x).
  assert (refs_ok uh sh (set_ws_heap (<[p:=y]> (ws_heap w)) w)) as Hok'.
  { destruct Hok as [Hok ? ?]. split; [|done|done]. cbn.
    eapply shares_ok_ext; [| |exact Hok]; intros q; by rewrite (heap_refs_same _ _ p x y). }
  destruct (Z.eqb_spec (se_ref_counter x - 1) 0) as [Hz|Hz].
  - assert (se_tree_conns x = []) as Hnil by (apply length_zero_iff_nil; lia).
    wp_step. unfold __sm_remove_session. wp_step. eapply wp_load; [apply lookup_insert_eq|]. do 2 wp_step.
    change (se_id y) with (se_id x). cbn [ws_table set_ws_heap]. rewrite Htx. do 2 wp_step.
    wp_by (apply (kill_ksmbd_session_wp uh sh _ p y); [by destruct Hok'; split|apply lookup_insert_eq]); [|done].
    intros _ w' (Hok2 & Hh' & Ht' & Hn' & Hc'). cbn in Hh', Ht', Hn', Hc'. rewrite delete_insert_eq in Hh'.
    split_and!; [split; [done|..]|done|]; rewrite ?Hh', ?Ht', ?Hn'.
    + intros id q [Hne Hq]%lookup_delete_Some. destruct (Ht _ _ Hq) as (z & Hz' & Hid). exists z.
      rewrite lookup_delete_ne; [done|]. intros ->. simplify_eq.
    + intros q z [Hne Hq]%lookup_delete_Some. destruct (Hh _ _ Hq) as [Htz Hrest]. split; [|auto].
      rewrite lookup_delete_ne; [done|]. congruence.
    + intros q [z [_ Hq]%lookup_delete_Some]. apply Hn. by eexists.
    + by rewrite lookup_delete_eq.
  - wp_step. split_and!; [split; [done|..]|done|]; cbn.
    + by eapply tabled_update.
    + intros q z. destruct (decide (q = p)) as [->|].
      * rewrite lookup_insert_eq. intros [= <-]. cbn. split; [done|]. lia.
      * rewrite lookup_insert_ne by done. intros Hq. destruct (Hh _ _ Hq). auto.
    + by eapply below_update.
    + rewrite Htx. split; [intros E; rewrite E in Href; cbn in Href; lia|done].
Qed.

Lemma sm_handle_tree_disconnect_wp uh sh w id i :
  sessions_ok uh sh w →
  wp (sm_handle_tree_disconnect id i) w (λ r w', r = 0 ∧ sessions_ok uh sh w') (λ _ _, False).
Proof.
  intros Hok. pose proof (ro_shares_pos _ _ _ (wo_refs _ _ _ Hok)) as Hsp.
  unfold sm_handle_tree_disconnect. wp_step. wp_by (by apply (sm_lookup_session_wp _ _ _ _ Hok)); [|done].
  intros [p|] w' Hr; [|destruct Hr as [-> _]; by wp_step].
  destruct Hr as (E & x & Hx & Hid & ->). pose proof (looked_up_lent _ _ _ _ _ Hok Hx) as Hl.
  wp_step. eapply wp_load; [apply (le_at _ _ _ _ _ Hl)|]. wp_step.
  destruct (take_tree_conn i _) as [[c l]|] eqn:Hc.
  2:{ wp_step. wp_step. eapply wp_run; [by eapply put_looked_up|]. by wp_step. }
  apply take_tree_conn_perm in Hc as [Hperm _].
  pose proof (lent_drop_conn _ _ _ _ _ _ _ Hl Hperm) as Hd. cbv zeta in Hd.
  wp_step. eapply wp_store; [apply (le_at _ _ _ _ _ Hl)|].
  match type of Hd with lent _ _ _ ?z ?w1 => set (y := z) in Hd; set (w1' := w1) in Hd end.
  change (set_ws_heap _ (looked_up p x w)) with w1'. wp_step.
  assert (∀ w2, lent uh (λ q, sh q + count q (refs (tc_share c))) p y w2 →
    wp (on_shares (tcm_tree_conn_free c)) w2
      (λ _ w', wp (__put_session p ;; ret 0) w' (λ r w', r = 0 ∧ sessions_ok uh sh w') (λ _ _, False))
      (λ _ _, False)) as Hgo.
  { intros w2 H2. wp_by (by apply (lent_free_conn_wp _ _ _ _ _ _ H2)); [|done].
    intros _ w3 H3. wp_step. wp_by (by apply (lent_put_wp _ _ _ _ _ H3)); [|done].
    intros _ w4 [H4 _]. by wp_step. }
  destruct l; wp_step; apply Hgo; [|done].
  destruct Hd as [[] ? ? ? ? ?]. by split; [split|..].
Qed.

(** *** Requests on the shares and users below the sessions *)

Definition same_sessions (w w' : wstate) : Prop := ws_table w' = ws_table w ∧ ws_cap w' = ws_cap w.
#[local] Instance same_sessions_trans : Transitive same_sessions.
Proof. intros w1 w2 w3 [] []. split; congruence. Qed.
(** A program on the shares that works whatever else is held works under the
    sessions, which it leaves as they are. *)
Lemma on_shares_wp {T} uh sh w (m : prog sstate T) (uh' sh' : T → Z → Z) (Q : T → sstate → Prop) :
  sessions_ok uh sh w →
  (∀ cu cs, (∀ q, 0 ≤ cu q) → (∀ q, 0 ≤ cs q) →
     shares_ok (λ q, uh q + cu q) (λ q, sh q + cs q) (ws_shares w) →
     wp m (ws_shares w) (λ r s', Q r s' ∧ (∀ q, 0 ≤ uh' r q) ∧ (∀ q, 0 ≤ sh' r q) ∧
       shares_ok (λ q, uh' r q + cu q) (λ q, sh' r q + cs q) s') (λ _ _, False)) →
  wp (on_shares m) w (λ r w', (Q r (ws_shares w') ∧ same_sessions w w') ∧ sessions_ok (uh' r) (sh' r) w') (λ _ _, False).
Proof.
  intros [[Hok Hup Hsp] Ht Hh Hn] Hm. apply wp_zoom. wp_by (apply (Hm _ _) in Hok; [exact Hok|..];
    intros q; apply count_nonneg); [|done].
  intros r s' (HQ & Hu' & Hs' & Hok'). split; [done|]. by split; [split|..].
Qed.

Lemma w_put_user_wp uh sh w user :
  sessions_ok (λ q, uh q + count q (refs user)) sh w → (∀ q, 0 ≤ uh q) → (∀ q, 0 ≤ sh q) →
  wp (w_users (put_ksmbd_user user)) w (λ _ w', sessions_ok uh sh w') (λ _ _, False).
Proof.
  intros Hok Hup Hsp. unfold w_users.
  wp_by (apply (on_shares_wp _ _ _ _ (λ _, uh) (λ _, sh) (λ _ _, True) Hok); intros cu cs Hcu Hcs Hs;
    (wp_by (apply (put_user_wp (λ q, uh q + cu q) (λ q, sh q + cs q));
      [eapply shares_ok_ext; [| |exact Hs]; intros q; cbv beta; lia
      |intros q; specialize (Hup q); specialize (Hcu q); lia])); [|done];
    intros _ s' (Hs' & _); done); [|done].
  by intros _ w' [_ ?].
Qed.
Lemma w_lookup_user_wp uh sh w name :
  sessions_ok uh sh w →
  wp (w_users (usm_lookup_user name)) w
    (λ r w', sessions_ok (λ q, uh q + count q (refs r)) sh w' ∧ same_sessions w w') (λ _ _, False).
Proof.
  intros Hok. pose proof (ro_users_pos _ _ _ (wo_refs _ _ _ Hok)) as Hup.
  pose proof (ro_shares_pos _ _ _ (wo_refs _ _ _ Hok)) as Hsp. unfold w_users.
  wp_by (apply (on_shares_wp _ _ _ _ (λ r q, uh q + count q (refs r)) (λ _, sh) (λ _ _, True) Hok);
    intros cu cs Hcu Hcs [Hu _ Hs]; apply wp_zoom; (wp_by (by apply (usm_lookup_user_wp _ _ _ Hu))); [|done];
    intros r u' Hr; split_and!; [done|intros q; specialize (Hup q); pose proof (count_nonneg q (refs r)); lia|done|];
    split; [|intros q; specialize (Hup q); specialize (Hcu q); pose proof (count_nonneg q (refs r)); lia|exact Hs];
    cbn [set_ss_users ss_users ss_heap]; destruct r as [p|]; cbn [refs];
    [destruct Hr as (_ & v & _ & _ & Hu'); eapply counted_ext; [|exact Hu']; counts
    |destruct Hr as [-> _]; eapply counted_ext; [|exact Hu]; counts]); [|done].
  by intros r w' [[_ ?] ?].
Qed.
(** A user that is held is there, and a change that keeps its name, count and
    state keeps the references. *)
Lemma w_user_live uh sh w p :
  sessions_ok uh sh w → 1 ≤ uh p → ∃ u, us_heap (ss_users (ws_shares w)) !! p = Some u.
Proof.
  intros [[[Hu _ _] _ _] _ _ _] Hp. destruct (co_held Hu p) as [_ [u Hx]]; [|by exists u]. cbv beta.
  pose proof (count_nonneg p (heap_refs se_users (ws_heap w))).
  pose proof (count_nonneg p (all_users (ss_heap (ws_shares w)))). lia.
Qed.
Lemma w_user_load_wp w p u (Q : user → wstate → Prop) E :
  us_heap (ss_users (ws_shares w)) !! p = Some u → Q u w → wp (w_users (uload p)) w Q E.
Proof.
  intros Hu HQ. unfold w_users. do 2 apply wp_zoom. eapply wp_load; [done|].
  destruct w as [[] ? ? ? ?]. exact HQ.
Qed.
Lemma w_user_store_wp uh sh w p u v :
  sessions_ok uh sh w → us_heap (ss_users (ws_shares w)) !! p = Some u →
  u_name v = u_name u → u_ref_count v = u_ref_count u → u_state v = u_state u →
  wp (w_users (ustore p v)) w (λ _ w', sessions_ok uh sh w' ∧ same_sessions w w') (λ _ _, False).
Proof.
  intros [[[Hu Hp Hs] Hup Hsp] Ht Hh Hn] Hx Hnm Hr Hst. unfold w_users. do 2 apply wp_zoom.
  eapply wp_store; [done|]. split; [|done]. split; [split; [split|..]|..]; try done. cbn.
  destruct (co_count Hu _ _ Hx) as [? _]. pose proof (co_held Hu p).
  eapply counted_ext; [apply (hold_0 p)|]. eapply counted_update with (o := u); [exact Hu|done|done|..]; try lia.
  unfold user_freeing. by rewrite Hst.
Qed.

(** *** The tree connect handler *)
Lemma error_shares_wp uh sh s conn share :
  shares_ok uh (λ q, sh q + count q (refs share)) s → (∀ q, 0 ≤ sh q) → tc_share conn = None →
  wp (tcm_tree_conn_free conn ;; shm_close_connection share ;; put_ksmbd_share share) s
    (λ _ s', shares_ok uh sh s') (λ _ _, False).
Proof.
  intros Hok Hsp Hc. wp_step. wp_by (apply (tcm_tree_conn_free_wp uh (λ q, sh q + count q (refs share)));
    [eapply shares_ok_ext; [done| |exact Hok]; intros q; rewrite Hc; counts
    |intros q; specialize (Hsp q); pose proof (count_nonneg q (refs share)); lia]); [|done].
  intros _ s1 Hs1. wp_step.
  wp_by (apply (shm_close_connection_wp _ _ _ _ Hs1); intros q ->; cbn [refs];
    rewrite count_cons, decide_True by done; specialize (Hsp q); pose proof (count_nonneg q []); lia); [|done].
  intros _ s2 Hs2. by apply put_share_wp.
Qed.
Lemma out_error_wp uh sh w conn share user resp :
  sessions_ok (λ q, uh q + count q (refs user)) (λ q, sh q + count q (refs share)) w →
  (∀ q, 0 ≤ uh q) → (∀ q, 0 ≤ sh q) → tc_share conn = None →
  wp (out_error conn share user resp) w
    (λ r w', sessions_ok uh sh w' ∧ r = (- EINVAL, resp)) (λ _ _, False).
Proof.
  intros Hok Hup Hsp Hc. unfold out_error. wp_step.
  wp_by (apply (on_shares_wp _ _ _ _ (λ _ q, uh q + count q (refs user)) (λ _, sh) (λ _ _, True) Hok);
    intros cu cs Hcu Hcs Hs; (wp_by (apply (error_shares_wp (λ q, uh q + count q (refs user) + cu q) (λ q, sh q + cs q));
      [eapply shares_ok_ext; [| |exact Hs]; intros q; cbv beta; lia
      |intros q; specialize (Hsp q); specialize (Hcs q); lia|done])); [|done];
    intros _ s2 Hs2; split_and!; [done| |done|done];
    intros q; specialize (Hup q); pose proof (count_nonneg q (refs user)); lia); [|done].
  intros _ w1 [_ Hok1]. wp_step. wp_by (by apply (w_put_user_wp uh sh)); [|done].
  intros _ w2 Hok2. by wp_step.
Qed.

(** What a connect leaves: everything is counted, but for the reference to the
    user that is lost when the connect succeeds in a session that was there. *)
Definition connected (uh sh : Z → Z) (w : wstate) (id : Z) (r : Z * tree_connect_response) (w' : wstate) : Prop :=
  ∃ lost, sessions_ok (λ q, uh q + count q lost) sh w' ∧
    (lost = [] ∨ r.1 = 0 ∧ is_Some (ws_table w !! id) ∧ ∃ u, lost = [u]).
Lemma connected_exact uh sh w id r w' : sessions_ok uh sh w' → connected uh sh w id r w'.
Proof.
  intros Hok. exists []. split; [|by left]. eapply sessions_ok_ext; [|done|exact Hok]. counts.
Qed.
Lemma connected_table uh sh w w1 id r w' :
  same_sessions w w1 → connected uh sh w1 id r w' → connected uh sh w id r w'.
Proof. intros [E _]. unfold connected. by rewrite E. Qed.

Lemma bind_conn_wp uh sh w req share user flags :
  sessions_ok (λ q, uh q + count q [user]) (λ q, sh q + count q [share]) w →
  (∀ q, 0 ≤ uh q) → (∀ q, 0 ≤ sh q) →
  wp (bind_conn req share user flags) w
    (λ r w', connected uh sh w (rq_session_id req) r w' ∧ r = (0, mk_tresp KSMBD_TREE_CONN_STATUS_OK (u16 flags)) ∧
       ws_cap w' = ws_cap w)
    (λ _ _, False).
Proof.
  intros Hok Hup Hsp. unfold bind_conn. wp_step.
  assert (sessions_ok (hold user 1 uh) (hold share 1 sh) w) as Hok1.
  { destruct Hok as [[Hok ? ?] ? ? ?]. split; [split|..]; try done.
    - eapply shares_ok_ext; [| |exact Hok]; counts.
    - intros q. unfold hold. specialize (Hup q). destruct (decide (q = user)); lia.
    - intros q. unfold hold. specialize (Hsp q). destruct (decide (q = share)); lia. }
  destruct (shares_ok_live _ _ _ share (ro_shares _ _ _ (wo_refs _ _ _ Hok))) as [x Hx].
  { rewrite count_cons, decide_True by done. specialize (Hsp share). pose proof (count_nonneg share []).
    pose proof (count_nonneg share (heap_refs se_shares (ws_heap w))). lia. }
  wp_by (by apply (sm_handle_tree_connect_wp 1 uh sh w _ user _ share)); [|done].
  intros r w' (-> & Hok' & Hsame & Hcap). cbn [Z.eqb negb]. wp_step.
  rewrite <-Hsame in Hx. pose proof (ro_users_pos _ _ _ (wo_refs _ _ _ Hok')) as Hup'.
  wp_by (apply (on_shares_wp _ _ _ _ (λ _ r, uh r + count r (connect_lost (rq_session_id req) user w)) (λ _, sh) (λ _ _, True) Hok');
    intros cu cs Hcu Hcs Hs; wp_step; (eapply wp_load; [exact Hx|]); (eapply wp_store; [exact Hx|]);
    split_and!; [done..|]; by eapply shares_ok_store); [|done].
  intros _ w2 [[_ [_ Hcap2]] Hok2]. wp_step. split; [|split; [done|congruence]]. eexists. split; [exact Hok2|]. unfold connect_lost.
  destruct (ws_table w !! rq_session_id req); [right|by left]. split_and!; [done|by eexists|by eexists].
Qed.

Variable map_to_guest : Z.
Variable guest_account : option bytes.
Variable restrict_anon : Z.

(** The account is on the list of the share. *)
Definition listed (x : share) (map : nat) (account : bytes) : Prop :=
  shm_lookup_users_map x map account = 0.
Definition has_list (x : share) (map : nat) : Prop := nth map (sh_maps x) None ≠ None.

(** What the users lists allow with which flags. *)
Definition lists_allow (x : share) (account : bytes) (flags : Z) : Prop :=
  listed x KSMBD_SHARE_ADMIN_USERS_MAP account ∧
    test_flag flags KSMBD_TREE_CONN_FLAG_ADMIN_ACCOUNT = true ∨
  ¬ listed x KSMBD_SHARE_INVALID_USERS_MAP account ∧
    (listed x KSMBD_SHARE_READ_LIST_MAP account →
       test_flag flags KSMBD_TREE_CONN_FLAG_READ_ONLY = true ∧
       test_flag flags KSMBD_TREE_CONN_FLAG_WRITABLE = false) ∧
    (has_list x KSMBD_SHARE_VALID_USERS_MAP →
       listed x KSMBD_SHARE_VALID_USERS_MAP account ∨ listed x KSMBD_SHARE_READ_LIST_MAP account ∨
       listed x KSMBD_SHARE_WRITE_LIST_MAP account) ∧
    (¬ listed x KSMBD_SHARE_READ_LIST_MAP account → ¬ listed x KSMBD_SHARE_WRITE_LIST_MAP account →
       test_flag flags KSMBD_TREE_CONN_FLAG_WRITABLE = test_share_flag x KSMBD_SHARE_FLAG_WRITEABLE).
(** What the hosts lists allow: with a list of allowed hosts, the hosts on it;
    else all but those on the list of denied hosts. *)
Definition on_hosts (patterns : gset bytes) (addr : bytes) : Prop :=
  ∃ pattern, pattern ∈ patterns ∧ match_host_cidr pattern addr = true.
Definition hosts_allow (x : share) (addr : bytes) : Prop :=
  match sh_hosts_allow x, sh_hosts_deny x with
  | Some allow, _ => on_hosts allow addr
  | None, Some deny => ¬ on_hosts deny addr
  | None, None => True
  end.
(** What the guest rules allow: a guest comes to a guest share only, and to no
    pipe when anonymous access is restricted. *)
Definition guests_allow (x : share) (account_flags : Z) : Prop :=
  test_flag account_flags KSMBD_USER_FLAG_GUEST_ACCOUNT = true →
  test_share_flag x KSMBD_SHARE_FLAG_GUEST_OK = true ∧ (1 ≤ restrict_anon → test_share_flag x KSMBD_SHARE_FLAG_PIPE = false).
Lemma lookup_on_hosts patterns addr :
  reflect (on_hosts patterns addr) (existsb (λ pattern, match_host_cidr pattern addr) (elements patterns)).
Proof.
  apply iff_reflect. rewrite existsb_exists. unfold on_hosts. split.
  - intros (q & Hq & Hm). exists q. split; [|done]. by apply list_elem_of_In, elem_of_elements.
  - intros (q & Hq & Hm). exists q. split; [|done]. by apply elem_of_elements, list_elem_of_In.
Qed.
Lemma host_denied_spec x addr : host_denied x addr = false ↔ hosts_allow x addr.
Proof.
  unfold host_denied, hosts_allow, shm_lookup_hosts_map.
  destruct (sh_hosts_allow x) as [allow|].
  { destruct (lookup_on_hosts allow addr); cbn; naive_solver. }
  cbn. destruct (sh_hosts_deny x) as [deny|]; [|by split].
  destruct (lookup_on_hosts deny addr); cbn; naive_solver.
Qed.
Lemma guest_denied_spec x account_flags : guest_denied restrict_anon x account_flags = false ↔ guests_allow x account_flags.
Proof.
  unfold guest_denied, guests_allow. change KSMBD_RESTRICT_ANON_TYPE_1 with 1.
  destruct (Z.leb_spec 1 restrict_anon), (test_flag account_flags _), (test_share_flag x KSMBD_SHARE_FLAG_GUEST_OK),
    (test_share_flag x KSMBD_SHARE_FLAG_PIPE); cbn; split; try done; naive_solver lia.
Qed.
(** A connection that the share [x] permits for the request. *)
Definition permitted (x : share) (req : tree_connect_request) (flags : Z) : Prop :=
  hosts_allow x (cstr (rq_peer_addr req)) ∧
  guests_allow x (rq_account_flags req) ∧
  (test_flag (rq_account_flags req) KSMBD_USER_FLAG_GUEST_ACCOUNT = true ∧
     test_share_flag x KSMBD_SHARE_FLAG_GUEST_OK = true ∧
     test_flag flags KSMBD_TREE_CONN_FLAG_GUEST_ACCOUNT = true ∨
   lists_allow x (cstr (rq_account req)) flags).

Lemma test_u16 f n : 0 ≤ n < 16 → test_flag (u16 f) (BIT n) = test_flag f (BIT n).
Proof.
  intros Hn. rewrite !test_flag_BIT by lia. unfold u16, wrap. by rewrite Z.mod_pow2_bits_low by lia.
Qed.
Lemma test_set_flag f n m : 0 ≤ n → 0 ≤ m → test_flag (set_flag f (BIT n)) (BIT m) = test_flag f (BIT m) || (n =? m).
Proof. intros. rewrite !test_flag_BIT, testbit_set_flag by lia. done. Qed.
Lemma test_clear_flag f n m : 0 ≤ n → 0 ≤ m → test_flag (clear_flag f (BIT n)) (BIT m) = test_flag f (BIT m) && negb (n =? m).
Proof. intros. rewrite !test_flag_BIT, testbit_clear_flag by lia. done. Qed.

(** The writable flag comes from the share. *)
Lemma share_conn_flags_writable x :
  test_flag (share_conn_flags x) KSMBD_TREE_CONN_FLAG_WRITABLE = test_share_flag x KSMBD_SHARE_FLAG_WRITEABLE.
Proof.
  unfold share_conn_flags, KSMBD_TREE_CONN_FLAG_WRITABLE, KSMBD_TREE_CONN_FLAG_READ_ONLY, KSMBD_TREE_CONN_FLAG_UPDATE.
  destruct (test_share_flag x KSMBD_SHARE_FLAG_WRITEABLE), (test_share_flag x KSMBD_SHARE_FLAG_READONLY),
    (test_share_flag x KSMBD_SHARE_FLAG_UPDATE); reflexivity.
Qed.
Lemma lookup_users_map_missing x map account :
  shm_lookup_users_map x map account ≠ 0 → shm_lookup_users_map x map account ≠ - ENOENT →
  (map < KSMBD_SHARE_USERS_MAX)%nat → ¬ has_list x map.
Proof.
  unfold shm_lookup_users_map, has_list. intros H1' H2' Hm. rewrite (proj2 (Nat.leb_gt _ _)) in H1', H2' by lia.
  destruct (nth map (sh_maps x) None) as [m|]; [|naive_solver]. by destruct (m !! account).
Qed.

Lemma users_access_allows x account f0 :
  test_flag f0 KSMBD_TREE_CONN_FLAG_WRITABLE = test_share_flag x KSMBD_SHARE_FLAG_WRITEABLE →
  match users_access x account f0 with
  | Deny => True
  | Bind f | Ask f => lists_allow x account (u16 f)
  end.
Proof.
  intros Hw. unfold users_access, lists_allow, listed.
  destruct (Z.eqb_spec (shm_lookup_users_map x KSMBD_SHARE_ADMIN_USERS_MAP account) 0) as [Ha|Ha].
  { left. split; [done|]. unfold KSMBD_TREE_CONN_FLAG_ADMIN_ACCOUNT.
    by rewrite test_u16, test_set_flag, Z.eqb_refl, orb_true_r by lia. }
  destruct (Z.eqb_spec (shm_lookup_users_map x KSMBD_SHARE_INVALID_USERS_MAP account) 0) as [Hi|Hi]; [done|].
  destruct (Z.eqb_spec (shm_lookup_users_map x KSMBD_SHARE_READ_LIST_MAP account) 0) as [Hr|Hr].
  { right. unfold KSMBD_TREE_CONN_FLAG_READ_ONLY, KSMBD_TREE_CONN_FLAG_WRITABLE.
    rewrite !test_u16, !test_clear_flag, !test_set_flag by lia. cbn [Z.eqb negb].
    rewrite !orb_true_r, !andb_false_r. split_and!; [done|done|auto|done]. }
  destruct (Z.eqb_spec (shm_lookup_users_map x KSMBD_SHARE_WRITE_LIST_MAP account) 0) as [Hwl|Hwl].
  { right. split_and!; [done|done|auto|done]. }
  destruct (Z.eqb_spec (shm_lookup_users_map x KSMBD_SHARE_VALID_USERS_MAP account) 0) as [Hv|Hv].
  { right. split_and!; [done|done|auto|]. intros _ _. unfold KSMBD_TREE_CONN_FLAG_WRITABLE.
    rewrite test_u16 by lia. exact Hw. }
  destruct (Z.eqb_spec (shm_lookup_users_map x KSMBD_SHARE_VALID_USERS_MAP account) (- ENOENT)) as [He|He]; [done|].
  right. split_and!; [done|done| |].
  - intros Hl. destruct (lookup_users_map_missing _ _ _ Hv He); [vm_compute; lia|done].
  - intros _ _. unfold KSMBD_TREE_CONN_FLAG_WRITABLE. rewrite test_u16 by lia. exact Hw.
Qed.

(** The answer is a refusal or a connection for which [P] holds of the flags. *)
Definition answers (P : Z → Prop) (r : Z * tree_connect_response) : Prop :=
  r.1 = 0 ∧ rs_status r.2 = KSMBD_TREE_CONN_STATUS_OK ∧ P (rs_connection_flags r.2) ∨
  r.1 < 0 ∧ rs_status r.2 ≠ KSMBD_TREE_CONN_STATUS_OK ∧ rs_connection_flags r.2 = 0.

Lemma error_answers_wp uh sh w w1 id share user status P :
  sessions_ok (λ q, uh q + count q (refs user)) (λ q, sh q + count q (refs share)) w →
  (∀ q, 0 ≤ uh q) → (∀ q, 0 ≤ sh q) → status ≠ KSMBD_TREE_CONN_STATUS_OK →
  wp (out_error (mk_conn 0 None 0) share user (mk_tresp status 0)) w
    (λ r w', connected uh sh w1 id r w' ∧ answers P r) (λ _ _, False).
Proof.
  intros Hok Hup Hsp Hst. wp_by (by apply (out_error_wp uh sh)); [|done].
  intros r w' [Hok' ->]. split; [by apply connected_exact|]. right. by split_and!.
Qed.
Lemma bind_answers_wp uh sh w w1 req share user flags (P : Z → Prop) :
  (ws_table w = ws_table w1) →
  sessions_ok (λ q, uh q + count q [user]) (λ q, sh q + count q [share]) w →
  (∀ q, 0 ≤ uh q) → (∀ q, 0 ≤ sh q) → P (u16 flags) →
  wp (bind_conn req share user flags) w
    (λ r w', connected uh sh w1 (rq_session_id req) r w' ∧ answers P r) (λ _ _, False).
Proof.
  intros Ht Hok Hup Hsp HP. wp_by (by apply (bind_conn_wp uh sh)); [|done].
  intros r w' (Hok' & -> & _). split; [|by left]. unfold connected in *. by rewrite <-Ht.
Qed.
(** A lookup that found nobody leaves the state as it was. *)
Lemma refs_none uh sh w :
  sessions_ok (λ q, uh q + count q (refs None)) sh w → sessions_ok uh sh w.
Proof.
  intros [[Hok Hup Hsp] Ht Hh Hn].
  assert (∀ q, uh q + count q (refs None) = uh q) as E by (intros q; unfold count; cbn; lia).
  split; [split|..]; try done.
  - eapply shares_ok_ext; [| |exact Hok]; intros q; cbv beta; [by rewrite E|done].
  - intros q. specialize (Hup q). cbv beta in Hup. by rewrite E in Hup.
Qed.

Lemma connect_account_wp uh sh w req p x flags :
  sessions_ok uh (λ q, sh q + count q [p]) w → (∀ q, 0 ≤ uh q) → (∀ q, 0 ≤ sh q) →
  test_flag flags KSMBD_TREE_CONN_FLAG_WRITABLE = test_share_flag x KSMBD_SHARE_FLAG_WRITEABLE →
  wp (connect_account req p x flags) w
    (λ r w', connected uh sh w (rq_session_id req) r w' ∧ answers (lists_allow x (cstr (rq_account req))) r) (λ _ _, False).
Proof.
  intros Hok Hup Hsp Hw. unfold connect_account. wp_step.
  wp_by (by apply (w_lookup_user_wp _ _ _ _ Hok)); [|done].
  intros [q|] w1 [Hok1 Ht1]; [|by apply (error_answers_wp uh sh w1 w _ (Some p) None)].
  destruct (w_user_live _ _ _ q Hok1) as [u Hu].
  { cbn [refs]. rewrite count_cons, decide_True by done. specialize (Hup q). pose proof (count_nonneg q []). lia. }
  wp_step. eapply w_user_load_wp; [exact Hu|]. wp_step.
  set (v := set_user_flags _ _). wp_by (by apply (w_user_store_wp _ _ _ q u v Hok1)); [|done].
  intros _ w2 [Hok2 Ht2']. pose proof (proj1 (transitivity Ht1 Ht2')) as Ht2.
  set (f := if test_user_flag v KSMBD_USER_FLAG_GUEST_ACCOUNT then _ else flags).
  assert (test_flag f KSMBD_TREE_CONN_FLAG_WRITABLE = test_share_flag x KSMBD_SHARE_FLAG_WRITEABLE) as Hf.
  { unfold f. destruct test_user_flag; [|done]. rewrite <-Hw.
    unfold KSMBD_TREE_CONN_FLAG_WRITABLE, KSMBD_TREE_CONN_FLAG_GUEST_ACCOUNT.
    by rewrite test_set_flag, orb_false_r by lia. }
  pose proof (users_access_allows x (cstr (rq_account req)) f Hf) as Ha.
  destruct users_access as [g| |g].
  - by apply (bind_answers_wp uh sh w2 w req p q).
  - by apply (error_answers_wp uh sh w2 w _ (Some p) (Some q)).
  - wp_step. wp_by (by apply (sm_check_sessions_capacity_wp _ _ _ _ Hok2)); [|done].
    intros r w3 [Hok3 Hr3]. assert (ws_table w3 = ws_table w) as Ht3.
    { rewrite <-Ht2. destruct (ws_table w2 !! _); [by destruct Hr3 as [_ ->]|]. by destruct Hr3 as [(_ & _ & ->)|(_ & _ & ->)]. }
    destruct (negb (r =? 0)).
    + by apply (error_answers_wp uh sh w3 w _ (Some p) (Some q)).
    + by apply (bind_answers_wp uh sh w3 w req p q).
Qed.
Lemma answers_mono (P P' : Z → Prop) r : (∀ f, P f → P' f) → answers P r → answers P' r.
Proof. intros HP [(? & ? & ?)|?]; [left; auto|by right]. Qed.

Lemma connect_guest_wp uh sh w req p x flags :
  sessions_ok uh (λ q, sh q + count q [p]) w → (∀ q, 0 ≤ uh q) → (∀ q, 0 ≤ sh q) →
  test_flag flags KSMBD_TREE_CONN_FLAG_WRITABLE = test_share_flag x KSMBD_SHARE_FLAG_WRITEABLE →
  wp (connect_guest guest_account req p x flags) w
    (λ r w', connected uh sh w (rq_session_id req) r w' ∧
       answers (λ f, test_flag f KSMBD_TREE_CONN_FLAG_GUEST_ACCOUNT = true ∨
                     lists_allow x (cstr (rq_account req)) f) r) (λ _ _, False).
Proof.
  intros Hok Hup Hsp Hw. unfold connect_guest.
  assert (test_flag (u16 (set_flag flags KSMBD_TREE_CONN_FLAG_GUEST_ACCOUNT))
    KSMBD_TREE_CONN_FLAG_GUEST_ACCOUNT = true) as Hg.
  { unfold KSMBD_TREE_CONN_FLAG_GUEST_ACCOUNT.
    by rewrite test_u16, test_set_flag, Z.eqb_refl, orb_true_r by lia. }
  wp_step. wp_by (by apply (w_lookup_user_wp _ _ _ _ Hok)); [|done].
  intros [q|] w1 [Hok1 Ht1]; [apply (bind_answers_wp uh sh w1 w req p q); [apply Ht1|auto..]|].
  apply refs_none in Hok1. wp_step. wp_by (by apply (w_lookup_user_wp _ _ _ _ Hok1)); [|done].
  intros [q|] w2 [Hok2 Ht2']; pose proof (transitivity Ht1 Ht2') as Ht2; [apply (bind_answers_wp uh sh w2 w req p q); [apply Ht2|auto..]|].
  apply refs_none in Hok2. wp_by (by apply (connect_account_wp uh sh)); [|done].
  intros r w3 [Hok3 Hr]. split; [by eapply connected_table|]. eapply answers_mono; [|exact Hr]. auto.
Qed.

Lemma connect_share_wp uh sh w req p x :
  sessions_ok uh (λ q, sh q + count q [p]) w → (∀ q, 0 ≤ uh q) → (∀ q, 0 ≤ sh q) →
  wp (connect_share guest_account restrict_anon req p x) w
    (λ r w', connected uh sh w (rq_session_id req) r w' ∧ answers (permitted x req) r) (λ _ _, False).
Proof.
  intros Hok Hup Hsp. unfold connect_share. wp_step.
  wp_by (apply (on_shares_wp _ _ _ _ (λ _, uh) (λ _ q, sh q + count q [p]) (λ _ _, True) Hok);
    intros cu cs Hcu Hcs Hs; (wp_by (apply (shm_open_connection_wp _ _ _ p Hs);
      rewrite count_cons, decide_True by done; specialize (Hsp p); specialize (Hcs p);
      pose proof (count_nonneg p []); lia)); [|done];
    intros r s' Hs'; split_and!; [done..| |done]; intros q; specialize (Hsp q);
    pose proof (count_nonneg q [p]); lia); [|done].
  intros r w1 [[_ Ht1] Hok1].
  assert (∀ status, status ≠ KSMBD_TREE_CONN_STATUS_OK →
    wp (out_error (mk_conn 0 None 0) (Some p) None (mk_tresp status 0)) w1
      (λ r w', connected uh sh w (rq_session_id req) r w' ∧ answers (permitted x req) r) (λ _ _, False)) as Herr.
  { intros st Hst. apply (error_answers_wp uh sh w1 w _ (Some p) None); [|done..].
    destruct Hok1 as [[Hs1 ? ?] ? ? ?]. split; [split|..]; try done.
    - eapply shares_ok_ext; [| |exact Hs1]; intros q; [unfold count; cbn; lia|done].
    - intros q. unfold count. cbn. specialize (Hup q). lia. }
  destruct (negb (r =? 0)); [by apply Herr|].
  destruct (host_denied x _) eqn:Hh; [by apply Herr|].
  destruct (guest_denied restrict_anon x _) eqn:Hg; [by apply Herr|].
  apply host_denied_spec in Hh. apply guest_denied_spec in Hg.
  destruct (_ && _) eqn:Hgo.
  - apply andb_true_iff in Hgo as [Hga Hgb].
    wp_by (apply (connect_guest_wp uh sh w1 req p x (share_conn_flags x)); [done..|];
      apply share_conn_flags_writable); [|done].
    intros a w2 [Hok2 Ha]. split; [by eapply connected_table|]. eapply answers_mono; [|exact Ha].
    intros f [Hf|Hf]; unfold permitted; auto 10.
  - wp_by (apply (connect_account_wp uh sh w1 req p x (share_conn_flags x)); [done..|];
      apply share_conn_flags_writable); [|done].
    intros a w2 [Hok2 Ha]. split; [by eapply connected_table|]. eapply answers_mono; [|exact Ha].
    intros f Hf; unfold permitted; auto.
Qed.

Lemma tcm_handle_tree_connect_wp uh sh w req :
  sessions_ok uh sh w →
  wp (tcm_handle_tree_connect map_to_guest guest_account restrict_anon req) w
    (λ r w', connected uh sh w (rq_session_id req) r w' ∧
       answers (λ f, ∃ p x,
         ss_table (ws_shares w) !! shm_casefold_share_name (cstr (rq_share req)) = Some p ∧
         ss_heap (ws_shares w) !! p = Some x ∧ permitted x req f) r) (λ _ _, False).
Proof.
  intros Hok. pose proof (ro_users_pos _ _ _ (wo_refs _ _ _ Hok)) as Hup.
  pose proof (ro_shares_pos _ _ _ (wo_refs _ _ _ Hok)) as Hsp. unfold tcm_handle_tree_connect.
  destruct (negb (g_try_malloc _)); [wp_step; split; [by apply connected_exact|]; by right|].
  assert (∀ status P, status ≠ KSMBD_TREE_CONN_STATUS_OK →
    wp (out_error (mk_conn 0 None 0) None None (mk_tresp status 0)) w
      (λ r w', connected uh sh w (rq_session_id req) r w' ∧ answers P r) (λ _ _, False)) as Herr.
  { intros st P Hst. apply (error_answers_wp uh sh w w _ None None); [|done..].
    destruct Hok as [[Hs1 ? ?] ? ? ?]. split; [split|..]; try done.
    - eapply shares_ok_ext; [| |exact Hs1]; intros q; unfold count; cbn; lia.
    - intros q. unfold count. cbn. specialize (Hup q). lia.
    - intros q. unfold count. cbn. specialize (Hsp q). lia. }
  destruct (negb _ || negb _ || negb _); [by apply Herr|].
  destruct (_ && _); [by apply Herr|]. wp_step.
  set (found := λ (r : option Z) (s' : sstate), match r with
    | None => s' = ws_shares w
    | Some p => ss_table (ws_shares w) !! shm_casefold_share_name (cstr (rq_share req)) = Some p ∧
        ∃ x, ss_heap (ws_shares w) !! p = Some x ∧
             ss_heap s' !! p = Some (set_sh_ref_count (sh_ref_count x + 1) x) end).
  wp_by (apply (on_shares_wp _ _ _ _ (λ _, uh) (λ r q, sh q + count q (refs r)) found Hok);
    intros cu cs Hcu Hcs Hs; (wp_by (by apply (shm_lookup_share_wp _ _ _ _ Hs))); [|done];
    intros [p|] s' Hr; unfold found;
    [destruct Hr as (Ht & Hs' & x & Hx & ->); split_and!;
       [done|exists x; split; [done|]; apply lookup_insert_eq|done
       |intros q; specialize (Hsp q); pose proof (count_nonneg q (refs (Some p))); lia
       |eapply shares_ok_ext; [done| |exact Hs']; cbn [refs]; counts]
    |destruct Hr as [-> _]; split_and!;
       [done|done|intros q; specialize (Hsp q); pose proof (count_nonneg q (refs None)); lia
       |eapply shares_ok_ext; [done| |exact Hs]; counts]]); [|done].
  intros [p|] w1 [[Hf Ht1] Hok1].
  - destruct Hf as (Ht & x & Hx & Hx1). wp_step. apply wp_zoom. eapply wp_load; [exact Hx1|].
    replace (set_ws_shares (ws_shares w1) w1) with w1 by by destruct w1.
    wp_by (by apply (connect_share_wp uh sh)); [|done].
    intros r w2 [Hok2 Ha]. split; [by eapply connected_table|]. eapply answers_mono; [|exact Ha]. intros f Hp. by exists p, x.
  - apply (error_answers_wp uh sh w1 w _ None None); [|done..].
    destruct Hok1 as [[Hs1 ? ?] ? ? ?]. split; [split|..]; try done.
    + eapply shares_ok_ext; [| |exact Hs1]; intros q; unfold count; cbn; lia.
    + intros q. unfold count. cbn. specialize (Hup q). lia.
Qed.


(** *** Limits *)

(** A request that reaches the share [x] at [p]. *)
Record arrives (w : wstate) (req : tree_connect_request) (p : Z) (x : share) : Prop := {
  ar_memory : g_try_malloc sizeof_ksmbd_tree_conn = true;
  ar_share : terminated (rq_share req) KSMBD_REQ_MAX_SHARE_NAME = true;
  ar_account : terminated (rq_account req) KSMBD_REQ_MAX_ACCOUNT_NAME_SZ = true;
  ar_peer : terminated (rq_peer_addr req) sizeof_peer_addr = true;
  ar_password : test_flag (rq_account_flags req) KSMBD_USER_FLAG_BAD_PASSWORD = false;
  ar_table : ss_table (ws_shares w) !! shm_casefold_share_name (cstr (rq_share req)) = Some p;
  ar_heap : ss_heap (ws_shares w) !! p = Some x;
}.
Lemma arrives_wp uh sh w req p x Q E :
  sessions_ok uh sh w → arrives w req p x →
  (∀ w1, sessions_ok uh (λ q, sh q + count q [p]) w1 → same_sessions w w1 →
     ws_shares w1 = set_ss_heap (<[p := set_sh_ref_count (sh_ref_count x + 1) x]> (ss_heap (ws_shares w))) (ws_shares w) →
     wp (connect_share guest_account restrict_anon req p (set_sh_ref_count (sh_ref_count x + 1) x)) w1 Q E) →
  wp (tcm_handle_tree_connect map_to_guest guest_account restrict_anon req) w Q E.
Proof.
  intros Hok [Hm Hs Ha Hp Hb Ht Hx] HQ. pose proof (ro_users_pos _ _ _ (wo_refs _ _ _ Hok)) as Hup.
  pose proof (ro_shares_pos _ _ _ (wo_refs _ _ _ Hok)) as Hsp.
  unfold tcm_handle_tree_connect. rewrite Hm, Hs, Ha, Hp, Hb, andb_false_r. cbn [negb orb]. wp_step.
  set (y := set_sh_ref_count (sh_ref_count x + 1) x) in *.
  set (s1 := set_ss_heap (<[p := y]> (ss_heap (ws_shares w))) (ws_shares w)) in *.
  eapply wp_mono; [apply (on_shares_wp uh sh w (shm_lookup_share (cstr (rq_share req))) (λ _, uh) (λ _ q, sh q + count q [p])
    (λ r s', r = Some p ∧ s' = s1) Hok)| |done].
  - intros cu cs Hcu Hcs Hc. wp_by (by apply (shm_lookup_share_wp _ _ _ _ Hc)); [|done].
    intros [q|] s' Hr; [|destruct Hr; congruence]. destruct Hr as (Hq & Hs' & z & Hz & ->).
    assert (q = p) as -> by congruence. assert (z = x) as -> by congruence. split_and!; [done|done|done|..].
    + intros q. specialize (Hsp q). pose proof (count_nonneg q [p]). lia.
    + eapply shares_ok_ext; [done| |exact Hs']. counts.
  - intros r w1 [[[-> Hs1] Hsame] Hok1]. wp_step. apply wp_zoom. eapply wp_load; [rewrite Hs1; apply lookup_insert_eq|].
    replace (set_ws_shares (ws_shares w1) w1) with w1 by by destruct w1. by apply HQ.
Qed.
(** A share that is full refuses, and counts a connection less. *)
Lemma refused_connect_wp uh sh w req p x :
  sessions_ok uh sh w → arrives w req p x → 0 < sh_max_connections x ≤ sh_num_connections x →
  wp (tcm_handle_tree_connect map_to_guest guest_account restrict_anon req) w
    (λ r w', rs_status r.2 = KSMBD_TREE_CONN_STATUS_TOO_MANY_CONNS ∧
       ss_heap (ws_shares w') = <[p := set_sh_num_connections (sh_num_connections x - 1) x]> (ss_heap (ws_shares w)))
    (λ _ _, False).
Proof.
  intros Hok Ha Hn. eapply arrives_wp; [done|done|]. intros w1 Hok1 _ Hs1.
  destruct Hok as [[[_ _ Hcs] _ _] _ _ _]. destruct (co_count Hcs _ _ (ar_heap _ _ _ _ Ha)) as [Href _].
  unfold connect_share. wp_step. apply wp_zoom. unfold shm_open_connection. wp_step. rewrite Hs1.
  eapply wp_load; [apply lookup_insert_eq|]. cbn [sh_max_connections sh_num_connections set_sh_ref_count].
  rewrite (proj2 (Z.eqb_neq _ _)), (proj2 (Z.leb_le _ _)) by lia. cbn [negb andb]. wp_step.
  change (negb (- EINVAL =? 0)) with true. cbv iota. unfold out_error. wp_step. apply wp_zoom. unfold tcm_tree_conn_free. cbn [tc_share shm_close_connection put_ksmbd_share].
  do 6 wp_step. eapply wp_load; [apply lookup_insert_eq|]. cbn [sh_num_connections set_sh_ref_count].
  rewrite (proj2 (Z.ltb_lt _ _)) by lia. eapply wp_store; [apply lookup_insert_eq|].
  wp_step. eapply wp_load; [apply lookup_insert_eq|]. wp_step. eapply wp_store; [apply lookup_insert_eq|].
  cbn [sh_ref_count set_sh_ref_count set_sh_num_connections]. rewrite (proj2 (Z.eqb_neq _ _)) by lia. wp_step.
  wp_step. unfold w_users. apply wp_zoom. cbn [put_ksmbd_user]. apply wp_zoom. wp_step. wp_step. split; [done|].
  cbn. rewrite !insert_insert_eq. f_equal. destruct x; unfold set_sh_ref_count, set_sh_num_connections; cbn. f_equal. lia.
Qed.

(** An account on the list of valid users, and not on the one of invalid users,
    is never asked for the capacity. *)
Lemma valid_user_binds x account flags :
  listed x KSMBD_SHARE_VALID_USERS_MAP account → ¬ listed x KSMBD_SHARE_INVALID_USERS_MAP account →
  ∃ g, users_access x account flags = Bind g.
Proof.
  unfold listed, users_access. intros Hv Hi. rewrite (proj2 (Z.eqb_neq _ 0) Hi), Hv.
  repeat case_match; simplify_eq; by eexists.
Qed.
(** The account of the request may connect to the share [x] as a valid user. *)
Record valid_user (w : wstate) (req : tree_connect_request) (x : share) : Prop := {
  vu_room : sh_max_connections x = 0 ∨ sh_num_connections x < sh_max_connections x;
  vu_hosts : hosts_allow x (cstr (rq_peer_addr req));
  vu_guest : test_flag (rq_account_flags req) KSMBD_USER_FLAG_GUEST_ACCOUNT = false;
  vu_known : is_Some (us_table (ss_users (ws_shares w)) !! cstr (rq_account req));
  vu_valid : listed x KSMBD_SHARE_VALID_USERS_MAP (cstr (rq_account req));
  vu_invalid : ¬ listed x KSMBD_SHARE_INVALID_USERS_MAP (cstr (rq_account req));
}.
Lemma bound_account_wp uh sh w req p x flags :
  sessions_ok uh (λ q, sh q + count q [p]) w → (∀ q, 0 ≤ uh q) → (∀ q, 0 ≤ sh q) → valid_user w req x →
  wp (connect_account req p x flags) w
    (λ r w', rs_status r.2 = KSMBD_TREE_CONN_STATUS_OK ∧ ws_cap w' = ws_cap w) (λ _ _, False).
Proof.
  intros Hok Hup Hsp [_ _ _ [q Hq] Hv Hi]. unfold connect_account. wp_step.
  eapply wp_mono; [eapply (wp_both _ _ _ (λ r _, is_Some r) _ (λ _ _, False));
    [by apply (w_lookup_user_wp _ _ _ (Some (cstr (rq_account req))) Hok)|]|cbv beta|by intros ? ? []].
  { destruct Hok as [[[Hu _ _] _ _] _ _ _]. unfold w_users. do 2 apply wp_zoom.
    eapply wp_mono; [by apply (usm_lookup_user_wp _ _ (Some (cstr (rq_account req))) Hu)|cbv beta|done].
    intros r u Hr. cbn. destruct r; [by eexists|]. destruct Hr as [_ Hr]. cbn in Hr. congruence. }
  intros r w1 [[Hok1 Hsame] [q' ->]]. destruct (w_user_live _ _ _ q' Hok1) as [u Hu].
  { cbn [refs]. rewrite count_cons, decide_True by done. specialize (Hup q'). pose proof (count_nonneg q' []). lia. }
  wp_step. eapply w_user_load_wp; [exact Hu|]. wp_step.
  set (v := set_user_flags _ _). wp_by (by apply (w_user_store_wp _ _ _ q' u v Hok1)); [|done].
  intros _ w2 [Hok2 Hsame2]. set (f := if test_user_flag v _ then _ else _).
  destruct (valid_user_binds x (cstr (rq_account req)) f Hv Hi) as [g ->].
  wp_by (by apply (bind_conn_wp uh sh)); [|done]. intros r w3 (_ & -> & Hcap). split; [done|].
  rewrite Hcap. apply (transitivity Hsame Hsame2).
Qed.
Lemma valid_user_connect_wp uh sh w req p x :
  sessions_ok uh sh w → arrives w req p x → valid_user w req x →
  wp (tcm_handle_tree_connect map_to_guest guest_account restrict_anon req) w
    (λ r w', rs_status r.2 = KSMBD_TREE_CONN_STATUS_OK ∧ ws_cap w' = ws_cap w) (λ _ _, False).
Proof.
  intros Hok Ha Hv. pose proof (ro_users_pos _ _ _ (wo_refs _ _ _ Hok)) as Hup.
  pose proof (ro_shares_pos _ _ _ (wo_refs _ _ _ Hok)) as Hsp. eapply arrives_wp; [done|done|].
  intros w1 Hok1 Hsame Hs1. set (y := set_sh_ref_count _ x) in *. unfold connect_share. wp_step.
  wp_by (apply (on_shares_wp _ _ _ _ (λ _, uh) (λ _ q, sh q + count q [p])
      (λ r s', r = 0 ∧ ss_users s' = ss_users (ws_shares w1)) Hok1);
    intros cu cs Hcu Hcs Hs; unfold shm_open_connection; wp_step; (eapply wp_load; [rewrite Hs1; apply lookup_insert_eq|]);
    (replace (_ && _) with false by (destruct (vu_room _ _ _ Hv) as [E|E]; cbn; [by rewrite E|];
       rewrite (proj2 (Z.leb_gt _ _)), andb_false_r by exact E; done));
    wp_step; (eapply wp_store; [rewrite Hs1; apply lookup_insert_eq|]); wp_step; split_and!; [done|done|done| |];
    [intros q; specialize (Hsp q); pose proof (count_nonneg q [p]); lia
    |eapply (shares_ok_store _ _ _ p y); [exact Hs|rewrite Hs1; apply lookup_insert_eq|done..]]); [|done].
  intros r w2 [[[-> Hu2] Hsame2] Hok2]. change (negb (0 =? 0)) with false. cbv iota.
  change (host_denied y) with (host_denied x). rewrite (proj2 (host_denied_spec _ _) (vu_hosts _ _ _ Hv)).
  rewrite (proj2 (guest_denied_spec y (rq_account_flags req))) by (intros Hg; rewrite (vu_guest _ _ _ Hv) in Hg; done).
  rewrite (vu_guest _ _ _ Hv). cbn [andb]. eapply wp_mono; [apply (bound_account_wp uh sh); [done..|]| |done].
  - destruct Hv. split; try done. by rewrite Hu2, Hs1.
  - intros r w3 [Hr Hc]. split; [done|]. rewrite Hc. apply (transitivity Hsame Hsame2).
Qed.
Lemma last_disconnect_wp uh sh w id t q y c :
  sessions_ok uh sh w → ws_table w !! id = Some q → ws_heap w !! q = Some y → se_tree_conns y = [c] → tc_id c = t →
  wp (tcm_handle_tree_disconnect id t) w (λ _ w', ws_cap w' = s32 (ws_cap w + 1)) (λ _ _, False).
Proof.
  intros Hok Ht Hy Hc Hid. pose proof (ro_shares_pos _ _ _ (wo_refs _ _ _ Hok)) as Hsp.
  unfold tcm_handle_tree_disconnect, sm_handle_tree_disconnect. wp_step. wp_step.
  wp_by (by apply (sm_lookup_session_wp _ _ _ _ Hok)); [|done]. intros [p|] w' Hr; [|destruct Hr; congruence].
  destruct Hr as (E & x & Hx & _ & ->). assert (p = q) as -> by congruence. assert (x = y) as -> by congruence.
  pose proof (looked_up_lent _ _ _ _ _ Hok Hy) as Hl. wp_step. eapply wp_load; [apply (le_at _ _ _ _ _ Hl)|]. wp_step.
  cbn [se_tree_conns set_se_ref_counter]. rewrite Hc. cbn [take_tree_conn]. rewrite Hid, Z.eqb_refl.
  assert (se_tree_conns (set_se_ref_counter (se_ref_counter y + 1) y) ≡ₚ [c]) as Hperm by (cbn; by rewrite Hc).
  pose proof (lent_drop_conn _ _ _ _ _ _ _ Hl Hperm) as Hd. cbv zeta in Hd.
  wp_step. eapply wp_store; [apply (le_at _ _ _ _ _ Hl)|].
  match type of Hd with lent _ _ _ ?z ?w1 => set (z' := z) in Hd; set (w1' := w1) in Hd end.
  change (set_ws_heap _ (looked_up q y w)) with w1'. wp_step. wp_step.
  eapply wp_mono; [eapply (wp_both _ _ _ (λ _ w', ws_cap w' = s32 (ws_cap w + 1)) _ (λ _ _, False));
    [apply (lent_free_conn_wp uh sh _ q z' c); [|done]|]|cbv beta|by intros ? ? []].
  { destruct Hd as [[] ? ? ? ? ?]. by split; [split|..]. }
  { unfold on_shares. apply wp_zoom.
    eapply wp_mono; [apply (tcm_tree_conn_free_wp (λ r, uh r + count r (heap_refs se_users (ws_heap w1')))
      (λ r, sh r + count r (heap_refs se_shares (ws_heap w1'))))|done|done].
    - destruct Hd as [[Hs _ _] _ _ _ _ _]. eapply shares_ok_ext; [done| |exact Hs]. intros r. cbv beta. apply Z.add_shuffle0.
    - intros r. specialize (Hsp r). pose proof (count_nonneg r (heap_refs se_shares (ws_heap w1'))). lia. }
  intros _ w3 [H3 Hcap3]. wp_step. wp_by (by apply (lent_put_wp _ _ _ _ _ H3)); [|done].
  intros _ w4 (_ & Hcap4 & _). wp_step. wp_step. congruence.
Qed.

(** C34 (error): the two limits do not hold, whatever the state.  A connect that
    is refused because the share has as many connections as it may have counts
    one connection less, so that the next one is let in; and an account on the
    list of valid users of a share is let in without a look at the capacity,
    even when it is used up, while the last disconnect of every session raises
    the capacity by one. *)
Theorem connection_limits_bypassed uh sh w req p x :
  sessions_ok uh sh w → arrives w req p x →
  (0 < sh_max_connections x → sh_num_connections x = sh_max_connections x →
   wp (tcm_handle_tree_connect map_to_guest guest_account restrict_anon req) w
     (λ r w', rs_status r.2 = KSMBD_TREE_CONN_STATUS_TOO_MANY_CONNS ∧
        wp (on_shares (shm_open_connection p)) w' (λ r _, r = 0) (λ _ _, False)) (λ _ _, False)) ∧
  (valid_user w req x →
   wp (tcm_handle_tree_connect map_to_guest guest_account restrict_anon req) w
     (λ r w', rs_status r.2 = KSMBD_TREE_CONN_STATUS_OK ∧ ws_cap w' = ws_cap w) (λ _ _, False)) ∧
  (∀ id t q y c, ws_table w !! id = Some q → ws_heap w !! q = Some y → se_tree_conns y = [c] → tc_id c = t →
   wp (tcm_handle_tree_disconnect id t) w (λ _ w', ws_cap w' = s32 (ws_cap w + 1)) (λ _ _, False)).
Proof.
  intros Hok Ha. split_and!.
  - intros Hm Hn. wp_by (apply (refused_connect_wp uh sh w req p x); [done|done|lia]); [|done].
    intros r w' [Hr Hh]. split; [done|]. apply wp_zoom. unfold shm_open_connection. wp_step.
    eapply wp_load; [rewrite Hh; apply lookup_insert_eq|]. cbn [sh_max_connections sh_num_connections set_sh_num_connections].
    rewrite (proj2 (Z.leb_gt _ _)), andb_false_r by lia. wp_step. eapply wp_store; [rewrite Hh; apply lookup_insert_eq|]. by wp_step.
  - intros Hv. by apply (valid_user_connect_wp uh sh w req p x).
  - intros id t q y c. by apply (last_disconnect_wp uh sh).
Qed.

(** *** Sequences of requests *)
Hypothesis base64_decode_total : ∀ b, ∃ p, base64_decode b = Some p ∧ Z.of_nat (length p) ≤ INT_MAX.

(** The requests of the kernel and of a configuration reload. *)
Inductive request :=
  | TreeConnect (req : tree_connect_request)
  | TreeDisconnect (sess_id tree_conn_id : Z)
  | Login (req : login_request)
  | Logout (req : logout_request)
  | RemoveAllUsers
  | RemoveAllShares
  | AddUser (name pwd : bytes)
  | AddShare (reload is_ipc : bool) (group : smbconf_group).

Definition handle (r : request) : prog wstate unit :=
  match r with
  | TreeConnect req => ignore (tcm_handle_tree_connect map_to_guest guest_account restrict_anon req)
  | TreeDisconnect s t => ignore (tcm_handle_tree_disconnect s t)
  | Login req => ignore (w_users (usm_handle_login_request map_to_guest guest_account req blank_login_response))
  | Logout req => ignore (w_users (usm_handle_logout_request req))
  | RemoveAllUsers => w_users (usm_remove_all_users hash_order)
  | RemoveAllShares => on_shares shm_remove_all_shares
  | AddUser name pwd => ignore (w_users (usm_add_new_user base64_decode getpwnam getgrouplist name pwd))
  | AddShare reload is_ipc group => ignore (on_shares (shm_add_new_share reload is_ipc group))
  end.

(** A program on the users that keeps the counts, whatever is held. *)
Lemma w_users_wp {T} uh sh w (m : prog ustate T) :
  (∀ held u, users_ok held u → wp m u (λ _ u', users_ok held u') (λ _ u', users_ok held u')) →
  sessions_ok uh sh w →
  wp (w_users m) w (λ _ w', sessions_ok uh sh w') (λ _ w', sessions_ok uh sh w').
Proof.
  intros Hm [[[Hu Hp Hs] Hup Hsp] Ht Hh Hn]. unfold w_users. do 2 apply wp_zoom.
  wp_by (by apply (Hm _ _ Hu)); intros a u' Hu'; (split; [split; [split|..]|..]); done.
Qed.
Lemma logout_keeps req held u :
  users_ok held u →
  wp (usm_handle_logout_request req) u (λ _ u', users_ok held u') (λ _ u', users_ok held u').
Proof.
  intros Hu. destruct (usm_is_valid_ipc_account (oq_account req)) eqn:Hv.
  2:{ unfold usm_handle_logout_request. rewrite Hv. by wp_step. }
  destruct (us_table u !! cstr (oq_account req)) as [p|] eqn:Ht.
  - destruct (co_table Hu _ _ Ht) as (v & Hp & _ & _).
    eapply wp_run; [by eapply usm_handle_logout_exact|].
    destruct (note_logout_name (oq_account_flags req) v) as (Hnm & Hst & Hr).
    destruct (co_count Hu _ _ Hp) as [? _]. pose proof (co_held Hu p).
    eapply counted_ext; [apply (hold_0 p)|]. eapply counted_update with (o := v); [exact Hu|done|done|..]; try lia.
    unfold user_freeing. by rewrite Hst.
  - unfold usm_handle_logout_request. rewrite Hv. cbn [negb]. wp_step.
    wp_by (by apply (usm_lookup_user_wp held)); [|done].
    intros [p|] u' Hr; cbn in Hr; [destruct Hr; congruence|]. destruct Hr as [-> _]. by wp_step.
Qed.

Hypothesis map_to_guest_valid :
  map_to_guest = KSMBD_CONF_MAP_TO_GUEST_NEVER ∨ map_to_guest = KSMBD_CONF_MAP_TO_GUEST_BAD_USER.

(** The references to users that a request may lose. *)
Definition losses (r : request) : nat := match r with TreeConnect _ => 1 | _ => 0 end.
Lemma kept_lost uh sh w : sessions_ok uh sh w → ∃ lost, sessions_ok (λ q, uh q + count q lost) sh w ∧ length lost = 0%nat.
Proof. intros Hok. exists []. split; [|done]. eapply sessions_ok_ext; [|done|exact Hok]. counts. Qed.
Lemma handle_wp uh sh w r :
  sessions_ok uh sh w →
  wp (handle r) w (λ _ w', ∃ lost, sessions_ok (λ q, uh q + count q lost) sh w' ∧ (length lost ≤ losses r)%nat) (λ _ _, False).
Proof.
  intros Hok. pose proof (ro_users_pos _ _ _ (wo_refs _ _ _ Hok)) as Hup.
  pose proof (ro_shares_pos _ _ _ (wo_refs _ _ _ Hok)) as Hsp.
  assert (∀ m : prog wstate unit, wp m w (λ _ w', sessions_ok uh sh w') (λ _ _, False) →
    wp m w (λ _ w', ∃ lost, sessions_ok (λ q, uh q + count q lost) sh w' ∧ (length lost ≤ losses r)%nat) (λ _ _, False)) as Hkeep.
  { intros m Hm. eapply wp_mono; [exact Hm| |done]. intros _ w' (lost & Hl & E)%kept_lost. exists lost. split; [done|lia]. }
  destruct r as [req|s t|req|req| | |name pwd|reload ipc group]; cbn [handle]; [|apply Hkeep..]; try apply wp_ignore.
  - wp_by (by apply (tcm_handle_tree_connect_wp uh sh)); [|done].
    intros r w' [(lost & Hl & Hlen) _]. exists lost. split; [done|].
    destruct Hlen as [->|(_ & _ & u & ->)]; cbn; lia.
  - unfold tcm_handle_tree_disconnect. wp_step. wp_by (by apply (sm_handle_tree_disconnect_wp uh sh)); [|done].
    intros r w' [_ ?]. by wp_step.
  - apply w_users_wp; [|done]. intros held u Hu.
    eapply wp_run; [by eapply login_request_exact|done].
  - apply w_users_wp; [|done]. intros held u. apply logout_keeps.
  - destruct Hok as [[[Hu Hp Hs] _ _] Ht Hh Hn]. unfold w_users. do 2 apply wp_zoom.
    wp_by (by apply (usm_remove_all_users_wp hash_order hash_order_perm _ _ Hu)); [|done].
    intros _ u' [Hu' _]. by split; [split; [split|..]|..].
  - wp_by (apply (on_shares_wp _ _ _ _ (λ _, uh) (λ _, sh) (λ _ _, True) Hok); intros cu cs _ _ Hs;
      (wp_by (by apply (shm_remove_all_shares_wp hash_order_perm _ _ _ Hs))); [|done];
      by intros _ s' [Hs' _]); [|done]. by intros _ w' [_ ?].
  - apply w_users_wp; [|done]. intros held u Hu.
    wp_by (by apply (usm_add_new_user_wp _ _ _ base64_decode_total held));
      [by intros _ s' []|by intros e s' [_ ->]].
  - wp_by (apply (on_shares_wp _ _ _ _ (λ _, uh) (λ _, sh) (λ _ _, True) Hok); intros cu cs _ _ Hs;
      (wp_by (by apply (shm_add_new_share_wp hash_order_perm base64_decode_total _ _ _ _ _ _ Hs))); [|done];
      by intros _ s' [Hs' _]); [|done]. by intros _ w' [_ ?].
Qed.

Lemma handle_all_wp uh sh w rs :
  sessions_ok uh sh w →
  wp (for_each rs handle) w
    (λ _ w', ∃ lost, sessions_ok (λ q, uh q + count q lost) sh w' ∧ (length lost ≤ sum_list (losses <$> rs))%nat) (λ _ _, False).
Proof.
  revert uh w. induction rs as [|r rs IH]; intros uh w Hok; cbn [for_each].
  { wp_step. destruct (kept_lost _ _ _ Hok) as (lost & Hl & E). exists lost. split; [done|]. by rewrite E. }
  wp_step. wp_by (by apply (handle_wp uh sh)); [|done]. intros _ w1 (l1 & Hok1 & Hlen1).
  wp_by (by apply IH); [|done]. intros _ w2 (l2 & Hok2 & Hlen2). exists (l1 ++ l2). split.
  - eapply sessions_ok_ext; [|done|exact Hok2]. counts.
  - rewrite length_app. cbn. lia.
Qed.

(** All references to users and to shares: those of the sessions, and the
    users that the lists of the shares name. *)
Definition user_references (w : wstate) : list Z :=
  heap_refs se_users (ws_heap w) ++ all_users (ss_heap (ws_shares w)).
Definition share_references (w : wstate) : list Z := heap_refs se_shares (ws_heap w).
(** One for the table *)
Definition in_table {K : Type} `{Countable K} (t : gmap K Z) (k : K) (p : Z) : Z := if decide (t !! k = Some p) then 1 else 0.
Lemma sessions_user_count uh sh w p u :
  sessions_ok uh sh w → us_heap (ss_users (ws_shares w)) !! p = Some u →
  u_ref_count u = in_table (us_table (ss_users (ws_shares w))) (u_name u) p + count p (user_references w) + uh p.
Proof.
  intros [[[Hu _ _] _ _] _ _ _] Hp. destruct (co_count Hu _ _ Hp) as [_ E]. unfold in_table, user_references.
  rewrite E, count_app. cbv beta. lia.
Qed.
Lemma sessions_share_count uh sh w p x :
  sessions_ok uh sh w → ss_heap (ws_shares w) !! p = Some x →
  sh_ref_count x = in_table (ss_table (ws_shares w)) (shm_casefold_share_name (sh_name x)) p + count p (share_references w) + sh p.
Proof.
  intros [[[_ _ Hs] _ _] _ _ _] Hp. destruct (co_count Hs _ _ Hp) as [_ E]. unfold in_table, share_references.
  rewrite E. unfold share_key. cbv beta. lia.
Qed.
Lemma sessions_live uh sh w :
  sessions_ok uh sh w →
  (∀ q, q ∈ share_references w → is_Some (ss_heap (ws_shares w) !! q)) ∧
  (∀ q, q ∈ user_references w → is_Some (us_heap (ss_users (ws_shares w)) !! q)).
Proof.
  intros [[[Hu _ Hs] Hup Hsp] _ _ _]. split; intros q Hq%count_pos.
  - apply (co_held Hs). specialize (Hsp q). unfold share_references in Hq. lia.
  - apply (co_held Hu). specialize (Hup q). unfold user_references in Hq. rewrite count_app in Hq. lia.
Qed.

End SessionCounts.

(** ** Witnesses and defects on a small server *)
Definition pad (n : nat) (s : string) : bytes := str s ++ replicate (n - String.length s) 0.
(** A connect by [alice] to the share [media]. *)
Definition alice_connect (session_id connect_id : Z) : tree_connect_request :=
  mk_treq 0 session_id connect_id (pad 256 "alice") (pad 64 "Media") (pad 64 "10.1.15.7").
Definition server0 (cap : Z) : wstate := mk_wstate no_shares ∅ ∅ 1 cap.
Definition media_group (kv : kvs) : smbconf_group := mk_group (str "media") kv.
(** The server with the one share that the keys describe. *)
Definition serve {T : Type} (A : Allocator) (cap : Z) (kv : kvs) (m : Allocator → prog wstate T) : outcome wstate T :=
  (on_shares (shm_add_new_share (H:=toy_glib) (H0:=total_system) (H1:=plenty) false false (media_group kv)) ;;
   m A) (server0 cap).
Definition connect (A : Allocator) : tree_connect_request → prog wstate (Z * tree_connect_response) :=
  tcm_handle_tree_connect (H:=toy_glib) (H0:=total_system) (H1:=A) KSMBD_CONF_MAP_TO_GUEST_NEVER None 0.

Lemma server0_ok cap : sessions_ok (H:=toy_glib) (λ _, 0) (λ _, 0) (server0 cap).
Proof.
  split; [split; [|done|done]|done| |by intros p []].
  - cbn. eapply shares_ok_ext; [| |exact no_shares_ok]; intros p; unfold count; reflexivity.
  - by intros p x.
Qed.
Lemma total_decode (b : bytes) :
  ∃ p, base64_decode (System:=total_system) b = Some p ∧ Z.of_nat (length p) ≤ INT_MAX.
Proof. exists []. split; [reflexivity|vm_compute; congruence]. Qed.

(** Two connects in one session: the second one loses its reference. *)
Definition toy_requests : list request :=
  [AddShare false false (media_group ∅); TreeConnect (alice_connect 7 1); TreeConnect (alice_connect 7 2);
   RemoveAllShares; TreeDisconnect 7 1].

(** Memory runs out for a session. *)
Definition no_session_memory : Allocator :=
  {| g_try_malloc n := negb (n =? sizeof_ksmbd_session); g_try_realloc _ := true |}.
Definition result {T : Type} (o : outcome wstate T) : option T :=
  match o with Done a _ => Some a | _ => None end.

(** A share that may have one connection and has it *)
Definition full_requests : list request :=
  [AddShare false false (media_group {[ str "max connections" := (str "max connections", str "1") ]}); TreeConnect (alice_connect 7 1)].
Lemma connection_limits_bypassed_witness :
  ∃ w x, for_each full_requests (handle (H:=toy_glib) (H0:=total_system) (H1:=plenty) 0 None 0) (server0 8) = Done tt w ∧
    ss_heap (ws_shares w) !! 1 = Some x ∧ sh_num_connections x = sh_max_connections x ∧
    wp (connect plenty (alice_connect 7 2)) w (λ r w', rs_status r.2 = KSMBD_TREE_CONN_STATUS_TOO_MANY_CONNS ∧
      wp (on_shares (shm_open_connection 1)) w' (λ r _, r = 0) (λ _ _, False)) (λ _ _, False).
Proof.
  assert (∃ w x, for_each full_requests (handle (H:=toy_glib) (H0:=total_system) (H1:=plenty) 0 None 0) (server0 8) = Done tt w ∧
    ss_table (ws_shares w) !! shm_casefold_share_name (H:=toy_glib) (cstr (rq_share (alice_connect 7 2))) = Some 1 ∧
    ss_heap (ws_shares w) !! 1 = Some x ∧ sh_num_connections x = 1 ∧ sh_max_connections x = 1) as (w & x & E & Ht & Hx & Hn & Hm).
  { do 2 eexists. split; [vm_compute; reflexivity|]. split_and!; vm_compute; reflexivity. }
  exists w, x. split; [exact E|]. split; [exact Hx|]. split; [congruence|].
  destruct (wp_Done _ _ _ _ _ _ (handle_all_wp (H:=toy_glib) (H0:=total_system) (H1:=plenty) (λ t, reflexivity (map_to_list t))
    eq_refl 0 None 0 total_decode (or_introl eq_refl) (λ _, 0) (λ _, 0) (server0 8) full_requests (server0_ok 8)) E) as (lost & Hok & _).
  refine (proj1 (connection_limits_bypassed (H:=toy_glib) (H0:=total_system) (H1:=plenty) (λ t, reflexivity (map_to_list t)) eq_refl
    KSMBD_CONF_MAP_TO_GUEST_NEVER None 0 _ _ w (alice_connect 7 2) 1 x Hok _) _ _); [|lia|congruence].
  split; [reflexivity..|exact Ht|exact Hx].
Defined.

(** When memory for the session runs out, the error path gives the
    share back twice, and the share disappears from the table while the
    configuration still has it; and when two threads create the same session,
    the second one frees the session of the first, which stays in the table, so
    that the next lookup touches freed memory. *)
Theorem session_error_paths :
  result (serve no_session_memory 8 ∅ (λ A,
    w <- get ;;
    r <- connect A (alice_connect 7 1) ;;
    w' <- get ;;
    ret (size (ss_table (ws_shares w)), rs_status r.2, size (ss_table (ws_shares w')))))
  = Some (1%nat, KSMBD_TREE_CONN_STATUS_ERROR, 0%nat) ∧
  (let race (A : Allocator) : prog wstate (option Z) :=
     user1 <- w_users (usm_lookup_user (Some (str "alice"))) ;;
     user2 <- w_users (usm_lookup_user (Some (str "alice"))) ;;
     sess1 <- sm_lookup_session 7 ;;
     new1 <- new_ksmbd_session (H1:=A) 7 (default 0 user1) ;;
     sm_handle_tree_connect (H:=toy_glib) (H1:=A) 1 7 (default 0 user2) (mk_conn 2 None 0) ;;
     sm_insert_session (H:=toy_glib) 7 (default 0 new1) in
   result (serve plenty 8 ∅ race) = Some None ∧
   serve plenty 8 ∅ (λ A, race A ;; sm_lookup_session 7) = Fault).
Proof. split; [|split]; vm_compute; reflexivity. Qed.
