(* ===== verification/Config.v ===== *)
(** * The configuration parser ([src/tools/config_parser.c])

    Lines of [ksmbd.conf] fill a table of groups; the group [global] then
    becomes the global configuration and every other group a share.  The
    table is keyed by the folded group name, as its hash and equality functions
    fold, and the pointers [current], [global] and [ipc] into it are keys.  An
    entry is a C string; what the tests overwrite in it is part of their
    result.  The other files (users, sub-authorities, lock) have their own
    entry functions.  File access is a parameter: the contents, or the error of
    [open]. *)

From S2P Require Import Prelude ConfText Refcount Users Shares.

(** ** Lines *)

(** [memchr]: the octets before the newline and those behind it. *)
Section Lines.
Context {S : Type}.
Variable process_entry : bytes → prog S unit.
(** The subauth and lock files have one entry. *)
Variable only_first : bool.

(** The loop with [len] and [contents]; [len] wraps to [(size_t)-1] behind a
    last line that has no newline. *)
Fixpoint parse_loop (fuel : nat) (len : Z) (contents : bytes) : prog S unit :=
  match fuel with
  | O => fault
  | Datatypes.S fuel =>
      if (0 <? len) && negb (len =? 2 ^ 64 - 1) then
        let n := match split_at 10 contents with
                 | Some (line, _) => length line
                 | None => Z.to_nat len
                 end in
        process_entry (cstr (take n contents)) ;;
        if only_first then ret tt
        else parse_loop fuel (u64 (len - (Z.of_nat n + 1))) (drop (n + 1) contents)
      else ret tt
  end.

(** [inl e]: [open] failed with [errno = e].  An empty file has no mapping. *)
Definition __mmap_parse_file (file : Z + bytes) : prog S unit :=
  match file with
  | inl e => fail (- e)
  | inr [] => process_entry []
  | inr contents => parse_loop (Datatypes.S (length contents)) (Z.of_nat (length contents)) contents
  end.
End Lines.

(** ** Groups *)

(** [struct smbconf_parser]; the groups by folded name. *)
Record smbconf_parser := mk_parser {
  pr_groups : gmap bytes smbconf_group;
  pr_current : option bytes;
  pr_global : option bytes;
  pr_ipc : option bytes;
}.
Definition new_parser : smbconf_parser := mk_parser ∅ None None None.

Section Parser.
Context `{GLib, System, Allocator}.

Definition is_a_group (entry : bytes) : bool :=
  match entry with
  | 91 :: entry =>
      match split_at 93 entry with
      | None => false
      | Some (name, rest) => shm_share_name name && cp_smbconf_eol (cp_ltrim rest)
      end
  | _ => false
  end.

(** The octets before the end of the line. *)
Fixpoint until_eol (v : bytes) : bytes :=
  match v with
  | [] => []
  | c :: v' => if cp_smbconf_eol v then [] else c :: until_eol v'
  end.
(** The entry as it is afterwards, cut behind the value; [None] is 0. *)
Definition is_a_key_value (p : smbconf_parser) (entry : bytes) : option bytes :=
  match split_at 61 entry with
  | None | Some ([], _) => None
  | Some (k, rest) =>
      if negb (forallb (λ c, cp_printable c && negb (cp_smbconf_eol [c])) k) then None
      else match pr_current p with
      | None => None
      | Some _ =>
          let v := cp_ltrim rest in
          if forallb cp_printable (until_eol v)
          then Some (k ++ 61 :: take (length rest - length v) rest ++ until_eol v)
          else None
      end
  end.

Definition add_group (entry : bytes) (p : smbconf_parser) : smbconf_parser :=
  let name := match split_at 93 (drop 1 entry) with Some (name, _) => name | None => [] end in
  let key := shm_casefold_share_name name in
  match pr_groups p !! key with
  | Some _ => mk_parser (pr_groups p) (Some key) (pr_global p) (pr_ipc p)
  | None =>
      let groups := <[key := mk_group name ∅]> (pr_groups p) in
      if bool_decide (pr_global p = None) && shm_share_name_equal name (str "global")
      then mk_parser groups (Some key) (Some key) (pr_ipc p)
      else if bool_decide (pr_ipc p = None) && shm_share_name_equal name (str "ipc$")
      then mk_parser groups (Some key) (pr_global p) (Some key)
      else mk_parser groups (Some key) (pr_global p) (pr_ipc p)
  end.

(** The key and the value of an entry; the first value of a key stays. *)
Definition kv_insert (entry : bytes) (kv : kvs) : kvs :=
  match split_at 61 entry with
  | None => kv
  | Some (before, after) =>
      let k := cp_rtrim before in
      let v := cp_ltrim after in
      if cp_smbconf_eol v then kv
      else match kv_lookup g_ascii_strdown kv k with
           | Some _ => kv
           | None => <[g_ascii_strdown k := (k, v)]> kv
           end
  end.
Definition upd_kv (f : kvs → kvs) (g : smbconf_group) : smbconf_group := mk_group (g_name g) (f (g_kv g)).
Definition add_group_key_value (entry : bytes) (p : smbconf_parser) : smbconf_parser :=
  match pr_current p with
  | None => p
  | Some key => mk_parser (alter (upd_kv (kv_insert entry)) key (pr_groups p))
                  (pr_current p) (pr_global p) (pr_ipc p)
  end.

Definition process_smbconf_entry (entry : bytes) : prog smbconf_parser unit :=
  let entry := cp_ltrim entry in
  if cp_smbconf_eol entry then ret tt
  else if is_a_group entry then modify (add_group entry)
  else
    p <- get ;;
    match is_a_key_value p entry with
    | Some entry => modify (add_group_key_value entry)
    | None => fail (- EINVAL)
    end.

(** ** Options from outside the file *)
Definition share_confs : list share_conf :=
  [CONF_COMMENT; CONF_PATH; CONF_GUEST_OK; CONF_GUEST_ACCOUNT; CONF_READ_ONLY; CONF_BROWSEABLE;
   CONF_WRITE_OK; CONF_WRITEABLE; CONF_STORE_DOS_ATTRIBUTES; CONF_OPLOCKS; CONF_CREATE_MASK;
   CONF_DIRECTORY_MASK; CONF_FORCE_CREATE_MODE; CONF_FORCE_DIRECTORY_MODE; CONF_FORCE_GROUP;
   CONF_FORCE_USER; CONF_HIDE_DOT_FILES; CONF_VALID_USERS; CONF_INVALID_USERS; CONF_READ_LIST;
   CONF_WRITE_LIST; CONF_ADMIN_USERS; CONF_HOSTS_ALLOW; CONF_HOSTS_DENY; CONF_MAX_CONNECTIONS;
   CONF_VETO_FILES; CONF_INHERIT_OWNER; CONF_FOLLOW_SYMLINKS; CONF_VFS_OBJECTS; CONF_WRITABLE;
   CONF_CROSSMNT; CONF_FRUIT_TIME_MACHINE; CONF_FRUIT_TIME_MACHINE_MAX_SIZE; CONF_FRUIT_FINDER_INFO;
   CONF_FRUIT_RFORK_SIZE; CONF_FRUIT_MAX_ACCESS; CONF_CONTINUOUS_AVAILABILITY; CONF_STREAMS;
   CONF_ACL_XATTR].
Definition KSMBD_SHARE_CONF_IS_GLOBAL (c : share_conf) : bool :=
  bool_decide (c = CONF_GUEST_ACCOUNT) || bool_decide (c = CONF_MAX_CONNECTIONS).
Definition KSMBD_SHARE_DEFCONF (c : share_conf) : bytes :=
  str match c with
  | CONF_GUEST_OK => "no" | CONF_READ_ONLY => "; yes" | CONF_BROWSEABLE => "yes"
  | CONF_STORE_DOS_ATTRIBUTES => "yes" | CONF_OPLOCKS => "yes" | CONF_CREATE_MASK => "0744"
  | CONF_DIRECTORY_MASK => "0755" | CONF_FORCE_CREATE_MODE => "0000"
  | CONF_FORCE_DIRECTORY_MODE => "0000" | CONF_HIDE_DOT_FILES => "yes"
  | CONF_MAX_CONNECTIONS => "128" | CONF_INHERIT_OWNER => "no" | CONF_FOLLOW_SYMLINKS => "no"
  | CONF_CROSSMNT => "yes" | CONF_FRUIT_TIME_MACHINE => "no"
  | CONF_FRUIT_TIME_MACHINE_MAX_SIZE => "0" | CONF_FRUIT_FINDER_INFO => "yes"
  | CONF_FRUIT_RFORK_SIZE => "no" | CONF_FRUIT_MAX_ACCESS => "yes"
  | CONF_CONTINUOUS_AVAILABILITY => "no" | CONF_STREAMS => "no" | CONF_ACL_XATTR => "no"
  | _ => ""
  end%string.

Definition external_option (is_global : bool) (option : bytes) (p : smbconf_parser) : smbconf_parser :=
  let option := cp_ltrim option in
  if cp_smbconf_eol option then p
  else match is_a_key_value p option with
  | None => p
  | Some option =>
      let opt_key := g_strstrip (match split_at 61 option with Some (k, _) => k | None => [] end) in
      match list_find (λ c, (negb is_global || negb (KSMBD_SHARE_CONF_IS_GLOBAL c)) &&
                            shm_share_config opt_key c = true) share_confs with
      | Some (_, c) =>
          let remove := upd_kv (delete (g_ascii_strdown (KSMBD_SHARE_CONF c))) in
          add_group_key_value option
            (match pr_current p with
             | None => p
             | Some key => mk_parser (alter remove key (pr_groups p)) (pr_current p) (pr_global p) (pr_ipc p)
             end)
      | None => p
      end
  end.
Definition cp_parse_external_smbconf_group (name : bytes) (options : list bytes) (p : smbconf_parser)
    : smbconf_parser :=
  let p := add_group (91 :: name ++ [93]) p in
  let is_global := bool_decide (pr_current p = pr_global p) in
  foldl (λ p option, external_option is_global option p) p options.
End Parser.

(** [tool_main]: which of the programs runs. *)
Inductive tool_main := ADDSHARE | ADDUSER | CONTROL | MOUNTD.

(** ** The global configuration *)

(** The members of [struct smbconf_global] that the parser sets: integers and
    strings by member, and the list of interfaces. *)
Inductive gint :=
  | FLAGS | MAP_TO_GUEST | SERVER_SIGNING | SESSIONS_CAP | RESTRICT_ANON | TCP_PORT | IPC_TIMEOUT
  | DEADTIME | BIND_INTERFACES_ONLY | FILE_MAX | SMB2_MAX_READ | SMB2_MAX_WRITE | SMB2_MAX_TRANS
  | SMB2_MAX_CREDITS | SMBD_MAX_IO_SIZE | MAX_CONNECTIONS | MAX_IP_CONNECTIONS | SHARE_FAKE_FSCAPS
  | KRB5_SUPPORT | MAX_WORKER_THREADS | TCP_RECV_TIMEOUT | TCP_SEND_TIMEOUT | QUIC_RECV_TIMEOUT
  | QUIC_SEND_TIMEOUT | QUIC_HANDSHAKE_DELEGATE | MAX_LOCK_COUNT | MAX_BUFFER_SIZE
  | SESSION_TIMEOUT | DURABLE_HANDLE_TIMEOUT | MAX_INFLIGHT_REQ | MAX_ASYNC_CREDITS | MAX_SESSIONS
  | SMB1_MAX_MPX.
Inductive gstr :=
  | GUEST_ACCOUNT | SERVER_STRING | WORK_GROUP | NETBIOS_NAME | SERVER_MIN_PROTOCOL
  | SERVER_MAX_PROTOCOL | ROOT_DIR | KRB5_KEYTAB_FILE | KRB5_SERVICE_NAME | FRUIT_MODEL
  | QUIC_TLS_CERT | QUIC_TLS_KEY.
#[export] Instance gint_eq_dec : EqDecision gint.
Proof. solve_decision. Defined.
#[export] Instance gstr_eq_dec : EqDecision gstr.
Proof. solve_decision. Defined.

Record smbconf_global := mk_global {
  gc_int : gint → Z;
  gc_str : gstr → option bytes;
  gc_interfaces : list bytes;
}.
(** [global_conf] at the start: zeroes and NULLs. *)
Definition zero_global : smbconf_global := mk_global (λ _, 0) (λ _, None) [].
Definition set_int (f : gint) (v : Z) (g : smbconf_global) : smbconf_global :=
  mk_global (λ f', if decide (f' = f) then v else gc_int g f') (gc_str g) (gc_interfaces g).
Definition set_str (f : gstr) (v : bytes) (g : smbconf_global) : smbconf_global :=
  mk_global (gc_int g) (λ f', if decide (f' = f) then Some v else gc_str g f') (gc_interfaces g).
Definition set_interfaces (v : list bytes) (g : smbconf_global) : smbconf_global :=
  mk_global (gc_int g) (gc_str g) v.

Definition KSMBD_GLOBAL_FLAG_SMB2_LEASES : Z := BIT 0.
Definition KSMBD_GLOBAL_FLAG_SMB2_ENCRYPTION : Z := BIT 1.
Definition KSMBD_GLOBAL_FLAG_SMB3_MULTICHANNEL : Z := BIT 2.
Definition KSMBD_GLOBAL_FLAG_SMB2_ENCRYPTION_OFF : Z := BIT 3.
Definition KSMBD_GLOBAL_FLAG_DURABLE_HANDLE : Z := BIT 4.
Definition KSMBD_GLOBAL_FLAG_FRUIT_EXTENSIONS : Z := BIT 5.
Definition KSMBD_GLOBAL_FLAG_FRUIT_ZERO_FILEID : Z := BIT 6.
Definition KSMBD_GLOBAL_FLAG_FRUIT_NFS_ACES : Z := BIT 7.
Definition KSMBD_GLOBAL_FLAG_FRUIT_COPYFILE : Z := BIT 8.
Definition KSMBD_CONF_MAX_OPEN_FILES : Z := 65536.
Definition KSMBD_CONF_MAX_ACTIVE_SESSIONS : Z := 65536.

Section Global.
Context `{GLib, System, Allocator}.
(** [ksmbd_health_status & KSMBD_SHOULD_RELOAD_CONFIG] *)
Variable reload_config : bool.

(** The users, the group's table and [global_conf]. *)
Record gstate := mk_gstate { gs_users : ustate; gs_kv : kvs; gs_conf : smbconf_global }.
Definition set_gs_users (u : ustate) (s : gstate) : gstate := mk_gstate u (gs_kv s) (gs_conf s).
Definition upd_conf (f : smbconf_global → smbconf_global) : prog gstate unit :=
  modify (λ s, mk_gstate (gs_users s) (gs_kv s) (f (gs_conf s))).

(** On a reload the key is removed and its value not used. *)
Definition group_kv_steal (lookup : string) : prog gstate (option bytes) := λ s,
  let '(v, kv) := cp_group_kv_steal g_ascii_strdown (gs_kv s) (str lookup) in
  Done (if reload_config then None else v) (mk_gstate (gs_users s) kv (gs_conf s)).
Definition on_gkv (lookup : string) (f : bytes → smbconf_global → smbconf_global) : prog gstate unit :=
  v <- group_kv_steal lookup ;; match v with Some v => upd_conf (f v) | None => ret tt end.

Definition gstr_kv (lookup : string) (f : gstr) : prog gstate unit := on_gkv lookup (set_str f).
(** A value of [conv], assigned to a member of the type that [cast] wraps to. *)
Definition gint_kv (lookup : string) (conv : bytes → Z) (cast : Z → Z) (f : gint) : prog gstate unit :=
  on_gkv lookup (λ v, set_int f (cast (conv v))).
Definition gbool_kv (lookup : string) (f : gint) : prog gstate unit :=
  on_gkv lookup (λ v, set_int f (if cp_get_group_kv_bool g_ascii_strdown v then 1 else 0)).
Definition gflag_kv (lookup : string) (flag : Z) : prog gstate unit :=
  on_gkv lookup (λ v g, set_int FLAGS
    (if cp_get_group_kv_bool g_ascii_strdown v then set_flag (gc_int g FLAGS) flag
     else clear_flag (gc_int g FLAGS) flag) g).
(** A count: 0 and values over the limit become the limit. *)
Definition glimit_kv (lookup : string) (conv : bytes → Z) (cast : Z → Z) (limit : Z) (f : gint)
    : prog gstate unit :=
  on_gkv lookup (λ v, set_int f
    (let n := cast (conv v) in if (n =? 0) || (limit <? n) then limit else n)).

Definition encryption (v : bytes) (g : smbconf_global) : smbconf_global :=
  let opt := cp_get_group_kv_config_opt g_ascii_strdown v in
  let on := KSMBD_GLOBAL_FLAG_SMB2_ENCRYPTION in
  let off := KSMBD_GLOBAL_FLAG_SMB2_ENCRYPTION_OFF in
  set_int FLAGS
    (if opt =? KSMBD_CONFIG_OPT_DISABLED then clear_flag (set_flag (gc_int g FLAGS) off) on
     else if opt =? KSMBD_CONFIG_OPT_MANDATORY then clear_flag (set_flag (gc_int g FLAGS) on) off
     else clear_flag (clear_flag (gc_int g FLAGS) on) off) g.

(** The statements of [process_global_conf_kv] in three parts: up to the guest
    account, up to the root directory, and the rest. *)
Definition global_kv_begin : prog gstate unit :=
  gstr_kv "server string" SERVER_STRING ;;
  gstr_kv "workgroup" WORK_GROUP ;;
  gstr_kv "netbios name" NETBIOS_NAME ;;
  gstr_kv "server min protocol" SERVER_MIN_PROTOCOL ;;
  on_gkv "server signing" (λ v, set_int SERVER_SIGNING (cp_get_group_kv_config_opt g_ascii_strdown v)) ;;
  gstr_kv "server max protocol" SERVER_MAX_PROTOCOL ;;
  gstr_kv "guest account" GUEST_ACCOUNT ;;
  s <- get ;;
  match gc_str (gs_conf s) GUEST_ACCOUNT with
  | None => fault
  | Some guest_account =>
      zoom gs_users set_gs_users
        (usm_add_guest_account base64_decode getpwnam getgrouplist guest_account)
        else_return (- EINVAL)
  end.
Definition global_kv_limits : prog gstate unit :=
  on_gkv "max active sessions" (λ v, set_int SESSIONS_CAP
    (let n := s32 (cp_get_group_kv_long v) in
     if (n <=? 0) || (KSMBD_CONF_MAX_ACTIVE_SESSIONS <? n) then KSMBD_CONF_MAX_ACTIVE_SESSIONS else n)) ;;
  on_gkv "tcp port" (λ v g,
    if gc_int g TCP_PORT =? 0
    then set_int TCP_PORT (let n := u16 (cp_get_group_kv_long v) in if 65535 <? n then 445 else n) g
    else g) ;;
  on_gkv "ipc timeout" (λ v, set_int IPC_TIMEOUT
    (let n := u16 (cp_get_group_kv_long v) in if 65535 <? n then 0 else n)) ;;
  glimit_kv "max open files" cp_get_group_kv_long u64 KSMBD_CONF_MAX_OPEN_FILES FILE_MAX ;;
  on_gkv "restrict anonymous" (λ v, set_int RESTRICT_ANON
    (let n := s32 (cp_get_group_kv_long v) in if negb (n =? 1) && negb (n =? 2) then 0 else n)) ;;
  on_gkv "map to guest" (λ v, set_int MAP_TO_GUEST
    (if key_equal g_ascii_strdown v (str "bad user")
     then KSMBD_CONF_MAP_TO_GUEST_BAD_USER else KSMBD_CONF_MAP_TO_GUEST_NEVER)) ;;
  gbool_kv "bind interfaces only" BIND_INTERFACES_ONLY ;;
  on_gkv "interfaces" (λ v, set_interfaces (g_strsplit_set v)) ;;
  gint_kv "deadtime" cp_get_group_kv_long u32 DEADTIME ;;
  gflag_kv "smb2 leases" KSMBD_GLOBAL_FLAG_SMB2_LEASES ;;
  gstr_kv "root directory" ROOT_DIR.
Definition global_kv_smb : prog gstate unit :=
  gint_kv "smb2 max read" cp_memparse u32 SMB2_MAX_READ ;;
  gint_kv "smb2 max write" cp_memparse u32 SMB2_MAX_WRITE ;;
  gint_kv "smb2 max trans" cp_memparse u32 SMB2_MAX_TRANS ;;
  on_gkv "smb3 encryption" encryption ;;
  gint_kv "share:fake_fscaps" cp_get_group_kv_long u32 SHARE_FAKE_FSCAPS ;;
  gstr_kv "kerberos service name" KRB5_SERVICE_NAME ;;
  gstr_kv "kerberos keytab file" KRB5_KEYTAB_FILE ;;
  gbool_kv "kerberos support" KRB5_SUPPORT ;;
  gflag_kv "server multi channel support" KSMBD_GLOBAL_FLAG_SMB3_MULTICHANNEL ;;
  gint_kv "smb2 max credits" cp_memparse u32 SMB2_MAX_CREDITS ;;
  gint_kv "smbd max io size" cp_memparse u32 SMBD_MAX_IO_SIZE ;;
  glimit_kv "max connections" cp_memparse u32 KSMBD_CONF_MAX_CONNECTIONS MAX_CONNECTIONS ;;
  gflag_kv "durable handles" KSMBD_GLOBAL_FLAG_DURABLE_HANDLE ;;
  gflag_kv "fruit extensions" KSMBD_GLOBAL_FLAG_FRUIT_EXTENSIONS ;;
  gstr_kv "fruit model" FRUIT_MODEL ;;
  gflag_kv "fruit zero file id" KSMBD_GLOBAL_FLAG_FRUIT_ZERO_FILEID ;;
  gflag_kv "fruit nfs aces" KSMBD_GLOBAL_FLAG_FRUIT_NFS_ACES ;;
  gflag_kv "fruit copyfile" KSMBD_GLOBAL_FLAG_FRUIT_COPYFILE ;;
  glimit_kv "max ip connections" cp_memparse u32 KSMBD_CONF_MAX_CONNECTIONS MAX_IP_CONNECTIONS ;;
  on_gkv "max worker threads" (λ v, set_int MAX_WORKER_THREADS
    (let n := s32 (cp_get_group_kv_long v) in
     let n := if n <? 1 then 4 else n in if 64 <? n then 64 else n)).
(** Optional server limits. *)
Definition global_kv_optional : prog gstate unit :=
  gint_kv "tcp recv timeout" cp_get_group_kv_long u32 TCP_RECV_TIMEOUT ;;
  gint_kv "tcp send timeout" cp_get_group_kv_long u32 TCP_SEND_TIMEOUT ;;
  gint_kv "quic recv timeout" cp_get_group_kv_long u32 QUIC_RECV_TIMEOUT ;;
  gint_kv "quic send timeout" cp_get_group_kv_long u32 QUIC_SEND_TIMEOUT ;;
  gbool_kv "quic handshake delegate" QUIC_HANDSHAKE_DELEGATE ;;
  gstr_kv "quic tls cert" QUIC_TLS_CERT ;;
  gstr_kv "quic tls key" QUIC_TLS_KEY ;;
  gint_kv "max lock count" cp_get_group_kv_long u32 MAX_LOCK_COUNT ;;
  gint_kv "max buffer size" cp_memparse u32 MAX_BUFFER_SIZE ;;
  gint_kv "session timeout" cp_get_group_kv_long u32 SESSION_TIMEOUT ;;
  gint_kv "durable handle timeout" cp_get_group_kv_long u32 DURABLE_HANDLE_TIMEOUT ;;
  gint_kv "max inflight requests" cp_get_group_kv_long u32 MAX_INFLIGHT_REQ ;;
  gint_kv "max async credits" cp_get_group_kv_long u32 MAX_ASYNC_CREDITS ;;
  gint_kv "max sessions" cp_get_group_kv_long u32 MAX_SESSIONS ;;
  gint_kv "smb1 max mpx" cp_get_group_kv_long u32 SMB1_MAX_MPX.
Definition process_global_conf_kv : prog gstate unit :=
  global_kv_begin ;; global_kv_limits ;; global_kv_smb ;; global_kv_optional.
End Global.

(** ** Finishing *)
Section Finish.
Context `{GLib, System, Allocator}.
Variable reload_config : bool.
(** The order in which a walk over the groups meets them. *)
Variable group_order : gmap bytes smbconf_group → list (bytes * smbconf_group).

(** The shares (with the users) and [global_conf]. *)
Record cstate := mk_cstate { cs_shares : sstate; cs_conf : smbconf_global }.
Definition set_cs_shares (v : sstate) (s : cstate) : cstate := mk_cstate v (cs_conf s).

Definition add_group_global_conf (p : smbconf_parser) : smbconf_parser :=
  if reload_config then p
  else foldl (λ p e, add_group_key_value (str e) p) p
    ["guest account = nobody"; "max active sessions = 1024"; "max connections = 256";
     "max ip connections = 32"; "max open files = 10000"; "netbios name = KSMBD SERVER";
     "server string = SMB SERVER"; "share:fake_fscaps = 64"; "tcp port = 445";
     "workgroup = WORKGROUP"; "fruit extensions = yes"; "fruit model = Xserve";
     "fruit zero file id = yes"; "max worker threads = 4"; "server signing = auto"]%string.
Definition add_group_ipc_share_conf (p : smbconf_parser) : smbconf_parser :=
  add_group_key_value (str "guest ok = yes") (add_group_key_value (str "comment = IPC share") p).

(** One turn of [steal_global_share_conf_kv]: the value of the global group, or
    the default, goes to every other group that has none. *)
Definition inherit_conf (c : share_conf) (gkv : kvs) (groups : gmap bytes smbconf_group)
    (global : option bytes) : kvs * gmap bytes smbconf_group :=
  if KSMBD_SHARE_CONF_IS_BROKEN c then (gkv, groups)
  else
    let '(kv, gkv) :=
      if KSMBD_SHARE_CONF_IS_GLOBAL c then (None, gkv)
      else let fk := g_ascii_strdown (KSMBD_SHARE_CONF c) in (gkv !! fk, delete fk gkv) in
    let '(k, v) := default (KSMBD_SHARE_CONF c, KSMBD_SHARE_DEFCONF c) kv in
    let entry := k ++ str " = " ++ v in
    (gkv, map_imap (λ key g, Some (if decide (Some key = global) then g
                                   else upd_kv (kv_insert entry) g)) groups).
Definition steal_global_share_conf_kv (gkv : kvs) (groups : gmap bytes smbconf_group)
    (global : option bytes) : kvs * gmap bytes smbconf_group :=
  foldl (λ '(gkv, groups) c, inherit_conf c gkv groups global) (gkv, groups) share_confs.

(** The walk that makes shares of the groups: the last error wins. *)
Fixpoint add_shares (p : smbconf_parser) (l : list (bytes * smbconf_group)) (code : Z) : prog cstate Z :=
  match l with
  | [] => ret code
  | (key, g) :: l =>
      if decide (Some key = pr_global p) then add_shares p l code
      else
        r <- zoom cs_shares set_cs_shares
               (shm_add_new_share reload_config (bool_decide (Some key = pr_ipc p)) g) ;;
        add_shares p l (if r =? 0 then code else - EINVAL)
  end.

(** Returned code; the group [global] exists after [add_group]. *)
Definition finalize_smbconf_parser (p : smbconf_parser) : prog cstate Z :=
  let p := add_group_global_conf (add_group (str "[global]") p) in
  match pr_global p ≫= λ key, pr_groups p !! key with
  | None => fault
  | Some global =>
      s <- get ;;
      match process_global_conf_kv reload_config (mk_gstate (ss_users (cs_shares s)) (g_kv global) (cs_conf s)) with
      | Fault => fault
      | Err e g => modify (λ s, mk_cstate (set_ss_users (gs_users g) (cs_shares s)) (gs_conf g)) ;; ret e
      | Done _ g =>
          modify (λ s, mk_cstate (set_ss_users (gs_users g) (cs_shares s)) (gs_conf g)) ;;
          let p := add_group_ipc_share_conf (add_group (str "[ipc$]") p) in
          let '(_, groups) := steal_global_share_conf_kv (gs_kv g) (pr_groups p) (pr_global p) in
          add_shares p (group_order groups) 0
      end
  end.

(** The running program, and [set_conf_contents(path, contents)]. *)
Variable tool : tool_main.
Variable set_conf_contents : bytes → Z.

(** What becomes of the result of [__mmap_parse_file] when the file is
    missing. *)
Definition smbconf_missing (ret : Z) : Z :=
  if ret =? - ENOENT
  then match tool with ADDSHARE => set_conf_contents [] | MOUNTD => ret | _ => 0 end
  else ret.
(** [cp_parse_smbconf] when there is no parser yet: it owns the one it makes. *)
Definition cp_parse_smbconf_owner (file : Z + bytes) : prog cstate Z := λ s,
  match __mmap_parse_file process_smbconf_entry false file new_parser with
  | Fault => Fault
  | Done _ p => finalize_smbconf_parser p s
  | Err e p => if smbconf_missing e =? 0 then finalize_smbconf_parser p s
               else Done (smbconf_missing e) s
  end.
(** And when there is one: the file is read into it, which stays, and read
    again by an owner.  [created]: the file after [set_conf_contents]. *)
Definition cp_parse_smbconf (p : option smbconf_parser) (file created : Z + bytes)
    : prog cstate (Z * option smbconf_parser) := λ s,
  match p with
  | None => (r <- cp_parse_smbconf_owner file ;; ret (r, None)) s
  | Some p =>
      match __mmap_parse_file process_smbconf_entry false file p with
      | Fault => Fault
      | Done _ p => (r <- cp_parse_smbconf_owner file ;; ret (r, Some p)) s
      | Err e p => if smbconf_missing e =? 0
                   then (r <- cp_parse_smbconf_owner created ;; ret (r, Some p)) s
                   else Done (smbconf_missing e, Some p) s
      end
  end.

(** ** The user database *)

(** The octets of a base64 text. *)
Definition base64_char (c : Z) : bool :=
  ((48 <=? c) && (c <=? 57)) || ((65 <=? c) && (c <=? 90)) || ((97 <=? c) && (c <=? 122)) ||
  (c =? 43) || (c =? 47).
Fixpoint drop_pads (r : bytes) : bytes :=
  match r with 61 :: r => drop_pads r | _ => r end.
Definition is_a_user_password (entry : bytes) : bool :=
  match split_at 58 entry with
  | None => false
  | Some (name, pwd) =>
      usm_user_name g_utf8_validate name &&
      (let body := reverse (drop_pads (reverse pwd)) in
       (0 <? length body)%nat && forallb base64_char body)
  end.
Definition add_user_password (entry : bytes) : prog ustate unit :=
  match split_at 58 entry with
  | None => fault
  | Some (name, pwd) =>
      user <- usm_lookup_user (Some name) ;;
      match user with
      | Some p => usm_update_user_password base64_decode p pwd ;; put_ksmbd_user (Some p)
      | None => ignore (usm_add_new_user base64_decode getpwnam getgrouplist name pwd)
      end
  end.
Definition process_pwddb_entry (entry : bytes) : prog ustate unit :=
  if cp_pwddb_eol entry then ret tt
  else if is_a_user_password entry then add_user_password entry
  else fail (- EINVAL).
(** A missing file is an empty database. *)
Definition cp_parse_pwddb (file : Z + bytes) : prog ustate Z := λ s,
  match __mmap_parse_file process_pwddb_entry false file s with
  | Fault => Fault
  | Done _ s' => Done 0 s'
  | Err e s' =>
      Done (if e =? - ENOENT then match tool with ADDUSER => set_conf_contents [] | _ => 0 end else e) s'
  end.
End Finish.

(** ** Sub-authorities and the lock file *)
Definition is_digit (c : Z) : bool := (48 <=? c) && (c <=? 57).
Definition num_subauth : nat := 3.
(** The part up to the delimiter of the [i]-th number: [':'], or the end. *)
Definition field (last : bool) (entry : bytes) : option (bytes * bytes) :=
  if last then Some (entry, []) else split_at 58 entry.
Fixpoint is_a_subauth_from (n : nat) (entry : bytes) : bool :=
  match n with
  | O => true
  | S n =>
      match field (n =? 0)%nat entry with
      | None | Some ([], _) => false
      | Some (digits, rest) => forallb is_digit digits && is_a_subauth_from n rest
      end
  end.
Definition is_a_subauth (entry : bytes) : bool := is_a_subauth_from num_subauth entry.
(** [gen_subauth[i] *= 10; gen_subauth[i] += *entry - '0'], 32 bits wide *)
Definition add_digit (acc c : Z) : Z := u32 (u32 (acc * 10) + (c - 48)).
(** [strchr] of a missing delimiter would be NULL and end the loop at once. *)
Fixpoint add_subauth_from (n : nat) (entry : bytes) : list Z :=
  match n with
  | O => []
  | S n =>
      match field (n =? 0)%nat entry with
      | None => 0 :: add_subauth_from n (drop 1 entry)
      | Some (digits, rest) => foldl add_digit 0 digits :: add_subauth_from n rest
      end
  end.
Definition add_subauth (entry : bytes) : list Z := add_subauth_from num_subauth entry.
(** The state is [global_conf.gen_subauth]. *)
Definition process_subauth_entry (entry : bytes) : prog (list Z) unit :=
  if is_a_subauth entry then modify (λ _, add_subauth entry) else fail (- EINVAL).
(** The numbers of [g_rand_int], one per [%u%c], ':' between them and a newline
    at the end. *)
Fixpoint subauth_text (rs : list Z) : bytes :=
  match rs with
  | [] => []
  | [r] => print_uint r ++ [10]
  | r :: rs => print_uint r ++ 58 :: subauth_text rs
  end.
(** The text without its newline. *)
Definition without_newline (text : bytes) : bytes :=
  match split_at 10 text with Some (line, _) => line | None => text end.
Definition cp_parse_subauth (tool : tool_main) (set_conf_contents : bytes → Z) (rand : list Z)
    (file : Z + bytes) : prog (list Z) Z := λ s,
  match __mmap_parse_file process_subauth_entry true file s with
  | Fault => Fault
  | Done _ s => Done 0 s
  | Err e s =>
      match tool with
      | MOUNTD =>
          let contents := subauth_text (take num_subauth rand) in
          let ret := if e =? - ENOENT then set_conf_contents contents else e in
          Done ret (add_subauth (without_newline contents))
      | _ => Done e s
      end
  end.

(** [pid *= 10; pid += *entry - '0'] on a [pid_t]: a signed overflow is
    undefined. *)
Fixpoint pid_of (acc : Z) (entry : bytes) : prog Z Z :=
  match entry with
  | [] => ret acc
  | c :: entry =>
      if (INT_MAX <? acc * 10) || (INT_MAX <? acc * 10 + (c - 48)) then fault
      else pid_of (acc * 10 + (c - 48)) entry
  end.
Section Lock.
(** [kill(pid, 0)] succeeds, [verify_mountd_pid(pid)], and the running program. *)
Variable alive : Z → bool.
Variable verify_mountd_pid : Z → bool.
Variable tool : tool_main.

(** The digits are read and checked one by one. *)
Fixpoint lock_pid (acc : Z) (entry : bytes) : prog Z (option Z) :=
  match entry with
  | [] => ret (Some acc)
  | c :: entry =>
      if negb (is_digit c) then ret None
      else if (INT_MAX <? acc * 10) || (INT_MAX <? acc * 10 + (c - 48)) then fault
      else lock_pid (acc * 10 + (c - 48)) entry
  end.
Definition is_a_lock (entry : bytes) : prog Z bool :=
  match entry with
  | [] => ret false
  | _ =>
      pid <- lock_pid 0 entry ;;
      match pid with
      | None => ret false
      | Some pid => ret ((1 <? pid) && alive pid && verify_mountd_pid pid)
      end
  end.
Definition add_lock (entry : bytes) : prog Z unit :=
  pid <- pid_of 0 entry ;; modify (λ _, pid).
Definition process_lock_entry (entry : bytes) : prog Z unit :=
  b <- is_a_lock entry ;;
  if b : bool then match tool with MOUNTD => fail (- EAGAIN) | _ => add_lock entry end
  else fail (- EINVAL).
(** The state is [global_conf.pid]; [getpid()] is positive. *)
Definition cp_parse_lock (set_conf_contents : bytes → Z) (getpid : Z) (file : Z + bytes) : prog Z Z := λ s,
  match __mmap_parse_file process_lock_entry true file s with
  | Fault => Fault
  | Done _ s => Done 0 s
  | Err e s =>
      match tool with
      | MOUNTD =>
          let contents := print_uint getpid ++ [10] in
          let ret := if (e =? - ENOENT) || (e =? - EINVAL) then set_conf_contents contents else e in
          (add_lock (without_newline contents) ;; Prelude.ret ret) s
      | _ => Done e s
      end
  end.
End Lock.

(** ** Lines and the loop over them *)

(** Reference definition: the lines of a text; a last line needs no newline. *)
Fixpoint lines_from (cur : bytes) (text : bytes) : list bytes :=
  match text with
  | [] => match cur with [] => [] | _ => [reverse cur] end
  | c :: text => if c =? 10 then reverse cur :: lines_from [] text else lines_from (c :: cur) text
  end.
Definition lines (text : bytes) : list bytes := lines_from [] text.

Lemma lines_from_app cur a rest :
  Forall (λ x, x ≠ 10) a → lines_from cur (a ++ rest) = lines_from (reverse a ++ cur) rest.
Proof.
  intros Ha. revert cur. induction Ha as [|x a Hx _ IH]; intros cur; [done|]. cbn [app lines_from].
  rewrite (proj2 (Z.eqb_neq _ _)), IH, reverse_cons, <-app_assoc by done. done.
Qed.
Lemma lines_cons a rest : Forall (λ x, x ≠ 10) a → lines (a ++ 10 :: rest) = a :: lines rest.
Proof.
  intros Ha. unfold lines. rewrite lines_from_app by done. cbn [lines_from].
  by rewrite Z.eqb_refl, app_nil_r, reverse_involutive.
Qed.
Lemma lines_last a : a ≠ [] → Forall (λ x, x ≠ 10) a → lines a = [a].
Proof.
  intros Hne Ha. unfold lines. rewrite <-(app_nil_r a) at 1. rewrite lines_from_app by done.
  cbn [lines_from]. rewrite app_nil_r. destruct (reverse a) eqn:E.
  - by apply (f_equal reverse) in E; rewrite reverse_involutive in E.
  - by rewrite <-E, reverse_involutive.
Qed.

Section LinesSpec.
Context {S : Type} (process_entry : bytes → prog S unit).

Lemma parse_loop_spec fuel contents s :
  (length contents < fuel)%nat → Z.of_nat (length contents) < 2 ^ 63 →
  parse_loop process_entry false fuel (Z.of_nat (length contents)) contents s =
  for_each (lines contents) (λ l, process_entry (cstr l)) s.
Proof.
  revert contents s. induction fuel as [|fuel IH]; intros contents s Hf Hlen; [lia|].
  cbn [parse_loop]. destruct contents as [|c0 contents0]; [done|].
  set (contents := c0 :: contents0) in *.
  assert (0 < Z.of_nat (length contents)) as Hpos by (unfold contents; cbn [length]; lia).
  rewrite (proj2 (Z.ltb_lt _ _)), (proj2 (Z.eqb_neq _ _)) by lia.
  cbn [andb negb]. destruct (split_at 10 contents) as [[a b]|] eqn:E.
  - apply split_at_Some in E as [E Ha]. rewrite E, lines_cons by done. cbn [for_each].
    rewrite take_app_length. unfold bind. destruct (process_entry (cstr a) s) as [[] s'|?|]; [|done..].
    replace (length a + 1)%nat with (length (a ++ [10])) by (rewrite length_app; cbn; lia).
    replace (a ++ 10 :: b) with ((a ++ [10]) ++ b) by by rewrite <-app_assoc.
    rewrite drop_app_length, length_app.
    assert (length contents = (length a + 1 + length b)%nat) as Hl by (rewrite E, length_app; cbn; lia).
    replace (u64 _) with (Z.of_nat (length b)); [apply IH; lia|].
    rewrite length_app. cbn [length]. rewrite u64_small; lia.
  - apply split_at_None in E. rewrite lines_last by done. cbn [for_each].
    rewrite Nat2Z.id, take_ge by lia. unfold bind.
    destruct (process_entry (cstr contents) s) as [[] s'|?|]; [|done..].
    replace (u64 _) with (2 ^ 64 - 1).
    + destruct fuel; [cbn in Hf; lia|]. by cbn [parse_loop].
    + change (2 ^ 64 - 1) with (u64 (-1)). f_equal. lia.
Qed.

Lemma mmap_parse_file_eq contents s :
  Z.of_nat (length contents) < 2 ^ 63 →
  __mmap_parse_file process_entry false (inr contents) s =
  for_each (match contents with [] => [[]] | _ => lines contents end)
    (λ l, process_entry (cstr l)) s.
Proof.
  intros Hlen. destruct contents as [|c contents]; cbn [__mmap_parse_file for_each].
  - unfold bind, ret. cbn [cstr]. by destruct (process_entry [] s) as [[] ?|?|].
  - apply parse_loop_spec; lia.
Qed.
(** C35 (termination): the loop over a mapped file ends for every content, also
    where the length wraps behind a last line without a newline, and has
    processed the lines of the file in order up to the first that is refused;
    an empty file is one empty entry. *)
Theorem mmap_parse_file_lines contents s :
  Z.of_nat (length contents) < 2 ^ 63 →
  __mmap_parse_file process_entry false (inr contents) s =
  for_each (match contents with [] => [[]] | _ => lines contents end)
    (λ l, process_entry (cstr l)) s.
Proof. apply mmap_parse_file_eq. Qed.
End LinesSpec.
Lemma mmap_parse_file_lines_witness :
  __mmap_parse_file (λ l, modify (λ acc, acc ++ [l])) false (inr (str "ab" ++ [10; 10] ++ str "c")) []
    = Done tt [str "ab"; []; str "c"].
Proof.
  rewrite (mmap_parse_file_lines _ (str "ab" ++ [10; 10] ++ str "c") []).
  - reflexivity.
  - vm_compute. reflexivity.
Defined.

(** ** The global configuration is in bounds *)
Definition between (lo hi x : Z) : Prop := lo ≤ x ≤ hi.
Definition conf_ok (g : smbconf_global) : Prop :=
  between 0 KSMBD_CONF_MAX_ACTIVE_SESSIONS (gc_int g SESSIONS_CAP) ∧
  between 0 KSMBD_CONF_MAX_OPEN_FILES (gc_int g FILE_MAX) ∧
  between 0 KSMBD_CONF_MAX_CONNECTIONS (gc_int g MAX_CONNECTIONS) ∧
  between 0 KSMBD_CONF_MAX_CONNECTIONS (gc_int g MAX_IP_CONNECTIONS) ∧
  between 0 64 (gc_int g MAX_WORKER_THREADS) ∧
  between 0 2 (gc_int g RESTRICT_ANON) ∧
  (gc_int g MAP_TO_GUEST = KSMBD_CONF_MAP_TO_GUEST_NEVER ∨
   gc_int g MAP_TO_GUEST = KSMBD_CONF_MAP_TO_GUEST_BAD_USER) ∧
  between 0 65535 (gc_int g TCP_PORT) ∧
  between 0 (2 ^ 32 - 1) (gc_int g QUIC_RECV_TIMEOUT) ∧
  between 0 (2 ^ 32 - 1) (gc_int g SMBD_MAX_IO_SIZE) ∧
  ¬ (Z.testbit (gc_int g FLAGS) 1 = true ∧ Z.testbit (gc_int g FLAGS) 3 = true).

Section GlobalSpec.
Context `{GLib, System, Allocator}.
Variable reload_config : bool.
Hypothesis base64_decode_total : ∀ b, ∃ p, base64_decode b = Some p ∧ Z.of_nat (length p) ≤ INT_MAX.

(** The users stay counted and the table and configuration satisfy [P]. *)
Definition gholds (held : Z → Z) (P : kvs → smbconf_global → Prop) (s : gstate) : Prop :=
  users_ok held (gs_users s) ∧ P (gs_kv s) (gs_conf s).
Definition guest_ok (g : smbconf_global) : Prop := conf_ok g ∧ is_Some (gc_str g GUEST_ACCOUNT).
Definition gkeeps (held : Z → Z) (P Q : kvs → smbconf_global → Prop) (m : prog gstate unit) : Prop :=
  ∀ s, gholds held P s → wp m s (λ _ s', gholds held Q s') (λ _ s', gholds held (λ _, guest_ok) s').

Lemma gkeeps_bind held P Q R m k :
  gkeeps held P Q m → gkeeps held Q R k → gkeeps held P R (m ;; k).
Proof. intros Hm Hk s Hs. wp_step. wp_by (by apply Hm); [|done]. intros _ s' Hs'. by apply Hk. Qed.
Lemma gkeeps_on_gkv held P Q lookup f :
  (∀ kv g, P kv g → Q (delete (g_ascii_strdown (str lookup)) kv)
     (if reload_config then g else match kv_lookup g_ascii_strdown kv (str lookup) with
                                   | Some v => f v g | None => g end)) →
  gkeeps held P Q (on_gkv reload_config lookup f).
Proof.
  intros Hf s [Hu HP]. unfold on_gkv, group_kv_steal, cp_group_kv_steal, wp, bind.
  specialize (Hf _ _ HP). destruct reload_config; [done|]. by destruct kv_lookup.
Qed.

(** A statement that keeps a property of the configuration alone. *)
Definition conf (P : smbconf_global → Prop) : kvs → smbconf_global → Prop := λ _ g, P g.
Lemma gkeeps_conf held (P : smbconf_global → Prop) lookup f :
  (∀ v g, P g → P (f v g)) → gkeeps held (conf P) (conf P) (on_gkv reload_config lookup f).
Proof.
  intros Hf. apply gkeeps_on_gkv. intros kv g Hg. unfold conf. destruct reload_config; [done|].
  destruct kv_lookup; auto.
Qed.

Lemma between_limit n hi : 0 ≤ n → 0 < hi → between 0 hi (if (n =? 0) || (hi <? n) then hi else n).
Proof. intros. unfold between. destruct (Z.eqb_spec n 0), (Z.ltb_spec hi n); cbn [orb]; lia. Qed.

Lemma gc_set_eq f v g : gc_int (set_int f v g) f = v.
Proof. cbn. by rewrite decide_True. Qed.
Lemma gc_set_ne f f' v g : f' ≠ f → gc_int (set_int f v g) f' = gc_int g f'.
Proof. intros. cbn. by rewrite decide_False. Qed.
Ltac gc := unfold conf_ok in *; rewrite ?gc_set_eq; rewrite ?gc_set_ne by done.

(** Members that [conf_ok] does not speak of. *)
Definition free_int (f : gint) : bool :=
  match f with
  | SESSIONS_CAP | FILE_MAX | MAX_CONNECTIONS | MAX_IP_CONNECTIONS | MAX_WORKER_THREADS
  | RESTRICT_ANON | MAP_TO_GUEST | TCP_PORT | FLAGS | QUIC_RECV_TIMEOUT | SMBD_MAX_IO_SIZE => false
  | _ => true
  end.
Lemma conf_ok_free f v g : free_int f = true → conf_ok g → conf_ok (set_int f v g).
Proof. intros Hf Hg. gc. by destruct f; rewrite ?gc_set_ne by done. Qed.
(** A flag other than the two for encryption. *)
Lemma conf_ok_flag v g :
  Z.testbit v 1 = Z.testbit (gc_int g FLAGS) 1 → Z.testbit v 3 = Z.testbit (gc_int g FLAGS) 3 →
  conf_ok g → conf_ok (set_int FLAGS v g).
Proof. intros E1 E3 Hg. gc. by rewrite E1, E3. Qed.
Lemma gkeeps_gflag held lookup n :
  0 ≤ n → n ≠ 1 → n ≠ 3 → gkeeps held (conf conf_ok) (conf conf_ok) (gflag_kv reload_config lookup (BIT n)).
Proof.
  intros Hn H1' H3'. apply gkeeps_conf. intros v g Hg.
  destruct cp_get_group_kv_bool; (apply conf_ok_flag; [| |done]);
    rewrite ?testbit_set_flag, ?testbit_clear_flag by lia; rewrite (proj2 (Z.eqb_neq _ _)) by done;
    by rewrite ?orb_false_r, ?andb_true_r.
Qed.
Lemma encryption_ok v g : conf_ok g → conf_ok (encryption v g).
Proof.
  intros (? & ? & ? & ? & ? & ? & ? & ? & ? & ? & _). unfold encryption, KSMBD_GLOBAL_FLAG_SMB2_ENCRYPTION,
    KSMBD_GLOBAL_FLAG_SMB2_ENCRYPTION_OFF. gc. split_and!; try done.
  destruct (_ =? _); [|destruct (_ =? _)];
    rewrite !testbit_clear_flag, ?testbit_set_flag, ?testbit_clear_flag by lia; cbn; rewrite ?andb_false_r; intuition congruence.
Qed.
Ltac conf_split := intros v g Hg; gc; destruct_and? Hg; split_and?; try assumption.
(** A member that is stored as an [unsigned int]. *)
Lemma between_u32 x : between 0 (2 ^ 32 - 1) (u32 x).
Proof. unfold between. pose proof (u32_range x). lia. Qed.
Ltac limit := conf_split;
  try (apply between_limit; [|done]; first [apply u64_range|apply u32_range]).

Ltac gstatements :=
  repeat match goal with
  | |- gkeeps _ _ _ (bind _ _) => eapply gkeeps_bind
  | |- gkeeps _ _ _ (gflag_kv _ _ _) => apply gkeeps_gflag; [done|done|done]
  | |- gkeeps _ _ _ (gstr_kv _ _ _) => by apply gkeeps_conf
  | |- gkeeps _ _ _ (gint_kv _ _ _ _ _) => apply gkeeps_conf;
      first [intros; by apply conf_ok_free | by conf_split; apply between_u32]
  | |- gkeeps _ _ _ (gbool_kv _ _ _) => apply gkeeps_conf; intros; by apply conf_ok_free
  | |- gkeeps _ _ _ (glimit_kv _ _ _ _ _ _) => apply gkeeps_conf; limit
  | |- gkeeps _ _ _ (on_gkv _ _ _) => apply gkeeps_conf
  end.

Lemma global_kv_limits_ok held :
  gkeeps held (conf conf_ok) (conf conf_ok) (global_kv_limits reload_config).
Proof.
  unfold global_kv_limits. gstatements.
  - conf_split. unfold between.
    destruct (Z.leb_spec (s32 (cp_get_group_kv_long v)) 0), (Z.ltb_spec KSMBD_CONF_MAX_ACTIVE_SESSIONS (s32 (cp_get_group_kv_long v)));
      unfold KSMBD_CONF_MAX_ACTIVE_SESSIONS in *; cbn [orb]; lia.
  - intros v g Hg. destruct (gc_int g TCP_PORT =? 0); [|done]. revert v g Hg. conf_split.
    unfold between. pose proof (u16_range (cp_get_group_kv_long v)). destruct (Z.ltb_spec 65535 (u16 (cp_get_group_kv_long v))); lia.
  - intros v g. by apply conf_ok_free.
  - conf_split. unfold between.
    destruct (Z.eqb_spec (s32 (cp_get_group_kv_long v)) 1), (Z.eqb_spec (s32 (cp_get_group_kv_long v)) 2); cbn; lia.
  - conf_split. destruct key_equal; auto.
  - done.
Qed.
Lemma global_kv_smb_ok held :
  gkeeps held (conf conf_ok) (conf conf_ok) (global_kv_smb reload_config).
Proof.
  unfold global_kv_smb. gstatements.
  - intros v g. apply encryption_ok.
  - conf_split. unfold between. set (n := s32 _).
    destruct (Z.ltb_spec n 1); [vm_compute; intuition congruence|]. destruct (Z.ltb_spec 64 n); lia.
Qed.
Lemma global_kv_optional_ok held :
  gkeeps held (conf conf_ok) (conf conf_ok) (global_kv_optional reload_config).
Proof. unfold global_kv_optional. gstatements. Qed.

(** [g_ascii_strdown] leaves a string without capital letters alone. *)
Hypothesis strdown_lower : ∀ s, forallb (λ c, negb ((65 <=? c) && (c <=? 90))) s = true → g_ascii_strdown s = s.
Lemma strdown_str k : forallb (λ c, negb ((65 <=? c) && (c <=? 90))) (str k) = true → g_ascii_strdown (str k) = str k.
Proof. apply strdown_lower. Qed.

(** The guest account is known, or its key is still to come. *)
Definition guest_known (kv : kvs) (g : smbconf_global) : Prop :=
  conf_ok g ∧ (is_Some (gc_str g GUEST_ACCOUNT) ∨
               reload_config = false ∧ is_Some (kv_lookup g_ascii_strdown kv (str "guest account"))).
Lemma guest_known_other held lookup f :
  forallb (λ c, negb ((65 <=? c) && (c <=? 90))) (str lookup) = true →
  bool_decide (str lookup = str "guest account") = false →
  (∀ v g, conf_ok g → conf_ok (f v g)) → (∀ v g, is_Some (gc_str g GUEST_ACCOUNT) → is_Some (gc_str (f v g) GUEST_ACCOUNT)) →
  gkeeps held guest_known guest_known (on_gkv reload_config lookup f).
Proof.
  intros Hlow Hne Hok Hstr. apply gkeeps_on_gkv. intros kv g [Hg Hk].
  apply bool_decide_eq_false in Hne. rewrite strdown_str by done.
  assert (∀ o, kv_lookup g_ascii_strdown kv (str "guest account") = o →
    kv_lookup g_ascii_strdown (delete (str lookup) kv) (str "guest account") = o) as Hdel.
  { intros o <-. unfold kv_lookup. rewrite strdown_str by reflexivity. by rewrite lookup_delete_ne. }
  split; [destruct reload_config; [done|]; destruct (kv_lookup g_ascii_strdown kv (str lookup)); auto|].
  destruct Hk as [Hk|[Hr [v Hk]]].
  - left. destruct reload_config; [done|]. destruct (kv_lookup g_ascii_strdown kv (str lookup)); auto.
  - right. split; [done|]. rewrite (Hdel (Some v)); [by eexists|done].
Qed.
Lemma guest_known_own held :
  gkeeps held guest_known (conf guest_ok)
    (gstr_kv reload_config "guest account" GUEST_ACCOUNT).
Proof.
  apply gkeeps_on_gkv. intros kv g [Hg Hk]. destruct Hk as [Hk|[-> [v ->]]].
  - destruct reload_config; [done|]. destruct kv_lookup; [|done]. split; [done|]. by eexists.
  - split; [done|]. by eexists.
Qed.
Lemma global_kv_begin_ok held :
  gkeeps held guest_known (conf guest_ok) (global_kv_begin reload_config).
Proof.
  unfold global_kv_begin.
  repeat (eapply gkeeps_bind; [first
    [ by apply (guest_known_other held)
    | apply (guest_known_other held); [reflexivity|reflexivity|intros; by apply conf_ok_free|done]
    | apply guest_known_own]|]).
  intros s [Hu [Hg [v Hv]]]. wp_step. wp_step. rewrite Hv. wp_step. apply wp_zoom.
  assert (guest_ok (gs_conf s)) as Hgo by (split; [done|]; rewrite Hv; by eexists).
  wp_by (by apply (usm_add_guest_account_wp _ _ _ base64_decode_total held)).
  - by intros _ u' [Hu' _].
  - by intros e u' ->.
Qed.

(** The guest account stays once it is known. *)
Definition keeps_guest (m : prog gstate unit) : Prop := ∀ s, is_Some (gc_str (gs_conf s) GUEST_ACCOUNT) →
  match m s with Done _ s' => is_Some (gc_str (gs_conf s') GUEST_ACCOUNT) | _ => True end.
Lemma keeps_guest_bind m k : keeps_guest m → keeps_guest k → keeps_guest (m ;; k).
Proof. intros Hm Hk s Hs. specialize (Hm s Hs). unfold bind. destruct (m s); [by apply Hk|done..]. Qed.
Lemma keeps_guest_on_gkv lookup f :
  (∀ v g, is_Some (gc_str g GUEST_ACCOUNT) → is_Some (gc_str (f v g) GUEST_ACCOUNT)) →
  keeps_guest (on_gkv reload_config lookup f).
Proof.
  intros Hf s Hs. unfold on_gkv, group_kv_steal, cp_group_kv_steal, bind. destruct reload_config; [done|].
  destruct kv_lookup; [|done]. by apply Hf.
Qed.
Lemma keeps_guest_gstr lookup f : keeps_guest (gstr_kv reload_config lookup f).
Proof. apply keeps_guest_on_gkv. intros v g Hg. cbn. destruct (decide _); [by eexists|done]. Qed.
Ltac guest_statements := repeat first
  [ apply keeps_guest_bind | apply keeps_guest_gstr
  | apply keeps_guest_on_gkv; intros v g Hg; unfold encryption; repeat case_match; done ].
Lemma global_kv_guest :
  keeps_guest (global_kv_limits reload_config ;; global_kv_smb reload_config ;; global_kv_optional reload_config).
Proof. unfold global_kv_limits, global_kv_smb, global_kv_optional. guest_statements. Qed.
Lemma gkeeps_guest held m :
  gkeeps held (conf conf_ok) (conf conf_ok) m → keeps_guest m → gkeeps held (conf guest_ok) (conf guest_ok) m.
Proof.
  intros Hm Hg s [Hu [Hc Hs]]. specialize (Hm s (conj Hu Hc)). specialize (Hg s Hs). unfold wp in *.
  destruct (m s) as [a s'|e s'|]; [|done..]. destruct Hm as [? ?]. by split.
Qed.

Lemma process_global_conf_kv_wp held s :
  users_ok held (gs_users s) → guest_known (gs_kv s) (gs_conf s) →
  wp (process_global_conf_kv reload_config) s
    (λ _ s', users_ok held (gs_users s') ∧ guest_ok (gs_conf s'))
    (λ _ s', users_ok held (gs_users s') ∧ guest_ok (gs_conf s')).
Proof.
  intros Hu Hg. assert (gkeeps held guest_known (conf guest_ok) (process_global_conf_kv reload_config)) as Hk.
  { unfold process_global_conf_kv. eapply gkeeps_bind; [apply global_kv_begin_ok|]. apply gkeeps_guest; [|apply global_kv_guest].
    eapply gkeeps_bind; [apply global_kv_limits_ok|]. eapply gkeeps_bind; [apply global_kv_smb_ok|].
    apply global_kv_optional_ok. }
  by apply (Hk s).
Qed.
End GlobalSpec.

(** ** Well-formed groups *)
Definition key_char (c : Z) : bool := cp_printable c && negb (cp_smbconf_eol [c]) && negb (c =? 61).
Definition value_char (c : Z) : bool := cp_printable c && negb (cp_smbconf_eol [c]).
Definition starts_solid (s : bytes) : bool := match s with c :: _ => negb (is_ascii_space_tab c) | [] => false end.
Definition key_ok (k : bytes) : bool := starts_solid k && starts_solid (reverse k) && forallb key_char k.
Definition value_ok (v : bytes) : bool := starts_solid v && forallb value_char v.
(** An entry that [add_group_key_value] takes. *)
Definition entry_ok (entry : bytes) : bool :=
  match split_at 61 entry with
  | None => false
  | Some (before, after) =>
      starts_solid before && forallb key_char before && forallb value_char (cp_ltrim after)
  end.

Lemma forallb_all {A} (f : A → bool) l : forallb f l = true ↔ Forall (λ x, f x = true) l.
Proof.
  induction l as [|x l IH]; cbn; [done|]. rewrite andb_true_iff, IH. split.
  - intros []. by constructor.
  - by inversion 1.
Qed.
Lemma drop_blanks_suffix r : ∃ b, r = b ++ drop_blanks r.
Proof.
  induction r as [|c r [b Hb]]; cbn; [by exists []|].
  destruct (is_ascii_space_tab c); [|by exists []]. destruct r; [by exists []|].
  exists (c :: b). cbn [app]. f_equal. exact Hb.
Qed.
Lemma drop_blanks_solid r x : is_ascii_space_tab x = false → starts_solid (drop_blanks (r ++ [x])) = true.
Proof.
  intros Hx. induction r as [|c r IH]; cbn [app drop_blanks].
  { rewrite Hx. cbn. by rewrite Hx. }
  destruct (is_ascii_space_tab c) eqn:Hc; [|cbn; by rewrite Hc].
  destruct (r ++ [x]) eqn:E; [by destruct r|exact IH].
Qed.
(** Trimming a key at the right. *)
Lemma cp_rtrim_ok before :
  starts_solid before = true → forallb key_char before = true → key_ok (cp_rtrim before) = true.
Proof.
  intros Hs Hk. destruct before as [|x l]; [done|]. cbn in Hs. apply negb_true_iff in Hs.
  unfold key_ok, cp_rtrim. rewrite reverse_involutive, reverse_cons.
  rewrite drop_blanks_solid by done. destruct (drop_blanks_suffix (reverse l ++ [x])) as [b Hb].
  set (d := drop_blanks (reverse l ++ [x])) in *.
  assert (x :: l = reverse d ++ reverse b) as E.
  { rewrite <-reverse_app, <-Hb, reverse_app, reverse_involutive. done. }
  rewrite E, forallb_app in Hk. apply andb_true_iff in Hk as [-> _]. rewrite !andb_true_r.
  pose proof (drop_blanks_solid (reverse l) x Hs) as Hd. fold d in Hd.
  destruct (reverse d) as [|y l'] eqn:Ed.
  - apply (f_equal reverse) in Ed. rewrite reverse_involutive in Ed. by rewrite Ed in Hd.
  - cbn in E. simplify_eq. cbn. by rewrite Hs.
Qed.
Lemma cp_ltrim_solid v : cp_ltrim v = [] ∨ starts_solid (cp_ltrim v) = true.
Proof.
  destruct (cp_ltrim_spec v) as (b & _ & _ & H). destruct (cp_ltrim v) as [|c l]; [by left|].
  right. cbn. by rewrite H.
Qed.
Lemma until_eol_chars v : forallb (λ c, negb (cp_smbconf_eol [c])) (until_eol v) = true.
Proof.
  induction v as [|c v IH]; cbn; [done|]. destruct (_ || _ || _) eqn:E; [done|].
  cbn. rewrite E. cbn. exact IH.
Qed.
Lemma until_eol_ok v : forallb value_char v = true → until_eol v = v.
Proof.
  induction v as [|c v IH]; cbn; [done|]. intros [Hc Hv]%andb_true_iff.
  unfold value_char in Hc. apply andb_true_iff in Hc as [_ Hc]. cbn in Hc.
  destruct (_ || _ || _); [done|]. by rewrite IH.
Qed.
Lemma until_eol_head v : match until_eol v with c :: _ => ∃ l, v = c :: l | [] => True end.
Proof. destruct v as [|c v]; cbn; [done|]. destruct (_ || _ || _); [done|]. by exists v. Qed.

Section WellFormed.
Context `{GLib, System, Allocator}.

(** What [is_a_key_value] leaves of an entry is one for the table. *)
Lemma is_a_key_value_ok p entry entry' :
  starts_solid entry = true → is_a_key_value p entry = Some entry' →
  entry_ok entry' = true ∧ is_Some (pr_current p).
Proof.
  unfold is_a_key_value. destruct (split_at 61 entry) as [[k rest]|] eqn:E; [|done].
  intros Hs. destruct k as [|x k']; [done|]. set (k := x :: k') in *.
  destruct (forallb _ k) eqn:Hk; [|done]. cbn [negb].
  destruct (pr_current p); [|done]. destruct (forallb cp_printable _) eqn:Hv; [|done].
  intros Heq. apply Some_inj in Heq. subst entry'. split; [|done]. apply split_at_Some in E as [-> Hne]. unfold entry_ok.
  rewrite split_at_app by done.
  assert (starts_solid k = true) as -> by exact Hs.
  assert (forallb key_char k = true) as ->.
  { apply forallb_all. apply forallb_all in Hk.
    rewrite Forall_forall in *. intros c Hc. unfold key_char.
    by rewrite (Hk c Hc), (proj2 (Z.eqb_neq c 61)) by by apply Hne. }
  destruct (cp_ltrim_spec rest) as (b & Hb & Hbl & Hhd). set (v := cp_ltrim rest) in *.
  assert (take (length rest - length v) rest = b) as ->.
  { rewrite Hb at 2. rewrite Hb, length_app. rewrite take_app_length'; [done|lia]. }
  rewrite cp_ltrim_app_blank; [|pose proof (until_eol_head v) as Hh; destruct (until_eol v); [done|]|done].
  - cbn [andb]. pose proof (until_eol_chars v) as Hu. apply forallb_all. apply forallb_all in Hv, Hu.
    rewrite Forall_forall in *. intros c Hc. unfold value_char. by rewrite (Hv c Hc), (Hu c Hc).
  - destruct Hh as [? Hl]. by rewrite Hl in Hhd.
Qed.

Definition kv_ok (kv : kvs) : Prop :=
  ∀ fk k v, kv !! fk = Some (k, v) → fk = g_ascii_strdown k ∧ key_ok k = true ∧ value_ok v = true.
Lemma kv_insert_ok entry kv : entry_ok entry = true → kv_ok kv → kv_ok (kv_insert entry kv).
Proof.
  unfold entry_ok, kv_insert. destruct (split_at 61 entry) as [[before after]|]; [|done].
  intros [[Hs Hk]%andb_true_iff Hv]%andb_true_iff Hkv.
  destruct (cp_smbconf_eol (cp_ltrim after)) eqn:He; [done|].
  destruct (kv_lookup g_ascii_strdown kv (cp_rtrim before)); [done|].
  intros fk k v. destruct (decide (fk = g_ascii_strdown (cp_rtrim before))) as [->|].
  - rewrite lookup_insert_eq. intros [= <- <-]. split_and!; [done|by apply cp_rtrim_ok|].
    unfold value_ok. destruct (cp_ltrim_solid after) as [E| ->]; [by rewrite E in He|exact Hv].
  - rewrite lookup_insert_ne by done. apply Hkv.
Qed.

(** *** The parser's state *)
Definition gkey : bytes := shm_casefold_share_name (str "global").
Definition ikey : bytes := shm_casefold_share_name (str "ipc$").
Hypothesis keys_differ : gkey ≠ ikey.

Record group_ok (key : bytes) (g : smbconf_group) : Prop := {
  go_key : key = shm_casefold_share_name (g_name g);
  go_name : shm_share_name (g_name g) = true;
  go_kv : kv_ok (g_kv g);
}.
Record parser_ok (p : smbconf_parser) : Prop := {
  po_current : ∀ key, pr_current p = Some key → is_Some (pr_groups p !! key);
  po_global : pr_global p = (λ _, gkey) <$> pr_groups p !! gkey;
  po_ipc : pr_ipc p = (λ _, ikey) <$> pr_groups p !! ikey;
  po_groups : ∀ key g, pr_groups p !! key = Some g → group_ok key g;
}.

Lemma new_parser_ok : parser_ok new_parser.
Proof. by split. Qed.
Lemma share_name_no_bracket name : shm_share_name name = true → Forall (λ c, c ≠ 93) name.
Proof.
  unfold shm_share_name. rewrite !andb_true_iff. intros [_ Hf]. apply forallb_all in Hf.
  eapply Forall_impl; [exact Hf|]. cbv beta. intros c Hc ->. by rewrite andb_false_r in Hc.
Qed.
Lemma share_name_equal_key name k : shm_share_name_equal name k = true ↔ shm_casefold_share_name name = shm_casefold_share_name k.
Proof. apply bool_decide_eq_true. Qed.

(** The group of the name becomes the current one; it is made when it is new. *)
Lemma add_group_spec name rest p :
  shm_share_name name = true → parser_ok p →
  let p' := add_group (91 :: name ++ 93 :: rest) p in
  let key := shm_casefold_share_name name in
  pr_current p' = Some key ∧
  pr_groups p' = match pr_groups p !! key with
                 | Some _ => pr_groups p | None => <[key := mk_group name ∅]> (pr_groups p) end ∧
  parser_ok p'.
Proof.
  intros Hname Hok p' key. unfold p', add_group. change (drop 1 (91 :: name ++ 93 :: rest)) with (name ++ 93 :: rest).
  rewrite split_at_app by by apply share_name_no_bracket. fold key.
  destruct Hok as [Hc Hg Hi Hgr]. destruct (pr_groups p !! key) as [g|] eqn:E.
  { cbn. split_and!; [done|done|]. split; try done. cbn. intros ? [= <-]. by eexists. }
  set (groups := <[key := mk_group name ∅]> (pr_groups p)).
  assert (∀ k g, groups !! k = Some g → group_ok k g) as Hgr'.
  { intros k g. unfold groups. destruct (decide (k = key)) as [->|].
    - rewrite lookup_insert_eq. intros [= <-]. split; [done|done|]. by intros fk k' v'.
    - rewrite lookup_insert_ne by done. apply Hgr. }
  assert (∀ k, Some key = Some k → is_Some (groups !! k)) as Hc'.
  { intros k [= <-]. unfold groups. by rewrite lookup_insert_eq. }
  assert (∀ k, (λ _ : smbconf_group, k) <$> groups !! k =
    if decide (k = key) then Some k else (λ _, k) <$> pr_groups p !! k) as Hlk.
  { intros k. unfold groups. destruct (decide (k = key)) as [->|]; [by rewrite lookup_insert_eq|].
    by rewrite lookup_insert_ne. }
  destruct (decide (key = gkey)) as [Eg|Eg]; [|destruct (decide (key = ikey)) as [Ei|Ei]].
  - rewrite Hg, <-Eg, E. cbn [fmap option_fmap option_map]. rewrite bool_decide_true by done.
    rewrite (proj2 (share_name_equal_key _ _)) by exact Eg. cbn [andb pr_current pr_groups].
    split_and!; [done|done|]. split; cbn [pr_current pr_groups pr_global pr_ipc]; [done| | |done].
    + by rewrite Hlk, decide_True, Eg by done.
    + rewrite Hlk, decide_False by congruence. exact Hi.
  - assert (shm_share_name_equal name (str "global") = false) as ->.
    { destruct shm_share_name_equal eqn:F; [|done]. by apply share_name_equal_key in F. }
    rewrite andb_false_r. rewrite Hi, <-Ei, E. cbn [fmap option_fmap option_map]. rewrite bool_decide_true by done.
    rewrite (proj2 (share_name_equal_key _ _)) by exact Ei. cbn [andb pr_current pr_groups].
    split_and!; [done|done|]. split; cbn [pr_current pr_groups pr_global pr_ipc]; [done| | |done].
    + rewrite Hlk, decide_False by congruence. exact Hg.
    + by rewrite Hlk, decide_True, Ei by done.
  - assert (shm_share_name_equal name (str "global") = false) as ->.
    { destruct shm_share_name_equal eqn:F; [|done]. by apply share_name_equal_key in F. }
    assert (shm_share_name_equal name (str "ipc$") = false) as ->.
    { destruct shm_share_name_equal eqn:F; [|done]. by apply share_name_equal_key in F. }
    rewrite !andb_false_r. cbn [pr_current pr_groups].
    split_and!; [done|done|]. split; cbn [pr_current pr_groups pr_global pr_ipc]; [done| | |done].
    + rewrite Hlk, decide_False by congruence. exact Hg.
    + rewrite Hlk, decide_False by congruence. exact Hi.
Qed.
Lemma add_group_key_value_ok entry p :
  entry_ok entry = true → parser_ok p → parser_ok (add_group_key_value entry p).
Proof.
  intros He [Hc Hg Hi Hgr]. unfold add_group_key_value. destruct (pr_current p) as [key|] eqn:Ec; [|by split; rewrite ?Ec].
  assert (∀ A k (f : smbconf_group → A) (H : ∀ g h, f (upd_kv h g) = f g),
    f <$> alter (upd_kv (kv_insert entry)) key (pr_groups p) !! k = f <$> pr_groups p !! k) as Halt.
  { intros A k f Hf. destruct (decide (k = key)) as [->|].
    - rewrite lookup_alter_eq. destruct (pr_groups p !! key); cbn; [by rewrite Hf|done].
    - by rewrite lookup_alter_ne. }
  split; cbn.
  - intros k [= <-]. rewrite lookup_alter_eq. by apply fmap_is_Some, Hc.
  - by rewrite Halt.
  - by rewrite Halt.
  - intros k g. destruct (decide (k = key)) as [->|].
    + rewrite lookup_alter_eq. destruct (pr_groups p !! key) as [g0|] eqn:E; [|done]. intros [= <-].
      destruct (Hgr _ _ E) as [H1' H2' H3']. split; [done|done|]. by apply kv_insert_ok.
    + rewrite lookup_alter_ne by done. apply Hgr.
Qed.

Lemma process_smbconf_entry_wp entry p :
  parser_ok p → wp (process_smbconf_entry entry) p (λ _ p', parser_ok p') (λ _ p', parser_ok p').
Proof.
  intros Hok. unfold process_smbconf_entry.
  destruct (cp_smbconf_eol (cp_ltrim entry)) eqn:He; [by wp_step|].
  destruct (is_a_group (cp_ltrim entry)) eqn:Hg.
  { wp_step. unfold is_a_group in Hg. destruct (cp_ltrim entry) as [|c e]; [done|].
    assert (c = 91) as ->. { repeat (case_match; try done). }
    destruct (split_at 93 e) as [[name rest]|] eqn:Es; [|done].
    apply andb_true_iff in Hg as [Hn _]. apply split_at_Some in Es as [-> _].
    by apply (add_group_spec name rest p Hn Hok). }
  do 2 wp_step. destruct (is_a_key_value p (cp_ltrim entry)) as [e|] eqn:Hk; [|by wp_step].
  wp_step. apply is_a_key_value_ok in Hk as [Hk _].
  - by apply add_group_key_value_ok.
  - destruct (cp_ltrim_solid entry) as [E|]; [by rewrite E in He|done].
Qed.
Lemma process_lines_wp l p :
  parser_ok p →
  wp (for_each l (λ e, process_smbconf_entry (cstr e))) p (λ _ p', parser_ok p') (λ _ p', parser_ok p').
Proof.
  revert p. induction l as [|e l IH]; intros p Hok; cbn [for_each]; [by wp_step|].
  wp_step. wp_by (by apply process_smbconf_entry_wp); [|done]. intros _ p' Hok'. by apply IH.
Qed.

(** C20 (type): whatever a configuration file contains, the parser ends with
    well-formed groups or the error of the first bad line: every group is
    filed under its folded name, which is a valid share name, its keys are
    filed under their folded spelling and can be written as a line again, the
    pointers to the current, global and IPC groups point into the table, and
    the latter two to the groups of these names. *)
Theorem smbconf_parser_well_formed contents :
  Z.of_nat (length contents) < 2 ^ 63 →
  wp (__mmap_parse_file process_smbconf_entry false (inr contents)) new_parser
    (λ _ p, parser_ok p) (λ e p, e = - EINVAL ∧ parser_ok p).
Proof.
  intros Hlen.
  assert (∀ l p, parser_ok p → wp (for_each l (λ e, process_smbconf_entry (cstr e))) p
    (λ _ p', parser_ok p') (λ e p', e = - EINVAL ∧ parser_ok p')) as Hgo.
  { intros l p Hok. assert (∀ e0 p0, wp (process_smbconf_entry e0) p0 (λ _ _, True) (λ e _, e = - EINVAL)) as Hcode.
    { intros e0 p0. unfold process_smbconf_entry. repeat (wp_step || done). }
    revert p Hok. induction l as [|e l IH]; intros p Hok; cbn [for_each]; [by wp_step|].
    wp_step. pose proof (process_smbconf_entry_wp (cstr e) p Hok) as Hw. specialize (Hcode (cstr e) p).
    unfold wp in Hw, Hcode |- *. destruct (process_smbconf_entry (cstr e) p); [by apply IH|done|done]. }
  pose proof (Hgo (match contents with [] => [[]] | _ => lines contents end) new_parser new_parser_ok) as Hw.
  unfold wp in Hw |- *. by rewrite mmap_parse_file_eq.
Qed.
End WellFormed.

Lemma toy_keys_differ : gkey (H:=toy_glib) ≠ ikey (H:=toy_glib).
Proof. vm_compute. congruence. Qed.
Definition toy_text : bytes := str "[Global]" ++ [10; 9] ++ str "tcp port = 445 ; note" ++ [10].
Abbreviation toy_parse :=
  (__mmap_parse_file (process_smbconf_entry (H:=toy_glib)) false (inr toy_text) new_parser).
Definition toy_parsed : smbconf_parser :=
  Eval vm_compute in match toy_parse with Done _ p => p | _ => new_parser end.
Lemma smbconf_parser_well_formed_witness :
  toy_parse = Done tt toy_parsed ∧ parser_ok (H:=toy_glib) toy_parsed ∧ pr_global toy_parsed = Some (str "global").
Proof.
  assert (toy_parse = Done tt toy_parsed) as E by (vm_compute; reflexivity).
  assert (Z.of_nat (length toy_text) < 2 ^ 63) as Hl by (vm_compute; reflexivity).
  split; [exact E|]. split; [|reflexivity].
  pose proof (smbconf_parser_well_formed (H:=toy_glib) toy_keys_differ toy_text Hl) as Hw.
  exact (wp_Done _ _ _ _ _ _ Hw E).
Defined.

(** ** The whole file *)
Section ParseSpec.
Context `{GLib, System, Allocator}.
Variable reload_config : bool.
Variable group_order : gmap bytes smbconf_group → list (bytes * smbconf_group).
Variable tool : tool_main.
Variable set_conf_contents : bytes → Z.
Hypothesis keys_differ : gkey ≠ ikey.
(** ASCII is valid UTF-8. *)
Hypothesis utf8_ascii : ∀ s, forallb (λ c, c <? 128) s = true → g_utf8_validate s = true.
Hypothesis strdown_lower : ∀ s, forallb (λ c, negb ((65 <=? c) && (c <=? 90))) s = true → g_ascii_strdown s = s.
Hypothesis hash_order_perm : ∀ t, hash_order t ≡ₚ map_to_list t.
Hypothesis base64_decode_total : ∀ b, ∃ p, base64_decode b = Some p ∧ Z.of_nat (length p) ≤ INT_MAX.

Lemma kv_insert_keeps e kv k :
  is_Some (kv_lookup g_ascii_strdown kv k) → is_Some (kv_lookup g_ascii_strdown (kv_insert e kv) k).
Proof.
  intros Hk. unfold kv_insert. destruct (split_at 61 e) as [[b a]|]; [|done].
  destruct (cp_smbconf_eol _); [done|]. destruct (kv_lookup g_ascii_strdown kv (cp_rtrim b)) eqn:E; [done|].
  unfold kv_lookup in *. destruct (decide (g_ascii_strdown k = g_ascii_strdown (cp_rtrim b))) as [Ek|].
  - rewrite Ek, lookup_insert_eq. by eexists.
  - by rewrite lookup_insert_ne.
Qed.
Lemma kv_insert_present e b a kv :
  split_at 61 e = Some (b, a) → cp_smbconf_eol (cp_ltrim a) = false →
  is_Some (kv_lookup g_ascii_strdown (kv_insert e kv) (cp_rtrim b)).
Proof.
  intros Hs Ha. unfold kv_insert. rewrite Hs, Ha.
  destruct (kv_lookup g_ascii_strdown kv (cp_rtrim b)) eqn:E; [rewrite E; by eexists|].
  unfold kv_lookup. rewrite lookup_insert_eq. by eexists.
Qed.

(** A run of entries for the current group. *)
Lemma add_entries_spec (l : list string) p key g :
  forallb (λ e, entry_ok (str e)) l = true → parser_ok p → pr_current p = Some key →
  pr_groups p !! key = Some g →
  let p' := foldl (λ p e, add_group_key_value (str e) p) p l in
  parser_ok p' ∧ pr_current p' = Some key ∧
  pr_groups p' !! key = Some (upd_kv (λ kv, foldl (λ kv e, kv_insert (str e) kv) kv l) g).
Proof.
  revert p g. induction l as [|e l IH]; intros p g Hl Hok Hc Hg; cbn [foldl].
  { split_and!; [done|done|]. rewrite Hg. by destruct g. }
  cbn in Hl. apply andb_true_iff in Hl as [He Hl].
  assert (pr_current (add_group_key_value (str e) p) = Some key) as Hc'.
  { unfold add_group_key_value. by rewrite Hc. }
  assert (pr_groups (add_group_key_value (str e) p) !! key = Some (upd_kv (kv_insert (str e)) g)) as Hg'.
  { unfold add_group_key_value. rewrite Hc. cbn. by rewrite lookup_alter_eq, Hg. }
  destruct (IH (add_group_key_value (str e) p) (upd_kv (kv_insert (str e)) g) Hl) as (H1' & H2' & H3');
    [by apply add_group_key_value_ok|done|done|].
  split_and!; [exact H1'|exact H2'|]. etrans; [exact H3'|]. by destruct g.
Qed.
Lemma ascii_name n : forallb (λ c, c <? 128) (str n) = true →
  (0 <? length (str n))%nat && (Z.of_nat (length (str n)) <? KSMBD_REQ_MAX_SHARE_NAME) &&
  forallb (λ c, cp_printable c && negb (c =? 91) && negb (c =? 93)) (str n) = true →
  shm_share_name (str n) = true.
Proof.
  intros Ha. rewrite !andb_true_iff. intros [[H1' H2'] H3']. unfold shm_share_name.
  by rewrite H1', H2', H3', utf8_ascii.
Qed.

Definition global_defaults : list string :=
  ["guest account = nobody"; "max active sessions = 1024"; "max connections = 256";
   "max ip connections = 32"; "max open files = 10000"; "netbios name = KSMBD SERVER";
   "server string = SMB SERVER"; "share:fake_fscaps = 64"; "tcp port = 445";
   "workgroup = WORKGROUP"; "fruit extensions = yes"; "fruit model = Xserve";
   "fruit zero file id = yes"; "max worker threads = 4"; "server signing = auto"]%string.
(** The group [global] is there with the guest account. *)
Lemma global_group_spec p :
  parser_ok p →
  let p' := add_group_global_conf reload_config (add_group (str "[global]") p) in
  parser_ok p' ∧ pr_global p' = Some gkey ∧
  ∃ g, pr_groups p' !! gkey = Some g ∧
       (reload_config = false → is_Some (kv_lookup g_ascii_strdown (g_kv g) (str "guest account"))).
Proof.
  intros Hok p'.
  assert (shm_share_name (str "global") = true) as Hn by (apply ascii_name; reflexivity).
  destruct (add_group_spec keys_differ (str "global") [] p Hn Hok) as (Hc & Hg & Hok1).
  change (91 :: str "global" ++ [93]) with (str "[global]") in Hc, Hg, Hok1.
  set (p1 := add_group (str "[global]") p) in *.
  assert (∃ g, pr_groups p1 !! gkey = Some g) as [g Hg1].
  { rewrite Hg. fold gkey. destruct (pr_groups p !! gkey) as [g|] eqn:E; [by exists g|].
    rewrite lookup_insert_eq. by eexists. }
  unfold p', add_group_global_conf. destruct reload_config.
  - split_and!; [done| |by exists g]. by rewrite (po_global _ Hok1), Hg1.
  - destruct (add_entries_spec global_defaults p1 gkey g eq_refl Hok1 Hc Hg1) as (Hok2 & Hc2 & Hg2).
    fold global_defaults. split_and!; [done| |].
    + by rewrite (po_global _ Hok2), Hg2.
    + eexists. split; [exact Hg2|]. intros _. cbn [upd_kv g_kv].
      unfold global_defaults. cbn [foldl]. do 14 apply kv_insert_keeps.
      by apply (kv_insert_present (str "guest account = nobody") (str "guest account ") (str " nobody")).
Qed.

(** A file that can be mapped. *)
Definition file_fits (file : Z + bytes) : Prop :=
  match file with inl _ => True | inr contents => Z.of_nat (length contents) < 2 ^ 63 end.
Lemma parse_file_wp file p :
  file_fits file → parser_ok p →
  wp (__mmap_parse_file process_smbconf_entry false file) p (λ _ p', parser_ok p') (λ _ p', parser_ok p').
Proof.
  intros Hf Hp. destruct file as [e|contents]; [done|]. unfold wp. rewrite mmap_parse_file_eq by done.
  exact (process_lines_wp keys_differ _ p Hp).
Qed.

Lemma add_shares_wp uheld sheld p l code s :
  shares_ok uheld sheld (cs_shares s) →
  wp (add_shares reload_config p l code) s
    (λ _ s', shares_ok uheld sheld (cs_shares s') ∧ cs_conf s' = cs_conf s) (λ _ _, False).
Proof.
  revert code s. induction l as [|[key g] l IH]; intros code s Hok; cbn [add_shares]; [by wp_step|].
  destruct (decide _); [by apply IH|]. wp_step. apply wp_zoom.
  wp_by (by apply (shm_add_new_share_wp hash_order_perm base64_decode_total uheld sheld)); [|done].
  intros r ss [Hok' _]. exact (IH _ (set_cs_shares ss s) Hok').
Qed.

Lemma finalize_smbconf_parser_wp uheld sheld p s :
  parser_ok p → shares_ok uheld sheld (cs_shares s) → conf_ok (cs_conf s) →
  (reload_config = true → is_Some (gc_str (cs_conf s) GUEST_ACCOUNT)) →
  wp (finalize_smbconf_parser reload_config group_order p) s
    (λ _ s', shares_ok uheld sheld (cs_shares s') ∧ guest_ok (cs_conf s')) (λ _ _, False).
Proof.
  intros Hp Hs Hc Hr. unfold finalize_smbconf_parser.
  destruct (global_group_spec p Hp) as (Hp1 & Hg1 & g & Hg & Hga). cbv zeta in *.
  set (p1 := add_group_global_conf reload_config (add_group (str "[global]") p)) in *. rewrite Hg1. cbn [mbind option_bind]. rewrite Hg.
  do 2 wp_step. destruct Hs as [Hu Hpos Hss].
  set (held := λ q, uheld q + count q (all_users (ss_heap (cs_shares s)))) in Hu.
  pose proof (process_global_conf_kv_wp reload_config base64_decode_total strdown_lower held
    (mk_gstate (ss_users (cs_shares s)) (g_kv g) (cs_conf s)) Hu) as Hw.
  assert (guest_known reload_config (g_kv g) (cs_conf s)) as Hgk.
  { split; [done|]. destruct reload_config; [left; auto|right; auto]. }
  specialize (Hw Hgk). unfold wp in Hw.
  destruct process_global_conf_kv as [[] gs|e gs|]; [| |done]; destruct Hw as [Hu' Hc'].
  - wp_step. wp_step. destruct (steal_global_share_conf_kv _ _ _) as [gkv groups].
    wp_by (by apply (add_shares_wp uheld sheld)); [|done]. intros r s' [Hok' ->]. done.
  - wp_step. wp_step. wp_step. done.
Qed.

Lemma cp_parse_smbconf_owner_wp uheld sheld file s :
  file_fits file → shares_ok uheld sheld (cs_shares s) → conf_ok (cs_conf s) →
  (reload_config = true → is_Some (gc_str (cs_conf s) GUEST_ACCOUNT)) →
  wp (cp_parse_smbconf_owner reload_config group_order tool set_conf_contents file) s
    (λ r s', shares_ok uheld sheld (cs_shares s') ∧ conf_ok (cs_conf s') ∧
       (r = 0 ∨ is_Some (gc_str (cs_conf s) GUEST_ACCOUNT) → is_Some (gc_str (cs_conf s') GUEST_ACCOUNT))) (λ _ _, False).
Proof.
  intros Hf Hs Hc Hr. unfold wp, cp_parse_smbconf_owner.
  pose proof (parse_file_wp file new_parser Hf new_parser_ok) as Hw. unfold wp in Hw.
  assert (∀ p, parser_ok p → wp (finalize_smbconf_parser reload_config group_order p) s
    (λ r s', shares_ok uheld sheld (cs_shares s') ∧ conf_ok (cs_conf s') ∧
       (r = 0 ∨ is_Some (gc_str (cs_conf s) GUEST_ACCOUNT) → is_Some (gc_str (cs_conf s') GUEST_ACCOUNT))) (λ _ _, False)) as Hfin.
  { intros p Hp. eapply wp_mono; [exact (finalize_smbconf_parser_wp uheld sheld p s Hp Hs Hc Hr)| |done].
    by intros r s' (? & ? & ?). }
  destruct __mmap_parse_file as [[] p|e p|]; [by apply Hfin| |done].
  destruct (Z.eqb_spec (smbconf_missing tool set_conf_contents e) 0) as [|Hne]; [by apply Hfin|].
  split_and!; [done|done|]. by intros [?|?].
Qed.

(** What a load leaves: the users and shares accounted for, the configuration in
    bounds, the guest account known once it was or when the load succeeds, and
    a parser that was there before. *)
Record loaded (uheld sheld : Z → Z) (p : option smbconf_parser) (s : cstate) (r : Z * option smbconf_parser) (s' : cstate) : Prop := {
  ld_shares : shares_ok uheld sheld (cs_shares s');
  ld_conf : conf_ok (cs_conf s');
  ld_guest : r.1 = 0 ∨ is_Some (gc_str (cs_conf s) GUEST_ACCOUNT) → is_Some (gc_str (cs_conf s') GUEST_ACCOUNT);
  ld_owner : is_Some r.2 ↔ is_Some p;
  ld_parser : from_option parser_ok True r.2;
}.
Lemma cp_parse_smbconf_wp uheld sheld p file created s :
  file_fits file → file_fits created → from_option parser_ok True p →
  shares_ok uheld sheld (cs_shares s) → conf_ok (cs_conf s) →
  (reload_config = true → is_Some (gc_str (cs_conf s) GUEST_ACCOUNT)) →
  wp (cp_parse_smbconf reload_config group_order tool set_conf_contents p file created) s
    (loaded uheld sheld p s) (λ _ _, False).
Proof.
  intros Hf Hcr Hp Hs Hc Hr. unfold cp_parse_smbconf.
  assert (∀ q f, file_fits f → (is_Some q ↔ is_Some p) → from_option parser_ok True q →
    wp (r <- cp_parse_smbconf_owner reload_config group_order tool set_conf_contents f ;; ret (r, q)) s
      (loaded uheld sheld p s) (λ _ _, False)) as Hown.
  { intros q f Hf' Hiff Hq. wp_step. wp_by (by apply (cp_parse_smbconf_owner_wp uheld sheld)); [|done].
    intros r s' (? & ? & ?). wp_step. by split. }
  destruct p as [p|]; [|by apply (Hown None)].
  pose proof (parse_file_wp file p Hf Hp) as Hw. unfold wp in Hw |- *.
  destruct __mmap_parse_file as [[] p'|e p'|]; [| |done].
  - by apply (Hown (Some p')).
  - destruct (Z.eqb_spec (smbconf_missing tool set_conf_contents e) 0) as [|Hne]; [by apply (Hown (Some p'))|].
    split; try done. by intros [?|?].
Qed.

(** C14 (safety): loading a configuration file, whatever it contains and
    whichever program does it, neither faults nor runs on: the users and shares
    stay accounted for, the limits of the global configuration are within their
    bounds, the guest account is known when the load succeeds, and a parser that
    was there before is still well formed. *)
Theorem cp_parse_smbconf_safe uheld sheld p file created s :
  file_fits file → file_fits created → from_option parser_ok True p →
  shares_ok uheld sheld (cs_shares s) → conf_ok (cs_conf s) →
  (reload_config = true → is_Some (gc_str (cs_conf s) GUEST_ACCOUNT)) →
  wp (cp_parse_smbconf reload_config group_order tool set_conf_contents p file created) s
    (loaded uheld sheld p s) (λ _ _, False).
Proof. apply cp_parse_smbconf_wp. Qed.
End ParseSpec.

Lemma toy_strdown s :
  forallb (λ c, negb ((65 <=? c) && (c <=? 90))) s = true → g_ascii_strdown (GLib:=toy_glib) s = s.
Proof.
  induction s as [|c s IH]; intros Hs; [reflexivity|]. cbn [forallb] in Hs. apply andb_true_iff in Hs as [Hc Hs].
  specialize (IH Hs). cbn [g_ascii_strdown toy_glib] in *. rewrite fmap_cons, IH. unfold ascii_lower.
  destruct ((65 <=? c) && (c <=? 90)); [discriminate Hc|reflexivity].
Qed.
Lemma toy_decode b :
  ∃ p, base64_decode (System:=total_system) b = Some p ∧ Z.of_nat (length p) ≤ INT_MAX.
Proof. exists []. split; [reflexivity|vm_compute; congruence]. Qed.
Lemma zero_global_ok : conf_ok zero_global.
Proof. unfold conf_ok, between, zero_global. cbn. split_and!; try (vm_compute; congruence); [by left|by intros []]. Qed.
Abbreviation toy_load :=
  (cp_parse_smbconf (H:=toy_glib) (H0:=total_system) (H1:=plenty) false map_to_list ADDSHARE (λ _, 0)
    (Some new_parser) (inr toy_text) (inr [])
    (mk_cstate no_shares zero_global)).
Lemma cp_parse_smbconf_safe_witness :
  ∃ r s, toy_load = Done r s ∧ shares_ok (H:=toy_glib) (λ _, 0) (λ _, 0) (cs_shares s) ∧ conf_ok (cs_conf s) ∧
         gc_int (cs_conf s) TCP_PORT = 445.
Proof.
  assert (∃ r s, toy_load = Done r s ∧ gc_int (cs_conf s) TCP_PORT = 445) as (r & s & E & Ep).
  { eexists _, _; split; [vm_compute; reflexivity|vm_compute; reflexivity]. }
  exists r, s. split; [exact E|].
  assert (Z.of_nat (length toy_text) < 2 ^ 63) as Hl by (vm_compute; reflexivity).
  pose proof (cp_parse_smbconf_safe (H:=toy_glib) (H0:=total_system) (H1:=plenty) false map_to_list ADDSHARE (λ _, 0)
    toy_keys_differ (λ _ Ha, Ha) toy_strdown (λ t, reflexivity (map_to_list t)) toy_decode
    (λ _, 0) (λ _, 0) (Some new_parser) (inr toy_text) (inr []) (mk_cstate no_shares zero_global) Hl eq_refl
    (new_parser_ok (H:=toy_glib)) no_shares_ok zero_global_ok
    (λ Hr, False_ind _ (diff_false_true Hr))) as Hw.
  destruct (wp_Done _ _ _ _ _ _ Hw E) as [Hs Hc _ _ _]. exact (conj Hs (conj Hc Ep)).
Defined.

(** ** The sub-authorities and the lock file *)
Section SmallFiles.

Lemma digit_chars l : Forall (λ c, 48 ≤ c ≤ 57) l → forallb is_digit l = true ∧ Forall (λ c, c ≠ 58 ∧ c ≠ 10 ∧ c ≠ 0) l.
Proof.
  intros Hl. split.
  - apply forallb_all. eapply Forall_impl; [exact Hl|]. unfold is_digit. intros c Hc. cbv beta in *. lia.
  - eapply Forall_impl; [exact Hl|]. intros c Hc. cbv beta in *. lia.
Qed.
Lemma print_uint_chars x : 0 ≤ x → forallb is_digit (print_uint x) = true ∧
  Forall (λ c, c ≠ 58 ∧ c ≠ 10 ∧ c ≠ 0) (print_uint x) ∧ print_uint x ≠ [].
Proof.
  intros Hx. destruct (digit_chars _ (decimal_digits 10 x Hx)) as [H1 H2].
  split_and!; [done|done|apply decimal_nonempty; lia].
Qed.
Lemma add_digits_val acc l :
  Forall (λ c, 48 ≤ c ≤ 57) l → 0 ≤ acc → decimal_val acc l < 2 ^ 32 →
  foldl add_digit acc l = decimal_val acc l ∧ acc ≤ decimal_val acc l.
Proof.
  intros Hl. revert acc. induction Hl as [|c l Hc Hl IH]; intros acc Ha Hv; cbn [foldl decimal_val] in *; [lia|].
  destruct (IH (10 * acc + (c - 48))) as [E Hle]; [lia|done|].
  assert (add_digit acc c = 10 * acc + (c - 48)) as ->.
  { unfold add_digit, u32, wrap. rewrite Zplus_mod_idemp_l, Z.mod_small by lia. lia. }
  split; [done|lia].
Qed.
Lemma print_uint_val x : 0 ≤ x < 2 ^ 32 → foldl add_digit 0 (print_uint x) = x.
Proof.
  intros Hx. assert (decimal_val 0 (print_uint x) = x) as E by (apply decimal_val_decimal; lia).
  destruct (add_digits_val 0 (print_uint x)) as [-> _]; [apply decimal_digits; lia|lia|lia|done].
Qed.
(** Only the first line of these files is read. *)
Lemma first_line {S : Type} (f : bytes → prog S unit) line s :
  Forall (λ c, c ≠ 10 ∧ c ≠ 0) line → line ≠ [] → Z.of_nat (length line) < 2 ^ 32 →
  __mmap_parse_file f true (inr (line ++ [10])) s = f line s.
Proof.
  intros Hl Hne Hlen. unfold __mmap_parse_file. destruct (line ++ [10]) as [|c text] eqn:E; [by destruct line|].
  cbn [parse_loop]. rewrite <-E, split_at_app by (eapply Forall_impl; [exact Hl|]; cbv beta; tauto).
  rewrite take_app_length, length_app. cbn [length].
  rewrite (proj2 (Z.ltb_lt _ _)), (proj2 (Z.eqb_neq _ _)) by lia. cbn [andb negb].
  rewrite cstr_nonzero by (eapply Forall_impl; [exact Hl|]; cbv beta; tauto).
  unfold bind, ret. by destruct (f line s) as [[] ?|?|].
Qed.

Lemma field_digits n x rest :
  0 ≤ x → (n = 0%nat → rest = []) →
  field (n =? 0)%nat (print_uint x ++ (if (n =? 0)%nat then [] else 58 :: rest)) = Some (print_uint x, rest).
Proof.
  intros Hx Hn. destruct (print_uint_chars x Hx) as (_ & Hc & _). unfold field. destruct n; cbn.
  - by rewrite app_nil_r, Hn.
  - rewrite split_at_app; [done|]. eapply Forall_impl; [exact Hc|]. cbv beta. tauto.
Qed.
(** The text of [n] numbers without the newline. *)
Fixpoint subauth_line (rs : list Z) : bytes :=
  match rs with
  | [] => []
  | [r] => print_uint r
  | r :: rs => print_uint r ++ 58 :: subauth_line rs
  end.
Lemma subauth_text_line rs : rs ≠ [] → subauth_text rs = subauth_line rs ++ [10].
Proof.
  induction rs as [|r [|r' rs] IH]; intros Hne; [done|done|].
  change (subauth_text (r :: r' :: rs)) with (print_uint r ++ 58 :: subauth_text (r' :: rs)).
  rewrite IH by done. change (subauth_line (r :: r' :: rs)) with (print_uint r ++ 58 :: subauth_line (r' :: rs)).
  by rewrite <-app_assoc.
Qed.
Lemma subauth_line_parsed rs :
  Forall (λ r, 0 ≤ r < 2 ^ 32) rs →
  is_a_subauth_from (length rs) (subauth_line rs) = true ∧ add_subauth_from (length rs) (subauth_line rs) = rs.
Proof.
  induction 1 as [|r rs Hr Hrs [IH1 IH2]]; [done|].
  assert (subauth_line (r :: rs) = print_uint r ++ (if (length rs =? 0)%nat then [] else 58 :: subauth_line rs)) as ->.
  { destruct rs; cbn; [by rewrite app_nil_r|done]. }
  destruct (print_uint_chars r ltac:(lia)) as (Hd & _ & Hne).
  cbn [length is_a_subauth_from add_subauth_from].
  rewrite !field_digits; [|lia|by destruct rs].
  rewrite print_uint_val, IH2 by done. split; [|done].
  destruct (print_uint r) as [|c l]; [done|]. by rewrite Hd.
Qed.
Lemma subauth_line_chars rs : Forall (λ r, 0 ≤ r < 2 ^ 32) rs → Forall (λ c, c ≠ 10 ∧ c ≠ 0) (subauth_line rs).
Proof.
  assert (∀ x, 0 ≤ x → Forall (λ c, c ≠ 10 ∧ c ≠ 0) (print_uint x)) as Hp.
  { intros x Hx. destruct (print_uint_chars x Hx) as (_ & Hc & _).
    eapply Forall_impl; [exact Hc|]. cbv beta. tauto. }
  induction 1 as [|r [|r' rs] Hr Hrs IH]; [constructor|apply Hp; lia|].
  change (subauth_line (r :: r' :: rs)) with (print_uint r ++ 58 :: subauth_line (r' :: rs)).
  apply Forall_app. split; [apply Hp; lia|]. by constructor.
Qed.
Lemma without_newline_app line : Forall (λ c, c ≠ 10 ∧ c ≠ 0) line → without_newline (line ++ [10]) = line.
Proof.
  intros Hl. unfold without_newline. rewrite split_at_app; [done|]. eapply Forall_impl; [exact Hl|]. cbv beta. tauto.
Qed.

(** The sub-authorities that a daemon without a file draws are
    the ones it uses, and every program that reads the text it writes has the
    same ones. *)
Theorem subauth_roundtrip tool set_conf_contents rand a b c s s' :
  Forall (λ r, 0 ≤ r < 2 ^ 32) [a; b; c] →
  let text := subauth_text [a; b; c] in
  cp_parse_subauth MOUNTD set_conf_contents [a; b; c] (inl ENOENT) s = Done (set_conf_contents text) [a; b; c] ∧
  cp_parse_subauth tool set_conf_contents rand (inr text) s' = Done 0 [a; b; c].
Proof.
  intros Hr text. destruct (subauth_line_parsed _ Hr) as [Hp Ha]. pose proof (subauth_line_chars _ Hr) as Hc.
  unfold text. rewrite subauth_text_line by done. set (line := subauth_line [a; b; c]) in *. split.
  - unfold cp_parse_subauth. cbn [__mmap_parse_file take num_subauth]. unfold fail.
    rewrite subauth_text_line by done. fold line. rewrite without_newline_app by done.
    change (- ENOENT =? - ENOENT) with true. unfold add_subauth. change num_subauth with (length [a; b; c]).
    by rewrite Ha.
  - unfold cp_parse_subauth. rewrite first_line; [|done| |].
    + unfold process_subauth_entry, is_a_subauth, add_subauth. change num_subauth with (length [a; b; c]).
      rewrite Hp. unfold modify. by rewrite Ha.
    + intros E. unfold line in E. cbn [subauth_line] in E. by apply app_nil in E as [_ ?].
    + unfold line. cbn [subauth_line]. rewrite !length_app. cbn [length]. rewrite !length_app. cbn [length].
      pose proof (print_uint_length a). pose proof (print_uint_length b). pose proof (print_uint_length c). lia.
Qed.

Lemma lock_pid_val acc l :
  Forall (λ c, 48 ≤ c ≤ 57) l → 0 ≤ acc → decimal_val acc l ≤ INT_MAX →
  acc ≤ decimal_val acc l ∧ (∀ s, lock_pid acc l s = Done (Some (decimal_val acc l)) s) ∧
  (∀ s, pid_of acc l s = Done (decimal_val acc l) s).
Proof.
  intros Hl. revert acc. induction Hl as [|c l Hc Hl IH]; intros acc Ha Hv; cbn [decimal_val lock_pid pid_of] in *.
  { split_and!; [lia|done|done]. }
  destruct (IH (10 * acc + (c - 48))) as (Hle & E1 & E2); [lia|done|].
  assert (is_digit c = true) as -> by (unfold is_digit; lia). cbn [negb].
  rewrite !(proj2 (Z.ltb_ge INT_MAX _)) by lia. cbn [orb].
  replace (acc * 10 + (c - 48)) with (10 * acc + (c - 48)) by lia. split_and!; [lia|done|done].
Qed.

(** The lock file keeps a second daemon out.  The process
    number that a daemon writes is read by the other programs while that
    process lives; a second daemon is refused then, and replaces the file of a
    process that is gone.  A number that does not fit makes the program
    overflow a signed integer. *)
Theorem lock_file_protocol alive verify set_conf_contents tool pid pid' s :
  1 < pid ≤ INT_MAX → 1 < pid' ≤ INT_MAX →
  let lock n := print_uint n ++ [10] in
  let parse tool' n := cp_parse_lock alive verify tool' set_conf_contents n in
  let live := alive pid && verify pid in
  parse MOUNTD pid (inl ENOENT) s = Done (set_conf_contents (lock pid)) pid ∧
  parse MOUNTD pid' (inr (lock pid)) s =
    Done (if live then - EAGAIN else set_conf_contents (lock pid')) pid' ∧
  (tool ≠ MOUNTD → parse tool pid' (inr (lock pid)) s = if live then Done 0 pid else Done (- EINVAL) s) ∧
  parse tool pid' (inr (str "9999999999")) s = Fault.
Proof.
  intros Hp Hp' lock parse live.
  assert (∀ n, 1 < n ≤ INT_MAX → Forall (λ c, c ≠ 10 ∧ c ≠ 0) (print_uint n) ∧ print_uint n ≠ [] ∧
    (∀ s, lock_pid 0 (print_uint n) s = Done (Some n) s) ∧ (∀ s, add_lock (print_uint n) s = Done tt n)) as Hn.
  { intros n Hn. destruct (print_uint_chars n ltac:(lia)) as (_ & Hc & Hne).
    assert (decimal_val 0 (print_uint n) = n) as E by (apply decimal_val_decimal; unfold INT_MAX in *; lia).
    destruct (lock_pid_val 0 (print_uint n)) as (_ & H1 & H2); [apply decimal_digits; lia|lia|lia|].
    split_and!; [|done|by intros; rewrite H1, E|].
    - eapply Forall_impl; [exact Hc|]. cbv beta. tauto.
    - intros s0. unfold add_lock, bind, modify. by rewrite H2, E. }
  destruct (Hn pid Hp) as (Hc1 & Hne1 & Hl1 & Ha1). destruct (Hn pid' Hp') as (Hc2 & _ & _ & Ha2).
  assert (∀ tool', __mmap_parse_file (process_lock_entry alive verify tool') true (inr (lock pid)) s =
    if live then match tool' with MOUNTD => Err (- EAGAIN) s | _ => Done tt pid end else Err (- EINVAL) s) as Hf.
  { intros tool'. unfold lock. rewrite first_line; [|done|done|pose proof (print_uint_length pid); lia].
    unfold process_lock_entry, is_a_lock, bind. destruct (print_uint pid) as [|x l] eqn:E; [done|]. rewrite <-E in *.
    rewrite Hl1. unfold ret. rewrite (proj2 (Z.ltb_lt _ _)) by lia. cbn [andb]. fold live.
    destruct live; [|done]. destruct tool'; rewrite ?Ha1; done. }
  unfold parse, cp_parse_lock. split_and!.
  - cbn [__mmap_parse_file fail]. rewrite Z.eqb_refl. cbn [orb]. rewrite without_newline_app by done.
    unfold bind. by rewrite Ha1.
  - rewrite Hf, without_newline_app by done. unfold bind. by destruct live; rewrite Ha2.
  - intros Ht. rewrite Hf. by destruct live, tool.
  - reflexivity.
Qed.
End SmallFiles.

Lemma subauth_roundtrip_witness :
  cp_parse_subauth ADDUSER (λ _, 0) [] (inr (str "7:4294967295:0" ++ [10])) [] = Done 0 [7; 4294967295; 0].
Proof.
  refine (proj2 (subauth_roundtrip ADDUSER (λ _, 0) [] 7 4294967295 0 [] [] _)). repeat constructor; lia.
Defined.
Lemma lock_file_protocol_witness :
  cp_parse_lock (λ _, true) (λ _, true) MOUNTD (λ _, 0) 99 (inr (str "4711" ++ [10])) 0 = Done (- EAGAIN) 99.
Proof.
  refine (proj1 (proj2 (lock_file_protocol (λ _, true) (λ _, true) (λ _, 0) CONTROL 4711 99 0 _ _)));
    vm_compute; split; congruence.
Defined.
