(* ===== verification/Quic.v ===== *)
(** * The QUIC handshake ([src/mountd/quic_picotls.c], parts of [src/third_party/picotls])

    The kernel server hands the first message of a QUIC client over to the
    daemon, which runs the TLS 1.3 handshake with picotls and returns the keys
    of the connection.  The integers and buffers of picotls that the code uses
    are modelled; its handshake, the key derivation and OpenSSL's files are a
    parameter. *)

From S2P Require Import Prelude ConfText Shares Config.

(** ** QUIC integers ([ptls_encode_quicint], [ptls_decode_quicint]) *)

(** The loop that stores the octets below the first: [n] of them, from the
    shift [8 * n] down to 8. *)
Fixpoint quicint_octets (n : nat) (v : Z) : bytes :=
  match n with
  | O => []
  | S n' => u8 (Z.shiftr v (8 * Z.of_nat n)) :: quicint_octets n' v
  end.
(** [None]: the assertion on the value fails. *)
Definition ptls_encode_quicint (v : Z) : option bytes :=
  if 63 <? v then
    if 16383 <? v then
      if 1073741823 <? v then
        if v <=? 4611686018427387903
        then Some (Z.lor 0xc0 (u8 (Z.shiftr v 56)) :: quicint_octets 6 v ++ [u8 v])
        else None
      else Some (Z.lor 0x80 (u8 (Z.shiftr v 24)) :: quicint_octets 2 v ++ [u8 v])
    else Some [Z.lor 0x40 (u8 (Z.shiftr (u16 v) 8)); u8 v]
  else Some [u8 v].
Fixpoint quicint_more (n : nat) (v : Z) (src : bytes) : option (Z * bytes) :=
  match n, src with
  | O, _ => Some (v, src)
  | S n, b :: src => quicint_more n (Z.lor (Z.shiftl v 8) b) src
  | S _, [] => None
  end.
(** [None]: [UINT64_MAX], which no encoding has. *)
Definition ptls_decode_quicint (src : bytes) : option (Z * bytes) :=
  match src with
  | [] => None
  | b :: src =>
      if b <=? 0x3f then Some (b, src)
      else quicint_more (Z.to_nat (Z.shiftl 1 (Z.shiftr b 6) - 1)) (Z.land b 0x3f) src
  end.

(** ** Buffers *)

(** [ptls_buffer_t]: the [off] octets in use, and the size of the memory, which
    is the caller's until it is allocated. *)
Record ptls_buffer := mk_buffer { bf_data : bytes; bf_capacity : Z; bf_allocated : bool }.
Definition PTLS_ERROR_NO_MEMORY : Z := 0x201.
Definition PTLS_ERROR_IN_PROGRESS : Z := 0x202.
Definition PTLS_ERROR_LIBRARY : Z := 0x203.
Definition PTLS_ALERT_NO_APPLICATION_PROTOCOL : Z := 120.
Definition PTLS_MAX_DIGEST_SIZE : Z := 64.
Definition ptls_buffer_init (smallbuf_size : Z) : ptls_buffer := mk_buffer [] smallbuf_size false.

Definition KSMBD_QUIC_MAX_CLIENT_HELLO : Z := 2048.
Definition KSMBD_QUIC_MAX_HS_DATA : Z := 8192.
Definition KSMBD_QUIC_MAX_CID_LEN : Z := 20.
Definition KSMBD_QUIC_KEY_SIZE : Z := 32.
Definition KSMBD_QUIC_IV_SIZE : Z := 12.
Definition KSMBD_QUIC_CIPHER_AES128GCM : Z := 0.
Definition KSMBD_QUIC_CIPHER_AES256GCM : Z := 1.

(** [struct ksmbd_quic_handshake_req] *)
Record handshake_req := mk_qreq {
  qr_handle : Z; qr_conn_id : Z; qr_dcid_len : Z; qr_retry_validated : Z; qr_dcid : bytes;
  qr_client_hello_len : Z; qr_client_hello : bytes;
}.
(** The keys of one direction: [key], [iv] and [hp] *)
Record key_set := mk_keys { ks_key : bytes; ks_iv : bytes; ks_hp : bytes }.
Definition no_keys : key_set :=
  mk_keys (replicate (Z.to_nat KSMBD_QUIC_KEY_SIZE) 0) (replicate (Z.to_nat KSMBD_QUIC_IV_SIZE) 0)
    (replicate (Z.to_nat KSMBD_QUIC_KEY_SIZE) 0).
(** [struct ksmbd_quic_handshake_rsp] *)
Record handshake_rsp := mk_qrsp {
  qs_handle : Z; qs_conn_id : Z; qs_success : Z; qs_cipher : Z;
  qs_hs_write : key_set; qs_hs_read : key_set; qs_app_write : key_set; qs_app_read : key_set;
  qs_initial_data_len : Z; qs_handshake_data_len : Z; qs_hs_data_len : Z; qs_hs_data : bytes;
}.

Section TransportParams.
Variable malloc : Z → bool.

(** [new_capacity] grows by doubling to at least [want]; [fuel] is the width of
    [size_t]. *)
Fixpoint grow (fuel : nat) (cap want : Z) : Z :=
  match fuel with
  | O => cap
  | S fuel => if cap <? want then grow fuel (cap * 2) want else cap
  end.
Definition ptls_buffer_reserve (delta : Z) : prog ptls_buffer unit :=
  b <- get ;;
  let off := Z.of_nat (length (bf_data b)) in
  if bf_capacity b <? off + delta then
    let cap := grow 64 (if bf_capacity b <? 1024 then 1024 else bf_capacity b) (off + delta) in
    if malloc cap then modify (λ b, mk_buffer (bf_data b) cap true) else fail PTLS_ERROR_NO_MEMORY
  else ret tt.
(** Storing behind the capacity is a fault. *)
Definition ptls_buffer__do_pushv (src : bytes) : prog ptls_buffer unit :=
  if (length src =? 0)%nat then ret tt
  else
    ptls_buffer_reserve (Z.of_nat (length src)) ;;
    b <- get ;;
    if Z.of_nat (length (bf_data b ++ src)) <=? bf_capacity b
    then modify (λ b, mk_buffer (bf_data b ++ src) (bf_capacity b) (bf_allocated b)) else fault.

Definition quic_tp_push_bytes (id : Z) (data : bytes) : prog ptls_buffer unit :=
  enc <- lift_option (ptls_encode_quicint id) ;;
  ptls_buffer__do_pushv enc ;;
  enc <- lift_option (ptls_encode_quicint (Z.of_nat (length data))) ;;
  ptls_buffer__do_pushv enc ;;
  if (length data =? 0)%nat then ret tt else ptls_buffer__do_pushv data.
Definition quic_tp_push_varint (id value : Z) : prog ptls_buffer unit :=
  v <- lift_option (ptls_encode_quicint value) ;;
  quic_tp_push_bytes id v.

Definition QUIC_TP_ORIGINAL_DCID : Z := 0x00.
Definition QUIC_TP_MAX_IDLE_TIMEOUT : Z := 0x01.
Definition QUIC_TP_MAX_UDP_PAYLOAD_SIZE : Z := 0x03.
Definition QUIC_TP_INITIAL_MAX_DATA : Z := 0x04.
Definition QUIC_TP_INITIAL_MAX_STREAM_DATA_BIDI_LOCAL : Z := 0x05.
Definition QUIC_TP_INITIAL_MAX_STREAM_DATA_BIDI_REMOTE : Z := 0x06.
Definition QUIC_TP_INITIAL_MAX_STREAMS_BIDI : Z := 0x08.
Definition QUIC_TP_DISABLE_ACTIVE_MIGRATION : Z := 0x0c.
Definition QUIC_TP_ACTIVE_CONNECTION_ID_LIMIT : Z := 0x0e.
Definition QUIC_TP_INITIAL_SOURCE_CID : Z := 0x0f.
Definition QUIC_TP_RETRY_SOURCE_CID : Z := 0x10.

(** [global_conf] *)
Variable conf : smbconf_global.
Definition or_default (v d : Z) : Z := if v =? 0 then d else v.
Definition idle_timeout_ms : Z := u64 (or_default (gc_int conf QUIC_RECV_TIMEOUT) 7 * 1000).
Definition max_io : Z := or_default (gc_int conf SMBD_MAX_IO_SIZE) (8 * 1024 * 1024).
(** [req->dcid, req->dcid_len]: reading behind the array is a fault. *)
Definition dcid (req : handshake_req) : prog ptls_buffer bytes :=
  if qr_dcid_len req <=? Z.of_nat (length (qr_dcid req))
  then ret (take (Z.to_nat (qr_dcid_len req)) (qr_dcid req)) else fault.
Definition quic_tls_build_transport_params (req : handshake_req) : prog ptls_buffer unit :=
  quic_tp_push_varint QUIC_TP_MAX_IDLE_TIMEOUT idle_timeout_ms ;;
  quic_tp_push_varint QUIC_TP_MAX_UDP_PAYLOAD_SIZE 1500 ;;
  quic_tp_push_varint QUIC_TP_INITIAL_MAX_DATA max_io ;;
  quic_tp_push_varint QUIC_TP_INITIAL_MAX_STREAM_DATA_BIDI_LOCAL max_io ;;
  quic_tp_push_varint QUIC_TP_INITIAL_MAX_STREAM_DATA_BIDI_REMOTE max_io ;;
  quic_tp_push_varint QUIC_TP_INITIAL_MAX_STREAMS_BIDI 1 ;;
  quic_tp_push_varint QUIC_TP_ACTIVE_CONNECTION_ID_LIMIT 2 ;;
  quic_tp_push_bytes QUIC_TP_DISABLE_ACTIVE_MIGRATION [] ;;
  id <- dcid req ;;
  quic_tp_push_bytes QUIC_TP_INITIAL_SOURCE_CID id ;;
  if qr_retry_validated req =? 0 then ret tt
  else
    quic_tp_push_bytes QUIC_TP_ORIGINAL_DCID id ;;
    quic_tp_push_bytes QUIC_TP_RETRY_SOURCE_CID id.
End TransportParams.

(** ** TLS *)

(** [struct ksmbd_quic_secret] and [struct ksmbd_quic_session] *)
Record secret := mk_secret { sc_buf : bytes; sc_len : Z; sc_valid : bool }.
Definition no_secret : secret := mk_secret (replicate (Z.to_nat PTLS_MAX_DIGEST_SIZE) 0) 0 false.
Record quic_session := mk_qsession {
  qn_hs_write : secret; qn_hs_read : secret; qn_app_write : secret; qn_app_read : secret;
}.
Definition new_session : quic_session := mk_qsession no_secret no_secret no_secret no_secret.

(** [ptls_cipher_suite_t]: [aead->key_size] and [hash->digest_size], where the
    pointers are set. *)
Record cipher_suite := mk_suite { cs_key_size : option Z; cs_digest_size : option Z }.
(** A call of [update_traffic_key]: the secret has the octets of a digest. *)
Record traffic_key := mk_traffic { tk_is_enc : bool; tk_epoch : Z; tk_secret : bytes }.
(** What a handshake comes to when the client was accepted: the calls it made
    and the cipher at that time, its code, what it has to send with the offsets
    of the epochs, and [ptls_get_pending_traffic_secret] behind it. *)
Record tls_run := mk_run {
  tr_cipher : option cipher_suite; tr_keys : list traffic_key; tr_ret : Z;
  tr_sendbuf : bytes; tr_offsets : list Z; tr_pending : Z + bytes;
}.
(** picotls and the files of OpenSSL.  [client_hello]: the protocols and the
    name of the server in a message of a client, or an alert;
    [handshake hello extension]: what follows; [expand_label hash secret label
    n]: [n] octets of key, or an error. *)
Class Ptls := {
  client_hello : bytes → Z + (list bytes * bytes);
  handshake : bytes → bytes → tls_run;
  expand_label : Z → bytes → bytes → Z → Z + bytes;
  ptls_load_certificates : bytes → Z;
  read_private_key : bytes → Z;
  init_sign_certificate : Z;
  ptls_server_new : bool;
  ptls_malloc : Z → bool;
}.

(** [quic_tls]: whether it is ready *)
Record tls_ctx := mk_ctx { tx_initialized : bool }.

Section Tls.
Context `{Ptls}.
Variable conf : smbconf_global.

(** The protocol and the server name that are set are those of the client. *)
Fixpoint on_client_hello (protocols : list bytes) : Z :=
  match protocols with
  | [] => PTLS_ALERT_NO_APPLICATION_PROTOCOL
  | proto :: protocols => if bool_decide (proto = str "smb") then 0 else on_client_hello protocols
  end.
Definition quic_tls_on_client_hello_cb (hello : list bytes * bytes) : Z := on_client_hello hello.1.

Definition quic_tls_capture_secret (cipher : option cipher_suite) (k : traffic_key) : prog quic_session unit :=
  match cipher ≫= cs_digest_size with
  | None => fail PTLS_ERROR_LIBRARY
  | Some digest_size =>
      let set (f : secret → quic_session → quic_session) : prog quic_session unit :=
        if PTLS_MAX_DIGEST_SIZE <? digest_size then fail PTLS_ERROR_LIBRARY
        else if negb (digest_size =? Z.of_nat (length (tk_secret k))) then fault
        else modify (f (mk_secret (mem_write 0 (tk_secret k) (sc_buf no_secret)) digest_size true)) in
      if tk_epoch k =? 2 then
        if tk_is_enc k then set (λ v s, mk_qsession v (qn_hs_read s) (qn_app_write s) (qn_app_read s))
        else set (λ v s, mk_qsession (qn_hs_write s) v (qn_app_write s) (qn_app_read s))
      else if tk_epoch k =? 3 then
        if tk_is_enc k then set (λ v s, mk_qsession (qn_hs_write s) (qn_hs_read s) v (qn_app_read s))
        else set (λ v s, mk_qsession (qn_hs_write s) (qn_hs_read s) (qn_app_write s) v)
      else ret tt
  end.

(** The octets of a label go to an array of [size]. *)
Definition expand {S : Type} (size hash : Z) (secret label : bytes) (n : Z) : prog S bytes :=
  match expand_label hash secret label n with
  | inl e => fail e
  | inr k => if n <=? size then ret (mem_write 0 k (replicate (Z.to_nat size) 0)) else fault
  end.
Definition quic_tls_derive_secret {S : Type} (digest_size : Z) (secret : secret) (key_len : Z) : prog S key_set :=
  if negb (sc_valid secret) || negb (sc_len secret =? digest_size) then fail (- EINVAL)
  else
    let s := take (Z.to_nat (sc_len secret)) (sc_buf secret) in
    key <- expand KSMBD_QUIC_KEY_SIZE digest_size s (str "quic key") key_len ;;
    iv <- expand KSMBD_QUIC_IV_SIZE digest_size s (str "quic iv") KSMBD_QUIC_IV_SIZE ;;
    hp <- expand KSMBD_QUIC_KEY_SIZE digest_size s (str "quic hp") key_len ;;
    ret (mk_keys key iv hp).

Definition ksmbd_quic_tls_do_init_locked : prog tls_ctx Z :=
  q <- get ;;
  if tx_initialized q then ret 0
  else
    match gc_str conf QUIC_TLS_CERT, gc_str conf QUIC_TLS_KEY with
    | Some cert, Some key =>
        let r := ptls_load_certificates cert in
        if negb (r =? 0) then ret r
        else
          let r := read_private_key key in
          if negb (r =? 0) then ret r
          else
            let r := init_sign_certificate in
            if negb (r =? 0) then ret r
            else modify (λ _, mk_ctx true) ;; ret 0
    | _, _ => ret (- ENOENT)
    end.
Definition ksmbd_quic_tls_init : prog tls_ctx Z := ksmbd_quic_tls_do_init_locked.
Definition ksmbd_quic_tls_is_configured : bool :=
  negb (gc_int conf QUIC_HANDSHAKE_DELEGATE =? 0) && bool_decide (is_Some (gc_str conf QUIC_TLS_CERT)) &&
  bool_decide (is_Some (gc_str conf QUIC_TLS_KEY)).

(** [ptls_handle_message] with the two callbacks: a callback that fails ends
    the handshake with its code. *)
Definition ptls_handle_message (hello extension : bytes) : prog quic_session (Z * option tls_run) :=
  match client_hello hello with
  | inl alert => ret (alert, None)
  | inr ch =>
      let r := quic_tls_on_client_hello_cb ch in
      if negb (r =? 0) then ret (r, None)
      else
        let run := handshake hello extension in
        r <- attempt (for_each (tr_keys run) (quic_tls_capture_secret (tr_cipher run))) ;;
        ret (match r with inl _ => tr_ret run | inr e => e end, Some run)
  end.
(** A program on a local variable that starts as [s0]. *)
Definition local {S S' A : Type} (s0 : S') (m : prog S' A) : prog S (A * S') := λ s,
  match m s0 with
  | Done a s' => Done (a, s') s
  | Err e _ => Err e s
  | Fault => Fault
  end.
(** [epoch_offsets[i]] of [size_t epoch_offsets[5]] *)
Definition epoch_offset (run : tls_run) (i : nat) : Z := nth i (tr_offsets run) 0.
(** The keys by which the application's data of the client will be read: the
    secret may still be pending. *)
Definition derive_app_read {S : Type} (digest_size key_size : Z) (session : quic_session) (run : tls_run)
    : prog S key_set :=
  let pending_app_read :=
    if sc_valid (qn_app_read session) then no_secret
    else match tr_pending run with
         | inl _ => no_secret
         | inr s => mk_secret (mem_write 0 s (sc_buf no_secret)) digest_size true
         end in
  r <- attempt (quic_tls_derive_secret digest_size (qn_app_read session) key_size) ;;
  match r with
  | inl keys => ret keys
  | inr e =>
      if (e =? - EINVAL) && sc_valid pending_app_read
      then quic_tls_derive_secret digest_size pending_app_read key_size
      else fail e
  end.
(** From [ptls_get_cipher] to the end. *)
Definition handshake_keys {S : Type} (req : handshake_req) (session : quic_session) (run : option tls_run)
    : prog S handshake_rsp :=
  match run with
  | None => fail (- EINVAL)
  | Some run =>
      match tr_cipher run with
      | Some (mk_suite (Some key_size) (Some digest_size)) =>
          let off := Z.of_nat (length (tr_sendbuf run)) in
          if (KSMBD_QUIC_MAX_HS_DATA <? off) || (off <? epoch_offset run 1) || (off <? epoch_offset run 3) ||
             (epoch_offset run 3 <? epoch_offset run 2)
          then fail (- EINVAL)
          else
            hs_write <- quic_tls_derive_secret digest_size (qn_hs_write session) key_size ;;
            hs_read <- quic_tls_derive_secret digest_size (qn_hs_read session) key_size ;;
            app_write <- quic_tls_derive_secret digest_size (qn_app_write session) key_size ;;
            app_read <- derive_app_read digest_size key_size session run ;;
            ret (mk_qrsp (qr_handle req) (qr_conn_id req) 1
                   (if key_size =? 32 then KSMBD_QUIC_CIPHER_AES256GCM else KSMBD_QUIC_CIPHER_AES128GCM)
                   hs_write hs_read app_write app_read
                   (u32 (epoch_offset run 1)) (u32 (epoch_offset run 3 - epoch_offset run 2)) (u32 off)
                   (mem_write 0 (tr_sendbuf run) (replicate (Z.to_nat KSMBD_QUIC_MAX_HS_DATA) 0)))
      | _ => fail (- EINVAL)
      end
  end.
Definition ksmbd_quic_build_handshake_rsp (req : handshake_req) : prog tls_ctx handshake_rsp :=
  r <- ksmbd_quic_tls_init ;;
  if negb (r =? 0) then fail r
  else if (qr_dcid_len req =? 0) || (KSMBD_QUIC_MAX_CID_LEN <? qr_dcid_len req) then fail (- EINVAL)
  else if KSMBD_QUIC_MAX_CLIENT_HELLO <? qr_client_hello_len req then fail (- EINVAL)
  else
    tp <- local (ptls_buffer_init 256) (quic_tls_build_transport_params ptls_malloc conf req) ;;
    if negb ptls_server_new then fail (- ENOMEM)
    else
      h <- local new_session
             (ptls_handle_message (take (Z.to_nat (qr_client_hello_len req)) (qr_client_hello req)) (bf_data tp.2)) ;;
      let '((r, run), session) := h in
      if negb (r =? 0) && negb (r =? PTLS_ERROR_IN_PROGRESS) then fail r
      else handshake_keys req session run.
End Tls.

(** ** QUIC integers read back *)
Lemma next_octet v k : 0 ≤ k → Z.lor (Z.shiftl (v / 2 ^ (k + 8)) 8) ((v / 2 ^ k) mod 256) = v / 2 ^ k.
Proof.
  intros Hk. rewrite shiftl_mul, lor_add by (try apply Z.mod_pos_bound; lia).
  rewrite Z.pow_add_r, <-Z.div_div by lia. change (2 ^ 8) with 256. pose proof (Z.div_mod (v / 2 ^ k) 256 ltac:(lia)). lia.
Qed.
Lemma u8_shiftr v k : 0 ≤ k → u8 (Z.shiftr v k) = (v / 2 ^ k) mod 256.
Proof. intros Hk. unfold u8, wrap. by rewrite shiftr_div. Qed.
Lemma quicint_more_octets n v rest :
  quicint_more (S n) (v / 2 ^ (8 * Z.of_nat (S n))) (quicint_octets n v ++ u8 v :: rest) = Some (v, rest).
Proof.
  induction n as [|n IH].
  - cbn [quicint_octets app quicint_more]. f_equal. f_equal. pose proof (next_octet v 0 ltac:(lia)) as Hn.
    rewrite Z.pow_0_r, Z.div_1_r in Hn. exact Hn.
  - cbn [quicint_octets app]. rewrite u8_shiftr by lia.
    change (quicint_more (S (S n)) ?x (?b :: ?r)) with (quicint_more (S n) (Z.lor (Z.shiftl x 8) b) r).
    replace (8 * Z.of_nat (S (S n))) with (8 * Z.of_nat (S n) + 8) by lia. rewrite next_octet by lia. exact IH.
Qed.
Lemma length_quicint_octets n v : length (quicint_octets n v) = n.
Proof. induction n; cbn; congruence. Qed.
(** The first octet has the length in its upper two bits. *)
Lemma first_octet (t n : nat) v rest :
  0 ≤ v → v / 2 ^ (8 * Z.of_nat (S n)) < 64 → (t = 1 ∧ n = 0 ∨ t = 2 ∧ n = 2 ∨ t = 3 ∧ n = 6)%nat →
  ptls_decode_quicint (Z.lor (Z.of_nat t * 64) (u8 (Z.shiftr v (8 * Z.of_nat (S n)))) :: quicint_octets n v ++ u8 v :: rest)
    = Some (v, rest).
Proof.
  intros Hv Hs Htn. set (x := v / 2 ^ (8 * Z.of_nat (S n))) in *.
  assert (0 ≤ x) as Hx by (apply Z.div_pos; lia).
  rewrite u8_shiftr by lia. fold x. rewrite (Z.mod_small x) by lia.
  change 64 with (2 ^ 6) at 1. rewrite lor_add by lia. cbn [ptls_decode_quicint].
  rewrite (proj2 (Z.leb_gt _ _)) by (destruct Htn as [[-> _] | [[-> _] | [-> _]]]; lia).
  assert (Z.shiftr (Z.of_nat t * 2 ^ 6 + x) 6 = Z.of_nat t) as ->.
  { rewrite shiftr_div by lia. rewrite Z.add_comm, Z.div_add by lia. rewrite Z.div_small; lia. }
  change 0x3f with (2 ^ 6 - 1). rewrite land_mask by lia.
  assert ((Z.of_nat t * 2 ^ 6 + x) mod 2 ^ 6 = x) as ->.
  { rewrite Z.add_comm, Z.mod_add, Z.mod_small by lia. done. }
  assert (Z.to_nat (Z.shiftl 1 (Z.of_nat t) - 1) = S n) as ->.
  { destruct Htn as [[-> ->] | [[-> ->] | [-> ->]]]; reflexivity. }
  apply quicint_more_octets.
Qed.
Lemma quicint_roundtrip v rest :
  0 ≤ v < 2 ^ 62 →
  ∃ e, ptls_encode_quicint v = Some e ∧ (1 ≤ length e ≤ 8)%nat ∧ ptls_decode_quicint (e ++ rest) = Some (v, rest).
Proof.
  intros Hv. unfold ptls_encode_quicint.
  destruct (Z.ltb_spec 63 v) as [H1|H1]; [|eexists; split; [done|]; split; [cbn; lia|]].
  2:{ cbn [app ptls_decode_quicint]. unfold u8, wrap. rewrite Z.mod_small by lia. by rewrite (proj2 (Z.leb_le _ _)) by lia. }
  destruct (Z.ltb_spec 16383 v) as [H2|H2].
  - destruct (Z.ltb_spec 1073741823 v) as [H3|H3].
    + rewrite (proj2 (Z.leb_le _ _)) by lia. eexists. split; [done|]. split; [cbn; lia|].
      cbn [app]. rewrite <-app_assoc. cbn [app]. apply (first_octet 3 6); [lia| |lia]. apply Z.div_lt_upper_bound; lia.
    + eexists. split; [done|]. split; [cbn; lia|].
      cbn [app]. rewrite <-app_assoc. cbn [app]. apply (first_octet 2 2); [lia| |lia]. apply Z.div_lt_upper_bound; lia.
  - eexists. split; [done|]. split; [cbn; lia|]. unfold u16, wrap. rewrite Z.mod_small by lia.
    cbn [app]. apply (first_octet 1 0 v rest); [lia| |lia]. apply Z.div_lt_upper_bound; lia.
Qed.
Lemma quicint_one v : 0 ≤ v < 64 → ptls_encode_quicint v = Some [v].
Proof.
  intros Hv. unfold ptls_encode_quicint. rewrite (proj2 (Z.ltb_ge _ _)) by lia.
  unfold u8, wrap. by rewrite Z.mod_small by lia.
Qed.

(** ** The transport parameters *)

(** The parameters that a client reads from the extension: an identifier, a
    length and the octets of the value, to the end. *)
Fixpoint tp_decode (fuel : nat) (b : bytes) : option (list (Z * bytes)) :=
  match b, fuel with
  | [], _ => Some []
  | _, O => None
  | _, S fuel =>
      '(id, b) ← ptls_decode_quicint b;
      '(len, b) ← ptls_decode_quicint b;
      if Z.of_nat (length b) <? len then None
      else ((id, take (Z.to_nat len) b) ::.) <$> tp_decode fuel (drop (Z.to_nat len) b)
  end.
Definition tp_octets (p : Z * bytes) : bytes := p.1 :: Z.of_nat (length p.2) :: p.2.
Definition tp_small (p : Z * bytes) : Prop := 0 ≤ p.1 < 64 ∧ (length p.2 < 64)%nat.
Lemma tp_decode_octets l fuel :
  Forall tp_small l → (length l ≤ fuel)%nat → tp_decode fuel (flat_map tp_octets l) = Some l.
Proof.
  intros Hl. revert fuel. induction Hl as [|[id d] l [Hid Hd] _ IH]; intros fuel Hf; cbn [flat_map]; [by destruct fuel|].
  destruct fuel as [|fuel]; [cbn in Hf; lia|]. cbn [fst snd] in *. unfold tp_octets at 1. cbn [fst snd app tp_decode].
  cbn [ptls_decode_quicint]. rewrite (proj2 (Z.leb_le id _)) by lia. cbn [mbind option_bind ptls_decode_quicint].
  rewrite (proj2 (Z.leb_le (Z.of_nat (length d)) _)) by lia. cbn [mbind option_bind].
  rewrite (proj2 (Z.ltb_ge _ _)) by (rewrite length_app; lia). rewrite Nat2Z.id, take_app_length, drop_app_length, IH; [done|].
  cbn in Hf. lia.
Qed.
Lemma tp_octets_length l : (length l ≤ length (flat_map tp_octets l))%nat.
Proof. induction l as [|p l IH]; cbn; [done|]. rewrite length_app. lia. Qed.

Section Params.
Variable malloc : Z → bool.
(** The buffer holds the parameters [l] in the memory of the caller. *)
Record filled (l : list (Z * bytes)) (b : ptls_buffer) : Prop := {
  fi_data : bf_data b = flat_map tp_octets l;
  fi_capacity : bf_capacity b = 256;
  fi_caller : bf_allocated b = false;
}.
Lemma do_pushv_wp src b (Q : unit → ptls_buffer → Prop) E :
  Z.of_nat (length (bf_data b)) + Z.of_nat (length src) ≤ bf_capacity b →
  Q tt (mk_buffer (bf_data b ++ src) (bf_capacity b) (bf_allocated b)) → wp (ptls_buffer__do_pushv malloc src) b Q E.
Proof.
  intros Hc HQ. unfold ptls_buffer__do_pushv. destruct (Nat.eqb_spec (length src) 0) as [E0|_].
  { destruct src; [|done]. rewrite app_nil_r in HQ. destruct b. exact HQ. }
  wp_step. unfold ptls_buffer_reserve. wp_step. wp_step. rewrite (proj2 (Z.ltb_ge _ _)) by lia. wp_step. wp_step. wp_step.
  rewrite length_app, (proj2 (Z.leb_le _ _)) by lia. by wp_step.
Qed.
Definition tp_length (l : list (Z * bytes)) : nat := length (flat_map tp_octets l).
Lemma push_bytes_wp l id data b (Q : unit → ptls_buffer → Prop) E :
  filled l b → tp_small (id, data) → (tp_length l + 2 + length data ≤ 256)%nat →
  (∀ b', filled (l ++ [(id, data)]) b' → Q tt b') → wp (quic_tp_push_bytes malloc id data) b Q E.
Proof.
  intros [Hd Hc Ha] [Hid Hlen] Hfit HQ. cbn [fst snd] in *. unfold tp_length in Hfit. rewrite <-Hd in Hfit.
  unfold quic_tp_push_bytes. rewrite !quicint_one by lia. cbn [lift_option]. do 2 wp_step. wp_step.
  apply do_pushv_wp; [cbn; lia|]. do 2 wp_step. wp_step. apply do_pushv_wp; [cbn; rewrite length_app; cbn; lia|].
  set (b1 := mk_buffer _ _ _).
  assert (filled (l ++ [(id, data)]) (mk_buffer (bf_data b1 ++ data) (bf_capacity b1) (bf_allocated b1))) as Hb.
  { split; [|done..]. cbn. rewrite Hd, flat_map_app, <-!app_assoc. cbn. by rewrite app_nil_r. }
  destruct (Nat.eqb_spec (length data) 0) as [E0|_].
  - wp_step. apply HQ. destruct data; [|done]. rewrite app_nil_r in Hb. by destruct b1.
  - apply do_pushv_wp; [|by apply HQ]. cbn. rewrite !length_app. cbn. lia.
Qed.
(** The octets of a number *)
Definition varint (v : Z) : bytes := default [] (ptls_encode_quicint v).
Lemma varint_octets v : 0 ≤ v < 2 ^ 62 → ptls_encode_quicint v = Some (varint v) ∧ (1 ≤ length (varint v) ≤ 8)%nat ∧ ptls_decode_quicint (varint v) = Some (v, []).
Proof.
  intros Hv. destruct (quicint_roundtrip v [] Hv) as (e & He & Hl & Hd). unfold varint. rewrite He. cbn. by rewrite app_nil_r in Hd.
Qed.
Lemma push_varint_wp l id v b (Q : unit → ptls_buffer → Prop) E :
  filled l b → 0 ≤ id < 64 → 0 ≤ v < 2 ^ 62 → (tp_length l + 10 ≤ 256)%nat →
  (∀ b', filled (l ++ [(id, varint v)]) b' → Q tt b') → wp (quic_tp_push_varint malloc id v) b Q E.
Proof.
  intros Hb Hid Hv Hfit HQ. destruct (varint_octets v Hv) as (He & Hl & _). unfold quic_tp_push_varint. rewrite He. cbn [lift_option]. wp_step. wp_step.
  eapply push_bytes_wp; [done|split; cbn; lia|lia|done].
Qed.
Lemma tp_length_snoc l id d : tp_length (l ++ [(id, d)]) = (tp_length l + 2 + length d)%nat.
Proof. unfold tp_length. rewrite flat_map_app, length_app. cbn. rewrite app_nil_r. lia. Qed.

Variable conf : smbconf_global.
(** The members are [unsigned int]. *)
Hypothesis timeout_u32 : 0 ≤ gc_int conf QUIC_RECV_TIMEOUT < 2 ^ 32.
Hypothesis io_u32 : 0 ≤ gc_int conf SMBD_MAX_IO_SIZE < 2 ^ 32.

Definition connection_id (req : handshake_req) : bytes := take (Z.to_nat (qr_dcid_len req)) (qr_dcid req).
Definition numbers : list (Z * Z) :=
  [(QUIC_TP_MAX_IDLE_TIMEOUT, idle_timeout_ms conf); (QUIC_TP_MAX_UDP_PAYLOAD_SIZE, 1500);
   (QUIC_TP_INITIAL_MAX_DATA, max_io conf); (QUIC_TP_INITIAL_MAX_STREAM_DATA_BIDI_LOCAL, max_io conf);
   (QUIC_TP_INITIAL_MAX_STREAM_DATA_BIDI_REMOTE, max_io conf); (QUIC_TP_INITIAL_MAX_STREAMS_BIDI, 1);
   (QUIC_TP_ACTIVE_CONNECTION_ID_LIMIT, 2)].
Definition transport_params (req : handshake_req) : list (Z * bytes) :=
  (prod_map id varint <$> numbers) ++
  [(QUIC_TP_DISABLE_ACTIVE_MIGRATION, []); (QUIC_TP_INITIAL_SOURCE_CID, connection_id req)] ++
  (if qr_retry_validated req =? 0 then []
   else [(QUIC_TP_ORIGINAL_DCID, connection_id req); (QUIC_TP_RETRY_SOURCE_CID, connection_id req)]).

Lemma idle_timeout_range : 0 ≤ idle_timeout_ms conf < 2 ^ 62.
Proof.
  unfold idle_timeout_ms, or_default. destruct (_ =? 0); [by vm_compute|]. rewrite u64_small by lia. lia.
Qed.
Lemma max_io_range : 0 ≤ max_io conf < 2 ^ 62.
Proof. unfold max_io, or_default. destruct (_ =? 0); [by vm_compute|]. lia. Qed.
Lemma numbers_range : Forall (λ '(id, v), 0 ≤ id < 64 ∧ 0 ≤ v < 2 ^ 62) numbers.
Proof.
  pose proof idle_timeout_range. pose proof max_io_range.
  repeat constructor; try done; try lia; vm_compute; intuition congruence.
Qed.

(** A request that passed the checks of [ksmbd_quic_build_handshake_rsp] *)
Record req_ok (req : handshake_req) : Prop := {
  rq_dcid_len : 1 ≤ qr_dcid_len req ≤ KSMBD_QUIC_MAX_CID_LEN;
  rq_dcid : Z.of_nat (length (qr_dcid req)) = KSMBD_QUIC_MAX_CID_LEN;
}.
Lemma connection_id_length req : req_ok req → Z.of_nat (length (connection_id req)) = qr_dcid_len req.
Proof. intros [Hl Hd]. unfold connection_id. rewrite length_take. lia. Qed.
Lemma dcid_wp req b (Q : bytes → ptls_buffer → Prop) E :
  req_ok req → Q (connection_id req) b → wp (dcid req) b Q E.
Proof. intros [Hl Hd] HQ. unfold dcid. by rewrite (proj2 (Z.leb_le _ _)) by lia. Qed.

Lemma varint_length v : 0 ≤ v < 2 ^ 62 → (length (varint v) ≤ 8)%nat.
Proof. intros Hv. apply (varint_octets v Hv). Qed.
Ltac still_fits := rewrite ?tp_length_snoc; change (tp_length []) with 0%nat; cbn [length]; lia.
Lemma params_built req :
  req_ok req → wp (quic_tls_build_transport_params malloc conf req) (ptls_buffer_init 256)
    (λ _ b, filled (transport_params req) b) (λ _ _, False).
Proof.
  intros Hreq. pose proof idle_timeout_range as Hi. pose proof max_io_range as Hm.
  pose proof (varint_length _ Hi). pose proof (varint_length _ Hm).
  pose proof (varint_length 1500 ltac:(lia)). pose proof (varint_length 1 ltac:(lia)). pose proof (varint_length 2 ltac:(lia)).
  pose proof (connection_id_length req Hreq) as Hc. pose proof (rq_dcid_len req Hreq) as Hcl. unfold KSMBD_QUIC_MAX_CID_LEN in Hcl.
  unfold quic_tls_build_transport_params, transport_params, numbers. cbn [fmap list_fmap prod_map id fst snd app].
  assert (filled [] (ptls_buffer_init 256)) as Hf by done. revert Hf. generalize (ptls_buffer_init 256). intros b0 Hf0.
  do 7 (wp_step; eapply push_varint_wp; [eassumption|by vm_compute|done || lia|still_fits|intros ? ?]).
  wp_step. eapply push_bytes_wp; [eassumption|split; [done|cbn; lia]|still_fits|intros ? ?].
  wp_step. apply (dcid_wp req); [done|]. wp_step.
  eapply push_bytes_wp; [eassumption|split; [done|cbn; lia]|still_fits|intros b1 Hf1].
  destruct (qr_retry_validated req =? 0); [by wp_step|].
  wp_step. eapply push_bytes_wp; [eassumption|split; [done|cbn; lia]|still_fits|intros b2 Hf2].
  eapply push_bytes_wp; [eassumption|split; [done|cbn; lia]|still_fits|intros b3 Hf3]. exact Hf3.
Qed.
Lemma transport_params_small req : req_ok req → Forall tp_small (transport_params req).
Proof.
  intros Hreq. pose proof (connection_id_length req Hreq) as Hc. pose proof (rq_dcid_len req Hreq) as Hl.
  unfold KSMBD_QUIC_MAX_CID_LEN in Hl. assert ((length (connection_id req) < 64)%nat) as Hs by lia. unfold transport_params. rewrite !Forall_app. split_and!.
  - apply Forall_fmap. eapply Forall_impl; [apply numbers_range|]. intros [i v] [Hi Hv]. split; [done|]. cbn.
    pose proof (varint_length v Hv). lia.
  - by repeat (apply Forall_cons; split; [split; [done|cbn; lia]|]).
  - destruct (_ =? 0); by repeat (apply Forall_cons; split; [split; [done|cbn; lia]|]).
Qed.

(** C27 (roundtrip): the transport parameters sent to a QUIC client fit the
    memory on the stack whatever the configuration and the connection, so that
    they are built without an allocation and can not fail; and what the client
    decodes from them are the parameters in their order, with the numbers of
    the configuration. *)
Theorem transport_params_roundtrip req :
  req_ok req →
  wp (quic_tls_build_transport_params malloc conf req) (ptls_buffer_init 256)
    (λ _ b, bf_allocated b = false ∧ tp_decode (length (bf_data b)) (bf_data b) = Some (transport_params req))
    (λ _ _, False) ∧
  Forall (λ '(_, v), ptls_decode_quicint (varint v) = Some (v, [])) numbers.
Proof.
  intros Hreq. split.
  - eapply wp_mono; [by apply params_built| |done]. intros _ b [Hd _ Ha]. split; [done|]. rewrite Hd.
    apply tp_decode_octets; [by apply transport_params_small|]. apply tp_octets_length.
  - eapply Forall_impl; [apply numbers_range|]. intros [i v] [_ Hv]. by apply varint_octets.
Qed.
End Params.

(** ** The answer to a handshake *)

(** What picotls promises: keys of the length that was asked for, secrets of
    the length of the digest, no cipher with a longer key than AES-256 and
    no digest beyond [PTLS_MAX_DIGEST_SIZE], the epochs of what is sent in their order, and errors that are not zero. *)
Class PtlsLaws `{Ptls} : Prop := {
  expand_length h s l n k : 0 ≤ n → expand_label h s l n = inr k → Z.of_nat (length k) = n;
  expand_error h s l n e : expand_label h s l n = inl e → e ≠ 0;
  run_suite hello ext k d : tr_cipher (handshake hello ext) = Some (mk_suite k d) →
    from_option (λ k, 0 ≤ k ≤ 32) True k ∧
    from_option (λ d, 0 ≤ d ≤ PTLS_MAX_DIGEST_SIZE ∧ Forall (λ t, Z.of_nat (length (tk_secret t)) = d) (tr_keys (handshake hello ext)) ∧
                      ∀ s, tr_pending (handshake hello ext) = inr s → Z.of_nat (length s) = d) True d;
  run_offsets hello ext : let o := epoch_offset (handshake hello ext) in 0 ≤ o 1%nat ≤ o 2%nat ∧ o 2%nat ≤ o 3%nat;
}.

Section Handshake.
Context `{PtlsLaws}.
Variable conf : smbconf_global.
Hypothesis timeout_u32' : 0 ≤ gc_int conf QUIC_RECV_TIMEOUT < 2 ^ 32.
Hypothesis io_u32' : 0 ≤ gc_int conf SMBD_MAX_IO_SIZE < 2 ^ 32.

(** The last secret that was given for a direction and an epoch *)
Definition captured (is_enc : bool) (epoch : Z) (keys : list traffic_key) : option bytes :=
  foldl (λ acc k, if eqb (tk_is_enc k) is_enc && (tk_epoch k =? epoch) then Some (tk_secret k) else acc) None keys.
Definition kept_secret (digest_size : Z) (o : option bytes) : secret :=
  match o with
  | None => no_secret
  | Some b => mk_secret (mem_write 0 b (sc_buf no_secret)) digest_size true
  end.
Definition captured_session (digest_size : Z) (keys : list traffic_key) : quic_session :=
  mk_qsession (kept_secret digest_size (captured true 2 keys)) (kept_secret digest_size (captured false 2 keys))
    (kept_secret digest_size (captured true 3 keys)) (kept_secret digest_size (captured false 3 keys)).
Lemma captured_snoc is_enc epoch keys k :
  captured is_enc epoch (keys ++ [k]) =
  if eqb (tk_is_enc k) is_enc && (tk_epoch k =? epoch) then Some (tk_secret k) else captured is_enc epoch keys.
Proof. unfold captured. by rewrite foldl_app. Qed.
Lemma capture_wp suite done k :
  let d := default 0 (suite ≫= cs_digest_size) in
  (∀ d, suite ≫= cs_digest_size = Some d → Z.of_nat (length (tk_secret k)) = d) →
  wp (quic_tls_capture_secret suite k) (captured_session d done)
    (λ _ s, s = captured_session d (done ++ [k])) (λ e _, e = PTLS_ERROR_LIBRARY).
Proof.
  intros d Hk. subst d. unfold quic_tls_capture_secret, captured_session. destruct (suite ≫= cs_digest_size) as [d|]; [|by wp_step].
  rewrite !captured_snoc, (Hk d eq_refl), Z.eqb_refl. cbn [negb default].
  destruct (Z.eqb_spec (tk_epoch k) 2) as [E2|N2].
  { rewrite E2. destruct (_ <? d), (tk_is_enc k); by wp_step. }
  destruct (Z.eqb_spec (tk_epoch k) 3) as [E3|N3]; [destruct (_ <? d), (tk_is_enc k); by wp_step|].
  wp_step. by rewrite !andb_false_r.
Qed.
Lemma captures_wp suite keys done :
  let d := default 0 (suite ≫= cs_digest_size) in
  (∀ d, suite ≫= cs_digest_size = Some d → Forall (λ t, Z.of_nat (length (tk_secret t)) = d) keys) →
  wp (for_each keys (quic_tls_capture_secret suite)) (captured_session d done)
    (λ _ s, s = captured_session d (done ++ keys)) (λ e _, e = PTLS_ERROR_LIBRARY).
Proof.
  intros d Hk. revert done. induction keys as [|k keys IH]; intros done; cbn [for_each]; [wp_step; by rewrite app_nil_r|].
  wp_step. eapply wp_mono; [apply capture_wp|cbv beta|done].
  - intros d' Hd. specialize (Hk d' Hd). by inversion Hk.
  - intros _ s ->. eapply wp_mono; [apply IH| |done].
    + intros d' Hd. specialize (Hk d' Hd). by inversion Hk.
    + intros _ s ->. by rewrite <-app_assoc.
Qed.

(** *** Keys *)
Definition padded (size : Z) (k : bytes) : bytes := mem_write 0 k (replicate (Z.to_nat size) 0).
(** The keys of a secret, one for each label *)
Definition derived (digest_size key_size : Z) (secret : bytes) (keys : key_set) : Prop :=
  ∃ key iv hp, expand_label digest_size secret (str "quic key") key_size = inr key ∧
    expand_label digest_size secret (str "quic iv") KSMBD_QUIC_IV_SIZE = inr iv ∧
    expand_label digest_size secret (str "quic hp") key_size = inr hp ∧
    keys = mk_keys (padded KSMBD_QUIC_KEY_SIZE key) (padded KSMBD_QUIC_IV_SIZE iv) (padded KSMBD_QUIC_KEY_SIZE hp).
Lemma expand_wp {S : Type} size d secret label n (s : S) :
  n ≤ size → wp (expand size d secret label n) s
    (λ k s', s' = s ∧ ∃ o, expand_label d secret label n = inr o ∧ k = padded size o) (λ e s', s' = s ∧ e ≠ 0).
Proof.
  intros Hn. unfold expand. destruct expand_label as [e|o] eqn:E.
  - wp_step. split; [done|]. by eapply expand_error.
  - rewrite (proj2 (Z.leb_le _ _) Hn). wp_step. eauto.
Qed.
Lemma taken_back b : Z.of_nat (length b) ≤ PTLS_MAX_DIGEST_SIZE → take (length b) (mem_write 0 b (sc_buf no_secret)) = b.
Proof.
  intros Hb. rewrite <-(drop_0 (mem_write _ _ _)). apply (mem_read_write 0 b). unfold no_secret, PTLS_MAX_DIGEST_SIZE in *. cbn [sc_buf].
  rewrite length_replicate. lia.
Qed.
Lemma derive_wp {S : Type} d key_size o (s : S) :
  key_size ≤ 32 → d ≤ PTLS_MAX_DIGEST_SIZE → (∀ b, o = Some b → Z.of_nat (length b) = d) →
  wp (quic_tls_derive_secret d (kept_secret d o) key_size) s
    (λ keys s', s' = s ∧ ∃ b, o = Some b ∧ derived d key_size b keys) (λ e s', s' = s ∧ e ≠ 0).
Proof.
  intros Hk Hd Ho. unfold quic_tls_derive_secret. destruct o as [b|]; cbn [kept_secret sc_valid sc_len sc_buf negb orb].
  2:{ by wp_step. }
  specialize (Ho b eq_refl). rewrite Z.eqb_refl. cbn [negb].
  assert (take (Z.to_nat d) (mem_write 0 b (sc_buf no_secret)) = b) as ->.
  { rewrite <-Ho, Nat2Z.id. apply taken_back. lia. }
  wp_step. eapply wp_mono; [by apply expand_wp| |done]. intros key s' [-> (k & E1 & ->)].
  wp_step. eapply wp_mono; [by apply expand_wp| |done]. intros iv s' [-> (i & E2 & ->)].
  wp_step. eapply wp_mono; [by apply expand_wp| |done]. intros hp s' [-> (h & E3 & ->)].
  wp_step. split; [done|]. exists b. split; [done|]. by exists k, i, h.
Qed.

(** *** The answer *)
Definition app_read_secret (run : tls_run) : option bytes :=
  match captured false 3 (tr_keys run), tr_pending run with
  | Some b, _ => Some b
  | None, inr b => Some b
  | None, inl _ => None
  end.
Definition derived_from (digest_size key_size : Z) (o : option bytes) (keys : key_set) : Prop :=
  ∃ b, o = Some b ∧ derived digest_size key_size b keys.
(** The answer holds the keys that the secrets of the handshake give, in both
    directions, and what it has to send: the first octets, up to the end of the
    first epoch, are the initial ones, and the third epoch is the handshake. *)
Record answers (run : tls_run) (digest_size key_size : Z) (req : handshake_req) (rsp : handshake_rsp) : Prop := {
  an_suite : tr_cipher run = Some (mk_suite (Some key_size) (Some digest_size));
  an_request : qs_handle rsp = qr_handle req ∧ qs_conn_id rsp = qr_conn_id req ∧ qs_success rsp = 1;
  an_cipher : qs_cipher rsp = if key_size =? 32 then KSMBD_QUIC_CIPHER_AES256GCM else KSMBD_QUIC_CIPHER_AES128GCM;
  an_hs_write : derived_from digest_size key_size (captured true 2 (tr_keys run)) (qs_hs_write rsp);
  an_hs_read : derived_from digest_size key_size (captured false 2 (tr_keys run)) (qs_hs_read rsp);
  an_app_write : derived_from digest_size key_size (captured true 3 (tr_keys run)) (qs_app_write rsp);
  an_app_read : derived_from digest_size key_size (app_read_secret run) (qs_app_read rsp);
  an_data : take (Z.to_nat (qs_hs_data_len rsp)) (qs_hs_data rsp) = tr_sendbuf run;
  an_initial : qs_initial_data_len rsp = epoch_offset run 1;
  an_handshake : qs_handshake_data_len rsp = epoch_offset run 3 - epoch_offset run 2;
  an_lengths : qs_initial_data_len rsp + qs_handshake_data_len rsp ≤ qs_hs_data_len rsp ≤ KSMBD_QUIC_MAX_HS_DATA;
}.
Lemma captured_length d is_enc epoch keys b :
  Forall (λ t, Z.of_nat (length (tk_secret t)) = d) keys → captured is_enc epoch keys = Some b → Z.of_nat (length b) = d.
Proof.
  intros Hk. induction keys as [|k keys IH] using rev_ind; [done|]. apply Forall_app in Hk as [Hk Hl].
  rewrite captured_snoc. destruct (_ && _); [|by apply IH]. intros [= <-]. by inversion Hl.
Qed.
Lemma app_read_wp {S : Type} d key_size run (s : S) :
  key_size ≤ 32 → d ≤ PTLS_MAX_DIGEST_SIZE → Forall (λ t, Z.of_nat (length (tk_secret t)) = d) (tr_keys run) →
  (∀ b, tr_pending run = inr b → Z.of_nat (length b) = d) →
  wp (derive_app_read d key_size (captured_session d (tr_keys run)) run) s
    (λ keys s', s' = s ∧ derived_from d key_size (app_read_secret run) keys) (λ e s', s' = s ∧ e ≠ 0).
Proof.
  intros Hk Hd Hl Hp. unfold derive_app_read, app_read_secret. cbn [qn_app_read captured_session].
  destruct (captured false 3 (tr_keys run)) as [b|] eqn:Ec; cbn [kept_secret sc_valid].
  - wp_step. apply wp_attempt. change (mk_secret _ d true) with (kept_secret d (Some b)). eapply wp_mono; [apply derive_wp; try done|cbv beta..].
    + intros b' [= <-]. by eapply captured_length.
    + intros keys s' [-> Hb]. wp_step. done.
    + intros e s' [-> He]. cbn. rewrite andb_false_r. by wp_step.
  - wp_step. apply wp_attempt. unfold quic_tls_derive_secret at 1. cbn [no_secret sc_valid negb orb]. wp_step.
    rewrite Z.eqb_refl. destruct (tr_pending run) as [e|b]; cbn [andb sc_valid no_secret]; [by wp_step|].
    change (mk_secret _ d true) with (kept_secret d (Some b)). apply derive_wp; try done. intros b' [= <-]. by apply Hp.
Qed.
Lemma handshake_keys_wp {S : Type} req hello ext (s : S) :
  let run := handshake hello ext in
  wp (handshake_keys req (captured_session (default 0 (tr_cipher run ≫= cs_digest_size)) (tr_keys run)) (Some run)) s
    (λ rsp s', s' = s ∧ ∃ d key_size, answers run d key_size req rsp) (λ e s', s' = s ∧ e ≠ 0).
Proof.
  intros run. unfold handshake_keys. destruct (tr_cipher run) as [[[key_size|] [d|]]|] eqn:Ec; try (by wp_step).
  destruct (run_suite hello ext _ _ Ec) as [Hks (Hd0 & Hl & Hp)]. cbn [from_option] in Hks.
  pose proof (run_offsets hello ext) as Ho. cbv zeta in Ho. fold run in Ho, Hl, Hp |- *. cbn [mbind option_bind cs_digest_size default].
  destruct (Z.ltb_spec KSMBD_QUIC_MAX_HS_DATA (Z.of_nat (length (tr_sendbuf run)))) as [|Hoff]; [by wp_step|].
  destruct (Z.ltb_spec (Z.of_nat (length (tr_sendbuf run))) (epoch_offset run 1)) as [|H1]; [by wp_step|].
  destruct (Z.ltb_spec (Z.of_nat (length (tr_sendbuf run))) (epoch_offset run 3)) as [|H3]; [by wp_step|].
  destruct (Z.ltb_spec (epoch_offset run 3) (epoch_offset run 2)) as [|H2]; [by wp_step|]. cbn [orb qn_hs_write qn_hs_read qn_app_write captured_session].
  change (id d) with d in *.
  wp_step. eapply wp_mono; [apply derive_wp; [lia|lia|by intros; eapply captured_length]| |done]. intros k1 s1 [-> K1].
  wp_step. eapply wp_mono; [apply derive_wp; [lia|lia|by intros; eapply captured_length]| |done]. intros k2 s2 [-> K2].
  wp_step. eapply wp_mono; [apply derive_wp; [lia|lia|by intros; eapply captured_length]| |done]. intros k3 s3 [-> K3].
  wp_step. eapply wp_mono; [apply app_read_wp; [lia|lia|done|done]| |done]. intros k4 s4 [-> K4].
  wp_step. split; [done|]. exists d, key_size. unfold KSMBD_QUIC_MAX_HS_DATA in *. split; try done;
    cbn [qs_initial_data_len qs_handshake_data_len qs_hs_data_len qs_hs_data].
  - rewrite u32_small, Nat2Z.id by lia. rewrite <-(drop_0 (mem_write _ _ _)). apply (mem_read_write 0).
    rewrite length_replicate. lia.
  - apply u32_small. lia.
  - apply u32_small. lia.
  - unfold KSMBD_QUIC_MAX_HS_DATA. rewrite (u32_small (epoch_offset run 1)), (u32_small (_ - _)), u32_small by lia. lia.
Qed.
Lemma wp_local {S S' A : Type} (s0 : S') (m : prog S' A) (s : S) Q E :
  wp m s0 (λ a s', Q (a, s') s) (λ e _, E e s) → wp (local s0 m) s Q E.
Proof. unfold wp, local. by destruct (m s0). Qed.
Lemma on_client_hello_smb protos : on_client_hello protos = 0 → str "smb" ∈ protos.
Proof.
  induction protos as [|x protos IH]; cbn -[str]; [done|]. case_bool_decide as E; [subst; by left|]. intros Hp. right. by apply IH.
Qed.
Lemma handle_message_wp hello ext :
  wp (ptls_handle_message hello ext) new_session
    (λ r s, (r.1 ≠ 0 ∧ r.1 ≠ PTLS_ERROR_IN_PROGRESS) ∨ r.2 = None ∨
       (∃ protos name, client_hello hello = inr (protos, name) ∧ str "smb" ∈ protos) ∧
       r.2 = Some (handshake hello ext) ∧
       s = captured_session (default 0 (tr_cipher (handshake hello ext) ≫= cs_digest_size)) (tr_keys (handshake hello ext)))
    (λ _ _, False).
Proof.
  unfold ptls_handle_message. destruct client_hello as [e|[protos name]] eqn:Eh; [wp_step; auto|].
  destruct (Z.eqb_spec (quic_tls_on_client_hello_cb (protos, name)) 0) as [Ep|]; cbn [negb]; [|wp_step; auto].
  apply on_client_hello_smb in Ep. cbn [fst] in Ep. set (run := handshake hello ext). wp_step. apply wp_attempt.
  assert (new_session = captured_session (default 0 (tr_cipher run ≫= cs_digest_size)) []) as -> by done.
  eapply wp_mono; [apply (captures_wp (tr_cipher run))|cbv beta..].
  - intros d Hd. destruct (tr_cipher run) as [[k ds]|] eqn:Ec; [|done]. cbn in Hd. subst ds.
    by destruct (run_suite hello ext _ _ Ec) as [_ (_ & ? & _)].
  - intros _ s ->. wp_step. right. right. eauto 10.
  - intros e s ->. wp_step. by left.
Qed.

(** What an answer that reports success implies. *)
Definition accepted_client (req : handshake_req) (rsp : handshake_rsp) : Prop :=
  let hello := take (Z.to_nat (qr_client_hello_len req)) (qr_client_hello req) in
  (∃ protos name, client_hello hello = inr (protos, name) ∧ str "smb" ∈ protos) ∧
  ∃ ext d key_size, tp_decode (length ext) ext = Some (transport_params conf req) ∧
    answers (handshake hello ext) d key_size req rsp.
Lemma tls_init_wp q : wp (ksmbd_quic_tls_init conf) q (λ r q', r = 0 → tx_initialized q' = true) (λ _ _, False).
Proof.
  unfold ksmbd_quic_tls_init, ksmbd_quic_tls_do_init_locked. wp_step. wp_step. destruct (tx_initialized q) eqn:Eq; [by wp_step|].
  repeat case_match; repeat wp_step; try done; intros E; rewrite E in *; done.
Qed.
Lemma build_rsp_wp req q :
  0 ≤ qr_dcid_len req → Z.of_nat (length (qr_dcid req)) = KSMBD_QUIC_MAX_CID_LEN →
  wp (ksmbd_quic_build_handshake_rsp conf req) q
    (λ rsp q', tx_initialized q' = true ∧ accepted_client req rsp) (λ e _, e ≠ 0).
Proof.
  intros Hl Hd. unfold ksmbd_quic_build_handshake_rsp. wp_step.
  eapply wp_mono; [apply tls_init_wp|intros r q1 Hq|done].
  destruct (Z.eqb_spec r 0) as [->|Hr]; cbn [negb]; [|by wp_step]. specialize (Hq eq_refl).
  destruct (Z.eqb_spec (qr_dcid_len req) 0) as [|Hn]; [by wp_step|].
  destruct (Z.ltb_spec KSMBD_QUIC_MAX_CID_LEN (qr_dcid_len req)) as [|Hm]; [by wp_step|]. cbn [orb].
  destruct (_ <? qr_client_hello_len req); [by wp_step|].
  assert (req_ok req) as Hreq by (split; [lia|done]).
  wp_step. apply wp_local. eapply wp_mono; [by apply params_built| |done]. intros u tp [Htp _ _].
  destruct ptls_server_new; [|by wp_step]. cbn [negb snd]. wp_step. apply wp_local.
  eapply wp_mono; [apply handle_message_wp| |done]. intros [r run] session. cbn [fst snd].
  intros [[H1 H2] | [-> | (Hp & -> & ->)]].
  - rewrite (proj2 (Z.eqb_neq _ _) H1), (proj2 (Z.eqb_neq _ _) H2). by wp_step.
  - destruct (_ && _) eqn:Er; [|unfold handshake_keys; by wp_step]. wp_step. by intros ->.
  - destruct (_ && _) eqn:Er; [wp_step; by intros ->|]. eapply wp_mono; [apply handshake_keys_wp|cbv beta..].
    + intros rsp q2 [-> (d & key_size & Ha)]. split; [done|]. split; [done|]. exists (bf_data tp), d, key_size. split; [|done].
      rewrite Htp. apply tp_decode_octets; [by apply transport_params_small|]. apply tp_octets_length.
    + by intros e q2 [].
Qed.

(** C28 (functional): the answer to a QUIC client.  Whatever the client sends,
    no array is left, and an answer that reports success has the handle and the
    connection of the request, belongs to a client that offered the protocol
    SMB and that was told the transport parameters, and holds the keys of both
    directions and both epochs, derived from the secrets of this handshake, with
    the data that TLS has to send and their division: as much of them is sent
    in Initial packets as the first epoch has octets, and as much in Handshake
    packets as the third has, by the offsets of the epochs that picotls gives.
    Every other way out is a code that is not zero, after which a failure is
    reported.  The handshake and the key derivation of picotls are parameters
    whose offsets, digests and lengths are in the bounds picotls documents. *)
Theorem handshake_answer req q :
  0 ≤ qr_dcid_len req → Z.of_nat (length (qr_dcid req)) = KSMBD_QUIC_MAX_CID_LEN →
  wp (ksmbd_quic_build_handshake_rsp conf req) q
    (λ rsp q', tx_initialized q' = true ∧ accepted_client req rsp) (λ e _, e ≠ 0).
Proof. apply build_rsp_wp. Qed.
End Handshake.

(** ** A small handshake *)
Definition toy_run : tls_run :=
  mk_run (Some (mk_suite (Some 16) (Some 32)))
    [mk_traffic true 2 (replicate 32 1); mk_traffic false 2 (replicate 32 2); mk_traffic true 3 (replicate 32 3)]
    PTLS_ERROR_IN_PROGRESS [10; 11; 12; 13; 14] [0; 2; 2; 5; 5] (inr (replicate 32 4)).
Definition toy_ptls : Ptls := {|
  client_hello hello := match hello with 1 :: _ => inr ([str "h3"; str "smb"], str "files") | _ => inl 50 end;
  handshake _ _ := toy_run;
  expand_label _ s _ n := inr (replicate (Z.to_nat n) (hd 0 s));
  ptls_load_certificates _ := 0;
  read_private_key _ := 0;
  init_sign_certificate := 0;
  ptls_server_new := true;
  ptls_malloc _ := true;
|}.
Lemma toy_laws : PtlsLaws (H:=toy_ptls).
Proof.
  split; cbn.
  - intros h s l n k Hn [= <-]. rewrite length_replicate. lia.
  - done.
  - intros _ _ k d [= <- <-]. cbn. unfold PTLS_MAX_DIGEST_SIZE. split; [lia|]. split; [lia|]. split; [by repeat constructor|]. by intros s [= <-].
  - intros _ _. unfold epoch_offset. cbn. lia.
Qed.
Definition toy_conf : smbconf_global :=
  set_str QUIC_TLS_CERT (str "cert.pem") (set_str QUIC_TLS_KEY (str "key.pem") zero_global).
Definition toy_req : handshake_req := mk_qreq 9 77 8 0 (replicate 20 5) 3 (1 :: replicate 2047 0).
Lemma transport_params_roundtrip_witness :
  ∃ b, quic_tls_build_transport_params (λ _, false) zero_global toy_req (ptls_buffer_init 256) = Done tt b ∧
    tp_decode (length (bf_data b)) (bf_data b) = Some (transport_params zero_global toy_req).
Proof.
  destruct (transport_params_roundtrip (λ _, false) zero_global ltac:(cbn; lia) ltac:(cbn; lia) toy_req) as [Hw _].
  { split; vm_compute; intuition congruence. }
  assert (∃ b, quic_tls_build_transport_params (λ _, false) zero_global toy_req (ptls_buffer_init 256) = Done tt b) as [b E].
  { eexists. vm_compute. reflexivity. }
  exists b. split; [exact E|]. exact (proj2 (wp_Done _ _ _ _ _ _ Hw E)).
Defined.
Lemma handshake_answer_witness :
  ∃ rsp q, ksmbd_quic_build_handshake_rsp (H:=toy_ptls) toy_conf toy_req (mk_ctx false) = Done rsp q ∧
    tx_initialized q = true ∧ qs_initial_data_len rsp = 2 ∧ qs_handshake_data_len rsp = 3 ∧
    take 17 (ks_key (qs_app_read rsp)) = replicate 16 4 ++ [0].
Proof.
  assert (∃ rsp q, ksmbd_quic_build_handshake_rsp (H:=toy_ptls) toy_conf toy_req (mk_ctx false) = Done rsp q ∧
    qs_initial_data_len rsp = 2 ∧ qs_handshake_data_len rsp = 3 ∧
    take 17 (ks_key (qs_app_read rsp)) = replicate 16 4 ++ [0]) as (rsp & q & E & Hr).
  { eexists _, _. split; [vm_compute; reflexivity|]. vm_compute. done. }
  exists rsp, q. split; [exact E|]. split; [|exact Hr].
  exact (proj1 (wp_Done _ _ _ _ _ _ (handshake_answer (H0:=toy_laws) toy_conf ltac:(cbn; lia) ltac:(cbn; lia) toy_req (mk_ctx false)
    ltac:(cbn; lia) ltac:(reflexivity)) E)).
Defined.
