(* ===== verification/ShareAdmin.v ===== *)
(** * The share administration program ([src/addshare/share_admin.c])

    The program edits the parser's groups and writes them back as the text of
    [ksmbd.conf].  The state is the parser and the contents of the file.  GLib's
    list sorting and the order in which a hash table hands out its keys are
    parameters, as is the dialogue on the terminal that edits the options when
    none are given.  A pointer to a group that was removed and freed is a key
    without a group: following it is a [Fault]. *)

From S2P Require Import Prelude ConfText Refcount Users Shares Config.

Record admin := mk_admin { ad_parser : smbconf_parser; ad_file : bytes }.

Section ShareAdmin.
Context `{GLib, System, Allocator}.
(** [g_list_sort] by [strcmp] of the text of the elements, and
    [g_list_insert_sorted] of texts. *)
Variable g_list_sort : ∀ {T : Type}, (T → bytes) → list T → list T.
Variable g_list_insert_sorted : list bytes → bytes → list bytes.
(** [g_hash_table_get_keys] of the groups and of the key-values of one. *)
Variable group_order : gmap bytes smbconf_group → list (bytes * smbconf_group).
Variable kv_keys : kvs → list bytes.

(** ** The text *)

(** [g_list_find] and [g_list_remove_link]: the link and the other links. *)
Fixpoint remove_link {T : Type} (key : bytes) (nl : list (bytes * T)) : list (bytes * T) * list (bytes * T) :=
  match nl with
  | [] => ([], [])
  | x :: nl =>
      if decide (x.1 = key) then ([x], nl)
      else let '(l, nl) := remove_link key nl in (l, x :: nl)
  end.
(** The group that [parser.ipc] or [parser.global] points to comes first. *)
Definition group_first (pointer : option bytes) (nl : list (bytes * smbconf_group))
    : prog admin (list (bytes * smbconf_group)) :=
  match pointer with
  | None => ret nl
  | Some key =>
      s <- get ;;
      match pr_groups (ad_parser s) !! key with
      | None => fault
      | Some _ => let '(l, nl) := remove_link key nl in ret (l ++ nl)
      end
  end.
Definition new_share_nl : prog admin (list (bytes * smbconf_group)) :=
  s <- get ;;
  let nl := g_list_sort (λ x, g_name x.2) (group_order (pr_groups (ad_parser s))) in
  nl <- group_first (pr_ipc (ad_parser s)) nl ;;
  group_first (pr_global (ad_parser s)) nl.

(** One turn of the loop in [new_share_kl] on the lists [l] and [kl]. *)
Definition share_key (is_global : bool) (kv : kvs) (ls : list bytes * list bytes) (c : share_conf)
    : list bytes * list bytes :=
  if (negb is_global || negb (KSMBD_SHARE_CONF_IS_GLOBAL c)) && negb (KSMBD_SHARE_CONF_IS_BROKEN c)
  then match kv !! g_ascii_strdown (KSMBD_SHARE_CONF c) with
       | Some (k, _) => (filter (λ k', k' ≠ k) ls.1, g_list_insert_sorted ls.2 k)
       | None => ls
       end
  else ls.
(** [None] is the NULL in front of the share parameters. *)
Definition new_share_kl (is_global : bool) (kv : kvs) : list (option bytes) :=
  let '(l, kl) := foldl (share_key is_global kv) (kv_keys kv, []) share_confs in
  (Some <$> g_list_sort id l) ++ match kl with [] => [] | _ => None :: (Some <$> kl) end.

Definition newline : bytes := [10].
Definition tab : bytes := [9].
Definition key_line (is_global first : bool) (kv : kvs) (k : option bytes) : bytes :=
  match k with
  | None => (if first then newline else []) ++ tab ++ str "; " ++
            (if is_global then str "default " else []) ++ str "share parameters" ++ newline
  | Some k => tab ++ k ++ str " = " ++ default (str "(null)") (kv_lookup g_ascii_strdown kv k) ++ newline
  end.
Definition __gptrarray_add_share_kl (kl : list (option bytes)) (kv : kvs) (is_global : bool) : bytes :=
  let first := match kl with Some _ :: _ => true | _ => false end in
  (if first then tab ++ str "; " ++ (if is_global then str "global " else []) ++ str "parameters" ++ newline else []) ++
  concat (key_line is_global first kv <$> kl).
Definition group_text (global : option bytes) (x : bytes * smbconf_group) : bytes :=
  let is_global := bool_decide (Some x.1 = global) in
  str "[" ++ g_name x.2 ++ str "]" ++ newline ++
  __gptrarray_add_share_kl (new_share_kl is_global (g_kv x.2)) (g_kv x.2) is_global ++ newline.
Definition get_conf_contents : prog admin bytes :=
  nl <- new_share_nl ;;
  s <- get ;;
  ret (str "; see ksmbd.conf(5) for details" ++ newline ++ newline ++
       concat (group_text (pr_global (ad_parser s)) <$> nl)).

(** ** The commands *)

(** The file system takes the text or reports an error. *)
Variable write_ok : bool.
(** The dialogue: the options as the user leaves them, or an error. *)
Variable prompt_options_stdin : list bytes → bool → Z + list bytes.

Definition set_conf_contents (contents : bytes) : prog admin unit :=
  if write_ok then modify (λ s, mk_admin (ad_parser s) contents) else fail (- EINVAL).
Definition __get_options (kv : option kvs) (is_global : bool) : list bytes :=
  (λ c, (if (is_global && KSMBD_SHARE_CONF_IS_GLOBAL c) || KSMBD_SHARE_CONF_IS_BROKEN c then str "; " else []) ++
        KSMBD_SHARE_CONF c ++ str " = " ++
        default [] (kv ≫= λ kv, kv_lookup g_ascii_strdown kv (KSMBD_SHARE_CONF c))) <$> share_confs.
Definition process_options (options : list bytes) (kv : option kvs) (is_global : bool) : prog admin (list bytes) :=
  match options with
  | [] => match prompt_options_stdin (__get_options kv is_global) is_global with
          | inl e => fail e
          | inr options => ret options
          end
  | _ => ret options
  end.
(** What the commands have in common: change the parser, write the file. *)
Definition edit_and_write (f : smbconf_parser → smbconf_parser) : prog admin unit :=
  modify (λ s, mk_admin (f (ad_parser s)) (ad_file s)) ;;
  contents <- get_conf_contents ;;
  set_conf_contents contents.
Definition command_add_share (name : bytes) (options : list bytes) : prog admin unit :=
  s <- get ;;
  match pr_groups (ad_parser s) !! shm_casefold_share_name name with
  | Some _ => fail (- EEXIST)
  | None =>
      options <- process_options options None (shm_share_name_equal name (str "global")) ;;
      edit_and_write (cp_parse_external_smbconf_group name options)
  end.
Definition command_update_share (name : bytes) (options : list bytes) : prog admin unit :=
  s <- get ;;
  match pr_groups (ad_parser s) !! shm_casefold_share_name name with
  | None => fail (- EINVAL)
  | Some g =>
      let is_global := bool_decide (Some (shm_casefold_share_name name) = pr_global (ad_parser s)) in
      options <- process_options options (Some (g_kv g)) is_global ;;
      edit_and_write (cp_parse_external_smbconf_group name options)
  end.
(** The freed group stays in [parser.current] and [parser.ipc]. *)
Definition command_delete_share (name : bytes) : prog admin unit :=
  s <- get ;;
  let key := shm_casefold_share_name name in
  match pr_groups (ad_parser s) !! key with
  | None => fail (- EINVAL)
  | Some g =>
      if decide (Some key = pr_global (ad_parser s))
      then command_update_share name (__get_options None true)
      else edit_and_write (λ p, mk_parser (delete key (pr_groups p)) (pr_current p) (pr_global p) (pr_ipc p))
  end.
End ShareAdmin.

(** ** Texts by lines *)
Definition unlines (ls : list bytes) : bytes := concat ((λ l, l ++ newline) <$> ls).
Lemma unlines_app l k : unlines (l ++ k) = unlines l ++ unlines k.
Proof. unfold unlines. by rewrite fmap_app, concat_app. Qed.
Lemma unlines_concat {T : Type} (f : T → list bytes) l : unlines (concat (f <$> l)) = concat ((λ x, unlines (f x)) <$> l).
Proof. induction l as [|x l IH]; [done|]. rewrite !fmap_cons. cbn [concat]. by rewrite unlines_app, IH. Qed.
Lemma lines_unlines ls : Forall (Forall (λ c, c ≠ 10)) ls → lines (unlines ls) = ls.
Proof.
  induction 1 as [|l ls Hl _ IH]; [done|]. change (unlines (l :: ls)) with ((l ++ newline) ++ unlines ls).
  rewrite <-app_assoc. cbn [app newline]. by rewrite lines_cons, IH.
Qed.
Lemma for_each_app {S T : Type} (f : T → prog S unit) l k s :
  for_each (l ++ k) f s = match for_each l f s with Done _ s' => for_each k f s' | r => r end.
Proof.
  revert s. induction l as [|x l IH]; intros s; [done|]. cbn [app for_each]. unfold bind.
  destruct (f x s); [apply IH|done|done].
Qed.
Lemma remove_link_perm {T : Type} key (nl : list (bytes * T)) :
  (remove_link key nl).1 ++ (remove_link key nl).2 ≡ₚ nl.
Proof.
  induction nl as [|x nl IH]; [done|]. cbn. destruct (decide (x.1 = key)); [done|].
  destruct (remove_link key nl) as [l nl']. cbn in *. by rewrite <-Permutation_middle, IH.
Qed.

Section RoundTrip.
Context `{GLib, System, Allocator}.
Variable g_list_sort : ∀ {T : Type}, (T → bytes) → list T → list T.
Variable g_list_insert_sorted : list bytes → bytes → list bytes.
Variable group_order : gmap bytes smbconf_group → list (bytes * smbconf_group).
Variable kv_keys : kvs → list bytes.
(** Sorting rearranges, and a table hands out each of its keys once. *)
Hypothesis sort_perm : ∀ (T : Type) (f : T → bytes) (l : list T), g_list_sort f l ≡ₚ l.
Hypothesis insert_sorted_perm : ∀ l x, g_list_insert_sorted l x ≡ₚ x :: l.
Hypothesis group_order_perm : ∀ t, group_order t ≡ₚ map_to_list t.
Hypothesis kv_keys_perm : ∀ kv, kv_keys kv ≡ₚ (λ x, x.2.1) <$> map_to_list kv.
(** [g_ascii_strdown] leaves lower-case texts alone. *)
Hypothesis strdown_conf : ∀ c, g_ascii_strdown (KSMBD_SHARE_CONF c) = KSMBD_SHARE_CONF c.
Hypothesis keys_differ : gkey ≠ ikey.

Abbreviation run ls := (for_each ls (λ e, process_smbconf_entry (cstr e))).

(** A key that does not look like the start of a group. *)
Definition plain_key (k : bytes) : bool := match k with 91 :: _ => false | _ => true end.
Definition plain_kv (kv : kvs) : Prop := ∀ fk k v, kv !! fk = Some (k, v) → plain_key k = true.

(** *** Lines for the table of a group *)
Definition kv_line (k v : bytes) : bytes := k ++ str " = " ++ v.
Lemma key_line_split k v : key_ok k = true → split_at 61 (kv_line k v) = Some (k ++ [32], 32 :: v).
Proof.
  intros Hk. unfold kv_line. replace (k ++ str " = " ++ v) with ((k ++ [32]) ++ 61 :: (32 :: v))
    by by rewrite <-app_assoc.
  apply split_at_app. apply Forall_app. split; [|by repeat constructor].
  unfold key_ok in Hk. apply andb_true_iff in Hk as [_ Hk]. apply forallb_all in Hk.
  eapply Forall_impl; [exact Hk|]. cbv beta. unfold key_char. intros c Hc ->. by rewrite andb_false_r in Hc.
Qed.
Lemma key_rtrim k : key_ok k = true → cp_rtrim (k ++ [32]) = k.
Proof.
  unfold key_ok. rewrite !andb_true_iff. intros [[_ Hr] _].
  destruct (reverse k) as [|c r] eqn:E; [done|]. apply (f_equal reverse) in E.
  rewrite reverse_involutive, reverse_cons in E. subst k. cbn in Hr. apply negb_true_iff in Hr.
  by apply cp_rtrim_app_blank; [|repeat constructor].
Qed.
Lemma value_ltrim v : value_ok v = true → cp_ltrim (32 :: v) = v ∧ cp_smbconf_eol v = false.
Proof.
  unfold value_ok. rewrite andb_true_iff. intros [Hs Hv]. destruct v as [|c v]; [done|].
  cbn in Hs. apply negb_true_iff in Hs. cbn in Hv. apply andb_true_iff in Hv as [Hc _].
  split.
  - by apply (cp_ltrim_app_blank (c :: v) Hs [32]); repeat constructor.
  - unfold value_char in Hc. by apply andb_true_iff in Hc as [_ Hc%negb_true_iff].
Qed.
Lemma kv_insert_line k v kv :
  key_ok k = true → value_ok v = true → kv !! g_ascii_strdown k = None →
  kv_insert (kv_line k v) kv = <[g_ascii_strdown k := (k, v)]> kv.
Proof.
  intros Hk Hv Hn. unfold kv_insert. rewrite key_line_split, key_rtrim by done.
  destruct (value_ltrim v Hv) as [-> ->]. unfold kv_lookup. by rewrite Hn.
Qed.
Lemma key_line_entry k v p :
  key_ok k = true → value_ok v = true → plain_key k = true → is_Some (pr_current p) →
  process_smbconf_entry (cstr (tab ++ kv_line k v)) p = Done tt (add_group_key_value (kv_line k v) p).
Proof.
  intros Hk Hv Hp [cur Hc]. pose proof Hk as Hk'. unfold key_ok in Hk'. apply andb_true_iff in Hk' as [[Hs _]%andb_true_iff Hf].
  pose proof Hv as Hv'. unfold value_ok in Hv'. apply andb_true_iff in Hv' as [_ Hvf].
  assert (cstr (tab ++ kv_line k v) = tab ++ kv_line k v) as ->.
  { apply cstr_nonzero. apply forallb_all in Hf, Hvf.
    assert (∀ c, cp_printable c = true → c ≠ 0) as Hz by (intros c Hc' ->; done).
    unfold kv_line. repeat (apply Forall_app; split).
    - by repeat constructor.
    - eapply Forall_impl; [exact Hf|]. cbv beta. unfold key_char. intros c [[? _]%andb_true_iff _]%andb_true_iff. auto.
    - by repeat constructor.
    - eapply Forall_impl; [exact Hvf|]. cbv beta. unfold value_char. intros c [? _]%andb_true_iff. auto. }
  destruct k as [|x k']; [done|]. cbn in Hs. apply negb_true_iff in Hs.
  unfold process_smbconf_entry.
  assert (cp_ltrim (tab ++ kv_line (x :: k') v) = kv_line (x :: k') v) as ->.
  { by apply (cp_ltrim_app_blank (kv_line (x :: k') v) Hs tab); repeat constructor. }
  assert (cp_smbconf_eol (kv_line (x :: k') v) = false) as ->.
  { cbn in Hf. apply andb_true_iff in Hf as [[[_ ?%negb_true_iff]%andb_true_iff _]%andb_true_iff _]. done. }
  assert (is_a_group (kv_line (x :: k') v) = false) as ->.
  { unfold is_a_group, kv_line. cbn [app]. unfold plain_key in Hp. repeat case_match; congruence. }
  unfold bind, get. unfold is_a_key_value. rewrite key_line_split by done. cbn [app].
  rewrite Hc. destruct (value_ltrim v Hv) as [-> _]. rewrite until_eol_ok by done.
  assert (forallb (λ c, cp_printable c && negb (cp_smbconf_eol [c])) (x :: k' ++ [32]) = true) as ->.
  { rewrite app_comm_cons, forallb_app. apply andb_true_iff. split; [|done]. apply forallb_all.
    apply forallb_all in Hf. eapply Forall_impl; [exact Hf|]. cbv beta. unfold key_char.
    by intros c [? _]%andb_true_iff. }
  cbn [negb].
  assert (forallb cp_printable v = true) as ->.
  { apply forallb_all. apply forallb_all in Hvf. eapply Forall_impl; [exact Hvf|]. cbv beta.
    unfold value_char. by intros c [? _]%andb_true_iff. }
  unfold modify. do 2 f_equal. unfold kv_line. cbn [length]. rewrite Nat.sub_succ_l, Nat.sub_diag by lia.
  cbn [take app]. by rewrite <-app_assoc.
Qed.

Definition set_kv (key : bytes) (kv : kvs) (p : smbconf_parser) : smbconf_parser :=
  mk_parser (alter (upd_kv (λ _, kv)) key (pr_groups p)) (pr_current p) (pr_global p) (pr_ipc p).
Definition entries (kv : kvs) (ks : list bytes) : list (bytes * (bytes * bytes)) :=
  (λ k, (g_ascii_strdown k, (k, default [] (kv_lookup g_ascii_strdown kv k)))) <$> ks.
(** The keys in the lines of a group: their values come from [kv]. *)
Lemma run_keys kv ks p key g :
  kv_ok kv → plain_kv kv → Forall (λ k, ∃ v, kv !! g_ascii_strdown k = Some (k, v)) ks →
  NoDup (g_ascii_strdown <$> ks) → pr_current p = Some key → pr_groups p !! key = Some g →
  Forall (λ k, g_kv g !! g_ascii_strdown k = None) ks →
  run ((λ k, tab ++ kv_line k (default [] (kv_lookup g_ascii_strdown kv k))) <$> ks) p =
  Done tt (set_kv key (list_to_map (entries kv ks) ∪ g_kv g) p).
Proof.
  intros Hkv Hpl Hks. revert p g. induction Hks as [|k ks [v Hv] _ IH]; intros p g Hnd Hc Hg Hn.
  { cbn. unfold ret, set_kv. do 2 f_equal. rewrite map_empty_union. destruct p as [gs cur gl ipc]; cbn in *.
    f_equal. symmetry. apply map_eq. intros k. destruct (decide (k = key)) as [->|].
    - rewrite lookup_alter_eq, Hg. cbn. by destruct g.
    - by rewrite lookup_alter_ne. }
  cbn [fmap list_fmap for_each]. unfold bind.
  destruct (Hkv _ _ _ Hv) as (_ & Hk & Hvo). pose proof (Hpl _ _ _ Hv) as Hp.
  assert (default [] (kv_lookup g_ascii_strdown kv k) = v) as Ev by (unfold kv_lookup; by rewrite Hv).
  rewrite Ev, key_line_entry by (done || by eexists).
  cbn in Hnd. apply NoDup_cons in Hnd as [Hni Hnd]. inversion Hn as [|? ? Hn1 Hn2]; subst.
  set (p' := add_group_key_value _ p).
  assert (p' = set_kv key (<[g_ascii_strdown k := (k, default [] (kv_lookup g_ascii_strdown kv k))]> (g_kv g)) p) as Ep.
  { unfold p', add_group_key_value, set_kv. rewrite Hc. f_equal. apply map_eq. intros k'.
    destruct (decide (k' = key)) as [->|]; [|by rewrite !lookup_alter_ne].
    rewrite !lookup_alter_eq, Hg. unfold upd_kv. cbn [fmap option_fmap option_map]. do 2 f_equal. by apply kv_insert_line. }
  rewrite (IH p' (upd_kv (λ _, <[g_ascii_strdown k := (k, default [] (kv_lookup g_ascii_strdown kv k))]> (g_kv g)) g)).
  - rewrite Ep. unfold set_kv. cbn [pr_groups pr_current pr_global pr_ipc]. f_equal. f_equal.
    apply map_eq. intros k'. destruct (decide (k' = key)) as [->|]; [|by rewrite !lookup_alter_ne].
    rewrite !lookup_alter_eq, Hg. unfold upd_kv. cbn [fmap option_fmap option_map g_kv g_name]. do 2 f_equal.
    unfold entries. rewrite fmap_cons, list_to_map_cons, <-insert_union_l, insert_union_r; [done|].
    apply not_elem_of_list_to_map. rewrite <-list_fmap_compose. done.
  - done.
  - by rewrite Ep.
  - rewrite Ep. cbn. by rewrite lookup_alter_eq, Hg.
  - cbn [upd_kv g_kv]. apply Forall_forall. intros k' Hk'. rewrite lookup_insert_ne.
    + by apply (proj1 (Forall_forall _ _) Hn2).
    + intros E. apply Hni. rewrite E. by apply list_elem_of_fmap_2.
Qed.
(** *** Every key of a group is written once *)
Abbreviation share_kl := (new_share_kl (@g_list_sort) g_list_insert_sorted kv_keys).
Abbreviation turn := (share_key g_list_insert_sorted).
Lemma filter_absent (k : bytes) (l : list bytes) : k ∉ l → filter (λ k', k' ≠ k) l = l.
Proof.
  induction l as [|x l IH]; [done|]. intros Hk. apply not_elem_of_cons in Hk as [Hx Hk].
  by rewrite filter_cons_True, IH.
Qed.
Lemma filter_out (k : bytes) (l : list bytes) : NoDup l → k ∈ l → k :: filter (λ k', k' ≠ k) l ≡ₚ l.
Proof.
  intros Hnd. induction Hnd as [|x l Hx Hnd IH]; intros Hk; [by apply elem_of_nil in Hk|].
  destruct (decide (x = k)) as [->|Hne].
  - rewrite filter_cons_False by tauto. by rewrite filter_absent.
  - rewrite filter_cons_True by done. apply elem_of_cons in Hk as [->|Hk]; [done|].
    by rewrite Permutation_swap, IH.
Qed.
Lemma share_key_loop is_global kv cs l kl :
  kv_ok kv → NoDup cs → NoDup l →
  (∀ c k v, c ∈ cs → kv !! g_ascii_strdown (KSMBD_SHARE_CONF c) = Some (k, v) → k ∈ l) →
  let r := foldl (turn is_global kv) (l, kl) cs in r.1 ++ r.2 ≡ₚ l ++ kl.
Proof.
  intros Hkv Hcs. revert l kl. induction Hcs as [|c cs Hc Hcs IH]; intros l kl Hl Hin; [done|].
  cbn [foldl]. unfold share_key at 2 4. destruct (_ && _).
  2:{ apply IH; [done|]. intros c' k v Hc' Hk. apply (Hin c' k v); [by right|done]. }
  cbn [fst snd]. destruct (kv !! g_ascii_strdown (KSMBD_SHARE_CONF c)) as [[k v]|] eqn:Ek.
  2:{ apply IH; [done|]. intros c' k v Hc' Hk. apply (Hin c' k v); [by right|done]. }
  rewrite IH.
  - rewrite insert_sorted_perm, <-Permutation_middle, app_comm_cons.
    rewrite filter_out; [done|done|]. apply (Hin c k v); [by left|done].
  - by apply NoDup_filter.
  - intros c' k' v' Hc' Hk'. apply list_elem_of_filter. split; [|by apply (Hin c' k' v'); [right|]].
    intros ->. destruct (Hkv _ _ _ Ek) as [E1 _]. destruct (Hkv _ _ _ Hk') as [E2 _].
    rewrite strdown_conf in E1, E2. assert (c = c') as -> by (apply KSMBD_SHARE_CONF_inj; congruence). done.
Qed.
Lemma spelled_keys kv :
  kv_ok kv → NoDup (g_ascii_strdown <$> kv_keys kv) ∧
  (∀ k, k ∈ kv_keys kv ↔ ∃ v, kv !! g_ascii_strdown k = Some (k, v)).
Proof.
  intros Hkv. split.
  - rewrite kv_keys_perm, <-list_fmap_compose.
    replace (g_ascii_strdown ∘ _ <$> map_to_list kv) with (fst <$> map_to_list kv); [apply NoDup_fst_map_to_list|].
    apply list_fmap_ext. intros i [fk [k v]] Hx. apply list_elem_of_lookup_2, elem_of_map_to_list in Hx.
    cbn. by destruct (Hkv _ _ _ Hx).
  - intros k. rewrite kv_keys_perm, list_elem_of_fmap. split.
    + intros ([fk [k' v]] & -> & Hx). apply elem_of_map_to_list in Hx. cbn. exists v.
      destruct (Hkv _ _ _ Hx) as [-> _]. done.
    + intros [v Hv]. exists (g_ascii_strdown k, (k, v)). split; [done|]. by apply elem_of_map_to_list.
Qed.
Lemma share_confs_NoDup : NoDup share_confs.
Proof. apply (bool_decide_unpack _). vm_compute. exact I. Qed.
Lemma new_share_kl_keys is_global kv : kv_ok kv → omap id (share_kl is_global kv) ≡ₚ kv_keys kv.
Proof.
  intros Hkv. destruct (spelled_keys kv Hkv) as [Hnd Hin]. unfold new_share_kl.
  pose proof (share_key_loop is_global kv share_confs (kv_keys kv) [] Hkv share_confs_NoDup) as Hl.
  destruct (foldl _ _ _) as [l kl]. cbn [fst snd] in Hl. rewrite app_nil_r in Hl.
  assert (∀ ks, omap id (Some <$> ks : list (option bytes)) = ks) as Hom.
  { intros ks. induction ks as [|x ks IH]; [done|]. cbn in *. by rewrite IH. }
  rewrite omap_app, Hom, sort_perm.
  assert (omap id (match kl with [] => [] | _ => None :: (Some <$> kl) end) = kl) as ->.
  { destruct kl; [done|]. cbn. f_equal. apply Hom. }
  apply Hl; [by apply NoDup_fmap_1 in Hnd|]. intros c k v _ Hk. apply Hin. exists v.
  destruct (Hkv _ _ _ Hk) as [<- _]. done.
Qed.
Lemma entries_kv kv ks : kv_ok kv → ks ≡ₚ kv_keys kv → list_to_map (entries kv ks) = kv.
Proof.
  intros Hkv Hks. symmetry. apply list_to_map_flip. unfold entries.
  rewrite Hks, kv_keys_perm, <-list_fmap_compose.
  rewrite (list_fmap_ext _ id); [by rewrite list_fmap_id|].
  intros i [fk [k v]] Hx. apply list_elem_of_lookup_2, elem_of_map_to_list in Hx. cbn.
  destruct (Hkv _ _ _ Hx) as [-> _]. unfold kv_lookup. by rewrite Hx.
Qed.
(** *** The lines of a group and of the file *)
Definition comment (l : bytes) : Prop := cp_smbconf_eol (cp_ltrim (cstr l)) = true ∧ Forall (λ c, c ≠ 10) l.
Definition separator (is_global first : bool) : list bytes :=
  (if first then [[]] else []) ++
  [tab ++ str "; " ++ (if is_global then str "default " else []) ++ str "share parameters"].
Definition key_lines (is_global first : bool) (kv : kvs) (k : option bytes) : list bytes :=
  match k with
  | None => separator is_global first
  | Some k => [tab ++ kv_line k (default [] (kv_lookup g_ascii_strdown kv k))]
  end.
Definition begins_with_key (kl : list (option bytes)) : bool := match kl with Some _ :: _ => true | _ => false end.
Definition kl_lines (is_global : bool) (kl : list (option bytes)) (kv : kvs) : list bytes :=
  (if begins_with_key kl
   then [tab ++ str "; " ++ (if is_global then str "global " else []) ++ str "parameters"] else []) ++
  concat (key_lines is_global (begins_with_key kl) kv <$> kl).
Definition group_lines (global : option bytes) (x : bytes * smbconf_group) : list bytes :=
  let is_global := bool_decide (Some x.1 = global) in
  [str "[" ++ g_name x.2 ++ str "]"] ++ kl_lines is_global (share_kl is_global (g_kv x.2)) (g_kv x.2) ++ [[]].

Lemma kl_lines_text is_global kl kv :
  Forall (λ k, is_Some (kv_lookup g_ascii_strdown kv k)) (omap id kl) →
  __gptrarray_add_share_kl kl kv is_global = unlines (kl_lines is_global kl kv).
Proof.
  intros Hkl. unfold __gptrarray_add_share_kl, kl_lines. fold (begins_with_key kl).
  rewrite unlines_app, unlines_concat. f_equal.
  - destruct (begins_with_key kl), is_global; done.
  - generalize (begins_with_key kl). intros first. induction kl as [|k kl IH]; [done|].
    rewrite !fmap_cons. cbn [concat]. destruct k as [k|].
    + change (omap id (Some k :: kl)) with (k :: omap id kl) in Hkl.
      inversion Hkl as [|? ? [v Hv] Hkl']; subst. rewrite IH by done. f_equal. cbn [key_line key_lines]. rewrite Hv.
      unfold unlines, kv_line. cbn [fmap list_fmap concat default]. rewrite app_nil_r, <-!app_assoc. done.
    + rewrite IH by done. f_equal. by destruct first, is_global.
Qed.
Lemma group_lines_text global x :
  kv_ok (g_kv x.2) →
  group_text (@g_list_sort) g_list_insert_sorted kv_keys global x = unlines (group_lines global x).
Proof.
  intros Hkv. unfold group_text, group_lines. rewrite kl_lines_text.
  - rewrite !unlines_app. unfold unlines at 2 4. cbn [fmap list_fmap concat].
    rewrite !app_nil_r, <-!app_assoc. done.
  - rewrite new_share_kl_keys by done. apply Forall_forall. intros k Hk. apply (spelled_keys _ Hkv) in Hk as [v Hv].
    unfold kv_lookup. by rewrite Hv.
Qed.

Lemma run_comment l ls p : comment l → run (l :: ls) p = run ls p.
Proof. intros [Hl _]. cbn [for_each]. unfold bind, process_smbconf_entry. by rewrite Hl. Qed.
Lemma run_app l k p p' : run l p = Done tt p' → run (l ++ k) p = run k p'.
Proof. intros E. by rewrite for_each_app, E. Qed.
Lemma run_comments ls p : Forall comment ls → run ls p = Done tt p.
Proof. induction 1 as [|l ls Hl _ IH]; [done|]. by rewrite run_comment. Qed.
Lemma comment_tab l : Forall (λ c, c ≠ 10) l → comment (tab ++ 59 :: l).
Proof. intros Hl. split; [done|]. by repeat constructor. Qed.
Lemma separator_comments is_global first : Forall comment (separator is_global first).
Proof.
  unfold separator. apply Forall_app. split; [destruct first; by repeat constructor|].
  apply Forall_singleton. destruct is_global; (split; [done|by repeat constructor]).
Qed.
(** The lines of the keys: what is between them does not matter. *)
Lemma run_key_lines is_global first kv kl p :
  run (concat (key_lines is_global first kv <$> kl)) p =
  run ((λ k, tab ++ kv_line k (default [] (kv_lookup g_ascii_strdown kv k))) <$> omap id kl) p.
Proof.
  revert p. induction kl as [|[k|] kl IH]; intros p; [done| |].
  - change (omap id (Some k :: kl)) with (k :: omap id kl). rewrite !fmap_cons. cbn [concat key_lines app for_each].
    unfold bind. destruct (process_smbconf_entry _ p); [apply IH|done|done].
  - rewrite fmap_cons. cbn [concat key_lines]. rewrite (run_app _ _ p p) by apply run_comments, separator_comments.
    apply IH.
Qed.
Lemma header_comments is_global first :
  Forall comment (if first : bool
    then [tab ++ str "; " ++ (if is_global : bool then str "global " else []) ++ str "parameters"] else []).
Proof.
  destruct first; [|constructor]. apply Forall_singleton. destruct is_global; (split; [done|by repeat constructor]).
Qed.
Lemma kl_lines_run is_global kv p key g :
  kv_ok kv → plain_kv kv → pr_current p = Some key → pr_groups p !! key = Some g → g_kv g = ∅ →
  run (kl_lines is_global (share_kl is_global kv) kv) p = Done tt (set_kv key kv p).
Proof.
  intros Hkv Hpl Hc Hg He. destruct (spelled_keys kv Hkv) as [Hnd Hin].
  pose proof (new_share_kl_keys is_global kv Hkv) as Hks. unfold kl_lines.
  rewrite (run_app _ _ p p) by apply run_comments, header_comments. rewrite run_key_lines.
  rewrite (run_keys kv _ p key g Hkv Hpl); [| | |done|done|].
  - by rewrite entries_kv, He, map_union_empty.
  - rewrite Hks. apply Forall_forall. intros k. apply Hin.
  - by rewrite Hks.
  - apply Forall_forall. intros k _. by rewrite He.
Qed.
(** Reading the lines of a group puts the group into the table. *)
Lemma group_lines_run global key g p :
  group_ok key g → plain_kv (g_kv g) → parser_ok p → pr_groups p !! key = None →
  ∃ p', run (group_lines global (key, g)) p = Done tt p' ∧ parser_ok p' ∧ pr_groups p' = <[key := g]> (pr_groups p).
Proof.
  intros [Ek Hname Hkv] Hpl Hp Hn. unfold group_lines. cbn [fst snd].
  set (is_global := bool_decide _). set (head := str "[" ++ g_name g ++ str "]").
  assert (∀ c, c ∈ g_name g → cp_printable c = true) as Hpr.
  { intros c Hc. unfold shm_share_name in Hname. apply andb_true_iff in Hname as [_ Hf].
    apply forallb_all in Hf. pose proof (proj1 (Forall_forall _ _) Hf c Hc) as Hx. cbv beta in Hx.
    by apply andb_true_iff in Hx as [[? _]%andb_true_iff _]. }
  destruct (add_group_spec keys_differ (g_name g) [] p Hname Hp) as (Hc & Hg & Hok).
  change (91 :: g_name g ++ [93]) with head in Hc, Hg, Hok. rewrite <-Ek, Hn in Hg. rewrite <-Ek in Hc.
  assert (process_smbconf_entry (cstr head) p = Done tt (add_group head p)) as Hstep.
  { rewrite cstr_nonzero.
    2:{ unfold head. repeat (apply Forall_app; split); [by repeat constructor| |by repeat constructor].
        apply Forall_forall. intros c Hcc ->. by specialize (Hpr _ Hcc). }
    unfold process_smbconf_entry. change (cp_ltrim head) with head. change (cp_smbconf_eol head) with false.
    cbv iota. assert (is_a_group head = true) as ->; [|done].
    unfold is_a_group, head. cbn [app]. change (str "[" ++ g_name g ++ str "]") with (91 :: g_name g ++ [93]).
    cbv iota. rewrite split_at_app by by apply share_name_no_bracket. by rewrite Hname. }
  set (p1 := add_group head p) in *.
  exists (set_kv key (g_kv g) p1).
  assert (run [head] p = Done tt p1) as Hh by (cbn [for_each]; unfold bind; by rewrite Hstep).
  assert (pr_groups p1 !! key = Some (mk_group (g_name g) ∅)) as Hg1 by by rewrite Hg, lookup_insert_eq.
  rewrite (run_app [head] _ p p1 Hh).
  rewrite (run_app _ _ p1 _ (kl_lines_run is_global (g_kv g) p1 key _ Hkv Hpl Hc Hg1 eq_refl)).
  assert (pr_groups (set_kv key (g_kv g) p1) = <[key := g]> (pr_groups p)) as Hgs.
  { unfold set_kv. cbn [pr_groups]. rewrite Hg. apply map_eq. intros k. destruct (decide (k = key)) as [->|].
    - rewrite lookup_alter_eq, !lookup_insert_eq. cbn. by destruct g.
    - by rewrite lookup_alter_ne, !lookup_insert_ne. }
  split_and!; [done| |done]. destruct Hok as [H1' H2' H3' H4']. unfold set_kv in *. cbn [pr_groups] in Hgs.
  assert (∀ k, (λ _ : smbconf_group, k) <$> alter (upd_kv (λ _, g_kv g)) key (pr_groups p1) !! k =
    (λ _, k) <$> pr_groups p1 !! k) as Halt.
  { intros k. destruct (decide (k = key)) as [->|]; [rewrite lookup_alter_eq, Hg1; done|by rewrite lookup_alter_ne]. }
  split; cbn [pr_current pr_groups pr_global pr_ipc].
  - intros k. rewrite Hc. intros [= <-]. rewrite lookup_alter_eq, Hg1. by eexists.
  - by rewrite Halt.
  - by rewrite Halt.
  - intros k g'. rewrite Hgs. destruct (decide (k = key)) as [->|].
    + rewrite lookup_insert_eq. by intros [= <-].
    + rewrite lookup_insert_ne by done. apply Hp.
Qed.
(** *** The file *)

(** What the commands keep: the groups are well formed, [global] and [ipc] point
    to the groups of these names, and no key begins like a group. *)
Record groups_ok (p : smbconf_parser) : Prop := {
  gs_global : pr_global p = (λ _, gkey) <$> pr_groups p !! gkey;
  gs_ipc : pr_ipc p = (λ _, ikey) <$> pr_groups p !! ikey;
  gs_groups : ∀ key g, pr_groups p !! key = Some g → group_ok key g ∧ plain_kv (g_kv g);
}.
Lemma groups_ok_parser p :
  parser_ok p → (∀ key g, pr_groups p !! key = Some g → plain_kv (g_kv g)) → groups_ok p.
Proof. intros [_ Hg Hi Hgr] Hpl. split; [done|done|]. intros key g E. split; [by apply Hgr|by eapply Hpl]. Qed.

Abbreviation share_nl := (new_share_nl (@g_list_sort) group_order).
Lemma group_first_wp pointer key nl s :
  pointer = (λ _, key) <$> pr_groups (ad_parser s) !! key →
  wp (group_first pointer nl) s (λ nl' s', s' = s ∧ nl' ≡ₚ nl) (λ _ _, False).
Proof.
  intros ->. unfold group_first. destruct (pr_groups (ad_parser s) !! key) as [g|] eqn:E; cbn [fmap option_fmap option_map].
  - wp_step. wp_step. rewrite E. pose proof (remove_link_perm key nl) as Hp.
    destruct (remove_link key nl) as [l nl']. by wp_step.
  - by wp_step.
Qed.
Lemma new_share_nl_wp s :
  groups_ok (ad_parser s) →
  wp share_nl s (λ nl s', s' = s ∧ nl ≡ₚ map_to_list (pr_groups (ad_parser s))) (λ _ _, False).
Proof.
  intros [Hg Hi _]. unfold new_share_nl. do 2 wp_step. wp_step.
  wp_by (by apply (group_first_wp _ ikey)); [|done]. intros nl s' [-> Hnl].
  wp_by (by apply (group_first_wp _ gkey)); [|done]. intros nl' s' [-> Hnl']. split; [done|].
  by rewrite Hnl', Hnl, sort_perm, group_order_perm.
Qed.

Lemma printable_line l : (∀ c, c ∈ l → cp_printable c = true) → Forall (λ c, c ≠ 10) l.
Proof. intros Hl. apply Forall_forall. intros c Hc ->. by specialize (Hl _ Hc). Qed.
Lemma forallb_elem {T : Type} (f : T → bool) l x : forallb f l = true → x ∈ l → f x = true.
Proof. intros Hf%forallb_all Hx. by apply (proj1 (Forall_forall _ _) Hf). Qed.
Lemma comments_lines ls : Forall comment ls → Forall (Forall (λ c, c ≠ 10)) ls.
Proof. intros Hl. eapply Forall_impl; [exact Hl|]. by intros l []. Qed.
Lemma key_lines_newline is_global first kv k :
  kv_ok kv → (∀ k', k = Some k' → ∃ v, kv !! g_ascii_strdown k' = Some (k', v)) →
  Forall (Forall (λ c, c ≠ 10)) (key_lines is_global first kv k).
Proof.
  intros Hkv Hk. destruct k as [k|]; [|apply comments_lines, separator_comments].
  destruct (Hk k eq_refl) as [v Hv]. cbn [key_lines]. apply Forall_singleton. unfold kv_lookup. rewrite Hv.
  destruct (Hkv _ _ _ Hv) as (_ & Hko & Hvo). cbn [fmap option_fmap option_map default snd]. unfold kv_line.
  repeat (apply Forall_app; split); [by repeat constructor| |by repeat constructor|]; apply printable_line; intros c Hc.
  - unfold key_ok in Hko. apply andb_true_iff in Hko as [_ Hf]. pose proof (forallb_elem _ _ _ Hf Hc) as Hx.
    unfold key_char in Hx. by apply andb_true_iff in Hx as [[? _]%andb_true_iff _].
  - unfold value_ok in Hvo. apply andb_true_iff in Hvo as [_ Hf]. pose proof (forallb_elem _ _ _ Hf Hc) as Hx.
    unfold value_char in Hx. by apply andb_true_iff in Hx as [? _].
Qed.
Lemma group_lines_newline global key g :
  group_ok key g → Forall (Forall (λ c, c ≠ 10)) (group_lines global (key, g)).
Proof.
  intros [_ Hname Hkv]. unfold group_lines. cbn [fst snd]. apply Forall_app. split.
  - apply Forall_singleton. repeat (apply Forall_app; split); [by repeat constructor| |by repeat constructor].
    apply printable_line. intros c Hc. unfold shm_share_name in Hname. apply andb_true_iff in Hname as [_ Hf].
    pose proof (forallb_elem _ _ _ Hf Hc) as Hx. cbv beta in Hx. by apply andb_true_iff in Hx as [[? _]%andb_true_iff _].
  - apply Forall_app. split; [|by repeat constructor]. unfold kl_lines. apply Forall_app.
    split; [apply comments_lines, header_comments|]. set (kl := share_kl _ _).
    assert (∀ k, Some k ∈ kl → ∃ v, g_kv g !! g_ascii_strdown k = Some (k, v)) as Hkl.
    { intros k Hk. apply (spelled_keys _ Hkv). rewrite <-(new_share_kl_keys (bool_decide (Some key = global)) _ Hkv).
      apply list_elem_of_omap. by exists (Some k). }
    clearbody kl. generalize (begins_with_key kl). intros first. induction kl as [|k kl IH]; [constructor|].
    rewrite fmap_cons. cbn [concat]. apply Forall_app. split.
    + apply key_lines_newline; [done|]. intros k' ->. apply Hkl. by left.
    + apply IH. intros k' Hk'. apply Hkl. by right.
Qed.
Lemma groups_run global nl p :
  NoDup (fst <$> nl) → Forall (λ x, group_ok x.1 x.2 ∧ plain_kv (g_kv x.2) ∧ pr_groups p !! x.1 = None) nl → parser_ok p →
  ∃ p', run (concat (group_lines global <$> nl)) p = Done tt p' ∧ parser_ok p' ∧
        pr_groups p' = list_to_map nl ∪ pr_groups p.
Proof.
  revert p. induction nl as [|[key g] nl IH]; intros p Hnd Hf Hp.
  { exists p. split_and!; [done|done|]. symmetry. apply (map_empty_union (pr_groups p)). }
  rewrite fmap_cons in Hnd. apply NoDup_cons in Hnd as [Hni Hnd]. inversion Hf as [|? ? (Hg & Hpl & Hn) Hf']; subst.
  destruct (group_lines_run global key g p Hg Hpl Hp Hn) as (p1 & E1 & Hp1 & Hg1).
  destruct (IH p1 Hnd) as (p' & E & Hp' & Hg'); [|done|].
  { apply Forall_forall. intros [k' g'] Hx. destruct (proj1 (Forall_forall _ _) Hf' _ Hx) as (? & ? & ?).
    split_and!; [done|done|]. cbn in *. rewrite Hg1, lookup_insert_ne; [done|]. intros ->. apply Hni.
    by apply (list_elem_of_fmap_2 fst _ (k', g')). }
  exists p'. rewrite fmap_cons. cbn [concat]. rewrite (run_app _ _ p p1 E1). split_and!; [done|done|].
  rewrite Hg', Hg1, list_to_map_cons, <-insert_union_l, insert_union_r; [done|].
  by apply not_elem_of_list_to_map.
Qed.
(** The text reads back as the groups of [p]. *)
Definition reads_as (text : bytes) (p : smbconf_parser) : Prop :=
  ∃ p', __mmap_parse_file process_smbconf_entry false (inr text) new_parser = Done tt p' ∧ parser_ok p' ∧
        pr_groups p' = pr_groups p ∧ pr_global p' = pr_global p ∧ pr_ipc p' = pr_ipc p.
Abbreviation contents := (get_conf_contents (@g_list_sort) g_list_insert_sorted group_order kv_keys).
Lemma get_conf_contents_wp s :
  groups_ok (ad_parser s) →
  wp contents s (λ text s', s' = s ∧ (Z.of_nat (length text) < 2 ^ 63 → reads_as text (ad_parser s))) (λ _ _, False).
Proof.
  intros Hok. unfold get_conf_contents. wp_step. wp_by (by apply new_share_nl_wp); [|done].
  intros nl s' [-> Hnl]. do 3 wp_step. split; [done|]. intros Hlen.
  set (p := ad_parser s) in *. destruct Hok as [Hgl Hipc Hgr].
  assert (Forall (λ x, group_ok x.1 x.2 ∧ plain_kv (g_kv x.2)) nl) as Hf.
  { rewrite Hnl. apply Forall_forall. intros [k g] Hx. apply elem_of_map_to_list in Hx. by apply Hgr. }
  assert (concat (group_text (@g_list_sort) g_list_insert_sorted kv_keys (pr_global p) <$> nl) =
    unlines (concat (group_lines (pr_global p) <$> nl))) as E.
  { rewrite unlines_concat. clear Hnl Hlen. induction Hf as [|x nl [[_ _ Hkv] _] _ IH]; [done|].
    rewrite !fmap_cons. cbn [concat]. by rewrite group_lines_text, IH. }
  set (ls := [str "; see ksmbd.conf(5) for details"; []] ++ concat (group_lines (pr_global p) <$> nl)).
  assert (str "; see ksmbd.conf(5) for details" ++ newline ++ newline ++
    concat (group_text (@g_list_sort) g_list_insert_sorted kv_keys (pr_global p) <$> nl) = unlines ls) as Et.
  { rewrite E. unfold ls. rewrite unlines_app. done. }
  rewrite Et in Hlen |- *.
  assert (Forall (Forall (λ c, c ≠ 10)) ls) as Hnn.
  { unfold ls. apply Forall_app. split; [by repeat constructor|]. clear Hnl Hlen E Et ls.
    induction Hf as [|[k g] nl [Hg _] _ IH]; [constructor|]. rewrite fmap_cons. cbn [concat].
    apply Forall_app. split; [by apply group_lines_newline|exact IH]. }
  destruct (groups_run (pr_global p) nl new_parser) as (p' & Er & Hp' & Hg').
  { rewrite Hnl. apply NoDup_fst_map_to_list. }
  { eapply Forall_impl; [exact Hf|]. by intros x []. }
  { apply new_parser_ok. }
  assert (pr_groups p' = pr_groups p) as Hgs.
  { rewrite Hg'. etrans; [apply (map_union_empty (list_to_map nl))|]. symmetry. by apply list_to_map_flip. }
  exists p'. rewrite mmap_parse_file_eq by done. split_and!; [|done|done| |].
  - destruct (unlines ls) eqn:Eu; [done|]. rewrite <-Eu, lines_unlines by done. unfold ls.
    rewrite (run_app _ _ new_parser new_parser); [done|]. apply run_comments. repeat constructor; done.
  - by rewrite (po_global _ Hp'), Hgs, Hgl.
  - by rewrite (po_ipc _ Hp'), Hgs, Hipc.
Qed.
(** *** Options from the command line *)

(** [g_ascii_strdown] works on each octet, and [g_strstrip] only removes blanks. *)
Hypothesis strdown_cons : ∀ c s, g_ascii_strdown (c :: s) = ascii_lower c :: g_ascii_strdown s.
Hypothesis strstrip_solid : ∀ c s, c ≠ 32 → ¬ 9 ≤ c ≤ 13 → ∃ t, g_strstrip (c :: s) = c :: t.

Lemma drop_blanks_last r x : ∃ r', drop_blanks (r ++ [x]) = r' ++ [x].
Proof.
  induction r as [|c r [r' IH]]; cbn [app drop_blanks].
  { exists []. by destruct (is_ascii_space_tab x). }
  destruct (is_ascii_space_tab c); [|by exists (c :: r)].
  destruct (r ++ [x]) eqn:E; [by destruct r|]. by exists r'.
Qed.
Lemma cp_rtrim_head x l : ∃ t, cp_rtrim (x :: l) = x :: t.
Proof.
  unfold cp_rtrim. rewrite reverse_cons. destruct (drop_blanks_last (reverse l) x) as [r' ->].
  rewrite reverse_app. cbn. by eexists.
Qed.
Lemma option_key_plain before c :
  shm_share_config (g_strstrip before) c = true → plain_key (cp_rtrim before) = true.
Proof.
  intros Hc. destruct before as [|x l]; [done|]. destruct (cp_rtrim_head x l) as [u ->].
  destruct (decide (x = 91)) as [->|Hx].
  2:{ unfold plain_key. repeat case_match; congruence. }
  exfalso. destruct (strstrip_solid 91 l) as [v Hv]; [lia|lia|]. rewrite Hv in Hc.
  unfold shm_share_config, key_equal in Hc. apply andb_true_iff in Hc as [_ Hc%bool_decide_eq_true].
  rewrite strdown_cons, strdown_conf in Hc. destruct c; discriminate Hc.
Qed.
Lemma kv_insert_plain entry before after kv :
  split_at 61 entry = Some (before, after) → plain_key (cp_rtrim before) = true → plain_kv kv →
  plain_kv (kv_insert entry kv).
Proof.
  intros Hs Hk Hp. unfold kv_insert. rewrite Hs. destruct (cp_smbconf_eol _); [done|].
  destruct (kv_lookup _ _ _); [done|]. intros fk k v. destruct (decide (fk = g_ascii_strdown (cp_rtrim before))) as [->|].
  - rewrite lookup_insert_eq. by intros [= <- _].
  - rewrite lookup_insert_ne by done. apply Hp.
Qed.

(** The command works on the group [key]; the others stay as they were. *)
Record editing (key : bytes) (groups : gmap bytes smbconf_group) (p : smbconf_parser) : Prop := {
  ed_parser : parser_ok p;
  ed_plain : ∀ k g, pr_groups p !! k = Some g → plain_kv (g_kv g);
  ed_current : pr_current p = Some key;
  ed_others : ∀ k, k ≠ key → pr_groups p !! k = groups !! k;
}.
Lemma alter_editing key groups p f :
  editing key groups p →
  (∀ g, kv_ok (g_kv g) → kv_ok (f (g_kv g))) → (∀ g, plain_kv (g_kv g) → plain_kv (f (g_kv g))) →
  editing key groups (mk_parser (alter (upd_kv f) key (pr_groups p)) (pr_current p) (pr_global p) (pr_ipc p)).
Proof.
  intros [[H1' H2' H3' H4'] Hpl Hc Ho] Hf Hf'.
  assert (∀ k, (λ _ : smbconf_group, k) <$> alter (upd_kv f) key (pr_groups p) !! k = (λ _, k) <$> pr_groups p !! k) as Halt.
  { intros k. destruct (decide (k = key)) as [->|]; [|by rewrite lookup_alter_ne].
    rewrite lookup_alter_eq. by destruct (pr_groups p !! key). }
  assert (∀ k g, alter (upd_kv f) key (pr_groups p) !! k = Some g →
    ∃ g0, pr_groups p !! k = Some g0 ∧ (g = g0 ∨ g = upd_kv f g0)) as Hl.
  { intros k g. destruct (decide (k = key)) as [->|].
    - rewrite lookup_alter_eq. destruct (pr_groups p !! key) as [g0|]; [|done]. intros [= <-]. exists g0. auto.
    - rewrite lookup_alter_ne by done. intros ->. exists g. auto. }
  split; cbn [pr_groups pr_current pr_global pr_ipc]; [split; cbn [pr_groups pr_current pr_global pr_ipc]| |done|].
  - intros k Hk. specialize (H1' k Hk). specialize (Halt k). destruct (pr_groups p !! k); [|by destruct H1'].
    destruct (alter _ _ _ !! k); [by eexists|done].
  - by rewrite Halt.
  - by rewrite Halt.
  - intros k g (g0 & E & [->| ->])%Hl; [by apply H4'|]. destruct (H4' _ _ E) as [? ? ?]. split; [done|done|]. by apply Hf.
  - intros k g (g0 & E & [->| ->])%Hl; [by eapply Hpl|]. cbn [upd_kv g_kv]. by apply Hf', (Hpl _ _ E).
  - intros k Hk. rewrite lookup_alter_ne by done. by apply Ho.
Qed.
Lemma external_option_editing key groups is_global option p :
  editing key groups p → editing key groups (external_option is_global option p).
Proof.
  intros He. unfold external_option. destruct (cp_smbconf_eol (cp_ltrim option)) eqn:Eo; [done|].
  destruct (is_a_key_value p (cp_ltrim option)) as [e|] eqn:Ek; [|done].
  assert (entry_ok e = true) as Hek.
  { apply is_a_key_value_ok in Ek; [by destruct Ek|]. destruct (cp_ltrim_solid option) as [E|]; [by rewrite E in Eo|done]. }
  destruct (list_find _ share_confs) as [[i c]|] eqn:Ef; [|done].
  apply list_find_Some in Ef as (_ & [_ Hc]%andb_true_iff & _).
  destruct (split_at 61 e) as [[before after]|] eqn:Es; [|by unfold entry_ok in Hek; rewrite Es in Hek].
  unfold add_group_key_value. rewrite (ed_current _ _ _ He). cbn [pr_current pr_groups pr_global pr_ipc].
  assert (editing key groups (mk_parser (alter (upd_kv (delete (g_ascii_strdown (KSMBD_SHARE_CONF c)))) key (pr_groups p))
    (pr_current p) (pr_global p) (pr_ipc p))) as He1.
  { apply alter_editing; [done| |].
    - intros g Hkv fk k v [_ E]%lookup_delete_Some. by apply Hkv.
    - intros g Hkv fk k v [_ E]%lookup_delete_Some. by eapply Hkv. }
  pose proof (alter_editing key groups _ (kv_insert e) He1) as He2. cbn [pr_current pr_groups pr_global pr_ipc] in He2.
  rewrite (ed_current _ _ _ He) in He2. apply He2.
  - intros g. by apply kv_insert_ok.
  - intros g. eapply kv_insert_plain; [exact Es|]. by eapply option_key_plain.
Qed.
Lemma external_group_editing name options p :
  shm_share_name name = true → parser_ok p → (∀ k g, pr_groups p !! k = Some g → plain_kv (g_kv g)) →
  editing (shm_casefold_share_name name) (pr_groups p) (cp_parse_external_smbconf_group name options p).
Proof.
  intros Hn Hp Hpl. unfold cp_parse_external_smbconf_group.
  destruct (add_group_spec keys_differ name [] p Hn Hp) as (Hc & Hg & Hok). cbn zeta in *.
  set (p1 := add_group (91 :: name ++ [93]) p) in *. set (key := shm_casefold_share_name name) in *.
  assert (editing key (pr_groups p) p1) as He.
  { split; [done| |done|]; rewrite Hg.
    - intros k g. destruct (pr_groups p !! key) eqn:E; [apply Hpl|].
      destruct (decide (k = key)) as [->|]; [rewrite lookup_insert_eq; intros [= <-]; by intros ???|].
      rewrite lookup_insert_ne by done. apply Hpl.
    - intros k Hk. destruct (pr_groups p !! key); [done|]. by rewrite lookup_insert_ne. }
  revert He. generalize (bool_decide (pr_current p1 = pr_global p1)). intros b. generalize p1.
  induction options as [|o options IH]; intros q Hq; [done|]. cbn [foldl]. by apply IH, external_option_editing.
Qed.
(** *** The commands *)
Variable write_ok : bool.
Variable prompt_options_stdin : list bytes → bool → Z + list bytes.
Abbreviation add := (command_add_share (@g_list_sort) g_list_insert_sorted group_order kv_keys write_ok prompt_options_stdin).
Abbreviation update := (command_update_share (@g_list_sort) g_list_insert_sorted group_order kv_keys write_ok prompt_options_stdin).
Abbreviation del := (command_delete_share (@g_list_sort) g_list_insert_sorted group_order kv_keys write_ok prompt_options_stdin).

Lemma edit_and_write_wp f s :
  groups_ok (f (ad_parser s)) →
  wp (edit_and_write (@g_list_sort) g_list_insert_sorted group_order kv_keys write_ok f) s
    (λ _ s', ad_parser s' = f (ad_parser s) ∧
             (Z.of_nat (length (ad_file s')) < 2 ^ 63 → reads_as (ad_file s') (ad_parser s')))
    (λ e s', e = - EINVAL ∧ ad_file s' = ad_file s).
Proof.
  intros Hok. unfold edit_and_write. do 2 wp_step. wp_step. wp_by (by apply get_conf_contents_wp); [|done].
  intros text s' [-> Hr]. unfold set_conf_contents. destruct write_ok; by wp_step.
Qed.
Lemma process_options_wp options kv is_global s :
  wp (process_options prompt_options_stdin options kv is_global) s (λ _ s', s' = s) (λ _ s', s' = s).
Proof. unfold process_options. repeat case_match; by wp_step. Qed.
Lemma editing_groups_ok key groups p : editing key groups p → groups_ok p.
Proof. intros [Hp Hpl _ _]. by apply groups_ok_parser. Qed.

Lemma delete_groups_ok key p :
  parser_ok p → (∀ k g, pr_groups p !! k = Some g → plain_kv (g_kv g)) → key ≠ gkey → key ≠ ikey →
  groups_ok (mk_parser (delete key (pr_groups p)) (pr_current p) (pr_global p) (pr_ipc p)).
Proof.
  intros Hp Hpl Hg Hi. destruct (groups_ok_parser _ Hp Hpl) as [H1' H2' H3']. split; cbn [pr_global pr_ipc pr_groups].
  - by rewrite lookup_delete_ne.
  - by rewrite lookup_delete_ne.
  - intros k g' [_ E']%lookup_delete_Some. by apply H3'.
Qed.

Record edited (key : bytes) (s s' : admin) : Prop := {
  ed_same : ∀ k, k ≠ key → pr_groups (ad_parser s') !! k = pr_groups (ad_parser s) !! k;
  ed_reads : Z.of_nat (length (ad_file s')) < 2 ^ 63 → reads_as (ad_file s') (ad_parser s');
}.
Lemma edit_group_wp name options s :
  shm_share_name name = true → parser_ok (ad_parser s) →
  (∀ k g, pr_groups (ad_parser s) !! k = Some g → plain_kv (g_kv g)) →
  wp (edit_and_write (@g_list_sort) g_list_insert_sorted group_order kv_keys write_ok
        (cp_parse_external_smbconf_group name options)) s
    (λ _ s', edited (shm_casefold_share_name name) s s' ∧
             is_Some (pr_groups (ad_parser s') !! shm_casefold_share_name name))
    (λ e s', e = - EINVAL ∧ ad_file s' = ad_file s).
Proof.
  intros Hn Hp Hpl. pose proof (external_group_editing name options (ad_parser s) Hn Hp Hpl) as He.
  wp_by (by apply edit_and_write_wp, (editing_groups_ok _ _ _ He)); [|done].
  intros _ s' [E Hr]. split; [split; [|done]|]; rewrite E.
  - apply He.
  - by apply (po_current _ (ed_parser _ _ _ He)), (ed_current _ _ _ He).
Qed.

Lemma share_commands_wp name options s :
  shm_share_name name = true → parser_ok (ad_parser s) →
  (∀ k g, pr_groups (ad_parser s) !! k = Some g → plain_kv (g_kv g)) →
  let key := shm_casefold_share_name name in
  let there := is_Some (pr_groups (ad_parser s) !! key) in
  wp (add name options) s
    (λ _ s', ¬ there ∧ edited key s s' ∧ is_Some (pr_groups (ad_parser s') !! key))
    (λ e s', (there → e = - EEXIST) ∧ ad_file s' = ad_file s) ∧
  wp (update name options) s
    (λ _ s', there ∧ edited key s s' ∧ is_Some (pr_groups (ad_parser s') !! key))
    (λ e s', (¬ there → e = - EINVAL) ∧ ad_file s' = ad_file s) ∧
  (key ≠ ikey →
   wp (del name) s
     (λ _ s', there ∧ edited key s s' ∧ (key ≠ gkey → pr_groups (ad_parser s') !! key = None))
     (λ e s', e = - EINVAL ∧ ad_file s' = ad_file s)) ∧
  (key = ikey → there → del name s = Fault).
Proof.
  intros Hn Hp Hpl key there.
  assert (∀ opts, there → wp (update name opts) s
    (λ _ s', there ∧ edited key s s' ∧ is_Some (pr_groups (ad_parser s') !! key))
    (λ e s', (opts ≠ [] → e = - EINVAL) ∧ ad_file s' = ad_file s)) as Hup.
  { intros opts Hth. unfold command_update_share. do 2 wp_step. fold key. pose proof Hth as [g Hg]. rewrite Hg.
    wp_step. destruct opts as [|o opts].
    - wp_by (apply process_options_wp); [|by intros e s' ->]. intros opts' s' ->.
      wp_by (by apply edit_group_wp); [by intros _ s' []|by intros e s' []].
    - unfold process_options. wp_step. wp_by (by apply edit_group_wp); [by intros _ s' []|by intros e s' []]. }
  split_and!.
  - unfold command_add_share. do 2 wp_step. fold key. destruct (pr_groups (ad_parser s) !! key) as [g|] eqn:E.
    + wp_step. done.
    + assert (¬ there) as Hth by (unfold there; rewrite ?E; by intros []).
      wp_step. wp_by (apply process_options_wp); [|intros e s' ->; done]. intros opts' s' ->.
      wp_by (by apply edit_group_wp); [by intros _ s' []|by intros e s' []].
  - destruct (pr_groups (ad_parser s) !! key) as [g|] eqn:E.
    + assert there as Hth by (unfold there; rewrite ?E; by eexists).
      wp_by (by apply Hup); [done|by intros e s' []].
    + unfold command_update_share. do 2 wp_step. fold key. rewrite E. by wp_step.
  - intros Hki. unfold command_delete_share. do 2 wp_step. fold key. destruct (pr_groups (ad_parser s) !! key) as [g|] eqn:E.
    2:{ by wp_step. }
    assert there as Hth by (unfold there; rewrite ?E; by eexists).
    destruct (decide (Some key = pr_global (ad_parser s))) as [Eg|Eg].
    + assert (key = gkey) as Ekg.
      { rewrite (po_global _ Hp) in Eg. destruct (pr_groups (ad_parser s) !! gkey); cbn in Eg; congruence. }
      wp_by (by apply Hup); [|intros e s' [He Hf]; split; [by apply He|done]].
      intros _ s' (? & ? & ?). split_and!; [done|done|]. by rewrite Ekg.
    + assert (key ≠ gkey) as Hkg.
      { intros ->. rewrite (po_global _ Hp), E in Eg. by cbn in Eg. }
      wp_by (by apply edit_and_write_wp, delete_groups_ok); [|done].
      intros _ s' [Ep Hr]. split_and!; [done| |].
      * split; [|done]. rewrite Ep. intros k Hk. cbn [pr_groups]. by rewrite lookup_delete_ne.
      * intros _. rewrite Ep. cbn [pr_groups]. by rewrite lookup_delete_eq.
  - intros Hki [g E]. unfold command_delete_share, bind at 1, get at 1. fold key. rewrite E.
    destruct (decide _) as [Eg|Eg].
    + exfalso. rewrite (po_global _ Hp) in Eg. destruct (pr_groups (ad_parser s) !! gkey); cbn in Eg; congruence.
    + unfold edit_and_write, get_conf_contents, new_share_nl, bind, modify, get.
      cbn [ad_parser pr_groups pr_ipc pr_global]. rewrite (po_ipc _ Hp), <-Hki, E. cbn [fmap option_fmap option_map].
      unfold group_first, bind, get. cbn [ad_parser pr_groups]. by rewrite lookup_delete_eq.
Qed.
(** C15 (refinement): a command of the share administration program changes the
    group it names and no other, and the file it writes reads back, by the
    parser of the daemon, as exactly the groups it has in memory; when it fails,
    the file is the old one.  Adding refuses a name that is there, updating and
    deleting one that is not.  This is so when no key of the groups in memory
    begins with a bracket, which would be read back as the start of a group
    ([bracket_key_becomes_group]); and deleting the group [ipc$] follows the
    pointer to the freed group. *)
Theorem share_commands_file name options s :
  shm_share_name name = true → parser_ok (ad_parser s) →
  (∀ k g, pr_groups (ad_parser s) !! k = Some g → plain_kv (g_kv g)) →
  let key := shm_casefold_share_name name in
  let there := is_Some (pr_groups (ad_parser s) !! key) in
  wp (add name options) s
    (λ _ s', ¬ there ∧ edited key s s' ∧ is_Some (pr_groups (ad_parser s') !! key))
    (λ e s', (there → e = - EEXIST) ∧ ad_file s' = ad_file s) ∧
  wp (update name options) s
    (λ _ s', there ∧ edited key s s' ∧ is_Some (pr_groups (ad_parser s') !! key))
    (λ e s', (¬ there → e = - EINVAL) ∧ ad_file s' = ad_file s) ∧
  (key ≠ ikey →
   wp (del name) s
     (λ _ s', there ∧ edited key s s' ∧ (key ≠ gkey → pr_groups (ad_parser s') !! key = None))
     (λ e s', e = - EINVAL ∧ ad_file s' = ad_file s)) ∧
  (key = ikey → there → del name s = Fault).
Proof. apply share_commands_wp. Qed.
End RoundTrip.

(** ** Examples *)
Lemma toy_strstrip c s : c ≠ 32 → ¬ 9 ≤ c ≤ 13 → ∃ t, g_strstrip (GLib:=toy_glib) (c :: s) = c :: t.
Proof.
  intros H1 H2. cbn [g_strstrip toy_glib]. assert (is_space c = false) as Hc by (unfold is_space; lia).
  assert (skip_spaces (c :: s) = c :: s) as -> by (cbn; by rewrite Hc).
  assert (∀ r, ∃ r', skip_spaces (r ++ [c]) = r' ++ [c]) as Hr.
  { induction r as [|x r [r' IH]]; cbn; [exists []; by rewrite Hc|]. destruct (is_space x); [by exists r'|by exists (x :: r)]. }
  rewrite reverse_cons. destruct (Hr (reverse s)) as [r' ->]. rewrite reverse_app. by eexists.
Qed.
Lemma toy_strdown_conf c : g_ascii_strdown (GLib:=toy_glib) (KSMBD_SHARE_CONF c) = KSMBD_SHARE_CONF c.
Proof. by destruct c. Qed.
Definition any_sort {T : Type} (f : T → bytes) (l : list T) : list T := l.
Definition any_insert (l : list bytes) (x : bytes) : list bytes := x :: l.
Definition table_keys (kv : kvs) : list bytes := (λ x, x.2.1) <$> map_to_list kv.
Lemma toy_parsed_ok : parser_ok (H:=toy_glib) toy_parsed.
Proof.
  assert (toy_parse = Done tt toy_parsed) as E by (vm_compute; reflexivity).
  refine (wp_Done _ _ _ _ _ _ (parse_file_wp (H:=toy_glib) toy_keys_differ (inr toy_text) new_parser _ (new_parser_ok (H:=toy_glib))) E).
  vm_compute. reflexivity.
Qed.
Abbreviation toy_admin := (mk_admin toy_parsed toy_text).
Abbreviation toy_add :=
  (command_add_share (H:=toy_glib) (@any_sort) any_insert map_to_list table_keys true (λ o _, inr o)
    (str "Media") [str "path = /srv/media"; str "comment = films"] toy_admin).
Lemma share_commands_file_witness :
  ∃ s', toy_add = Done tt s' ∧ reads_as (H:=toy_glib) (ad_file s') (ad_parser s') ∧
        dom (pr_groups (ad_parser s')) = {[ str "global"; str "media" ]}.
Proof.
  assert (∃ s', toy_add = Done tt s' ∧ dom (pr_groups (ad_parser s')) = {[ str "global"; str "media" ]} ∧
    Z.of_nat (length (ad_file s')) < 2 ^ 63) as (s' & E & Ed & El).
  { eexists. split; [vm_compute; reflexivity|]. split; vm_compute; reflexivity. }
  exists s'. split; [exact E|]. split; [|exact Ed].
  assert (∀ k g, pr_groups toy_parsed !! k = Some g → plain_kv (g_kv g)) as Hpl.
  { assert (map_Forall (λ _ g, map_Forall (λ _ x, plain_key x.1 = true) (g_kv g)) (pr_groups toy_parsed)) as Hf
      by (apply (bool_decide_unpack _); vm_compute; exact I).
    intros k g Hg fk k' v' Hk. exact (Hf k g Hg fk (k', v') Hk). }
  destruct (share_commands_file (H:=toy_glib) (@any_sort) any_insert map_to_list table_keys
    (λ T f l, reflexivity l) (λ l x, reflexivity (x :: l)) (λ t, reflexivity (map_to_list t))
    (λ kv, reflexivity (table_keys kv)) toy_strdown_conf toy_keys_differ (λ c s, eq_refl) toy_strstrip
    true (λ o _, inr o) (str "Media") [str "path = /srv/media"; str "comment = films"] toy_admin eq_refl toy_parsed_ok Hpl)
    as [Hw _].
  destruct (wp_Done _ _ _ _ _ _ Hw E) as (_ & Hed & _). exact (ed_reads _ _ _ Hed El).
Defined.

(** Why the keys must not begin like a group: a line that is no group because
    of its length is written with single blanks around the equals sign, and is
    a group when it is read again. *)
Definition wide_line : bytes := str "[Media]" ++ newline ++ str "[a" ++ replicate 80 32 ++ str "= b]" ++ newline.
Definition parsed_groups (text : bytes) : option smbconf_parser :=
  match __mmap_parse_file (process_smbconf_entry (H:=toy_glib)) false (inr text) new_parser with
  | Done _ p => Some p
  | _ => None
  end.
Definition rewritten (text : bytes) : option smbconf_parser :=
  p ← parsed_groups text;
  match get_conf_contents (H:=toy_glib) (@any_sort) any_insert map_to_list table_keys (mk_admin p text) with
  | Done text' _ => parsed_groups text'
  | _ => None
  end.
Definition group_names (p : smbconf_parser) : list bytes := fst <$> map_to_list (pr_groups p).
Example bracket_key_becomes_group :
  (group_names <$> parsed_groups wide_line) = Some [str "media"] ∧
  (length ∘ group_names <$> rewritten wide_line) = Some 2%nat.
Proof. split; vm_compute; reflexivity. Qed.
