(* ===== verification/ShareDialog.v ===== *)
(** * The dialogue of the share program ([src/addshare/share_admin.c])

    [__prompt_options_stdin]: the user walks through the parameters of a share on
    a terminal in raw mode, edits their values in a line buffer with completions,
    and commits them behind the last one.

    The input is a list of octets, behind which [getchar] reports the end.  The
    buffer [buf] of [LINE_MAX] octets is its text: [buflen] is the length of the
    text after every statement, and a text that does not fit with its
    terminator is a fault, as are a parameter without an equals sign, an index
    out of range and an overflow of an [int]. *)

From S2P Require Import Prelude ConfText Users Shares Config ShareAdmin Getopt.

(** ** Data *)
Definition LINE_MAX : nat := 2048.
Definition KSMBD_SHARE_CONF_MAX : Z := 39.
Definition KSMBD_SHARE_DEFCONF (c : share_conf) : bytes :=
  str match c with
  | CONF_GUEST_OK | CONF_INHERIT_OWNER | CONF_FOLLOW_SYMLINKS | CONF_FRUIT_TIME_MACHINE | CONF_FRUIT_RFORK_SIZE
  | CONF_CONTINUOUS_AVAILABILITY | CONF_STREAMS | CONF_ACL_XATTR => "no"
  | CONF_READ_ONLY => "; yes"
  | CONF_BROWSEABLE | CONF_STORE_DOS_ATTRIBUTES | CONF_OPLOCKS | CONF_HIDE_DOT_FILES | CONF_CROSSMNT
  | CONF_FRUIT_FINDER_INFO | CONF_FRUIT_MAX_ACCESS => "yes"
  | CONF_CREATE_MASK => "0744" | CONF_DIRECTORY_MASK => "0755"
  | CONF_FORCE_CREATE_MODE | CONF_FORCE_DIRECTORY_MODE => "0000"
  | CONF_MAX_CONNECTIONS => "128" | CONF_FRUIT_TIME_MACHINE_MAX_SIZE => "0"
  | _ => ""
  end.
(** The formats, in front of the default in brackets *)
Definition __defconf_fmt (c : share_conf) : bytes :=
  str match c with
  | CONF_COMMENT => "; net view and browse list description"
  | CONF_PATH => "; directory given access"
  | CONF_GUEST_OK => "; allow passwordless connections with guest accounts"
  | CONF_GUEST_ACCOUNT => "; name of additional guest account"
  | CONF_READ_ONLY => "; users have read only access"
  | CONF_BROWSEABLE => "; visible in net view and browse list"
  | CONF_WRITE_OK | CONF_WRITEABLE | CONF_WRITABLE => "; users have read-write access"
  | CONF_STORE_DOS_ATTRIBUTES => "; support dos file attributes with xattr"
  | CONF_OPLOCKS => "; issue oplocks for file open requests"
  | CONF_CREATE_MASK => "; octal bitmask and'd with mapped file perms"
  | CONF_DIRECTORY_MASK => "; octal bitmask and'd with mapped dir perms"
  | CONF_FORCE_CREATE_MODE => "; octal bitmask or'd with final file perms"
  | CONF_FORCE_DIRECTORY_MODE => "; octal bitmask or'd with final dir perms"
  | CONF_FORCE_GROUP => "; system group to map all users"
  | CONF_FORCE_USER => "; system user to map all users"
  | CONF_HIDE_DOT_FILES => "; files beginning with dot are hidden"
  | CONF_VALID_USERS => "; list of the only users allowed to connect"
  | CONF_INVALID_USERS => "; list of users disallowed to connect"
  | CONF_READ_LIST => "; list of users restricted to read only access"
  | CONF_WRITE_LIST => "; list of users granted read-write access"
  | CONF_ADMIN_USERS => "; list of users mapped to the superuser"
  | CONF_HOSTS_ALLOW => "; list of the only hosts allowed to connect"
  | CONF_HOSTS_DENY => "; list of hosts disallowed to connect"
  | CONF_MAX_CONNECTIONS => "; maximum number of simultaneous connections"
  | CONF_VETO_FILES => "; files and dirs made inaccessible, e.g. /file1/dir1/"
  | CONF_INHERIT_OWNER => "; files and dirs inherit ownership from parent dir"
  | CONF_FOLLOW_SYMLINKS => "; follow symlinks in the path directory"
  | CONF_VFS_OBJECTS => "; list of vfs objects to overload io ops with"
  | CONF_CROSSMNT => "; path lookup can cross mountpoints"
  | CONF_FRUIT_TIME_MACHINE => "; enable Apple Time Machine support"
  | CONF_FRUIT_TIME_MACHINE_MAX_SIZE => "; max size for Time Machine backups in bytes"
  | CONF_FRUIT_FINDER_INFO => "; expose Finder info in readdir responses"
  | CONF_FRUIT_RFORK_SIZE => "; expose resource fork sizes in readdir responses"
  | CONF_FRUIT_MAX_ACCESS => "; expose max access in readdir responses"
  | CONF_CONTINUOUS_AVAILABILITY => "; enable continuous availability for this share"
  | CONF_STREAMS => "; enable alternate data streams via xattr"
  | CONF_ACL_XATTR => "; enable Windows ACL via xattr"
  end.
Definition default_comment (c : share_conf) : bytes := __defconf_fmt c ++ str " [" ++ KSMBD_SHARE_DEFCONF c ++ str "]".

(** The variables of [__prompt_options_stdin], the input that is left, and what
    was printed; a list of completions that is NULL is empty. *)
Record dialog := mk_dialog {
  dg_options : list bytes; dg_conf : Z; dg_ready : bool; dg_step : Z; dg_buf : bytes; dg_ml : list bytes;
  dg_ccode : Z; dg_icode : Z; dg_licode : Z; dg_row : Z; dg_col : Z; dg_input : list Z; dg_out : list bytes;
}.
Definition set_options (v : list bytes) (s : dialog) : dialog :=
  mk_dialog v (dg_conf s) (dg_ready s) (dg_step s) (dg_buf s) (dg_ml s) (dg_ccode s) (dg_icode s) (dg_licode s) (dg_row s) (dg_col s) (dg_input s) (dg_out s).
Definition set_conf (v : Z) (s : dialog) : dialog :=
  mk_dialog (dg_options s) v (dg_ready s) (dg_step s) (dg_buf s) (dg_ml s) (dg_ccode s) (dg_icode s) (dg_licode s) (dg_row s) (dg_col s) (dg_input s) (dg_out s).
Definition set_ready (s : dialog) : dialog :=
  mk_dialog (dg_options s) (dg_conf s) true (dg_step s) (dg_buf s) (dg_ml s) (dg_ccode s) (dg_icode s) (dg_licode s) (dg_row s) (dg_col s) (dg_input s) (dg_out s).
Definition set_step (v : Z) (s : dialog) : dialog :=
  mk_dialog (dg_options s) (dg_conf s) (dg_ready s) v (dg_buf s) (dg_ml s) (dg_ccode s) (dg_icode s) (dg_licode s) (dg_row s) (dg_col s) (dg_input s) (dg_out s).
Definition set_buf (v : bytes) (s : dialog) : dialog :=
  mk_dialog (dg_options s) (dg_conf s) (dg_ready s) (dg_step s) v (dg_ml s) (dg_ccode s) (dg_icode s) (dg_licode s) (dg_row s) (dg_col s) (dg_input s) (dg_out s).
Definition set_ml (v : list bytes) (s : dialog) : dialog :=
  mk_dialog (dg_options s) (dg_conf s) (dg_ready s) (dg_step s) (dg_buf s) v (dg_ccode s) (dg_icode s) (dg_licode s) (dg_row s) (dg_col s) (dg_input s) (dg_out s).
Definition set_codes (ccode icode licode : Z) (s : dialog) : dialog :=
  mk_dialog (dg_options s) (dg_conf s) (dg_ready s) (dg_step s) (dg_buf s) (dg_ml s) ccode icode licode (dg_row s) (dg_col s) (dg_input s) (dg_out s).
Definition set_cursor (row col : Z) (s : dialog) : dialog :=
  mk_dialog (dg_options s) (dg_conf s) (dg_ready s) (dg_step s) (dg_buf s) (dg_ml s) (dg_ccode s) (dg_icode s) (dg_licode s) row col (dg_input s) (dg_out s).
Definition set_input (v : list Z) (s : dialog) : dialog :=
  mk_dialog (dg_options s) (dg_conf s) (dg_ready s) (dg_step s) (dg_buf s) (dg_ml s) (dg_ccode s) (dg_icode s) (dg_licode s) (dg_row s) (dg_col s) v (dg_out s).
Definition add_out (b : bytes) (s : dialog) : dialog :=
  mk_dialog (dg_options s) (dg_conf s) (dg_ready s) (dg_step s) (dg_buf s) (dg_ml s) (dg_ccode s) (dg_icode s) (dg_licode s) (dg_row s) (dg_col s) (dg_input s) (dg_out s ++ [b]).

Definition ESC : Z := 27.
Definition esc (s : string) : bytes := ESC :: str s.
Definition printf (b : bytes) : prog dialog unit := modify (add_out b).
(** The next octet, or the end *)
Definition getchar : prog dialog (option Z) :=
  s <- get ;;
  match dg_input s with [] => ret None | c :: l => modify (set_input l) ;; ret (Some c) end.
(** Writing [buf]: the text and its terminator must fit. *)
Definition put_buf (b : bytes) : prog dialog unit := if (length b <? LINE_MAX)%nat then modify (set_buf b) else fault.
Definition clear_buf : prog dialog unit := put_buf [] ;; modify (set_ml []).
(** [snprintf] with a size *)
Definition truncated (size : nat) (b : bytes) : bytes := take (size - 1) b.
Definition conf_of (conf : Z) : prog dialog share_conf := lift_option (share_confs !! Z.to_nat conf).

(** ** Parameters *)

(** An option is loaded into the buffer when the walk comes to it, and put
    together again when it leaves. *)
Definition __load_conf : prog dialog unit :=
  s <- get ;;
  c <- conf_of (dg_conf s) ;;
  option <- lift_option (dg_options s !! Z.to_nat (dg_conf s)) ;;
  shown <- (if dg_step s =? 0 then ret option
            else if cp_smbconf_eol (cp_ltrim (dg_buf s)) then
              match split_at 61 option with
              | None => fault
              | Some (_, after) =>
                  let p := cp_ltrim after in
                  let option' := take (length option - length p) option in
                  put_buf (truncated LINE_MAX (if p is [] then default_comment c else p)) ;;
                  modify (set_options (<[Z.to_nat (dg_conf s) := option']> (dg_options s))) ;;
                  ret option'
              end
            else
              modify (set_options (<[Z.to_nat (dg_conf s) := option ++ dg_buf s]> (dg_options s))) ;;
              ret option) ;;
  s <- get ;;
  printf ([13] ++ esc "[2K" ++ shown ++ dg_buf s ++ esc "[6n").

Section Dialog.
Variable is_global : bool.
Definition skipped (c : share_conf) : bool := (is_global && KSMBD_SHARE_CONF_IS_GLOBAL c) || KSMBD_SHARE_CONF_IS_BROKEN c.
(** [conf] is of an unsigned type: one less than the first is behind the last.
    The recursion ends at a parameter that is not skipped, or never: there are
    at most forty other ones in a row. *)
Fixpoint next_conf (fuel : nat) (conf step : Z) : prog dialog Z :=
  match fuel with
  | O => fault
  | S fuel =>
      if KSMBD_SHARE_CONF_MAX <? conf then ret 0
      else if conf =? KSMBD_SHARE_CONF_MAX then
        s <- get ;;
        if dg_ready s then ret conf
        else
          modify set_ready ;;
          printf (esc "D" ++ [13] ++ esc "[1m" ++ str "Ready to commit changes!" ++ esc "[m") ;;
          next_conf fuel (u32 (conf - 1)) (-1)
      else
        c <- conf_of conf ;;
        if skipped c then next_conf fuel (u32 (conf + step)) step
        else
          (if 0 <? step then printf (esc "D") else if step <? 0 then printf (esc "M") else ret tt) ;;
          ret conf
  end.
Definition __next_conf (conf step : Z) : prog dialog Z := next_conf 45 conf step.

(** ** Completions *)

(** What the machine offers: the users in the order of their table, the system's
    groups and users, and directories: their entries with whether they are
    directories. *)
Variable users groups passwds : list bytes.
Variable opendir : bytes → option (list (bytes * bool)).
Variable root_dir : option bytes.
Variable g_list_insert_sorted : list bytes → bytes → list bytes.
Variable g_utf8_find_prev_char : bytes → option nat.
Variable verase : Z.

Definition next_ml (ml : list bytes) : list bytes := match ml with [] => [] | x :: ml => ml ++ [x] end.
Definition init_ml (ml : list bytes) : list bytes := tail ml.
(** The head of the list is the text to complete, until [init_ml] drops it. *)
Definition add_match (insert : list bytes → bytes → list bytes) (ml : list bytes) (name : bytes) : list bytes :=
  match ml with p :: _ => if is_prefix p name then insert ml name else ml | [] => ml end.
Definition matches (insert : list bytes → bytes → list bytes) (p : bytes) (names : list bytes) : list bytes :=
  init_ml (foldl (add_match insert) [p] names).
Definition append_ml (ml : list bytes) (x : bytes) : list bytes := ml ++ [x].
Definition new_user_ml (ml : list bytes) (p : bytes) : list bytes :=
  match ml with [] => matches g_list_insert_sorted p users | _ => next_ml ml end.
Definition new_system_group_ml (ml : list bytes) (p : bytes) : list bytes :=
  match ml with [] => matches g_list_insert_sorted p groups | _ => next_ml ml end.
Definition new_system_user_ml (ml : list bytes) (p : bytes) : list bytes :=
  match ml with [] => matches g_list_insert_sorted p passwds | _ => next_ml ml end.
(** [dir]: what is in front of [p] in the buffer *)
Fixpoint from_slash (dir : bytes) : bytes := match dir with [] => [] | c :: dir' => if c =? 47 then dir else from_slash dir' end.
Definition new_path_ml (ml : list bytes) (p dir : bytes) : list bytes :=
  match ml with
  | [] =>
      match from_slash dir with
      | [] => []
      | name =>
          match opendir (default [] root_dir ++ name) with
          | None => []
          | Some entries =>
              matches g_list_insert_sorted p
                (fst <$> filter (λ e, e.2 = true ∧ e.1 ≠ str "." ∧ e.1 ≠ str "..") entries)
          end
      end
  | _ => next_ml ml
  end.
Definition new_va_ml (ml : list bytes) (p : bytes) (args : list bytes) : list bytes :=
  match ml with [] => matches append_ml p args | _ => next_ml ml end.
(** Where [__rtrim_path] and [__rtrim_list] stop: the part of the buffer in front
    and the part behind. *)
Fixpoint rtrim_at (stop : Z → bool) (b : bytes) : bytes * bytes :=
  match b with
  | [] => ([], [])
  | c :: b =>
      let '(a, p) := rtrim_at stop b in
      if stop c then (c :: a, p) else match a with [] => ([], c :: p) | _ => (c :: a, p) end
  end.
Definition __rtrim_path : bytes → bytes * bytes := rtrim_at (λ c, c =? 47).
Definition __rtrim_list : bytes → bytes * bytes := rtrim_at (λ c, (c =? 9) || (c =? 32) || (c =? 44)).
(** The text in front of [p] and the list *)
Definition conf_ml (c : share_conf) (ml : list bytes) (buf : bytes) : bytes * list bytes :=
  match c with
  | CONF_PATH => let '(dir, p) := __rtrim_path buf in (dir, new_path_ml ml p dir)
  | CONF_GUEST_OK | CONF_READ_ONLY | CONF_BROWSEABLE | CONF_WRITE_OK | CONF_WRITEABLE | CONF_STORE_DOS_ATTRIBUTES | CONF_OPLOCKS
  | CONF_HIDE_DOT_FILES | CONF_INHERIT_OWNER | CONF_FOLLOW_SYMLINKS | CONF_WRITABLE | CONF_CROSSMNT | CONF_FRUIT_TIME_MACHINE
  | CONF_FRUIT_FINDER_INFO | CONF_FRUIT_RFORK_SIZE | CONF_FRUIT_MAX_ACCESS | CONF_CONTINUOUS_AVAILABILITY | CONF_STREAMS
  | CONF_ACL_XATTR => ([], new_va_ml ml buf [str "yes"; str "no"])
  | CONF_GUEST_ACCOUNT => ([], new_user_ml ml buf)
  | CONF_FORCE_GROUP => ([], new_system_group_ml ml buf)
  | CONF_FORCE_USER => ([], new_system_user_ml ml buf)
  | CONF_VALID_USERS | CONF_INVALID_USERS | CONF_READ_LIST | CONF_WRITE_LIST | CONF_ADMIN_USERS =>
      let '(a, p) := __rtrim_list buf in (a, new_user_ml ml p)
  | CONF_VFS_OBJECTS => let '(a, p) := __rtrim_list buf in (a, new_va_ml ml p [str "acl_xattr"; str "streams_xattr"])
  | _ => ([], ml)
  end.
Definition new_conf_ml (c : share_conf) : prog dialog unit :=
  s <- get ;;
  let '(a, ml) := conf_ml c (dg_ml s) (dg_buf s) in
  let empty_path := bool_decide (c = CONF_PATH) && bool_decide (dg_buf s = []) in
  (if empty_path then put_buf (str "/") else ret tt) ;;
  let ml := if empty_path then [] else ml in
  modify (set_ml ml) ;;
  match ml with
  | [] => ret tt
  | x :: _ => put_buf (a ++ truncated (LINE_MAX - length a) x)
  end.

(** ** The loop *)
Definition is_digit_code (c : Z) : bool := (48 <=? c) && (c <=? 57).
(** Whether [c] goes on with an escape sequence of which [ccode] is the last
    octet *)
Definition in_sequence (c ccode : Z) : bool :=
  (c =? ESC) || ((c =? 91) && (ccode =? ESC)) || ((c =? 65) && (ccode =? 91)) || ((c =? 66) && (ccode =? 91)) ||
  (is_digit_code c && (ccode =? 91)) || (is_digit_code c && is_digit_code ccode) || ((c =? 59) && is_digit_code ccode) ||
  (is_digit_code c && (ccode =? 59)) || ((c =? 82) && is_digit_code ccode).
(** [step] is set and the parameter stored. *)
Definition leave (step : Z) : prog dialog bool := modify (set_step step) ;; __load_conf ;; ret true.
(** The numbers of a report of the cursor *)
Definition read_code : prog dialog unit :=
  s <- get ;;
  if is_digit_code (dg_ccode s) then
    let v := 10 * dg_icode s + dg_ccode s in
    if INT_MAX <? v then fault else modify (set_codes (dg_ccode s) (v - 48) (dg_licode s))
  else if dg_ccode s =? 59 then modify (set_codes (dg_ccode s) 0 (dg_icode s))
  else if dg_ccode s =? 82 then modify (set_cursor (dg_licode s) (dg_icode s)) ;; modify (set_codes 0 0 0)
  else ret tt.
(** An octet that belongs to no sequence *)
Definition key (c : Z) : prog dialog bool :=
  modify (set_codes 0 0 0) ;;
  if c =? 16 then leave (-1)
  else if (c =? 14) || (c =? 10) then leave 1
  else if c =? 23 then clear_buf ;; __load_conf ;; ret true
  else
    s <- get ;;
    (if cp_smbconf_eol (cp_ltrim (dg_buf s)) then clear_buf else ret tt) ;;
    s <- get ;;
    if c =? 9 then conf <- conf_of (dg_conf s) ;; new_conf_ml conf ;; __load_conf ;; ret true
    else if c =? verase then
      let buflen := length (dg_buf s) in
      let clen := match g_utf8_find_prev_char (dg_buf s) with Some i => (buflen - i)%nat | None => 1%nat end in
      put_buf (take (buflen - (if (clen <? buflen)%nat then clen else buflen)) (dg_buf s)) ;; modify (set_ml []) ;;
      __load_conf ;; ret true
    else if (length (dg_buf s) <? LINE_MAX - 1)%nat && (dg_col s <? 80) then
      put_buf (dg_buf s ++ [c]) ;; modify (set_ml []) ;;
      (if cp_printable c then ret tt else put_buf (dg_buf s)) ;;
      __load_conf ;; ret true
    else ret true.
(** The body of the loop: whether the loop goes on *)
Definition turn : prog dialog bool :=
  s <- get ;;
  (if dg_step s =? 0 then ret tt
   else
     clear_buf ;; __load_conf ;;
     modify (set_codes 0 0 0) ;; modify (set_cursor 0 0) ;; modify (set_step 0)) ;;
  s <- get ;;
  if dg_ccode s =? 65 then leave (-1) ;; modify (set_codes 0 0 0) ;; ret true
  else if dg_ccode s =? 66 then leave 1 ;; modify (set_codes 0 0 0) ;; ret true
  else
    read_code ;;
    c <- getchar ;;
    match c with
    | None => ret false
    | Some c =>
        if c =? 4 then ret false
        else
          s <- get ;;
          if in_sequence c (dg_ccode s) then modify (set_codes c (dg_icode s) (dg_licode s)) ;; ret true
          else key c
    end.
(** [None]: the fuel was not enough. *)
Fixpoint dialog_loop (fuel : nat) : prog dialog (option unit) :=
  s <- get ;;
  if KSMBD_SHARE_CONF_MAX <=? dg_conf s then ret (Some tt)
  else match fuel with
  | O => ret None
  | S fuel =>
      goes_on <- turn ;;
      if goes_on : bool then
        s <- get ;;
        conf <- __next_conf (u32 (dg_conf s + dg_step s)) (dg_step s) ;;
        modify (set_conf conf) ;;
        dialog_loop fuel
      else ret (Some tt)
  end.
Definition dialog_help : bytes :=
  str "  <enter> <down> <control-n>    next parameter" ++ newline ++
  str "            <up> <control-p>    previous parameter" ++ newline ++
  str "                 <control-w>    erase value" ++ newline ++
  str "                       <tab>    cycle completions" ++ newline ++
  str "                   <space> ,    list separator" ++ newline ++
  str "                         ; #    comment with [default value]" ++ newline ++
  esc "[1m" ++ str "Share parameters" ++ esc "[m" ++ newline.
(** The input that is left is read and dropped.
    A turn that reads nothing comes after one that has read the end of an arrow:
    two turns for each octet, and two more, are enough. *)
Definition __prompt_options_stdin : prog dialog (option Z) :=
  printf dialog_help ;;
  s <- get ;;
  r <- dialog_loop (2 * length (dg_input s) + 2) ;;
  printf (esc "D" ++ [13] ++ esc "[2K") ;;
  modify (set_input []) ;;
  s <- get ;;
  ret ((λ _, if dg_conf s <? KSMBD_SHARE_CONF_MAX then - EINVAL else 0) <$> r).
Definition start_dialog (options : list bytes) (input : list Z) : dialog :=
  mk_dialog options 0 false 1 [] [] 0 0 0 0 0 input [].
End Dialog.

(** ** Lines of parameters *)

(** What each line begins with: parameters that are not asked for are comments. *)
Definition head_of (is_global : bool) (c : share_conf) : bytes :=
  (if skipped is_global c then str "; " else []) ++ KSMBD_SHARE_CONF c ++ str " ".
Definition line_of (is_global : bool) (c : share_conf) (o : bytes) : Prop := ∃ v, o = head_of is_global c ++ 61 :: v.
Lemma head_split g c v : split_at 61 (head_of g c ++ 61 :: v) = Some (head_of g c, v).
Proof. apply split_at_app. destruct g, c; apply (bool_decide_unpack _); vm_compute; exact I. Qed.
Lemma cp_ltrim_suffix v : ∃ b, v = b ++ cp_ltrim v.
Proof.
  induction v as [|c v [b IH]]; [by exists []|]. cbn. destruct (is_ascii_space_tab c); [|by exists []].
  exists (c :: b). cbn. by rewrite <-IH.
Qed.
(** The option without its value, and back *)
Lemma option_cut h v : ∃ b, v = b ++ cp_ltrim v ∧ take (length (h ++ 61 :: v) - length (cp_ltrim v)) (h ++ 61 :: v) = h ++ 61 :: b.
Proof.
  destruct (cp_ltrim_suffix v) as [b Hb]. exists b. split; [done|]. rewrite Hb at 1 3.
  replace (h ++ 61 :: b ++ cp_ltrim v) with ((h ++ 61 :: b) ++ cp_ltrim v) by by rewrite <-app_assoc.
  rewrite length_app, Nat.add_sub. apply take_app_length.
Qed.
Lemma get_options_lines `{GLib} kv g : Forall2 (line_of g) share_confs (__get_options kv g).
Proof.
  unfold __get_options. apply Forall2_fmap_r, Forall2_same_length_lookup_2; [done|]. intros i c c' Hc Hc'.
  rewrite Hc in Hc'. injection Hc' as <-. eexists. unfold head_of, skipped. cbv beta. rewrite <-!app_assoc. do 2 f_equal.
Qed.

Section Walk.
Variable is_global : bool.
Abbreviation lines_ok := (Forall2 (line_of is_global) share_confs).

(** The parameter the walk is at, and the state around it; [o0]: the options at
    the start *)
Record walking (o0 : list bytes) (s : dialog) : Prop := {
  wk_conf : 0 ≤ dg_conf s ∧ ∃ c, share_confs !! Z.to_nat (dg_conf s) = Some c ∧ skipped is_global c = false;
  wk_buf : (length (dg_buf s) < LINE_MAX)%nat;
  wk_lines : lines_ok (dg_options s);
  wk_skipped : ∀ i c, share_confs !! i = Some c → skipped is_global c = true → dg_options s !! i = o0 !! i;
}.
(** Only the text changes: options, buffer, completions and output. *)
Definition retexted (s s' : dialog) : Prop :=
  ∃ o b ml out, s' = mk_dialog o (dg_conf s) (dg_ready s) (dg_step s) b ml (dg_ccode s) (dg_icode s) (dg_licode s) (dg_row s) (dg_col s)
    (dg_input s) out.
Lemma retexted_refl s : retexted s s.
Proof. exists (dg_options s), (dg_buf s), (dg_ml s), (dg_out s). by destruct s. Qed.
Lemma retexted_trans s s1 s2 : retexted s s1 → retexted s1 s2 → retexted s s2.
Proof. intros (? & ? & ? & ? & ->) (o & b & ml & out & ->). by exists o, b, ml, out. Qed.
Lemma truncated_fits n b : (n ≠ 0 → length (truncated n b) < n)%nat.
Proof. intros Hn. unfold truncated. rewrite length_take. lia. Qed.
Lemma put_buf_wp b s o0 :
  (length b < LINE_MAX)%nat → walking o0 s →
  wp (put_buf b) s (λ _ s', walking o0 s' ∧ retexted s s' ∧ dg_buf s' = b ∧ dg_options s' = dg_options s) (λ _ _, False).
Proof.
  intros Hb [Hc _ Hl Hs]. unfold put_buf. rewrite (proj2 (Nat.ltb_lt _ _)) by done. wp_step. split; [by split|]. split; [|done].
  by exists (dg_options s), b, (dg_ml s), (dg_out s).
Qed.
Lemma set_ml_ok ml s o0 : walking o0 s → walking o0 (set_ml ml s) ∧ retexted s (set_ml ml s).
Proof. intros []. split; [by split|]. by exists (dg_options s), (dg_buf s), ml, (dg_out s). Qed.
Lemma clear_buf_wp s o0 :
  walking o0 s →
  wp clear_buf s (λ _ s', walking o0 s' ∧ retexted s s' ∧ dg_buf s' = [] ∧ dg_options s' = dg_options s) (λ _ _, False).
Proof.
  intros Hw. unfold clear_buf. wp_step. eapply wp_mono; [apply put_buf_wp; [cbn; unfold LINE_MAX; lia|exact Hw]| |done].
  intros _ s' (Hw' & Hr & Hb & Ho). wp_step. destruct (set_ml_ok [] s' o0 Hw') as [Hw2 Hr2]. split_and!; [done| |done|done].
  by eapply retexted_trans.
Qed.
(** A change of the option at a place that is not skipped *)
Lemma walking_store o0 s c o :
  walking o0 s → share_confs !! Z.to_nat (dg_conf s) = Some c → skipped is_global c = false → line_of is_global c o →
  walking o0 (set_options (<[Z.to_nat (dg_conf s) := o]> (dg_options s)) s).
Proof.
  intros [Hc Hb Hl Hs] Ec Esk Hlo. split; [done|done| |].
  - cbn. pose proof (list_insert_id share_confs _ _ Ec) as <-. by apply Forall2_insert.
  - intros i d Hd Hsd. cbn. rewrite list_lookup_insert_ne; [by eapply Hs|]. intros <-. rewrite Ec in Hd. congruence.
Qed.
(** The text of an option with its value in the buffer *)
Definition text_of (s : dialog) : option bytes := (λ o, o ++ dg_buf s) <$> dg_options s !! Z.to_nat (dg_conf s).
Lemma load_conf_wp o0 s :
  walking o0 s → wp __load_conf s (λ _ s', walking o0 s' ∧ retexted s s') (λ _ _, False).
Proof.
  intros Hw. pose proof Hw as [(H0 & c & Ec & Esk) Hb Hl Hs]. unfold __load_conf. do 2 wp_step. wp_step. unfold conf_of. rewrite Ec. cbn [lift_option]. wp_step.
  destruct (Forall2_lookup_l _ _ _ _ _ Hl Ec) as (o & Eo & v & Ev). wp_step. rewrite Eo. cbn [lift_option]. wp_step.
  wp_step. eapply (wp_mono _ _ (λ _ s', walking o0 s' ∧ retexted s s') _ (λ _ _, False)); [|cbv beta|done].
  - destruct (dg_step s =? 0); [wp_step; split; [done|apply retexted_refl]|]. destruct (cp_smbconf_eol _).
    + rewrite Ev, head_split. wp_step. eapply wp_mono; [apply put_buf_wp; [apply truncated_fits; unfold LINE_MAX; lia|exact Hw]| |done].
      intros _ s1 (Hw1 & Hr1 & _ & Ho1). do 2 wp_step. wp_step. destruct Hr1 as (o1 & b1 & ml1 & out1 & ->). cbn in Ho1. subst o1.
      split; [|by eexists _, _, _, _]. destruct (option_cut (head_of is_global c) v) as (b & _ & ->).
      exact (walking_store o0 _ c _ Hw1 Ec Esk (ex_intro _ b eq_refl)).
    + do 2 wp_step. wp_step. split; [|by eexists _, _, _, _]. apply (walking_store o0 s c); [done..|]. exists (v ++ dg_buf s). by rewrite Ev, <-app_assoc.
  - intros shown s1 [Hw1 Hr1]. do 2 wp_step. unfold printf. wp_step. destruct Hw1. split; [by split|]. eapply retexted_trans; [exact Hr1|].
    by eexists _, _, _, _.
Qed.

(** *** The next parameter *)

(** [next_conf] without what it prints *)
Fixpoint next_pure (fuel : nat) (ready : bool) (conf step : Z) : option (Z * bool) :=
  match fuel with
  | O => None
  | S fuel =>
      if KSMBD_SHARE_CONF_MAX <? conf then Some (0, ready)
      else if conf =? KSMBD_SHARE_CONF_MAX then
        if ready then Some (conf, ready) else next_pure fuel true (u32 (conf - 1)) (-1)
      else match share_confs !! Z.to_nat conf with
      | None => None
      | Some c => if skipped is_global c then next_pure fuel ready (u32 (conf + step)) step else Some (conf, ready)
      end
  end.
Definition moved (ready : bool) (conf : Z) (s s' : dialog) : Prop :=
  ∃ out, s' = mk_dialog (dg_options s) conf ready (dg_step s) (dg_buf s) (dg_ml s) (dg_ccode s) (dg_icode s) (dg_licode s) (dg_row s)
    (dg_col s) (dg_input s) out.
Lemma next_conf_pure fuel conf step s r ready :
  next_pure fuel (dg_ready s) conf step = Some (r, ready) →
  wp (next_conf is_global fuel conf step) s (λ a s', a = r ∧ moved ready (dg_conf s) s s') (λ _ _, False).
Proof.
  revert conf step s. induction fuel as [|fuel IH]; intros conf step s; [done|]. cbn [next_pure next_conf].
  destruct (_ <? conf); [intros [= <- <-]; wp_step; split; [done|exists (dg_out s); by destruct s]|].
  destruct (_ =? _).
  - intros E. do 2 wp_step. destruct (dg_ready s) eqn:Er.
    + injection E as <- <-. wp_step. split; [done|]. exists (dg_out s). rewrite <-Er. by destruct s.
    + do 2 wp_step. wp_step. unfold printf. wp_step. eapply wp_mono; [by apply IH| |done].
      intros a s' [-> [out ->]]. split; [done|]. by exists out.
  - intros E. wp_step. unfold conf_of. destruct (share_confs !! _) as [c|]; [|done]. cbn [lift_option]. wp_step. destruct (skipped _ _).
    + by apply IH.
    + injection E as <- <-. wp_step.
      eapply (wp_mono _ _ (λ _ s', moved (dg_ready s) (dg_conf s) s s') _ (λ _ _, False)); [|cbv beta|done].
      * unfold printf. destruct (0 <? step); [|destruct (step <? 0)]; wp_step; try by eexists. exists (dg_out s). by destruct s.
      * intros _ s' Hm. by wp_step.
Qed.
(** The parameters that are asked for; from each of them, a step leads to
    another one, to the same, or behind the last when all were seen. *)
Definition visible (conf : Z) : bool :=
  (0 <=? conf) && match share_confs !! Z.to_nat conf with Some c => negb (skipped is_global c) | None => false end.
Definition next_ok (ready : bool) (conf step : Z) : bool :=
  match next_pure 45 ready (u32 (conf + step)) step with
  | Some (r, ready') => visible r || ((r =? KSMBD_SHARE_CONF_MAX) && ready')
  | None => false
  end.
End Walk.
Lemma next_ok_all g ready conf step : visible g conf = true → -1 ≤ step ≤ 1 → next_ok g ready conf step = true.
Proof.
  intros Hv Hs.
  assert (conf ∈ (Z.of_nat <$> seq 0 39)) as Hc.
  { unfold visible in Hv. apply andb_true_iff in Hv as [H0%Z.leb_le Hv]. destruct (share_confs !! Z.to_nat conf) eqn:E; [|done].
    apply lookup_lt_Some in E. cbn in E. apply list_elem_of_fmap. exists (Z.to_nat conf). split; [lia|]. apply elem_of_seq. lia. }
  assert (step ∈ [-1; 0; 1]) as Hs' by (assert (step = -1 ∨ step = 0 ∨ step = 1) as [-> | [-> | ->]] by lia; set_solver).
  assert (∀ g ready, forallb (λ conf, forallb (λ step, implb (visible g conf) (next_ok g ready conf step)) [-1; 0; 1]) (Z.of_nat <$> seq 0 39) = true)
    as Hall by (intros [] []; vm_compute; reflexivity).
  specialize (Hall g ready). rewrite forallb_forall in Hall. specialize (Hall conf ltac:(by apply list_elem_of_In)).
  rewrite forallb_forall in Hall. specialize (Hall step ltac:(by apply list_elem_of_In)). by rewrite Hv in Hall.
Qed.

(** The walk from one parameter to the next, without the texts: it is behind the
    last one after [n] steps, and not earlier. *)
Fixpoint walks (is_global : bool) (n : nat) (ready : bool) (conf : Z) : bool :=
  match n with
  | O => conf =? KSMBD_SHARE_CONF_MAX
  | S n =>
      visible is_global conf &&
      match next_pure is_global 45 ready (u32 (conf + 1)) 1 with Some (r, ready') => walks is_global n ready' r | None => false end
  end.
(** The number of times to press Enter: once for each parameter that is asked
    for, and once more to commit *)
Definition enters (is_global : bool) : nat := S (length (filter (λ c, skipped is_global c = false) share_confs)).
Lemma walks_enters g : walks g (enters g) false 0 = true.
Proof. destruct g; vm_compute; reflexivity. Qed.

(** ** The loop keeps the lines *)
Section Turns.
Variable is_global : bool.
Variable users groups passwds : list bytes.
Variable opendir : bytes → option (list (bytes * bool)).
Variable root_dir : option bytes.
Variable g_list_insert_sorted : list bytes → bytes → list bytes.
Variable g_utf8_find_prev_char : bytes → option nat.
Variable verase : Z.
Abbreviation conf_ml := (conf_ml users groups passwds opendir root_dir g_list_insert_sorted).
Abbreviation new_conf_ml := (new_conf_ml users groups passwds opendir root_dir g_list_insert_sorted).
Abbreviation key := (key users groups passwds opendir root_dir g_list_insert_sorted g_utf8_find_prev_char verase).
Abbreviation turn := (turn users groups passwds opendir root_dir g_list_insert_sorted g_utf8_find_prev_char verase).
Abbreviation dialog_loop := (dialog_loop is_global users groups passwds opendir root_dir g_list_insert_sorted g_utf8_find_prev_char verase).
Abbreviation prompt := (__prompt_options_stdin is_global users groups passwds opendir root_dir g_list_insert_sorted g_utf8_find_prev_char verase).
Abbreviation walking := (walking is_global).

Lemma rtrim_at_app stop b : (rtrim_at stop b).1 ++ (rtrim_at stop b).2 = b.
Proof.
  induction b as [|c b IH]; [done|]. cbn. destruct (rtrim_at stop b) as [a p]. cbn in IH. destruct (stop c); cbn; [by rewrite IH|].
  destruct a; cbn in *; by rewrite IH.
Qed.
Lemma conf_ml_front c ml buf : (length (conf_ml c ml buf).1 ≤ length buf)%nat.
Proof.
  assert (∀ stop, length (rtrim_at stop buf).1 ≤ length buf)%nat as Hr
    by (intros stop; rewrite <-(rtrim_at_app stop buf) at 2; rewrite length_app; lia).
  destruct c; cbn; try lia; unfold __rtrim_path, __rtrim_list;
    match goal with |- context [rtrim_at ?f buf] => specialize (Hr f); destruct (rtrim_at f buf); exact Hr end.
Qed.
Lemma new_conf_ml_wp o0 c s :
  walking o0 s → wp (new_conf_ml c) s (λ _ s', walking o0 s' ∧ retexted s s') (λ _ _, False).
Proof.
  intros Hw. unfold ShareDialog.new_conf_ml. do 2 wp_step. pose proof (conf_ml_front c (dg_ml s) (dg_buf s)) as Ha.
  destruct (conf_ml c (dg_ml s) (dg_buf s)) as [a ml]. cbn [fst] in Ha. set (e := _ && _).
  wp_step. eapply (wp_mono _ _ (λ _ s', walking o0 s' ∧ retexted s s' ∧ (e = false → dg_buf s' = dg_buf s)) _ (λ _ _, False)); [|cbv beta|done].
  { destruct e; [|wp_step; split_and!; [done|apply retexted_refl|done]].
    eapply wp_mono; [by apply (put_buf_wp is_global); [cbn; unfold LINE_MAX; lia|]| |done]. intros ? s' (? & ? & _). done. }
  intros ? s1 (Hw1 & Hr1 & Hb1). do 2 wp_step. destruct (set_ml_ok is_global (if e then [] else ml) s1 o0 Hw1) as [Hw2 Hr2].
  pose proof (retexted_trans _ _ _ Hr1 Hr2) as Hr. destruct e; [by wp_step|]. destruct ml as [|x ml]; [by wp_step|].
  pose proof (wk_buf _ _ _ Hw) as Hb.
  eapply wp_mono; [apply (put_buf_wp is_global _ _ o0); [|exact Hw2]| |done].
  { pose proof (truncated_fits (LINE_MAX - length a) x). rewrite length_app. lia. }
  intros ? s2 (Hw3 & Hr3 & _). split; [done|]. by eapply retexted_trans.
Qed.

(** What a key leaves: the walk is where it was, and may have a step to go. *)
Record keyed (o0 : list bytes) (input : list Z) (conf : Z) (s : dialog) : Prop := {
  ky_walking : walking o0 s;
  ky_input : dg_input s = input;
  ky_conf : dg_conf s = conf;
  ky_step : -1 ≤ dg_step s ≤ 1;
  ky_codes : dg_ccode s = 0 ∧ dg_icode s = 0;
}.
Lemma keyed_retexted o0 input conf s s' : keyed o0 input conf s → walking o0 s' → retexted s s' → keyed o0 input conf s'.
Proof. intros [] Hw (o & b & ml & out & ->). by split. Qed.
Lemma load_keyed o0 input conf s :
  keyed o0 input conf s → wp __load_conf s (λ _ s', keyed o0 input conf s') (λ _ _, False).
Proof.
  intros Hk. eapply wp_mono; [apply (load_conf_wp is_global o0), Hk| |done]. intros ? s' [Hw Hr]. by eapply keyed_retexted.
Qed.
Lemma leave_keyed o0 input conf step s :
  keyed o0 input conf s → -1 ≤ step ≤ 1 → wp (leave step) s (λ b s', b = true ∧ keyed o0 input conf s') (λ _ _, False).
Proof.
  intros [[]] Hst. unfold leave. do 2 wp_step. wp_step. eapply wp_mono; [apply (load_keyed o0 input conf); split; [by split|done..]| |done].
  intros ? s' Hk. by wp_step.
Qed.
Lemma clear_keyed o0 input conf s :
  keyed o0 input conf s → wp clear_buf s (λ _ s', keyed o0 input conf s') (λ _ _, False).
Proof.
  intros Hk. eapply wp_mono; [apply (clear_buf_wp is_global s o0), Hk| |done]. intros ? s' (Hw & Hr & _). by eapply keyed_retexted.
Qed.
Lemma put_keyed o0 input conf b s :
  keyed o0 input conf s → (length b < LINE_MAX)%nat →
  wp (put_buf b) s (λ _ s', keyed o0 input conf s') (λ _ _, False).
Proof.
  intros Hk Hb. eapply wp_mono; [apply (put_buf_wp is_global b s o0 Hb), Hk| |done]. intros ? s' (Hw & Hr & _). by eapply keyed_retexted.
Qed.
Lemma key_wp o0 c s :
  walking o0 s → dg_step s = 0 →
  wp (key c) s (λ b s', b = true ∧ keyed o0 (dg_input s) (dg_conf s) s') (λ _ _, False).
Proof.
  intros Hw Hst. set (input := dg_input s). set (conf := dg_conf s). unfold ShareDialog.key. do 2 wp_step.
  assert (keyed o0 input conf (set_codes 0 0 0 s)) as Hk by (destruct Hw; split; [by split|done|done|cbn; lia|done]).
  clearbody input conf. revert Hk. generalize (set_codes 0 0 0 s). clear s Hw Hst. intros s Hk.
  destruct (c =? 16); [by apply leave_keyed|]. destruct (_ || _); [by apply leave_keyed|]. destruct (c =? 23).
  { wp_step. eapply wp_mono; [by apply (clear_keyed o0 input conf)| |done]. intros ? s1 Hk1. wp_step. eapply wp_mono; [by apply (load_keyed o0 input conf)| |done].
    intros ? s2 Hk2. by wp_step. }
  do 2 wp_step. wp_step. eapply (wp_mono _ _ (λ _ s', keyed o0 input conf s') _ (λ _ _, False)); [|cbv beta|done].
  { destruct (cp_smbconf_eol _); [by apply (clear_keyed o0 input conf)|by wp_step]. }
  clear s Hk. intros ? s Hk. do 2 wp_step. pose proof (wk_buf _ _ _ (ky_walking _ _ _ _ Hk)) as Hb.
  assert (∀ s1, keyed o0 input conf s1 → wp (__load_conf ;; ret true) s1 (λ b s', b = true ∧ keyed o0 input conf s') (λ _ _, False)) as Hend.
  { intros s1 Hk1. wp_step. eapply wp_mono; [by apply (load_keyed o0 input conf)| |done]. intros ? s2 Hk2. by wp_step. }
  destruct (c =? 9); [|destruct (c =? verase)].
  - destruct (wk_conf _ _ _ (ky_walking _ _ _ _ Hk)) as (_ & d & Ed & _). unfold conf_of. rewrite Ed. cbn [lift_option]. wp_step. wp_step.
    wp_step. eapply wp_mono; [apply (new_conf_ml_wp o0), Hk| |done]. intros ? s1 [Hw1 Hr1]. apply Hend. by eapply keyed_retexted.
  - cbv zeta. wp_step. eapply wp_mono; [apply (put_keyed o0 input conf); [done|rewrite length_take; lia]| |done]. intros ? s1 Hk1.
    do 2 wp_step. apply Hend. destruct (set_ml_ok is_global [] s1 o0 (ky_walking _ _ _ _ Hk1)) as [Hw2 Hr2]. exact (keyed_retexted _ _ _ _ _ Hk1 Hw2 Hr2).
  - destruct (_ && _) eqn:El; [|by wp_step]. apply andb_true_iff in El as [El%Nat.ltb_lt _].
    wp_step. eapply wp_mono; [apply (put_keyed o0 input conf); [done|rewrite length_app; cbn; lia]| |done]. intros ? s1 Hk1.
    do 2 wp_step. destruct (set_ml_ok is_global [] s1 o0 (ky_walking _ _ _ _ Hk1)) as [Hw2 Hr2].
    pose proof (keyed_retexted _ _ _ _ _ Hk1 Hw2 Hr2) as Hk2. wp_step.
    eapply (wp_mono _ _ (λ _ s', keyed o0 input conf s') _ (λ _ _, False)); [|cbv beta|done].
    + destruct (cp_printable c); [by wp_step|]. by apply (put_keyed o0 input conf).
    + intros ? s2 Hk3. by apply Hend.
Qed.

(** *** Escape sequences *)

(** What becomes of the last octet of a sequence and of its number, when the
    number fits; and all the numbers of an input fit. *)
Definition after_code (ccode icode : Z) : option (Z * Z) :=
  if (ccode =? 65) || (ccode =? 66) || (ccode =? 82) then Some (0, 0)
  else if is_digit_code ccode then if INT_MAX <? 10 * icode + ccode then None else Some (ccode, 10 * icode + ccode - 48)
  else if ccode =? 59 then Some (ccode, 0)
  else Some (ccode, icode).
Fixpoint codes_fit (ccode icode : Z) (input : list Z) : bool :=
  match after_code ccode icode with
  | None => false
  | Some (ccode, icode) =>
      match input with
      | [] => true
      | c :: input => if c =? 4 then true else if in_sequence c ccode then codes_fit c icode input else codes_fit 0 0 input
      end
  end.
(** An arrow is not yet followed. *)
Definition arrow (s : dialog) : nat := if (dg_ccode s =? 65) || (dg_ccode s =? 66) then 1 else 0.
Record at_turn (o0 : list bytes) (s : dialog) : Prop := {
  at_walking : walking o0 s;
  at_step : -1 ≤ dg_step s ≤ 1;
  at_codes : codes_fit (dg_ccode s) (dg_icode s) (dg_input s) = true;
  at_stepping : dg_step s ≠ 0 → dg_ccode s = 0 ∧ dg_icode s = 0;
}.
Definition turned (o0 : list bytes) (s : dialog) (b : bool) (s' : dialog) : Prop :=
  walking o0 s' ∧ (b = true → at_turn o0 s' ∧ (2 * length (dg_input s') + arrow s' < 2 * length (dg_input s) + arrow s)%nat).
Lemma keyed_turned o0 input s b s' :
  keyed o0 input (dg_conf s) s' → codes_fit 0 0 input = true → (2 * length input < 2 * length (dg_input s) + arrow s)%nat → turned o0 s b s'.
Proof.
  intros [Hw Hi Hc Hst [E1 E2]] Hf Hl. split; [done|]. intros _. split.
  - split; [done|done| |done]. by rewrite E1, E2, Hi.
  - unfold arrow at 1. rewrite E1, Hi. cbn. lia.
Qed.
(** The part of a turn behind the loading of a parameter *)
Lemma turn_rest_wp o0 s :
  at_turn o0 s → dg_step s = 0 →
  wp (if dg_ccode s =? 65 then leave (-1) ;; modify (set_codes 0 0 0) ;; ret true
      else if dg_ccode s =? 66 then leave 1 ;; modify (set_codes 0 0 0) ;; ret true
      else
        read_code ;;
        c <- getchar ;;
        match c with
        | None => ret false
        | Some c =>
            if c =? 4 then ret false
            else
              s <- get ;;
              if in_sequence c (dg_ccode s) then modify (set_codes c (dg_icode s) (dg_licode s)) ;; ret true
              else key c
        end) s (turned o0 s) (λ _ _, False).
Proof.
  intros [Hw Hst Hf Hc0] E0.
  assert (∀ step, -1 ≤ step ≤ 1 → codes_fit 0 0 (dg_input s) = true → arrow s = 1%nat →
    wp (leave step ;; modify (set_codes 0 0 0) ;; ret true) s (turned o0 s) (λ _ _, False)) as Hleave.
  { intros step Hs Hf0 Ha. unfold leave. wp_step. do 2 wp_step. wp_step.
    eapply wp_mono; [apply (load_conf_wp is_global o0); destruct Hw; by split| |done]. intros ? s1 [Hw1 (o & b & ml & out & ->)]. wp_step.
    do 2 wp_step. wp_step. apply (keyed_turned o0 (dg_input s)); [|done|lia]. destruct Hw1. split; [by split|done..]. }
  destruct (Z.eqb_spec (dg_ccode s) 65) as [E|E]; [|destruct (Z.eqb_spec (dg_ccode s) 66) as [E'|E']].
  - apply Hleave; [lia| |unfold arrow; by rewrite E]. rewrite E in Hf. destruct (dg_input s); exact Hf.
  - apply Hleave; [lia| |unfold arrow; by rewrite E']. rewrite E' in Hf. destruct (dg_input s); exact Hf.
  - assert (arrow s = 0%nat) as Ha by (unfold arrow; by rewrite (proj2 (Z.eqb_neq _ _) E), (proj2 (Z.eqb_neq _ _) E')).
    destruct (after_code (dg_ccode s) (dg_icode s)) as [[cc ic]|] eqn:Ea; [|by destruct (dg_input s); cbn in Hf; rewrite Ea in Hf].
    wp_step. eapply (wp_mono _ _ (λ _ s', ∃ lic row col,
      s' = mk_dialog (dg_options s) (dg_conf s) (dg_ready s) 0 (dg_buf s) (dg_ml s) cc ic lic row col (dg_input s) (dg_out s)) _ (λ _ _, False));
      [|cbv beta|done].
    { unfold after_code in Ea. rewrite (proj2 (Z.eqb_neq _ _) E), (proj2 (Z.eqb_neq _ _) E') in Ea. cbn [orb] in Ea. unfold read_code.
      do 2 wp_step. destruct (Z.eqb_spec (dg_ccode s) 82) as [E2|E2].
      - injection Ea as <- <-. rewrite E2. cbn. repeat wp_step. eexists _, _, _. unfold set_codes, set_cursor. cbn. by rewrite E0.
      - destruct (is_digit_code _); [destruct (_ <? _); [done|]|destruct (_ =? 59)]; injection Ea as <- <-; wp_step;
          first [eexists _, _, _; unfold set_codes; by rewrite E0|exists (dg_licode s), (dg_row s), (dg_col s); rewrite <-E0 at 1; by destruct s]. }
    intros ? s1 (lic & row & col & ->). unfold getchar. wp_step. do 2 wp_step. cbn [dg_input].
    destruct (dg_input s) as [|c input] eqn:Ei.
    { wp_step. wp_step. split; [destruct Hw; by split|done]. }
    do 2 wp_step. wp_step. cbn in Hf. rewrite Ea in Hf. destruct (c =? 4); [wp_step; split; [destruct Hw; by split|done]|].
    do 2 wp_step. cbn [dg_ccode set_input]. destruct (in_sequence c cc).
    + do 2 wp_step. split; [destruct Hw; by split|]. intros _. split; [destruct Hw; split; [by split|done|done|done]|].
      cbn. rewrite Ei, Ha. unfold arrow. cbn. destruct (_ || _); lia.
    + eapply wp_mono; [apply (key_wp o0); [destruct Hw; by split|done]| |done]. intros b s2 [_ Hk].
      apply (keyed_turned o0 input); [exact Hk|done|]. rewrite Ei, Ha. cbn. lia.
Qed.
Lemma dialog_turn_wp o0 s : at_turn o0 s → wp turn s (turned o0 s) (λ _ _, False).
Proof.
  intros Ht. pose proof Ht as [Hw Hst Hf Hc0]. unfold ShareDialog.turn. do 2 wp_step. destruct (Z.eqb_spec (dg_step s) 0) as [E0|E0].
  { wp_step. wp_step. do 2 wp_step. by apply turn_rest_wp. }
  destruct (Hc0 E0) as [Ec Ei]. wp_step. wp_step. eapply wp_mono; [by apply (clear_buf_wp is_global s o0)| |done].
  intros ? s1 (Hw1 & (o1 & b1 & ml1 & out1 & ->) & _). wp_step.
  eapply wp_mono; [by apply (load_conf_wp is_global o0)| |done]. intros ? s2 [Hw2 (o2 & b2 & ml2 & out2 & ->)]. do 2 wp_step.
  do 2 wp_step. wp_step. do 2 wp_step.
  eapply wp_mono; [apply (turn_rest_wp o0)| |done]; [|done|].
  - destruct Hw2. split; [by split|cbn; lia| |done]. cbn. by rewrite Ec, Ei in Hf.
  - intros b s3 [Hw3 Hb]. split; [done|]. intros Eb. destruct (Hb Eb) as [Ht3 Hl]. split; [done|]. cbn in Hl. unfold arrow at 2. rewrite Ec.
    exact Hl.
Qed.
(** Behind the last parameter, or left before it *)
Definition finished (o0 : list bytes) (s : dialog) : Prop :=
  Forall2 (line_of is_global) share_confs (dg_options s) ∧
  (∀ i c, share_confs !! i = Some c → skipped is_global c = true → dg_options s !! i = o0 !! i).
Lemma walking_visible o0 s : walking o0 s → visible is_global (dg_conf s) = true.
Proof.
  intros [(H0 & c & Ec & Esk) _ _ _]. unfold visible. rewrite Ec, Esk. by rewrite (proj2 (Z.leb_le _ _) H0).
Qed.
Lemma visible_conf conf :
  visible is_global conf = true → 0 ≤ conf ∧ ∃ c, share_confs !! Z.to_nat conf = Some c ∧ skipped is_global c = false.
Proof.
  unfold visible. intros [H0%Z.leb_le Hv]%andb_true_iff. split; [done|]. destruct (share_confs !! _) as [c|]; [|done]. exists c.
  by apply negb_true_iff in Hv.
Qed.
(** The step to the next parameter, or behind the last *)
Lemma next_wp {T : Type} (k : prog dialog T) o0 s Q :
  at_turn o0 s →
  (∀ s', at_turn o0 s' ∨ (finished o0 s' ∧ dg_conf s' = KSMBD_SHARE_CONF_MAX) → dg_input s' = dg_input s → arrow s' = arrow s →
     wp k s' Q (λ _ _, False)) →
  wp (conf <- __next_conf is_global (u32 (dg_conf s + dg_step s)) (dg_step s) ;; modify (set_conf conf) ;; k) s Q (λ _ _, False).
Proof.
  intros [Hw Hst Hf Hc0] Hk. pose proof (next_ok_all is_global (dg_ready s) (dg_conf s) (dg_step s) (walking_visible _ _ Hw) Hst) as Hn.
  unfold next_ok in Hn. destruct (next_pure _ _ _ _ _) as [[r ready]|] eqn:En; [|done].
  wp_step. eapply wp_mono; [apply (next_conf_pure is_global), En| |done]. intros ? s' [-> [out ->]]. do 2 wp_step. apply Hk; [|done|done].
  destruct Hw as [_ Hb Hl Hs]. apply orb_true_iff in Hn as [Hn|Hn].
  - left. split; [|done..]. split; [by apply visible_conf|done..].
  - right. apply andb_true_iff in Hn as [->%Z.eqb_eq _]. done.
Qed.
Lemma dialog_loop_wp o0 fuel s :
  at_turn o0 s ∨ (finished o0 s ∧ dg_conf s = KSMBD_SHARE_CONF_MAX) → (2 * length (dg_input s) + arrow s < fuel)%nat →
  wp (dialog_loop fuel) s (λ r s', r = Some tt ∧ finished o0 s') (λ _ _, False).
Proof.
  revert s. induction fuel as [|fuel IH]; intros s Hs Hl; [lia|]. cbn [ShareDialog.dialog_loop]. do 2 wp_step.
  destruct Hs as [Ht|[Hf Ec]]; [|rewrite Ec, Z.leb_refl; by wp_step].
  destruct (wk_conf _ _ _ (at_walking _ _ Ht)) as (H0 & c & Ec & _). apply lookup_lt_Some in Ec.
  change (length share_confs) with 39%nat in Ec. rewrite (proj2 (Z.leb_gt _ _)) by (unfold KSMBD_SHARE_CONF_MAX; lia).
  wp_step. eapply wp_mono; [by apply (dialog_turn_wp o0)| |done]. intros b s1 [Hw1 Hb]. destruct b.
  - destruct (Hb eq_refl) as [Ht1 Hl1]. do 2 wp_step.
    eapply next_wp; [exact Ht1|]. intros s2 Hs2 Ei Ea. apply IH; [done|]. rewrite Ei, Ea. lia.
  - wp_step. split; [done|]. destruct Hw1. done.
Qed.

(** C18 (safety): the dialogue of the share program.  Whatever is typed, as long
    as the numbers of the escape sequences fit in an [int], the dialogue stays
    in its buffer and its tables, and ends, when its input does or earlier.  It
    gives every parameter the line of its name and a value; the lines of
    parameters that are not asked for are the ones it was given; and it
    succeeds only when the walk came behind the last parameter. *)
Theorem dialog_safe options input :
  Forall2 (line_of is_global) share_confs options → codes_fit 0 0 input = true →
  wp prompt (start_dialog options input)
    (λ r s', finished options s' ∧ r = Some (if dg_conf s' <? KSMBD_SHARE_CONF_MAX then - EINVAL else 0)) (λ _ _, False).
Proof.
  intros Hl Hf. unfold __prompt_options_stdin, printf at 1. do 2 wp_step. do 2 wp_step. wp_step. eapply wp_mono; [apply (dialog_loop_wp options)| |done].
  - left. split; [|cbn; lia|done|done]. split; [|cbn; unfold LINE_MAX; lia|done|done].
    split; [cbn; lia|]. exists CONF_COMMENT. split; [done|]. by destruct is_global.
  - cbn. lia.
  - intros r s [-> Hfin]. unfold printf. do 2 wp_step. do 2 wp_step. do 2 wp_step. done.
Qed.

(** ** Walking through *)

(** A value that the dialogue shows and keeps: none, or one that is no comment
    and fits. *)
Definition settled (c : share_conf) (o : bytes) : Prop :=
  skipped is_global c = false → ∃ v, o = head_of is_global c ++ 61 :: v ∧
    (cp_ltrim v = [] ∨ (cp_smbconf_eol (cp_ltrim v) = false ∧ (length (cp_ltrim v) < LINE_MAX)%nat)).
Lemma ltrim_ltrim v : cp_ltrim (cp_ltrim v) = cp_ltrim v.
Proof. induction v as [|c v IH]; [done|]. cbn. destruct (is_ascii_space_tab c) eqn:E; [done|]. cbn. by rewrite E. Qed.
Lemma comment_eol c : cp_smbconf_eol (cp_ltrim (default_comment c)) = true ∧ (length (default_comment c) < LINE_MAX)%nat.
Proof. split; [by destruct c|]. apply Nat.ltb_lt. by destruct c. Qed.
(** [__load_conf] with a step, when it loads and when it stores *)
Lemma load_in c v s :
  share_confs !! Z.to_nat (dg_conf s) = Some c → dg_options s !! Z.to_nat (dg_conf s) = Some (head_of is_global c ++ 61 :: v) →
  dg_step s ≠ 0 → cp_smbconf_eol (cp_ltrim (dg_buf s)) = true →
  ∃ b out, v = b ++ cp_ltrim v ∧
    __load_conf s = Done tt (add_out out (set_options (<[Z.to_nat (dg_conf s) := head_of is_global c ++ 61 :: b]> (dg_options s))
      (set_buf (truncated LINE_MAX (if cp_ltrim v is [] then default_comment c else cp_ltrim v)) s))).
Proof.
  intros Ec Eo Es Eb. destruct (option_cut (head_of is_global c) v) as (b & Hv & Hcut). exists b. eexists. split; [done|].
  unfold __load_conf, bind, get, conf_of. rewrite Ec, Eo. cbn [lift_option ret]. rewrite (proj2 (Z.eqb_neq _ _) Es), Eb, head_split.
  cbv beta iota zeta. unfold put_buf. rewrite (proj2 (Nat.ltb_lt _ _)) by (apply truncated_fits; unfold LINE_MAX; lia).
  unfold modify, ret, printf. cbv beta iota. rewrite Hcut. reflexivity.
Qed.
Lemma load_out c o s :
  share_confs !! Z.to_nat (dg_conf s) = Some c → dg_options s !! Z.to_nat (dg_conf s) = Some o →
  dg_step s ≠ 0 → cp_smbconf_eol (cp_ltrim (dg_buf s)) = false →
  ∃ out, __load_conf s = Done tt (add_out out (set_options (<[Z.to_nat (dg_conf s) := o ++ dg_buf s]> (dg_options s)) s)).
Proof.
  intros Ec Eo Es Eb. eexists. unfold __load_conf, bind, get, conf_of. rewrite Ec, Eo. cbn [lift_option ret].
  rewrite (proj2 (Z.eqb_neq _ _) Es), Eb. unfold modify, ret, printf. cbv beta iota. reflexivity.
Qed.
(** The state at a parameter that has just been reached by a step down *)
Record reached (options : list bytes) (conf : Z) (ready : bool) (input : list Z) (s : dialog) : Prop := {
  rc_options : dg_options s = options; rc_conf : dg_conf s = conf; rc_ready : dg_ready s = ready; rc_input : dg_input s = input;
  rc_step : dg_step s = 1; rc_codes : dg_ccode s = 0 ∧ dg_icode s = 0;
}.
Lemma lookup_insert_back (options : list bytes) i o : options !! i = Some o → <[i := o]> options = options.
Proof. apply list_insert_id. Qed.
(** Loading and storing again restores the option. *)
Lemma load_twice c o b s1 s2 i options :
  settled c o → skipped is_global c = false → share_confs !! i = Some c → options !! i = Some o →
  dg_options s1 = options → dg_conf s1 = Z.of_nat i → dg_step s1 ≠ 0 → dg_buf s1 = [] →
  __load_conf s1 = Done b s2 →
  ∀ s3, dg_options s3 = dg_options s2 → dg_conf s3 = Z.of_nat i → dg_step s3 ≠ 0 → dg_buf s3 = dg_buf s2 →
  ∃ buf out, __load_conf s3 = Done tt (add_out out (set_options options (set_buf buf s3))).
Proof.
  intros Hs Hsk Ec Eop Eo1 Ec1 Es1 Eb1 E1 s3 Eo3 Ec3 Es3 Eb3. destruct (Hs Hsk) as (v & -> & Hval).
  assert (i < length options)%nat as Hi by by eapply lookup_lt_Some.
  destruct (load_in c v s1) as (b1 & out1 & Hv & E); [by rewrite Ec1, Nat2Z.id|by rewrite Ec1, Nat2Z.id, Eo1|done|by rewrite Eb1|].
  rewrite E in E1. injection E1 as _ <-. cbn [dg_options dg_buf add_out set_options set_buf] in Eo3, Eb3. rewrite Ec1, Nat2Z.id, Eo1 in Eo3.
  destruct Hval as [Hp|[He Hl]].
  - rewrite Hp in Eb3, Hv. rewrite app_nil_r in Hv. subst b1.
    assert (dg_buf s3 = default_comment c) as Eb by (rewrite Eb3; unfold truncated; cbv iota; apply take_ge; destruct (comment_eol c); lia).
    destruct (load_in c v s3) as (b2 & out2 & Hv2 & E2);
      [by rewrite Ec3, Nat2Z.id|by rewrite Ec3, Nat2Z.id, Eo3, list_lookup_insert_eq|done|rewrite Eb; apply comment_eol|].
    rewrite Hp, app_nil_r in Hv2. subst b2. rewrite Hp in E2. eexists _, out2. rewrite E2, Ec3, Nat2Z.id, Eo3, list_insert_insert_eq.
    by rewrite lookup_insert_back.
  - assert (dg_buf s3 = cp_ltrim v) as Eb.
    { rewrite Eb3. unfold truncated. destruct (cp_ltrim v) as [|x p]; [by cbn in He|]. apply take_ge. lia. }
    destruct (load_out c (head_of is_global c ++ 61 :: b1) s3) as (out2 & E2);
      [by rewrite Ec3, Nat2Z.id|by rewrite Ec3, Nat2Z.id, Eo3, list_lookup_insert_eq|done|by rewrite Eb, ltrim_ltrim|].
    exists (dg_buf s3), out2. rewrite E2, Ec3, Nat2Z.id, Eo3, list_insert_insert_eq, Eb, <-app_assoc. cbn [app]. rewrite <-Hv.
    rewrite lookup_insert_back by done. do 2 f_equal. rewrite <-Eb. by destruct s3.
Qed.
Lemma enter_turn options conf ready input s :
  Forall2 settled share_confs options → visible is_global conf = true → reached options conf ready (10 :: input) s →
  wp turn s (λ b s', b = true ∧ reached options conf ready input s') (λ _ _, False).
Proof.
  intros Hset Hv [Eo Ec Er Ei Es [Ecc Eic]]. destruct (visible_conf _ Hv) as (H0 & c & Ecf & Esk).
  destruct (Forall2_lookup_l _ _ _ _ _ Hset Ecf) as (o & Eop & Hs).
  assert (∃ i, conf = Z.of_nat i) as [i ->] by (exists (Z.to_nat conf); lia). rewrite Nat2Z.id in *.
  unfold ShareDialog.turn. do 2 wp_step. rewrite Es. cbn [Z.eqb]. wp_step. wp_step. unfold clear_buf, put_buf. wp_step.
  change (length [] <? LINE_MAX)%nat with true. cbv iota. wp_step. wp_step. wp_step. set (s1 := set_ml [] (set_buf [] s)).
  destruct (Hs Esk) as (v & Hov & _).
  destruct (load_in c v s1) as (b1 & out1 & Hvb & E1); [by cbn; rewrite Ec, Nat2Z.id|cbn; by rewrite Ec, Nat2Z.id, Eo, <-Hov|cbn; by rewrite Es|done|].
  match type of E1 with _ = Done _ ?x => set (s2 := x) in E1 end.
  unfold wp at 1. rewrite E1. do 2 wp_step. do 2 wp_step. wp_step. do 2 wp_step. cbn [dg_ccode set_codes set_cursor set_step Z.eqb].
  wp_step. unfold read_code. do 2 wp_step. cbn [dg_ccode set_codes set_cursor set_step Z.eqb]. change (is_digit_code 0) with false. cbv iota.
  wp_step. wp_step. unfold getchar. do 2 wp_step. cbn [dg_input set_codes set_cursor set_step s2 s1 add_out set_options set_buf set_ml].
  rewrite Ei. do 2 wp_step. wp_step. change (10 =? 4) with false. cbv iota. do 2 wp_step. cbn [dg_ccode set_codes set_cursor set_step set_input].
  change (in_sequence 10 0) with false. cbv iota. unfold ShareDialog.key. do 2 wp_step. change (10 =? 16) with false.
  change ((10 =? 14) || (10 =? 10)) with true. cbv iota. unfold leave. do 2 wp_step. wp_step.
  match goal with |- wp _ ?x _ _ => set (s3 := x) end.
  destruct (load_twice c o tt s1 s2 i options Hs Esk Ecf Eop Eo Ec ltac:(cbn; by rewrite Es) eq_refl E1 s3 eq_refl Ec ltac:(done) eq_refl)
    as (buf & out & E3).
  unfold wp at 1. rewrite E3. wp_step. split; [done|]. by split.
Qed.
Lemma enter_loop options n ready conf fuel s :
  Forall2 settled share_confs options → walks is_global n ready conf = true → reached options conf ready (replicate n 10) s → (n ≤ fuel)%nat →
  wp (dialog_loop fuel) s (λ r s', r = Some tt ∧ dg_options s' = options ∧ dg_conf s' = KSMBD_SHARE_CONF_MAX) (λ _ _, False).
Proof.
  intros Hset. revert ready conf fuel s. induction n as [|n IH]; intros ready conf fuel s Hw Hr Hf; cbn [walks] in Hw.
  - apply Z.eqb_eq in Hw as ->. destruct fuel; cbn [ShareDialog.dialog_loop]; do 2 wp_step; rewrite (rc_conf _ _ _ _ _ Hr), Z.leb_refl; wp_step;
      (split_and!; [done|apply Hr|apply Hr]).
  - apply andb_true_iff in Hw as [Hv Hw]. destruct fuel as [|fuel]; [lia|]. cbn [ShareDialog.dialog_loop]. do 2 wp_step.
    destruct (visible_conf _ Hv) as (H0 & c & Ec & _). apply lookup_lt_Some in Ec. change (length share_confs) with 39%nat in Ec.
    rewrite (rc_conf _ _ _ _ _ Hr), (proj2 (Z.leb_gt _ _)) by (unfold KSMBD_SHARE_CONF_MAX; lia).
    wp_step. eapply wp_mono; [by eapply enter_turn| |done]. intros b s1 [-> [Eo1 Ec1 Er1 Ei1 Es1 Eco1]]. do 2 wp_step.
    destruct (next_pure _ _ _ _ _) as [[r ready']|] eqn:En; [|done]. wp_step. rewrite Ec1, Es1. rewrite <-Er1 in En.
    eapply wp_mono; [apply (next_conf_pure is_global), En| |done]. intros ? s2 [-> [out ->]]. do 2 wp_step.
    eapply IH; [exact Hw| |lia]. by split.
Qed.
Definition short_values (kv : option kvs) : Prop :=
  ∀ t fk k v, kv = Some t → t !! fk = Some (k, v) → (length v < LINE_MAX)%nat.
Lemma get_options_settled `{GLib} kv :
  from_option kv_ok True kv → short_values kv → Forall2 settled share_confs (__get_options kv is_global).
Proof.
  intros Hkv Hl. unfold __get_options. apply Forall2_fmap_r, Forall2_same_length_lookup_2; [done|]. intros i c c' Hc Hc'.
  rewrite Hc in Hc'. injection Hc' as <-. intros _.
  exists (32 :: default [] (kv ≫= λ kv, kv_lookup g_ascii_strdown kv (KSMBD_SHARE_CONF c))).
  split; [unfold head_of, skipped; by rewrite <-!app_assoc|]. destruct kv as [kv|]; [|by left]. cbn [mbind option_bind]. unfold kv_lookup.
  destruct (kv !! _) as [[k v]|] eqn:E; [right|by left]. cbn [fmap option_fmap option_map snd default].
  destruct (Hkv _ _ _ E) as (_ & _ & Hv). destruct (value_ltrim v Hv) as [Hlt He]. unfold default, id. rewrite Hlt. split; [done|].
  by eapply Hl.
Qed.

(** C19 (roundtrip): committing without a change.  When the dialogue is started
    on the options of a group whose values are shorter than the line buffer of
    2048 octets (a longer one is cut), pressing Enter once for each parameter that is
    asked for, and once more, ends it with success and gives back exactly these
    options: every value goes into the buffer and out of it again. *)
Theorem enters_commit `{GLib} kv :
  from_option kv_ok True kv → short_values kv →
  let options := __get_options kv is_global in
  wp prompt (start_dialog options (replicate (enters is_global) 10)) (λ r s', r = Some 0 ∧ dg_options s' = options) (λ _ _, False).
Proof.
  intros Hkv Hl options. unfold __prompt_options_stdin, printf at 1. do 2 wp_step. do 2 wp_step. wp_step.
  eapply wp_mono; [apply (enter_loop options (enters is_global) false 0)| |done].
  - by apply get_options_settled.
  - apply walks_enters.
  - by split.
  - cbn [dg_input start_dialog add_out]. rewrite length_replicate. lia.
  - intros r s (-> & Eo & Ec). unfold printf. do 2 wp_step. do 2 wp_step. do 2 wp_step. cbn. by rewrite Ec.
Qed.
(** Completions are what begins with the text before them, when sorting a name
    into the list leaves the text, which is not greater, at its head. *)
Lemma matches_prefix insert p names :
  (∀ l x, insert l x ≡ₚ x :: l) → (∀ l x, is_prefix p x = true → hd_error (insert (p :: l) x) = Some p) →
  matches insert p names ≡ₚ filter (λ x, is_prefix p x = true) names.
Proof.
  intros Hperm Hhd. unfold matches.
  assert (∀ names l, ∃ l', foldl (add_match insert) (p :: l) names = p :: l' ∧ l' ≡ₚ filter (λ x, is_prefix p x = true) names ++ l) as Hg.
  { induction names0 as [|x names0 IH]; intros l; [by exists l|]. cbn [foldl add_match]. rewrite filter_cons.
    destruct (is_prefix p x) eqn:E.
    - rewrite decide_True by done. pose proof (Hhd l x E) as Hh. pose proof (Hperm (p :: l) x) as Hp.
      destruct (insert (p :: l) x) as [|q l1]; [done|]. injection Hh as ->. destruct (IH l1) as (l' & -> & Hl'). exists l'. split; [done|].
      rewrite Hl'. assert (l1 ≡ₚ x :: l) as ->; [|by rewrite <-Permutation_middle].
      apply (Permutation_cons_inv (a:=p)). by rewrite Hp, Permutation_swap.
    - rewrite decide_False by congruence. apply IH. }
  destruct (Hg names []) as (l' & -> & Hl'). cbn. by rewrite app_nil_r in Hl'.
Qed.
End Turns.

(** ** Examples *)
Abbreviation toy_prompt g options input :=
  (__prompt_options_stdin g [str "alice"; str "bob"] [] [] (λ _, None) None (λ l x, l ++ [x]) (λ b, Some (length b - 1)%nat) 127
     (start_dialog options input)).
Abbreviation toy_options := (__get_options (H:=toy_glib) None false).
(** A report of the cursor, a text, and a completion *)
Definition toy_input : list Z := ESC :: str "[12;40R" ++ str "films" ++ [10; 10; 9; 10] ++ replicate 36 10.
Lemma dialog_safe_witness :
  ∃ s, toy_prompt false toy_options toy_input = Done (Some 0) s ∧ finished false toy_options s ∧
    take 3 (dg_options s) = [str "comment = films"; str "path = "; str "guest ok = yes"].
Proof.
  assert (match toy_prompt false toy_options toy_input with
    | Done r s => bool_decide (r = Some 0 ∧ take 3 (dg_options s) = [str "comment = films"; str "path = "; str "guest ok = yes"])
    | _ => false
    end = true) as Hc by (vm_compute; reflexivity).
  pose proof (dialog_safe false [str "alice"; str "bob"] [] [] (λ _, None) None (λ l x, l ++ [x]) (λ b, Some (length b - 1)%nat) 127
    toy_options toy_input (get_options_lines (H:=toy_glib) None false) ltac:(vm_compute; reflexivity)) as Hw.
  destruct (toy_prompt false toy_options toy_input) as [r s| |] eqn:E; [|discriminate Hc|discriminate Hc].
  apply bool_decide_eq_true_1 in Hc as [-> Ho]. exists s. split; [reflexivity|]. split; [|exact Ho].
  exact (proj1 (wp_Done _ _ _ _ _ _ Hw E)).
Defined.
Lemma enters_commit_witness :
  ∃ s, toy_prompt false toy_options (replicate 39 10) = Done (Some 0) s ∧ dg_options s = toy_options.
Proof.
  pose proof (enters_commit false [str "alice"; str "bob"] [] [] (λ _, None) None (λ l x, l ++ [x]) (λ b, Some (length b - 1)%nat) 127
    (H:=toy_glib) None I ltac:(discriminate)) as Hw.
  change (enters false) with 39%nat in Hw.
  assert (match toy_prompt false toy_options (replicate 39 10) with Done r s => bool_decide (r = Some 0) | _ => false end = true)
    as Hc by (vm_compute; reflexivity).
  destruct (toy_prompt false toy_options (replicate 39 10)) as [r s| |] eqn:E; [|discriminate Hc|discriminate Hc].
  apply bool_decide_eq_true_1 in Hc as ->. exists s. split; [reflexivity|]. exact (proj2 (wp_Done _ _ _ _ _ _ Hw E)).
Defined.
(** The number of an escape sequence that is typed overflows. *)
Theorem escape_number_overflows : toy_prompt false toy_options (ESC :: str "[2147483648;") = Fault.
Proof. vm_compute. reflexivity. Qed.
