(* ===== verification/UserAdmin.v ===== *)
(** * The user administration program ([src/adduser/user_admin.c], [src/adduser/adduser.c])

    The program reads the users and the configuration, changes one user and
    writes the database of passwords back.  A password, given as an argument or
    typed twice on the terminal, is stored as the base64 text of the MD4 digest
    of its UTF-16 form.  The state is that of [Shares] (users and shares) with
    the contents of the file. *)

From S2P Require Import Prelude ConfText Refcount Md4 Users Shares Ndr Config ShareAdmin.

Definition MAX_NT_PWD_LEN : Z := 129.
Definition LINE_MAX : Z := 2048.
Definition KSMBD_CHARSET_DEFAULT : Z := KSMBD_CHARSET_UTF8.

Record uadmin := mk_uadmin { ua_state : sstate; ua_file : bytes }.

Section UserAdmin.
Context `{GLib, System, Allocator}.
(** [g_convert]; [g_base64_encode]; [g_list_insert_sorted] by [strcmp];
    [g_utf8_find_prev_char] of a text and its end, as an index *)
Variable g_convert : Z → Z → bytes → option bytes.
Variable g_base64_encode : bytes → bytes.
Variable g_list_insert_sorted : list bytes → bytes → list bytes.
Variable g_utf8_find_prev_char : bytes → option nat.
(** What is typed on the terminal, and its erase character; the octets on the
    stack where the digest is made *)
Variable terminal : bytes.
Variable verase : Z.
Variable stack : bytes.
(** [global_conf.guest_account] *)
Variable guest_account : option bytes.
(** The file system takes the text or reports an error. *)
Variable write_ok : bool.

Definition on_state {T : Type} (m : prog sstate T) : prog uadmin T := zoom ua_state (λ v s, mk_uadmin v (ua_file s)) m.
Definition users {T : Type} (m : prog ustate T) : prog uadmin T := on_state (on_users m).

(** ** Passwords *)

(** [password] and [buf] hold C strings.  The result is the password with
    [*sz], or nothing when the input ends. *)
Fixpoint __prompt_password_stdin (input password buf : bytes) : option (bytes * Z) :=
  match input with
  | [] => None
  | c :: input =>
      if c =? 4 then None
      else if c =? 10 then
        if bool_decide (password = []) && negb (bool_decide (buf = []))
        then __prompt_password_stdin input (take (Z.to_nat (MAX_NT_PWD_LEN - 1)) buf) []
        else if negb (bool_decide (password = buf)) then __prompt_password_stdin input [] []
        else if negb (g_utf8_validate password) then __prompt_password_stdin input [] []
        else Some (password, Z.of_nat (length buf) + 1)
      else if c =? verase then
        let clen := match g_utf8_find_prev_char buf with Some i => (length buf - i)%nat | None => 1%nat end in
        __prompt_password_stdin input password (take (length buf - clen) buf)
      else if Z.of_nat (length buf) <? LINE_MAX - 1 then
        __prompt_password_stdin input password (if cp_printable c then buf ++ [c] else buf)
      else __prompt_password_stdin input password buf
  end.
Definition __is_valid_password_len (len : Z) : bool := len <? MAX_NT_PWD_LEN.
Definition __utf16le_convert (password : bytes) (sz : Z) : option bytes :=
  ksmbd_gconvert g_convert (take (Z.to_nat (sz - 1)) password) KSMBD_CHARSET_UTF16LE KSMBD_CHARSET_DEFAULT.
Definition __md4_hash (password : bytes) : bytes :=
  md4_final (md4_update password (md4_init (mk_md4_ctx [] stack 0))).
Definition __base64_encode (password : bytes) : bytes := g_base64_encode password.
Definition process_password (password : option bytes) : Z + bytes :=
  match match password with
        | None => __prompt_password_stdin terminal [] []
        | Some password => Some (password, Z.of_nat (length password) + 1)
        end with
  | None => inl (- EINVAL)
  | Some (password, sz) =>
      if negb (__is_valid_password_len (sz - 1)) then inl (- EINVAL)
      else match __utf16le_convert password sz with
           | None => inl (- EINVAL)
           | Some utf16le => inr (__base64_encode (__md4_hash utf16le))
           end
  end.

(** ** The file *)

(** [usm_iter_users] with [__new_user_nl_cb] *)
Fixpoint __new_user_nl (l : list (bytes * Z)) (nl : list bytes) : prog ustate (list bytes) :=
  match l with
  | [] => ret nl
  | (_, p) :: l =>
      u <- uload p ;;
      __new_user_nl l (if test_user_flag u KSMBD_USER_FLAG_GUEST_ACCOUNT then nl else g_list_insert_sorted nl (u_name u))
  end.
Definition new_user_nl : prog ustate (list bytes) := s <- get ;; __new_user_nl (hash_order (us_table s)) [].
Definition user_line (name pass_b64 : bytes) : bytes := name ++ str ":" ++ pass_b64.
Fixpoint user_lines (nl : list bytes) : prog ustate bytes :=
  match nl with
  | [] => ret []
  | name :: nl =>
      user <- usm_lookup_user (Some name) ;;
      match user with
      | None => fault
      | Some p =>
          u <- uload p ;;
          put_ksmbd_user (Some p) ;;
          rest <- user_lines nl ;;
          ret (user_line (u_name u) (u_pass_b64 u) ++ newline ++ rest)
      end
  end.
Definition get_conf_contents : prog ustate bytes := nl <- new_user_nl ;; user_lines nl.
Definition set_conf_contents (contents : bytes) : prog uadmin unit :=
  if write_ok then modify (λ s, mk_uadmin (ua_state s) contents) else fail (- EINVAL).
Definition write_users : prog uadmin unit := contents <- users get_conf_contents ;; set_conf_contents contents.

(** ** The commands *)
Definition command_add_user (name : bytes) (password : option bytes) : prog uadmin unit :=
  user <- users (usm_lookup_user (Some name)) ;;
  match user with
  | Some p => users (put_ksmbd_user (Some p)) ;; fail (- EEXIST)
  | None =>
      match process_password password with
      | inl e => fail e
      | inr password =>
          users (usm_add_new_user base64_decode getpwnam getgrouplist name password) ;;
          write_users
      end
  end.
Definition command_update_user (name : bytes) (password : option bytes) : prog uadmin unit :=
  user <- users (usm_lookup_user (Some name)) ;;
  match user with
  | None => fail (- EINVAL)
  | Some p =>
      match process_password password with
      | inl e => fail e
      | inr password =>
          users (usm_update_user_password base64_decode p password) ;;
          users (put_ksmbd_user (Some p)) ;;
          write_users
      end
  end.
(** The name, or NULL when the share requires the user. *)
Definition __share_transient_user_cb (x : share) (user_name : option bytes) : option bytes :=
  match user_name with
  | None => None
  | Some name =>
      if bool_decide (sh_guest_account x = Some name) then None
      else if shm_lookup_users_map x KSMBD_SHARE_ADMIN_USERS_MAP name =? 0 then None
      else if shm_lookup_users_map x KSMBD_SHARE_WRITE_LIST_MAP name =? 0 then None
      else if shm_lookup_users_map x KSMBD_SHARE_VALID_USERS_MAP name =? 0 then None
      else Some name
  end.
Fixpoint iter_transient (l : list (bytes * Z)) (name : option bytes) : prog sstate (option bytes) :=
  match l with
  | [] => ret name
  | (_, p) :: l => x <- sload p ;; iter_transient l (__share_transient_user_cb x name)
  end.
Definition __is_transient_user (name : bytes) : prog sstate bool :=
  if bool_decide (guest_account = Some name) then ret false
  else
    s <- get ;;
    name <- iter_transient (hash_order (ss_table s)) (Some name) ;;
    ret (bool_decide (is_Some name)).
(** [usm_remove_user] frees the user whatever its references are. *)
Definition command_delete_user (name : bytes) : prog uadmin unit :=
  user <- users (usm_lookup_user (Some name)) ;;
  match user with
  | None => fail (- EINVAL)
  | Some p =>
      is_transient <- on_state (__is_transient_user name) ;;
      if negb is_transient then fail (- EINVAL)
      else users (ignore (usm_remove_user p)) ;; write_users
  end.
Inductive user_command := AddUser | UpdateUser | DeleteUser.
Definition run_command (c : user_command) (name : bytes) (password : option bytes) : prog uadmin unit :=
  match c with
  | AddUser => command_add_user name password
  | UpdateUser => command_update_user name password
  | DeleteUser => command_delete_user name
  end.
(** [adduser_main] behind the options and [load_config]: without a command, the
    user is updated when there is one. *)
Definition choose_command (c : option user_command) (name : bytes) : prog uadmin user_command :=
  match c with
  | Some c => ret c
  | None =>
      user <- users (usm_lookup_user (Some name)) ;;
      match user with
      | Some p => users (put_ksmbd_user (Some p)) ;; ret UpdateUser
      | None => ret AddUser
      end
  end.
Definition adduser (c : option user_command) (name : bytes) (password : option bytes) : prog uadmin unit :=
  if negb (usm_user_name g_utf8_validate name) then fail (- EINVAL)
  else c <- choose_command c name ;; run_command c name password.
(** [remove_config] of this program *)
Definition remove_config : prog uadmin unit :=
  on_state shm_destroy ;; users (usm_destroy hash_order).
End UserAdmin.

(** ** Passwords *)

(** What the program stores for a password *)
Definition password_hash (g_convert : Z → Z → bytes → option bytes) (g_base64_encode : bytes → bytes) (password : bytes) : option bytes :=
  if Z.of_nat (length password) <? MAX_NT_PWD_LEN
  then (λ utf16, g_base64_encode (md4_spec utf16)) <$>
         ksmbd_gconvert g_convert password KSMBD_CHARSET_UTF16LE KSMBD_CHARSET_DEFAULT
  else None.
(** A text that can be typed: printable, valid and not too long *)
Definition typeable (utf8 : bytes → bool) (password : bytes) : Prop :=
  Z.of_nat (length password) < MAX_NT_PWD_LEN ∧ utf8 password = true ∧ Forall (λ c, cp_printable c = true) password.

Section Passwords.
Context `{GLib}.
Variable g_convert : Z → Z → bytes → option bytes.
Variable g_base64_encode : bytes → bytes.
Variable g_utf8_find_prev_char : bytes → option nat.
Variables terminal stack : bytes.
Variable verase : Z.
Hypothesis g_convert_small : ∀ t f s out, g_convert t f s = Some out → Z.of_nat (length out) < 2 ^ 61.
Hypothesis stack_block : length stack = 64%nat.

Lemma prompt_typeable input password buf p sz :
  Z.of_nat (length password) < MAX_NT_PWD_LEN → Forall (λ c, cp_printable c = true) password →
  Forall (λ c, cp_printable c = true) buf →
  __prompt_password_stdin g_utf8_find_prev_char verase input password buf = Some (p, sz) →
  typeable g_utf8_validate p ∧ sz = Z.of_nat (length p) + 1.
Proof.
  revert password buf. induction input as [|c input IH]; intros password buf Hl Hp Hb; cbn [__prompt_password_stdin]; [done|].
  destruct (c =? 4); [done|]. destruct (c =? 10).
  { case_match; [apply IH; [|by apply Forall_take|done]|].
    { rewrite length_take. unfold MAX_NT_PWD_LEN. lia. }
    destruct (bool_decide_reflect (password = buf)) as [->|]; cbn [negb]; [|by apply IH].
    destruct (g_utf8_validate buf) eqn:Hv; cbn [negb]; [|by apply IH]. intros [= <- <-]. by split_and!. }
  destruct (c =? verase); [apply IH; try done; by apply Forall_take|].
  destruct (_ <? _); [|by apply IH]. apply IH; try done. destruct (cp_printable c) eqn:Hc; [|done].
  apply Forall_app. split; [done|]. by repeat constructor.
Qed.
Lemma utf16_small fuel s t f out : gconvert_loop g_convert fuel s t f = Some out → Z.of_nat (length out) < 2 ^ 61.
Proof.
  revert t f. induction fuel as [|fuel IH]; intros t f; cbn [gconvert_loop]; [done|]. destruct (_ <=? f); [done|].
  destruct (_ <=? t); [done|]. destruct (g_convert t f s) eqn:E; [intros [= <-]; by eapply g_convert_small|].
  destruct (_ || _); [apply IH|done].
Qed.
Lemma md4_hash_spec m : Z.of_nat (length m) < 2 ^ 61 → __md4_hash stack m = md4_spec m.
Proof.
  intros Hm. pose proof (md4_streaming_eq (mk_md4_ctx [] stack 0) [m] stack_block) as Hs. cbn in Hs. rewrite app_nil_r in Hs.
  by apply Hs.
Qed.
(** The two ways to a password meet: one that was typed is treated as one that
    was given. *)
Lemma process_given password :
  process_password g_convert g_base64_encode g_utf8_find_prev_char terminal verase stack (Some password) =
  match password_hash g_convert g_base64_encode password with Some h => inr h | None => inl (- EINVAL) end.
Proof.
  unfold process_password, password_hash, __is_valid_password_len, __utf16le_convert. cbv beta iota.
  rewrite Z.add_simpl_r, Nat2Z.id, take_ge by lia. destruct (_ <? MAX_NT_PWD_LEN); [|done]. cbn [negb].
  destruct (ksmbd_gconvert _ _ _ _) as [u|] eqn:E; [|done]. cbn. unfold __base64_encode. rewrite md4_hash_spec; [done|].
  by eapply utf16_small.
Qed.
Lemma process_typed :
  process_password g_convert g_base64_encode g_utf8_find_prev_char terminal verase stack None =
  match __prompt_password_stdin g_utf8_find_prev_char verase terminal [] [] with
  | Some (p, _) => match password_hash g_convert g_base64_encode p with Some h => inr h | None => inl (- EINVAL) end
  | None => inl (- EINVAL)
  end.
Proof.
  destruct (__prompt_password_stdin _ _ terminal [] []) as [[p sz]|] eqn:E; [|unfold process_password; by rewrite E].
  pose proof E as E'. eapply prompt_typeable in E' as [_ ->]; [|done..]. rewrite <-process_given.
  unfold process_password. by rewrite E.
Qed.
End Passwords.

(** ** The database as a map *)

(** What the file says of a user *)
Definition written (u : user) : option bytes :=
  if test_user_flag u KSMBD_USER_FLAG_GUEST_ACCOUNT then None else Some (u_pass_b64 u).
Definition creds (s : ustate) : gmap bytes bytes := omap (λ p, us_heap s !! p ≫= written) (us_table s).
Lemma creds_lookup s n : creds s !! n = us_table s !! n ≫= λ p, us_heap s !! p ≫= written.
Proof. unfold creds. by rewrite lookup_omap. Qed.
(** All stored passwords, and the users that are marked as a guest account *)
Definition passwords (s : ustate) : gmap bytes bytes := omap (λ p, u_pass_b64 <$> us_heap s !! p) (us_table s).
Definition is_guest (s : ustate) (n : bytes) : bool :=
  match us_table s !! n ≫= λ p, us_heap s !! p with Some u => test_user_flag u KSMBD_USER_FLAG_GUEST_ACCOUNT | None => false end.
Definition without_guests (s : ustate) (m : gmap bytes bytes) : gmap bytes bytes := filter (λ x, is_guest s x.1 = false) m.
Lemma passwords_lookup s n : passwords s !! n = us_table s !! n ≫= λ p, u_pass_b64 <$> us_heap s !! p.
Proof. unfold passwords. by rewrite lookup_omap. Qed.
Lemma without_guests_lookup s m n : without_guests s m !! n = if is_guest s n then None else m !! n.
Proof.
  unfold without_guests. destruct (is_guest s n) eqn:E.
  - apply map_lookup_filter_None. right. intros b _. cbn. by rewrite E.
  - destruct (m !! n) eqn:Em; [apply map_lookup_filter_Some|apply map_lookup_filter_None]; [by split|by left].
Qed.
Lemma creds_guests s : creds s = without_guests s (passwords s).
Proof.
  apply map_eq. intros n. rewrite without_guests_lookup, creds_lookup, passwords_lookup. unfold is_guest, written.
  destruct (us_table s !! n) as [p|]; [|done]. cbn. destruct (us_heap s !! p) as [u|]; [|done]. cbn. by destruct (test_user_flag _ _).
Qed.
Definition cred_lines (l : list (bytes * bytes)) : list bytes := (λ x, user_line x.1 x.2) <$> l.
(** A name that is accepted, with a base64 text *)
Definition base64_text (b : bytes) : Prop :=
  let body := reverse (drop_pads (reverse b)) in body ≠ [] ∧ forallb base64_char body = true.
Definition cred_ok `{GLib} (n b : bytes) : Prop := usm_user_name g_utf8_validate n = true ∧ base64_text b.

Section Texts.
Lemma drop_pads_char (P : Z → Prop) r : P 61 → Forall P (drop_pads r) → Forall P r.
Proof.
  intros H61. induction r as [|c r IH]; [done|]. cbn [drop_pads]. intros Hd.
  destruct (decide (c = 61)) as [->|Hc]; [constructor; auto|].
  assert (drop_pads (c :: r) = c :: r) as E by (cbn [drop_pads]; repeat (case_match; try done)).
  by rewrite <-E.
Qed.
Lemma base64_text_chars b (P : Z → Prop) : base64_text b → (∀ c, base64_char c = true → P c) → P 61 → Forall P b.
Proof.
  intros [_ Hb] HP H61. rewrite <-(reverse_involutive b). apply Forall_reverse, (drop_pads_char P); [done|].
  rewrite <-(reverse_involutive (drop_pads _)). apply Forall_reverse. apply forallb_all in Hb.
  eapply Forall_impl; [exact Hb|done].
Qed.
Context `{GLib}.
Lemma user_name_chars n :
  usm_user_name g_utf8_validate n = true → Forall (λ c, cp_printable c = true ∧ c ≠ 58) n.
Proof.
  unfold usm_user_name. rewrite !andb_true_iff. intros [_ Hf]. apply forallb_all in Hf. eapply Forall_impl; [exact Hf|].
  cbv beta. intros c [? ?%negb_true_iff%Z.eqb_neq]%andb_true_iff. done.
Qed.
Lemma cred_line_chars n b : cred_ok n b → Forall (λ c, c ≠ 10 ∧ c ≠ 0) (user_line n b).
Proof.
  intros [Hn Hb]. unfold user_line. repeat (apply Forall_app; split).
  - eapply Forall_impl; [by apply user_name_chars|]. cbv beta. intros c [Hc _]. split; intros ->; done.
  - by repeat constructor.
  - apply base64_text_chars; [done| |done]. intros c Hc. split; intros ->; done.
Qed.
Lemma cred_line_split n b : cred_ok n b → split_at 58 (user_line n b) = Some (n, b).
Proof.
  intros [Hn _]. unfold user_line. apply split_at_app. eapply Forall_impl; [by apply user_name_chars|]. by intros c [].
Qed.
Lemma cred_line_entry n b : cred_ok n b → is_a_user_password (user_line n b) = true ∧ cp_pwddb_eol (user_line n b) = false.
Proof.
  intros Hc. unfold is_a_user_password. rewrite cred_line_split by done. destruct Hc as [Hn [Hb Hf]]. split.
  - rewrite Hn, Hf, andb_true_r. cbn [andb]. apply Nat.ltb_lt. destruct (reverse _); [done|cbn; lia].
  - pose proof (user_name_chars n Hn) as Hch. unfold user_line. destruct n as [|c n]; [done|].
    inversion Hch as [|? ? [Hp _] _]; subst. cbn. apply Z.eqb_neq. intros ->. done.
Qed.
End Texts.

(** ** The text of the file *)
Section File.
Context `{GLib, System, Allocator}.
Variable g_list_insert_sorted : list bytes → bytes → list bytes.
Hypothesis insert_sorted_perm : ∀ l x, g_list_insert_sorted l x ≡ₚ x :: l.
Hypothesis hash_order_perm : ∀ t, hash_order t ≡ₚ map_to_list t.

Lemma new_user_nl_loop held s l nl :
  users_ok held s → Forall (λ x, us_table s !! x.1 = Some x.2) l →
  ∃ nl', __new_user_nl g_list_insert_sorted l nl s = Done nl' s ∧
         nl' ≡ₚ nl ++ (filter (λ x, is_Some (creds s !! x.1)) l).*1.
Proof.
  intros Hok Hl. revert nl. induction Hl as [|[n p] l Hx _ IH]; intros nl; [exists nl; split; [done|]; by rewrite app_nil_r|].
  cbn in Hx. destruct (co_table Hok n p Hx) as (u & Hu & Hn & _). cbn [__new_user_nl]. unfold bind, load. rewrite Hu.
  assert (creds s !! n = written u) as Hc by by rewrite creds_lookup, Hx; cbn; rewrite Hu. unfold written in Hc.
  destruct (test_user_flag u _).
  - destruct (IH nl) as (nl' & -> & Hnl). exists nl'. split; [done|]. rewrite filter_cons_False; [done|]. cbn. rewrite Hc. by intros [].
  - destruct (IH (g_list_insert_sorted nl (u_name u))) as (nl' & -> & Hnl). exists nl'. split; [done|].
    rewrite filter_cons_True by (cbn; rewrite Hc; by eexists). rewrite Hnl, insert_sorted_perm, Hn. cbn. by rewrite Permutation_middle.
Qed.
Lemma new_user_nl_eq held s :
  users_ok held s → ∃ nl, new_user_nl g_list_insert_sorted s = Done nl s ∧ nl ≡ₚ (map_to_list (creds s)).*1.
Proof.
  intros Hok. destruct (new_user_nl_loop held s (hash_order (us_table s)) [] Hok) as (nl & E & Hnl).
  { rewrite hash_order_perm. apply Forall_forall. intros [n p] Hx. by apply elem_of_map_to_list. }
  exists nl. split; [exact E|]. rewrite Hnl, hash_order_perm. cbn [app]. apply NoDup_Permutation.
  - eapply sublist_NoDup; [apply (NoDup_fst_map_to_list (us_table s))|]. apply fmap_sublist, sublist_filter.
  - apply NoDup_fst_map_to_list.
  - intros n. rewrite !list_elem_of_fmap. split.
    + intros ([n' p] & -> & [[b Hb] _]%list_elem_of_filter). exists (n', b). split; [done|]. by apply elem_of_map_to_list.
    + intros ([n' b] & -> & Hb%elem_of_map_to_list). pose proof Hb as Hb'. rewrite creds_lookup in Hb'. cbn in *.
      destruct (us_table s !! n') as [p|] eqn:Hp; [|done]. exists (n', p). split; [done|]. apply list_elem_of_filter.
      split; [by eexists|]. by apply elem_of_map_to_list.
Qed.
Lemma user_lines_eq held s nl :
  users_ok held s → Forall (λ n, is_Some (creds s !! n)) nl →
  user_lines nl s = Done (unlines ((λ n, user_line n (default [] (creds s !! n))) <$> nl)) s.
Proof.
  intros Hok Hnl. induction Hnl as [|n nl [b Hb] _ IH]; [done|]. cbn [user_lines].
  pose proof (usm_lookup_user_wp held s (Some n) Hok) as Hl. unfold wp in Hl. unfold bind at 1.
  pose proof Hb as Hb'. rewrite creds_lookup in Hb'. cbn in Hb'.
  destruct (usm_lookup_user (Some n) s) as [[p|] s'| |]; [|by destruct Hl as [_ Hl]; cbn in Hl; rewrite Hl in Hb'|done..].
  destruct Hl as (Ht & u & Hu & -> & _). cbn in Ht. rewrite Ht in Hb'. cbn in Hb'. rewrite Hu in Hb'. cbn in Hb'. unfold written in Hb'.
  unfold bind, load. cbn [us_heap set_us_heap]. rewrite lookup_insert_eq, (put_after_lookup held), IH by done. unfold ret. f_equal.
  destruct (co_table Hok n p Ht) as (u' & Hu' & Hn & _). rewrite Hu in Hu'. injection Hu' as <-.
  destruct (test_user_flag u _); [done|]. injection Hb' as Hb'. rewrite fmap_cons. rewrite Hb.
  unfold unlines. cbn [fmap list_fmap concat default u_name u_pass_b64 set_ref_count]. by rewrite Hn, Hb', <-app_assoc.
Qed.
Lemma get_conf_contents_eq held s :
  users_ok held s →
  ∃ l, l ≡ₚ map_to_list (creds s) ∧ get_conf_contents g_list_insert_sorted s = Done (unlines (cred_lines l)) s.
Proof.
  intros Hok. destruct (new_user_nl_eq held s Hok) as (nl & E & Hnl).
  exists ((λ n, (n, default [] (creds s !! n))) <$> nl). split.
  - rewrite Hnl, <-list_fmap_compose. rewrite (list_fmap_ext _ id); [by rewrite list_fmap_id|].
    intros i [n b] Hx. apply list_elem_of_lookup_2, elem_of_map_to_list in Hx. cbn. by rewrite Hx.
  - unfold get_conf_contents, bind. rewrite E. erewrite user_lines_eq; [|done|].
    + unfold cred_lines. by rewrite <-list_fmap_compose.
    + rewrite Hnl. apply Forall_forall. intros n ([n' b] & -> & Hb%elem_of_map_to_list)%list_elem_of_fmap. by eexists.
Qed.
End File.

(** ** Changes of the database *)
Section Changes.
Context `{GLib, System, Allocator}.
Hypothesis base64_decode_total : ∀ b, ∃ p, base64_decode b = Some p ∧ Z.of_nat (length p) ≤ INT_MAX.
Abbreviation add_user := (usm_add_new_user base64_decode getpwnam getgrouplist).

Lemma new_user_written name pwd u :
  new_ksmbd_user base64_decode getpwnam getgrouplist name pwd = NewUser u → u_name u = name ∧ written u = Some pwd ∧ u_pass_b64 u = pwd.
Proof.
  unfold new_ksmbd_user. destruct (g_try_malloc _); [cbn [negb]|done]. destruct (default _ _) as [uid gid].
  destruct (base64_decode pwd); [|done]. destruct (_ <? _); [done|]. destruct (getpwnam name); [destruct get_groups; [|done]|]; by intros [= <-].
Qed.
Lemma new_user_memory name pwd :
  new_ksmbd_user base64_decode getpwnam getgrouplist name pwd = FailedStringsLive → ∃ n, g_try_malloc n = false.
Proof.
  unfold new_ksmbd_user, get_groups. destruct (g_try_malloc sizeof_ksmbd_user) eqn:E1; cbn [negb]; [|by eauto].
  destruct (default _ _) as [uid gid]. destruct (base64_decode pwd); [|done]. destruct (_ <? _); [done|].
  destruct (getpwnam name); [|done]. destruct (g_try_malloc 4) eqn:E2; cbn [negb]; [|by eauto].
  destruct (_ <=? _)%nat; [done|]. destruct (g_try_malloc (4 * _)) eqn:E3; cbn [negb]; [done|by eauto].
Qed.
(** A user that is not there is added, unless memory runs out. *)
Lemma add_user_creds held s name pwd :
  users_ok held s → us_table s !! name = None →
  wp (add_user name pwd) s
    (λ _ s', users_ok held s' ∧ (creds s' = <[name := pwd]> (creds s) ∧ passwords s' = <[name := pwd]> (passwords s)) ∧
       us_table s' = <[name := us_next s]> (us_table s))
    (λ _ s', s' = s ∧ ∃ n, g_try_malloc n = false).
Proof.
  intros Hok Hn. pose proof (usm_add_new_user_wp _ getpwnam getgrouplist base64_decode_total held s name pwd Hok) as Hw.
  unfold usm_add_new_user in *. pose proof (new_user_written name pwd) as Hp.
  pose proof (new_ksmbd_user_spec _ getpwnam getgrouplist base64_decode_total name pwd) as Hs.
  destruct (new_ksmbd_user _ _ _ name pwd) as [u| |] eqn:E; [|wp_step; split; [done|by eapply new_user_memory]|done].
  destruct (Hp u eq_refl) as (Hname & Hwr & Hpw). do 2 wp_step. revert Hw. unfold wp, bind, get, __usm_lookup_user. rewrite Hn.
  unfold modify. intros [Hok' _]. cbn [us_table]. rewrite Hname. split; [by rewrite Hname in Hok'|split; [|done]].
  split; apply map_eq; intros n; rewrite ?creds_lookup, ?passwords_lookup; cbn [us_table us_heap];
    (destruct (decide (n = name)) as [->|Hne]; [rewrite !lookup_insert_eq; cbn; rewrite lookup_insert_eq; cbn; congruence|]);
    rewrite !lookup_insert_ne by done; rewrite ?creds_lookup, ?passwords_lookup; (destruct (us_table s !! n) as [p|] eqn:Ht; [|done]); cbn;
    (rewrite lookup_insert_ne; [done|]); destruct (co_table Hok n p Ht) as (o & Ho & _);
    pose proof (co_next Hok p ltac:(by eexists)); lia.
Qed.

(** Reading the lines of a database *)
Hypothesis plenty_of_memory : ∀ n, g_try_malloc n = true.
Lemma read_cred n b s :
  users_ok (λ _, 0) s → cred_ok n b → us_table s !! n = None →
  ∃ s', process_pwddb_entry (cstr (user_line n b)) s = Done tt s' ∧ users_ok (λ _, 0) s' ∧ passwords s' = <[n := b]> (passwords s) ∧
        us_table s' = <[n := us_next s]> (us_table s).
Proof.
  intros Hok Hc Hn. rewrite cstr_nonzero.
  2:{ eapply Forall_impl; [by apply cred_line_chars|]. by intros c []. }
  unfold process_pwddb_entry. destruct (cred_line_entry n b Hc) as [-> ->]. unfold add_user_password. rewrite cred_line_split by done.
  pose proof (add_user_creds (λ _, 0) s n b Hok Hn) as Hw. unfold bind at 1, usm_lookup_user at 1, bind at 1, get at 1, __usm_lookup_user at 1.
  rewrite Hn. unfold ret at 1, ignore, bind, attempt. unfold wp in Hw. destruct (add_user n b s) as [[] s'|e s'|]; [|destruct Hw as (_ & m & Hm); by rewrite plenty_of_memory in Hm|done].
  destruct Hw as (? & [_ ?] & ?). by exists s'.
Qed.
Lemma read_creds l s :
  users_ok (λ _, 0) s → NoDup l.*1 → Forall (λ x, cred_ok x.1 x.2) l → Forall (λ x, us_table s !! x.1 = None) l →
  ∃ s', for_each (cred_lines l) (λ e, process_pwddb_entry (cstr e)) s = Done tt s' ∧ users_ok (λ _, 0) s' ∧
        passwords s' = list_to_map l ∪ passwords s.
Proof.
  intros Hok Hnd Hl. revert s Hok. induction Hl as [|[n b] l Hc _ IH]; intros s Hok Hn.
  { exists s. split_and!; [done..|]. symmetry. apply map_empty_union. }
  cbn [fmap list_fmap] in Hnd. apply NoDup_cons in Hnd as [Hni Hnd]. inversion Hn as [|? ? Hn1 Hn2]; subst.
  destruct (read_cred n b s Hok Hc Hn1) as (s1 & E1 & Hok1 & Hc1 & Ht1).
  destruct (IH Hnd s1 Hok1) as (s2 & E2 & Hok2 & Hc2).
  { eapply Forall_forall. intros [n' b'] Hx. rewrite Ht1. rewrite lookup_insert_ne.
    - exact (proj1 (Forall_forall _ _) Hn2 _ Hx).
    - intros ->. apply Hni. by apply (list_elem_of_fmap_2 fst _ _ Hx). }
  exists s2. split_and!; [|done|].
  - cbn [cred_lines fmap list_fmap for_each]. unfold bind. cbn [fst snd]. by rewrite E1.
  - rewrite Hc2, Hc1. cbn [list_to_map foldr]. rewrite <-insert_union_l, insert_union_r; [done|].
    by apply not_elem_of_list_to_map.
Qed.
(** The file that is written reads back as what it was written for. *)
Lemma creds_read_back set_conf m l :
  (∀ n b, m !! n = Some b → cred_ok n b) → l ≡ₚ map_to_list m → Z.of_nat (length (unlines (cred_lines l))) < 2 ^ 63 →
  ∃ s', cp_parse_pwddb ADDUSER set_conf (inr (unlines (cred_lines l))) (mk_ustate ∅ ∅ 0) = Done 0 s' ∧ passwords s' = m.
Proof.
  intros Hm Hl Hlen. assert (Forall (λ x, cred_ok x.1 x.2) l) as Hok.
  { rewrite Hl. apply Forall_forall. intros [n b] Hx%elem_of_map_to_list. by apply Hm. }
  assert (NoDup l.*1) as Hnd by (rewrite Hl; apply NoDup_fst_map_to_list).
  destruct (read_creds l (mk_ustate ∅ ∅ 0)) as (s' & E & _ & Hc); [|done|done|by apply Forall_true|].
  { split; try done; intros p [o Ho]; cbn in Ho; by rewrite lookup_empty in Ho. }
  exists s'. split.
  - unfold cp_parse_pwddb. rewrite mmap_parse_file_eq by done.
    assert (match unlines (cred_lines l) with [] => [[]] | _ => lines (unlines (cred_lines l)) end =
            match l with [] => [[]] | _ => cred_lines l end) as ->.
    { rewrite lines_unlines.
      - destruct l as [|[n b] l]; [done|]. unfold cred_lines, unlines. rewrite !fmap_cons. cbn [concat].
        unfold user_line. by destruct n.
      - unfold cred_lines. apply Forall_fmap. eapply Forall_impl; [exact Hok|]. intros x Hx. cbn.
        eapply Forall_impl; [by apply cred_line_chars|]. by intros c []. }
    destruct l as [|x l]; [|by rewrite E]. cbn in E. injection E as <-. done.
  - assert (passwords (mk_ustate ∅ ∅ 0) = ∅) as Ee by (apply map_eq; intros n; by rewrite passwords_lookup, !lookup_empty).
    rewrite Hc, Ee, map_union_empty. symmetry. by apply list_to_map_flip.
Qed.
End Changes.

(** ** The commands *)
Definition command_spec (c : user_command) (name hash : bytes) (m : gmap bytes bytes) : gmap bytes bytes :=
  match c with
  | AddUser => <[name := hash]> m
  | UpdateUser => alter (λ _, hash) name m
  | DeleteUser => delete name m
  end.

Section Steps.
Context `{GLib, System, Allocator}.
Hypothesis base64_decode_total : ∀ b, ∃ p, base64_decode b = Some p ∧ Z.of_nat (length p) ≤ INT_MAX.
Definition looked_up (p : Z) (u : user) (s : ustate) : ustate :=
  set_us_heap (<[p := set_ref_count (u_ref_count u + 1) u]> (us_heap s)) s.
Definition with_password (p : Z) (pwd pass : bytes) (u : user) (s : ustate) : ustate :=
  set_us_heap (<[p := set_password pwd pass u]> (us_heap s)) s.
Lemma other_user held s n p n' q :
  users_ok held s → us_table s !! n = Some p → us_table s !! n' = Some q → n' ≠ n → q ≠ p.
Proof.
  intros Hok Hp Hq Hn ->. destruct (co_table Hok n p Hp) as (u & Hu & <- & _). destruct (co_table Hok n' p Hq) as (u' & Hu' & <- & _).
  congruence.
Qed.
Lemma update_exact held s name p u pwd :
  users_ok held s → us_table s !! name = Some p → us_heap s !! p = Some u →
  ∃ pass, (usm_update_user_password base64_decode p pwd ;; put_ksmbd_user (Some p)) (looked_up p u s)
            = Done tt (with_password p pwd pass u s) ∧
          users_ok held (with_password p pwd pass u s) ∧
          creds (with_password p pwd pass u s) = alter (λ _, pwd) name (creds s).
Proof.
  intros Hok Ht Hu. destruct (base64_decode_total pwd) as (pass & Ep & _). exists pass.
  assert (users_ok held (with_password p pwd pass u s)) as Hok'.
  { pose proof (co_count Hok _ _ Hu) as [Hr _]. pose proof (co_held Hok p) as [Hh _].
    eapply counted_ext; [|eapply (counted_update _ _ _ _ _ _ _ p u (set_password pwd pass u) 0); [exact Hok|done|done|done|cbn; lia..]].
    intros q. apply hold_0. }
  split_and!; [|done|].
  - unfold bind, usm_update_user_password. rewrite Ep. unfold bind, load, store, looked_up. cbn [us_heap set_us_heap].
    rewrite lookup_insert_eq. cbn [us_heap set_us_heap]. rewrite lookup_insert_eq, insert_insert_eq.
    erewrite <-(put_after_lookup held (with_password p pwd pass u s) p (set_password pwd pass u)); [|done|apply lookup_insert_eq].
    unfold with_password. cbn [us_heap set_us_heap]. by rewrite insert_insert_eq.
  - apply map_eq. intros n. rewrite creds_lookup. cbn [with_password us_table us_heap set_us_heap].
    destruct (decide (n = name)) as [->|Hn].
    + rewrite lookup_alter_eq, creds_lookup, Ht. cbn. rewrite lookup_insert_eq, Hu. cbn. unfold written.
      change (test_user_flag (set_password pwd pass u)) with (test_user_flag u). by destruct test_user_flag.
    + rewrite lookup_alter_ne, creds_lookup by done. destruct (us_table s !! n) as [q|] eqn:Hq; [|done]. cbn.
      rewrite lookup_insert_ne; [done|]. symmetry. by eapply other_user.
Qed.
Lemma remove_exact held s name p u :
  users_ok held s → us_table s !! name = Some p → us_heap s !! p = Some u →
  ∃ s', ignore (usm_remove_user p) (looked_up p u s) = Done tt s' ∧ users_ok (λ q, if decide (q = p) then 0 else held q) s' ∧ creds s' = delete name (creds s).
Proof.
  intros Hok Ht Hu. destruct (co_table Hok name p Ht) as (u' & Hu' & Hn & Hf). rewrite Hu in Hu'. injection Hu' as <-.
  exists (mk_ustate (delete p (us_heap s)) (delete name (us_table s)) (us_next s)). split_and!.
  - unfold ignore, bind, attempt, usm_remove_user, kill_ksmbd_user, bind, load, looked_up. cbn [us_heap set_us_heap].
    rewrite lookup_insert_eq. cbn [u_state set_ref_count]. unfold user_freeing in Hf. rewrite Hf. cbn [negb]. unfold bind, get.
    cbn [us_table set_us_heap u_name set_ref_count]. rewrite Hn, Ht. unfold modify, release. cbn [us_heap set_us_table set_us_heap].
    rewrite lookup_insert_eq, delete_insert_eq. done.
  - split; cbn.
    + intros n q [Hnn Hq]%lookup_delete_Some. destruct (co_table Hok n q Hq) as (o & Ho & Hk). exists o.
      rewrite lookup_delete_ne; [done|]. symmetry. by eapply other_user.
    + intros q o [Hqp Hq]%lookup_delete_Some. pose proof (co_count Hok _ _ Hq) as [? E]. split; [done|].
      rewrite (decide_False (P:=q = p)) by done. rewrite E. f_equal. apply decide_ext.
      rewrite lookup_delete_Some. split; [|by intros []]. intros Hk. split; [|done]. intros Ek. rewrite <-Ek in Hk. congruence.
    + intros q o [Hqp Hq]%lookup_delete_Some Hfr. pose proof (co_state Hok _ _ Hq Hfr) as Hs. rewrite lookup_delete_ne; [done|].
      intros E. rewrite <-E in Hs. congruence.
    + intros q [o [Hqp Hq]%lookup_delete_Some]. apply (co_next Hok). by eexists.
    + intros q. destruct (decide (q = p)) as [->|Hqp]; [split; [done|lia]|]. rewrite lookup_delete_ne by done. apply (co_held Hok).
  - apply map_eq. intros n. rewrite creds_lookup. cbn [us_table us_heap]. destruct (decide (n = name)) as [->|Hnn].
    + by rewrite !lookup_delete_eq.
    + rewrite !lookup_delete_ne, creds_lookup by done. destruct (us_table s !! n) as [q|] eqn:Hq; [|done]. cbn.
      rewrite lookup_delete_ne; [done|]. symmetry. by eapply other_user.
Qed.
(** A share needs a user for its guests, or on one of three of its lists; the
    server needs it for its guests. *)
Definition on_list (x : share) (map : nat) (name : bytes) : Prop := ∃ m, nth map (sh_maps x) None = Some m ∧ is_Some (m !! name).
Definition requires (x : share) (name : bytes) : Prop :=
  sh_guest_account x = Some name ∨ on_list x KSMBD_SHARE_ADMIN_USERS_MAP name ∨
  on_list x KSMBD_SHARE_WRITE_LIST_MAP name ∨ on_list x KSMBD_SHARE_VALID_USERS_MAP name.
Definition required (guest_account : option bytes) (s : sstate) (name : bytes) : Prop :=
  guest_account = Some name ∨ ∃ n p x, ss_table s !! n = Some p ∧ ss_heap s !! p = Some x ∧ requires x name.
Lemma lookup_on_list x map name :
  (map < KSMBD_SHARE_USERS_MAX)%nat → reflect (on_list x map name) (shm_lookup_users_map x map name =? 0).
Proof.
  intros Hm. apply iff_reflect. unfold on_list, shm_lookup_users_map. rewrite (proj2 (Nat.leb_gt _ _)) by lia.
  destruct (nth map (sh_maps x) None) as [m|]; [|split; [by intros (? & ? & _)|done]].
  destruct (m !! name) eqn:E.
  - split; [done|]. intros _. exists m. split; [done|]. by eexists.
  - split; [|done]. intros (m' & [= <-] & [? E']). congruence.
Qed.
Lemma transient_cb x name :
  __share_transient_user_cb x (Some name) = None ∧ requires x name ∨ __share_transient_user_cb x (Some name) = Some name ∧ ¬ requires x name.
Proof.
  unfold requires, __share_transient_user_cb.
  destruct (bool_decide_reflect (sh_guest_account x = Some name)); [tauto|].
  destruct (lookup_on_list x KSMBD_SHARE_ADMIN_USERS_MAP name); [vm_compute; lia|tauto|].
  destruct (lookup_on_list x KSMBD_SHARE_WRITE_LIST_MAP name); [vm_compute; lia|tauto|].
  destruct (lookup_on_list x KSMBD_SHARE_VALID_USERS_MAP name); [vm_compute; lia|tauto|]. tauto.
Qed.
Lemma iter_transient_none l s : Forall (λ x, is_Some (ss_heap s !! x.2)) l → wp (iter_transient l None) s (λ r s', r = None ∧ s' = s) (λ _ _, False).
Proof.
  induction 1 as [|[n p] l [o Ho] _ IH]; cbn [iter_transient]; [by wp_step|]. wp_step. eapply wp_load; [exact Ho|]. exact IH.
Qed.
Lemma iter_transient_wp l name s :
  Forall (λ x, is_Some (ss_heap s !! x.2)) l →
  wp (iter_transient l (Some name)) s
    (λ r s', s' = s ∧ let found := ∃ n p x, (n, p) ∈ l ∧ ss_heap s !! p = Some x ∧ requires x name in
       match r with Some _ => ¬ found | None => found end) (λ _ _, False).
Proof.
  induction 1 as [|[n p] l [o Ho] Hl IH]; cbn [iter_transient].
  { wp_step. split; [done|]. intros (? & ? & ? & Hin & _). by apply elem_of_nil in Hin. }
  cbn in Ho. wp_step. eapply wp_load; [exact Ho|]. destruct (transient_cb o name) as [[-> Hr]|[-> Hr]].
  - wp_by (by apply iter_transient_none); [|done]. intros r s' [-> ->]. split; [done|]. exists n, p, o. split; [left|done].
  - wp_by (exact IH); [|done]. intros [r|] s' [-> Hi]; (split; [done|]).
    + intros (n' & q & x & Hin & Hx & Hq). apply elem_of_cons in Hin as [[= -> ->]|Hin].
      * assert (x = o) as -> by congruence. by destruct Hr.
      * apply Hi. by exists n', q, x.
    + destruct Hi as (n' & q & x & Hin & Hx & Hq). exists n', q, x. split; [by right|done].
Qed.
Lemma transient_wp guest_account name uh sh s :
  (∀ t, hash_order t ≡ₚ map_to_list t) → shares_ok uh sh s →
  wp (__is_transient_user guest_account name) s (λ b s', s' = s ∧ if b then ¬ required guest_account s name else required guest_account s name) (λ _ _, False).
Proof.
  intros Hperm Hok. unfold __is_transient_user, required. destruct (bool_decide_reflect (guest_account = Some name)) as [Hg|Hg].
  { wp_step. split; [done|]. by left. }
  do 2 wp_step. assert (Forall (λ x, is_Some (ss_heap s !! x.2)) (hash_order (ss_table s))) as Hl.
  { rewrite Hperm. apply Forall_forall. intros [n p] Hx%elem_of_map_to_list.
    destruct (co_table (so_shares _ _ _ Hok) n p Hx) as (o & Ho & _). by eexists. }
  assert (∀ n p, (n, p) ∈ hash_order (ss_table s) ↔ ss_table s !! n = Some p) as Hin.
  { intros n p. rewrite Hperm. apply elem_of_map_to_list. }
  wp_step. wp_by (by apply iter_transient_wp); [|done]. intros r s' [-> Hr]. wp_step. split; [done|].
  destruct r; cbn in Hr |- *; setoid_rewrite Hin in Hr.
  - intros [?|?]; [done|by apply Hr].
  - by right.
Qed.
End Steps.

Section Commands.
Context `{GLib, System, Allocator}.
Variable g_convert : Z → Z → bytes → option bytes.
Variable g_base64_encode : bytes → bytes.
Variable g_list_insert_sorted : list bytes → bytes → list bytes.
Variable g_utf8_find_prev_char : bytes → option nat.
Variables terminal stack : bytes.
Variable verase : Z.
Variable guest_account : option bytes.
Variable write_ok : bool.
Hypothesis insert_sorted_perm : ∀ l x, g_list_insert_sorted l x ≡ₚ x :: l.
Hypothesis hash_order_perm : ∀ t, hash_order t ≡ₚ map_to_list t.
Hypothesis base64_decode_total : ∀ b, ∃ p, base64_decode b = Some p ∧ Z.of_nat (length p) ≤ INT_MAX.
Abbreviation stored_users s := (creds (ss_users (ua_state s))).
Abbreviation process := (process_password g_convert g_base64_encode g_utf8_find_prev_char terminal verase stack).
(** The file holds the users in some order. *)
Definition filed (s : uadmin) : Prop := ∃ l, l ≡ₚ map_to_list (stored_users s) ∧ ua_file s = unlines (cred_lines l).
Definition changed (m : gmap bytes bytes) (s' : uadmin) : Prop := stored_users s' = m ∧ filed s'.

Lemma wp_users {T : Type} (m : prog ustate T) s Q E :
  wp m (ss_users (ua_state s)) (λ a u, Q a (mk_uadmin (set_ss_users u (ua_state s)) (ua_file s)))
    (λ e u, E e (mk_uadmin (set_ss_users u (ua_state s)) (ua_file s))) → wp (users m) s Q E.
Proof. intros Hm. unfold users, on_state. by do 2 apply wp_zoom. Qed.
Lemma wp_eq {S T : Type} (m : prog S T) s v s' (Q : T → S → Prop) E : m s = Done v s' → Q v s' → wp m s Q E.
Proof. intros Hm HQ. unfold wp. by rewrite Hm. Qed.
Lemma same_uadmin s : mk_uadmin (set_ss_users (ss_users (ua_state s)) (ua_state s)) (ua_file s) = s.
Proof. by destruct s as [[] ?]. Qed.
Lemma write_users_wp held f m s :
  users_ok held (ss_users (ua_state s)) → ua_file s = f → stored_users s = m →
  wp (write_users g_list_insert_sorted write_ok) s (λ _, changed m) (λ _ s', ua_file s' = f ∧ write_ok = false).
Proof.
  intros Hok Hf <-. unfold write_users. wp_step. apply wp_users.
  destruct (get_conf_contents_eq _ insert_sorted_perm hash_order_perm held _ Hok) as (l & Hl & E).
  eapply wp_eq; [exact E|]. rewrite same_uadmin. unfold set_conf_contents. destruct write_ok; wp_step; [|done].
  split; [done|]. by exists l.
Qed.
Lemma command_lookup name held s (k : option Z → prog uadmin unit) Q E :
  users_ok held (ss_users (ua_state s)) →
  (us_table (ss_users (ua_state s)) !! name = None → wp (k None) s Q E) →
  (∀ p u, us_table (ss_users (ua_state s)) !! name = Some p → us_heap (ss_users (ua_state s)) !! p = Some u →
     wp (k (Some p)) (mk_uadmin (set_ss_users (looked_up p u (ss_users (ua_state s))) (ua_state s)) (ua_file s)) Q E) →
  wp (bind (users (usm_lookup_user (Some name))) k) s Q E.
Proof.
  intros Hok Hnone Hsome. wp_step. apply wp_users. wp_by (by apply (usm_lookup_user_wp held)); [|done].
  intros [p|] u'; cbn; [intros (Ht & u & Hu & -> & _); by apply Hsome|]. intros [-> Ht]. rewrite same_uadmin. by apply Hnone.
Qed.
(** Why a command is refused *)
Definition refuses (c : user_command) (name : bytes) (password : option bytes) (s : uadmin) : Prop :=
  let known := is_Some (us_table (ss_users (ua_state s)) !! name) in
  let bad := ∃ e, process password = inl e in
  match c with
  | AddUser => known ∨ bad
  | UpdateUser => ¬ known ∨ bad
  | DeleteUser => ¬ known ∨ required guest_account (ua_state s) name
  end.
(** ... and why else it fails *)
Definition obstructed : Prop := write_ok = false ∨ ∃ n, g_try_malloc n = false.
Lemma command_wp c name password held sh s :
  shares_ok held sh (ua_state s) →
  wp (run_command g_convert g_base64_encode g_list_insert_sorted g_utf8_find_prev_char terminal verase stack guest_account write_ok
        c name password) s
    (λ _ s', ¬ refuses c name password s ∧
       ∃ hash, (c ≠ DeleteUser → process password = inr hash) ∧ changed (command_spec c name hash (stored_users s)) s')
    (λ _ s', ua_file s' = ua_file s ∧ (refuses c name password s ∨ obstructed)).
Proof.
  intros Hsh. pose proof (so_users _ _ _ Hsh) as Hok. unfold run_command, refuses.
  assert (∀ n, us_table (ss_users (ua_state s)) !! n = None → ¬ is_Some (us_table (ss_users (ua_state s)) !! n)) as Hunknown
    by (intros n ->; by intros []).
  destruct c; [unfold command_add_user|unfold command_update_user|unfold command_delete_user]; (eapply command_lookup; [exact Hok|..]).
  - intros Hn. destruct (process password) as [e|h] eqn:Eh; [wp_step; split; [done|left; right; by eexists]|]. wp_step. apply wp_users.
    wp_by (eapply add_user_creds; [exact base64_decode_total|exact Hok|done]); [|intros ? ? [_ ?]; split; [done|right; by right]].
    intros _ u (Hok' & [Hc _] & _).
    wp_by (eapply (write_users_wp _ _ (command_spec AddUser name h (stored_users s))); [exact Hok'|done|exact Hc]);
      [|intros e s' [? ?]; split; [done|right; by left]].
    intros _ s' Hs'. split; [|by exists h]. intros [Hk|[e He]]; [by apply (Hunknown name)|done].
  - intros p u Hp Hu. wp_step. apply wp_users. eapply wp_eq; [by eapply put_after_lookup|]. wp_step. split; [done|]. left. left. by eexists.
  - intros Hn. wp_step. split; [done|]. left. left. auto.
  - intros p u Hp Hu. destruct (process password) as [e|h] eqn:Eh; [wp_step; split; [done|left; right; by eexists]|].
    destruct (update_exact base64_decode_total _ _ name p u h Hok Hp Hu) as (pass & E & Hok' & Hc).
    unfold bind in E. destruct (usm_update_user_password base64_decode p h (looked_up p u (ss_users (ua_state s)))) as [[] u1| |] eqn:E1; [|done..].
    wp_step. apply wp_users. eapply wp_eq; [exact E1|]. wp_step. apply wp_users. eapply wp_eq; [exact E|].
    wp_by (eapply (write_users_wp _ _ (command_spec UpdateUser name h (stored_users s))); [exact Hok'|done|exact Hc]);
      [|intros e s' [? ?]; split; [done|right; by left]].
    intros _ s' Hs'. split; [|by exists h]. intros [Hk|[e He]]; [apply Hk; by eexists|done].
  - intros Hn. wp_step. split; [done|]. left. left. auto.
  - intros p u Hp Hu. wp_step. unfold on_state. apply wp_zoom.
    assert (shares_ok (hold p 1 held) sh (set_ss_users (looked_up p u (ss_users (ua_state s))) (ua_state s))) as Hsh'.
    { destruct Hsh as [_ Hpos Hs]. pose proof (co_count Hok _ _ Hu) as [Hr _]. pose proof (co_held Hok p) as [Hh _].
      split; [|intros q; specialize (Hpos q); unfold hold; destruct (decide (q = p)); lia|exact Hs]. cbn.
      eapply counted_ext; [|eapply (counted_update _ _ _ _ _ _ _ p u _ 1); [exact Hok|done|done|done|cbn; lia..]]. counts. }
    wp_by (by eapply transient_wp); [|done]. intros b _ [-> Hb]. cbn [ss_table ss_heap set_ss_users] in Hb.
    change (if b then ¬ required guest_account (ua_state s) name else required guest_account (ua_state s) name) in Hb. destruct b; cbn [negb].
    2:{ wp_step. split; [done|]. left. by right. }
    destruct (remove_exact _ _ name p u Hok Hp Hu) as (u' & E & Hok' & Hc).
    wp_step. apply wp_users. eapply wp_eq; [exact E|].
    wp_by (eapply (write_users_wp _ _ (command_spec DeleteUser name [] (stored_users s))); [exact Hok'|done|exact Hc]);
      [|intros e s' [? ?]; split; [done|right; by left]].
    intros _ s' Hs'. split; [|by exists []]. intros [Hk|Hk]; [apply Hk; by eexists|]. by apply Hb.
Qed.
End Commands.

(** ** Correctness *)

(** C25 (functional): a password that was given is stored as the base64 text of
    the MD4 digest (RFC 1320) of its UTF-16 form, and refused when it has 129
    octets or more or can not be converted.  Whatever is typed on the terminal,
    with erased characters, wrong repetitions and over-long lines, the result of
    the dialogue is printable, valid UTF-8 and shorter than 129 octets, and is
    treated as if it had been given. *)
Theorem passwords_stored `{GLib} (g_convert : Z → Z → bytes → option bytes) (g_base64_encode : bytes → bytes)
    (g_utf8_find_prev_char : bytes → option nat) (terminal stack : bytes) (verase : Z) :
  (∀ t f s out, g_convert t f s = Some out → Z.of_nat (length out) < 2 ^ 61) → length stack = 64%nat →
  let process := process_password g_convert g_base64_encode g_utf8_find_prev_char terminal verase stack in
  (∀ password, process (Some password) =
     match password_hash g_convert g_base64_encode password with Some h => inr h | None => inl (- EINVAL) end) ∧
  match __prompt_password_stdin g_utf8_find_prev_char verase terminal [] [] with
  | None => process None = inl (- EINVAL)
  | Some (password, sz) => typeable g_utf8_validate password ∧ process None = process (Some password)
  end.
Proof.
  intros Hg Hs process. split; [intros password; by apply process_given|].
  pose proof (process_typed g_convert g_base64_encode g_utf8_find_prev_char terminal stack verase Hg Hs) as Ht.
  destruct (__prompt_password_stdin _ _ terminal [] []) as [[p sz]|] eqn:E; [|exact Ht].
  split; [by eapply prompt_typeable in E as [? _]|]. unfold process. rewrite Ht. symmetry. by apply process_given.
Qed.
Definition toy_utf16 (to from : Z) (s : bytes) : option bytes := if (length s <? 1000)%nat then Some (concat (map (λ c, [c; 0]) s)) else None.
Lemma toy_utf16_small t f s out : toy_utf16 t f s = Some out → Z.of_nat (length out) < 2 ^ 61.
Proof.
  unfold toy_utf16. destruct (Nat.ltb_spec (length s) 1000); [|done]. intros [= <-].
  assert (length (concat (map (λ c : Z, [c; 0]) s)) = (2 * length s)%nat) as -> by (clear; induction s; cbn in *; lia). lia.
Qed.
(** Typed: "pq", erased "q", "w", then "pw" again. *)
Definition toy_terminal : bytes := str "pq" ++ [127] ++ str "w" ++ [10] ++ str "pw" ++ [10].
Lemma passwords_stored_witness :
  process_password (H0:=toy_glib) toy_utf16 (λ b, b) (λ b, None) toy_terminal 127 (replicate 64 7) None =
  inr (md4_spec [112; 0; 119; 0]).
Proof.
  destruct (passwords_stored (H0:=toy_glib) toy_utf16 (λ b, b) (λ b, None) toy_terminal (replicate 64 7) 127 toy_utf16_small eq_refl)
    as [Hgiven Htyped].
  assert (__prompt_password_stdin (H0:=toy_glib) (λ b, None) 127 toy_terminal [] [] = Some (str "pw", 3)) as E by reflexivity.
  rewrite E in Htyped. destruct Htyped as [_ Htyped]. etransitivity; [exact Htyped|]. etransitivity; [exact (Hgiven (str "pw"))|]. reflexivity.
Defined.

(** The command that is run *)
Definition chosen (c : option user_command) (name : bytes) (s : uadmin) : user_command :=
  match c with
  | Some c => c
  | None => if us_table (ss_users (ua_state s)) !! name then UpdateUser else AddUser
  end.
Definition creds_ok `{GLib} (m : gmap bytes bytes) : Prop := ∀ n b, m !! n = Some b → cred_ok n b.
Lemma command_keeps_creds `{GLib} c name hash m :
  creds_ok m → usm_user_name g_utf8_validate name = true → (c ≠ DeleteUser → base64_text hash) → creds_ok (command_spec c name hash m).
Proof.
  intros Hm Hn Hh. destruct c; intros n b; cbn.
  - intros [[<- <-]|[_ ?]]%lookup_insert_Some; [by split; auto|by apply Hm].
  - destruct (decide (n = name)) as [->|]; [|rewrite lookup_alter_ne by done; apply Hm]. rewrite lookup_alter_eq.
    destruct (m !! name); [|done]. intros [= <-]. by split; auto.
  - intros [_ ?]%lookup_delete_Some. by apply Hm.
Qed.
Lemma hash_is_text `{GLib} g_convert g_base64_encode g_utf8_find_prev_char terminal stack verase password hash :
  (∀ t f s out, g_convert t f s = Some out → Z.of_nat (length out) < 2 ^ 61) → length stack = 64%nat →
  (∀ x, x ≠ [] → base64_text (g_base64_encode x)) →
  process_password g_convert g_base64_encode g_utf8_find_prev_char terminal verase stack password = inr hash → base64_text hash.
Proof.
  intros Hg Hs Hb. assert (∀ p h, password_hash g_convert g_base64_encode p = Some h → base64_text h) as Hp.
  { intros p h. unfold password_hash. destruct (_ <? _); [|done]. destruct ksmbd_gconvert as [u|]; [|done]. cbn [fmap option_fmap option_map]. intros E. injection E as <-. apply Hb.
    intros E. pose proof (length_md4_spec u) as Hl. by rewrite E in Hl. }
  destruct password as [p|]; [rewrite process_given by done|rewrite process_typed by done; destruct (__prompt_password_stdin _ _ _ _ _) as [[p ?]|]; [|done]];
    destruct (password_hash g_convert g_base64_encode p) as [h|] eqn:E; try done; intros [= <-]; by eapply Hp.
Qed.

Lemma command_spec_guests c name hash s :
  (c = AddUser → us_table s !! name = None) →
  command_spec c name hash (creds s) = without_guests s (command_spec c name hash (passwords s)).
Proof.
  intros Hadd. rewrite creds_guests. apply map_eq. intros n. destruct c; cbn [command_spec]; rewrite without_guests_lookup.
  - destruct (decide (n = name)) as [->|Hn]; [|rewrite !lookup_insert_ne by done; apply without_guests_lookup].
    rewrite !lookup_insert_eq. unfold is_guest. by rewrite Hadd.
  - destruct (decide (n = name)) as [->|Hn]; [rewrite !lookup_alter_eq|rewrite !lookup_alter_ne by done];
      rewrite without_guests_lookup; by destruct (is_guest s _).
  - destruct (decide (n = name)) as [->|Hn]; [rewrite !lookup_delete_eq; by destruct (is_guest s _)|].
    rewrite !lookup_delete_ne by done. apply without_guests_lookup.
Qed.

(** C24 (refinement): a command of the program as a change of the map from names
    to stored passwords.  Run with or without a command, and memory given, it succeeds only when
    the command is not refused: the name is valid, unknown to add and known to
    update or delete, the password accepted, and a user to delete is neither
    the guest account of the server or of a share, nor on the admin, write or
    valid list of a share.  The file it writes then reads back, from no users,
    as the map of all users in memory with the one entry added, replaced or
    removed, without the users that are marked as a guest account: these are
    lost from the file, whatever the command.  When it fails, which happens for
    these reasons or when the file can not be written, the file is as it was. *)
Theorem user_commands_file `{GLib, System, Allocator} (g_convert : Z → Z → bytes → option bytes) (g_base64_encode : bytes → bytes)
    (g_list_insert_sorted : list bytes → bytes → list bytes) (g_utf8_find_prev_char : bytes → option nat)
    (terminal stack : bytes) (verase : Z) (guest_account : option bytes) (write_ok : bool) (set_conf : bytes → Z)
    (uheld sheld : Z → Z) (c : option user_command) (name : bytes) (password : option bytes) (s : uadmin) :
  (∀ t f s out, g_convert t f s = Some out → Z.of_nat (length out) < 2 ^ 61) → length stack = 64%nat →
  (∀ x, x ≠ [] → base64_text (g_base64_encode x)) → (∀ l x, g_list_insert_sorted l x ≡ₚ x :: l) →
  (∀ t, hash_order t ≡ₚ map_to_list t) → (∀ b, ∃ p, base64_decode b = Some p ∧ Z.of_nat (length p) ≤ INT_MAX) →
  (∀ n, g_try_malloc n = true) →
  let u := ss_users (ua_state s) in
  let process := process_password g_convert g_base64_encode g_utf8_find_prev_char terminal verase stack in
  let refused := usm_user_name g_utf8_validate name = false ∨
    refuses g_convert g_base64_encode g_utf8_find_prev_char terminal stack verase guest_account (chosen c name s) name password s in
  shares_ok uheld sheld (ua_state s) → creds_ok (without_guests u (passwords u)) →
  wp (adduser g_convert g_base64_encode g_list_insert_sorted g_utf8_find_prev_char terminal verase stack guest_account write_ok
        c name password) s
    (λ _ s', ¬ refused ∧ ∃ hash, (chosen c name s ≠ DeleteUser → process password = inr hash) ∧
       (Z.of_nat (length (ua_file s')) < 2 ^ 63 →
        ∃ v, cp_parse_pwddb ADDUSER set_conf (inr (ua_file s')) (mk_ustate ∅ ∅ 0) = Done 0 v ∧
             passwords v = without_guests u (command_spec (chosen c name s) name hash (passwords u))))
    (λ _ s', ua_file s' = ua_file s ∧ (refused ∨ write_ok = false)).
Proof.
  intros Hg Hst Hb Hi Ho Hd Hm u process refused Hok Hc. unfold adduser, refused. destruct (usm_user_name _ name) eqn:Hn; cbn [negb];
    [|wp_step; split; [done|left; by left]]. wp_step.
  apply (wp_mono _ _ (λ c' s', c' = chosen c name s ∧ s' = s) _ (λ _ _, False)); [|intros c' ? [-> ->]|done].
  { unfold choose_command, chosen. destruct c as [c|]; [by wp_step|]. wp_step. apply wp_users.
    pose proof (so_users _ _ _ Hok) as Hu. wp_by (by apply (usm_lookup_user_wp _ _ (Some name) Hu)); [|done]. intros [p|] u'; cbn.
    - intros (Ht & v & Hp & -> & _). rewrite Ht. wp_step. apply wp_users. eapply wp_eq; [by eapply put_after_lookup|]. wp_step.
      split; [done|]. clear. by destruct s as [[] ?].
    - intros [-> Ht]. rewrite Ht. split; [done|]. apply same_uadmin. }
  wp_by (by eapply command_wp).
  2:{ intros e s' [Hf [Hr|[Hr|[n Hr]]]]; (split; [done|]); [left; by right|by right|by rewrite Hm in Hr]. }
  intros _ s' [Hr (hash & Hh & Hs' & l & Hl & Hf)]. split; [by intros [?|?]|]. exists hash. split; [done|].
  intros Hlen. rewrite Hf in *. rewrite <-command_spec_guests.
  2:{ intros E. unfold refuses in Hr. rewrite E in Hr. destruct (us_table u !! name) eqn:Et; [|done]. destruct Hr. left. by eexists. }
  unfold u. rewrite <-Hs'. eapply creds_read_back; [done|done| |done|done]. rewrite Hs'. apply command_keeps_creds; [by rewrite creds_guests|done|].
  intros Hdel. by eapply hash_is_text, Hh.
Qed.

Definition toy_base64 (x : bytes) : bytes := map (λ c, 65 + c mod 16) x.
Lemma toy_base64_text x : x ≠ [] → base64_text (toy_base64 x).
Proof.
  intros Hx. assert (Forall (λ c, base64_char c = true ∧ c ≠ 61) (toy_base64 x)) as Hf.
  { apply Forall_forall. intros c (d & -> & _)%list_elem_of_fmap. pose proof (Z.mod_pos_bound d 16 ltac:(lia)).
    split; [|lia]. unfold base64_char. rewrite (proj2 (Z.leb_le 65 _)), (proj2 (Z.leb_le _ 90)) by lia. by rewrite orb_true_r. }
  assert (drop_pads (reverse (toy_base64 x)) = reverse (toy_base64 x)) as E.
  { apply Forall_reverse in Hf. destruct Hf as [|c r [_ Hc] _]; [done|]. cbn [drop_pads]. repeat (case_match; try done). }
  unfold base64_text. rewrite E, reverse_involutive. split; [by destruct x|]. apply forallb_all. eapply Forall_impl; [exact Hf|]. by intros c [].
Qed.
Definition toy_users : uadmin := mk_uadmin no_shares [].
Lemma toy_creds_ok : creds_ok (H0:=toy_glib) (without_guests (ss_users (ua_state toy_users)) (passwords (ss_users (ua_state toy_users)))).
Proof.
  rewrite <-creds_guests. assert (creds (ss_users (ua_state toy_users)) = {[ str "alice" := str "cHc=" ]}) as -> by reflexivity.
  intros n b [<- <-]%lookup_singleton_Some. split; [reflexivity|]. split; [discriminate|reflexivity].
Qed.
Abbreviation toy_adduser c name password :=
  (adduser (H0:=toy_glib) (H1:=total_system) (H2:=plenty) toy_utf16 toy_base64 (λ l x, x :: l) (λ _, None) [] 127 (replicate 64 0)
    None true c name password).
Lemma user_commands_file_witness :
  ∃ s', toy_adduser None (str "bob") (Some (str "pw")) toy_users = Done tt s' ∧
        ∃ v, cp_parse_pwddb (H0:=total_system) (H1:=plenty) (H:=toy_glib) ADDUSER (λ _, 0) (inr (ua_file s')) (mk_ustate ∅ ∅ 0) = Done 0 v ∧
             passwords v = <[str "bob" := toy_base64 (md4_spec [112; 0; 119; 0])]> {[ str "alice" := str "cHc=" ]}.
Proof.
  eassert (∃ s', toy_adduser None (str "bob") (Some (str "pw")) toy_users = Done tt s' ∧ Z.of_nat (length (ua_file s')) < 2 ^ 63) as (s' & E & Hl)
    by (eexists; split; [vm_compute; reflexivity|vm_compute; reflexivity]).
  exists s'. split; [exact E|].
  destruct (wp_Done _ _ _ _ _ _ (user_commands_file (H0:=toy_glib) (H1:=total_system) (H2:=plenty) toy_utf16 toy_base64 (λ l x, x :: l)
    (λ _, None) [] (replicate 64 0) 127 None true (λ _, 0) (λ _, 0) (λ _, 0) None (str "bob") (Some (str "pw")) toy_users
    toy_utf16_small eq_refl toy_base64_text (λ l x, reflexivity (x :: l)) (λ t, reflexivity (map_to_list t)) toy_decode (λ _, eq_refl)
    no_shares_ok toy_creds_ok) E) as [_ (hash & Hh & Hback)].
  destruct (Hback Hl) as (v & Hv & Ev). exists v. split; [exact Hv|]. rewrite Ev.
  assert (toy_base64 (md4_spec [112; 0; 119; 0]) = hash) as ->
    by (enough (inr (toy_base64 (md4_spec [112; 0; 119; 0])) = (inr hash : Z + bytes)) by congruence; rewrite <-Hh by discriminate; vm_compute; reflexivity).
  vm_compute. reflexivity.
Defined.

(** A user whose name is on the read list of a share is deleted and
    freed although the share refers to it, and the program follows the pointer
    when it ends; and the password of a user that the configuration makes the
    guest account is dropped from the file by a command for another user. *)
Theorem user_commands_lose :
  (on_state (shm_add_new_share (H:=toy_glib) (H0:=total_system) (H1:=plenty) false false
     (mk_group (str "media") {[ str "read list" := (str "read list", str "alice") ]})) ;;
   toy_adduser (Some DeleteUser) (str "alice") None) toy_users ≠ Fault ∧
  (on_state (shm_add_new_share (H:=toy_glib) (H0:=total_system) (H1:=plenty) false false
     (mk_group (str "media") {[ str "read list" := (str "read list", str "alice") ]})) ;;
   toy_adduser (Some DeleteUser) (str "alice") None ;; remove_config (H0:=toy_glib)) toy_users = Fault ∧
  (∃ s, (users (usm_add_guest_account (A:=plenty) (base64_decode (System:=total_system)) (getpwnam (System:=total_system))
           (getgrouplist (System:=total_system)) (str "alice")) ;;
         toy_adduser (Some AddUser) (str "bob") (Some (str "pw"))) toy_users = Done tt s ∧
        ua_file s = unlines [user_line (str "bob") (toy_base64 (md4_spec [112; 0; 119; 0]))]).
Proof.
  split; [vm_compute; discriminate|]. split; [vm_compute; reflexivity|].
  eexists. split; [vm_compute; reflexivity|]. vm_compute. reflexivity.
Qed.
