(* ===== verification/Rpc.v ===== *)
(** * Pipes and the DCE/RPC runtime ([src/mountd/rpc.c], from the pipe arrays on)

    A pipe belongs to a file handle of the kernel server: a WRITE carries a
    DCE/RPC request, which is parsed into the pipe's [struct ksmbd_dcerpc], and
    the next READ produces the reply.  The marshalling state of [Ndr] is one
    part of that structure.  Its last union is modelled by the eight-octet
    words that its members share on a 64-bit little-endian machine, so that a
    member that is read after another one was stored sees what C sees: integers,
    or an address of nothing, which may not be followed or freed ([Fault]).
    The interfaces behind the pipes ([srvsvc] and the others) are a type class;
    their programs run on one pipe and on the shares. *)

From S2P Require Import Prelude ConfText Refcount Users Shares Ndr Smbacl.

(** ** Data *)

(** [struct dcerpc_header] and [struct dcerpc_request_header]; the response
    header shares the storage of the latter. *)
Record dcerpc_header := mk_hdr {
  h_rpc_vers : Z; h_rpc_vers_minor : Z; h_ptype : Z; h_pfc_flags : Z; h_packed_drep : bytes;
  h_frag_length : Z; h_auth_length : Z; h_call_id : Z;
}.
Record dcerpc_request_header := mk_req_hdr { rh_alloc_hint : Z; rh_context_id : Z; rh_opnum : Z }.

(** [struct dcerpc_syntax] with its [struct dcerpc_guid], and [struct dcerpc_context] *)
Record dcerpc_syntax := mk_syntax {
  sy_time_low : Z; sy_time_mid : Z; sy_time_hi_and_version : Z; sy_clock_seq : bytes; sy_node : bytes;
  sy_ver_major : Z; sy_ver_minor : Z;
}.
Record dcerpc_context := mk_context {
  cx_id : Z; cx_num_syntaxes : Z; cx_abstract_syntax : dcerpc_syntax; cx_transfer_syntaxes : list dcerpc_syntax;
}.

(** A word of the union: an integer, a string or a list of contexts on the
    heap, or the address of an object that is gone or was overwritten in part. *)
Inductive word := Raw (v : Z) | Str (s : bytes) | Contexts (l : list dcerpc_context) | Wild.
Record request := mk_request { q_0 : word; q_8 : word; q_16 : word; q_24 : word; q_32 : word; q_40 : word }.
Definition zero_request : request := mk_request (Raw 0) (Raw 0) (Raw 0) (Raw 0) (Raw 0) (Raw 0).

(** The pointer to the message that is being handled: its flags, or the
    address of a message that was freed. *)
Inductive message_ptr := NoMessage | Message (flags : Z) | Dangling.

Record dce := mk_dce {
  d_ndr : dcerpc;
  d_dssetup_context_id : Z;
  d_hdr : dcerpc_header;
  d_req_hdr : dcerpc_request_header;
  d_req : request;
  d_rpc_req : message_ptr;
  d_resp_payload_sz : Z;
}.
(** The callbacks that [entry_processed] is set to. *)
Inductive callback := ShareProcessed | NamesProcessed.
(** [entries] holds pointers: to the shares of an enumeration, or to the names
    of a lookup.  [processed] is the callback [entry_processed]. *)
Record pipe := mk_pipe {
  p_id : Z;
  p_ioctl_reply_consumed : bool;
  p_num_entries : Z;
  p_num_processed : Z;
  p_entries : list Z;
  p_processed : option callback;
  p_dce : dce;
}.
(** [struct lsarpc_names_info]; the members that the code does not store are
    [None], since a part of these objects is not zeroed. *)
Record names_info := mk_names {
  ni_index : option Z; ni_type : option Z; ni_domain_str : option bytes; ni_sid : option smb_sid; ni_user : option Z;
}.
(** [struct policy_handle] and [struct connect_handle] behind their keys *)
Record policy_handle := mk_policy { ph_user : option Z }.
Record connect_handle := mk_connect { ch_refcount : Z; ch_user : option Z }.
(** What the interfaces keep beside the pipes: the names on the heap, and
    [ph_table] and [ch_table]. *)
Record services := mk_services {
  sx_names : gmap Z names_info; sx_next : Z;
  sx_policies : gmap bytes policy_handle; sx_connects : gmap bytes connect_handle;
}.
Definition no_services : services := mk_services ∅ 1 ∅ ∅.
(** What the programs of one pipe work on. *)
Record rpc := mk_rpc { r_shares : sstate; r_services : services; r_pipe : pipe }.

(** *** Updates *)
Definition set_ndr (v : dcerpc) (d : dce) : dce :=
  mk_dce v (d_dssetup_context_id d) (d_hdr d) (d_req_hdr d) (d_req d) (d_rpc_req d) (d_resp_payload_sz d).
Definition set_dssetup (v : Z) (d : dce) : dce :=
  mk_dce (d_ndr d) v (d_hdr d) (d_req_hdr d) (d_req d) (d_rpc_req d) (d_resp_payload_sz d).
Definition set_hdr (v : dcerpc_header) (d : dce) : dce :=
  mk_dce (d_ndr d) (d_dssetup_context_id d) v (d_req_hdr d) (d_req d) (d_rpc_req d) (d_resp_payload_sz d).
Definition set_req_hdr (v : dcerpc_request_header) (d : dce) : dce :=
  mk_dce (d_ndr d) (d_dssetup_context_id d) (d_hdr d) v (d_req d) (d_rpc_req d) (d_resp_payload_sz d).
Definition set_req (v : request) (d : dce) : dce :=
  mk_dce (d_ndr d) (d_dssetup_context_id d) (d_hdr d) (d_req_hdr d) v (d_rpc_req d) (d_resp_payload_sz d).
Definition set_rpc_req (v : message_ptr) (d : dce) : dce :=
  mk_dce (d_ndr d) (d_dssetup_context_id d) (d_hdr d) (d_req_hdr d) (d_req d) v (d_resp_payload_sz d).
Definition set_resp_payload_sz (v : Z) (d : dce) : dce :=
  mk_dce (d_ndr d) (d_dssetup_context_id d) (d_hdr d) (d_req_hdr d) (d_req d) (d_rpc_req d) v.
Definition set_dce (v : dce) (p : pipe) : pipe :=
  mk_pipe (p_id p) (p_ioctl_reply_consumed p) (p_num_entries p) (p_num_processed p) (p_entries p) (p_processed p) v.
Definition set_entries (n : Z) (v : list Z) (p : pipe) : pipe :=
  mk_pipe (p_id p) (p_ioctl_reply_consumed p) n (p_num_processed p) v (p_processed p) (p_dce p).
Definition set_num_processed (v : Z) (p : pipe) : pipe :=
  mk_pipe (p_id p) (p_ioctl_reply_consumed p) (p_num_entries p) v (p_entries p) (p_processed p) (p_dce p).
Definition set_processed (v : option callback) (p : pipe) : pipe :=
  mk_pipe (p_id p) (p_ioctl_reply_consumed p) (p_num_entries p) (p_num_processed p) (p_entries p) v (p_dce p).
Definition set_reply_consumed (v : bool) (p : pipe) : pipe :=
  mk_pipe (p_id p) v (p_num_entries p) (p_num_processed p) (p_entries p) (p_processed p) (p_dce p).

Definition r_dce (r : rpc) : dce := p_dce (r_pipe r).
Definition upd_pipe (f : pipe → pipe) : prog rpc unit := modify (λ r, mk_rpc (r_shares r) (r_services r) (f (r_pipe r))).
Definition upd_dce (f : dce → dce) : prog rpc unit := upd_pipe (λ p, set_dce (f (p_dce p)) p).
(** A program of the marshalling layer, and one of the shares. *)
Definition ndr {T : Type} (m : prog dcerpc T) : prog rpc T :=
  zoom (λ r, d_ndr (r_dce r)) (λ v r, mk_rpc (r_shares r) (r_services r) (set_dce (set_ndr v (r_dce r)) (r_pipe r))) m.
Definition share_op {T : Type} (m : prog sstate T) : prog rpc T :=
  zoom r_shares (λ v r, mk_rpc v (r_services r) (r_pipe r)) m.
Definition user_op {T : Type} (m : prog ustate T) : prog rpc T := share_op (on_users m).
Definition service_op {T : Type} (m : prog services T) : prog rpc T :=
  zoom r_services (λ v r, mk_rpc (r_shares r) v (r_pipe r)) m.
Definition set_sx_names (v : gmap Z names_info) (s : services) : services :=
  mk_services v (sx_next s) (sx_policies s) (sx_connects s).
Definition set_sx_policies (v : gmap bytes policy_handle) (s : services) : services :=
  mk_services (sx_names s) (sx_next s) v (sx_connects s).
Definition set_sx_connects (v : gmap bytes connect_handle) (s : services) : services :=
  mk_services (sx_names s) (sx_next s) (sx_policies s) v.

(** *** Words *)

(** The [width] bits at [off], little endian; the bits of an address are not
    modelled. *)
Definition get_bits (w : word) (off width : Z) : prog rpc Z :=
  match w with Raw v => ret (Z.shiftr v off mod 2 ^ width) | _ => fault end.
Definition set_bits (w : word) (off width v : Z) : word :=
  match w with
  | Raw x => Raw (x - (Z.shiftr x off mod 2 ^ width) * 2 ^ off + (v mod 2 ^ width) * 2 ^ off)
  | _ => Wild
  end.
(** A pointer to a string: NULL, the string, or something that must not be
    followed. *)
Definition string_at (w : word) : prog rpc (option bytes) :=
  match w with
  | Raw v => if v =? 0 then ret None else fault
  | Str s => ret (Some s)
  | _ => fault
  end.
Definition is_raw (w : word) : Prop := match w with Raw _ => True | _ => False end.
(** NULL or a string *)
Definition string_word (w : word) : Prop := match w with Raw v => v = 0 | Str _ => True | _ => False end.
Definition upd_req (f : request → request) : prog rpc unit := upd_dce (λ d, set_req (f (d_req d)) d).
Definition with_0 (w : word) (q : request) : request := mk_request w (q_8 q) (q_16 q) (q_24 q) (q_32 q) (q_40 q).
Definition with_8 (w : word) (q : request) : request := mk_request (q_0 q) w (q_16 q) (q_24 q) (q_32 q) (q_40 q).
Definition with_16 (w : word) (q : request) : request := mk_request (q_0 q) (q_8 q) w (q_24 q) (q_32 q) (q_40 q).
Definition with_24 (w : word) (q : request) : request := mk_request (q_0 q) (q_8 q) (q_16 q) w (q_32 q) (q_40 q).
Definition with_32 (w : word) (q : request) : request := mk_request (q_0 q) (q_8 q) (q_16 q) (q_24 q) w (q_40 q).
Definition with_40 (w : word) (q : request) : request := mk_request (q_0 q) (q_8 q) (q_16 q) (q_24 q) (q_32 q) w.
(** [g_free] of the pointer in a word: NULL and live objects only; the word
    keeps the address of an object that is gone. *)
Definition free_at (word_at : request → word) (with_word : word → request → request) : prog rpc unit :=
  r <- get ;;
  match word_at (d_req (r_dce r)) with
  | Raw v => if v =? 0 then ret tt else fault
  | Str _ | Contexts _ => upd_req (with_word Wild)
  | Wild => fault
  end.

(** ** Constants *)
Definition DCERPC_PTYPE_RPC_REQUEST : Z := 0x00.
Definition DCERPC_PTYPE_RPC_RESPONSE : Z := 0x02.
Definition DCERPC_PTYPE_RPC_BIND : Z := 0x0B.
Definition DCERPC_PTYPE_RPC_BINDACK : Z := 0x0C.
Definition DCERPC_PTYPE_RPC_BINDNACK : Z := 0x0D.
Definition DCERPC_PTYPE_RPC_ALTCONT : Z := 0x0E.
Definition DCERPC_PTYPE_RPC_ALTCONTRESP : Z := 0x0F.
Definition DCERPC_PFC_FIRST_FRAG : Z := 0x01.
Definition DCERPC_PFC_LAST_FRAG : Z := 0x02.
Definition DCERPC_SERIALIZATION_LITTLE_ENDIAN : Z := 0x10.
Definition DCERPC_BIND_ACK_RES_ACCEPT : Z := 0.
Definition DCERPC_BIND_ACK_RES_PROVIDER_REJECT : Z := 2.
Definition DCERPC_BIND_ACK_RES_NEGOTIATE_ACK : Z := 3.
Definition DCERPC_BIND_NAK_RSN_PROTOCOL_VERSION_NOT_SUPPORTED : Z := 4.
Definition KSMBD_RPC_METHOD_RETURN : Z := BIT 0.
Definition KSMBD_RPC_SRVSVC_METHOD_INVOKE : Z := BIT 1.
Definition KSMBD_RPC_WKSSVC_METHOD_INVOKE : Z := BIT 2.
Definition KSMBD_RPC_RESTRICTED_CONTEXT : Z := BIT 9.
Definition KSMBD_RPC_SAMR_METHOD_INVOKE : Z := BIT 10.
Definition KSMBD_RPC_LSARPC_METHOD_INVOKE : Z := BIT 11.
Definition KSMBD_RPC_OK : Z := 0.
Definition KSMBD_RPC_EBAD_FUNC : Z := 0x01.
Definition KSMBD_RPC_EACCESS_DENIED : Z := 0x05.
Definition KSMBD_RPC_EBAD_FID : Z := 0x06.
Definition KSMBD_RPC_ENOMEM : Z := 0x08.
Definition KSMBD_RPC_EBAD_DATA : Z := 0x0D.
Definition KSMBD_RPC_ENOTIMPLEMENTED : Z := 0x40.
Definition KSMBD_RPC_EINVALID_PARAMETER : Z := 0x57.
Definition KSMBD_RPC_EMORE_DATA : Z := 0xEA.
Definition KSMBD_RPC_EINVALID_LEVEL : Z := 0x7C.
(** The size of [struct dcerpc_header] and of the request or response header. *)
Definition dcerpc_header_sz : Z := 16.
Definition dcerpc_response_header_sz : Z := 8.

Section Runtime.
Context `{GLib, System, Allocator}.

(** A statement sequence that returns a code: [fail] is an early return. *)
Definition code_of (m : prog rpc unit) : prog rpc Z :=
  r <- attempt m ;; ret match r with inl _ => KSMBD_RPC_OK | inr e => e end.
(** [if (...) return KSMBD_RPC_EBAD_DATA;] *)
Definition or_bad_data {T : Type} (m : prog dcerpc T) : prog rpc T := ndr m else_return KSMBD_RPC_EBAD_DATA.

(** ** Pipes *)

(** [__share_entry_processed(pipe, 0)]; removing from an empty array gives
    NULL, which [put_ksmbd_share] ignores. *)
Definition __share_entry_processed : prog rpc unit :=
  r <- get ;;
  let p := r_pipe r in
  upd_pipe (λ p, set_num_processed (p_num_processed p + 1)
                   (set_entries (p_num_entries p - 1) (drop 1 (p_entries p)) p)) ;;
  share_op (put_ksmbd_share (head (p_entries p))).
(** [__lsarpc_entry_processed(pipe, 0)] follows what it took out of the array. *)
Definition __lsarpc_entry_processed : prog rpc unit :=
  r <- get ;;
  match p_entries (r_pipe r) with
  | [] => fault
  | p :: l =>
      upd_pipe (λ q, set_entries (p_num_entries q) l q) ;;
      ni <- service_op (load sx_names p) ;;
      user_op (put_ksmbd_user (ni_user ni)) ;;
      service_op (release sx_names set_sx_names p)
  end.
Definition entry_processed (c : callback) : prog rpc unit :=
  match c with ShareProcessed => __share_entry_processed | NamesProcessed => __lsarpc_entry_processed end.
Definition entries_processed (n : Z) (c : callback) : prog rpc unit :=
  for_each (replicate (Z.to_nat n) tt) (λ _, entry_processed c).
(** [if (pipe->entry_processed)], [n] times *)
Definition all_processed (n : Z) : prog rpc unit :=
  r <- get ;; match p_processed (r_pipe r) with Some c => entries_processed n c | None => ret tt end.
Definition rpc_pipe_reset : prog rpc unit :=
  r <- get ;;
  all_processed (p_num_entries (r_pipe r)) ;;
  upd_pipe (λ p, set_reply_consumed false (set_entries 0 (p_entries p) p)).

(** [dcerpc_set_ext_payload] for a buffer of [sz] octets, and for the payload
    of a message. *)
Definition set_reply_buffer (sz : Z) : prog rpc unit :=
  upd_dce (λ d, set_ndr (dcerpc_set_ext_payload (replicate (Z.to_nat sz) 0) (d_ndr d)) d).
Definition set_flags (f : Z → Z) : prog rpc unit :=
  upd_dce (λ d, set_ndr (mk_dcerpc (f (dce_flags (d_ndr d))) (dce_offset (d_ndr d)) (dce_payload (d_ndr d))
                           (dce_num_pointers (d_ndr d))) d).
Definition next_pointer : prog rpc Z :=
  upd_dce (λ d, set_ndr (mk_dcerpc (dce_flags (d_ndr d)) (dce_offset (d_ndr d)) (dce_payload (d_ndr d))
                           (dce_num_pointers (d_ndr d) + 1)) d) ;;
  r <- get ;; ret (dce_num_pointers (d_ndr (r_dce r))).
Definition set_cursor (o : Z) : prog rpc unit := upd_dce (λ d, set_ndr (set_offset o (d_ndr d)) d).

(** *** Arrays of structures *)

(** [entry_rep] and [entry_data]; an entry is a share. *)
Definition write_entries (f : Z → prog rpc unit) (n : Z) : prog rpc unit :=
  r <- get ;;
  for_each (seq 0 (Z.to_nat n)) (λ i,
    match p_entries (r_pipe r) !! i with
    | None => fault
    | Some entry => f entry else_return KSMBD_RPC_EBAD_DATA
    end).
Definition __ndr_write_array_of_structs (rep data : Z → prog rpc unit) (max_entry_nr : Z) : prog rpc unit :=
  write_entries rep max_entry_nr ;;
  write_entries data max_entry_nr ;;
  all_processed max_entry_nr.
(** The number of entries whose estimated sizes fill four fifths of the reply. *)
Fixpoint max_entries_loop (size : Z → Z) (limit : Z) (l : list Z) (current i : Z) : Z :=
  match l with
  | [] => i
  | entry :: l =>
      let current := current + size entry in
      if current <? limit then max_entries_loop size limit l current (i + 1) else i
  end.
Definition __max_entries (size : option (Z → Z)) (r : rpc) : Z :=
  let d := d_ndr (r_dce r) in
  match size with
  | Some size =>
      if has_flag KSMBD_DCERPC_FIXED_PAYLOAD_SZ d
      then max_entries_loop size (4 * payload_sz d / 5)
             (take (Z.to_nat (p_num_entries (r_pipe r))) (p_entries (r_pipe r))) 0 0
      else p_num_entries (r_pipe r)
  | None => p_num_entries (r_pipe r)
  end.
Definition ndr_write_empty_array_of_struct : prog rpc unit :=
  n <- next_pointer ;;
  or_bad_data (ndr_write_int32 n) ;;
  or_bad_data (ndr_write_int32 0) ;;
  or_bad_data (ndr_write_int32 0).
Definition ndr_write_array_of_structs (size : option (Z → Z)) (rep data : Z → prog rpc unit) : prog rpc unit :=
  r <- get ;;
  if p_num_entries (r_pipe r) =? 0 then ndr_write_empty_array_of_struct
  else
    let max_entry_nr := __max_entries size r in
    or_bad_data (ndr_write_int32 max_entry_nr) ;;
    or_bad_data (ndr_write_int32 max_entry_nr) ;;
    or_bad_data (ndr_write_int32 0) ;;
    or_bad_data (ndr_write_int32 max_entry_nr) ;;
    if max_entry_nr =? 0 then rpc_pipe_reset ;; fail KSMBD_RPC_EBAD_DATA
    else __ndr_write_array_of_structs rep data max_entry_nr.

(** ** Headers *)
Definition dcerpc_hdr_write (hdr : dcerpc_header) : prog dcerpc unit :=
  ndr_write_int8 (h_rpc_vers hdr) ;;
  ndr_write_int8 (h_rpc_vers_minor hdr) ;;
  ndr_write_int8 (h_ptype hdr) ;;
  ndr_write_int8 (h_pfc_flags hdr) ;;
  ndr_write_bytes (h_packed_drep hdr) ;;
  ndr_write_int16 (h_frag_length hdr) ;;
  ndr_write_int16 (h_auth_length hdr) ;;
  ndr_write_int32 (h_call_id hdr).
Definition upd_hdr (f : dcerpc_header → dcerpc_header) : prog rpc unit := upd_dce (λ d, set_hdr (f (d_hdr d)) d).
Definition read_else_einval {T : Type} (m : prog dcerpc T) : prog rpc T := ndr m else_return (- EINVAL).
(** The first fields are stored as they are read, the last three at the end. *)
Definition dcerpc_hdr_read : prog rpc unit :=
  v <- read_else_einval ndr_read_int8 ;;
  upd_hdr (λ h, mk_hdr v (h_rpc_vers_minor h) (h_ptype h) (h_pfc_flags h) (h_packed_drep h)
                  (h_frag_length h) (h_auth_length h) (h_call_id h)) ;;
  v <- read_else_einval ndr_read_int8 ;;
  upd_hdr (λ h, mk_hdr (h_rpc_vers h) v (h_ptype h) (h_pfc_flags h) (h_packed_drep h)
                  (h_frag_length h) (h_auth_length h) (h_call_id h)) ;;
  v <- read_else_einval ndr_read_int8 ;;
  upd_hdr (λ h, mk_hdr (h_rpc_vers h) (h_rpc_vers_minor h) v (h_pfc_flags h) (h_packed_drep h)
                  (h_frag_length h) (h_auth_length h) (h_call_id h)) ;;
  v <- read_else_einval ndr_read_int8 ;;
  upd_hdr (λ h, mk_hdr (h_rpc_vers h) (h_rpc_vers_minor h) (h_ptype h) v (h_packed_drep h)
                  (h_frag_length h) (h_auth_length h) (h_call_id h)) ;;
  drep <- read_else_einval (ndr_read_bytes 4) ;;
  upd_hdr (λ h, mk_hdr (h_rpc_vers h) (h_rpc_vers_minor h) (h_ptype h) (h_pfc_flags h) drep
                  (h_frag_length h) (h_auth_length h) (h_call_id h)) ;;
  set_flags (λ f, set_flag f KSMBD_DCERPC_ALIGN4) ;;
  set_flags (λ f, set_flag f KSMBD_DCERPC_LITTLE_ENDIAN) ;;
  (if negb (nth 0 drep 0 =? DCERPC_SERIALIZATION_LITTLE_ENDIAN)
   then set_flags (λ f, clear_flag f KSMBD_DCERPC_LITTLE_ENDIAN) else ret tt) ;;
  frag_length <- read_else_einval ndr_read_int16 ;;
  auth_length <- read_else_einval ndr_read_int16 ;;
  call_id <- read_else_einval ndr_read_int32 ;;
  upd_hdr (λ h, mk_hdr (h_rpc_vers h) (h_rpc_vers_minor h) (h_ptype h) (h_pfc_flags h) (h_packed_drep h)
                  frag_length auth_length call_id).
(** [alloc_hint], [context_id], [cancel_count], [reserved] *)
Definition dcerpc_response_hdr_write (alloc_hint context_id cancel_count reserved : Z) : prog dcerpc unit :=
  ndr_write_int32 alloc_hint ;;
  ndr_write_int16 context_id ;;
  ndr_write_int8 cancel_count ;;
  ndr_write_int8 reserved.
Definition dcerpc_request_hdr_read : prog rpc unit :=
  alloc_hint <- read_else_einval ndr_read_int32 ;;
  context_id <- read_else_einval ndr_read_int16 ;;
  opnum <- read_else_einval ndr_read_int16 ;;
  upd_dce (set_req_hdr (mk_req_hdr alloc_hint context_id opnum)).
(** The octets of the reply type, flags and length; the rest of the header is
    the one of the request. *)
Definition reply_hdr (ptype pfc_flags frag_length : Z) (h : dcerpc_header) : dcerpc_header :=
  mk_hdr (h_rpc_vers h) (h_rpc_vers_minor h) ptype pfc_flags (h_packed_drep h)
    (u16 frag_length) (h_auth_length h) (h_call_id h).
Definition dcerpc_write_headers (method_status : Z) : prog rpc unit :=
  r <- get ;;
  let payload_offset := s32 (dce_offset (d_ndr (r_dce r))) in
  set_cursor 0 ;;
  upd_hdr (reply_hdr DCERPC_PTYPE_RPC_RESPONSE
             (if method_status =? KSMBD_RPC_EMORE_DATA then DCERPC_PFC_FIRST_FRAG
              else Z.lor DCERPC_PFC_FIRST_FRAG DCERPC_PFC_LAST_FRAG) payload_offset) ;;
  r <- get ;;
  ndr (dcerpc_hdr_write (d_hdr (r_dce r))) ;;
  upd_dce (λ d, set_req_hdr (mk_req_hdr (u32 payload_offset) (rh_context_id (d_req_hdr d)) 0) d) ;;
  r <- get ;;
  let h := d_req_hdr (r_dce r) in
  ndr (dcerpc_response_hdr_write (rh_alloc_hint h) (rh_context_id h) 0 0) ;;
  set_cursor (u64 payload_offset).
(** How the interfaces end a reply: the status of the operation, the headers, and
    the size for the answer. *)
Definition write_status (status : Z) : prog rpc unit :=
  or_bad_data (ndr_write_int32 status) ;;
  dcerpc_write_headers status else_return KSMBD_RPC_EBAD_DATA ;;
  upd_dce (λ d, set_resp_payload_sz (u32 (dce_offset (d_ndr d))) d).

(** ** Binding *)
Definition __dcerpc_read_syntax : prog rpc dcerpc_syntax :=
  time_low <- read_else_einval ndr_read_int32 ;;
  time_mid <- read_else_einval ndr_read_int16 ;;
  time_hi_and_version <- read_else_einval ndr_read_int16 ;;
  clock_seq <- read_else_einval (ndr_read_bytes 2) ;;
  node <- read_else_einval (ndr_read_bytes 6) ;;
  ver_major <- read_else_einval ndr_read_int16 ;;
  ver_minor <- read_else_einval ndr_read_int16 ;;
  ret (mk_syntax time_low time_mid time_hi_and_version clock_seq node ver_major ver_minor).
Definition __dcerpc_write_syntax (syn : dcerpc_syntax) : prog dcerpc unit :=
  ndr_write_int32 (sy_time_low syn) ;;
  ndr_write_int16 (sy_time_mid syn) ;;
  ndr_write_int16 (sy_time_hi_and_version syn) ;;
  ndr_write_bytes (sy_clock_seq syn) ;;
  ndr_write_bytes (sy_node syn) ;;
  ndr_write_int16 (sy_ver_major syn) ;;
  ndr_write_int16 (sy_ver_minor syn).

(** The fields of [bi_req] in the words of the union. *)
Definition bi_flags : prog rpc Z := r <- get ;; get_bits (q_0 (d_req (r_dce r))) 0 32.
Definition bi_max_xmit_frag_sz : prog rpc Z := r <- get ;; get_bits (q_0 (d_req (r_dce r))) 32 16.
Definition bi_max_recv_frag_sz : prog rpc Z := r <- get ;; get_bits (q_0 (d_req (r_dce r))) 48 16.
Definition bi_assoc_group_id : prog rpc Z := r <- get ;; get_bits (q_8 (d_req (r_dce r))) 0 32.
Definition bi_num_contexts : prog rpc Z := r <- get ;; get_bits (q_8 (d_req (r_dce r))) 32 8.
Definition set_bi_flags (v : Z) : prog rpc unit := upd_req (λ q, with_0 (set_bits (q_0 q) 0 32 v) q).
Definition set_bi_max_xmit_frag_sz (v : Z) : prog rpc unit := upd_req (λ q, with_0 (set_bits (q_0 q) 32 16 v) q).
Definition set_bi_max_recv_frag_sz (v : Z) : prog rpc unit := upd_req (λ q, with_0 (set_bits (q_0 q) 48 16 v) q).
Definition set_bi_assoc_group_id (v : Z) : prog rpc unit := upd_req (λ q, with_8 (set_bits (q_8 q) 0 32 v) q).
Definition set_bi_num_contexts (v : Z) : prog rpc unit := upd_req (λ q, with_8 (set_bits (q_8 q) 32 8 v) q).
Definition set_bi_list (w : word) : prog rpc unit := upd_req (with_16 w).
(** [hdr->list[i]] for [i < num_contexts]: the list is only followed when there
    are contexts. *)
Definition bi_contexts : prog rpc (list dcerpc_context) :=
  n <- bi_num_contexts ;;
  if n =? 0 then ret []
  else
    r <- get ;;
    match q_16 (d_req (r_dce r)) with
    | Contexts l => if n =? Z.of_nat (length l) then ret l else fault
    | _ => fault
    end.

Definition dcerpc_bind_req_free : prog rpc unit :=
  bi_contexts ;;
  free_at q_16 with_16 ;;
  set_bi_list (Raw 0) ;;
  set_bi_num_contexts 0.

Fixpoint read_syntaxes (n : nat) : prog rpc (list dcerpc_syntax) :=
  match n with
  | O => ret []
  | S n => s <- __dcerpc_read_syntax ;; l <- read_syntaxes n ;; ret (s :: l)
  end.
(** The size of [struct dcerpc_context] and [struct dcerpc_syntax] *)
Definition dcerpc_context_sz : Z := 32.
Definition dcerpc_syntax_sz : Z := 20.
Fixpoint read_contexts (n : nat) : prog rpc (list dcerpc_context) :=
  match n with
  | O => ret []
  | S n =>
      id <- read_else_einval ndr_read_int16 ;;
      num_syntaxes <- read_else_einval ndr_read_int8 ;;
      if num_syntaxes =? 0 then fail (- EINVAL)
      else
        abstract_syntax <- __dcerpc_read_syntax ;;
        if negb (g_try_malloc (num_syntaxes * dcerpc_syntax_sz)) then fail (- ENOMEM)
        else
          transfer_syntaxes <- read_syntaxes (Z.to_nat num_syntaxes) ;;
          l <- read_contexts n ;;
          ret (mk_context id num_syntaxes abstract_syntax transfer_syntaxes :: l)
  end.
Definition dcerpc_parse_bind_req : prog rpc unit :=
  r <- get ;;
  match d_rpc_req (r_dce r) with
  | Message flags => set_bi_flags flags
  | _ => fault
  end ;;
  v <- read_else_einval ndr_read_int16 ;; set_bi_max_xmit_frag_sz v ;;
  v <- read_else_einval ndr_read_int16 ;; set_bi_max_recv_frag_sz v ;;
  v <- read_else_einval ndr_read_int32 ;; set_bi_assoc_group_id v ;;
  num_contexts <- read_else_einval ndr_read_int8 ;; set_bi_num_contexts num_contexts ;;
  set_bi_list (Raw 0) ;;
  ndr auto_align_offset ;;
  if num_contexts =? 0 then ret tt
  else if negb (g_try_malloc (num_contexts * dcerpc_context_sz)) then fail (- ENOMEM)
  else
    l <- attempt (read_contexts (Z.to_nat num_contexts)) ;;
    match l with
    | inl l => set_bi_list (Contexts l)
    | inr e => set_bi_num_contexts 0 ;; fail e
    end.

Definition is_dssetup_interface (syn : dcerpc_syntax) : bool :=
  (sy_time_low syn =? 0x3919286a) && (sy_time_mid syn =? 0xb10c) && (sy_time_hi_and_version syn =? 0x11d0).
Definition dcerpc_bind_invoke : prog rpc unit :=
  dcerpc_parse_bind_req else_return KSMBD_RPC_EBAD_DATA ;;
  l <- bi_contexts ;;
  (match list_find (λ c, is_dssetup_interface (cx_abstract_syntax c) = true) l with
   | Some (_, c) => upd_dce (set_dssetup (cx_id c))
   | None => ret tt
   end) ;;
  upd_pipe (set_processed None).

(** NDR version 2 and the bind time feature negotiation *)
Definition known_syntaxes : list (dcerpc_syntax * Z) :=
  [(mk_syntax 0x8a885d04 0x1ceb 0x11c9 [0x9f; 0xe8] [0x8; 0x0; 0x2b; 0x10; 0x48; 0x60] 2 0,
    DCERPC_BIND_ACK_RES_ACCEPT);
   (mk_syntax 0x6CB71C2C 0x9812 0x4540 [0; 0] [0; 0; 0; 0; 0; 0] 1 0, DCERPC_BIND_ACK_RES_NEGOTIATE_ACK)].
Definition negotiate_ack_PNIO_uuid : dcerpc_syntax := mk_syntax 0 0 0 [0; 0] [0; 0; 0; 0; 0; 0] 0 0.
Definition dcerpc_syntax_cmp (a b : dcerpc_syntax) : Z :=
  if negb (sy_time_low a =? sy_time_low b) then -1
  else if negb (sy_time_mid a =? sy_time_mid b) then -1
  else if negb (sy_time_hi_and_version a =? sy_time_hi_and_version b) then -1
  else if negb (bool_decide (sy_clock_seq a = sy_clock_seq b)) then -1
  else if negb (bool_decide (sy_node a = sy_node b)) then -1
  else if negb (sy_ver_major a =? sy_ver_major b) then -1
  else if negb (sy_ver_minor a =? sy_ver_minor b) then -1
  else 0.
Definition dcerpc_syntax_supported (a : dcerpc_syntax) : Z :=
  match list_find (λ k, dcerpc_syntax_cmp a k.1 = 0) known_syntaxes with
  | Some (_, k) => k.2
  | None => -1
  end.

(** The header of the finished reply, and its size for the answer. *)
Definition finish_reply (ptype : Z) : prog rpc unit :=
  r <- get ;;
  let payload_offset := s32 (dce_offset (d_ndr (r_dce r))) in
  set_cursor 0 ;;
  upd_hdr (reply_hdr ptype (Z.lor DCERPC_PFC_FIRST_FRAG DCERPC_PFC_LAST_FRAG) payload_offset) ;;
  r <- get ;;
  or_bad_data (dcerpc_hdr_write (d_hdr (r_dce r))) ;;
  set_cursor (u64 payload_offset) ;;
  upd_dce (set_resp_payload_sz (u32 payload_offset)).
Definition dcerpc_bind_nack_return : prog rpc unit :=
  set_cursor dcerpc_header_sz ;;
  or_bad_data (ndr_write_int16 DCERPC_BIND_NAK_RSN_PROTOCOL_VERSION_NOT_SUPPORTED) ;;
  or_bad_data (ndr_write_int8 (Z.of_nat (length known_syntaxes))) ;;
  ndr auto_align_offset ;;
  for_each known_syntaxes (λ k,
    or_bad_data (ndr_write_int8 (sy_ver_major k.1)) ;;
    or_bad_data (ndr_write_int8 (sy_ver_minor k.1))) ;;
  finish_reply DCERPC_PTYPE_RPC_BINDNACK.

Definition pipe_address (flags : Z) : option bytes :=
  if test_flag flags KSMBD_RPC_SRVSVC_METHOD_INVOKE then Some (str "\PIPE\srvsvc")
  else if test_flag flags KSMBD_RPC_WKSSVC_METHOD_INVOKE then Some (str "\PIPE\wkssvc")
  else if test_flag flags KSMBD_RPC_SAMR_METHOD_INVOKE then Some (str "\PIPE\samr")
  else if test_flag flags KSMBD_RPC_LSARPC_METHOD_INVOKE then Some (str "\PIPE\lsarpc")
  else None.
(** The answer for one context: the first transfer syntax that is known, or a
    rejection with the first one. *)
Definition ack_context (c : dcerpc_context) : prog rpc unit :=
  match list_find (λ s, 0 ≤ dcerpc_syntax_supported s) (cx_transfer_syntaxes c) with
  | None =>
      match cx_transfer_syntaxes c with
      | [] => fault
      | s :: _ =>
          or_bad_data (ndr_write_union_int16 DCERPC_BIND_ACK_RES_PROVIDER_REJECT) ;;
          or_bad_data (__dcerpc_write_syntax s)
      end
  | Some (_, s) =>
      let result := dcerpc_syntax_supported s in
      (if result =? DCERPC_BIND_ACK_RES_ACCEPT then or_bad_data (ndr_write_union_int16 result) else ret tt) ;;
      if result =? DCERPC_BIND_ACK_RES_NEGOTIATE_ACK
      then or_bad_data (ndr_write_int16 result) ;;
           or_bad_data (ndr_write_int16 0) ;;
           or_bad_data (__dcerpc_write_syntax negotiate_ack_PNIO_uuid)
      else or_bad_data (__dcerpc_write_syntax s)
  end.
Definition dcerpc_bind_ack_return : prog rpc unit :=
  set_cursor dcerpc_header_sz ;;
  group <- bi_assoc_group_id ;;
  (if group =? 0 then set_bi_assoc_group_id 0x53f0 else ret tt) ;;
  v <- bi_max_xmit_frag_sz ;; or_bad_data (ndr_write_int16 v) ;;
  v <- bi_max_recv_frag_sz ;; or_bad_data (ndr_write_int16 v) ;;
  v <- bi_assoc_group_id ;; or_bad_data (ndr_write_int32 v) ;;
  flags <- bi_flags ;;
  match pipe_address flags with
  | None => fail KSMBD_RPC_EBAD_FUNC
  | Some addr =>
      r <- get ;;
      let altcont := h_ptype (d_hdr (r_dce r)) =? DCERPC_PTYPE_RPC_ALTCONT in
      (if altcont
       then or_bad_data (ndr_write_int16 0) ;; or_bad_data (ndr_write_int16 0)
       else or_bad_data (ndr_write_int16 (Z.of_nat (length addr))) ;; or_bad_data (ndr_write_bytes addr)) ;;
      ndr (align_offset 4) ;;
      l <- bi_contexts ;;
      or_bad_data (ndr_write_int8 (Z.of_nat (length l))) ;;
      ndr (align_offset 2) ;;
      for_each l ack_context ;;
      finish_reply (if altcont then DCERPC_PTYPE_RPC_ALTCONTRESP else DCERPC_PTYPE_RPC_BINDACK)
  end.
Definition dcerpc_bind_return : prog rpc Z :=
  l <- bi_contexts ;;
  let ack := existsb (λ c, existsb (λ s, negb (dcerpc_syntax_supported s =? -1)) (cx_transfer_syntaxes c)) l in
  code <- code_of (if ack then dcerpc_bind_ack_return else dcerpc_bind_nack_return) ;;
  dcerpc_bind_req_free ;;
  ret code.
End Runtime.

(** ** Requests *)
Inductive interface := SRVSVC | WKSSVC | SAMR | LSARPC.
(** What the interfaces offer: the effect of a request on the pipe, and the
    reply into a buffer of so many octets; both return a code. *)
Class Interfaces := {
  rpc_write : interface → prog rpc Z;
  rpc_read : interface → Z → prog rpc Z;
}.
Definition interface_of (flags : Z) : option interface :=
  if test_flag flags KSMBD_RPC_SRVSVC_METHOD_INVOKE then Some SRVSVC
  else if test_flag flags KSMBD_RPC_WKSSVC_METHOD_INVOKE then Some WKSSVC
  else if test_flag flags KSMBD_RPC_SAMR_METHOD_INVOKE then Some SAMR
  else if test_flag flags KSMBD_RPC_LSARPC_METHOD_INVOKE then Some LSARPC
  else None.
(** [struct ksmbd_rpc_command] of a request; [payload_sz] is the length of the
    payload. *)
Record command := mk_command { rc_handle : Z; rc_flags : Z; rc_payload : bytes }.

(** The pipes by their id; [None] is a pipe that was freed but is still in the
    table. *)
Record server := mk_server { sv_shares : sstate; sv_services : services; sv_pipes : gmap Z (option pipe) }.
Definition rpc_pipe_sz : Z := 40.
Definition dcerpc_sz : Z := 152.
Definition PIPE_PEEK_SCRATCH_SZ : Z := 4 * 1024 * 1024.
Definition FILE_PIPE_CONNECTED_STATE : Z := 3.

Section Requests.
Context `{GLib, System, Allocator, Interfaces}.
(** [global_conf.restrict_anon] *)
Variable restrict_anon : Z.

Definition rpc_restricted_context (req : message_ptr) : prog rpc bool :=
  if restrict_anon =? 0 then ret false
  else match req with
  | Message flags => ret (test_flag flags KSMBD_RPC_RESTRICTED_CONTEXT)
  | _ => fault
  end.

(** *** One pipe *)
Definition is_bind (h : dcerpc_header) : bool :=
  (h_ptype h =? DCERPC_PTYPE_RPC_BIND) || (h_ptype h =? DCERPC_PTYPE_RPC_ALTCONT).
(** The statements of [rpc_write_request] up to the parsing... *)
Definition start_parse (req : command) : prog rpc unit :=
  upd_dce (λ d, set_resp_payload_sz 0 (set_rpc_req (Message (rc_flags req))
                  (set_ndr (dcerpc_set_ext_payload (rc_payload req) (d_ndr d)) d))) ;;
  upd_pipe (set_reply_consumed false) ;;
  set_flags (λ f, set_flag f KSMBD_DCERPC_RETURN_READY).
(** ... and those of [rpc_read_request] up to the reply. *)
Definition start_reply (req : command) (max_resp_sz : Z) : prog rpc unit :=
  set_flags (λ f, clear_flag f KSMBD_DCERPC_RETURN_READY) ;;
  upd_dce (λ d, set_resp_payload_sz 0 (set_rpc_req (Message (rc_flags req)) d)) ;;
  set_reply_buffer max_resp_sz.
Definition pipe_write (req : command) : prog rpc Z :=
  r <- get ;;
  if has_flag KSMBD_DCERPC_RETURN_READY (d_ndr (r_dce r)) then ret KSMBD_RPC_OK
  else
    start_parse req ;;
    h <- attempt dcerpc_hdr_read ;;
    match h with
    | inr _ => ret KSMBD_RPC_EBAD_DATA
    | inl _ =>
        r <- get ;;
        if is_bind (d_hdr (r_dce r)) then code_of dcerpc_bind_invoke
        else if negb (h_ptype (d_hdr (r_dce r)) =? DCERPC_PTYPE_RPC_REQUEST) then ret KSMBD_RPC_ENOTIMPLEMENTED
        else
          h <- attempt dcerpc_request_hdr_read ;;
          match h with
          | inr _ => ret KSMBD_RPC_EBAD_DATA
          | inl _ => match interface_of (rc_flags req) with
                     | Some i => rpc_write i
                     | None => ret KSMBD_RPC_ENOTIMPLEMENTED
                     end
          end
    end.
(** The reply to the request that the header names. *)
Definition pipe_reply (flags : prog rpc Z) (max_resp_sz : Z) : prog rpc Z :=
  r <- get ;;
  if is_bind (d_hdr (r_dce r)) then dcerpc_bind_return
  else if negb (h_ptype (d_hdr (r_dce r)) =? DCERPC_PTYPE_RPC_REQUEST) then ret KSMBD_RPC_ENOTIMPLEMENTED
  else
    flags <- flags ;;
    match interface_of flags with
    | Some i => rpc_read i max_resp_sz
    | None => ret KSMBD_RPC_ENOTIMPLEMENTED
    end.
Definition pipe_read (req : command) (max_resp_sz : Z) : prog rpc Z :=
  r <- get ;;
  if p_ioctl_reply_consumed (r_pipe r) then set_flags (λ f, clear_flag f KSMBD_DCERPC_RETURN_READY) ;; ret KSMBD_RPC_OK
  else if negb (has_flag KSMBD_DCERPC_RETURN_READY (d_ndr (r_dce r))) then ret KSMBD_RPC_OK
  else
    start_reply req max_resp_sz ;;
    pipe_reply (ret (rc_flags req)) max_resp_sz.
Definition pipe_ioctl (req : command) (max_resp_sz : Z) : prog rpc Z :=
  code <- pipe_write req ;;
  if code =? KSMBD_RPC_OK then
    code <- pipe_read req max_resp_sz ;;
    (if code =? KSMBD_RPC_OK
     then upd_pipe (set_reply_consumed true) ;; set_flags (λ f, clear_flag f KSMBD_DCERPC_RETURN_READY)
     else ret tt) ;;
    ret code
  else ret code.

(** [*dce = saved_dce; *pipe = saved_pipe;]: the pointers come back, not the
    objects that were freed; the array of the entries is the same one. *)
Definition restore_word (saved now : word) : word :=
  match saved with
  | Raw _ | Wild => saved
  | _ => match now with Str _ | Contexts _ => saved | _ => Wild end
  end.
Definition restore_request (saved now : request) : request :=
  mk_request (restore_word (q_0 saved) (q_0 now)) (restore_word (q_8 saved) (q_8 now))
    (restore_word (q_16 saved) (q_16 now)) (restore_word (q_24 saved) (q_24 now))
    (restore_word (q_32 saved) (q_32 now)) (restore_word (q_40 saved) (q_40 now)).
Definition restore_pipe (saved now : pipe) : pipe :=
  set_entries (p_num_entries saved) (p_entries now)
    (set_dce (set_req (restore_request (d_req (p_dce saved)) (d_req (p_dce now))) (p_dce saved)) saved).
(** The code and [*length]. *)
Definition rpc_pending_response_len : prog rpc (Z * Z) :=
  r <- get ;;
  if negb (has_flag KSMBD_DCERPC_RETURN_READY (d_ndr (r_dce r))) then ret (KSMBD_RPC_OK, 0)
  else if negb (g_try_malloc (16 + PIPE_PEEK_SCRATCH_SZ)) then ret (KSMBD_RPC_ENOMEM, 0)
  else
    let saved := r_pipe r in
    upd_pipe (set_processed None) ;;
    set_reply_buffer PIPE_PEEK_SCRATCH_SZ ;;
    upd_dce (set_resp_payload_sz 0) ;;
    code <- pipe_reply (r <- get ;; match d_rpc_req (r_dce r) with Message flags => ret flags | _ => fault end)
              PIPE_PEEK_SCRATCH_SZ ;;
    r <- get ;;
    let length := if code =? KSMBD_RPC_OK then d_resp_payload_sz (r_dce r) else 0 in
    upd_pipe (restore_pipe saved) ;;
    ret (code, length).
(** [struct ksmbd_rpc_pipe_info]: the code, and the four words of the answer. *)
Definition pipe_state (max_resp_sz : Z) : prog rpc (Z * list Z) :=
  r <- get ;;
  if negb (has_flag KSMBD_DCERPC_RETURN_READY (d_ndr (r_dce r)))
  then ret (KSMBD_RPC_OK, [FILE_PIPE_CONNECTED_STATE; 0; 0; 0])
  else
    let* (code, length) := rpc_pending_response_len in
    ret (code, if code =? KSMBD_RPC_OK then [FILE_PIPE_CONNECTED_STATE; length; 1; length]
               else [FILE_PIPE_CONNECTED_STATE; 0; 1; 0]).

(** *** The table *)
Definition rpc_pipe_lookup (id : Z) : prog server (option pipe) :=
  s <- get ;;
  match sv_pipes s !! id with
  | None => ret None
  | Some None => fault
  | Some (Some p) => ret (Some p)
  end.
Definition upd_pipes (f : gmap Z (option pipe) → gmap Z (option pipe)) : prog server unit :=
  modify (λ s, mk_server (sv_shares s) (sv_services s) (f (sv_pipes s))).
(** The message of the previous request was freed when it was answered, and the
    answer to the next one is empty at first. *)
Definition expired (p : pipe) : pipe :=
  let d := set_resp_payload_sz 0 (p_dce p) in
  set_dce (match d_rpc_req d with Message _ => set_rpc_req Dangling d | _ => d end) p.
(** A program on the pipe, which is in the table. *)
Definition on_pipe {T : Type} (id : Z) (p : pipe) (m : prog rpc T) : prog server T := λ s,
  match m (mk_rpc (sv_shares s) (sv_services s) (expired p)) with
  | Done a r => Done a (mk_server (r_shares r) (r_services r) (<[id := Some (r_pipe r)]> (sv_pipes s)))
  | Err e r => Err e (mk_server (r_shares r) (r_services r) (<[id := Some (r_pipe r)]> (sv_pipes s)))
  | Fault => Fault
  end.
Definition zero_hdr : dcerpc_header := mk_hdr 0 0 0 0 [0; 0; 0; 0] 0 0 0.
(** [rpc_pipe_alloc] and [dcerpc_ext_alloc] for the payload of the request *)
Definition dcerpc_ext_alloc (payload : bytes) : dce :=
  mk_dce (mk_dcerpc (Z.lor (Z.lor KSMBD_DCERPC_LITTLE_ENDIAN KSMBD_DCERPC_ALIGN4)
                       (Z.lor KSMBD_DCERPC_EXTERNAL_PAYLOAD KSMBD_DCERPC_FIXED_PAYLOAD_SZ)) 0 payload 0)
    (-1) zero_hdr (mk_req_hdr 0 0 0) zero_request NoMessage 0.
Definition rpc_pipe_alloc (id : Z) (payload : bytes) : pipe := mk_pipe id false 0 0 [] None (dcerpc_ext_alloc payload).
(** Inserting an id that is there replaces the pipe in the table, and the new
    one is freed. *)
Definition rpc_pipe_alloc_bind (id : Z) (payload : bytes) : prog server (option pipe) :=
  if negb (g_try_malloc rpc_pipe_sz) then ret None
  else
    s <- get ;;
    match sv_pipes s !! id with
    | None => upd_pipes (insert id (Some (rpc_pipe_alloc id payload))) ;; ret (Some (rpc_pipe_alloc id payload))
    | Some _ => upd_pipes (insert id None) ;; ret None
    end.
(** The pipe with the id [-1] is not taken out of the table. *)
Definition no_id : Z := 2 ^ 32 - 1.
Definition rpc_pipe_free (id : Z) (p : pipe) : prog server unit :=
  on_pipe id p rpc_pipe_reset ;;
  upd_pipes (if id =? no_id then insert id None else delete id).

Definition rpc_open_request (req : command) : prog server Z :=
  p <- rpc_pipe_lookup (rc_handle req) ;;
  match p with
  | Some _ => ret (- EEXIST)
  | None =>
      p <- rpc_pipe_alloc_bind (rc_handle req) (rc_payload req) ;;
      match p with
      | None => ret (- ENOMEM)
      | Some p => if negb (g_try_malloc dcerpc_sz) then rpc_pipe_free (rc_handle req) p ;; ret KSMBD_RPC_ENOMEM
                  else ret KSMBD_RPC_OK
      end
  end.
Definition rpc_close_request (req : command) : prog server Z :=
  p <- rpc_pipe_lookup (rc_handle req) ;;
  match p with
  | Some p => rpc_pipe_free (rc_handle req) p ;; ret 0
  | None => ret KSMBD_RPC_EBAD_FID
  end.
Definition rpc_write_request (req : command) : prog server Z :=
  p <- rpc_pipe_lookup (rc_handle req) ;;
  match p with
  | None => ret KSMBD_RPC_ENOMEM
  | Some p => on_pipe (rc_handle req) p (pipe_write req)
  end.
Definition rpc_read_request (req : command) (max_resp_sz : Z) : prog server Z :=
  p <- rpc_pipe_lookup (rc_handle req) ;;
  match p with
  | None => ret KSMBD_RPC_EBAD_FID
  | Some p => on_pipe (rc_handle req) p (pipe_read req max_resp_sz)
  end.
Definition rpc_ioctl_request (req : command) (max_resp_sz : Z) : prog server Z :=
  if Z.of_nat (length (rc_payload req)) <? dcerpc_header_sz then ret KSMBD_RPC_EBAD_DATA
  else
    p <- rpc_pipe_lookup (rc_handle req) ;;
    match p with
    | None => ret KSMBD_RPC_EBAD_FID
    | Some p => on_pipe (rc_handle req) p (pipe_ioctl req max_resp_sz)
    end.
Definition rpc_state_request (req : command) (max_resp_sz : Z) : prog server (Z * list Z) :=
  if max_resp_sz <? 16 + 16 then ret (KSMBD_RPC_EMORE_DATA, [])
  else
    p <- rpc_pipe_lookup (rc_handle req) ;;
    match p with
    | None => ret (KSMBD_RPC_EBAD_FID, [])
    | Some p => on_pipe (rc_handle req) p (pipe_state max_resp_sz)
    end.
(** [__clear_pipes_table] *)
Definition __clear_pipes_table : prog server unit :=
  s <- get ;;
  for_each (map_to_list (sv_pipes s)) (λ x,
    match x.2 with Some p => on_pipe x.1 p rpc_pipe_reset | None => fault end) ;;
  upd_pipes (λ _, ∅).
End Requests.

(** ** Programs that keep an invariant

    [rsafe I E m]: from a state in [I], [m] does not fault, ends in [I], and
    its error codes are in [E]. *)
Definition rsafe {T : Type} (I : rpc → Prop) (E : Z → Prop) (m : prog rpc T) : Prop :=
  ∀ r, I r → wp m r (λ _, I) (λ e r', I r' ∧ E e).
Definition any_code (e : Z) : Prop := True.

Section RSafe.
Context {I : rpc → Prop} {E : Z → Prop}.
Lemma rsafe_ret {T : Type} (a : T) : rsafe I E (ret a).
Proof. intros r Hr. by wp_step. Qed.
Lemma rsafe_fail {T : Type} e : E e → rsafe I E (fail (A:=T) e).
Proof. intros He r Hr. by wp_step. Qed.
Lemma rsafe_bind {T U : Type} (m : prog rpc T) (k : T → prog rpc U) :
  rsafe I E m → (∀ a, rsafe I E (k a)) → rsafe I E (bind m k).
Proof. intros Hm Hk r Hr. wp_step. wp_by (by apply Hm); [|done]. intros a r' Hr'. by apply Hk. Qed.
Lemma rsafe_get_bind {T : Type} (k : rpc → prog rpc T) :
  (∀ r, I r → rsafe I E (k r)) → rsafe I E (bind get k).
Proof. intros Hk r Hr. do 2 wp_step. by apply Hk. Qed.
Lemma rsafe_or_return {T : Type} (m : prog rpc T) e : rsafe I any_code m → E e → rsafe I E (or_return m e).
Proof. intros Hm He r Hr. wp_step. wp_by (by apply Hm); [done|by intros ? ? []]. Qed.
Lemma rsafe_attempt {T : Type} (m : prog rpc T) : rsafe I any_code m → rsafe I E (attempt m).
Proof. intros Hm r Hr. wp_step. wp_by (by apply Hm); [done|by intros ? ? []]. Qed.
Lemma rsafe_code_of (m : prog rpc unit) : rsafe I any_code m → rsafe I E (code_of m).
Proof. intros Hm. apply rsafe_bind; [by apply rsafe_attempt|intros ?; apply rsafe_ret]. Qed.
Lemma rsafe_for_each {T : Type} (l : list T) f : (∀ x, x ∈ l → rsafe I E (f x)) → rsafe I E (for_each l f).
Proof.
  induction l as [|x l IH]; intros Hf; cbn [for_each]; [apply rsafe_ret|].
  apply rsafe_bind; [apply Hf; set_solver|intros _]. apply IH. set_solver.
Qed.
Lemma rsafe_modify f : (∀ r, I r → I (f r)) → rsafe I E (modify f).
Proof. intros Hf r Hr. wp_step. by apply Hf. Qed.
Lemma rsafe_bits w off width : is_raw w → rsafe I E (get_bits w off width).
Proof. destruct w; [intros _; apply rsafe_ret|done..]. Qed.
Lemma rsafe_string w : string_word w → rsafe I E (string_at w).
Proof. destruct w; cbn; [intros ->; apply rsafe_ret|intros _; apply rsafe_ret|done..]. Qed.
End RSafe.
(** Freeing what a word points to, and then overwriting the word. *)
Definition freeable (w : word) : Prop := match w with Raw v => v = 0 | Str _ | Contexts _ => True | Wild => False end.
Lemma string_freeable w : string_word w → freeable w.
Proof. by destruct w. Qed.
Lemma free_at_wp word_at with_word f r (Q : unit → rpc → Prop) E :
  freeable (word_at (d_req (r_dce r))) → (∀ w q, f (with_word w q) = f q) →
  wp (upd_req f) r Q E → wp (free_at word_at with_word) r (λ _ r', wp (upd_req f) r' Q E) E.
Proof.
  intros Hf Hw Hq. unfold free_at. do 2 wp_step. destruct (word_at _); cbn in Hf; [subst; done| | |done];
    unfold upd_req, upd_dce, upd_pipe in *; do 2 apply wp_modify; cbn; by rewrite Hw.
Qed.
Lemma free_at_bind_wp word_at with_word f (k : unit → prog rpc unit) r (Q : unit → rpc → Prop) E :
  freeable (word_at (d_req (r_dce r))) → (∀ w q, f (with_word w q) = f q) →
  wp (upd_req f) r (λ a r', wp (k a) r' Q E) E → wp (free_at word_at with_word ;; a <- upd_req f ;; k a) r Q E.
Proof. intros Hf Hw Hq. wp_step. wp_by (by apply (free_at_wp _ _ f)); [|done]. intros _ r' Hr. by wp_step. Qed.
Lemma rsafe_weaken {T : Type} I (E E' : Z → Prop) (m : prog rpc T) :
  rsafe I E m → (∀ e, E e → E' e) → rsafe I E' m.
Proof. intros Hm He r Hr. wp_by (by apply Hm); [done|]. intros e r' []. split; auto. Qed.

(** The same, with what is known of the value. *)
Definition rsafe_val {T : Type} (I : rpc → Prop) (E : Z → Prop) (V : T → Prop) (m : prog rpc T) : Prop :=
  ∀ r, I r → wp m r (λ a r', I r' ∧ V a) (λ e r', I r' ∧ E e).
Section RSafeVal.
Context {I : rpc → Prop} {E : Z → Prop}.
Lemma rsafe_val_ret {T : Type} (V : T → Prop) a : V a → rsafe_val I E V (ret a).
Proof. intros HV r Hr. by wp_step. Qed.
Lemma rsafe_val_bind {T S : Type} (V : T → Prop) (W : S → Prop) (m : prog rpc T) (k : T → prog rpc S) :
  rsafe_val I E V m → (∀ a, V a → rsafe_val I E W (k a)) → rsafe_val I E W (bind m k).
Proof. intros Hm Hk r Hr. wp_step. wp_by (by apply Hm); [|done]. intros a r' []. by apply Hk. Qed.
Lemma rsafe_val_else {T : Type} (V : T → Prop) (m : prog rpc T) e :
  rsafe_val I any_code V m → E e → rsafe_val I E V (or_return m e).
Proof. intros Hm He r Hr. wp_step. wp_by (by apply Hm); [done|by intros ? ? []]. Qed.
Lemma rsafe_val_fail {T : Type} (V : T → Prop) e : E e → rsafe_val I E V (fail e).
Proof. intros He r Hr. by wp_step. Qed.
Lemma rsafe_of_val {T : Type} (V : T → Prop) (m : prog rpc T) : rsafe_val I E V m → rsafe I E m.
Proof. intros Hm r Hr. wp_by (by apply Hm); [by intros ? ? []|done]. Qed.
(** A value that is known can be used by what follows. *)
Lemma rsafe_bind_val {T S : Type} (V : T → Prop) (m : prog rpc T) (k : T → prog rpc S) :
  rsafe_val I E V m → (∀ a, V a → rsafe I E (k a)) → rsafe I E (bind m k).
Proof. intros Hm Hk r Hr. wp_step. wp_by (by apply Hm); [|done]. intros a r' []. by apply Hk. Qed.
End RSafeVal.

(** A statement that keeps an invariant, before others that do not. *)
Lemma wp_rsafe {T S : Type} (I : rpc → Prop) (E : Z → Prop) (m : prog rpc T) (k : T → prog rpc S) r Q F :
  rsafe I E m → I r → (∀ e r', I r' → E e → F e r') → (∀ a r', I r' → wp (k a) r' Q F) → wp (bind m k) r Q F.
Proof. intros Hm Hr HF Hk. wp_step. wp_by (by apply Hm); [done|]. intros e r' []. by apply HF. Qed.
Lemma wp_rsafe_val {T S : Type} (I : rpc → Prop) (E : Z → Prop) (V : T → Prop) (m : prog rpc T) (k : T → prog rpc S) r Q F :
  rsafe_val I E V m → I r → (∀ e r', I r' → E e → F e r') →
  (∀ a r', I r' → V a → wp (k a) r' Q F) → wp (bind m k) r Q F.
Proof. intros Hm Hr HF Hk. wp_step. wp_by (by apply Hm); [intros a r' []; by apply Hk|]. intros e r' []. by apply HF. Qed.

Ltac rsafe_step :=
  match goal with
  | |- rsafe _ _ (bind get _) => apply rsafe_get_bind; intros ? ?
  | |- rsafe _ _ (bind _ _) => apply rsafe_bind; [|intros ?]
  | |- rsafe _ _ (ret _) => apply rsafe_ret
  | |- rsafe _ _ (fail _) => apply rsafe_fail; solve [eauto 2 with ksmbd]
  | |- rsafe _ _ (or_return _ _) => apply rsafe_or_return; [|solve [eauto 2 with ksmbd]]
  | |- rsafe _ _ (attempt _) => apply rsafe_attempt
  | |- rsafe _ _ (code_of _) => apply rsafe_code_of
  | |- rsafe _ _ (for_each _ _) => apply rsafe_for_each; intros ? ?
  | |- rsafe _ _ (if ?b then _ else _) => destruct b eqn:?
  | |- rsafe _ _ (match ?x with _ => _ end) => destruct x eqn:?
  | |- rsafe _ _ (let _ := _ in _) => cbv zeta
  | |- rsafe _ _ _ => solve [eauto 4 with ksmbd]
  end.
Ltac rsafes := repeat rsafe_step.
(** Error codes that end a request. *)
Definition final_code (e : Z) : Prop := e ≠ KSMBD_RPC_EMORE_DATA.
Lemma any_code_all e : any_code e.
Proof. done. Qed.
#[export] Hint Extern 1 (final_code _) => (unfold final_code; vm_compute; congruence) : ksmbd.
#[export] Hint Resolve any_code_all : ksmbd.
(** Setting or clearing a flag of the handle leaves the others. *)
Ltac flag_other :=
  intros ?; unfold KSMBD_DCERPC_ALIGN4, KSMBD_DCERPC_LITTLE_ENDIAN, KSMBD_DCERPC_FIXED_PAYLOAD_SZ,
    KSMBD_DCERPC_RETURN_READY, KSMBD_DCERPC_EXTERNAL_PAYLOAD in *;
  (rewrite ?test_set_other, ?test_clear_other by done); done.

(** ** Programs on the handle of a pipe

    What is known of the marshalling handle, the headers and the union of a
    pipe, beside something else ([Own]) that programs on the handle do not
    touch. *)
Definition ready (d : dcerpc) : bool := has_flag KSMBD_DCERPC_RETURN_READY d.
(** A cursor of a reply fits an [int]. *)
Lemma cursor_small o : 0 ≤ o ≤ reply_limit → s32 o = o ∧ u64 o = o.
Proof.
  unfold reply_limit. intros Ho. split; [|apply u64_small; lia].
  unfold s32, signed, wrap. change (32 - 1) with 31. rewrite Z.mod_small; lia.
Qed.
(** [reading]: a request is parsed, else a reply is written.  [Hd] and [U] are
    what is known of the headers and of the union. *)
Record dce_inv (reading rdy : bool) (Hd : dcerpc_header → dcerpc_request_header → Prop) (U : request → Prop)
    (r : rpc) : Prop := {
  dv_dce : dce_ok (d_ndr (r_dce r));
  dv_payload : if reading then is_bytes (dce_payload (d_ndr (r_dce r)))
               else payload_sz (d_ndr (r_dce r)) ≤ reply_limit ∧ dce_offset (d_ndr (r_dce r)) ≤ reply_limit;
  dv_ready : ready (d_ndr (r_dce r)) = rdy;
  dv_hdr : Hd (d_hdr (r_dce r)) (d_req_hdr (r_dce r));
  dv_drep : Z.of_nat (length (h_packed_drep (d_hdr (r_dce r)))) ≤ 4;
  dv_req : U (d_req (r_dce r));
  dv_msg : ∃ flags, d_rpc_req (r_dce r) = Message flags;
  dv_consumed : p_ioctl_reply_consumed (r_pipe r) = true → rdy = false;
}.
Record same_own (r r' : rpc) : Prop := {
  so_shares : r_shares r' = r_shares r;
  so_services : r_services r' = r_services r;
  so_id : p_id (r_pipe r') = p_id (r_pipe r);
  so_entries : p_entries (r_pipe r') = p_entries (r_pipe r);
  so_num : p_num_entries (r_pipe r') = p_num_entries (r_pipe r);
  so_processed : p_processed (r_pipe r') = p_processed (r_pipe r);
}.
Class Untouched (Own : rpc → Prop) := untouched r r' : same_own r r' → Own r → Own r'.
Definition any_header (h : dcerpc_header) (rh : dcerpc_request_header) : Prop := True.

Section Handle.
Context `{Allocator} {Own : rpc → Prop} `{!Untouched Own}.
Definition ginv reading rdy Hd U (r : rpc) : Prop := dce_inv reading rdy Hd U r ∧ Own r.
Lemma ginv_weaken reading rdy (Hd Hd' : _ → _ → Prop) (U U' : _ → Prop) r :
  ginv reading rdy Hd U r → (∀ h rh, Hd h rh → Hd' h rh) → (∀ q, U q → U' q) → ginv reading rdy Hd' U' r.
Proof. intros [[] ?] ??. split; [split|]; auto. Qed.
Lemma ginv_same reading rdy Hd U reading' rdy' Hd' U' r r' :
  ginv reading rdy Hd U r → same_own r r' → dce_inv reading' rdy' Hd' U' r' → ginv reading' rdy' Hd' U' r'.
Proof. intros [_ Ho] Hs Hd''. split; [done|]. exact (untouched _ _ Hs Ho). Qed.

Section Keeps.
Context {rdy : bool} {Hd : dcerpc_header → dcerpc_request_header → Prop} {U : request → Prop} {E : Z → Prop}.
Lemma ginv_write {T : Type} (m : prog dcerpc T) :
  safe (appends_in reply_limit) m → rsafe (ginv false rdy Hd U) any_code (ndr m).
Proof.
  intros Hm r Hi. apply wp_zoom.
  assert (∀ n, dce_ok n → appends_in reply_limit (d_ndr (r_dce r)) n → ginv false rdy Hd U
    (mk_rpc (r_shares r) (r_services r) (set_dce (set_ndr n (r_dce r)) (r_pipe r)))) as Hn.
  { intros n Hn [[Hf _ Hl _ _] Hb]. eapply ginv_same; [exact Hi|done|]. destruct Hi as [[? [Hp Ho] Hr] _]. split; try done.
    - cbn. split; [unfold payload_sz in *; by rewrite Hl|auto].
    - unfold ready, has_flag in *. cbn. by rewrite Hf. }
  wp_by (apply Hm, Hi); [by intros a n []; apply Hn|by intros e n []; split; [apply Hn|]].
Qed.
Lemma ginv_moved r n :
  ginv true rdy Hd U r → dce_ok n → moved (d_ndr (r_dce r)) n →
  ginv true rdy Hd U (mk_rpc (r_shares r) (r_services r) (set_dce (set_ndr n (r_dce r)) (r_pipe r))).
Proof.
  intros Hi Hn Hm. eapply ginv_same; [exact Hi|done|]. destruct Hi as [[? Hb Hr] _]. split; try done.
  - cbn. rewrite Hm. exact Hb.
  - cbn. rewrite Hm. exact Hr.
Qed.
Lemma ginv_read {T : Type} (m : prog dcerpc T) : safe moved m → rsafe (ginv true rdy Hd U) any_code (ndr m).
Proof.
  intros Hm r Hi. apply wp_zoom.
  wp_by (apply Hm, Hi); [by intros a n []; apply ginv_moved|by intros e n []; split; [apply ginv_moved|]].
Qed.
(** Readers, with what they are known to return. *)
Lemma ginv_read_value {T : Type} (V : T → Prop) (m : prog dcerpc T) :
  (∀ d, dce_ok d → is_bytes (dce_payload d) →
     wp m d (λ v d', (dce_ok d' ∧ moved d d') ∧ V v) (λ _ d', dce_ok d' ∧ moved d d')) →
  rsafe_val (ginv true rdy Hd U) any_code V (ndr m).
Proof.
  intros Hm r Hi. apply wp_zoom. wp_by (apply Hm; apply Hi).
  - intros v n [[]]. split; [|done]. by apply ginv_moved.
  - intros e n []. split; [by apply ginv_moved|done].
Qed.
Lemma ginv_read_int n : int_width n → rsafe_val (ginv true rdy Hd U) any_code (int_valid n) (ndr (ndr_read_int n)).
Proof.
  intros Hn. apply ginv_read_value. intros d Hd' Hb. wp_by (by apply (ndr_read_int_nonneg n)); [|done].
  by intros v d' (? & ? & ?).
Qed.
Lemma ginv_read_bytes sz :
  0 ≤ sz ≤ 2 ^ 62 →
  rsafe_val (ginv true rdy Hd U) any_code (λ v, Z.of_nat (length v) ≤ sz) (ndr (ndr_read_bytes sz)).
Proof. intros Hsz. apply ginv_read_value. intros d Hd' Hb. by apply ndr_read_bytes_length. Qed.
Lemma ginv_read_vstring g_convert : rsafe (ginv true rdy Hd U) any_code (ndr (ndr_read_vstring g_convert)).
Proof.
  eapply rsafe_of_val, (ginv_read_value (λ _, True)). intros d Hd' Hb.
  wp_by (by apply (ndr_read_vstring_wp g_convert)); done.
Qed.
Lemma ginv_read_uniq_vstring g_convert :
  rsafe (ginv true rdy Hd U) any_code (ndr (ndr_read_uniq_vstring_ptr g_convert)).
Proof.
  eapply rsafe_of_val, (ginv_read_value (λ _, True)). intros d Hd' Hb. unfold ndr_read_uniq_vstring_ptr. do 2 wp_step.
  wp_by (by apply (ndr_read_int_nonneg 4)); [|done]. intros ref d1 (Hd1 & Hm1 & _). destruct (ref =? 0); [by wp_step|].
  do 2 wp_step. wp_by (apply (ndr_read_vstring_wp g_convert); [done|by rewrite Hm1]); intros ? d2 [Hd2 Hm2]; [wp_step; split; [|done]|];
    (split; [done|by trans d1]).
Qed.
End Keeps.

Section Updates.
Context {reading rdy : bool} {Hd : dcerpc_header → dcerpc_request_header → Prop} {U : request → Prop} {E : Z → Prop}.
#[local] Abbreviation G := (ginv reading rdy Hd U).
#[local] Ltac same Hi := eapply ginv_same; [exact Hi|done|].
Lemma ginv_upd_req_wp (V : request → Prop) r f :
  (∀ q, V q → U (f q)) → ginv reading rdy Hd V r → wp (upd_req f) r (λ _, G) (λ _ _, False).
Proof.
  intros Hf Hi. unfold upd_req, upd_dce, upd_pipe. wp_step. same Hi. destruct Hi as [[] _]. split; try done. by apply Hf.
Qed.
Lemma ginv_upd_req f : (∀ q, U q → U (f q)) → rsafe G E (upd_req f).
Proof. intros Hf r Hi. wp_by (by eapply (ginv_upd_req_wp U)); done. Qed.
Lemma ginv_upd_hdr f :
  (∀ h rh, Hd h rh → Hd (f h) rh) → (∀ h, Z.of_nat (length (h_packed_drep h)) ≤ 4 → Z.of_nat (length (h_packed_drep (f h))) ≤ 4) →
  rsafe G E (upd_hdr f).
Proof.
  intros Hf Hl. apply rsafe_modify. intros r Hi. same Hi. destruct Hi as [[] _].
  split; try done; [by apply Hf|by apply Hl].
Qed.
Lemma ginv_upd_req_hdr f :
  (∀ h rh, Hd h rh → Hd h (f rh)) → rsafe G E (upd_dce (λ d, set_req_hdr (f (d_req_hdr d)) d)).
Proof. intros Hf. apply rsafe_modify. intros r Hi. same Hi. destruct Hi as [[] _]. split; try done. by apply Hf. Qed.
Lemma ginv_set_cursor o : 0 ≤ o ≤ reply_limit → rsafe G E (set_cursor o).
Proof.
  intros Hc. apply rsafe_modify. intros r Hi. same Hi. destruct Hi as [[Hok Hp] _]. split; try done.
  - apply dce_ok_set_offset; [done|]. unfold reply_limit in Hc. lia.
  - destruct reading; [done|]. cbn. split; [apply Hp|lia].
Qed.
Lemma ginv_next_pointer : rsafe G E next_pointer.
Proof.
  unfold next_pointer. rsafes. apply rsafe_modify. intros r Hi. same Hi. by destruct Hi as [[] _].
Qed.
Lemma ginv_set_flags f :
  (∀ fl, test_flag fl KSMBD_DCERPC_FIXED_PAYLOAD_SZ = true →
         test_flag (f fl) KSMBD_DCERPC_FIXED_PAYLOAD_SZ = true) →
  (∀ fl, test_flag (f fl) KSMBD_DCERPC_RETURN_READY = test_flag fl KSMBD_DCERPC_RETURN_READY) →
  rsafe G E (set_flags f).
Proof.
  intros Hf1 Hf2. apply rsafe_modify. intros r Hi. same Hi. destruct Hi as [[(? & ? & Hfx) ? Hr] _]. split; try done.
  - split; [done|]. split; [done|]. unfold has_flag in *. cbn. by apply Hf1.
  - unfold ready, has_flag in *. cbn. by rewrite Hf2.
Qed.
Lemma ginv_num_processed b : rsafe G E (upd_pipe (set_num_processed b)).
Proof. apply rsafe_modify. intros r Hi. same Hi. by destruct Hi as [[] _]. Qed.
Lemma ginv_resp_sz f : rsafe G E (upd_dce (λ d, set_resp_payload_sz (f d) d)).
Proof. apply rsafe_modify. intros r Hi. same Hi. by destruct Hi as [[] _]. Qed.
Lemma ginv_dssetup v : rsafe G E (upd_dce (set_dssetup v)).
Proof. apply rsafe_modify. intros r Hi. same Hi. by destruct Hi as [[] _]. Qed.
Lemma ginv_restricted anon : rsafe G E (r <- get ;; rpc_restricted_context anon (d_rpc_req (r_dce r))).
Proof.
  apply rsafe_get_bind. intros r [Hi _]. unfold rpc_restricted_context. rsafe_step; [rsafe_step|].
  destruct (dv_msg _ _ _ _ _ Hi) as [fl ->]. rsafe_step.
Qed.
Lemma ginv_get_bits {w : request → word} off width :
  (∀ q, U q → is_raw (w q)) → rsafe G E (r <- get ;; get_bits (w (d_req (r_dce r))) off width).
Proof. intros Hw. apply rsafe_get_bind. intros r [Hi _]. apply rsafe_bits, Hw, Hi. Qed.
End Updates.

(** The header of a reply, and its buffer. *)
Section Replies.
Context {rdy : bool} {U : request → Prop} {E : Z → Prop}.
#[local] Abbreviation G := (ginv false rdy any_header U).
Lemma dcerpc_hdr_write_in h :
  Z.of_nat (length (h_packed_drep h)) ≤ 4 → safe (appends_in reply_limit) (dcerpc_hdr_write h).
Proof. intros Hl. unfold dcerpc_hdr_write. safes. apply ndr_write_bytes_in; [done|done|lia]. Qed.
Lemma dcerpc_response_hdr_write_in a b c d : safe (appends_in reply_limit) (dcerpc_response_hdr_write a b c d).
Proof. unfold dcerpc_response_hdr_write. safes. Qed.
Lemma ginv_cursor r : G r → 0 ≤ dce_offset (d_ndr (r_dce r)) ≤ reply_limit.
Proof. intros [Hi _]. destruct (dv_payload _ _ _ _ _ Hi) as [_ ?]. destruct (dv_dce _ _ _ _ _ Hi) as [? _]. lia. Qed.
Lemma ginv_bad_data {T : Type} (m : prog dcerpc T) :
  safe (appends_in reply_limit) m → E KSMBD_RPC_EBAD_DATA → rsafe G E (or_bad_data m).
Proof. intros Hm He. apply rsafe_or_return; [|done]. by apply ginv_write. Qed.
Lemma ginv_write_headers status : rsafe G any_code (dcerpc_write_headers status).
Proof.
  unfold dcerpc_write_headers. apply rsafe_get_bind. intros r Hi. cbv zeta.
  destruct (cursor_small _ (ginv_cursor _ Hi)) as [Hs Hu]. rewrite Hs, Hu.
  apply rsafe_bind; [by apply ginv_set_cursor|intros _].
  apply rsafe_bind; [by apply ginv_upd_hdr|intros _].
  apply rsafe_get_bind. intros r1 Hi1. apply rsafe_bind; [|intros _].
  { apply ginv_write, dcerpc_hdr_write_in, Hi1. }
  apply rsafe_bind; [by apply (ginv_upd_req_hdr (λ rh, mk_req_hdr _ (rh_context_id rh) 0))|intros _].
  apply rsafe_get_bind. intros r2 Hi2. apply rsafe_bind; [apply ginv_write, dcerpc_response_hdr_write_in|intros _].
  apply ginv_set_cursor. exact (ginv_cursor _ Hi).
Qed.
Lemma ginv_write_status status : rsafe G any_code (write_status status).
Proof.
  unfold write_status. apply rsafe_bind; [apply rsafe_or_return; [apply ginv_write; safes|done]|intros _].
  apply rsafe_bind; [|intros _; apply ginv_resp_sz]. apply rsafe_or_return; [apply ginv_write_headers|done].
Qed.
Lemma ginv_reply_buffer sz : 0 ≤ sz ≤ reply_limit → rsafe G E (set_reply_buffer sz).
Proof.
  intros Hsz. apply rsafe_modify. intros r Hi. eapply ginv_same; [exact Hi|done|]. destruct Hi as [[? ? Hr] _].
  assert (Z.of_nat (length (replicate (Z.to_nat sz) 0)) = sz) as Hp by (rewrite length_replicate; lia).
  unfold reply_limit in *. split; try done.
  - split; [cbn; lia|]. unfold payload_sz. cbn [r_dce r_pipe p_dce set_dce set_ndr d_ndr dce_payload dcerpc_set_ext_payload].
    split; [rewrite Hp; lia|]. unfold has_flag. cbn. by apply test_set_same.
  - unfold payload_sz, reply_limit. cbn [r_dce r_pipe p_dce set_dce set_ndr d_ndr dce_payload dce_offset dcerpc_set_ext_payload].
    rewrite Hp. lia.
  - unfold ready, has_flag in *. cbn.
    unfold KSMBD_DCERPC_FIXED_PAYLOAD_SZ, KSMBD_DCERPC_EXTERNAL_PAYLOAD, KSMBD_DCERPC_RETURN_READY in *.
    by rewrite !test_set_other by done.
Qed.
End Replies.
End Handle.
#[global] Arguments ginv Own reading rdy Hd U r : clear implicits.

(** ** The invariant of a pipe *)

(** Syntaxes and contexts as the parser makes them. *)
Definition syntax_ok (s : dcerpc_syntax) : Prop :=
  Z.of_nat (length (sy_clock_seq s)) ≤ 2 ∧ Z.of_nat (length (sy_node s)) ≤ 6.
Definition context_ok (c : dcerpc_context) : Prop :=
  cx_transfer_syntaxes c ≠ [] ∧ Forall syntax_ok (cx_transfer_syntaxes c).

(** What the union holds, whatever member was stored last... *)
Record typed (q : request) : Prop := {
  ty_0 : is_raw (q_0 q); ty_8 : is_raw (q_8 q); ty_40 : is_raw (q_40 q);
  ty_24 : string_word (q_24 q); ty_32 : string_word (q_32 q);
}.
(** ... and what [bi_req.num_contexts] and [bi_req.list] see of it: no context
    list, a share information request (whose reference id lies over the list
    pointer), or a list of contexts. *)
Definition num_contexts (w : word) : Z := match w with Raw v => Z.shiftr v 32 mod 2 ^ 8 | _ => 0 end.
Definition no_list (q : request) : Prop := num_contexts (q_8 q) = 0 ∧ q_16 q = Raw 0.
Definition info_request (q : request) : Prop :=
  num_contexts (q_8 q) = 0 ∧ ∃ v, q_16 q = Raw v ∧ 0 ≤ v < 2 ^ 32.
Definition context_list (q : request) : Prop :=
  ∃ l, q_16 q = Contexts l ∧ num_contexts (q_8 q) = Z.of_nat (length l) ∧ Forall context_ok l.
Lemma no_list_info q : no_list q → info_request q.
Proof. intros [Hn Hq]. split; [done|]. by exists 0. Qed.

(** A share that says nothing about hosts. *)
Definition no_hosts (x : share) : Prop := from_option id ∅ (sh_hosts_allow x) = ∅ ∧ from_option id ∅ (sh_hosts_deny x) = ∅.
Definition hosts_free (s : sstate) : Prop := map_Forall (λ _, no_hosts) (ss_heap s).
Lemma hosts_free_same s s' : same_shares s s' → hosts_free s → hosts_free s'.
Proof. intros [_ Hs] Hf p y Hy. destruct (Hs p y Hy) as (x & n & Hx & ->). exact (Hf p x Hx). Qed.

Section PipeInvariant.
Context `{GLib, System, Allocator}.
Hypothesis hash_order_perm : ∀ t, hash_order t ≡ₚ map_to_list t.
(** References held elsewhere *)
Variables uheld sheld : Z → Z.
Hypothesis sheld_pos : ∀ p, 0 ≤ sheld p.

(** [reading]: a request is parsed, else a reply is written.  [Hd], [U] and [K]
    are what is known of the headers, the union and the entries. *)
Record inv (reading rdy : bool) (Hd : dcerpc_header → dcerpc_request_header → Prop)
    (U : request → Prop) (K : Z → list Z → Prop) (r : rpc) : Prop := {
  iv_dce : dce_ok (d_ndr (r_dce r));
  iv_payload : if reading then is_bytes (dce_payload (d_ndr (r_dce r)))
               else payload_sz (d_ndr (r_dce r)) ≤ reply_limit ∧ dce_offset (d_ndr (r_dce r)) ≤ reply_limit;
  iv_ready : ready (d_ndr (r_dce r)) = rdy;
  iv_hdr : Hd (d_hdr (r_dce r)) (d_req_hdr (r_dce r));
  iv_drep : Z.of_nat (length (h_packed_drep (d_hdr (r_dce r)))) ≤ 4;
  iv_typed : typed (d_req (r_dce r));
  iv_req : U (d_req (r_dce r));
  iv_msg : ∃ flags, d_rpc_req (r_dce r) = Message flags;
  iv_consumed : p_ioctl_reply_consumed (r_pipe r) = true → rdy = false;
  iv_entries : 0 ≤ p_num_entries (r_pipe r) ≤ Z.of_nat (length (p_entries (r_pipe r)));
  iv_known : K (p_num_entries (r_pipe r)) (p_entries (r_pipe r));
  iv_shares : shares_ok uheld (λ q, sheld q + count q (p_entries (r_pipe r))) (r_shares r);
  iv_hosts : hosts_free (r_shares r);
  iv_callback : p_processed (r_pipe r) ≠ Some NamesProcessed;
}.
Lemma inv_weaken reading rdy (Hd Hd' : _ → _ → Prop) (U U' : _ → Prop) (K K' : _ → _ → Prop) r :
  inv reading rdy Hd U K r → (∀ h rh, Hd h rh → Hd' h rh) → (∀ q, typed q → U q → U' q) →
  (∀ n l, K n l → K' n l) → inv reading rdy Hd' U' K' r.
Proof. intros [] ???. split; eauto. Qed.

Definition any_entries (n : Z) (l : list Z) : Prop := True.
(** The part of the invariant that is about the entries. *)
Record held (K : Z → list Z → Prop) (r : rpc) : Prop := {
  he_entries : 0 ≤ p_num_entries (r_pipe r) ≤ Z.of_nat (length (p_entries (r_pipe r)));
  he_known : K (p_num_entries (r_pipe r)) (p_entries (r_pipe r));
  he_shares : shares_ok uheld (λ q, sheld q + count q (p_entries (r_pipe r))) (r_shares r);
  he_hosts : hosts_free (r_shares r);
  he_callback : p_processed (r_pipe r) ≠ Some NamesProcessed;
}.
#[export] Instance held_untouched K : Untouched (held K).
Proof. intros r r' [Hs _ _ He Hn Hp] []. split; by rewrite ?Hs, ?He, ?Hn, ?Hp. Qed.
Lemma inv_split reading rdy Hd U K r :
  inv reading rdy Hd U K r ↔ ginv (held K) reading rdy Hd (λ q, typed q ∧ U q) r.
Proof. split; [intros []; split; split; auto|intros [[? ? ? ? ? [] ? ?] []]; by split]. Qed.
Section Inherit.
Context {reading rdy : bool} {Hd : dcerpc_header → dcerpc_request_header → Prop} {U : request → Prop}
  {K : Z → list Z → Prop} {E : Z → Prop}.
#[local] Abbreviation G := (ginv (held K) reading rdy Hd (λ q, typed q ∧ U q)).
Lemma rsafe_inv {T : Type} (m : prog rpc T) : rsafe G E m → rsafe (inv reading rdy Hd U K) E m.
Proof.
  intros Hm r Hi%inv_split. wp_by (by apply Hm); [intros _ r'|intros e r' [Hi' ?]; split; [|done]; revert Hi']; apply inv_split.
Qed.
Lemma rsafe_val_inv {T : Type} (V : T → Prop) (m : prog rpc T) : rsafe_val G E V m → rsafe_val (inv reading rdy Hd U K) E V m.
Proof. intros Hm r Hi%inv_split. wp_by (by apply Hm); intros ? r' [Hi' ?]; (split; [by apply inv_split|done]). Qed.
End Inherit.

Section Keeps.
Context {rdy : bool} {Hd : dcerpc_header → dcerpc_request_header → Prop} {U : request → Prop}
  {K : Z → list Z → Prop} {E : Z → Prop}.

Lemma rsafe_write {T : Type} (m : prog dcerpc T) :
  safe (appends_in reply_limit) m → rsafe (inv false rdy Hd U K) any_code (ndr m).
Proof. intros. by apply rsafe_inv, ginv_write. Qed.
Lemma inv_moved r n :
  inv true rdy Hd U K r → dce_ok n → moved (d_ndr (r_dce r)) n →
  inv true rdy Hd U K (mk_rpc (r_shares r) (r_services r) (set_dce (set_ndr n (r_dce r)) (r_pipe r))).
Proof. intros Hi%inv_split ??. by apply inv_split, ginv_moved. Qed.
Lemma rsafe_read {T : Type} (m : prog dcerpc T) : safe moved m → rsafe (inv true rdy Hd U K) any_code (ndr m).
Proof. intros. by apply rsafe_inv, ginv_read. Qed.
Lemma rsafe_read_int n :
  int_width n → E (- EINVAL) → rsafe_val (inv true rdy Hd U K) E (int_valid n) (read_else_einval (ndr_read_int n)).
Proof. intros. by apply rsafe_val_inv, rsafe_val_else; [apply ginv_read_int|]. Qed.
Lemma rsafe_read_bytes sz :
  0 ≤ sz ≤ 2 ^ 62 → E (- EINVAL) →
  rsafe_val (inv true rdy Hd U K) E (λ v, Z.of_nat (length v) ≤ sz) (read_else_einval (ndr_read_bytes sz)).
Proof. intros. by apply rsafe_val_inv, rsafe_val_else; [apply ginv_read_bytes|]. Qed.
End Keeps.

Section Updates.
Context {reading rdy : bool} {Hd : dcerpc_header → dcerpc_request_header → Prop} {U : request → Prop}
  {K : Z → list Z → Prop} {E : Z → Prop}.
#[local] Abbreviation I := (inv reading rdy Hd U K).

Lemma rsafe_upd_req f : (∀ q, typed q → U q → typed (f q) ∧ U (f q)) → rsafe I E (upd_req f).
Proof. intros Hf. apply rsafe_inv, ginv_upd_req. intros q []. by apply Hf. Qed.
Lemma upd_req_wp (V : request → Prop) r f :
  (∀ q, typed q → V q → typed (f q) ∧ U (f q)) → inv reading rdy Hd V K r → wp (upd_req f) r (λ _, I) (λ _ _, False).
Proof.
  intros Hf Hi%inv_split. wp_by (eapply (ginv_upd_req_wp (U:=λ q, typed q ∧ U q)); [|exact Hi]; intros q []; by apply Hf); [|done].
  intros _ r'. apply inv_split.
Qed.
Lemma rsafe_upd_hdr f :
  (∀ h rh, Hd h rh → Hd (f h) rh) → (∀ h, Z.of_nat (length (h_packed_drep h)) ≤ 4 → Z.of_nat (length (h_packed_drep (f h))) ≤ 4) →
  rsafe I E (upd_hdr f).
Proof. intros. by apply rsafe_inv, ginv_upd_hdr. Qed.
Lemma rsafe_upd_req_hdr f :
  (∀ h rh, Hd h rh → Hd h (f rh)) → rsafe I E (upd_dce (λ d, set_req_hdr (f (d_req_hdr d)) d)).
Proof. intros. by apply rsafe_inv, ginv_upd_req_hdr. Qed.
Lemma rsafe_set_cursor o : 0 ≤ o ≤ reply_limit → rsafe I E (set_cursor o).
Proof. intros. by apply rsafe_inv, ginv_set_cursor. Qed.
Lemma rsafe_next_pointer : rsafe I E next_pointer.
Proof. apply rsafe_inv, ginv_next_pointer. Qed.
Lemma rsafe_set_flags f :
  (∀ fl, test_flag fl KSMBD_DCERPC_FIXED_PAYLOAD_SZ = true →
         test_flag (f fl) KSMBD_DCERPC_FIXED_PAYLOAD_SZ = true) →
  (∀ fl, test_flag (f fl) KSMBD_DCERPC_RETURN_READY = test_flag fl KSMBD_DCERPC_RETURN_READY) →
  rsafe I E (set_flags f).
Proof. intros. by apply rsafe_inv, ginv_set_flags. Qed.
Lemma rsafe_processed b : b ≠ Some NamesProcessed → rsafe I E (upd_pipe (set_processed b)).
Proof. intros Hb. apply rsafe_modify. intros r []. by split. Qed.
Lemma rsafe_num_processed b : rsafe I E (upd_pipe (set_num_processed b)).
Proof. apply rsafe_inv, ginv_num_processed. Qed.
Lemma rsafe_resp_sz f : rsafe I E (upd_dce (λ d, set_resp_payload_sz (f d) d)).
Proof. apply rsafe_inv, ginv_resp_sz. Qed.
Lemma rsafe_dssetup v : rsafe I E (upd_dce (set_dssetup v)).
Proof. apply rsafe_inv, ginv_dssetup. Qed.
Lemma rsafe_restricted anon : rsafe I E (r <- get ;; rpc_restricted_context anon (d_rpc_req (r_dce r))).
Proof. apply rsafe_inv, ginv_restricted. Qed.
End Updates.

(** *** Entries *)
(** What the programs that work on the entries do not touch. *)
Record same_dce (r r' : rpc) : Prop := {
  sd_dce : r_dce r' = r_dce r;
  sd_consumed : p_ioctl_reply_consumed (r_pipe r') = true → p_ioctl_reply_consumed (r_pipe r) = true;
}.
#[local] Instance same_dce_trans : Transitive same_dce.
Proof. intros r1 r2 r3 [] []. split; [congruence|auto]. Qed.
#[local] Instance same_dce_refl : Reflexive same_dce.
Proof. by split. Qed.
Lemma inv_held reading rdy Hd U K r : inv reading rdy Hd U K r → held K r.
Proof. by intros []; split. Qed.
Lemma held_inv reading rdy Hd U K K' r r' :
  inv reading rdy Hd U K r → held K' r' → same_dce r r' → inv reading rdy Hd U K' r'.
Proof. intros [] [] [E HE]. split; try rewrite E; auto. Qed.
Lemma held_weaken (K K' : Z → list Z → Prop) r : held K r → (∀ n l, K n l → K' n l) → held K' r.
Proof. intros [] HK. split; auto. Qed.

Lemma rsafe_load {reading rdy Hd U} {E : Z → Prop} K l p :
  (∀ n l', K n l' → l' = l) → p ∈ l → rsafe (inv reading rdy Hd U K) E (share_op (sload p)).
Proof.
  intros Hl Hp r Hi. apply wp_zoom. destruct (shares_ok_live _ _ _ p (iv_shares _ _ _ _ _ _ Hi)) as [x Hx].
  { rewrite (Hl _ _ (iv_known _ _ _ _ _ _ Hi)). pose proof (count_pos p l Hp). specialize (sheld_pos p). lia. }
  eapply wp_load; [exact Hx|]. by destruct r.
Qed.
(** The first entry is given back. *)
Lemma share_entry_processed_wp k r :
  0 ≤ k → held (λ n _, k + 1 ≤ n) r →
  wp __share_entry_processed r (λ _ r', held (λ n _, k ≤ n) r' ∧ same_dce r r') (λ _ _, False).
Proof.
  intros Hk Hi. unfold __share_entry_processed. do 2 wp_step. wp_step. unfold upd_pipe. wp_step.
  apply wp_zoom. destruct Hi as [[Hn1 Hn2] Hn Hs Hh Hcb]. cbn [r_shares].
  destruct (p_entries (r_pipe r)) as [|p l] eqn:El; [cbn in Hn2; lia|].
  wp_by (apply (put_share_same hash_order_perm uheld (λ q, sheld q + count q l) _ (Some p));
    [eapply shares_ok_ext; [done| |exact Hs]; intros q; cbn [refs]; counts
    |intros q; pose proof (count_nonneg q l); specialize (sheld_pos q); lia]); [|done].
  intros _ s' [Hs' Hsame]. split; [|done]. split; cbn.
  - cbn [length] in *. rewrite drop_0. lia.
  - lia.
  - exact Hs'.
  - by eapply hosts_free_same.
  - exact Hcb.
Qed.
Lemma entries_processed_wp k r :
  0 ≤ k → held (λ n _, k ≤ n) r →
  wp (entries_processed k ShareProcessed) r (λ _ r', held any_entries r' ∧ same_dce r r') (λ _ _, False).
Proof.
  intros Hk. rewrite <-(Z2Nat.id k Hk). unfold entries_processed. rewrite Nat2Z.id.
  generalize (Z.to_nat k). clear k Hk. intros n. revert r. induction n as [|n IH]; intros r Hi; cbn [replicate for_each].
  - wp_step. split; [by eapply held_weaken|done].
  - wp_step. wp_by (apply (share_entry_processed_wp (Z.of_nat n)); [lia|];
      eapply held_weaken; [exact Hi|intros; cbv beta in *; lia]); [|done].
    intros _ r' [Hi' Hd']. wp_by (by apply IH); [|done]. intros _ r2 []. split; [done|by trans r'].
Qed.
Lemma all_processed_wp k r :
  0 ≤ k → held (λ n _, k ≤ n) r →
  wp (all_processed k) r (λ _ r', held any_entries r' ∧ same_dce r r') (λ _ _, False).
Proof.
  intros Hk Hi. unfold all_processed. do 2 wp_step. pose proof (he_callback _ _ Hi) as Hc.
  destruct p_processed as [[]|]; [by apply entries_processed_wp|done|].
  wp_step. split; [by eapply held_weaken|done].
Qed.
Lemma rpc_pipe_reset_wp r :
  held any_entries r →
  wp rpc_pipe_reset r (λ _ r', held (λ n _, n = 0) r' ∧ same_dce r r') (λ _ _, False).
Proof.
  intros Hi. unfold rpc_pipe_reset. do 3 wp_step.
  apply (wp_mono _ _ (λ _ r', held any_entries r' ∧ same_dce r r') _ (λ _ _, False)); [|..|done].
  - apply all_processed_wp; [apply Hi|]. by destruct Hi; split.
  - intros _ r' [[] []]. unfold upd_pipe. wp_step. split; split; try done. cbn. lia.
Qed.
Lemma inv_reset_wp {reading rdy Hd U} r :
  inv reading rdy Hd U any_entries r →
  wp rpc_pipe_reset r (λ _, inv reading rdy Hd U (λ n _, n = 0)) (λ _ _, False).
Proof.
  intros Hi. wp_by (eapply rpc_pipe_reset_wp, inv_held, Hi); [|done]. intros _ r' []. by eapply held_inv.
Qed.
Lemma rsafe_reset {reading rdy Hd U} {E : Z → Prop} : rsafe (inv reading rdy Hd U any_entries) E rpc_pipe_reset.
Proof.
  intros r Hi. wp_by (eapply inv_reset_wp, Hi); [|done]. intros _ r' Hi'. by eapply inv_weaken.
Qed.

(** *** Arrays *)
Section Arrays.
Context {rdy : bool} {Hd : dcerpc_header → dcerpc_request_header → Prop} {U : request → Prop}
  {E : Z → Prop}.
#[local] Abbreviation I K := (inv false rdy Hd U K).
(** Writing the first [n] entries. *)
Lemma rsafe_write_entries n l f :
  0 ≤ n ≤ Z.of_nat (length l) → E KSMBD_RPC_EBAD_DATA →
  (∀ p, p ∈ l → rsafe (I (λ m l', m = n ∧ l' = l)) any_code (f p)) →
  rsafe (I (λ m l', m = n ∧ l' = l)) E (write_entries f n).
Proof.
  intros Hn He Hf. unfold write_entries. apply rsafe_get_bind; intros r0 Hi0.
  destruct (iv_known _ _ _ _ _ _ Hi0) as [_ ->]. apply rsafe_for_each. intros i Hin.
  apply elem_of_seq in Hin. destruct (l !! i) as [p|] eqn:Ep.
  - apply rsafe_or_return; [|done]. apply Hf. by eapply list_elem_of_lookup_2.
  - apply lookup_ge_None in Ep. lia.
Qed.
(** Writing all of the entries, which are then given back. *)
Lemma write_array_wp rep data r :
  (∀ l n p, p ∈ l → rsafe (I (λ m l', m = n ∧ l' = l)) any_code (rep p)) →
  (∀ l n p, p ∈ l → rsafe (I (λ m l', m = n ∧ l' = l)) any_code (data p)) →
  E KSMBD_RPC_EBAD_DATA → I any_entries r →
  wp (__ndr_write_array_of_structs rep data (p_num_entries (r_pipe r))) r
     (λ _, I any_entries) (λ e r', I any_entries r' ∧ E e).
Proof.
  intros Hrep Hdata He Hi. set (n := p_num_entries (r_pipe r)). set (l := p_entries (r_pipe r)).
  assert (I (λ m l', m = n ∧ l' = l) r) as Hi1 by (destruct Hi; by split).
  assert (∀ r', I (λ m l', m = n ∧ l' = l) r' → I any_entries r') as Hw by (intros; by eapply inv_weaken).
  destruct (iv_entries _ _ _ _ _ _ Hi) as [Hn1 Hn2].
  unfold __ndr_write_array_of_structs. wp_step.
  wp_by (by apply (rsafe_write_entries n l rep); eauto); [|intros e r' []; auto]. intros _ r1 H1'.
  wp_step. wp_by (by apply (rsafe_write_entries n l data); eauto); [|intros e r' []; auto]. intros _ r2 H2'.
  wp_by (eapply (all_processed_wp n); [exact Hn1|]; eapply held_weaken; [eapply inv_held, H2'|by intros ? ? [-> _]]);
    [|by intros ? ? []]. intros _ r3 []. by eapply held_inv.
Qed.
End Arrays.

(** *** Headers *)
Lemma write_syntax_in s : syntax_ok s → safe (appends_in reply_limit) (__dcerpc_write_syntax s).
Proof.
  intros [? ?]. unfold __dcerpc_write_syntax. safes; (apply ndr_write_bytes_in; [done|done|lia]).
Qed.
Section Headers.
Context {U : request → Prop} {K : Z → list Z → Prop}.
#[local] Abbreviation I reading rdy := (inv reading rdy any_header U K).

Lemma inv_cursor rdy r : I false rdy r → 0 ≤ dce_offset (d_ndr (r_dce r)) ≤ reply_limit.
Proof. intros Hi. destruct (iv_payload _ _ _ _ _ _ Hi) as [_ ?]. destruct (iv_dce _ _ _ _ _ _ Hi) as [? _]. lia. Qed.
Lemma rsafe_bad_data rdy (E : Z → Prop) {T : Type} (m : prog dcerpc T) :
  safe (appends_in reply_limit) m → E KSMBD_RPC_EBAD_DATA → rsafe (I false rdy) E (or_bad_data m).
Proof. intros Hm He. apply rsafe_or_return; [|done]. by apply rsafe_write. Qed.
Lemma rsafe_reply_hdr reading rdy (E : Z → Prop) pt pf fl : rsafe (I reading rdy) E (upd_hdr (reply_hdr pt pf fl)).
Proof. by apply rsafe_upd_hdr. Qed.
Lemma rsafe_write_headers rdy status : rsafe (I false rdy) any_code (dcerpc_write_headers status).
Proof. apply rsafe_inv, ginv_write_headers. Qed.
Lemma rsafe_finish_reply rdy ptype : rsafe (I false rdy) any_code (finish_reply ptype).
Proof.
  unfold finish_reply. apply rsafe_get_bind. intros r Hi. cbv zeta.
  destruct (cursor_small _ (inv_cursor _ _ Hi)) as [Hs Hu]. rewrite Hs, Hu.
  apply rsafe_bind; [by apply rsafe_set_cursor|intros _].
  apply rsafe_bind; [apply rsafe_reply_hdr|intros _].
  apply rsafe_get_bind. intros r1 Hi1. apply rsafe_bind; [|intros _].
  { apply rsafe_bad_data; [apply dcerpc_hdr_write_in, Hi1|done]. }
  apply rsafe_bind; [apply rsafe_set_cursor; exact (inv_cursor _ _ Hi)|intros _].
  apply (rsafe_resp_sz (λ _, _)).
Qed.
Lemma rsafe_store_hdr rdy f :
  (∀ h, h_packed_drep (f h) = h_packed_drep h) → rsafe (I true rdy) any_code (upd_hdr f).
Proof. intros Hf. apply rsafe_upd_hdr; [done|]. intros h. by rewrite Hf. Qed.
Lemma rsafe_any_int rdy (n : nat) : int_width n → rsafe (I true rdy) any_code (read_else_einval (ndr_read_int n)).
Proof. intros Hn. eapply rsafe_of_val, rsafe_read_int; done. Qed.
Lemma rsafe_hdr_read rdy : rsafe (I true rdy) any_code dcerpc_hdr_read.
Proof.
  unfold dcerpc_hdr_read.
  do 4 (apply rsafe_bind; [apply rsafe_any_int; apply _|intros ?]; apply rsafe_bind; [by apply rsafe_store_hdr|intros _]).
  eapply rsafe_bind_val; [by apply rsafe_read_bytes|intros drep Hdrep; cbv beta in Hdrep].
  apply rsafe_bind; [by apply rsafe_upd_hdr|intros _].
  apply rsafe_bind; [apply rsafe_set_flags; flag_other|intros _].
  apply rsafe_bind; [apply rsafe_set_flags; flag_other|intros _].
  apply rsafe_bind; [|intros _].
  { destruct negb; [|apply rsafe_ret]. apply rsafe_set_flags; flag_other. }
  do 3 (apply rsafe_bind; [apply rsafe_any_int; apply _|intros ?]). by apply rsafe_store_hdr.
Qed.
Lemma rsafe_request_hdr_read rdy P :
  rsafe (inv true rdy (λ h _, P h) U K) any_code dcerpc_request_hdr_read.
Proof.
  unfold dcerpc_request_hdr_read.
  do 3 (eapply rsafe_bind; [eapply rsafe_of_val, (rsafe_read_int _); [apply _|done]|intros ?]).
  by apply (rsafe_upd_req_hdr (λ _, _)).
Qed.
End Headers.

(** *** Words of the union *)
Lemma num_contexts_set_low w v : num_contexts (set_bits w 0 32 v) = num_contexts w.
Proof.
  destruct w as [x| | |]; cbn [set_bits num_contexts]; [|done..]. rewrite !shiftr_div by lia. f_equal.
  rewrite Z.div_1_r, !Z.mul_1_r. pose proof (Z.div_mod x (2 ^ 32)). pose proof (Z.mod_pos_bound v (2 ^ 32)).
  symmetry. apply (Z.div_unique _ _ _ (v mod 2 ^ 32)); lia.
Qed.
Lemma num_contexts_set w v : is_raw w → num_contexts (set_bits w 32 8 v) = v mod 2 ^ 8.
Proof.
  destruct w as [x| | |]; cbn [set_bits num_contexts]; [intros _|done..]. rewrite !shiftr_div by lia.
  replace (x - x / 2 ^ 32 mod 2 ^ 8 * 2 ^ 32 + v mod 2 ^ 8 * 2 ^ 32)
    with (x + (v mod 2 ^ 8 - x / 2 ^ 32 mod 2 ^ 8) * 2 ^ 32) by lia.
  rewrite Z.div_add by done. set (y := x / 2 ^ 32).
  rewrite Z.add_sub_assoc, Z.add_comm, Zminus_mod_idemp_r.
  by rewrite Z.add_simpl_r, Z.mod_mod.
Qed.
Lemma is_raw_set_bits w off width v : is_raw w → is_raw (set_bits w off width v).
Proof. by destruct w. Qed.

Lemma typed_with_0 q off width v : typed q → typed (with_0 (set_bits (q_0 q) off width v) q).
Proof. intros []. split; try done. by apply is_raw_set_bits. Qed.
Lemma typed_with_8 q off width v : typed q → typed (with_8 (set_bits (q_8 q) off width v) q).
Proof. intros []. split; try done. by apply is_raw_set_bits. Qed.

(** *** Binding *)
Section Bind.
Hypothesis small_requests : ∀ n, n ≤ 255 * dcerpc_context_sz → g_try_malloc n = true.

Section Parse.
Context {rdy : bool} {Hd : dcerpc_header → dcerpc_request_header → Prop} {K : Z → list Z → Prop}.
#[local] Abbreviation I U := (inv true rdy Hd U K).

Lemma rsafe_read_syntax U : rsafe_val (I U) any_code syntax_ok __dcerpc_read_syntax.
Proof.
  unfold __dcerpc_read_syntax.
  do 3 (eapply rsafe_val_bind; [apply (rsafe_read_int _); [apply _|done]|intros ? _]).
  do 2 (eapply rsafe_val_bind; [by apply rsafe_read_bytes|intros ? ?; cbv beta in *]).
  do 2 (eapply rsafe_val_bind; [apply (rsafe_read_int _); [apply _|done]|intros ? _]).
  by apply rsafe_val_ret.
Qed.
Lemma rsafe_read_syntaxes U n :
  rsafe_val (I U) any_code (λ l, length l = n ∧ Forall syntax_ok l) (read_syntaxes n).
Proof.
  induction n as [|n IH]; cbn [read_syntaxes]; [by apply rsafe_val_ret|].
  eapply rsafe_val_bind; [apply rsafe_read_syntax|intros s Hs].
  eapply rsafe_val_bind; [exact IH|intros l [Hl Hf]]. apply rsafe_val_ret. cbn. split; [congruence|by constructor].
Qed.
Lemma rsafe_read_contexts U n :
  rsafe_val (I U) any_code (λ l, length l = n ∧ Forall context_ok l) (read_contexts n).
Proof.
  induction n as [|n IH]; cbn [read_contexts]; [by apply rsafe_val_ret|].
  eapply rsafe_val_bind; [apply (rsafe_read_int _); [apply _|done]|intros id _].
  eapply rsafe_val_bind; [apply (rsafe_read_int 1); [apply _|done]|intros ns Hns].
  destruct (Z.eqb_spec ns 0) as [|Hz]; [by apply rsafe_val_fail|].
  eapply rsafe_val_bind; [apply rsafe_read_syntax|intros s Hs]. red in Hns. cbn in Hns.
  rewrite small_requests by (unfold dcerpc_context_sz, dcerpc_syntax_sz; lia). cbn [negb].
  eapply rsafe_val_bind; [apply rsafe_read_syntaxes|intros ts [Hl Hf]].
  eapply rsafe_val_bind; [exact IH|intros l [Hl' Hf']]. apply rsafe_val_ret. cbn. split; [congruence|].
  constructor; [|done]. split; [|done]. cbn. intros ->. cbn in Hl. lia.
Qed.

(** The octets before the list of contexts. *)
Lemma rsafe_set_0 {E : Z → Prop} off width v :
  rsafe (I no_list) E (upd_req (λ q, with_0 (set_bits (q_0 q) off width v) q)).
Proof. apply rsafe_upd_req. intros q Ht Hq. split; [by apply typed_with_0|exact Hq]. Qed.
Lemma rsafe_set_8 {E : Z → Prop} v : rsafe (I no_list) E (set_bi_assoc_group_id v).
Proof.
  apply rsafe_upd_req. intros q Ht [Hn Hq]. split; [by apply typed_with_8|]. split; [|done]. cbn.
  by rewrite num_contexts_set_low.
Qed.
(** Storing the number of contexts, and the list. *)
Definition list_state (n : Z) (w : word) (q : request) : Prop := num_contexts (q_8 q) = n ∧ q_16 q = w.
Lemma set_num_wp r n w m :
  I (list_state n w) r → 0 ≤ m < 2 ^ 8 → wp (set_bi_num_contexts m) r (λ _, I (list_state m w)) (λ _ _, False).
Proof.
  intros Hi Hm. apply (upd_req_wp (list_state n w)); [|done]. intros q Ht [Hn Hq]. split; [by apply typed_with_8|].
  split; [|done]. cbn. rewrite num_contexts_set by apply Ht. by apply Z.mod_small.
Qed.
Lemma set_list_wp r n w w' :
  I (list_state n w) r → wp (set_bi_list w') r (λ _, I (list_state n w')) (λ _ _, False).
Proof.
  intros Hi. apply (upd_req_wp (list_state n w)); [|done]. intros q [] [Hn Hq]. by split; [split|].
Qed.
Lemma align_wp U r : I U r → wp (ndr auto_align_offset) r (λ _, I U) (λ _ _, False).
Proof.
  intros Hi. apply wp_zoom. pose proof (auto_align_safe moved _ ltac:(done) _ (iv_dce _ _ _ _ _ _ Hi)) as Hs.
  unfold auto_align_offset in *. wp_step. destruct Hs. by apply inv_moved.
Qed.
Definition parsed (q : request) : Prop := no_list q ∨ context_list q.
Lemma parse_bind_wp r :
  I no_list r → wp dcerpc_parse_bind_req r (λ _, I parsed) (λ _, I no_list).
Proof.
  intros Hi. unfold dcerpc_parse_bind_req. do 2 wp_step.
  destruct (iv_msg _ _ _ _ _ _ Hi) as [fl ->].
  eapply (wp_rsafe (I no_list) any_code); [apply rsafe_set_0|exact Hi|done|clear r Hi; intros _ r Hi].
  do 2 (eapply (wp_rsafe_val (I no_list) any_code); [apply (rsafe_read_int 2); [apply _|done]|exact Hi|done|clear r Hi; intros ? r Hi _];
    eapply (wp_rsafe (I no_list) any_code); [apply rsafe_set_0|exact Hi|done|clear r Hi; intros _ r Hi]).
  eapply (wp_rsafe_val (I no_list) any_code); [apply (rsafe_read_int 4); [apply _|done]|exact Hi|done|clear r Hi; intros ? r Hi _].
  eapply (wp_rsafe (I no_list) any_code); [apply rsafe_set_8|exact Hi|done|clear r Hi; intros _ r Hi].
  eapply (wp_rsafe_val (I no_list) any_code); [apply (rsafe_read_int 1); [apply _|done]|exact Hi|done|clear r Hi; intros n r Hi Hn].
  red in Hn. cbn in Hn. wp_step. wp_by (by apply (set_num_wp r 0 (Raw 0) n)); [clear r Hi; intros _ r Hi|done].
  wp_step. wp_by (by apply (set_list_wp r n (Raw 0) (Raw 0))); [clear r Hi; intros _ r Hi|done].
  wp_step. wp_by (by apply align_wp); [clear r Hi; intros _ r Hi|done].
  destruct (Z.eqb_spec n 0) as [->|Hz].
  { wp_step. eapply inv_weaken; [exact Hi|done| |done]. by left. }
  rewrite small_requests by (unfold dcerpc_context_sz; lia). cbn [negb]. do 2 wp_step.
  wp_by (by apply rsafe_read_contexts).
  - intros l r' [Hi' [Hl Hf]]. wp_by (by apply (set_list_wp r' n (Raw 0) (Contexts l))); [|done].
    intros _ r2 Hi2. eapply inv_weaken; [exact Hi2|done| |done]. intros q _ [Hq Hq'].
    right. exists l. split_and!; [done| |done]. rewrite Hl. lia.
  - intros e r' [Hi' _]. wp_step. wp_by (by apply (set_num_wp r' n (Raw 0) 0)); [|done].
    intros _ r2 Hi2. by wp_step.
Qed.
Lemma get_num_contexts w r : is_raw w → get_bits w 32 8 r = Done (num_contexts w) r.
Proof. by destruct w. Qed.
Lemma bi_contexts_wp reading r :
  inv reading rdy Hd parsed K r → wp bi_contexts r (λ l r', r' = r ∧ Forall context_ok l) (λ _ _, False).
Proof.
  intros Hi. unfold bi_contexts, bi_num_contexts. do 3 wp_step. eapply wp_run.
  { apply get_num_contexts, (iv_typed _ _ _ _ _ _ Hi). }
  destruct (iv_req _ _ _ _ _ _ Hi) as [[Hn Hq]|(l & Hq & Hn & Hf)]; rewrite Hn.
  - by wp_step.
  - destruct (Z.eqb_spec (Z.of_nat (length l)) 0) as [Hz|Hz]; [by wp_step|].
    do 2 wp_step. rewrite Hq, Z.eqb_refl. by wp_step.
Qed.
Lemma bind_invoke_wp r : I no_list r → wp (code_of dcerpc_bind_invoke) r (λ _, I parsed) (λ _ _, False).
Proof.
  intros Hi. unfold code_of. do 2 wp_step. unfold dcerpc_bind_invoke. do 2 wp_step.
  wp_by (by apply parse_bind_wp).
  2:{ intros _ r' Hi'. wp_step. eapply inv_weaken; [exact Hi'|done| |done]. by left. }
  clear r Hi. intros _ r Hi. wp_step. wp_by (eapply bi_contexts_wp; exact Hi); [|done]. intros l _ [-> _].
  eapply (wp_rsafe (I parsed) (λ _, False)); [|exact Hi|done|].
  { destruct list_find as [[? c]|]; [apply rsafe_dssetup|apply rsafe_ret]. }
  clear r Hi. intros _ r Hi. wp_by (eapply (rsafe_processed (E:=any_code)); [|exact Hi]; done).
  - intros _ r' Hi'. by wp_step.
  - intros e r' [Hi' _]. by wp_step.
Qed.
End Parse.

Section Reply.
Context {rdy : bool} {K : Z → list Z → Prop}.
#[local] Abbreviation I U := (inv false rdy any_header U K).

Lemma rsafe_q0 {E : Z → Prop} U off width : rsafe (I U) E (r <- get ;; get_bits (q_0 (d_req (r_dce r))) off width).
Proof. apply rsafe_get_bind. intros r Hi. apply rsafe_bits, (iv_typed _ _ _ _ _ _ Hi). Qed.
Lemma rsafe_q8 {E : Z → Prop} U off width : rsafe (I U) E (r <- get ;; get_bits (q_8 (d_req (r_dce r))) off width).
Proof. apply rsafe_get_bind. intros r Hi. apply rsafe_bits, (iv_typed _ _ _ _ _ _ Hi). Qed.
Lemma rsafe_contexts {E : Z → Prop} : rsafe_val (I parsed) E (Forall context_ok) bi_contexts.
Proof. intros r Hi. wp_by (eapply bi_contexts_wp; exact Hi); [by intros l ? [-> ?]|done]. Qed.
Lemma rsafe_set_group {E : Z → Prop} v : rsafe (I parsed) E (set_bi_assoc_group_id v).
Proof.
  apply rsafe_upd_req. intros q Ht Hq. split; [by apply typed_with_8|].
  destruct Hq as [[Hn Hq]|(l & Hq & Hn & Hf)]; [left|right; exists l].
  - split; [cbn; by rewrite num_contexts_set_low|done].
  - split_and!; [done|cbn; by rewrite num_contexts_set_low|done].
Qed.
Lemma rsafe_put {T : Type} U (m : prog dcerpc T) :
  safe (appends_in reply_limit) m → rsafe (I U) any_code (or_bad_data m).
Proof. intros. by apply rsafe_bad_data. Qed.
#[local] Hint Extern 1 (rsafe _ any_code (or_bad_data _)) => apply rsafe_put; safes : ksmbd.
#[local] Hint Extern 1 (rsafe _ any_code (ndr _)) => apply rsafe_write; safes : ksmbd.
#[local] Hint Resolve rsafe_set_group rsafe_finish_reply rsafe_q0 rsafe_q8 : ksmbd.

Lemma rsafe_ack_context c : context_ok c → rsafe (I parsed) any_code (ack_context c).
Proof.
  intros [Hne Hf]. unfold ack_context.
  assert (∀ s, syntax_ok s → rsafe (I parsed) any_code (or_bad_data (__dcerpc_write_syntax s))) as Hw.
  { intros s Hs. by apply rsafe_put, write_syntax_in. }
  destruct list_find as [[i s]|] eqn:Es.
  - apply list_find_Some in Es as (Hl & _). rewrite Forall_lookup in Hf. specialize (Hf _ _ Hl). rsafes; try by apply Hw.
  - destruct (cx_transfer_syntaxes c); [done|]. inversion Hf; subst. by rsafes.
Qed.
Lemma pipe_address_small flags addr : pipe_address flags = Some addr → Z.of_nat (length addr) ≤ 2 ^ 62.
Proof. unfold pipe_address. intros. repeat case_match; simplify_eq; vm_compute; congruence. Qed.
#[local] Hint Extern 1 (rsafe _ _ bi_assoc_group_id) => apply rsafe_q8 : ksmbd.
#[local] Hint Extern 1 (rsafe _ _ bi_max_xmit_frag_sz) => apply rsafe_q0 : ksmbd.
#[local] Hint Extern 1 (rsafe _ _ bi_max_recv_frag_sz) => apply rsafe_q0 : ksmbd.
#[local] Hint Extern 1 (rsafe _ _ bi_flags) => apply rsafe_q0 : ksmbd.
#[local] Hint Extern 1 (rsafe _ _ (set_cursor dcerpc_header_sz)) => by apply rsafe_set_cursor : ksmbd.
Lemma rsafe_bind_ack : rsafe (I parsed) any_code dcerpc_bind_ack_return.
Proof.
  unfold dcerpc_bind_ack_return.
  repeat (apply rsafe_bind; [by rsafes|intros ?]).
  destruct pipe_address as [addr|] eqn:Ea; [|rsafes]. apply pipe_address_small in Ea.
  apply rsafe_get_bind. intros r Hi. cbv zeta.
  apply rsafe_bind; [destruct (_ =? _); rsafes; apply rsafe_put, ndr_write_bytes_in; done|intros _].
  apply rsafe_bind; [by rsafes|intros _].
  eapply rsafe_bind_val; [apply rsafe_contexts|intros l Hl].
  do 2 (apply rsafe_bind; [by rsafes|intros ?]). apply rsafe_bind; [|intros _; by rsafes].
  apply rsafe_for_each. intros c Hc. apply rsafe_ack_context. by eapply Forall_forall in Hl.
Qed.
Lemma rsafe_bind_nack : rsafe (I parsed) any_code dcerpc_bind_nack_return.
Proof. unfold dcerpc_bind_nack_return. rsafes. Qed.
Lemma bind_free_wp r : I parsed r → wp dcerpc_bind_req_free r (λ _, I no_list) (λ _ _, False).
Proof.
  intros Hi. unfold dcerpc_bind_req_free. wp_step. wp_by (eapply bi_contexts_wp; exact Hi); [intros l ? [-> _]|done].
  apply (free_at_bind_wp _ _ (with_16 (Raw 0))); [|done|].
  { destruct (iv_req _ _ _ _ _ _ Hi) as [[_ ->]|(l' & -> & _)]; done. }
  wp_by (eapply (upd_req_wp parsed r (with_16 (Raw 0)) (U:=λ q, q_16 q = Raw 0));
    [intros q [] _; by split; [split|]|exact Hi]); [|done].
  intros _ r' Hi'. apply (upd_req_wp (λ q, q_16 q = Raw 0)); [|exact Hi'].
  intros q Ht Hq. split; [by apply typed_with_8|]. split; [|done]. cbn. by rewrite num_contexts_set by apply Ht.
Qed.
Lemma bind_return_wp r : I parsed r → wp dcerpc_bind_return r (λ _, I no_list) (λ _ _, False).
Proof.
  intros Hi. unfold dcerpc_bind_return. eapply (wp_rsafe (I parsed) (λ _, False)); [eapply rsafe_of_val, rsafe_contexts|exact Hi|done|].
  clear r Hi. intros l r Hi. cbv zeta. eapply (wp_rsafe (I parsed) (λ _, False)); [|exact Hi|done|].
  { apply rsafe_code_of. destruct existsb; [apply rsafe_bind_ack|apply rsafe_bind_nack]. }
  clear r Hi. intros code r Hi. wp_step. wp_by (by apply bind_free_wp); [|done]. intros _ r' Hi'. by wp_step.
Qed.
End Reply.
End Bind.
End PipeInvariant.

(** ** Requests on one pipe

    What a pipe asks of an interface: [pending n] is what the union may hold
    between a request with operation number [n] and its reply; a request
    leaves that or nothing, and a reply takes it away. *)
Definition at_opnum (n : Z) (h : dcerpc_header) (rh : dcerpc_request_header) : Prop :=
  h_ptype h = DCERPC_PTYPE_RPC_REQUEST ∧ rh_opnum rh = n.
Class Lawful `{GLib, Interfaces} (i : interface) := {
  pending : Z → request → Prop;
  lawful_write uheld sheld n r :
    (∀ p, 0 ≤ sheld p) → inv uheld sheld true true (at_opnum n) no_list any_entries r →
    wp (rpc_write i) r
      (λ _, inv uheld sheld true true (at_opnum n) (λ q, no_list q ∨ pending n q) any_entries) (λ _ _, False);
  lawful_read uheld sheld n r max_resp_sz :
    (∀ p, 0 ≤ sheld p) → 0 ≤ max_resp_sz ≤ reply_limit →
    inv uheld sheld false false (at_opnum n) (λ q, no_list q ∨ pending n q) any_entries r →
    wp (rpc_read i max_resp_sz) r
      (λ _, inv uheld sheld false false any_header no_list any_entries) (λ _ _, False);
}.

Section PipeRequests.
Context `{GLib, System, Allocator, Interfaces} (i : interface) `{!Lawful i}.
Hypothesis hash_order_perm : ∀ t, hash_order t ≡ₚ map_to_list t.
Hypothesis small_requests : ∀ n, n ≤ 255 * dcerpc_context_sz → g_try_malloc n = true.
Variables uheld sheld : Z → Z.
Hypothesis sheld_pos : ∀ p, 0 ≤ sheld p.

(** The union of a pipe with a reply to give, and of one without. *)
Definition union_ok (rdy : bool) (h : dcerpc_header) (rh : dcerpc_request_header) (q : request) : Prop :=
  if rdy
  then no_list q ∨ (is_bind h = true ∧ context_list q) ∨
       (h_ptype h = DCERPC_PTYPE_RPC_REQUEST ∧ pending (rh_opnum rh) q)
  else no_list q.
(** A pipe between two requests. *)
Record dce_between (d : dce) : Prop := {
  db_drep : Z.of_nat (length (h_packed_drep (d_hdr d))) ≤ 4;
  db_typed : typed (d_req d);
  db_union : union_ok (ready (d_ndr d)) (d_hdr d) (d_req_hdr d) (d_req d);
}.
Record between (r : rpc) : Prop := {
  bt_dce : dce_between (r_dce r);
  bt_consumed : p_ioctl_reply_consumed (r_pipe r) = true → ready (d_ndr (r_dce r)) = false;
  bt_held : held uheld sheld any_entries r;
}.
Lemma inv_between reading rdy Hd U r :
  inv uheld sheld reading rdy Hd U any_entries r →
  (∀ h rh q, Hd h rh → U q → union_ok rdy h rh q) → between r.
Proof. intros [] HU. split; [split| |by split]; rewrite ?iv_ready0; auto. Qed.
Lemma between_reset r :
  between r → wp rpc_pipe_reset r (λ _, between) (λ _ _, False).
Proof.
  intros [Hb Hc He]. wp_by (by apply (rpc_pipe_reset_wp hash_order_perm uheld sheld)); [|done].
  intros _ r' [Hr [E HE]]. split; rewrite ?E; auto. by eapply held_weaken.
Qed.

(** *** Writing a request *)
Lemma start_parse_wp r req :
  between r → ready (d_ndr (r_dce r)) = false → is_bytes (rc_payload req) →
  Z.of_nat (length (rc_payload req)) ≤ 2 ^ 62 →
  wp (start_parse req) r (λ _, inv uheld sheld true true any_header no_list any_entries) (λ _ _, False).
Proof.
  intros [[] Hc []] Hr Hb Hl. unfold start_parse, set_flags, upd_dce, upd_pipe. do 5 wp_step.
  rewrite Hr in *. split; try done; cbn.
  - split; [cbn; lia|]. split; [done|]. unfold has_flag. cbn.
    unfold KSMBD_DCERPC_FIXED_PAYLOAD_SZ, KSMBD_DCERPC_RETURN_READY. rewrite test_set_other by done. by apply test_set_same.
  - by apply test_set_same.
  - by eexists.
Qed.
(** What the state says of the headers. *)
Lemma inv_headers reading rdy Hd U K r :
  inv uheld sheld reading rdy Hd U K r →
  inv uheld sheld reading rdy (λ h rh, h = d_hdr (r_dce r) ∧ rh = d_req_hdr (r_dce r)) U K r.
Proof. by intros []; split. Qed.
Lemma pipe_write_wp r req :
  between r → is_bytes (rc_payload req) → Z.of_nat (length (rc_payload req)) ≤ 2 ^ 62 →
  interface_of (rc_flags req) = Some i → wp (pipe_write req) r (λ _, between) (λ _ _, False).
Proof.
  intros Hi Hb Hl Hf. unfold pipe_write. do 2 wp_step.
  destruct (has_flag KSMBD_DCERPC_RETURN_READY (d_ndr (r_dce r))) eqn:Hr; [by wp_step|].
  wp_step. wp_by (by apply start_parse_wp); [|done]. clear r Hi Hr. intros _ r Hi.
  do 2 wp_step. wp_by (eapply rsafe_hdr_read; exact Hi); clear r Hi.
  2:{ intros _ r [Hi _]. wp_step. eapply inv_between; [exact Hi|]. by left. }
  intros _ r Hi. do 2 wp_step. apply inv_headers in Hi.
  destruct (is_bind (d_hdr (r_dce r))) eqn:Hbind.
  { wp_by (eapply bind_invoke_wp; done); [|done]. intros _ r' Hi'. eapply inv_between; [exact Hi'|].
    intros h rh q [-> _] [Hq|Hq]; [by left|right; by left]. }
  destruct (Z.eqb_spec (h_ptype (d_hdr (r_dce r))) DCERPC_PTYPE_RPC_REQUEST) as [Hq|_]; cbn [negb].
  2:{ wp_step. eapply inv_between; [exact Hi|]. by left. }
  assert (inv uheld sheld true true (λ h _, h_ptype h = DCERPC_PTYPE_RPC_REQUEST) no_list any_entries r) as Hi1.
  { eapply inv_weaken; [exact Hi| |done|done]. by intros h rh [-> _]. }
  do 2 wp_step. wp_by (eapply (rsafe_request_hdr_read _ _ _ (λ h, h_ptype h = DCERPC_PTYPE_RPC_REQUEST)); exact Hi1); clear r Hi Hbind Hq Hi1.
  2:{ intros _ r [Hi _]. wp_step. eapply inv_between; [exact Hi|]. by left. }
  intros _ r Hi. rewrite Hf.
  assert (inv uheld sheld true true (at_opnum (rh_opnum (d_req_hdr (r_dce r)))) no_list any_entries r) as Hi1.
  { destruct Hi. by split. }
  wp_by (by apply lawful_write); [|done]. intros _ r' Hi'. eapply inv_between; [exact Hi'|].
  intros h rh q [Hp Ho] [Hq|Hq]; [by left|right; right]. by rewrite Ho.
Qed.

(** *** Reading a reply *)
Definition answered (r : rpc) : Prop := between r ∧ ready (d_ndr (r_dce r)) = false.
Lemma inv_answered reading r :
  inv uheld sheld reading false any_header no_list any_entries r → answered r.
Proof. intros Hi. split; [by eapply inv_between|apply Hi]. Qed.
Lemma start_reply_wp r req max_resp_sz :
  between r → 0 ≤ max_resp_sz ≤ reply_limit →
  wp (start_reply req max_resp_sz) r
    (λ _, inv uheld sheld false false (λ h rh, h = d_hdr (r_dce r) ∧ rh = d_req_hdr (r_dce r))
            (union_ok (ready (d_ndr (r_dce r))) (d_hdr (r_dce r)) (d_req_hdr (r_dce r))) any_entries) (λ _ _, False).
Proof.
  intros [[] Hc []] Hm. unfold start_reply, set_reply_buffer, set_flags, upd_dce, upd_pipe. do 5 wp_step.
  assert (payload_sz (dcerpc_set_ext_payload (replicate (Z.to_nat max_resp_sz) 0) (d_ndr (r_dce r))) = max_resp_sz) as Hsz.
  { unfold payload_sz. cbn. rewrite length_replicate. lia. }
  split; try done; cbn.
  - split; [cbn; lia|]. split; [unfold payload_sz, reply_limit in *; cbn in *; lia|].
    unfold has_flag. cbn. by apply test_set_same.
  - unfold payload_sz in *. cbn in *. unfold reply_limit in *. lia.
  - unfold ready, has_flag. cbn. unfold KSMBD_DCERPC_FIXED_PAYLOAD_SZ, KSMBD_DCERPC_EXTERNAL_PAYLOAD, KSMBD_DCERPC_RETURN_READY.
    rewrite !test_set_other by done. by apply test_clear_same.
  - by eexists.
Qed.
Lemma clear_ready_wp r b :
  answered r →
  wp (upd_pipe (λ p, if b : bool then set_reply_consumed true p else p) ;;
      set_flags (λ f, clear_flag f KSMBD_DCERPC_RETURN_READY)) r (λ _, answered) (λ _ _, False).
Proof.
  intros [[[] Hc []] Hr]. rewrite Hr in *. unfold set_flags, upd_dce, upd_pipe. do 2 wp_step. wp_step.
  assert (∀ d, ready (mk_dcerpc (clear_flag (dce_flags d) KSMBD_DCERPC_RETURN_READY) (dce_offset d) (dce_payload d)
    (dce_num_pointers d)) = false) as Hcl by (intros d; by apply test_clear_same).
  destruct b; (split; [split; [split|..|split]|]; try done); cbn; rewrite ?Hcl; try done; apply Hcl.
Qed.
Lemma pipe_reply_wp r req max_resp_sz h rh :
  inv uheld sheld false false (λ h' rh', h' = h ∧ rh' = rh) (union_ok true h rh) any_entries r →
  0 ≤ max_resp_sz ≤ reply_limit → interface_of (rc_flags req) = Some i →
  wp (pipe_reply (ret (rc_flags req)) max_resp_sz) r (λ _, answered) (λ _ _, False).
Proof.
  intros Hi Hm Hf. destruct (iv_hdr _ _ _ _ _ _ _ _ Hi) as [Eh Er]. unfold pipe_reply. do 2 wp_step. rewrite Eh.
  destruct (is_bind h) eqn:Hb.
  { assert (inv uheld sheld false false any_header parsed any_entries r) as Hi1.
    { eapply inv_weaken; [exact Hi|done| |done]. intros q _ [Hq|[[_ Hq]|[Hq _]]]; [by left|by right|].
      unfold is_bind in Hb. by rewrite Hq in Hb. }
    wp_by (eapply bind_return_wp; exact Hi1); [|done]. intros _ r' Hi'. by eapply inv_answered. }
  destruct (Z.eqb_spec (h_ptype h) DCERPC_PTYPE_RPC_REQUEST) as [Hp|Hp]; cbn [negb].
  2:{ wp_step. eapply inv_answered, inv_weaken; [exact Hi|done| |done].
      intros q _ [Hq|[[Hq _]|[Hq _]]]; [done|congruence|done]. }
  do 2 wp_step. rewrite Hf.
  assert (inv uheld sheld false false (at_opnum (rh_opnum rh)) (λ q, no_list q ∨ pending (rh_opnum rh) q) any_entries r) as Hi1.
  { eapply inv_weaken; [exact Hi|by intros h' rh' [-> ->]| |done].
    intros q _ [Hq|[[Hq _]|[_ Hq]]]; [by left|congruence|by right]. }
  wp_by (by eapply lawful_read); [|done]. intros _ r' Hi'. by eapply inv_answered.
Qed.
Lemma pipe_read_wp r req max_resp_sz :
  between r → 0 ≤ max_resp_sz ≤ reply_limit → interface_of (rc_flags req) = Some i →
  wp (pipe_read req max_resp_sz) r (λ _, answered) (λ _ _, False).
Proof.
  intros Hi Hm Hf. unfold pipe_read. do 2 wp_step.
  destruct (p_ioctl_reply_consumed (r_pipe r)) eqn:Hc.
  { pose proof (clear_ready_wp r false (conj Hi (bt_consumed _ Hi Hc))) as Hw. wp_step.
    unfold set_flags, upd_dce, upd_pipe in *. unfold wp, bind, modify in Hw. do 2 wp_step. by destruct r as [? []]. }
  destruct (has_flag KSMBD_DCERPC_RETURN_READY (d_ndr (r_dce r))) eqn:Hr; cbn [negb]; [|by wp_step].
  wp_step. wp_by (by apply start_reply_wp); [|done]. intros _ r' Hi'. unfold ready in Hi'. rewrite Hr in Hi'.
  by eapply pipe_reply_wp.
Qed.
Lemma pipe_ioctl_wp r req max_resp_sz :
  between r → is_bytes (rc_payload req) → Z.of_nat (length (rc_payload req)) ≤ 2 ^ 62 →
  0 ≤ max_resp_sz ≤ reply_limit → interface_of (rc_flags req) = Some i →
  wp (pipe_ioctl req max_resp_sz) r (λ _, between) (λ _ _, False).
Proof.
  intros Hi Hb Hl Hm Hf. unfold pipe_ioctl. wp_step. wp_by (by apply pipe_write_wp); [|done].
  clear r Hi. intros code r Hi. destruct (code =? KSMBD_RPC_OK); [|by wp_step].
  wp_step. wp_by (by apply pipe_read_wp); [|done]. clear r Hi code. intros code r Hi. wp_step.
  destruct (code =? KSMBD_RPC_OK); [|do 2 wp_step; apply Hi].
  wp_by (by apply (clear_ready_wp r true)); [|done]. intros _ r' Hi'. wp_step. apply Hi'.
Qed.
End PipeRequests.

(** ** The table of pipes *)
Definition pipe_refs (o : option pipe) : list Z := match o with Some p => p_entries p | None => [] end.
(** What the handlers of the kernel's requests do with the table. *)
Inductive method := OPEN | CLOSE | WRITE | READ | IOCTL.

Section Server.
Context `{GLib, System, Allocator, Interfaces} (i : interface) `{!Lawful i}.
Hypothesis hash_order_perm : ∀ t, hash_order t ≡ₚ map_to_list t.
Hypothesis small_requests : ∀ n, n ≤ 255 * dcerpc_context_sz → g_try_malloc n = true.
Variables uheld sheld : Z → Z.
Hypothesis sheld_pos : ∀ p, 0 ≤ sheld p.

Record pipe_between (p : pipe) : Prop := {
  pb_dce : dce_between i (p_dce p);
  pb_consumed : p_ioctl_reply_consumed p = true → ready (d_ndr (p_dce p)) = false;
  pb_entries : 0 ≤ p_num_entries p ≤ Z.of_nat (length (p_entries p));
  pb_callback : p_processed p ≠ Some NamesProcessed;
}.
(** Every pipe of the table is alive and between two requests, and the shares
    count the entries of all of them. *)
Record server_ok (s : server) : Prop := {
  sv_live : map_Forall (λ _ o, ∃ p, o = Some p ∧ pipe_between p) (sv_pipes s);
  sv_counts : shares_ok uheld (λ q, sheld q + count q (heap_refs pipe_refs (sv_pipes s))) (sv_shares s);
  sv_hosts : hosts_free (sv_shares s);
}.
Definition elsewhere (id : Z) (s : server) (q : Z) : Z := sheld q + count q (heap_refs pipe_refs (delete id (sv_pipes s))).
Lemma pipe_between_expired p : pipe_between p → pipe_between (expired p).
Proof. intros [[] ? ?]. unfold expired. destruct d_rpc_req; (split; [split|..]); done. Qed.
Lemma expired_entries p : p_entries (expired p) = p_entries p.
Proof. unfold expired. by destruct d_rpc_req. Qed.

(** A program that keeps a pipe keeps the table. *)
Lemma on_pipe_wp {T : Type} id p (m : prog rpc T) s :
  server_ok s → sv_pipes s !! id = Some (Some p) →
  (∀ r, between i uheld (elsewhere id s) r →
     wp m r (λ _, between i uheld (elsewhere id s)) (λ _ _, False)) →
  wp (on_pipe id p m) s
    (λ _ s', server_ok s' ∧ (∃ p', sv_pipes s' = <[id := Some p']> (sv_pipes s))) (λ _ _, False).
Proof.
  intros [Hl Hc Hh] Hp Hm. destruct (Hl _ _ Hp) as (? & [= <-] & Hb%pipe_between_expired).
  assert (between i uheld (elsewhere id s) (mk_rpc (sv_shares s) (sv_services s) (expired p))) as Hr.
  { destruct Hb. split; [done|done|split; try done]. eapply shares_ok_ext; [done| |exact Hc]. intros q.
    cbn. unfold elsewhere. rewrite ?expired_entries, (heap_refs_delete pipe_refs _ id _ Hp), count_app. cbn. lia. }
  specialize (Hm _ Hr). unfold wp, on_pipe in *. destruct (m _) as [a r'|e r'|]; [|done..].
  destruct Hm as [Hd Hco [He _ Hs Hh']]. split; [|by eexists]. split; cbn.
  - apply map_Forall_insert_2; [|done]. eexists. by split.
  - eapply shares_ok_ext; [done| |exact Hs]. intros q. unfold elsewhere.
    rewrite (heap_refs_delete pipe_refs (<[id := Some (r_pipe r')]> (sv_pipes s)) id (Some (r_pipe r'))), count_app,
      delete_insert_eq by apply lookup_insert_eq. cbn. lia.
  - done.
Qed.
Lemma elsewhere_pos id s p : 0 ≤ elsewhere id s p.
Proof. unfold elsewhere. pose proof (count_nonneg p (heap_refs pipe_refs (delete id (sv_pipes s)))). specialize (sheld_pos p). lia. Qed.
Lemma lookup_pipe_wp id s :
  server_ok s →
  wp (rpc_pipe_lookup id) s (λ o s', s' = s ∧ sv_pipes s !! id = option_map Some o) (λ _ _, False).
Proof.
  intros [Hl _ _]. unfold rpc_pipe_lookup. do 2 wp_step. destruct (sv_pipes s !! id) as [o|] eqn:Ho.
  - destruct (Hl _ _ Ho) as (p & -> & _). by wp_step.
  - by wp_step.
Qed.
End Server.

(** *** Sequences of requests *)
Section Serving.
Context `{GLib, System, Allocator, Interfaces} (i : interface) `{!Lawful i}.
Hypothesis hash_order_perm : ∀ t, hash_order t ≡ₚ map_to_list t.
Hypothesis small_requests : ∀ n, n ≤ 255 * dcerpc_context_sz → g_try_malloc n = true.
Variable uheld : Z → Z.
(** The references in [lost] are left over from pipes that were closed: those of
    an enumeration that was not read to the end before another bind. *)
Definition server_lost (sheld : Z → Z) (s : server) : Prop := ∃ lost, server_ok i uheld (λ q, sheld q + count q lost) s.
Lemma server_ok_ext sheld sheld' s : (∀ q, sheld q = sheld' q) → server_ok i uheld sheld s → server_ok i uheld sheld' s.
Proof. intros Hs [Hl Hc Hh]. split; [done| |done]. eapply shares_ok_ext; [done| |exact Hc]. intros q. cbv beta. by rewrite Hs. Qed.
Lemma server_lost_none sheld s : server_ok i uheld sheld s → server_lost sheld s.
Proof. intros Hok. exists []. eapply server_ok_ext; [|exact Hok]. counts. Qed.
Lemma server_lost_trans sheld lost s : server_lost (λ q, sheld q + count q lost) s → server_lost sheld s.
Proof. intros [lost' Hok]. exists (lost ++ lost'). eapply server_ok_ext; [|exact Hok]. counts. Qed.

(** Giving back the entries of a pipe, and removing it. *)
Lemma rpc_pipe_free_wp sheld id p s :
  (∀ q, 0 ≤ sheld q) → server_ok i uheld sheld s → sv_pipes s !! id = Some (Some p) → id ≠ no_id →
  wp (rpc_pipe_free id p) s (λ _ s', server_lost sheld s' ∧ sv_pipes s' = delete id (sv_pipes s)) (λ _ _, False).
Proof.
  intros Hpos Hok Hp Hid. unfold rpc_pipe_free. wp_step. wp_by (apply (on_pipe_wp i uheld sheld); [done|done|]; intros r Hr;
    apply (between_reset i hash_order_perm uheld (elsewhere sheld id s)); [by apply elsewhere_pos|done]); [|done].
  intros _ s' [[Hl Hc Hh] [p' E]]. unfold upd_pipes.
  rewrite (proj2 (Z.eqb_neq id no_id) Hid). wp_step. cbn. split; [|by rewrite E, delete_insert_eq].
  assert (sv_pipes s' !! id = Some (Some p')) as Hp' by (rewrite E; apply lookup_insert_eq).
  exists (p_entries p'). split; cbn; [by apply map_Forall_delete| |done].
  eapply shares_ok_ext; [done| |exact Hc]. intros q. cbv beta.
  rewrite (heap_refs_delete pipe_refs _ id _ Hp'), count_app. cbn [pipe_refs]. lia.
Qed.

Definition serve (max_resp_sz : Z) (c : method * command) : prog server Z :=
  match c.1 with
  | OPEN => rpc_open_request c.2
  | CLOSE => rpc_close_request c.2
  | WRITE => rpc_write_request c.2
  | READ => rpc_read_request c.2 max_resp_sz
  | IOCTL => rpc_ioctl_request c.2 max_resp_sz
  end.
Definition for_interface (c : method * command) : Prop :=
  interface_of (rc_flags c.2) = Some i ∧ rc_handle c.2 ≠ no_id ∧
  is_bytes (rc_payload c.2) ∧ Z.of_nat (length (rc_payload c.2)) ≤ 2 ^ 62.
Lemma open_wp sheld req s :
  (∀ q, 0 ≤ sheld q) → server_ok i uheld sheld s → rc_handle req ≠ no_id →
  wp (rpc_open_request req) s (λ _, server_lost sheld) (λ _ _, False).
Proof.
  intros Hpos Hok Hid. pose proof (server_lost_none _ _ Hok) as Hnone.
  unfold rpc_open_request. wp_step. wp_by (by apply (lookup_pipe_wp i uheld sheld)); [|done].
  intros [p|] _ [-> Hp]; [by wp_step|]. unfold rpc_pipe_alloc_bind. do 2 wp_step; [by do 2 wp_step|].
  do 2 wp_step. rewrite Hp. cbn [option_map]. unfold upd_pipes. do 3 wp_step.
  set (s' := mk_server _ _ _). assert (server_ok i uheld sheld s') as Hok'.
  { destruct Hok as [Hl Hc Hh]. split; cbn; [|eapply shares_ok_ext; [done| |exact Hc]|done].
    - apply map_Forall_insert_2; [|done]. eexists. split; [done|]. split; [split|done|done|done]; [done|by split|done].
    - intros q. rewrite (heap_refs_insert pipe_refs _ _ _ Hp), count_app. cbn. unfold count. cbn. lia. }
  destruct (g_try_malloc dcerpc_sz); cbn [negb]; [wp_step; by apply server_lost_none|].
  wp_step. wp_by (apply (rpc_pipe_free_wp sheld); [done|done|apply lookup_insert_eq|done]); [|done]. intros _ s2 []. by wp_step.
Qed.
Lemma serve_wp sheld max_resp_sz c s :
  (∀ q, 0 ≤ sheld q) → 0 ≤ max_resp_sz ≤ reply_limit → for_interface c → server_ok i uheld sheld s →
  wp (serve max_resp_sz c) s (λ _, server_lost sheld) (λ _ _, False).
Proof.
  destruct c as [m req]. intros Hsh Hm (Hf & Hid & Hb & Hl) Hok. cbn [snd] in *. pose proof (server_lost_none _ _ Hok) as Hnone.
  assert (∀ p, sv_pipes s !! rc_handle req = Some (Some p) → ∀ {T : Type} (m : prog rpc T),
    (∀ r, between i uheld (elsewhere sheld (rc_handle req) s) r →
       wp m r (λ _, between i uheld (elsewhere sheld (rc_handle req) s)) (λ _ _, False)) →
    wp (on_pipe (rc_handle req) p m) s (λ _, server_lost sheld) (λ _ _, False)) as Hon.
  { intros p Hp T m' Hm'. wp_by (by apply (on_pipe_wp i uheld sheld)); [|done]. intros _ s' []. by apply server_lost_none. }
  pose proof (elsewhere_pos sheld Hsh (rc_handle req) s) as Hpos.
  destruct m; cbn [serve fst snd]; [by apply (open_wp sheld)|..].
  - unfold rpc_close_request. wp_step. wp_by (by apply (lookup_pipe_wp i uheld sheld)); [|done]. intros [p|] _ [-> Hp]; [|by wp_step].
    wp_step. wp_by (by apply (rpc_pipe_free_wp sheld)); [|done]. intros _ s2 []. by wp_step.
  - unfold rpc_write_request. wp_step. wp_by (by apply (lookup_pipe_wp i uheld sheld)); [|done]. intros [p|] _ [-> Hp]; [|by wp_step].
    apply Hon; [done|]. intros r Hr. by apply pipe_write_wp.
  - unfold rpc_read_request. wp_step. wp_by (by apply (lookup_pipe_wp i uheld sheld)); [|done]. intros [p|] _ [-> Hp]; [|by wp_step].
    apply Hon; [done|]. intros r Hr. wp_by (by apply pipe_read_wp); [by intros ? ? []|done].
  - unfold rpc_ioctl_request. wp_step; [by wp_step|]. wp_step.
    wp_by (by apply (lookup_pipe_wp i uheld sheld)); [|done]. intros [p|] _ [-> Hp]; [|by wp_step].
    apply Hon; [done|]. intros r Hr. by apply pipe_ioctl_wp.
Qed.
Lemma serve_all_wp sheld max_resp_sz l s :
  (∀ q, 0 ≤ sheld q) → 0 ≤ max_resp_sz ≤ reply_limit → Forall for_interface l → server_ok i uheld sheld s →
  wp (for_each l (λ c, serve max_resp_sz c ;; ret tt)) s (λ _, server_lost sheld) (λ _ _, False).
Proof.
  intros Hsh Hm Hl. revert sheld Hsh s. induction Hl as [|c l Hc Hl IH]; intros sheld Hsh s Hok; cbn [for_each].
  { wp_step. by apply server_lost_none. }
  do 2 wp_step. wp_by (by apply (serve_wp sheld)); [|done]. intros _ s' [lost Hok']. wp_step.
  eapply wp_mono; [apply IH; [|exact Hok']| |done].
  - intros q. pose proof (count_nonneg q lost). specialize (Hsh q). lia.
  - intros ? s2 Hs2. exact (server_lost_trans _ _ _ Hs2).
Qed.
End Serving.
