(* ===== verification/Srvsvc.v ===== *)
(** * The server service ([src/mountd/rpc_srvsvc.c])

    Enumeration of the shares and the information on one share.  A request
    takes references to the shares it will report and leaves them in the pipe;
    the reply writes them, in the three levels of detail, and puts them back. *)

From S2P Require Import Prelude ConfText Refcount Users Shares Ndr Rpc.

Definition SHARE_TYPE_DISKTREE : Z := 0.
Definition SHARE_TYPE_IPC : Z := 3.
Definition SRVSVC_OPNUM_SHARE_ENUM_ALL : Z := 15.
Definition SRVSVC_OPNUM_GET_SHARE_INFO : Z := 16.
(** The levels of [srvsvc_NetShareInfo] *)
Inductive ctr := CTR0 | CTR1 | CTR2.
Definition ctr_of (level : Z) : option ctr :=
  if level =? 0 then Some CTR0 else if level =? 1 then Some CTR1 else if level =? 2 then Some CTR2 else None.

Section Srvsvc.
Context `{GLib, System, Allocator}.
Variable g_convert : Z → Z → bytes → option bytes.
Variable g_utf8_strlen : bytes → Z.
Variable restrict_anon : Z.

(** ** Entries *)
Definition __share_type (x : share) : Z :=
  if test_share_flag x KSMBD_SHARE_FLAG_PIPE then SHARE_TYPE_IPC
  else if bool_decide (g_ascii_strdown (take 3 (sh_name x)) = g_ascii_strdown (str "IPC")) then SHARE_TYPE_IPC
  else SHARE_TYPE_DISKTREE.
Definition strlen2 (s : option bytes) : Z := match s with Some s => Z.of_nat (length s) * 2 | None => 0 end.
Definition __share_entry_size (c : ctr) (x : share) : Z :=
  match c with
  | CTR0 => Z.of_nat (length (sh_name x)) * 2 + 4 * 4
  | CTR1 => Z.of_nat (length (sh_name x)) * 2 + strlen2 (sh_comment x) + 9 * 4
  | CTR2 => Z.of_nat (length (sh_name x)) * 2 + strlen2 (sh_comment x) + strlen2 (sh_path x) + 16 * 4
  end.
Definition write_ref : prog rpc unit := n <- next_pointer ;; ndr (ndr_write_int32 n).
Definition __share_entry_rep (c : ctr) (entry : Z) : prog rpc unit :=
  x <- share_op (sload entry) ;;
  match c with
  | CTR0 => write_ref
  | CTR1 => write_ref ;; ndr (ndr_write_int32 (__share_type x)) ;; write_ref
  | CTR2 =>
      write_ref ;;
      ndr (ndr_write_int32 (__share_type x)) ;;
      write_ref ;;
      ndr (ndr_write_int32 0) ;;
      ndr (ndr_write_int32 (if 0 <? sh_max_connections x then sh_max_connections x else 0xFFFFFFFF)) ;;
      ndr (ndr_write_int32 (sh_num_connections x)) ;;
      write_ref ;;
      write_ref
  end.
Definition vstring (s : option bytes) : prog rpc unit := ndr (ndr_write_vstring g_convert g_utf8_strlen s).
Definition __share_entry_data (c : ctr) (entry : Z) : prog rpc unit :=
  x <- share_op (sload entry) ;;
  match c with
  | CTR0 => vstring (Some (sh_name x))
  | CTR1 => vstring (Some (sh_name x)) ;; vstring (sh_comment x)
  | CTR2 =>
      vstring (Some (sh_name x)) ;;
      vstring (sh_comment x) ;;
      vstring (Some (default [] (sh_path x))) ;;
      vstring (Some [])
  end.
Definition zero_words (n : nat) : prog rpc unit := for_each (replicate n tt) (λ _, ndr (ndr_write_int32 0)).
Definition __share_entry_null_rep (c : ctr) : prog rpc unit :=
  zero_words match c with CTR0 => 1 | CTR1 => 3 | CTR2 => 8 end.

(** ** Requests *)
Definition __enum_all_shares (p : Z) : prog rpc unit :=
  g <- share_op (get_ksmbd_share p) ;;
  match g with
  | None => ret tt
  | Some p =>
      x <- share_op (sload p) ;;
      if negb (test_share_flag x KSMBD_SHARE_FLAG_BROWSEABLE) then share_op (put_ksmbd_share (Some p))
      else if negb (test_share_flag x KSMBD_SHARE_FLAG_AVAILABLE) then share_op (put_ksmbd_share (Some p))
      else upd_pipe (λ q, set_entries (p_num_entries q + 1) (p_entries q ++ [p]) q)
  end.
Definition srvsvc_share_enum_all_invoke : prog rpc unit :=
  r <- get ;;
  for_each (hash_order (ss_table (r_shares r))) (λ x, __enum_all_shares x.2) ;;
  upd_pipe (set_processed (Some ShareProcessed)).
(** [strcmp] and [inet_pton] of a NULL host are undefined; without patterns
    there is none. *)
Definition lookup_hosts (x : share) (map : share_hosts) (host : option bytes) : prog rpc Z :=
  match host with
  | Some host => ret (shm_lookup_hosts_map x map host)
  | None =>
      match (match map with KSMBD_SHARE_HOSTS_ALLOW_MAP => sh_hosts_allow x
                          | KSMBD_SHARE_HOSTS_DENY_MAP => sh_hosts_deny x end) with
      | None => ret (- EINVAL)
      | Some patterns => if decide (patterns = ∅) then ret (- ENOENT) else fault
      end
  end.
Definition srvsvc_share_get_info_invoke : prog rpc unit :=
  r <- get ;;
  share_name <- string_at (q_32 (d_req (r_dce r))) ;;
  server_name <- string_at (q_24 (d_req (r_dce r))) ;;
  match share_name with
  | None => fault
  | Some share_name =>
      g <- share_op (shm_lookup_share share_name) ;;
      match g with
      | None => ret tt
      | Some p =>
          x <- share_op (sload p) ;;
          if negb (test_share_flag x KSMBD_SHARE_FLAG_AVAILABLE) then share_op (put_ksmbd_share (Some p))
          else
            allowed <- lookup_hosts x KSMBD_SHARE_HOSTS_ALLOW_MAP server_name ;;
            if allowed =? - ENOENT then share_op (put_ksmbd_share (Some p))
            else
              denied <- (if allowed =? 0 then ret false
                         else d <- lookup_hosts x KSMBD_SHARE_HOSTS_DENY_MAP server_name ;; ret (d =? 0)) ;;
              if denied : bool then share_op (put_ksmbd_share (Some p))
              else
                upd_pipe (λ q, set_entries (p_num_entries q + 1) (p_entries q ++ [p]) q) ;;
                upd_pipe (set_processed (Some ShareProcessed))
      end
  end.

(** [ndr_read_uniq_vstring_ptr(dce, &hdr->server_name)] and
    [ndr_read_vstring_ptr(dce, &hdr->share_name)] into the words of [si_req];
    the string ends at its first NUL. *)
Definition read_string (store : word → request → request) : prog rpc unit :=
  s <- attempt (ndr (ndr_read_vstring g_convert)) ;;
  match s with
  | inl s => upd_req (store (Str (cstr s)))
  | inr _ => upd_req (store (Raw 0)) ;; fail (- EINVAL)
  end.
Definition read_server_name : prog rpc unit :=
  ref_id <- read_else_einval ndr_read_int32 ;;
  upd_req (λ q, with_16 (set_bits (q_16 q) 0 32 ref_id) q) ;;
  if ref_id =? 0 then upd_req (with_24 (Raw 0)) else read_string with_24.
Definition set_si_level (v : Z) : prog rpc unit := upd_req (λ q, with_0 (set_bits (q_0 q) 0 32 v) q).
Definition si_level : prog rpc Z := r <- get ;; v <- get_bits (q_0 (d_req (r_dce r))) 0 32 ;; ret (s32 v).
Definition read_payload_handle : prog rpc unit :=
  ref_id <- read_else_einval ndr_read_int32 ;;
  upd_req (λ q, with_40 (set_bits (q_40 q) 0 32 ref_id) q) ;;
  if ref_id =? 0 then upd_req (λ q, with_40 (set_bits (q_40 q) 32 32 0) q)
  else v <- read_else_einval ndr_read_int32 ;; upd_req (λ q, with_40 (set_bits (q_40 q) 32 32 v) q).
Definition srvsvc_parse_share_info_req : prog rpc unit :=
  read_server_name ;;
  r <- get ;;
  let opnum := rh_opnum (d_req_hdr (r_dce r)) in
  if opnum =? SRVSVC_OPNUM_SHARE_ENUM_ALL then
    val <- read_else_einval ndr_read_union_int32 ;;
    if INT_MAX <? val then fail (- EINVAL)
    else
      set_si_level val ;;
      read_else_einval ndr_read_int32 ;;
      read_else_einval ndr_read_int32 ;;
      ptr <- read_else_einval ndr_read_int32 ;;
      if negb (ptr =? 0) then fail (- EINVAL)
      else
        val <- read_else_einval ndr_read_int32 ;;
        upd_req (with_8 (Raw val)) ;;
        read_payload_handle
  else if opnum =? SRVSVC_OPNUM_GET_SHARE_INFO then
    read_string with_32 ;;
    val <- read_else_einval ndr_read_int32 ;;
    if INT_MAX <? val then fail (- EINVAL) else set_si_level val
  else fail (- ENOTSUP).
Definition restricted : prog rpc bool := r <- get ;; rpc_restricted_context restrict_anon (d_rpc_req (r_dce r)).
Definition opnum : prog rpc Z := r <- get ;; ret (rh_opnum (d_req_hdr (r_dce r))).
Definition srvsvc_share_info_invoke : prog rpc unit :=
  srvsvc_parse_share_info_req else_return KSMBD_RPC_EBAD_DATA ;;
  upd_pipe (set_processed (Some ShareProcessed)) ;;
  b <- restricted ;;
  n <- opnum ;;
  if b && negb (n =? SRVSVC_OPNUM_SHARE_ENUM_ALL) then ret tt
  else if n =? SRVSVC_OPNUM_GET_SHARE_INFO then srvsvc_share_get_info_invoke
  else if n =? SRVSVC_OPNUM_SHARE_ENUM_ALL then srvsvc_share_enum_all_invoke
  else fail KSMBD_RPC_ENOTIMPLEMENTED.
Definition srvsvc_invoke : prog rpc Z :=
  n <- opnum ;;
  if (n =? SRVSVC_OPNUM_SHARE_ENUM_ALL) || (n =? SRVSVC_OPNUM_GET_SHARE_INFO)
  then code_of srvsvc_share_info_invoke
  else ret KSMBD_RPC_ENOTIMPLEMENTED.

(** ** Replies *)

(** Without a supported level the callbacks of the array are not set. *)
Definition write_array (c : option ctr) (n : Z) : prog rpc unit :=
  match c with
  | Some c => __ndr_write_array_of_structs (__share_entry_rep c) (__share_entry_data c) n
  | None => fault
  end.
(** [__ndr_write_array_of_structs] never answers [KSMBD_RPC_EMORE_DATA], so the
    branch that sets RETURN_READY again is not taken. *)
Definition srvsvc_share_enum_all_return (c : option ctr) : prog rpc unit :=
  r <- get ;;
  let nr := p_num_entries (r_pipe r) in
  level <- si_level ;;
  or_bad_data (ndr_write_union_int32 level) ;;
  write_ref else_return KSMBD_RPC_EBAD_DATA ;;
  or_bad_data (ndr_write_int32 nr) ;;
  (if nr =? 0 then or_bad_data (ndr_write_int32 0)
   else
     write_ref else_return KSMBD_RPC_EBAD_DATA ;;
     or_bad_data (ndr_write_int32 nr) ;;
     write_array c nr) ;;
  r <- get ;;
  or_bad_data (ndr_write_int32 (p_num_processed (r_pipe r))) ;;
  write_ref else_return KSMBD_RPC_EBAD_DATA ;;
  or_bad_data (ndr_write_int32 0).
Definition srvsvc_share_get_info_return (c : option ctr) : prog rpc unit :=
  level <- si_level ;;
  or_bad_data (ndr_write_union_int32 level) ;;
  r <- get ;;
  if negb (p_num_entries (r_pipe r) =? 0) then write_array c (p_num_entries (r_pipe r))
  else match c with
  | None => fail KSMBD_RPC_EINVALID_LEVEL
  | Some c =>
      __share_entry_null_rep c else_return KSMBD_RPC_EBAD_DATA ;;
      b <- restricted ;;
      fail (if b : bool then KSMBD_RPC_EACCESS_DENIED else KSMBD_RPC_EINVALID_PARAMETER)
  end.
Definition srvsvc_clear_headers (status : Z) : prog rpc unit :=
  if status =? KSMBD_RPC_EMORE_DATA then ret tt
  else
    r <- get ;;
    free_at q_24 with_24 ;;
    upd_req (λ q, with_24 (Raw 0) (with_16 (set_bits (q_16 q) 0 32 0) q)) ;;
    if rh_opnum (d_req_hdr (r_dce r)) =? SRVSVC_OPNUM_GET_SHARE_INFO
    then free_at q_32 with_32 ;; upd_req (with_32 (Raw 0))
    else ret tt.
Definition srvsvc_share_info_return : prog rpc unit :=
  set_cursor (dcerpc_header_sz + dcerpc_response_header_sz) ;;
  upd_pipe (set_num_processed 0) ;;
  level <- si_level ;;
  let c := ctr_of level in
  (match c with Some _ => ret tt | None => rpc_pipe_reset end) ;;
  n <- opnum ;;
  status <- (if n =? SRVSVC_OPNUM_GET_SHARE_INFO then code_of (srvsvc_share_get_info_return c)
             else if n =? SRVSVC_OPNUM_SHARE_ENUM_ALL then code_of (srvsvc_share_enum_all_return c)
             else ret KSMBD_RPC_ENOTIMPLEMENTED) ;;
  b <- restricted ;;
  let status := if b && negb (n =? SRVSVC_OPNUM_SHARE_ENUM_ALL) then KSMBD_RPC_EACCESS_DENIED else status in
  srvsvc_clear_headers status ;;
  write_status status.
Definition si_max_size : prog rpc Z := r <- get ;; get_bits (q_8 (d_req (r_dce r))) 0 64.
Definition srvsvc_return (max_resp_sz : Z) : prog rpc Z :=
  n <- opnum ;;
  if n =? SRVSVC_OPNUM_SHARE_ENUM_ALL then
    max_size <- si_max_size ;;
    set_reply_buffer (if max_size <? max_resp_sz then s32 max_size else max_resp_sz) ;;
    code_of srvsvc_share_info_return
  else if n =? SRVSVC_OPNUM_GET_SHARE_INFO then
    set_reply_buffer max_resp_sz ;; code_of srvsvc_share_info_return
  else ret KSMBD_RPC_EBAD_FUNC.
End Srvsvc.

(** ** References taken for a request *)
Section References.
Context `{GLib, System, Allocator}.
Hypothesis hash_order_perm : ∀ t, hash_order t ≡ₚ map_to_list t.
Variables uheld sheld : Z → Z.
Hypothesis sheld_pos : ∀ p, 0 ≤ sheld p.
Context {reading rdy : bool} {Hd : dcerpc_header → dcerpc_request_header → Prop} {U : request → Prop}.
#[local] Abbreviation I := (inv uheld sheld reading rdy Hd U any_entries).
(** ... with one more reference, to [p]. *)
#[local] Abbreviation J p := (inv uheld (hold p 1 sheld) reading rdy Hd U any_entries).

Lemma inv_shares sh' s' r :
  I r → shares_ok uheld (λ q, sh' q + count q (p_entries (r_pipe r))) s' → same_shares (r_shares r) s' →
  inv uheld sh' reading rdy Hd U any_entries (mk_rpc s' (r_services r) (r_pipe r)).
Proof. intros [] Hs Hsame. split; try done. by eapply hosts_free_same. Qed.
Lemma get_share_wp p r :
  I r → is_Some (ss_heap (r_shares r) !! p) →
  wp (share_op (get_ksmbd_share p)) r
    (λ g r', g = Some p ∧ J p r' ∧ same_shares (r_shares r) (r_shares r') ∧ r_pipe r' = r_pipe r) (λ _ _, False).
Proof.
  intros Hi Hp. apply wp_zoom. wp_by (by eapply get_share_same; [apply Hi|]); [|done].
  intros g s' (-> & Hs & Hsame). split; [done|]. split; [|done]. apply inv_shares; [done| |done].
  eapply shares_ok_ext; [done| |exact Hs]. counts.
Qed.

Lemma lookup_share_wp name r :
  I r →
  wp (share_op (shm_lookup_share name)) r (λ g r', match g with None => I r' | Some p => J p r' end) (λ _ _, False).
Proof.
  intros Hi. apply wp_zoom. unfold shm_lookup_share. do 2 wp_step. unfold __shm_lookup_share.
  destruct (ss_table (r_shares r) !! _) as [p|] eqn:Ht; [|wp_step; by destruct r].
  pose proof (iv_shares _ _ _ _ _ _ _ _ Hi) as [Hu Hp Hs]. destruct (co_table Hs _ _ Ht) as (x & Hx & _).
  wp_by (by eapply (get_share_same uheld); [apply Hi|]); [|done].
  intros g s' (-> & Hs' & Hsame). apply inv_shares; [done| |done]. eapply shares_ok_ext; [done| |exact Hs']. counts.
Qed.
(** Loading the share, giving it back, or leaving it to the pipe. *)
Lemma load_share_wp p r :
  J p r →
  wp (share_op (sload p)) r (λ x r', r' = r ∧ ss_heap (r_shares r) !! p = Some x ∧ no_hosts x) (λ _ _, False).
Proof.
  intros Hi. apply wp_zoom. destruct (shares_ok_live _ _ _ p (iv_shares _ _ _ _ _ _ _ _ Hi)) as [x Hx].
  { rewrite hold_same. pose proof (count_nonneg p (p_entries (r_pipe r))). specialize (sheld_pos p). lia. }
  eapply wp_load; [exact Hx|]. split; [by destruct r|]. split; [done|]. exact (iv_hosts _ _ _ _ _ _ _ _ Hi p x Hx).
Qed.
Lemma give_back_wp p r :
  J p r →
  wp (share_op (put_ksmbd_share (Some p))) r
    (λ _ r', I r' ∧ same_shares (r_shares r) (r_shares r') ∧ r_pipe r' = r_pipe r) (λ _ _, False).
Proof.
  intros Hi. apply wp_zoom. destruct Hi as [? ? ? ? ? ? ? ? ? ? ? Hs Hh ?].
  wp_by (apply (put_share_same hash_order_perm uheld (λ q, sheld q + count q (p_entries (r_pipe r))) _ (Some p));
    [eapply shares_ok_ext; [done| |exact Hs]; intros q; cbn [refs]; counts
    |intros q; pose proof (count_nonneg q (p_entries (r_pipe r))); specialize (sheld_pos q); lia]); [|done].
  intros _ s' [Hs' Hsame]. split; [|done]. split; try done. by eapply hosts_free_same.
Qed.
Lemma keep_entry_wp p r :
  J p r →
  wp (upd_pipe (λ q, set_entries (p_num_entries q + 1) (p_entries q ++ [p]) q)) r
    (λ _ r', I r' ∧ r_shares r' = r_shares r ∧ p_num_entries (r_pipe r') = p_num_entries (r_pipe r) + 1 ∧
             p_entries (r_pipe r') = p_entries (r_pipe r) ++ [p]) (λ _ _, False).
Proof.
  intros [? ? ? ? ? ? ? ? ? [Hn1 Hn2] ? Hs ? ?]. unfold upd_pipe. wp_step. split; [|done]. split; try done; cbn.
  - rewrite length_app. cbn. lia.
  - eapply shares_ok_ext; [done| |exact Hs]. counts.
Qed.

(** ** Requests *)
(** The shares that an enumeration shows. *)
Definition shown (s : sstate) (p : Z) : bool :=
  match ss_heap s !! p with
  | Some x => test_share_flag x KSMBD_SHARE_FLAG_BROWSEABLE && test_share_flag x KSMBD_SHARE_FLAG_AVAILABLE
  | None => false
  end.
Lemma shown_same s s' p : same_shares s s' → is_Some (ss_heap s' !! p) → shown s' p = shown s p.
Proof. intros [_ Hs] [y Hy]. unfold shown. destruct (Hs p y Hy) as (x & n & -> & ->). by rewrite Hy. Qed.
(** [r'] has the entries of [l] in addition. *)
Definition listed (r : rpc) (l : list Z) (r' : rpc) : Prop :=
  same_shares (r_shares r) (r_shares r') ∧
  p_num_entries (r_pipe r') = p_num_entries (r_pipe r) + Z.of_nat (length l) ∧
  p_entries (r_pipe r') = p_entries (r_pipe r) ++ l.
Lemma enum_share_wp p r :
  I r → is_Some (ss_heap (r_shares r) !! p) →
  wp (__enum_all_shares p) r (λ _ r', I r' ∧ listed r (if shown (r_shares r) p then [p] else []) r') (λ _ _, False).
Proof.
  intros Hi Hp. unfold __enum_all_shares. wp_step. wp_by (by apply get_share_wp); [|done].
  intros g r1 (-> & Hj & Hsame & Hpipe). wp_step. wp_by (by apply load_share_wp); [|done]. intros x _ (-> & Hx & _).
  assert (shown (r_shares r) p = test_share_flag x KSMBD_SHARE_FLAG_BROWSEABLE && test_share_flag x KSMBD_SHARE_FLAG_AVAILABLE) as ->.
  { rewrite <-(shown_same _ _ p Hsame) by by eexists. unfold shown. by rewrite Hx. }
  assert (wp (share_op (put_ksmbd_share (Some p))) r1 (λ _ r', I r' ∧ listed r [] r') (λ _ _, False)) as Hput.
  { wp_by (by apply give_back_wp); [|done]. intros _ r' (Hi' & Hs' & Hp'). split; [done|]. unfold listed.
    rewrite Hp', Hpipe, app_nil_r. split_and!; [by trans (r_shares r1)|cbn; lia|done]. }
  destruct (test_share_flag x KSMBD_SHARE_FLAG_BROWSEABLE); cbn [negb andb]; [|exact Hput].
  destruct (test_share_flag x KSMBD_SHARE_FLAG_AVAILABLE); cbn [negb andb]; [|exact Hput].
  wp_by (by apply keep_entry_wp); [|done]. intros _ r' (Hi' & Hs' & Hn' & He'). split; [done|].
  unfold listed. by rewrite Hs', Hn', He', Hpipe.
Qed.
Lemma enum_loop_wp s l r :
  I r → same_shares s (r_shares r) → (∀ x, x ∈ l → ss_table (r_shares r) !! x.1 = Some x.2) →
  wp (for_each l (λ x, __enum_all_shares x.2)) r
    (λ _ r', I r' ∧ listed r (filter (λ p, shown s p = true) l.*2) r') (λ _ _, False).
Proof.
  revert r. induction l as [|[n p] l IH]; intros r Hi Hsame Hl; cbn [for_each].
  { wp_step. split; [done|]. unfold listed. rewrite app_nil_r. split_and!; [done|cbn; lia|done]. }
  wp_step. pose proof (iv_shares _ _ _ _ _ _ _ _ Hi) as [_ _ Hs].
  destruct (co_table Hs n p) as (x & Hx & _); [apply (Hl (n, p)); set_solver|].
  wp_by (by apply enum_share_wp; [|eexists]); [|done]. intros _ r1 (Hi1 & Hs1 & Hn1 & He1).
  rewrite (shown_same s) in Hn1, He1 by (done || by eexists).
  wp_by (apply IH; [done|by trans (r_shares r)|]; intros y Hy; rewrite (proj1 Hs1); apply Hl; set_solver); [|done].
  intros _ r2 (Hi2 & Hs2 & Hn2 & He2). split; [done|]. unfold listed.
  rewrite Hn2, He2, Hn1, He1. cbn [fmap list_fmap snd]. rewrite filter_cons, <-(assoc_L (++)).
  split; [by trans (r_shares r1)|]. destruct (shown s p).
  - rewrite decide_True by done. cbn. split; [lia|done].
  - rewrite decide_False by done. cbn. split; [lia|done].
Qed.
Lemma enum_all_wp r :
  I r →
  wp srvsvc_share_enum_all_invoke r
    (λ _ r', I r' ∧ listed r (filter (λ p, shown (r_shares r) p = true) (hash_order (ss_table (r_shares r))).*2) r')
    (λ _ _, False).
Proof.
  intros Hi. unfold srvsvc_share_enum_all_invoke. do 3 wp_step.
  wp_by (apply (enum_loop_wp (r_shares r)); [done|done|]; intros [n p] Hx; rewrite hash_order_perm in Hx; by apply elem_of_map_to_list); [|done].
  intros _ r' [Hi' Hl]. unfold upd_pipe. wp_step. split; [destruct Hi'; by split|exact Hl].
Qed.
Lemma lookup_hosts_wp x map host r (Q : Z → rpc → Prop) :
  no_hosts x → (∀ v, Q v r) → wp (lookup_hosts x map host) r Q (λ _ _, False).
Proof.
  intros [Ha Hn] HQ. unfold lookup_hosts. destruct host; [by wp_step|].
  destruct map; [destruct (sh_hosts_allow x) as [l|]|destruct (sh_hosts_deny x) as [l|]]; cbn in Ha, Hn; subst;
    rewrite ?decide_True by done; wp_step; auto.
Qed.
End References.

(** ** Parsing *)
Section Parsing.
Context `{GLib, System, Allocator}.
Variable g_convert : Z → Z → bytes → option bytes.
Variable restrict_anon : Z.
Hypothesis hash_order_perm : ∀ t, hash_order t ≡ₚ map_to_list t.
Variables uheld sheld : Z → Z.
Hypothesis sheld_pos : ∀ p, 0 ≤ sheld p.
Context {rdy : bool} {Hd : dcerpc_header → dcerpc_request_header → Prop} {K : Z → list Z → Prop}.
#[local] Abbreviation I U := (inv uheld sheld true rdy Hd U K).

Lemma rsafe_read_vstring {E : Z → Prop} U : rsafe (I U) E (attempt (ndr (ndr_read_vstring g_convert))).
Proof.
  apply rsafe_attempt. intros r Hi. apply wp_zoom.
  wp_by (apply (ndr_read_vstring_wp g_convert); apply Hi).
  - intros s n []. by apply inv_moved.
  - intros e n []. split; [by apply inv_moved|done].
Qed.
Lemma rsafe_int U n {E : Z → Prop} :
  int_width n → E (- EINVAL) → rsafe_val (I U) E (int_valid n) (read_else_einval (ndr_read_int n)).
Proof. intros. by apply rsafe_read_int. Qed.

(** The share name is there. *)
Definition named (q : request) : Prop := info_request q ∧ ∃ s, q_32 q = Str s.
Lemma info_set_ref q v : info_request q → info_request (with_16 (set_bits (q_16 q) 0 32 v) q).
Proof.
  intros (Hn & x & Hq & Hx). split; [done|]. cbn. rewrite Hq. cbn [set_bits]. eexists. split; [done|].
  rewrite Z.shiftr_0_r, Z.mul_1_r, Z.mod_small by lia. pose proof (Z.mod_pos_bound v (2 ^ 32)). cbn in *. lia.
Qed.
Lemma info_set_8 q v : int_valid 4 v → info_request q → info_request (with_8 (Raw v) q).
Proof.
  intros Hv (Hn & Hq). split; [|done]. cbn [q_8 with_8 num_contexts]. rewrite shiftr_div by lia.
  unfold int_valid in Hv. cbn in Hv. rewrite Z.div_small by lia. done.
Qed.
Lemma rsafe_info {E : Z → Prop} f :
  (∀ q, typed q → typed (f q)) → (∀ q, info_request q → info_request (f q)) → rsafe (I info_request) E (upd_req f).
Proof. intros Ht Hq. apply rsafe_upd_req. auto. Qed.
Ltac keeps_typed := let q := fresh "q" in intros q []; split; try done; by apply is_raw_set_bits.

Lemma rsafe_server_name : rsafe (I info_request) any_code (read_server_name g_convert).
Proof.
  unfold read_server_name. eapply rsafe_bind_val; [apply (rsafe_int _ 4); [apply _|done]|intros ref _].
  apply rsafe_bind; [apply rsafe_info; [by intros q []|intros q; apply info_set_ref]|intros _].
  destruct (ref =? 0); [by apply rsafe_info; [intros q []|]|].
  unfold read_string. apply rsafe_bind; [apply rsafe_read_vstring|intros [s|e]].
  - by apply rsafe_info; [intros q []|].
  - apply rsafe_bind; [by apply rsafe_info; [intros q []|]|intros _]. by apply rsafe_fail.
Qed.
Lemma rsafe_set_level {E : Z → Prop} U v :
  (∀ q w, U q → U (with_0 w q)) → rsafe (I U) E (set_si_level v).
Proof. intros HU. apply rsafe_upd_req. intros q Ht Hq. split; [by apply typed_with_0|by apply HU]. Qed.
Lemma rsafe_payload_handle : rsafe (I info_request) any_code read_payload_handle.
Proof.
  unfold read_payload_handle. eapply rsafe_bind_val; [apply (rsafe_int _ 4); [apply _|done]|intros ref _].
  apply rsafe_bind; [apply rsafe_info; [keeps_typed|done]|intros _].
  destruct (ref =? 0); [apply rsafe_info; [keeps_typed|done]|].
  eapply rsafe_bind_val; [apply (rsafe_int _ 4); [apply _|done]|intros v _]. apply rsafe_info; [keeps_typed|done].
Qed.

Lemma rsafe_parse_enum :
  rsafe (I info_request) any_code
    (val <- read_else_einval ndr_read_union_int32 ;;
     if INT_MAX <? val then fail (- EINVAL)
     else
       set_si_level val ;;
       read_else_einval ndr_read_int32 ;;
       read_else_einval ndr_read_int32 ;;
       ptr <- read_else_einval ndr_read_int32 ;;
       if negb (ptr =? 0) then fail (- EINVAL)
       else
         val <- read_else_einval ndr_read_int32 ;;
         upd_req (with_8 (Raw val)) ;;
         read_payload_handle).
Proof.
  apply rsafe_bind; [apply rsafe_or_return; [|done]; apply rsafe_read; unfold ndr_read_union_int32; safes|intros val].
  destruct (INT_MAX <? val); [by apply rsafe_fail|].
  apply rsafe_bind; [by apply rsafe_set_level|intros _].
  do 3 (eapply rsafe_bind_val; [apply (rsafe_int _ 4); [apply _|done]|intros ? _]).
  destruct negb; [by apply rsafe_fail|].
  eapply rsafe_bind_val; [apply (rsafe_int _ 4); [apply _|done]|intros v Hv].
  apply rsafe_bind; [|intros _; apply rsafe_payload_handle].
  apply rsafe_info; [by intros q []|]. intros q. by apply info_set_8.
Qed.
Lemma parse_name_wp r :
  I info_request r →
  wp (read_string g_convert with_32 ;;
      val <- read_else_einval ndr_read_int32 ;;
      if INT_MAX <? val then fail (- EINVAL) else set_si_level val) r (λ _, I named) (λ _, I info_request).
Proof.
  intros Hi. wp_step. unfold read_string.
  eapply (wp_rsafe (I info_request) any_code); [apply rsafe_read_vstring|exact Hi|done|clear r Hi; intros [s|e] r Hi].
  - wp_by (eapply (upd_req_wp _ _ info_request r _ (U:=named)); [|exact Hi];
      intros q [] Hq; split; [by split|]; split; [exact Hq|by eexists]); [clear r Hi; intros _ r Hi|done].
    assert (∀ r, I named r → I info_request r) as Hweak.
    { intros r' Hr'. eapply inv_weaken; [exact Hr'|done| |done]. by intros q _ []. }
    eapply (wp_rsafe_val (I named) any_code); [apply (rsafe_int _ 4); [apply _|done]|exact Hi|auto|clear r Hi; intros v r Hi _].
    destruct (INT_MAX <? v); [wp_step; auto|].
    wp_by (eapply (rsafe_set_level (E:=any_code)); [|exact Hi]; done); [done|]. intros e r' []. auto.
  - eapply (wp_rsafe (I info_request) any_code); [by apply rsafe_info; [intros q []|]|exact Hi|done|].
    intros _ r' Hi'. by wp_step.
Qed.
End Parsing.

Section Invoke.
Context `{GLib, System, Allocator}.
Variable g_convert : Z → Z → bytes → option bytes.
Variable restrict_anon : Z.
Hypothesis hash_order_perm : ∀ t, hash_order t ≡ₚ map_to_list t.
Variables uheld sheld : Z → Z.
Hypothesis sheld_pos : ∀ p, 0 ≤ sheld p.
Context {rdy : bool} (n : Z).
#[local] Abbreviation I U := (inv uheld sheld true rdy (at_opnum n) U any_entries).

Lemma get_info_wp r : I named r → wp srvsvc_share_get_info_invoke r (λ _, I named) (λ _ _, False).
Proof.
  intros Hi. unfold srvsvc_share_get_info_invoke. do 3 wp_step.
  destruct (iv_req _ _ _ _ _ _ _ _ Hi) as [_ [name ->]]. cbn [string_at]. wp_step. wp_step.
  assert (∃ server, string_at (q_24 (d_req (r_dce r))) r = Done server r) as [server Es].
  { destruct (iv_typed _ _ _ _ _ _ _ _ Hi) as [_ _ _ H24 _]. destruct q_24 as [v| | |]; try done; [|by eexists].
    cbn in H24. subst v. by eexists. }
  eapply wp_run; [exact Es|]. wp_step. wp_by (by eapply lookup_share_wp); [|done]. clear r Hi Es.
  intros [p|] r Hi; [|by wp_step]. wp_step. wp_by (by eapply load_share_wp); [|done]. intros x _ (-> & _ & Hx).
  assert (wp (share_op (put_ksmbd_share (Some p))) r (λ _, I named) (λ _ _, False)) as Hput.
  { wp_by (by eapply give_back_wp); [by intros _ r' []|done]. }
  destruct negb; [exact Hput|]. wp_step. apply lookup_hosts_wp; [done|]. intros allowed.
  destruct (allowed =? - ENOENT); [exact Hput|]. wp_step.
  apply (wp_mono _ _ (λ _ r', r' = r) _ (λ _ _, False)); [|intros denied _ ->|done].
  { destruct (allowed =? 0); [by wp_step|]. wp_step. apply lookup_hosts_wp; [done|]. intros d. by wp_step. }
  destruct denied; [exact Hput|]. wp_step. wp_by (by eapply keep_entry_wp); [|done]. intros _ r' [Hi' _].
  wp_by (eapply (rsafe_processed _ _ (E:=λ _, False)); [|exact Hi']; done); [done|by intros ? ? []].
Qed.
Definition share_opnum : Prop := n = SRVSVC_OPNUM_SHARE_ENUM_ALL ∨ n = SRVSVC_OPNUM_GET_SHARE_INFO.
Lemma parse_wp r :
  share_opnum → I info_request r →
  wp (srvsvc_parse_share_info_req g_convert) r
    (λ _, I (if n =? SRVSVC_OPNUM_GET_SHARE_INFO then named else info_request)) (λ _, I info_request).
Proof.
  intros Hn Hi. unfold srvsvc_parse_share_info_req.
  eapply (wp_rsafe (I info_request) any_code); [apply rsafe_server_name|exact Hi|done|clear r Hi; intros _ r Hi].
  do 2 wp_step. cbv zeta. destruct (iv_hdr _ _ _ _ _ _ _ _ Hi) as [_ ->].
  destruct Hn as [-> | ->]; cbn [Z.eqb SRVSVC_OPNUM_SHARE_ENUM_ALL SRVSVC_OPNUM_GET_SHARE_INFO Pos.eqb].
  - wp_by (eapply rsafe_parse_enum; exact Hi); [done|by intros ? ? []].
  - by apply parse_name_wp.
Qed.
Lemma wp_ret_same {T : Type} (m : prog rpc T) U r (Q : T → rpc → Prop) E :
  rsafe (I U) (λ _, False) m → I U r → (∀ a r', I U r' → Q a r') → wp m r Q E.
Proof. intros Hm Hi HQ. wp_by (by apply Hm); [by auto|by intros ? ? []]. Qed.
Lemma info_invoke_wp r :
  share_opnum → I info_request r →
  wp (srvsvc_share_info_invoke g_convert restrict_anon) r (λ _, I info_request) (λ _, I info_request).
Proof.
  intros Hn Hi. unfold srvsvc_share_info_invoke. do 2 wp_step. wp_by (by eapply parse_wp); [|done].
  clear r Hi. set (U := if n =? SRVSVC_OPNUM_GET_SHARE_INFO then named else info_request). intros _ r Hi.
  assert (∀ r, I U r → I info_request r) as Hweak.
  { intros r' Hr'. eapply inv_weaken; [exact Hr'|done| |done]. unfold U. intros q _. by destruct (_ =? _); [intros []|]. }
  wp_step. eapply wp_ret_same; [by apply rsafe_processed|exact Hi|clear r Hi; intros _ r Hi].
  wp_step. eapply wp_ret_same; [apply rsafe_restricted|exact Hi|clear r Hi; intros b r Hi].
  unfold opnum. do 4 wp_step. destruct (iv_hdr _ _ _ _ _ _ _ _ Hi) as [_ ->].
  destruct (b && _); [wp_step; auto|]. unfold U in Hi.
  destruct (Z.eqb_spec n SRVSVC_OPNUM_GET_SHARE_INFO) as [_|Hne].
  - wp_by (by eapply get_info_wp); [|done]. intros _ r' Hi'. eapply inv_weaken; [exact Hi'|done| |done]. by intros q _ [].
  - rewrite (proj2 (Z.eqb_eq n SRVSVC_OPNUM_SHARE_ENUM_ALL)) by (destruct Hn; done).
    wp_by (by eapply enum_all_wp); [by intros _ r' []|done].
Qed.
Definition srvsvc_pending (q : request) : Prop := share_opnum ∧ info_request q.
Lemma srvsvc_write_wp r :
  I no_list r → wp (srvsvc_invoke g_convert restrict_anon) r (λ _, I (λ q, no_list q ∨ srvsvc_pending q)) (λ _ _, False).
Proof.
  intros Hi. unfold srvsvc_invoke, opnum. do 4 wp_step. destruct (iv_hdr _ _ _ _ _ _ _ _ Hi) as [_ ->].
  destruct (_ || _) eqn:Hn.
  2:{ wp_step. eapply inv_weaken; [exact Hi|done| |done]. by left. }
  assert (share_opnum) as Hop by (apply orb_true_iff in Hn as [?%Z.eqb_eq|?%Z.eqb_eq]; [by left|by right]).
  assert (I info_request r) as Hi1.
  { eapply inv_weaken; [exact Hi|done| |done]. intros q _. apply no_list_info. }
  unfold code_of. do 2 wp_step. wp_by (by eapply info_invoke_wp); intros ? r' Hi'; wp_step;
    (eapply inv_weaken; [exact Hi'|done| |done]); intros q _ Hq; right; by split.
Qed.
End Invoke.

(** ** Replies *)
Section Return.
Context `{GLib, System, Allocator}.
Variable g_convert : Z → Z → bytes → option bytes.
Variable g_utf8_strlen : bytes → Z.
Variable restrict_anon : Z.
Hypothesis hash_order_perm : ∀ t, hash_order t ≡ₚ map_to_list t.
Hypothesis g_convert_small : ∀ t f s out, g_convert t f s = Some out → Z.of_nat (length out) ≤ 2 ^ 62.
Variables uheld sheld : Z → Z.
Hypothesis sheld_pos : ∀ p, 0 ≤ sheld p.
Context {rdy : bool}.
#[local] Abbreviation I U K := (inv uheld sheld false rdy any_header U K).

Section Statements.
Context {U : request → Prop} {K : Z → list Z → Prop} {E : Z → Prop}.
Lemma rsafe_put_data {T : Type} (m : prog dcerpc T) :
  safe (appends_in reply_limit) m → E KSMBD_RPC_EBAD_DATA → rsafe (I U K) E (or_bad_data m).
Proof. intros. by apply rsafe_bad_data. Qed.
Lemma rsafe_ndr {T : Type} (m : prog dcerpc T) : safe (appends_in reply_limit) m → rsafe (I U K) any_code (ndr m).
Proof. apply rsafe_write. Qed.
Lemma rsafe_vstring s : rsafe (I U K) any_code (vstring g_convert g_utf8_strlen s).
Proof. by apply rsafe_write, ndr_write_vstring_in. Qed.
Lemma rsafe_write_ref : rsafe (I U K) any_code write_ref.
Proof. unfold write_ref. apply rsafe_bind; [apply rsafe_next_pointer|intros n]. apply rsafe_ndr. safes. Qed.
Lemma rsafe_si_level : rsafe (I U K) E si_level.
Proof.
  unfold si_level. apply rsafe_get_bind. intros r Hi. apply rsafe_bind; [|intros v; apply rsafe_ret].
  apply rsafe_bits, (iv_typed _ _ _ _ _ _ _ _ Hi).
Qed.
Lemma rsafe_restricted_reply : rsafe (I U K) E (restricted restrict_anon).
Proof. apply rsafe_restricted. Qed.
End Statements.
#[local] Hint Extern 1 (rsafe _ _ (or_bad_data _)) => apply rsafe_put_data; [safes|solve [eauto 2 with ksmbd]] : ksmbd.
#[local] Hint Extern 1 (rsafe _ any_code (ndr _)) => apply rsafe_ndr; safes : ksmbd.
#[local] Hint Resolve rsafe_vstring rsafe_write_ref rsafe_si_level rsafe_restricted_reply : ksmbd.

Lemma rsafe_rep U c l n p :
  p ∈ l → rsafe (I U (λ m l', m = n ∧ l' = l)) any_code (__share_entry_rep c p).
Proof.
  intros Hp. unfold __share_entry_rep. apply rsafe_bind; [eapply (rsafe_load _ _ sheld_pos _ l); [|done]; by intros ? ? []|].
  intros x. destruct c; rsafes.
Qed.
Lemma rsafe_data U c l n p :
  p ∈ l → rsafe (I U (λ m l', m = n ∧ l' = l)) any_code (__share_entry_data g_convert g_utf8_strlen c p).
Proof.
  intros Hp. unfold __share_entry_data. apply rsafe_bind; [eapply (rsafe_load _ _ sheld_pos _ l); [|done]; by intros ? ? []|].
  intros x. destruct c; rsafes.
Qed.
Lemma array_wp U c r :
  I U any_entries r →
  wp (write_array g_convert g_utf8_strlen (Some c) (p_num_entries (r_pipe r))) r
    (λ _, I U any_entries) (λ e r', I U any_entries r' ∧ final_code e).
Proof.
  intros Hi. cbn [write_array]. apply (write_array_wp hash_order_perm uheld sheld sheld_pos);
    [intros; by apply rsafe_rep|intros; by apply rsafe_data|by eauto with ksmbd|done].
Qed.
(** Nothing is enumerated at a level that is not supported. *)
Definition level_known (c : option ctr) (n : Z) (l : list Z) : Prop := c = None → n = 0.
Lemma rsafe_tail U : rsafe (I U any_entries) final_code
  (r <- get ;;
   or_bad_data (ndr_write_int32 (p_num_processed (r_pipe r))) ;;
   write_ref else_return KSMBD_RPC_EBAD_DATA ;;
   or_bad_data (ndr_write_int32 0)).
Proof. rsafes. Qed.
Lemma enum_return_wp U c r :
  I U (level_known c) r →
  wp (srvsvc_share_enum_all_return g_convert g_utf8_strlen c) r
    (λ _, I U any_entries) (λ e r', I U any_entries r' ∧ final_code e).
Proof.
  intros Hi. unfold srvsvc_share_enum_all_return. do 2 wp_step. cbv zeta.
  set (nr := p_num_entries (r_pipe r)). set (K := λ (m : Z) (l : list Z), m = nr).
  assert (I U K r) as Hk by (destruct Hi; by split).
  assert (c = None → nr = 0) as Hc by exact (iv_known _ _ _ _ _ _ _ _ Hi). clear Hi. clearbody nr.
  assert (∀ r', I U K r' → I U any_entries r') as Hw by (intros; by eapply inv_weaken).
  assert (∀ e r', I U K r' → final_code e → I U any_entries r' ∧ final_code e) as He by auto.
  do 4 (eapply (wp_rsafe (I U K) final_code); [by rsafes|exact Hk|exact He|clear r Hk; intros ? r Hk]).
  wp_step. apply (wp_mono _ _ (λ _, I U any_entries) _ (λ e r', I U any_entries r' ∧ final_code e)); [| |done].
  - destruct (Z.eqb_spec nr 0) as [Hz|Hz].
    { wp_by (eapply (rsafe_put_data (K:=K) (E:=final_code)); [| |exact Hk]; [safes|eauto with ksmbd]); auto. intros e r' []. auto. }
    do 2 (eapply (wp_rsafe (I U K) final_code); [by rsafes|exact Hk|exact He|clear r Hk; intros ? r Hk]).
    destruct c as [c|]; [|by destruct Hz, Hc]. rewrite <-(iv_known _ _ _ _ _ _ _ _ Hk). apply array_wp. auto.
  - intros _ r' Hi'. by apply rsafe_tail.
Qed.

Lemma get_info_return_wp U c r :
  I U (level_known c) r →
  wp (srvsvc_share_get_info_return g_convert g_utf8_strlen restrict_anon c) r
    (λ _, I U any_entries) (λ e r', I U any_entries r' ∧ final_code e).
Proof.
  intros Hk. unfold srvsvc_share_get_info_return.
  assert (∀ r', I U (level_known c) r' → I U any_entries r') as Hw by (intros; by eapply inv_weaken).
  assert (∀ e r', I U (level_known c) r' → final_code e → I U any_entries r' ∧ final_code e) as He by auto.
  do 2 (eapply (wp_rsafe (I U (level_known c)) final_code); [by rsafes|exact Hk|exact He|clear r Hk; intros ? r Hk]).
  do 2 wp_step. destruct (Z.eqb_spec (p_num_entries (r_pipe r)) 0) as [Hz|Hz]; cbn [negb].
  - destruct c as [c|]; [|wp_step; split; [auto|by eauto with ksmbd]].
    eapply (wp_rsafe (I U (level_known (Some c))) final_code); [|exact Hk|exact He|clear r Hk Hz; intros _ r Hk].
    { unfold __share_entry_null_rep, zero_words. rsafes. }
    eapply (wp_rsafe (I U (level_known (Some c))) final_code); [by rsafes|exact Hk|exact He|clear r Hk; intros b r Hk].
    wp_step. split; [auto|]. destruct b; eauto with ksmbd.
  - destruct c as [c|]; [apply array_wp; auto|]. destruct Hz. by apply (iv_known _ _ _ _ _ _ _ _ Hk).
Qed.
Lemma code_of_wp (m : prog rpc unit) r (J : rpc → Prop) :
  wp m r (λ _, J) (λ e r', J r' ∧ final_code e) →
  wp (code_of m) r (λ code r', J r' ∧ final_code code) (λ _ _, False).
Proof.
  intros Hm. unfold code_of. do 2 wp_step. wp_by (exact Hm).
  - intros _ r' Hj. wp_step. split; [done|]. unfold final_code. by vm_compute.
  - intros e r' []. by wp_step.
Qed.
Lemma info_cleared q :
  info_request q → no_list (with_24 (Raw 0) (with_16 (set_bits (q_16 q) 0 32 0) q)).
Proof.
  intros (Hn & x & Hq & Hx). split; [done|]. cbn. rewrite Hq. cbn [set_bits].
  rewrite Z.shiftr_0_r, !Z.mul_1_r, Z.mod_small by lia. f_equal. rewrite Z.mod_0_l by done. lia.
Qed.
Lemma rsafe_finish_info status : rsafe (I no_list any_entries) any_code (write_status status).
Proof. apply rsafe_inv, ginv_write_status. Qed.
Lemma clear_headers_wp r status :
  final_code status → I info_request any_entries r →
  wp (srvsvc_clear_headers status) r (λ _, I no_list any_entries) (λ _ _, False).
Proof.
  intros Hs Hi. unfold srvsvc_clear_headers. destruct (Z.eqb_spec status KSMBD_RPC_EMORE_DATA); [done|].
  do 2 wp_step. apply (free_at_bind_wp _ _ (λ q, with_24 (Raw 0) (with_16 (set_bits (q_16 q) 0 32 0) q)));
    [by apply string_freeable; destruct (iv_typed _ _ _ _ _ _ _ _ Hi)|done|].
  wp_by (eapply (upd_req_wp _ _ info_request r _ (U:=no_list)); [|exact Hi];
    intros q [] Hq; split; [by split|]; by apply info_cleared); [|done].
  intros _ r1 Hi1. destruct (_ =? _); [|by wp_step]. wp_step. apply (free_at_wp _ _ (with_32 (Raw 0)));
    [by apply string_freeable; destruct (iv_typed _ _ _ _ _ _ _ _ Hi1)|done|].
  eapply (upd_req_wp _ _ no_list r1); [|exact Hi1]. intros q [] Hq. by split; [split|].
Qed.
Lemma info_return_wp r :
  I info_request any_entries r →
  wp (srvsvc_share_info_return g_convert g_utf8_strlen restrict_anon) r
    (λ _, I no_list any_entries) (λ _, I no_list any_entries).
Proof.
  intros Hi. unfold srvsvc_share_info_return.
  eapply (wp_rsafe (I info_request any_entries) (λ _, False)); [by apply rsafe_set_cursor|exact Hi|done|clear r Hi; intros _ r Hi].
  eapply (wp_rsafe (I info_request any_entries) (λ _, False)); [apply rsafe_num_processed|exact Hi|done|clear r Hi; intros _ r Hi].
  eapply (wp_rsafe (I info_request any_entries) (λ _, False)); [apply rsafe_si_level|exact Hi|done|clear r Hi; intros level r Hi].
  cbv zeta. set (c := ctr_of level). wp_step.
  apply (wp_mono _ _ (λ _, I info_request (level_known c)) _ (λ _ _, False)); [|clear r Hi; intros _ r Hi|done].
  { destruct c; [wp_step; by eapply inv_weaken|].
    wp_by (by eapply inv_reset_wp); [|done]. intros _ r' Hi'. eapply inv_weaken; [exact Hi'|done|done|]. by intros ? ? -> _. }
  unfold opnum. do 4 wp_step. set (n := rh_opnum _). clearbody n. wp_step.
  apply (wp_mono _ _ (λ code r', I info_request any_entries r' ∧ final_code code) _ (λ _ _, False));
    [|clear r Hi; intros status r [Hi Hs]|done].
  { destruct (n =? _); [by apply code_of_wp, get_info_return_wp|].
    destruct (n =? _); [by apply code_of_wp, enum_return_wp|].
    wp_step. split; [by eapply inv_weaken|]. unfold final_code. by vm_compute. }
  eapply (wp_rsafe (I info_request any_entries) (λ _, False)); [apply rsafe_restricted_reply|exact Hi|done|clear r Hi; intros b r Hi].
  set (st := if _ : bool then KSMBD_RPC_EACCESS_DENIED else status).
  assert (final_code st) as Hst by (unfold st; destruct (b && _); [eauto with ksmbd|done]). clearbody st.
  wp_step. wp_by (by apply clear_headers_wp); [|done]. clear r Hi. intros _ r Hi.
  wp_by (eapply (rsafe_finish_info st); exact Hi); [done|by intros ? ? []].
Qed.
Lemma reply_buffer_wp U K r sz :
  I U K r → 0 ≤ sz ≤ reply_limit → wp (set_reply_buffer sz) r (λ _, I U K) (λ _ _, False).
Proof. intros Hi Hsz. wp_by (eapply (rsafe_inv _ _ (E:=λ _, False)); [by apply ginv_reply_buffer|exact Hi]); [done|by intros ? ? []]. Qed.
Lemma srvsvc_read_wp n r max_resp_sz :
  0 ≤ max_resp_sz ≤ reply_limit →
  inv uheld sheld false rdy (at_opnum n) (λ q, no_list q ∨ srvsvc_pending n q) any_entries r →
  wp (srvsvc_return g_convert g_utf8_strlen restrict_anon max_resp_sz) r (λ _, I no_list any_entries) (λ _ _, False).
Proof.
  intros Hm Hi. unfold srvsvc_return, opnum. do 4 wp_step. destruct (iv_hdr _ _ _ _ _ _ _ _ Hi) as [_ ->].
  assert (share_opnum n → I info_request any_entries r) as Hw.
  { intros Hn. eapply inv_weaken; [exact Hi|done| |done]. intros q _ [Hq|[_ Hq]]; [by apply no_list_info|done]. }
  assert (∀ r, I info_request any_entries r →
    wp (code_of (srvsvc_share_info_return g_convert g_utf8_strlen restrict_anon)) r (λ _, I no_list any_entries) (λ _ _, False)) as Hret.
  { intros r' Hr'. unfold code_of. do 2 wp_step. wp_by (by apply info_return_wp); intros ? r2 Hr2; by wp_step. }
  destruct (Z.eqb_spec n SRVSVC_OPNUM_SHARE_ENUM_ALL) as [E|E1].
  { specialize (Hw (or_introl E)). unfold si_max_size.
    eapply (wp_rsafe_val (I info_request any_entries) (λ _, False) (λ v, 0 ≤ v)); [|exact Hw|done|].
    { intros r0 Hi0. do 2 wp_step. destruct (iv_typed _ _ _ _ _ _ _ _ Hi0) as [_ H8 _ _ _].
      destruct (q_8 (d_req (r_dce r0))); try done. cbn [get_bits]. wp_step. split; [done|]. apply Z.mod_pos_bound. lia. }
    clear r Hi Hw. intros v r Hi Hv. assert (0 ≤ (if v <? max_resp_sz then s32 v else max_resp_sz) ≤ reply_limit).
    { destruct (Z.ltb_spec v max_resp_sz); [|done]. destruct (cursor_small v) as [-> _]; lia. }
    wp_step. wp_by (by apply (reply_buffer_wp _ _ _ _ Hi)); [|done].
    intros _ r' Hi'. by apply Hret. }
  destruct (Z.eqb_spec n SRVSVC_OPNUM_GET_SHARE_INFO) as [E|E2].
  { wp_step. wp_by (by apply (reply_buffer_wp info_request any_entries); [apply Hw; right|]); [|done]. intros _ r' Hi'. by apply Hret. }
  wp_step. eapply inv_weaken; [exact Hi|done| |done]. intros q _ [Hq|[[?|?] _]]; done.
Qed.
End Return.

(** ** The interface *)

(** The other interfaces are left open. *)
Section Interface.
Context `{GLib, System, Allocator}.
Variable g_convert : Z → Z → bytes → option bytes.
Variable g_utf8_strlen : bytes → Z.
Variable restrict_anon : Z.
Variable others : Interfaces.
Definition with_srvsvc : Interfaces := {|
  rpc_write i := match i with SRVSVC => srvsvc_invoke g_convert restrict_anon | _ => @rpc_write others i end;
  rpc_read i := match i with
                | SRVSVC => srvsvc_return g_convert g_utf8_strlen restrict_anon
                | _ => @rpc_read others i end;
|}.
Hypothesis hash_order_perm : ∀ t, hash_order t ≡ₚ map_to_list t.
Hypothesis g_convert_small : ∀ t f s out, g_convert t f s = Some out → Z.of_nat (length out) ≤ 2 ^ 62.
#[export] Program Instance srvsvc_lawful : @Lawful _ with_srvsvc SRVSVC := {| pending := srvsvc_pending |}.
Next Obligation. intros. by apply srvsvc_write_wp. Qed.
Next Obligation. intros. by eapply srvsvc_read_wp. Qed.

(** ** Safety *)
Hypothesis small_requests : ∀ n, n ≤ 255 * dcerpc_context_sz → g_try_malloc n = true.
#[local] Existing Instance with_srvsvc.

End Interface.

(** C21 (functional): an enumeration leaves in the pipe exactly the shares of the
    table that are browseable and available, in the order of the table, each
    with a reference of its own, and changes nothing else of any share. *)
Theorem enumeration_lists_shown `{GLib, System, Allocator} uheld sheld reading rdy Hd U r :
  (∀ t, hash_order t ≡ₚ map_to_list t) → (∀ p, 0 ≤ sheld p) →
  inv uheld sheld reading rdy Hd U any_entries r →
  let l := filter (λ p, shown (r_shares r) p = true) (hash_order (ss_table (r_shares r))).*2 in
  wp srvsvc_share_enum_all_invoke r
    (λ _ r', p_entries (r_pipe r') = p_entries (r_pipe r) ++ l ∧
             p_num_entries (r_pipe r') = p_num_entries (r_pipe r) + Z.of_nat (length l) ∧
             same_shares (r_shares r) (r_shares r') ∧
             shares_ok uheld (λ q, sheld q + count q (p_entries (r_pipe r')) ) (r_shares r')) (λ _ _, False).
Proof.
  intros Ho Hpos Hi l. wp_by (by eapply (enum_all_wp Ho uheld sheld)); [|done].
  intros _ r' (Hi' & Hs & Hn & He). split_and!; [done..|]. apply Hi'.
Qed.

(** ** A server with one share *)
Definition toy_share (hosts : option (gset bytes)) : share :=
  mk_share (str "media") (Some (str "/srv")) 0 0 1 0 0 0 0 0 0
    (Z.lor KSMBD_SHARE_FLAG_AVAILABLE KSMBD_SHARE_FLAG_BROWSEABLE) 0 0 None None [] hosts None None.
Definition toy_shares (hosts : option (gset bytes)) : sstate :=
  mk_sstate alice_state {[ 1 := toy_share hosts ]} {[ str "media" := 1 ]} 2.
Lemma toy_shares_ok hosts : shares_ok (H:=toy_glib) (λ _, 0) (λ _, 0) (toy_shares hosts).
Proof.
  split; [|done|split]; cbn [toy_shares ss_users ss_heap ss_table ss_next].
  - eapply counted_ext; [|exact alice_state_ok]. intros p. unfold all_users, heap_refs.
    rewrite map_to_list_singleton. reflexivity.
  - intros n p [<- <-]%lookup_singleton_Some. exists (toy_share hosts). rewrite lookup_singleton_eq.
    split_and!; reflexivity.
  - intros p o [<- <-]%lookup_singleton_Some. split; [vm_compute; congruence|].
    rewrite decide_True; [reflexivity|]. apply lookup_singleton_Some. split; reflexivity.
  - intros p o [<- <-]%lookup_singleton_Some _. apply lookup_singleton_Some. split; reflexivity.
  - intros p [o [<- _]%lookup_singleton_Some]. lia.
  - intros p. lia.
Qed.
Definition silent : Interfaces :=
  {| rpc_write _ := ret KSMBD_RPC_ENOTIMPLEMENTED; rpc_read _ _ := ret KSMBD_RPC_ENOTIMPLEMENTED |}.
Definition ascii_length (s : bytes) : Z := Z.of_nat (length s).
Definition toy_interfaces : Interfaces :=
  with_srvsvc (H:=toy_glib) (H0:=total_system) (H1:=plenty) ascii_convert ascii_length 0 silent.
Definition toy_server (hosts : option (gset bytes)) : server := mk_server (toy_shares hosts) no_services ∅.
(** The headers of a message, and requests with the stub [words]. *)
Definition toy_pdu (ptype : Z) (body : bytes) : bytes :=
  [5; 0; ptype; 3; 16; 0; 0; 0] ++ le_bytes 2 (16 + Z.of_nat (length body)) ++ [0; 0; 1; 0; 0; 0] ++ body.
Definition toy_request (opnum : Z) (stub : bytes) : bytes := toy_pdu 0 ([0; 0; 0; 0; 0; 0] ++ le_bytes 2 opnum ++ stub).
Definition toy_words (l : list Z) : bytes := concat (map (le_bytes 4) l).
Definition toy_enum : bytes := toy_request 15 (toy_words [0; 1; 1; 0x20004; 0; 0; 0xFFFFFFFF; 0]).
Definition toy_command (m : method) (payload : bytes) : method * command :=
  (m, mk_command 7 KSMBD_RPC_SRVSVC_METHOD_INVOKE payload).
Abbreviation toy_run l hosts :=
  (for_each l (λ c, serve (H:=toy_glib) (H1:=plenty) (H2:=toy_interfaces) 4080 c ;; ret tt) (toy_server hosts)).
Abbreviation toy_law :=
  (srvsvc_lawful (H:=toy_glib) (H0:=total_system) (H1:=plenty) ascii_convert ascii_length 0 silent
    (λ t, reflexivity (map_to_list t)) ascii_convert_small).


Definition toy_pipe : rpc :=
  mk_rpc (toy_shares None) no_services
    (set_dce (set_rpc_req (Message KSMBD_RPC_SRVSVC_METHOD_INVOKE)
       (set_ndr (dcerpc_set_ext_payload toy_enum (d_ndr (dcerpc_ext_alloc []))) (dcerpc_ext_alloc [])))
       (rpc_pipe_alloc 7 [])).
Lemma toy_pipe_ok : inv (H:=toy_glib) (λ _, 0) (λ _, 0) true false any_header no_list any_entries toy_pipe.
Proof.
  split; try done.
  - apply (bool_decide_unpack _). vm_compute. exact I.
  - by eexists.
  - eapply shares_ok_ext; [done| |exact (toy_shares_ok None)]. done.
  - intros p x Hx. apply (lookup_singleton_Some 1 p (toy_share None)) in Hx as [<- <-]. split; reflexivity.
Qed.
Lemma enumeration_lists_shown_witness :
  ∃ r', srvsvc_share_enum_all_invoke (H:=toy_glib) toy_pipe = Done tt r' ∧ p_entries (r_pipe r') = [1] ∧
        shares_ok (H:=toy_glib) (λ _, 0) (λ q, 0 + count q (p_entries (r_pipe r'))) (r_shares r').
Proof.
  assert (∃ r', srvsvc_share_enum_all_invoke (H:=toy_glib) toy_pipe = Done tt r' ∧ p_entries (r_pipe r') = [1])
    as (r' & E & He) by (eexists; split; [vm_compute; reflexivity|reflexivity]).
  exists r'. split; [exact E|]. split; [exact He|].
  destruct (wp_Done _ _ _ _ _ _ (enumeration_lists_shown (H:=toy_glib) (H0:=total_system) (H1:=plenty) (λ _, 0) (λ _, 0)
    true false any_header no_list toy_pipe (λ t, reflexivity (map_to_list t)) (λ _, Z.le_refl 0) toy_pipe_ok) E)
    as (_ & _ & _ & Hs). exact Hs.
Defined.

(** Three crashes. A request for information on a share with a list
    of allowed hosts that gives no server name compares NULL with a pattern; a
    query for the length of a pending reply reads the message of the request
    that was already freed; and a pipe with the handle 0xFFFFFFFF stays in the
    table after it was closed and freed. *)
Theorem rpc_crashes :
  toy_run [toy_command OPEN [];
           toy_command WRITE (toy_request 16 (toy_words [0; 6; 0; 6] ++ concat (map (λ b, [b; 0]) (str "media")) ++ [0; 0]
                                              ++ toy_words [1]))]
    (Some {[ str "10.0.0.1" ]}) = Fault ∧
  (∀ s, toy_run [toy_command OPEN []; toy_command WRITE toy_enum] None = Done tt s →
    rpc_state_request (H1:=plenty) (H2:=toy_interfaces) (toy_command READ []).2 4080 s = Fault) ∧
  toy_run (map (λ m, (m, mk_command no_id KSMBD_RPC_SRVSVC_METHOD_INVOKE [])) [OPEN; CLOSE; READ]) None = Fault.
Proof.
  split; [vm_compute; reflexivity|]. split; [|vm_compute; reflexivity].
  intros s E. assert (∃ s0, toy_run [toy_command OPEN []; toy_command WRITE toy_enum] None = Done tt s0 ∧
    rpc_state_request (H1:=plenty) (H2:=toy_interfaces) (toy_command READ []).2 4080 s0 = Fault) as (s0 & E0 & Hf).
  { eexists. split; [vm_compute; reflexivity|]. vm_compute. reflexivity. }
  rewrite E0 in E. injection E as <-. exact Hf.
Qed.
