(* ===== verification/Wkssvc.v ===== *)
(** * The workstation service ([src/mountd/rpc_wkssvc.c])

    One operation, the information on the workstation: the request names a
    server and a level, the reply gives the name back with the work group. *)

From S2P Require Import Prelude ConfText Refcount Users Shares Ndr Rpc Srvsvc.

Definition WKSSVC_NETWKSTA_GET_INFO : Z := 0.
Definition WKSSVC_PLATFORM_ID_NT : Z := 500.
Definition WKSSVC_VERSION_MAJOR : Z := 0x2.
Definition WKSSVC_VERSION_MINOR : Z := 0x1.

Section Wkssvc.
Context `{GLib, System, Allocator}.
Variable g_convert : Z → Z → bytes → option bytes.
Variable g_utf8_strlen : bytes → Z.
Variable restrict_anon : Z.
(** [global_conf.work_group] *)
Variable work_group : option bytes.

(** The fields of [wi_req] in the words of the union. *)
Definition wi_level : prog rpc Z := r <- get ;; v <- get_bits (q_16 (d_req (r_dce r))) 0 32 ;; ret (s32 v).
Definition set_wi_level (v : Z) : prog rpc unit := upd_req (λ q, with_16 (set_bits (q_16 q) 0 32 v) q).
Definition wi_server_name : prog rpc (option bytes) := r <- get ;; string_at (q_8 (d_req (r_dce r))).

(** [ndr_free_uniq_vstring_ptr(&pipe->dce->wi_req.server_name)] *)
Definition wkssvc_clear_headers : prog rpc unit :=
  upd_req (λ q, with_0 (set_bits (q_0 q) 0 32 0) q) ;;
  free_at q_8 with_8 ;;
  upd_req (with_8 (Raw 0)).

(** ** Replies *)
Definition __netwksta_entry_rep_ctr100 : prog rpc unit :=
  ndr (ndr_write_int32 WKSSVC_PLATFORM_ID_NT) ;;
  write_ref ;;
  write_ref ;;
  ndr (ndr_write_int32 WKSSVC_VERSION_MAJOR) ;;
  ndr (ndr_write_int32 WKSSVC_VERSION_MINOR).
Definition __netwksta_entry_data_ctr100 : prog rpc unit :=
  server_name <- wi_server_name ;;
  vstring g_convert g_utf8_strlen server_name ;;
  vstring g_convert g_utf8_strlen work_group.
(** The callbacks are set when the level is 100. *)
Definition wkssvc_netwksta_get_info_return : prog rpc unit :=
  level <- wi_level ;;
  or_bad_data (ndr_write_union_int32 level) ;;
  if negb (level =? 100) then fail KSMBD_RPC_EINVALID_LEVEL
  else
    __netwksta_entry_rep_ctr100 else_return KSMBD_RPC_EBAD_DATA ;;
    __netwksta_entry_data_ctr100 else_return KSMBD_RPC_EBAD_DATA.
Definition wkssvc_netwksta_info_return : prog rpc unit :=
  set_cursor (dcerpc_header_sz + dcerpc_response_header_sz) ;;
  upd_pipe (set_num_processed 0) ;;
  level <- wi_level ;;
  (if level =? 100 then ret tt else rpc_pipe_reset) ;;
  n <- opnum ;;
  status <- (if n =? WKSSVC_NETWKSTA_GET_INFO then code_of wkssvc_netwksta_get_info_return
             else ret KSMBD_RPC_ENOTIMPLEMENTED) ;;
  b <- restricted restrict_anon ;;
  let status := if b : bool then KSMBD_RPC_EACCESS_DENIED else status in
  wkssvc_clear_headers ;;
  write_status status.
Definition wkssvc_return (max_resp_sz : Z) : prog rpc Z :=
  n <- opnum ;;
  if n =? WKSSVC_NETWKSTA_GET_INFO
  then set_reply_buffer max_resp_sz ;; code_of wkssvc_netwksta_info_return
  else ret KSMBD_RPC_EBAD_FUNC.

(** ** Requests *)

(** [ndr_read_uniq_vstring_ptr(dce, &hdr->server_name)] *)
Definition read_wi_server_name : prog rpc unit :=
  ref_id <- read_else_einval ndr_read_int32 ;;
  upd_req (λ q, with_0 (set_bits (q_0 q) 0 32 ref_id) q) ;;
  if ref_id =? 0 then upd_req (with_8 (Raw 0)) else read_string g_convert with_8.
Definition wkssvc_parse_netwksta_info_req : prog rpc unit :=
  read_wi_server_name ;;
  val <- read_else_einval ndr_read_int32 ;;
  if INT_MAX <? val then fail (- EINVAL) else set_wi_level val.
(** [wkssvc_netwksta_get_info_invoke] does nothing. *)
Definition wkssvc_netwksta_info_invoke : prog rpc unit :=
  wkssvc_parse_netwksta_info_req else_return KSMBD_RPC_EBAD_DATA ;;
  b <- restricted restrict_anon ;;
  n <- opnum ;;
  if b : bool then ret tt
  else if n =? WKSSVC_NETWKSTA_GET_INFO then ret tt
  else fail KSMBD_RPC_ENOTIMPLEMENTED.
Definition wkssvc_invoke : prog rpc Z :=
  n <- opnum ;;
  if n =? WKSSVC_NETWKSTA_GET_INFO then code_of wkssvc_netwksta_info_invoke else ret KSMBD_RPC_ENOTIMPLEMENTED.
End Wkssvc.

(** ** Safety *)

(** The union of a pipe of this service: integers, or integers and the name. *)
Definition wk_idle (q : request) : Prop := is_raw (q_0 q) ∧ is_raw (q_8 q) ∧ is_raw (q_16 q).
Definition wk_named (q : request) : Prop := is_raw (q_0 q) ∧ string_word (q_8 q) ∧ is_raw (q_16 q).
Definition wk_cleared (q : request) : Prop := wk_idle q ∧ q_8 q = Raw 0.
(** Nothing is left in such a pipe that a reset would give back. *)
Definition no_callback (r : rpc) : Prop := p_processed (r_pipe r) = None.
#[export] Instance no_callback_untouched : Untouched no_callback.
Proof. intros r r' [? ? ? ? ? Hp] Hr. unfold no_callback in *. by rewrite Hp. Qed.

Section Safety.
Context `{GLib, System, Allocator}.
Variable g_convert : Z → Z → bytes → option bytes.
Variable g_utf8_strlen : bytes → Z.
Variable restrict_anon : Z.
Variable work_group : option bytes.
Hypothesis g_convert_small : ∀ t f s out, g_convert t f s = Some out → Z.of_nat (length out) ≤ 2 ^ 62.

Lemma named_with_0 q off w v : wk_named q → wk_named (with_0 (set_bits (q_0 q) off w v) q).
Proof. intros (? & ? & ?). split_and!; [by apply is_raw_set_bits|done..]. Qed.
Lemma named_with_16 q off w v : wk_named q → wk_named (with_16 (set_bits (q_16 q) off w v) q).
Proof. intros (? & ? & ?). split_and!; [done..|by apply is_raw_set_bits]. Qed.

Section Requests.
Context {rdy : bool} {Hd : dcerpc_header → dcerpc_request_header → Prop}.
#[local] Abbreviation I U := (ginv no_callback true rdy Hd U).
(** Once the referent was read, the pointer holds the name or NULL. *)
Lemma read_name_wp r :
  I wk_idle r → (∃ v d, ndr_read_int32 (d_ndr (r_dce r)) = Done v d) →
  wp (read_wi_server_name g_convert) r (λ _, I wk_named) (λ _, I wk_named).
Proof.
  intros Hi (v0 & d0 & Ev). unfold read_wi_server_name, read_else_einval. do 2 wp_step.
  assert (wp (ndr ndr_read_int32) r (λ _, I wk_idle) (λ _ _, False)) as Hread.
  { pose proof (ginv_read_int (U:=wk_idle) (Hd:=Hd) 4 _ r Hi) as Hw. unfold wp, ndr, zoom in *.
    change (ndr_read_int 4) with ndr_read_int32 in Hw. rewrite Ev in *. apply Hw. }
  wp_by (exact Hread); [|done]. clear r Hi Ev Hread. intros ref r Hi. wp_step.
  wp_by (eapply (ginv_upd_req_wp (U:=wk_idle) wk_idle); [|exact Hi];
    intros q (? & ? & ?); split_and!; [by apply is_raw_set_bits|done..]); [|done]. clear r Hi. intros _ r Hi.
  assert (∀ w, string_word w → wp (upd_req (with_8 w)) r (λ _, I wk_named) (λ _ _, False)) as Hset.
  { intros w Hw. eapply (ginv_upd_req_wp wk_idle); [|exact Hi]. intros q (? & ? & ?). by split_and!. }
  destruct (ref =? 0); [wp_by (by apply (Hset (Raw 0))); done|].
  unfold read_string. wp_step.
  wp_by (eapply (rsafe_attempt (I:=I wk_idle) (E:=λ _, False)); [apply ginv_read_vstring|exact Hi]); [|by intros ? ? []].
  clear r Hi Hset. intros [s|e] r Hi.
  - wp_by (eapply (ginv_upd_req_wp (U:=wk_named) wk_idle r (with_8 (Str (cstr s)))); [|exact Hi]; by intros q (? & ? & ?)); done.
  - wp_step. wp_by (eapply (ginv_upd_req_wp (U:=wk_named) wk_idle r (with_8 (Raw 0))); [|exact Hi]; by intros q (? & ? & ?)); [|done].
    intros _ r' Hi'. by wp_step.
Qed.
Lemma parse_wksta_wp r :
  I wk_idle r → (∃ v d, ndr_read_int32 (d_ndr (r_dce r)) = Done v d) →
  wp (wkssvc_parse_netwksta_info_req g_convert) r (λ _, I wk_named) (λ _, I wk_named).
Proof.
  intros Hi Hr. unfold wkssvc_parse_netwksta_info_req. wp_step. wp_by (by apply read_name_wp); [|done].
  clear r Hi Hr. intros _ r Hi. eapply (wp_rsafe (I wk_named) any_code); [|exact Hi|done|].
  { apply rsafe_or_return; [|done]. eapply rsafe_of_val, (ginv_read_int 4 _). }
  clear r Hi. intros v r Hi. destruct (INT_MAX <? v); [by wp_step|].
  wp_by (eapply (ginv_upd_req (E:=any_code)); [|exact Hi]; intros q; apply named_with_16); [done|by intros ? ? []].
Qed.
Lemma wkssvc_write_wp r :
  I wk_idle r → rh_opnum (d_req_hdr (r_dce r)) = WKSSVC_NETWKSTA_GET_INFO →
  (∃ v d, ndr_read_int32 (d_ndr (r_dce r)) = Done v d) →
  wp (wkssvc_invoke g_convert restrict_anon) r (λ _, I wk_named) (λ _ _, False).
Proof.
  intros Hi Hn Hr. unfold wkssvc_invoke, opnum. do 4 wp_step. rewrite Hn. cbn [Z.eqb WKSSVC_NETWKSTA_GET_INFO].
  unfold code_of. do 2 wp_step. unfold wkssvc_netwksta_info_invoke. do 2 wp_step.
  wp_by (by apply parse_wksta_wp); [|by intros ? ? ?; wp_step]. clear r Hi Hn Hr. intros _ r Hi.
  eapply (wp_rsafe (I wk_named) any_code); [apply ginv_restricted|exact Hi|by intros; wp_step|].
  clear r Hi. intros b r Hi. unfold opnum. do 4 wp_step. destruct b; [by do 2 wp_step|]. destruct (_ =? _); by do 2 wp_step.
Qed.
End Requests.

Section Replies.
Context {rdy : bool}.
#[local] Abbreviation I U := (ginv no_callback false rdy any_header U).
Lemma reset_wp U r : I U r → wp rpc_pipe_reset r (λ _, I U) (λ _ _, False).
Proof.
  intros [Hi Ho]. unfold rpc_pipe_reset, all_processed. do 5 wp_step. red in Ho. rewrite Ho. wp_step.
  unfold upd_pipe. wp_step. split; [|done]. destruct Hi. by split.
Qed.
Lemma rsafe_wi_level {E : Z → Prop} : rsafe (I wk_named) E wi_level.
Proof.
  unfold wi_level. apply rsafe_get_bind. intros r [Hi _]. apply rsafe_bind; [|intros; apply rsafe_ret].
  apply rsafe_bits, (dv_req _ _ _ _ _ Hi).
Qed.
Lemma rsafe_write_ref_wk U : rsafe (I U) any_code write_ref.
Proof. unfold write_ref. apply rsafe_bind; [apply ginv_next_pointer|intros n]. apply ginv_write. safes. Qed.
Lemma rsafe_wi_name {E : Z → Prop} : rsafe (I wk_named) E wi_server_name.
Proof. unfold wi_server_name. apply rsafe_get_bind. intros r [Hi _]. apply rsafe_string, (dv_req _ _ _ _ _ Hi). Qed.
#[local] Hint Extern 1 (rsafe _ any_code (ndr _)) => apply ginv_write; safes : ksmbd.
#[local] Hint Extern 1 (rsafe _ _ (or_bad_data _)) => apply ginv_bad_data; [safes|solve [eauto 2 with ksmbd]] : ksmbd.
#[local] Hint Extern 1 (rsafe _ _ (vstring _ _ _)) => by apply ginv_write, ndr_write_vstring_in : ksmbd.
#[local] Hint Resolve rsafe_wi_level rsafe_write_ref_wk rsafe_wi_name : ksmbd.
Lemma rsafe_get_info_return : rsafe (I wk_named) any_code (wkssvc_netwksta_get_info_return g_convert g_utf8_strlen work_group).
Proof.
  unfold wkssvc_netwksta_get_info_return, __netwksta_entry_rep_ctr100, __netwksta_entry_data_ctr100. rsafes.
Qed.
Lemma clear_wp r : I wk_named r → wp wkssvc_clear_headers r (λ _, I wk_cleared) (λ _ _, False).
Proof.
  intros Hi. unfold wkssvc_clear_headers. wp_step.
  wp_by (eapply (ginv_upd_req_wp (U:=wk_named) wk_named); [|exact Hi]; intros q; apply named_with_0); [|done].
  clear r Hi. intros _ r Hi. wp_step. apply (free_at_wp _ _ (with_8 (Raw 0)));
    [apply string_freeable; by destruct (dv_req _ _ _ _ _ (proj1 Hi)) as (_ & ? & _)|done|].
  eapply (ginv_upd_req_wp wk_named); [|exact Hi]. by intros q (? & ? & ?).
Qed.
Lemma wkssvc_read_wp r max_resp_sz :
  0 ≤ max_resp_sz ≤ reply_limit → rh_opnum (d_req_hdr (r_dce r)) = WKSSVC_NETWKSTA_GET_INFO →
  I wk_named r →
  wp (wkssvc_return g_convert g_utf8_strlen restrict_anon work_group max_resp_sz) r (λ _, I wk_cleared) (λ _ _, False).
Proof.
  intros Hm Hn Hi. unfold wkssvc_return, opnum. do 4 wp_step. rewrite Hn. cbn [Z.eqb WKSSVC_NETWKSTA_GET_INFO]. clear Hn.
  eapply (wp_rsafe (I wk_named) (λ _, False)); [by apply ginv_reply_buffer|exact Hi|done|clear r Hi; intros _ r Hi].
  unfold code_of at 1. do 2 wp_step. unfold wkssvc_netwksta_info_return.
  eapply (wp_rsafe (I wk_named) (λ _, False)); [by apply ginv_set_cursor|exact Hi|done|clear r Hi; intros _ r Hi].
  eapply (wp_rsafe (I wk_named) (λ _, False)); [apply ginv_num_processed|exact Hi|done|clear r Hi; intros _ r Hi].
  eapply (wp_rsafe (I wk_named) (λ _, False)); [apply rsafe_wi_level|exact Hi|done|clear r Hi; intros level r Hi].
  wp_step. apply (wp_mono _ _ (λ _, I wk_named) _ (λ _ _, False)); [|clear r Hi; intros _ r Hi|done].
  { destruct (level =? 100); [by wp_step|by apply reset_wp]. }
  unfold opnum. do 4 wp_step.
  eapply (wp_rsafe (I wk_named) (λ _, False)); [|exact Hi|done|clear r Hi; intros status r Hi].
  { destruct (_ =? _); [|apply rsafe_ret]. apply rsafe_code_of, rsafe_get_info_return. }
  eapply (wp_rsafe (I wk_named) (λ _, False)); [apply ginv_restricted|exact Hi|done|clear r Hi; intros b r Hi].
  cbv zeta. set (st := if b then KSMBD_RPC_EACCESS_DENIED else status). clearbody st.
  wp_step. wp_by (by apply clear_wp); [|done]. clear r Hi. intros _ r Hi.
  wp_by (eapply ginv_write_status; exact Hi); [by intros; wp_step|]. intros e r' [Hi' _]. by wp_step.
Qed.
End Replies.
End Safety.

(** ** Correctness *)

(** A request for information of the workstation and its reply
    are safe, whatever follows the referent of the name: the request leaves the
    name or NULL in the union, the reply stays in its buffer, and frees the
    name once, after which the union holds only integers. *)
Theorem workstation_safe `{GLib, System, Allocator} (g_convert : Z → Z → bytes → option bytes) (g_utf8_strlen : bytes → Z)
    (restrict_anon max_resp_sz : Z) (work_group : option bytes) (rdy : bool) :
  (∀ t f s out, g_convert t f s = Some out → Z.of_nat (length out) ≤ 2 ^ 62) → 0 ≤ max_resp_sz ≤ reply_limit →
  (∀ r, rh_opnum (d_req_hdr (r_dce r)) = WKSSVC_NETWKSTA_GET_INFO →
     ginv no_callback true rdy any_header wk_idle r → (∃ v d, ndr_read_int32 (d_ndr (r_dce r)) = Done v d) →
     wp (wkssvc_invoke g_convert restrict_anon) r (λ _, ginv no_callback true rdy any_header wk_named) (λ _ _, False)) ∧
  (∀ r, rh_opnum (d_req_hdr (r_dce r)) = WKSSVC_NETWKSTA_GET_INFO →
     ginv no_callback false rdy any_header wk_named r →
     wp (wkssvc_return g_convert g_utf8_strlen restrict_anon work_group max_resp_sz) r
       (λ _, ginv no_callback false rdy any_header wk_cleared) (λ _ _, False)).
Proof.
  intros Hg Hm. split; intros r Hn Hi; [intros Hr; by apply wkssvc_write_wp|by apply wkssvc_read_wp].
Qed.

Definition toy_station : rpc :=
  mk_rpc (toy_shares None) no_services
    (set_dce (set_req (with_8 (Str (str "me")) (with_16 (Raw 100) zero_request)) (set_rpc_req (Message KSMBD_RPC_WKSSVC_METHOD_INVOKE)
       (dcerpc_ext_alloc []))) (rpc_pipe_alloc 7 [])).
Lemma toy_station_ok : ginv no_callback false false any_header wk_named toy_station.
Proof.
  split; [split|reflexivity].
  - apply (bool_decide_unpack _). vm_compute. exact I.
  - split; apply (bool_decide_unpack _); vm_compute; exact I.
  - reflexivity.
  - exact I.
  - apply (bool_decide_unpack _). vm_compute. exact I.
  - split_and!; exact I.
  - by eexists.
  - reflexivity.
Qed.
Lemma workstation_safe_witness :
  ∃ r', wkssvc_return (H:=toy_glib) (H1:=plenty) ascii_convert ascii_length 0 (Some (str "WORKGROUP")) 4080 toy_station = Done KSMBD_RPC_OK r' ∧
        ginv no_callback false false any_header wk_cleared r'.
Proof.
  eassert (∃ r', wkssvc_return (H:=toy_glib) (H1:=plenty) ascii_convert ascii_length 0 (Some (str "WORKGROUP")) 4080 toy_station
    = Done KSMBD_RPC_OK r') as (r' & E) by (eexists; vm_compute; reflexivity).
  exists r'. split; [exact E|].
  assert (0 ≤ 4080 ≤ reply_limit) as Hm by (split; apply (bool_decide_unpack _); vm_compute; exact I).
  destruct (workstation_safe (H:=toy_glib) (H0:=total_system) (H1:=plenty) ascii_convert ascii_length 0 4080
    (Some (str "WORKGROUP")) false ascii_convert_small Hm) as [_ Hread].
  exact (wp_Done _ _ _ _ _ _ (Hread toy_station eq_refl toy_station_ok) E).
Defined.
