(* ===== verification/Handles.v ===== *)
(** * Context handles (common to [src/mountd/rpc_samr.c] and [src/mountd/rpc_lsarpc.c])

    Both services give out handles of twenty octets, which begin with the
    number of the pipe, and keep a table of them.  A handle that a client sends
    lies in three words of the union of the pipe. *)

From S2P Require Import Prelude ConfText Refcount Users Shares Ndr Rpc Srvsvc.

Definition HANDLE_SIZE : Z := 20.
Definition HOST_NAME_MAX : Z := 64.
Definition KSMBD_RPC_SOME_NOT_MAPPED : Z := 0x00000107.

(** [id++; memcpy(ch->handle, &id, sizeof(unsigned int))] in a zeroed structure *)
Definition handle_of (id : Z) : bytes := le_bytes 4 (u32 (id + 1)) ++ replicate 16 0.
Lemma length_handle_of i : length (handle_of i) = 20%nat.
Proof. unfold handle_of. by rewrite length_app, length_le_bytes. Qed.
(** [hostname] after [gethostname] into [HOST_NAME_MAX + 1] octets *)
Definition host_name (name : bytes) : bytes := take (Z.to_nat HOST_NAME_MAX) name.

Section Handles.
Context `{GLib, System, Allocator}.

(** The octets of a handle in words [a] and [b] and the lower half of [c]. *)
Definition handle_in (a b c : request → word) : prog rpc bytes :=
  r <- get ;;
  let q := d_req (r_dce r) in
  x <- get_bits (a q) 0 64 ;; y <- get_bits (b q) 0 64 ;; z <- get_bits (c q) 0 32 ;;
  ret (le_bytes 8 x ++ le_bytes 8 y ++ le_bytes 4 z).
Definition store_handle (h : bytes) (set_a set_b : word → request → request)
    (c : request → word) (set_c : word → request → request) (q : request) : request :=
  set_a (Raw (le_val (take 8 h))) (set_b (Raw (le_val (take 8 (drop 8 h))))
    (set_c (set_bits (c q) 0 32 (le_val (drop 16 h))) q)).

(** [ndr_read_int32(dce, NULL)] and [ndr_read_int16(dce, NULL)] *)
Definition skip32 : prog rpc unit := ndr ndr_read_int32 ;; ret tt.
Definition skip16 : prog rpc unit := ndr ndr_read_int16 ;; ret tt.
(** Writers in the parts of a reply that fail with one code. *)
Definition w8 (v : Z) : prog rpc unit := ndr (ndr_write_int8 v).
Definition w16 (v : Z) : prog rpc unit := ndr (ndr_write_int16 v).
Definition w32 (v : Z) : prog rpc unit := ndr (ndr_write_int32 v).
Definition w64 (v : Z) : prog rpc unit := ndr (ndr_write_int64 v).
Definition repeat_w (n : nat) (m : prog rpc unit) : prog rpc unit := for_each (replicate n tt) (λ _, m).
(** [if (...) return KSMBD_RPC_EBAD_DATA;] around several of them *)
Definition or_bad (m : prog rpc unit) : prog rpc unit := m else_return KSMBD_RPC_EBAD_DATA.
(** A zero handle, after it was closed *)
Definition write_zero_handle : prog rpc unit := w64 0 ;; w64 0 ;; w32 0.

(** [samr_return] and [lsarpc_return] give the status of the operation back. *)
Definition answer (status : Z) : prog rpc Z :=
  code <- code_of (write_status status) ;; ret (if code =? KSMBD_RPC_OK then status else code).
(** The cursor behind the headers. *)
Definition reserve_headers : prog rpc unit := set_cursor (dcerpc_header_sz + dcerpc_response_header_sz).
End Handles.

(** ** Users and handles of a pipe *)

(** A program that works on the users leaves the pipe and the tables. *)
Definition same_pipe (r r' : rpc) : Prop := r_pipe r' = r_pipe r ∧ r_services r' = r_services r.
Lemma ginv_own (Own Own' : rpc → Prop) reading rdy Hd U r r' :
  ginv Own reading rdy Hd U r → r_pipe r' = r_pipe r → Own' r' → ginv Own' reading rdy Hd U r'.
Proof.
  intros [[] _] E Ho. split; [|done].
  assert (r_dce r' = r_dce r) as Ed by (unfold r_dce; by rewrite E). split; by rewrite ?Ed, ?E.
Qed.

Section Users.
Context `{GLib}.
Lemma lookup_user_wp uh sh name r :
  shares_ok uh sh (r_shares r) →
  wp (user_op (usm_lookup_user name)) r
    (λ o r', same_pipe r r' ∧ o = (name ≫= λ n, us_table (ss_users (r_shares r)) !! n) ∧
             shares_ok (λ p, uh p + count p (refs o)) sh (r_shares r')) (λ _ _, False).
Proof.
  intros [Hu Hp Hs]. unfold user_op, share_op. do 2 apply wp_zoom.
  wp_by (by apply (usm_lookup_user_wp _ _ name Hu)); [|done].
  intros [p|] s'.
  - intros (Ht & u & Hh & -> & Hok). split_and!; [done|done|]. split; [|intros q; specialize (Hp q); counts|exact Hs].
    eapply counted_ext; [|exact Hok]. intros q. cbn [refs]. counts.
  - intros [-> Ht]. split_and!; [done|done|]. split; [|intros q; specialize (Hp q); cbn; unfold count; cbn; lia|exact Hs].
    eapply counted_ext; [|exact Hu]. intros q. cbn. unfold count at 2. cbn. lia.
Qed.
(** A user that is held can be followed. *)
Lemma load_user_wp uh sh p r :
  shares_ok uh sh (r_shares r) → 0 < uh p →
  wp (user_op (uload p)) r (λ u r', r' = r ∧ us_heap (ss_users (r_shares r)) !! p = Some u) (λ _ _, False).
Proof.
  intros [Hu Hp Hs] Hh. unfold user_op, share_op. do 2 apply wp_zoom.
  destruct (co_held Hu p) as [_ [u Hl]].
  { pose proof (count_nonneg p (all_users (ss_heap (r_shares r)))). lia. }
  eapply wp_load; [exact Hl|]. split; [|done]. by destruct r as [[] ? ?].
Qed.
(** Giving back what a NULL or held pointer refers to. *)
Lemma give_user_wp uh sh o r :
  shares_ok (λ p, uh p + count p (refs o)) sh (r_shares r) → (∀ p, 0 ≤ uh p) →
  wp (user_op (put_ksmbd_user o)) r (λ _ r', same_pipe r r' ∧ shares_ok uh sh (r_shares r')) (λ _ _, False).
Proof.
  intros Hok Hpos. unfold user_op, share_op. do 2 apply wp_zoom. destruct Hok as [Hu Hp Hs]. destruct o as [p|].
  - wp_by (apply (put_ksmbd_user_wp _ _ p Hu); cbn [refs];
      rewrite count_cons, decide_True by done; specialize (Hpos p);
      pose proof (count_nonneg p (all_users (ss_heap (r_shares r)))); unfold count at 1; cbn; lia); [|done].
    intros _ s' (Hok & _). split; [done|]. split; [|done|exact Hs]. eapply counted_ext; [|exact Hok].
    intros q. cbn [refs]. counts.
  - cbn [put_ksmbd_user]. wp_step. split; [done|]. split; [|done|exact Hs].
    eapply counted_ext; [|exact Hu]. intros q. cbn. unfold count at 1. cbn. lia.
Qed.
End Users.
