(* ===== verification/Samr.v ===== *)
(** * The account manager ([src/mountd/rpc_samr.c])

    A client connects, opens the domain and then a user through one handle,
    which counts how often it was opened, and asks for information on the user
    that the last lookup found.  The table of handles is shared by all pipes. *)

From S2P Require Import Prelude ConfText Refcount Users Shares Ndr Smbacl Rpc Srvsvc Handles.

Definition SAMR_OPNUM_CONNECT5 : Z := 64.
Definition SAMR_OPNUM_ENUM_DOMAIN : Z := 6.
Definition SAMR_OPNUM_LOOKUP_DOMAIN : Z := 5.
Definition SAMR_OPNUM_OPEN_DOMAIN : Z := 7.
Definition SAMR_OPNUM_LOOKUP_NAMES : Z := 17.
Definition SAMR_OPNUM_OPEN_USER : Z := 34.
Definition SAMR_OPNUM_QUERY_USER_INFO : Z := 36.
Definition SAMR_OPNUM_QUERY_SECURITY : Z := 3.
Definition SAMR_OPNUM_GET_GROUP_FOR_USER : Z := 39.
Definition SAMR_OPNUM_GET_ALIAS_MEMBERSHIP : Z := 16.
Definition SAMR_OPNUM_CLOSE : Z := 1.
Definition sizeof_connect_handle : Z := 32.

(** [rpc_samr_init]: the domains of a host *)
Definition samr_domains (hostname : bytes) : list bytes := [g_ascii_strup (host_name hostname); str "Builtin"].

Section Samr.
Context `{GLib, System, Allocator}.
Variable g_convert : Z → Z → bytes → option bytes.
Variable restrict_anon : Z.
Variable gen_subauth : list Z.
(** [gethostname], [None] when it fails *)
Variable gethostname : option bytes.
Variable domain_entries : list bytes.
Definition num_domain_entries : Z := Z.of_nat (length domain_entries).

(** ** Handles *)
Definition upd_connects (f : gmap bytes connect_handle → gmap bytes connect_handle) : prog rpc unit :=
  service_op (modify (λ s, set_sx_connects (f (sx_connects s)) s)).
(** The references that the handle holds are not put. *)
Definition samr_ch_free (handle : bytes) : prog rpc unit := upd_connects (delete handle).
Definition samr_ch_lookup (handle : bytes) : prog rpc (option connect_handle) :=
  s <- service_op get ;; ret (sx_connects s !! handle).
(** A handle that is in the table already is replaced, and then freed. *)
Definition samr_ch_alloc (id : Z) : prog rpc (option bytes) :=
  if negb (g_try_malloc sizeof_connect_handle) then ret None
  else
    let handle := handle_of id in
    old <- samr_ch_lookup handle ;;
    upd_connects (insert handle (mk_connect 1 None)) ;;
    match old with
    | None => ret (Some handle)
    | Some _ => samr_ch_free handle ;; ret None
    end.

(** The fields of [sm_req] in the words of the union *)
Definition sm_level : prog rpc Z := r <- get ;; v <- get_bits (q_0 (d_req (r_dce r))) 0 32 ;; ret (s32 v).
Definition sm_client_version : prog rpc Z := r <- get ;; v <- get_bits (q_0 (d_req (r_dce r))) 32 32 ;; ret (s32 v).
Definition sm_name : prog rpc (option bytes) := r <- get ;; string_at (q_16 (d_req (r_dce r))).
Definition sm_handle : prog rpc bytes := handle_in q_24 q_32 q_40.
Definition sm_rid : prog rpc Z := r <- get ;; get_bits (q_40 (d_req (r_dce r))) 32 32.
Definition set_sm_level (v : Z) : prog rpc unit := upd_req (λ q, with_0 (set_bits (q_0 q) 0 32 v) q).
Definition set_sm_client_version (v : Z) : prog rpc unit := upd_req (λ q, with_0 (set_bits (q_0 q) 32 32 v) q).
Definition set_sm_rid (v : Z) : prog rpc unit := upd_req (λ q, with_40 (set_bits (q_40 q) 32 32 v) q).
Definition read_sm_handle : prog rpc unit :=
  h <- ndr (ndr_read_bytes HANDLE_SIZE) ;; upd_req (store_handle h with_24 with_32 q_40 with_40).
(** [ndr_read_uniq_vstring_ptr(dce, &dce->sm_req.name)] and
    [ndr_free_uniq_vstring_ptr(&dce->sm_req.name)] *)
Definition read_sm_name : prog rpc unit :=
  ref_id <- read_else_einval ndr_read_int32 ;;
  upd_req (λ q, with_8 (set_bits (q_8 q) 0 32 ref_id) q) ;;
  if ref_id =? 0 then upd_req (with_16 (Raw 0)) else read_string g_convert with_16.
Definition free_sm_name : prog rpc unit :=
  upd_req (λ q, with_8 (set_bits (q_8 q) 0 32 0) q) ;;
  free_at q_16 with_16 ;;
  upd_req (with_16 (Raw 0)).

(** ** Requests *)
Definition samr_connect5_invoke : prog rpc unit :=
  ndr (ndr_read_uniq_vstring_ptr g_convert) ;;
  skip32 ;;
  val <- ndr ndr_read_int32 ;;
  if INT_MAX <? val then fail KSMBD_RPC_EINVALID_PARAMETER
  else
    set_sm_level val ;;
    skip32 ;;
    val <- ndr ndr_read_int32 ;;
    if INT_MAX <? val then fail KSMBD_RPC_EINVALID_PARAMETER else set_sm_client_version val.
(** [samr_enum_domain_invoke], and the others that take a handle *)
Definition samr_handle_invoke : prog rpc unit := read_sm_handle.
Definition samr_lookup_domain_invoke : prog rpc unit := read_sm_handle ;; skip16 ;; skip16 ;; read_sm_name.
Definition samr_lookup_names_invoke : prog rpc unit :=
  read_sm_handle ;;
  skip32 ;; skip32 ;; skip32 ;; skip32 ;;
  skip16 ;; skip16 ;;
  read_sm_name.
Definition samr_open_user_invoke : prog rpc unit :=
  read_sm_handle ;; skip32 ;; rid <- ndr ndr_read_int32 ;; set_sm_rid rid.
Definition samr_invoke : prog rpc Z :=
  n <- opnum ;;
  let run (m : prog rpc unit) (e : Z) := code_of (m else_return e) in
  if n =? SAMR_OPNUM_CONNECT5 then run samr_connect5_invoke KSMBD_RPC_EINVALID_PARAMETER
  else if n =? SAMR_OPNUM_ENUM_DOMAIN then run samr_handle_invoke KSMBD_RPC_EINVALID_PARAMETER
  else if n =? SAMR_OPNUM_LOOKUP_DOMAIN then run samr_lookup_domain_invoke KSMBD_RPC_EINVALID_PARAMETER
  else if n =? SAMR_OPNUM_OPEN_DOMAIN then run samr_handle_invoke KSMBD_RPC_EINVALID_PARAMETER
  else if n =? SAMR_OPNUM_LOOKUP_NAMES then run samr_lookup_names_invoke KSMBD_RPC_EINVALID_PARAMETER
  else if n =? SAMR_OPNUM_OPEN_USER then run samr_open_user_invoke KSMBD_RPC_EINVALID_PARAMETER
  else if n =? SAMR_OPNUM_QUERY_USER_INFO then run samr_handle_invoke KSMBD_RPC_EINVALID_PARAMETER
  else if n =? SAMR_OPNUM_QUERY_SECURITY then run samr_handle_invoke KSMBD_RPC_EINVALID_PARAMETER
  else if n =? SAMR_OPNUM_GET_GROUP_FOR_USER then run samr_handle_invoke KSMBD_RPC_EINVALID_PARAMETER
  else if n =? SAMR_OPNUM_GET_ALIAS_MEMBERSHIP then run samr_handle_invoke KSMBD_RPC_EACCESS_DENIED
  else if n =? SAMR_OPNUM_CLOSE then run samr_handle_invoke KSMBD_RPC_EACCESS_DENIED
  else ret KSMBD_RPC_ENOTIMPLEMENTED.

(** ** Replies *)

(** [ch = samr_ch_lookup(dce->sm_req.handle); if (!ch) return KSMBD_RPC_EBAD_FID;] *)
Definition with_connect (k : bytes → connect_handle → prog rpc unit) : prog rpc unit :=
  handle <- sm_handle ;;
  ch <- samr_ch_lookup handle ;;
  match ch with Some ch => k handle ch | None => fail KSMBD_RPC_EBAD_FID end.
(** The member of the user that a handle has, which is followed without a test. *)
Definition ch_user_of (ch : connect_handle) : prog rpc user :=
  match ch_user ch with Some p => user_op (uload p) | None => fault end.

Definition samr_connect5_return : prog rpc unit :=
  level <- sm_level ;;
  or_bad (ndr (ndr_write_union_int32 level)) ;;
  version <- sm_client_version ;;
  or_bad (w32 version ;; w32 0) ;;
  r <- get ;;
  ch <- samr_ch_alloc (p_id (r_pipe r)) ;;
  match ch with
  | None => fail KSMBD_RPC_ENOMEM
  | Some handle => or_bad (ndr (ndr_write_bytes handle))
  end.
Definition name_len (s : bytes) : Z := Z.of_nat (length s) * 2.
Definition samr_ndr_write_domain_array : prog rpc unit :=
  for_each (imap (λ i entry, (Z.of_nat i, entry)) domain_entries) (λ x,
    w32 x.1 ;; w16 (name_len x.2) ;; w16 (name_len x.2) ;; write_ref) ;;
  for_each domain_entries (λ entry, ndr (ndr_write_string g_convert (Some entry))).
Definition samr_enum_domain_return : prog rpc unit :=
  with_connect (λ _ _, or_bad (
    w32 0 ;; write_ref ;; w32 num_domain_entries ;; write_ref ;; w32 num_domain_entries ;;
    samr_ndr_write_domain_array ;; w32 num_domain_entries)).
(** [strcmp] of a NULL name is undefined. *)
Definition samr_lookup_domain_return : prog rpc unit :=
  with_connect (λ _ _,
    or_bad (write_ref ;; w32 4) ;;
    for_each domain_entries (λ entry,
      name <- sm_name ;;
      match name with
      | None => fault
      | Some name => if bool_decide (name = entry)
                     then or_bad (ndr (smb_write_sid (smb_init_domain_sid gen_subauth))) else ret tt
      end) ;;
    free_sm_name).
Definition samr_open_domain_return : prog rpc unit :=
  with_connect (λ handle ch,
    upd_connects (insert handle (mk_connect (u32 (ch_refcount ch + 1)) (ch_user ch))) ;;
    or_bad (ndr (ndr_write_bytes handle))).
(** The user that the handle had is forgotten, with its reference. *)
Definition samr_lookup_names_return : prog rpc unit :=
  with_connect (λ handle ch,
    name <- sm_name ;;
    user <- user_op (usm_lookup_user name) ;;
    upd_connects (insert handle (mk_connect (ch_refcount ch) user)) ;;
    match user with
    | None => fail KSMBD_RPC_EACCESS_DENIED
    | Some p =>
        or_bad (w32 1 ;; write_ref ;; w32 1) ;;
        u <- user_op (uload p) ;;
        or_bad (w32 (u_uid u) ;; w32 1 ;; write_ref ;; w32 1 ;; w32 1)
    end).
Definition samr_open_user_return : prog rpc unit :=
  with_connect (λ handle ch,
    upd_connects (insert handle (mk_connect (u32 (ch_refcount ch + 1)) (ch_user ch))) ;;
    match ch_user ch with
    | None => fail KSMBD_RPC_EBAD_FID
    | Some p =>
        rid <- sm_rid ;;
        u <- user_op (uload p) ;;
        if negb (rid =? u_uid u) then fail KSMBD_RPC_EBAD_FID else or_bad (ndr (ndr_write_bytes handle))
    end).

(** The parts of [samr_query_user_info_return]; a [unicode] field is its two
    lengths, and comes before or behind its pointer. *)
Definition unicode_len (s : bytes) : prog rpc unit := w16 (name_len s) ;; w16 (name_len s).
Definition empty_string : prog rpc unit := w32 0 ;; w32 0 ;; w32 0.
Definition user_info_fixed (name home_dir profile_path : bytes) (uid : Z) : prog rpc unit :=
  write_ref ;; w16 0x15 ;; w16 0 ;;
  repeat_w 6 (w64 0) ;;
  unicode_len name ;; write_ref ;;
  unicode_len name ;; write_ref ;;
  unicode_len home_dir ;;
  repeat_w 2 (write_ref ;; unicode_len []) ;;
  write_ref ;; unicode_len profile_path ;;
  repeat_w 4 (write_ref ;; unicode_len []) ;;
  write_ref ;;
  repeat_w 3 (w16 0 ;; w16 0 ;; w32 0) ;;
  w32 0 ;; w32 0 ;; w32 uid ;; w32 513 ;; w32 0x00000010 ;; w32 0x00FFFFFF ;;
  w16 168 ;; w16 0 ;; write_ref ;;
  repeat_w 4 (w16 0) ;;
  repeat_w 4 (w8 0).
Definition user_info_strings (name home_dir profile_path : bytes) : prog rpc unit :=
  ndr (ndr_write_string g_convert (Some name)) ;;
  ndr (ndr_write_string g_convert (Some name)) ;;
  ndr (ndr_write_string g_convert (Some home_dir)) ;;
  repeat_w 2 empty_string ;;
  ndr (ndr_write_string g_convert (Some profile_path)) ;;
  repeat_w 4 empty_string ;;
  w32 1260 ;; w32 0 ;; w32 21 ;;
  repeat_w 21 (w8 0xff).
Definition samr_query_user_info_return : prog rpc unit :=
  with_connect (λ _ ch,
    match gethostname with
    | None => fail KSMBD_RPC_ENOMEM
    | Some hostname =>
        u <- ch_user_of ch ;;
        let home_dir := str "\\" ++ host_name hostname ++ str "\" ++ u_name u in
        let profile_path := home_dir ++ str "\profile" in
        or_bad (user_info_fixed (u_name u) home_dir profile_path (u_uid u) ;;
                user_info_strings (u_name u) home_dir profile_path)
    end).
Definition samr_query_security_return : prog rpc unit :=
  with_connect (λ _ ch,
    match ch_user ch with
    | None => fail KSMBD_RPC_EBAD_FID
    | Some p =>
        r <- get ;;
        let curr_offset := s32 (dce_offset (d_ndr (r_dce r))) in
        set_cursor (u64 (dce_offset (d_ndr (r_dce r)) + 16)) ;;
        u <- user_op (uload p) ;;
        sec_desc_len <- ndr (build_sec_desc gen_subauth (s32 (u_uid u))) else_return KSMBD_RPC_EBAD_DATA ;;
        r <- get ;;
        let payload_offset := s32 (dce_offset (d_ndr (r_dce r))) in
        set_cursor (u64 curr_offset) ;;
        or_bad (write_ref ;; w32 sec_desc_len ;; write_ref ;; w32 sec_desc_len) ;;
        set_cursor (u64 payload_offset)
    end).
Definition samr_get_group_for_user_return : prog rpc unit :=
  with_connect (λ _ _, or_bad (write_ref ;; w32 1 ;; write_ref ;; w32 1 ;; w32 513 ;; w32 0x00000007)).
Definition samr_get_alias_membership_return : prog rpc unit :=
  with_connect (λ _ _, or_bad (w32 0 ;; write_ref ;; w32 0)).
Definition samr_close_return : prog rpc unit :=
  with_connect (λ handle ch,
    (if 1 <? ch_refcount ch
     then upd_connects (insert handle (mk_connect (u32 (ch_refcount ch - 1)) (ch_user ch)))
     else samr_ch_free handle) ;;
    or_bad write_zero_handle).

Definition samr_return_by (n : Z) : prog rpc unit :=
  if n =? SAMR_OPNUM_CONNECT5 then samr_connect5_return
  else if n =? SAMR_OPNUM_ENUM_DOMAIN then samr_enum_domain_return
  else if n =? SAMR_OPNUM_LOOKUP_DOMAIN then samr_lookup_domain_return
  else if n =? SAMR_OPNUM_OPEN_DOMAIN then samr_open_domain_return
  else if n =? SAMR_OPNUM_LOOKUP_NAMES then samr_lookup_names_return
  else if n =? SAMR_OPNUM_OPEN_USER then samr_open_user_return
  else if n =? SAMR_OPNUM_QUERY_USER_INFO then samr_query_user_info_return
  else if n =? SAMR_OPNUM_QUERY_SECURITY then samr_query_security_return
  else if n =? SAMR_OPNUM_GET_GROUP_FOR_USER then samr_get_group_for_user_return
  else if n =? SAMR_OPNUM_GET_ALIAS_MEMBERSHIP then samr_get_alias_membership_return
  else if n =? SAMR_OPNUM_CLOSE then samr_close_return
  else fail KSMBD_RPC_EBAD_FUNC.
Definition samr_return : prog rpc Z :=
  reserve_headers ;;
  n <- opnum ;;
  status <- code_of (samr_return_by n) ;;
  b <- restricted restrict_anon ;;
  answer (if b : bool then KSMBD_RPC_EACCESS_DENIED else status).

(** [samr_ch_clear_table] of [rpc_samr_destroy] *)
Definition samr_ch_clear_table : prog rpc unit :=
  s <- service_op get ;;
  for_each (map_to_list (sx_connects s)) (λ x, user_op (put_ksmbd_user (ch_user x.2))) ;;
  upd_connects (λ _, ∅).
End Samr.

(** ** Handles as an abstract table

    What an operation does to the table of handles: [h] is the handle of the
    request, [found] the user that the name of the request has. *)
Definition handle_step (id n : Z) (h : bytes) (found : option Z) (t : gmap bytes connect_handle) : gmap bytes connect_handle :=
  if n =? SAMR_OPNUM_CONNECT5
  then match t !! handle_of id with
       | None => <[handle_of id := mk_connect 1 None]> t
       | Some _ => delete (handle_of id) t
       end
  else match t !! h with
  | None => t
  | Some ch =>
      if (n =? SAMR_OPNUM_OPEN_DOMAIN) || (n =? SAMR_OPNUM_OPEN_USER)
      then <[h := mk_connect (u32 (ch_refcount ch + 1)) (ch_user ch)]> t
      else if n =? SAMR_OPNUM_LOOKUP_NAMES then <[h := mk_connect (ch_refcount ch) found]> t
      else if n =? SAMR_OPNUM_CLOSE
      then if 1 <? ch_refcount ch then <[h := mk_connect (u32 (ch_refcount ch - 1)) (ch_user ch)]> t else delete h t
      else t
  end.

(** The union of a pipe of this service *)
Record sm_typed (q : request) : Prop := {
  sm_0 : is_raw (q_0 q); sm_8 : is_raw (q_8 q); sm_16 : string_word (q_16 q);
  sm_24 : is_raw (q_24 q); sm_32 : is_raw (q_32 q); sm_40 : is_raw (q_40 q);
}.
Definition raw_val (w : word) : Z := match w with Raw v => v | _ => 0 end.
Definition handle_at (q : request) : bytes :=
  le_bytes 8 (raw_val (q_24 q) mod 2 ^ 64) ++ le_bytes 8 (raw_val (q_32 q) mod 2 ^ 64) ++ le_bytes 4 (raw_val (q_40 q) mod 2 ^ 32).
Definition name_at (q : request) : option bytes := match q_16 q with Str s => Some s | _ => None end.

Section Safety.
Context `{GLib, System, Allocator}.
Variable g_convert : Z → Z → bytes → option bytes.
Variable restrict_anon : Z.
Variable gen_subauth : list Z.
Variable gethostname : option bytes.
Variable domain_entries : list bytes.
Hypothesis g_convert_small : ∀ t f s out, g_convert t f s = Some out → Z.of_nat (length out) ≤ 2 ^ 62.
(** References held elsewhere, and the number of the pipe *)
Variables uheld sheld : Z → Z.
Hypothesis uheld_pos : ∀ p, 0 ≤ uheld p.
Variable id : Z.

(** ** Accounting

    The users that the handles of the table [t] refer to are held.  A handle
    that is freed or given another user does not put the one it had, so that
    the counts may also include references that nobody holds any more. *)
Definition users_kept (uh : Z → Z) (s : sstate) : Prop :=
  ∃ lost : Z → Z, (∀ p, 0 ≤ lost p) ∧ shares_ok (λ p, uh p + lost p) sheld s.
Lemma users_kept_all uh s : shares_ok uh sheld s → users_kept uh s.
Proof.
  intros Hok. exists (λ _, 0). split; [done|]. eapply shares_ok_ext; [|done|exact Hok]. intros p. cbv beta. lia.
Qed.
Lemma users_kept_lose (uh uh' : Z → Z) s : (∀ p, uh' p ≤ uh p) → users_kept uh s → users_kept uh' s.
Proof.
  intros Hle (lost & Hl & Hok). exists (λ p, uh p - uh' p + lost p). split.
  - intros p. specialize (Hle p). specialize (Hl p). lia.
  - eapply shares_ok_ext; [|done|exact Hok]. intros p. cbv beta. lia.
Qed.
Definition connect_refs (ch : connect_handle) : list Z := refs (ch_user ch).
Record samr_at (t : gmap bytes connect_handle) (r : rpc) : Prop := {
  sa_table : sx_connects (r_services r) = t;
  sa_users : users_kept (λ p, uheld p + count p (heap_refs connect_refs t)) (r_shares r);
  sa_id : p_id (r_pipe r) = id;
}.
#[export] Instance samr_untouched t : Untouched (samr_at t).
Proof. intros r r' [Hs Hx Hid _ _ _] []. split; by rewrite ?Hs, ?Hx, ?Hid. Qed.
Lemma table_lose (t t' : gmap bytes connect_handle) s :
  (∀ p, count p (heap_refs connect_refs t') ≤ count p (heap_refs connect_refs t)) →
  users_kept (λ p, uheld p + count p (heap_refs connect_refs t)) s →
  users_kept (λ p, uheld p + count p (heap_refs connect_refs t')) s.
Proof. intros Hle. apply users_kept_lose. intros p. specialize (Hle p). lia. Qed.
Lemma connect_live t h ch p r :
  samr_at t r → t !! h = Some ch → ch_user ch = Some p →
  0 < uheld p + count p (heap_refs connect_refs t).
Proof.
  intros _ Hh Hp. rewrite (heap_refs_delete connect_refs _ _ _ Hh), count_app. unfold connect_refs at 1. rewrite Hp. cbn [refs].
  rewrite count_cons, decide_True by done. specialize (uheld_pos p).
  pose proof (count_nonneg p (heap_refs connect_refs (delete h t))). unfold count at 1. cbn. lia.
Qed.
Lemma connect_user_wp t h ch p r :
  samr_at t r → t !! h = Some ch → ch_user ch = Some p →
  wp (user_op (uload p)) r (λ u r', r' = r ∧ us_heap (ss_users (r_shares r)) !! p = Some u) (λ _ _, False).
Proof.
  intros Hi Hh Hp. pose proof (connect_live _ _ _ _ _ Hi Hh Hp) as Hlive. destruct (sa_users _ _ Hi) as (lost & Hl & Hok).
  eapply load_user_wp; [exact Hok|]. cbv beta. specialize (Hl p). lia.
Qed.

Section Replies.
Context {rdy : bool}.
#[local] Abbreviation I t U := (ginv (samr_at t) false rdy any_header U).

Lemma upd_connects_wp t f U r :
  I t U r → users_kept (λ p, uheld p + count p (heap_refs connect_refs (f t))) (r_shares r) →
  wp (upd_connects f) r (λ _, I (f t) U) (λ _ _, False).
Proof.
  intros Hi Hs. unfold upd_connects, service_op. apply wp_zoom. wp_step. eapply ginv_own; [exact Hi|done|].
  destruct Hi as [_ []]. split; [cbn; congruence|exact Hs|done].
Qed.
(** Changing the count of a handle, or taking it out of the table. *)
Lemma set_count_wp t h ch n U r :
  t !! h = Some ch → I t U r →
  wp (upd_connects (insert h (mk_connect n (ch_user ch)))) r (λ _, I (<[h := mk_connect n (ch_user ch)]> t) U) (λ _ _, False).
Proof.
  intros Hh Hi. apply upd_connects_wp; [done|]. eapply table_lose; [|apply (sa_users _ _ (proj2 Hi))].
  intros p. by rewrite (heap_refs_same connect_refs t h ch).
Qed.
Lemma delete_lose (t : gmap bytes connect_handle) h s :
  users_kept (λ p, uheld p + count p (heap_refs connect_refs t)) s →
  users_kept (λ p, uheld p + count p (heap_refs connect_refs (delete h t))) s.
Proof.
  apply table_lose. intros p. destruct (t !! h) as [ch|] eqn:E; [|by rewrite delete_id].
  rewrite (heap_refs_delete connect_refs _ _ _ E), count_app. pose proof (count_nonneg p (connect_refs ch)). lia.
Qed.
Lemma ch_free_wp t h U r : I t U r → wp (samr_ch_free h) r (λ _, I (delete h t) U) (λ _ _, False).
Proof. intros Hi. apply upd_connects_wp; [done|]. apply delete_lose, (proj2 Hi). Qed.
Lemma ch_lookup_wp t h U r : I t U r → wp (samr_ch_lookup h) r (λ o r', r' = r ∧ o = t !! h) (λ _ _, False).
Proof.
  intros Hi. unfold samr_ch_lookup, service_op. wp_step. apply wp_zoom. do 2 wp_step.
  split; [by destruct r|]. by rewrite (sa_table _ _ (proj2 Hi)).
Qed.
Lemma ch_alloc_wp t U r :
  I t U r →
  wp (samr_ch_alloc id) r
    (λ o r', (o = None ∨ o = Some (handle_of id)) ∧
       ∃ t', I t' U r' ∧ (t' = t ∨ t' = handle_step id SAMR_OPNUM_CONNECT5 [] None t)) (λ _ _, False).
Proof.
  intros Hi. unfold samr_ch_alloc, handle_step. cbn [Z.eqb SAMR_OPNUM_CONNECT5 Pos.eqb]. wp_step.
  { wp_step. split; [by left|]. exists t. by split; [|left]. }
  cbv zeta. wp_step. wp_by (by eapply ch_lookup_wp); [|done]. intros old _ [-> ->]. wp_step.
  assert (users_kept (λ p, uheld p + count p (heap_refs connect_refs (<[handle_of id := mk_connect 1 None]> t))) (r_shares r)) as Hs.
  { eapply table_lose; [|apply (sa_users _ _ (proj2 Hi))]. intros p. rewrite <-insert_delete_eq.
    rewrite heap_refs_insert by apply lookup_delete_eq. cbn [connect_refs refs ch_user app].
    destruct (t !! handle_of id) as [ch|] eqn:E; [|by rewrite delete_id].
    rewrite (heap_refs_delete connect_refs _ _ _ E), count_app. pose proof (count_nonneg p (connect_refs ch)). lia. }
  wp_by (by apply (upd_connects_wp t)); [|done]. intros _ r' Hi'. destruct (t !! handle_of id).
  - wp_step. wp_by (by eapply ch_free_wp); [|done]. intros _ r2 Hi2. wp_step. rewrite delete_insert_eq in Hi2.
    split; [by left|]. eexists. by split; [|right].
  - wp_step. split; [by right|]. eexists. by split; [|right].
Qed.

(** *** Statements *)
Section Statements.
Context {t : gmap bytes connect_handle} {U : request → Prop}.
Lemma rsafe_w {T : Type} (m : prog dcerpc T) : safe (appends_in reply_limit) m → rsafe (I t U) any_code (ndr m).
Proof. apply ginv_write. Qed.
Lemma rsafe_write_ref_sm : rsafe (I t U) any_code write_ref.
Proof. unfold write_ref. apply rsafe_bind; [apply ginv_next_pointer|intros n]. apply ginv_write. safes. Qed.
Lemma rsafe_string_sm v : rsafe (I t U) any_code (ndr (ndr_write_string g_convert v)).
Proof. by apply ginv_write, ndr_write_string_in. Qed.
Lemma rsafe_sid_sm sid : rsafe (I t U) any_code (ndr (smb_write_sid sid)).
Proof. apply ginv_write, smb_write_sid_in. Qed.
Lemma rsafe_short l : (length l ≤ 100)%nat → rsafe (I t U) any_code (ndr (ndr_write_bytes l)).
Proof. intros Hl. apply ginv_write, ndr_write_bytes_in; [done|done|lia]. Qed.
Lemma length_handle_at q : length (handle_at q) = 20%nat.
Proof. unfold handle_at. by rewrite !length_app, !length_le_bytes. Qed.
End Statements.
#[local] Hint Extern 2 (rsafe _ any_code (ndr _)) => apply rsafe_w; safes : ksmbd.
#[local] Hint Resolve rsafe_write_ref_sm rsafe_string_sm rsafe_sid_sm : ksmbd.
#[local] Hint Extern 1 (rsafe _ any_code (ndr (ndr_write_bytes (handle_at _)))) =>
  (apply rsafe_short; rewrite length_handle_at; lia) : ksmbd.
Ltac writes := unfold or_bad, write_zero_handle, unicode_len, empty_string, repeat_w, w8, w16, w32, w64; rsafes.

Section Operations.
Context (t : gmap bytes connect_handle) (q0 : request) (q0_typed : sm_typed q0).
#[local] Abbreviation X := (λ q, q = q0).
#[local] Abbreviation h := (handle_at q0).
Lemma exact_typed t' r : I t' X r → I t' sm_typed r.
Proof. intros Hi. eapply ginv_weaken; [exact Hi|done|]. by intros q ->. Qed.
(** The operation ends with the table [t']. *)
Definition leaves (t' : gmap bytes connect_handle) (m : prog rpc unit) (r : rpc) : Prop :=
  wp m r (λ _, I t' sm_typed) (λ _, I t' sm_typed).
Lemma leaves_writes t' m r : rsafe (I t' X) any_code m → I t' X r → leaves t' m r.
Proof. intros Hm Hi. wp_by (by apply Hm); [intros _ r'; apply exact_typed|intros e r' [? _]; by apply exact_typed]. Qed.
Lemma leaves_fail t' e r : I t' X r → leaves t' (fail e) r.
Proof. intros Hi. unfold leaves. wp_step. by apply exact_typed. Qed.
Lemma leaves_bind {T : Type} t1 t' (m : prog rpc T) (k : T → prog rpc unit) r :
  wp m r (λ _, I t1 X) (λ _ _, False) → (∀ a r', I t1 X r' → leaves t' (k a) r') → leaves t' (bind m k) r.
Proof. intros Hm Hk. unfold leaves. wp_step. wp_by (exact Hm); [|done]. auto. Qed.
Lemma leaves_then t' m (k : unit → prog rpc unit) r :
  rsafe (I t X) any_code m → I t X r → (∀ r', I t X r' → leaves t' (k tt) r') →
  (∀ r', I t X r' → I t' X r') → leaves t' (bind m k) r.
Proof.
  intros Hm Hi Hk Hw. unfold leaves. wp_step. wp_by (by apply Hm); [intros [] r' Hi'; by apply Hk|].
  intros e r' [Hi' _]. by apply exact_typed, Hw.
Qed.
Lemma exact_bits t' (w : request → word) off width r :
  I t' X r → is_raw (w q0) →
  wp (r <- get ;; get_bits (w (d_req (r_dce r))) off width) r (λ _, I t' X) (λ _ _, False).
Proof.
  intros Hi Hw. do 2 wp_step. rewrite (dv_req _ _ _ _ _ (proj1 Hi)). by destruct (w q0).
Qed.
Lemma sm_handle_wp t' r : I t' X r → wp sm_handle r (λ h' r', r' = r ∧ h' = h) (λ _ _, False).
Proof.
  intros [Hi _]. unfold sm_handle, handle_in. do 2 wp_step. cbv zeta. rewrite (dv_req _ _ _ _ _ Hi). unfold handle_at.
  destruct q0_typed as [_ _ _ H24 H32 H40].
  by destruct (q_24 q0), (q_32 q0), (q_40 q0).
Qed.
Lemma sm_name_wp t' r : I t' X r → wp sm_name r (λ o r', r' = r ∧ o = name_at q0) (λ _ _, False).
Proof.
  intros [Hi _]. unfold sm_name. do 2 wp_step. rewrite (dv_req _ _ _ _ _ Hi). unfold name_at.
  destruct q0_typed as [_ _ H16 _ _ _]. destruct (q_16 q0) as [v|s| |]; [cbn in H16; subst v; cbn [string_at Z.eqb]; by wp_step|cbn [string_at]; by wp_step|done..].
Qed.
Lemma with_connect_wp t' k r :
  I t X r → (∀ ch, t !! h = Some ch → leaves t' (k h ch) r) → (t !! h = None → t' = t) → leaves t' (with_connect k) r.
Proof.
  intros Hi Hk Hn. unfold with_connect, leaves. wp_step. wp_by (by eapply sm_handle_wp); [|done]. intros ? ? [-> ->].
  wp_step. wp_by (by eapply ch_lookup_wp); [|done]. intros ? ? [-> ->]. destruct (t !! h) as [ch|]; [by apply Hk|].
  rewrite Hn by done. by apply leaves_fail.
Qed.
Lemma writes_handle m r : rsafe (I t X) any_code m → I t X r → leaves t (with_connect (λ _ _, m)) r.
Proof. intros Hm Hi. apply with_connect_wp; [done|intros; by apply leaves_writes|done]. Qed.

(** *** Operations *)
Lemma enum_domain_wp r : I t X r → leaves t (samr_enum_domain_return g_convert domain_entries) r.
Proof. intros Hi. apply writes_handle; [|done]. unfold samr_ndr_write_domain_array. writes. Qed.
Lemma get_group_wp r : I t X r → leaves t samr_get_group_for_user_return r.
Proof. intros Hi. apply writes_handle; [|done]. writes. Qed.
Lemma alias_membership_wp r : I t X r → leaves t samr_get_alias_membership_return r.
Proof. intros Hi. apply writes_handle; [|done]. writes. Qed.
Lemma close_return_wp r :
  I t X r → leaves (handle_step 0 SAMR_OPNUM_CLOSE h None t) samr_close_return r.
Proof.
  intros Hi. unfold handle_step. cbn [Z.eqb Pos.eqb orb SAMR_OPNUM_CONNECT5 SAMR_OPNUM_CLOSE SAMR_OPNUM_OPEN_DOMAIN SAMR_OPNUM_OPEN_USER SAMR_OPNUM_LOOKUP_NAMES].
  apply with_connect_wp; [done| |by intros ->]. intros ch Hch. rewrite Hch. destruct (1 <? _).
  - eapply leaves_bind; [by apply set_count_wp|]. intros _ r' Hi'. apply leaves_writes; [writes|done].
  - eapply leaves_bind; [by apply ch_free_wp|]. intros _ r' Hi'. apply leaves_writes; [writes|done].
Qed.
Lemma open_domain_wp r :
  I t X r → leaves (handle_step 0 SAMR_OPNUM_OPEN_DOMAIN h None t) samr_open_domain_return r.
Proof.
  intros Hi. unfold handle_step. cbn [Z.eqb Pos.eqb orb SAMR_OPNUM_CONNECT5 SAMR_OPNUM_OPEN_DOMAIN SAMR_OPNUM_OPEN_USER].
  apply with_connect_wp; [done| |by intros ->]. intros ch Hch. rewrite Hch.
  eapply leaves_bind; [by apply set_count_wp|]. intros _ r' Hi'. apply leaves_writes; [writes|done].
Qed.
Lemma user_wp t' ch p r :
  I t' X r → t' !! h = Some ch → ch_user ch = Some p → wp (user_op (uload p)) r (λ _, I t' X) (λ _ _, False).
Proof.
  intros Hi Hch Hp. wp_by (eapply connect_user_wp; [apply Hi|done|done]); [|done].
  by intros u ? [-> _].
Qed.
Lemma open_user_wp r :
  I t X r → leaves (handle_step 0 SAMR_OPNUM_OPEN_USER h None t) samr_open_user_return r.
Proof.
  intros Hi. unfold handle_step. cbn [Z.eqb Pos.eqb orb SAMR_OPNUM_CONNECT5 SAMR_OPNUM_OPEN_DOMAIN SAMR_OPNUM_OPEN_USER].
  apply with_connect_wp; [done| |by intros ->]. intros ch Hch. rewrite Hch.
  eapply leaves_bind; [by apply set_count_wp|]. intros _ r1 H1'.
  destruct (ch_user ch) as [p|] eqn:Hp; [|by apply leaves_fail].
  eapply leaves_bind; [apply exact_bits; [done|apply q0_typed]|]. intros rid r2 H2'.
  eapply leaves_bind; [eapply user_wp; [done|apply lookup_insert_eq|done]|]. intros u r3 H3'.
  destruct negb; [by apply leaves_fail|]. apply leaves_writes; [writes|done].
Qed.
Lemma lookup_names_wp r :
  I t X r →
  leaves (handle_step 0 SAMR_OPNUM_LOOKUP_NAMES h (name_at q0 ≫= λ n, us_table (ss_users (r_shares r)) !! n) t)
    samr_lookup_names_return r.
Proof.
  intros Hi. unfold handle_step.
  cbn [Z.eqb Pos.eqb orb SAMR_OPNUM_CONNECT5 SAMR_OPNUM_LOOKUP_NAMES SAMR_OPNUM_OPEN_DOMAIN SAMR_OPNUM_OPEN_USER].
  apply with_connect_wp; [done| |by intros ->]. intros ch Hch. rewrite Hch. set (found := _ ≫= _).
  unfold leaves. wp_step. wp_by (by eapply sm_name_wp); [|done]. intros ? ? [-> ->].
  destruct (sa_users _ _ (proj2 Hi)) as (lost & Hlost & Hshares).
  wp_step. wp_by (eapply lookup_user_wp; exact Hshares); [|done].
  intros o r1 ([Hp Hx] & -> & Hs). fold found in Hs |- *.
  assert (I t X r1) as H1'.
  { eapply ginv_own; [exact Hi|done|]. split; [by rewrite Hx; apply Hi| |by rewrite Hp; apply Hi]. eapply users_kept_lose; [|by apply users_kept_all].
    intros p. cbv beta. specialize (Hlost p). pose proof (count_nonneg p (refs found)). pose proof (count_nonneg p (heap_refs connect_refs t)).
    specialize (uheld_pos p). lia. }
  fold (leaves (<[h := mk_connect (ch_refcount ch) found]> t)
    (upd_connects (insert h (mk_connect (ch_refcount ch) found)) ;;
     match found with
     | None => fail KSMBD_RPC_EACCESS_DENIED
     | Some p => or_bad (w32 1 ;; write_ref ;; w32 1) ;; u <- user_op (uload p) ;;
                 or_bad (w32 (u_uid u) ;; w32 1 ;; write_ref ;; w32 1 ;; w32 1)
     end) r1).
  eapply leaves_bind; [apply upd_connects_wp; [done|]|].
  { eapply users_kept_lose; [|by apply users_kept_all].
    intros p. cbv beta. specialize (Hlost p).
    rewrite (heap_refs_update connect_refs t h ch) by done. unfold connect_refs at 2 3. cbn [ch_user].
    pose proof (count_nonneg p (refs (ch_user ch))). pose proof (count_nonneg p (heap_refs connect_refs (<[h:=mk_connect (ch_refcount ch) found]> t))) as Hn.
    rewrite (heap_refs_update connect_refs t h ch) in Hn by done. unfold connect_refs in *. cbn [ch_user] in *. specialize (uheld_pos p). lia. }
  intros _ r2 H2'. destruct found as [p|] eqn:Ef; [|by apply leaves_fail].
  unfold leaves. eapply (wp_rsafe (I _ X) any_code); [writes|exact H2'|intros; by apply exact_typed|].
  clear r2 H2'. intros _ r2 H2'. wp_step.
  wp_by (eapply user_wp; [done|apply lookup_insert_eq|done]); [|done]. intros u r3 H3'. apply leaves_writes; [writes|done].
Qed.
Lemma free_name_wp r : I t X r → leaves t free_sm_name r.
Proof.
  intros Hi. unfold leaves, free_sm_name. wp_step.
  wp_by (eapply (ginv_upd_req_wp (U:=sm_typed) X); [|exact Hi]; intros q ->; destruct q0_typed; split; try done; by apply is_raw_set_bits); [|done].
  clear r Hi. intros _ r Hi. wp_step.
  apply (free_at_wp _ _ (with_16 (Raw 0))); [by apply string_freeable; destruct (dv_req _ _ _ _ _ (proj1 Hi))|done|].
  wp_by (eapply (ginv_upd_req_wp (U:=sm_typed) sm_typed); [|exact Hi]; by intros q []); done.
Qed.
Lemma rsafe_compare name :
  name_at q0 = Some name →
  rsafe (I t X) any_code (for_each domain_entries (λ entry,
      name <- sm_name ;;
      match name with
      | None => fault
      | Some name => if bool_decide (name = entry)
                     then or_bad (ndr (smb_write_sid (smb_init_domain_sid gen_subauth))) else ret tt
      end)).
Proof.
  intros Hn. apply rsafe_for_each. intros entry _ r Hi. wp_step. wp_by (by eapply sm_name_wp); [|done]. intros ? ? [-> ->].
  rewrite Hn. revert Hi. apply (rsafe_weaken _ any_code); [|done]. writes.
Qed.
Lemma lookup_domain_wp name r :
  I t X r → name_at q0 = Some name → leaves t (samr_lookup_domain_return gen_subauth domain_entries) r.
Proof.
  intros Hi Hn. apply with_connect_wp; [done| |done]. intros ch _.
  apply leaves_then; [writes|done| |done]. clear r Hi. intros r Hi.
  apply leaves_then; [by eapply rsafe_compare|done| |done]. intros r' Hi'. by apply free_name_wp.
Qed.
Lemma query_user_info_wp r :
  I t X r → (∀ ch, t !! h = Some ch → is_Some (ch_user ch)) →
  leaves t (samr_query_user_info_return g_convert gethostname) r.
Proof.
  intros Hi Hu. apply with_connect_wp; [done| |done]. intros ch Hch.
  destruct gethostname as [hostname|]; [|by apply leaves_fail].
  destruct (Hu ch Hch) as [p Hp]. unfold ch_user_of. rewrite Hp.
  eapply leaves_bind; [by eapply user_wp|]. intros u r' Hi'. cbv zeta. apply leaves_writes; [|done].
  unfold user_info_fixed, user_info_strings. writes.
Qed.
Lemma kept_ndr_wp {T : Type} U (m : prog dcerpc T) r :
  I t U r → wp m (d_ndr (r_dce r)) (λ _, kept (d_ndr (r_dce r))) (λ _, kept (d_ndr (r_dce r))) →
  wp (ndr m) r (λ _, I t U) (λ _, I t U).
Proof.
  intros Hi Hm. apply wp_zoom. wp_by (exact Hm); intros _ n [Hn (Hf & Hl & Ho)];
    (eapply ginv_same; [exact Hi|done|]); destruct Hi as [[? [Hp _] Hr] _]; (split; try done).
  1,3: cbn; split; [unfold payload_sz in *; by rewrite Hl|done].
  all: unfold ready, has_flag in *; cbn; by rewrite Hf.
Qed.
Lemma query_security_wp r :
  I t X r → dce_offset (d_ndr (r_dce r)) = dcerpc_header_sz + dcerpc_response_header_sz →
  leaves t (samr_query_security_return gen_subauth) r.
Proof.
  intros Hi Ho. apply with_connect_wp; [done| |done]. intros ch Hch.
  destruct (ch_user ch) as [p|] eqn:Hp; [|by apply leaves_fail]. unfold leaves. do 2 wp_step. cbv zeta. rewrite Ho.
  change (s32 (dcerpc_header_sz + dcerpc_response_header_sz)) with 24.
  change (u64 (dcerpc_header_sz + dcerpc_response_header_sz + 16)) with 40.
  pose proof (dv_payload _ _ _ _ _ (proj1 Hi)) as [Hsz _].
  wp_step. unfold set_cursor at 1, upd_dce, upd_pipe. wp_step. set (r1 := mk_rpc _ _ _).
  assert (I t X r1) as H1'.
  { pose proof (ginv_set_cursor (Own:=samr_at t) (reading:=false) (rdy:=rdy) (Hd:=any_header) (U:=X) (E:=any_code) 40
      ltac:(done) r Hi) as Hc. exact Hc. }
  wp_step. wp_by (eapply connect_user_wp; [apply H1'|done|done]); [|done].
  intros u ? [-> _]. do 2 wp_step. wp_by (apply (kept_ndr_wp X); [exact H1'|]; apply build_sec_desc_kept; [apply H1'|exact Hsz|cbn; lia|done]).
  2:{ intros e r' Hi'. by apply exact_typed. }
  intros len r2 H2'. do 2 wp_step. cbv zeta. destruct (cursor_small _ (ginv_cursor _ H2')) as [-> ->].
  pose proof (ginv_cursor _ H2') as Hc2. set (off := dce_offset (d_ndr (r_dce r2))) in *. clearbody off. clear r1 H1' Hi Ho Hsz.
  eapply (wp_rsafe (I t X) any_code); [by apply ginv_set_cursor|exact H2'|intros; by apply exact_typed|clear r2 H2'; intros _ r2 H2'].
  eapply (wp_rsafe (I t X) any_code); [writes|exact H2'|intros; by apply exact_typed|clear r2 H2'; intros _ r2 H2'].
  apply leaves_writes; [by apply ginv_set_cursor|done].
Qed.
Lemma connect5_wp r :
  I t X r →
  let post (r' : rpc) := ∃ t', I t' sm_typed r' ∧ (t' = t ∨ t' = handle_step id SAMR_OPNUM_CONNECT5 [] None t) in
  wp samr_connect5_return r (λ _, post) (λ _, post).
Proof.
  intros Hi post. assert (∀ r', I t X r' → post r') as Hpost.
  { intros r' Hi'. exists t. split; [by apply exact_typed|by left]. }
  assert (∀ off width, rsafe (I t X) any_code (r <- get ;; v <- get_bits (q_0 (d_req (r_dce r))) off width ;; ret (s32 v))) as Hbits.
  { intros off width. apply rsafe_get_bind. intros r' [Hd _]. apply rsafe_bind; [|intros; apply rsafe_ret].
    apply rsafe_bits. rewrite (dv_req _ _ _ _ _ Hd). apply q0_typed. }
  unfold samr_connect5_return.
  eapply (wp_rsafe (I t X) any_code); [apply Hbits|exact Hi|auto|clear r Hi; intros level r Hi].
  eapply (wp_rsafe (I t X) any_code); [writes|exact Hi|auto|clear r Hi; intros _ r Hi].
  eapply (wp_rsafe (I t X) any_code); [apply Hbits|exact Hi|auto|clear r Hi; intros version r Hi].
  eapply (wp_rsafe (I t X) any_code); [writes|exact Hi|auto|clear r Hi; intros _ r Hi].
  do 2 wp_step. rewrite (sa_id _ _ (proj2 Hi)). wp_step. wp_by (by eapply ch_alloc_wp); [|done].
  intros o r' ([-> | ->] & t' & Hi' & Ht'); [wp_step; exists t'; split; [by apply exact_typed|done]|].
  assert (rsafe (I t' X) any_code (or_bad (ndr (ndr_write_bytes (handle_of id))))) as Hw.
  { apply rsafe_or_return; [|done]. apply rsafe_short. rewrite length_handle_of. lia. }
  wp_by (by apply Hw); [intros _ r2 Hi2|intros e r2 [Hi2 _]]; exists t'; (split; [by apply exact_typed|done]).
Qed.

(** *** The reply *)
Definition reply_pre (n : Z) : Prop :=
  (n = SAMR_OPNUM_LOOKUP_DOMAIN → is_Some (name_at q0)) ∧
  (n = SAMR_OPNUM_QUERY_USER_INFO → ∀ ch, t !! h = Some ch → is_Some (ch_user ch)).
Definition reply_post (n : Z) (found : option Z) (r' : rpc) : Prop :=
  ∃ t', I t' sm_typed r' ∧ (t' = handle_step id n h found t ∨ n = SAMR_OPNUM_CONNECT5 ∧ t' = t).
Lemma leaves_post n found t' m r :
  leaves t' m r → t' = handle_step id n h found t → wp m r (λ _, reply_post n found) (λ _, reply_post n found).
Proof. intros Hm Ht. wp_by (exact Hm); intros ? r' Hi'; exists t'; (split; [done|by left]). Qed.
Lemma step_idle n found :
  n ∉ [SAMR_OPNUM_CONNECT5; SAMR_OPNUM_OPEN_DOMAIN; SAMR_OPNUM_OPEN_USER; SAMR_OPNUM_LOOKUP_NAMES; SAMR_OPNUM_CLOSE] →
  t = handle_step id n h found t.
Proof.
  intros Hn. unfold handle_step. rewrite (proj2 (Z.eqb_neq n SAMR_OPNUM_CONNECT5)) by set_solver.
  destruct (t !! h); [|done].
  rewrite (proj2 (Z.eqb_neq n SAMR_OPNUM_OPEN_DOMAIN)), (proj2 (Z.eqb_neq n SAMR_OPNUM_OPEN_USER)),
    (proj2 (Z.eqb_neq n SAMR_OPNUM_LOOKUP_NAMES)), (proj2 (Z.eqb_neq n SAMR_OPNUM_CLOSE)) by set_solver. done.
Qed.
Lemma return_by_wp n r :
  I t X r → reply_pre n → dce_offset (d_ndr (r_dce r)) = dcerpc_header_sz + dcerpc_response_header_sz →
  let found := name_at q0 ≫= λ name, us_table (ss_users (r_shares r)) !! name in
  wp (samr_return_by g_convert gen_subauth gethostname domain_entries n) r (λ _, reply_post n found) (λ _, reply_post n found).
Proof.
  intros Hi [Hdom Hinfo] Ho found. unfold samr_return_by.
  destruct (Z.eqb_spec n SAMR_OPNUM_CONNECT5) as [->|H64].
  { wp_by (by apply connect5_wp); intros ? r' (t' & Hi' & [-> | ->]); eexists; (split; [exact Hi'|]); [by right|by left|by right|by left]. }
  destruct (Z.eqb_spec n SAMR_OPNUM_ENUM_DOMAIN) as [->|H6].
  { eapply leaves_post; [by apply enum_domain_wp|]. apply step_idle; set_solver. }
  destruct (Z.eqb_spec n SAMR_OPNUM_LOOKUP_DOMAIN) as [->|H5].
  { destruct (Hdom eq_refl) as [name Hn]. eapply leaves_post; [by eapply lookup_domain_wp|]. apply step_idle; set_solver. }
  destruct (Z.eqb_spec n SAMR_OPNUM_OPEN_DOMAIN) as [->|H7].
  { eapply leaves_post; [by apply open_domain_wp|done]. }
  destruct (Z.eqb_spec n SAMR_OPNUM_LOOKUP_NAMES) as [->|H17].
  { eapply leaves_post; [by apply lookup_names_wp|done]. }
  destruct (Z.eqb_spec n SAMR_OPNUM_OPEN_USER) as [->|H34].
  { eapply leaves_post; [by apply open_user_wp|done]. }
  destruct (Z.eqb_spec n SAMR_OPNUM_QUERY_USER_INFO) as [->|H36].
  { eapply leaves_post; [by apply query_user_info_wp; [|apply Hinfo]|]. apply step_idle; set_solver. }
  destruct (Z.eqb_spec n SAMR_OPNUM_QUERY_SECURITY) as [->|H3].
  { eapply leaves_post; [by apply query_security_wp|]. apply step_idle; set_solver. }
  destruct (Z.eqb_spec n SAMR_OPNUM_GET_GROUP_FOR_USER) as [->|H39].
  { eapply leaves_post; [by apply get_group_wp|]. apply step_idle; set_solver. }
  destruct (Z.eqb_spec n SAMR_OPNUM_GET_ALIAS_MEMBERSHIP) as [->|H16].
  { eapply leaves_post; [by apply alias_membership_wp|]. apply step_idle; set_solver. }
  destruct (Z.eqb_spec n SAMR_OPNUM_CLOSE) as [->|H1'].
  { eapply leaves_post; [by apply close_return_wp|done]. }
  eapply leaves_post; [by apply leaves_fail|]. apply step_idle. set_solver.
Qed.
Lemma rsafe_answer t' status : rsafe (I t' sm_typed) (λ _, False) (answer status).
Proof. unfold answer. apply rsafe_bind; [apply rsafe_code_of, ginv_write_status|intros; apply rsafe_ret]. Qed.
Lemma samr_return_wp r :
  let n := rh_opnum (d_req_hdr (r_dce r)) in
  let found := name_at q0 ≫= λ name, us_table (ss_users (r_shares r)) !! name in
  I t X r → reply_pre n →
  wp (samr_return g_convert restrict_anon gen_subauth gethostname domain_entries) r (λ _, reply_post n found) (λ _ _, False).
Proof.
  intros n found Hi Hpre. unfold samr_return, reserve_headers, set_cursor, upd_dce, upd_pipe. wp_step. wp_step.
  set (r1 := mk_rpc _ _ _).
  assert (I t X r1) as H1' by exact (ginv_set_cursor (Own:=samr_at t) (reading:=false) (rdy:=rdy) (Hd:=any_header)
    (U:=X) (E:=any_code) (dcerpc_header_sz + dcerpc_response_header_sz) ltac:(done) r Hi).
  unfold opnum. do 4 wp_step. change (rh_opnum (d_req_hdr (r_dce r1))) with n.
  unfold code_of at 1. do 2 wp_step. wp_step.
  assert (∀ status r', reply_post n found r' →
    wp (b <- restricted restrict_anon ;; answer (if b : bool then KSMBD_RPC_EACCESS_DENIED else status)) r'
      (λ _, reply_post n found) (λ _ _, False)) as Hend.
  { intros status r' (t' & Hi' & Ht'). eapply (wp_rsafe (I t' sm_typed) (λ _, False)); [apply ginv_restricted|exact Hi'|done|].
    clear r' Hi'. intros b r' Hi'. wp_by (by apply rsafe_answer); [|by intros ? ? []]. intros _ r2 Hi2. by exists t'. }
  wp_by (by apply (return_by_wp n r1)); intros ? r' Hp; wp_step; by apply Hend.
Qed.
End Operations.
End Replies.

(** ** Requests *)
Section Requests.
Context {rdy : bool} {Hd : dcerpc_header → dcerpc_request_header → Prop} {t : gmap bytes connect_handle}.
#[local] Abbreviation J := (ginv (samr_at t) true rdy Hd sm_typed).
Lemma rsafe_skip32 : rsafe J any_code skip32.
Proof. unfold skip32. apply rsafe_bind; [eapply rsafe_of_val, (ginv_read_int 4 _)|intros; apply rsafe_ret]. Qed.
Lemma rsafe_skip16 : rsafe J any_code skip16.
Proof. unfold skip16. apply rsafe_bind; [eapply rsafe_of_val, (ginv_read_int 2 _)|intros; apply rsafe_ret]. Qed.
Lemma rsafe_int32 : rsafe J any_code (ndr ndr_read_int32).
Proof. eapply rsafe_of_val, (ginv_read_int 4 _). Qed.
Lemma rsafe_sm_handle : rsafe J any_code read_sm_handle.
Proof.
  unfold read_sm_handle. apply rsafe_bind; [by eapply rsafe_of_val, ginv_read_bytes|intros hd]. apply ginv_upd_req.
  intros q []. split; try done. by apply is_raw_set_bits.
Qed.
Lemma rsafe_set_sm f : (∀ q, sm_typed q → sm_typed (f q)) → rsafe J any_code (upd_req f).
Proof. apply ginv_upd_req. Qed.
Lemma rsafe_sm_name : rsafe J any_code (read_sm_name g_convert).
Proof.
  unfold read_sm_name. apply rsafe_bind; [apply rsafe_or_return; [apply rsafe_int32|done]|intros ref].
  apply rsafe_bind; [apply rsafe_set_sm; intros q []; split; try done; by apply is_raw_set_bits|intros _].
  destruct (ref =? 0); [by apply rsafe_set_sm; intros q []|].
  unfold read_string. apply rsafe_bind; [apply rsafe_attempt, ginv_read_vstring|intros [s|e]].
  - by apply rsafe_set_sm; intros q [].
  - apply rsafe_bind; [by apply rsafe_set_sm; intros q []|intros _]. by apply rsafe_fail.
Qed.
Lemma rsafe_sm_bits v off width : rsafe J any_code (upd_req (λ q, with_0 (set_bits (q_0 q) off width v) q)).
Proof. apply rsafe_set_sm. intros q []. split; try done. by apply is_raw_set_bits. Qed.
Lemma rsafe_sm_rid v : rsafe J any_code (set_sm_rid v).
Proof. apply rsafe_set_sm. intros q []. split; try done. by apply is_raw_set_bits. Qed.
#[local] Hint Resolve rsafe_skip32 rsafe_skip16 rsafe_int32 rsafe_sm_handle rsafe_sm_name rsafe_sm_rid : ksmbd.
#[local] Hint Extern 1 (rsafe _ _ (ndr (ndr_read_uniq_vstring_ptr _))) => apply ginv_read_uniq_vstring : ksmbd.
Lemma rsafe_connect5 : rsafe J any_code (samr_connect5_invoke g_convert).
Proof.
  unfold samr_connect5_invoke, set_sm_level, set_sm_client_version.
  rsafes; try apply rsafe_sm_bits.
Qed.
Lemma rsafe_samr_invoke : rsafe J (λ _, False) (samr_invoke g_convert).
Proof.
  unfold samr_invoke, opnum. apply rsafe_bind; [apply rsafe_get_bind; intros; apply rsafe_ret|intros n]. cbv zeta.
  pose proof rsafe_connect5. repeat (destruct (n =? _); [apply rsafe_code_of, rsafe_or_return; [|done];
    unfold samr_handle_invoke, samr_lookup_domain_invoke, samr_lookup_names_invoke, samr_open_user_invoke; by rsafes|]).
  apply rsafe_ret.
Qed.
End Requests.
End Safety.

(** ** Lifetime of a handle *)

(** What an operation adds to the count of its handle. *)
Definition opens (n : Z) : Z :=
  if (n =? SAMR_OPNUM_OPEN_DOMAIN) || (n =? SAMR_OPNUM_OPEN_USER) then 1 else if n =? SAMR_OPNUM_CLOSE then -1 else 0.
(** The count after a sequence of operations, [None] once it was used up. *)
Fixpoint balance (c : Z) (l : list Z) : option Z :=
  match l with
  | [] => Some c
  | n :: l => if c + opens n <=? 0 then None else balance (c + opens n) l
  end.
Lemma steps_none (id : Z) (h : bytes) (found : option Z) (l : list Z) (t : gmap bytes connect_handle) :
  Forall (λ n, n ≠ SAMR_OPNUM_CONNECT5) l → t !! h = None → foldl (λ t n, handle_step id n h found t) t l !! h = None.
Proof.
  intros Hl. revert t. induction Hl as [|n l Hn _ IH]; intros t Ht; cbn [foldl]; [done|]. apply IH.
  unfold handle_step. by rewrite (proj2 (Z.eqb_neq _ _) Hn), Ht.
Qed.
Lemma step_count (id : Z) (h : bytes) (found : option Z) (n : Z) (t : gmap bytes connect_handle) (ch : connect_handle) :
  n ≠ SAMR_OPNUM_CONNECT5 → t !! h = Some ch → 1 ≤ ch_refcount ch < 2 ^ 32 - 1 →
  ch_refcount <$> handle_step id n h found t !! h =
    (if ch_refcount ch + opens n <=? 0 then None else Some (ch_refcount ch + opens n)).
Proof.
  intros Hn Ht Hc. unfold handle_step, opens. rewrite (proj2 (Z.eqb_neq _ _) Hn), Ht.
  destruct ((n =? SAMR_OPNUM_OPEN_DOMAIN) || (n =? SAMR_OPNUM_OPEN_USER)).
  { rewrite lookup_insert_eq, (proj2 (Z.leb_gt _ _)) by lia. cbn. by rewrite u32_small by lia. }
  destruct (Z.eqb_spec n SAMR_OPNUM_LOOKUP_NAMES) as [->|].
  { rewrite lookup_insert_eq. cbn. by rewrite Z.add_0_r, (proj2 (Z.leb_gt _ _)) by lia. }
  destruct (n =? SAMR_OPNUM_CLOSE).
  - destruct (Z.ltb_spec 1 (ch_refcount ch)).
    + rewrite lookup_insert_eq, (proj2 (Z.leb_gt _ _)) by lia. cbn. by rewrite u32_small by lia.
    + by rewrite lookup_delete_eq, (proj2 (Z.leb_le _ _)) by lia.
  - rewrite Ht, Z.add_0_r, (proj2 (Z.leb_gt _ _)) by lia. done.
Qed.
(** A handle stays in the table, under the same key, through
    any sequence of operations on it until it was closed once more than it was
    opened, and is not found afterwards. *)
Theorem handle_lifetime (id : Z) (h : bytes) (found : option Z) (l : list Z) (t : gmap bytes connect_handle) (ch : connect_handle) :
  Forall (λ n, n ≠ SAMR_OPNUM_CONNECT5) l → t !! h = Some ch → 1 ≤ ch_refcount ch →
  ch_refcount ch + Z.of_nat (length l) < 2 ^ 32 - 1 →
  ch_refcount <$> foldl (λ t n, handle_step id n h found t) t l !! h = balance (ch_refcount ch) l.
Proof.
  intros Hl. revert t ch. induction Hl as [|n l Hn Hl IH]; intros t ch Ht Hc Hb; cbn [foldl balance].
  { by rewrite Ht. }
  cbn [length] in Hb. pose proof (step_count id h found n t ch Hn Ht ltac:(lia)) as Hs.
  destruct (Z.leb_spec (ch_refcount ch + opens n) 0) as [Hz|Hz].
  - destruct (handle_step id n h found t !! h) eqn:E; [done|]. by rewrite steps_none.
  - destruct (handle_step id n h found t !! h) as [ch'|] eqn:E; [|done]. injection Hs as Hs. rewrite <-Hs.
    apply IH; [done|lia|]. assert (opens n ≤ 1) by (unfold opens; repeat case_match; lia). lia.
Qed.
Lemma handle_lifetime_witness :
  ch_refcount <$> foldl (λ t n, handle_step 7 n (handle_of 7) None t) {[ handle_of 7 := mk_connect 1 None ]}
    [SAMR_OPNUM_OPEN_DOMAIN; SAMR_OPNUM_ENUM_DOMAIN; SAMR_OPNUM_CLOSE] !! handle_of 7 = Some 1.
Proof.
  rewrite (handle_lifetime 7 (handle_of 7) None [SAMR_OPNUM_OPEN_DOMAIN; SAMR_OPNUM_ENUM_DOMAIN; SAMR_OPNUM_CLOSE]
    {[ handle_of 7 := mk_connect 1 None ]} (mk_connect 1 None)); [reflexivity|apply (bool_decide_unpack _); vm_compute; exact I|apply lookup_singleton_eq|cbn; lia|cbn; lia].
Defined.

(** ** Correctness of the replies *)

(** C22 (refinement): the replies implement the abstract table of handles.
    Whatever the union of the pipe holds, the daemon follows no invalid pointer,
    stays in its reply buffer, and changes the table exactly as [handle_step]
    says (a connection that has no room for its reply, or no memory, leaves it
    as it was); the users that the handles refer to stay alive.  This takes
    that a domain is looked up by a name, and that a user was found through the
    handle before its information is asked for. *)
Theorem samr_replies_refine `{GLib, System, Allocator} (g_convert : Z → Z → bytes → option bytes) (restrict_anon : Z)
    (gen_subauth : list Z) (gethostname : option bytes) (domain_entries : list bytes) (uheld sheld : Z → Z) (id : Z)
    (t : gmap bytes connect_handle) (q0 : request) (rdy : bool) (r : rpc) :
  (∀ t f s out, g_convert t f s = Some out → Z.of_nat (length out) ≤ 2 ^ 62) → (∀ p, 0 ≤ uheld p) → sm_typed q0 →
  ginv (samr_at uheld sheld id t) false rdy any_header (λ q, q = q0) r →
  let n := rh_opnum (d_req_hdr (r_dce r)) in
  let found := name_at q0 ≫= λ name, us_table (ss_users (r_shares r)) !! name in
  (n = SAMR_OPNUM_LOOKUP_DOMAIN → is_Some (name_at q0)) →
  (n = SAMR_OPNUM_QUERY_USER_INFO → ∀ ch, t !! handle_at q0 = Some ch → is_Some (ch_user ch)) →
  wp (samr_return g_convert restrict_anon gen_subauth gethostname domain_entries) r
    (λ _ r', ∃ t', ginv (samr_at uheld sheld id t') false rdy any_header sm_typed r' ∧
       (t' = handle_step id n (handle_at q0) found t ∨ n = SAMR_OPNUM_CONNECT5 ∧ t' = t)) (λ _ _, False).
Proof. intros Hg Hu Hq Hi n found Hdom Hinfo. apply samr_return_wp; [done..|]. by split. Qed.

Definition toy_union : request := store_handle (handle_of 7) with_24 with_32 q_40 with_40 zero_request.
Definition toy_connects : gmap bytes connect_handle := {[ handle_of 7 := mk_connect 1 None ]}.
Definition toy_samr (n : Z) : rpc :=
  mk_rpc (toy_shares None) (set_sx_connects toy_connects no_services)
    (set_dce (set_req toy_union (set_req_hdr (mk_req_hdr 0 0 n) (set_rpc_req (Message KSMBD_RPC_SAMR_METHOD_INVOKE)
       (dcerpc_ext_alloc (replicate 100 0))))) (rpc_pipe_alloc 7 [])).
Lemma toy_samr_ok n :
  ginv (samr_at (H:=toy_glib) (λ _, 0) (λ _, 0) 7 toy_connects) false false any_header (λ q, q = toy_union) (toy_samr n).
Proof.
  split; split.
  - apply (bool_decide_unpack _). vm_compute. exact I.
  - split; apply (bool_decide_unpack _); vm_compute; exact I.
  - reflexivity.
  - exact I.
  - apply (bool_decide_unpack _). vm_compute. exact I.
  - reflexivity.
  - by eexists.
  - reflexivity.
  - reflexivity.
  - apply users_kept_all. eapply shares_ok_ext; [|intros p; reflexivity|exact (toy_shares_ok None)]. intros p. unfold toy_connects, heap_refs.
    rewrite map_to_list_singleton. reflexivity.
  - reflexivity.
Qed.
Lemma samr_replies_refine_witness :
  ∃ r', samr_return (H1:=plenty) ascii_convert 0 [1; 2; 3] None [] (toy_samr SAMR_OPNUM_OPEN_DOMAIN)
          = Done KSMBD_RPC_OK r' ∧
        ∃ t', ginv (samr_at (H:=toy_glib) (λ _, 0) (λ _, 0) 7 t') false false any_header sm_typed r' ∧
          (t' = handle_step 7 SAMR_OPNUM_OPEN_DOMAIN (handle_at toy_union) None toy_connects ∨
           SAMR_OPNUM_OPEN_DOMAIN = SAMR_OPNUM_CONNECT5 ∧ t' = toy_connects).
Proof.
  eassert (∃ r', samr_return (H1:=plenty) ascii_convert 0 [1; 2; 3] None []
    (toy_samr SAMR_OPNUM_OPEN_DOMAIN) = Done KSMBD_RPC_OK r') as (r' & E) by (eexists; vm_compute; reflexivity).
  exists r'. split; [exact E|].
  assert (sm_typed toy_union) as Hq by (split; exact I || reflexivity).
  exact (wp_Done _ _ _ _ _ _ (samr_replies_refine (H:=toy_glib) (H0:=total_system) (H1:=plenty) ascii_convert 0 [1; 2; 3] None []
    (λ _, 0) (λ _, 0) 7 toy_connects toy_union false (toy_samr SAMR_OPNUM_OPEN_DOMAIN) ascii_convert_small (λ _, Z.le_refl 0) Hq
    (toy_samr_ok _) (λ E, False_ind _ (ltac:(discriminate E))) (λ E, False_ind _ (ltac:(discriminate E)))) E).
Defined.
