(* ===== verification/Lsarpc.v ===== *)
(** * The local security authority ([src/mountd/rpc_lsarpc.c])

    Lookups of security identifiers and of names: a request leaves an object
    per identifier or name in the pipe, with a reference to the user it
    belongs to, and the reply writes them and gives them back.  One operation
    of the directory service set-up interface is answered here as well. *)

From S2P Require Import Prelude ConfText Refcount Users Shares Ndr Smbacl Rpc Srvsvc Handles.

Definition LSARPC_OPNUM_DS_ROLE_GET_PRIMARY_DOMAIN_INFO : Z := 0.
Definition LSARPC_OPNUM_OPEN_POLICY2 : Z := 44.
Definition LSARPC_OPNUM_QUERY_INFO_POLICY : Z := 7.
Definition LSARPC_OPNUM_LOOKUP_SID2 : Z := 57.
Definition LSARPC_OPNUM_LOOKUP_NAMES3 : Z := 68.
Definition DS_ROLE_STANDALONE_SERVER : Z := 2.
Definition DS_ROLE_BASIC_INFORMATION : Z := 1.
Definition LSA_POLICY_INFO_ACCOUNT_DOMAIN : Z := 5.
Definition sizeof_policy_handle : Z := 32.
Definition sizeof_names_info : Z := 344.
Definition zero_sid : smb_sid := mk_sid 0 0 (replicate 6 0) (replicate 15 0).

(** The second token of [strtok_r(s, "\\", ...)] *)
Fixpoint tokens (s : bytes) : list bytes :=
  match s with
  | [] => []
  | c :: s =>
      if c =? 92 then tokens s
      else match s with
           | [] => [[c]]
           | c' :: _ => if c' =? 92 then [c] :: tokens s
                        else match tokens s with t :: l => (c :: t) :: l | [] => [[c]] end
           end
  end.
Definition account_of (username : option bytes) : option bytes :=
  match username with
  | Some s => if bool_decide (92 ∈ s) then tokens s !! 1%nat else None
  | None => None
  end.

Section Lsarpc.
Context `{GLib, System, Allocator}.
Variable g_convert : Z → Z → bytes → option bytes.
Variable g_utf8_strlen : bytes → Z.
Variable gen_subauth : list Z.
(** [gethostname] of [set_domain_name]; [domain_name] of [rpc_lsarpc_init] *)
Variable gethostname : option bytes.
Variable domain_name : bytes.
(** [getpwuid_r] *)
Variable getpwuid : Z → option bytes.

(** ** Handles *)
Definition upd_policies (f : gmap bytes policy_handle → gmap bytes policy_handle) : prog rpc unit :=
  service_op (modify (λ s, set_sx_policies (f (sx_policies s)) s)).
Definition lsarpc_ph_free (handle : bytes) : prog rpc unit := upd_policies (delete handle).
Definition lsarpc_ph_lookup (handle : bytes) : prog rpc (option policy_handle) :=
  s <- service_op get ;; ret (sx_policies s !! handle).
(** A handle that is in the table already is replaced, and then freed. *)
Definition lsarpc_ph_alloc (id : Z) : prog rpc (option bytes) :=
  if negb (g_try_malloc sizeof_policy_handle) then ret None
  else
    let handle := handle_of id in
    old <- lsarpc_ph_lookup handle ;;
    upd_policies (insert handle (mk_policy None)) ;;
    match old with
    | None => ret (Some handle)
    | Some _ => lsarpc_ph_free handle ;; ret None
    end.

(** The fields of [lr_req] in the words of the union *)
Definition lr_handle : prog rpc bytes := handle_in q_0 q_8 q_16.
Definition lr_level : prog rpc Z := r <- get ;; get_bits (q_16 (d_req (r_dce r))) 32 32.
Definition set_lr_level (v : Z) : prog rpc unit := upd_req (λ q, with_16 (set_bits (q_16 q) 32 32 v) q).
Definition read_lr_handle : prog rpc unit :=
  h <- ndr (ndr_read_bytes HANDLE_SIZE) ;; upd_req (store_handle h with_0 with_8 q_16 with_16).

(** ** Domains *)
Definition lsa_domain_account_rep (name : bytes) : prog rpc unit :=
  w16 (Z.of_nat (length name) * 2) ;;
  w16 ((Z.of_nat (length name) + 1) * 2) ;;
  write_ref ;;
  write_ref.
Definition lsa_domain_account_data (name : bytes) (sid : smb_sid) : prog rpc unit :=
  ndr (ndr_write_lsa_string g_convert (Some name)) ;;
  w32 (sid_num_subauth sid) ;;
  ndr (smb_write_sid sid).

(** ** Requests *)
Definition lsarpc_get_primary_domain_info_invoke : prog rpc unit :=
  val <- ndr ndr_read_int16 ;; set_lr_level val.
Definition lsarpc_query_info_policy_invoke : prog rpc unit :=
  read_lr_handle ;; val <- ndr ndr_read_int16 ;; set_lr_level val.
Definition lsarpc_close_invoke : prog rpc unit := read_lr_handle.

(** An object in [pipe->entries] *)
Definition add_name (ni : names_info) : prog rpc unit :=
  s <- service_op get ;;
  service_op (modify (λ s, mk_services (<[sx_next s := ni]> (sx_names s)) (sx_next s + 1) (sx_policies s) (sx_connects s))) ;;
  upd_pipe (λ q, set_entries (p_num_entries q + 1) (p_entries q ++ [sx_next s]) q).
(** An identifier is that of a domain, and of an account in it. *)
Definition split_sid (sid : smb_sid) : smb_sid * Z :=
  let n := sid_num_subauth sid - 1 in
  (mk_sid (sid_revision sid) n (sid_authority sid) (sid_sub_auth sid), nth (Z.to_nat n) (sid_sub_auth sid) 0).
(** Where [set_domain_name] fails, the members of the object are zero. *)
Definition names_of_sid (i : Z) (sid : smb_sid) (user : option Z) : names_info :=
  let '(code, found) := set_domain_name gen_subauth gethostname sid DOMAIN_STR_SIZE in
  let '(domain, type) := default ([], 0) found in
  mk_names (Some (if code =? 0 then i + 1 else u32 (-1))) (Some type) (Some domain) (Some sid) user.
Fixpoint read_sids (n : nat) (i : Z) : prog rpc unit :=
  match n with
  | O => ret tt
  | S n =>
      if negb (g_try_malloc sizeof_names_info) then ret tt
      else
        skip32 ;;
        sid <- ndr (smb_read_sid zero_sid) ;;
        if sid_num_subauth sid =? 0 then ret tt
        else
          let '(sid, rid) := split_sid sid in
          user <- (match getpwuid rid with
                   | Some name => user_op (usm_lookup_user (Some name))
                   | None => ret None
                   end) ;;
          add_name (names_of_sid i sid user) ;;
          read_sids n (i + 1)
  end.
Definition lsarpc_lookup_sid2_invoke : prog rpc unit :=
  read_lr_handle ;;
  num_sid <- ndr ndr_read_int32 ;;
  if 256 <? num_sid then fail KSMBD_RPC_EINVALID_PARAMETER
  else
    skip32 ;;
    skip32 ;;
    for_each (replicate (Z.to_nat num_sid) tt) (λ _, skip32) ;;
    read_sids (Z.to_nat num_sid) 0 ;;
    upd_pipe (set_processed (Some NamesProcessed)).
(** These objects are not zeroed. *)
Fixpoint read_names (n : nat) : prog rpc unit :=
  match n with
  | O => ret tt
  | S n =>
      if negb (g_try_malloc sizeof_names_info) then ret tt
      else
        skip16 ;;
        skip16 ;;
        username <- ndr (ndr_read_uniq_vstring_ptr g_convert) ;;
        user <- user_op (usm_lookup_user (account_of (cstr <$> username.2))) ;;
        match user with
        | None => ret tt
        | Some p =>
            add_name (mk_names None None None (Some (smb_init_domain_sid gen_subauth)) (Some p)) ;;
            read_names n
        end
  end.
Definition lsarpc_lookup_names3_invoke : prog rpc unit :=
  read_lr_handle ;;
  num_names <- ndr ndr_read_int32 ;;
  r <- get ;;
  if INT_MAX <? num_names then fail KSMBD_RPC_EINVALID_PARAMETER
  else if payload_sz (d_ndr (r_dce r)) / 4 <? num_names then fail KSMBD_RPC_EINVALID_PARAMETER
  else
    skip32 ;;
    read_names (Z.to_nat num_names) ;;
    upd_pipe (set_processed (Some NamesProcessed)).
(** Operation 0 of the context that was bound to the set-up interface *)
Definition is_dssetup_call (d : dce) : bool :=
  (0 <=? d_dssetup_context_id d) && (rh_context_id (d_req_hdr d) =? u16 (d_dssetup_context_id d)).
Definition lsarpc_invoke : prog rpc Z :=
  r <- get ;;
  let n := rh_opnum (d_req_hdr (r_dce r)) in
  let run (m : prog rpc unit) := code_of (m else_return KSMBD_RPC_EINVALID_PARAMETER) in
  if n =? LSARPC_OPNUM_DS_ROLE_GET_PRIMARY_DOMAIN_INFO
  then if is_dssetup_call (r_dce r) then run lsarpc_get_primary_domain_info_invoke else run lsarpc_close_invoke
  else if n =? LSARPC_OPNUM_OPEN_POLICY2 then ret KSMBD_RPC_OK
  else if n =? LSARPC_OPNUM_QUERY_INFO_POLICY then run lsarpc_query_info_policy_invoke
  else if n =? LSARPC_OPNUM_LOOKUP_SID2 then run lsarpc_lookup_sid2_invoke
  else if n =? LSARPC_OPNUM_LOOKUP_NAMES3 then run lsarpc_lookup_names3_invoke
  else ret KSMBD_RPC_ENOTIMPLEMENTED.

(** ** Replies *)
Definition lsarpc_get_primary_domain_info_return : prog rpc unit :=
  level <- lr_level ;;
  if negb (level =? DS_ROLE_BASIC_INFORMATION) then fail KSMBD_RPC_EBAD_FUNC
  else or_bad (
    write_ref ;; w16 1 ;; w16 0 ;; w16 DS_ROLE_STANDALONE_SERVER ;; w16 0 ;; w32 0 ;;
    write_ref ;; w32 0 ;; w32 0 ;;
    repeat_w 16 (w8 0) ;;
    vstring g_convert g_utf8_strlen (Some domain_name)).
Definition lsarpc_open_policy2_return : prog rpc unit :=
  r <- get ;;
  ph <- lsarpc_ph_alloc (p_id (r_pipe r)) ;;
  match ph with
  | None => fail KSMBD_RPC_ENOMEM
  | Some handle => or_bad (ndr (ndr_write_bytes handle))
  end.
(** [ph = lsarpc_ph_lookup(dce->lr_req.handle); if (!ph) return KSMBD_RPC_EBAD_FID;] *)
Definition with_policy (k : bytes → prog rpc unit) : prog rpc unit :=
  handle <- lr_handle ;;
  ph <- lsarpc_ph_lookup handle ;;
  match ph with Some _ => k handle | None => fail KSMBD_RPC_EBAD_FID end.
Definition lsarpc_query_info_policy_return : prog rpc unit :=
  with_policy (λ _,
    level <- lr_level ;;
    if negb (level =? LSA_POLICY_INFO_ACCOUNT_DOMAIN) then fail KSMBD_RPC_EBAD_FUNC
    else or_bad (
      write_ref ;; w16 LSA_POLICY_INFO_ACCOUNT_DOMAIN ;; w16 0 ;;
      lsa_domain_account_rep domain_name ;;
      lsa_domain_account_data domain_name (smb_init_domain_sid gen_subauth))).

(** [for (i = 0; i < pipe->num_entries; i++) { ni = g_ptr_array_index(...); ... }] *)
Definition each_name (f : Z → Z → names_info → prog rpc unit) : prog rpc unit :=
  r <- get ;;
  for_each (seq 0 (Z.to_nat (p_num_entries (r_pipe r)))) (λ i,
    r <- get ;;
    match p_entries (r_pipe r) !! i with
    | None => fault
    | Some p => ni <- service_op (load sx_names p) ;; f (Z.of_nat i) p ni
    end).
(** The name of an object, or [None]; the object may have no user. *)
Definition ni_user_name (ni : names_info) : prog rpc bytes :=
  match ni_user ni with
  | Some p => u <- user_op (uload p) ;; ret (u_name u)
  | None => ret (str "None")
  end.
(** [if (pipe->entry_processed) { ... }] at the end of a reply; the objects are
    taken out one by one, and their number is reset at the end. *)
Definition names_processed : prog rpc unit :=
  r <- get ;;
  match p_processed (r_pipe r) with
  | Some c => entries_processed (p_num_entries (r_pipe r)) c ;; upd_pipe (λ q, set_entries 0 (p_entries q) q)
  | None => ret tt
  end.
(** An object of the type [-1] among the entries *)
Definition some_not_mapped (r : rpc) : bool :=
  existsb (λ p, match sx_names (r_services r) !! p with
                | Some ni => bool_decide (ni_type ni = Some (-1))
                | None => false
                end) (take (Z.to_nat (p_num_entries (r_pipe r))) (p_entries (r_pipe r))).
(** A member of an object, which must have been stored. *)
Definition stored {T : Type} (o : option T) : prog rpc T := match o with Some v => ret v | None => fault end.
Definition name_entry (ni : names_info) : prog rpc unit :=
  type <- stored (ni_type ni) ;;
  w16 type ;;
  w16 0 ;;
  name <- ni_user_name ni ;;
  w16 (Z.of_nat (length name) * 2) ;;
  w16 (Z.of_nat (length name) * 2) ;;
  write_ref ;;
  index <- stored (ni_index ni) ;;
  w32 index ;;
  w32 0.
Definition lsarpc_lookup_sid2_return : prog rpc unit :=
  with_policy (λ _,
    r <- get ;;
    let n := p_num_entries (r_pipe r) in
    let rc := if some_not_mapped r then KSMBD_RPC_SOME_NOT_MAPPED else KSMBD_RPC_OK in
    or_bad (write_ref ;; w32 n ;; write_ref ;; w32 32 ;; w32 n) ;;
    each_name (λ _ _ ni,
      stored (ni_type ni) ;; domain <- stored (ni_domain_str ni) ;; or_bad (lsa_domain_account_rep domain)) ;;
    each_name (λ _ _ ni,
      domain <- stored (ni_domain_str ni) ;; sid <- stored (ni_sid ni) ;; or_bad (lsa_domain_account_data domain sid)) ;;
    or_bad (w32 n ;; write_ref ;; w32 n) ;;
    each_name (λ _ _ ni, or_bad (name_entry ni)) ;;
    each_name (λ _ _ ni, name <- ni_user_name ni ;; or_bad (ndr (ndr_write_string g_convert (Some name)))) ;;
    or_bad (w32 n) ;;
    names_processed ;;
    if rc =? KSMBD_RPC_OK then ret tt else fail rc).
(** The identifier of the account: that of its domain and the user's number;
    nothing when there is no room for it.  The object keeps the result. *)
Definition account_sid (sid : smb_sid) (uid : Z) : smb_sid :=
  mk_sid (sid_revision sid) (sid_num_subauth sid + 1) (sid_authority sid)
    (<[Z.to_nat (sid_num_subauth sid) := uid]> (sid_sub_auth sid)).
Definition write_account_sid (p : Z) (ni : names_info) : prog rpc unit :=
  sid <- stored (ni_sid ni) ;;
  if SID_MAX_SUB_AUTHORITIES <=? sid_num_subauth sid then ret tt
  else
    user <- stored (ni_user ni) ;;
    u <- user_op (uload user) ;;
    let sid := account_sid sid (u_uid u) in
    service_op (store sx_names set_sx_names p
      (mk_names (ni_index ni) (ni_type ni) (ni_domain_str ni) (Some sid) (ni_user ni))) ;;
    or_bad (w32 (sid_num_subauth sid) ;; ndr (smb_write_sid sid)).
Definition lsarpc_lookup_names3_return : prog rpc unit :=
  with_policy (λ _,
    r <- get ;;
    let n := p_num_entries (r_pipe r) in
    or_bad (
      write_ref ;; w32 1 ;; write_ref ;; w32 32 ;; w32 1 ;;
      lsa_domain_account_rep domain_name ;;
      lsa_domain_account_data domain_name (smb_init_domain_sid gen_subauth) ;;
      w32 n ;; write_ref ;; w32 n ;;
      for_each (seq 0 (Z.to_nat n)) (λ i, w16 SMB_SID_TYPE_USER ;; w16 0 ;; write_ref ;; w32 (Z.of_nat i) ;; w32 0)) ;;
    each_name (λ _ p ni, write_account_sid p ni) ;;
    or_bad (w32 n) ;;
    names_processed).
Definition lsarpc_close_return : prog rpc unit :=
  with_policy (λ handle, lsarpc_ph_free handle ;; or_bad write_zero_handle).

Definition lsarpc_return_by (d : dce) : prog rpc unit :=
  let n := rh_opnum (d_req_hdr d) in
  if n =? LSARPC_OPNUM_DS_ROLE_GET_PRIMARY_DOMAIN_INFO
  then if is_dssetup_call d then lsarpc_get_primary_domain_info_return else lsarpc_close_return
  else if n =? LSARPC_OPNUM_OPEN_POLICY2 then lsarpc_open_policy2_return
  else if n =? LSARPC_OPNUM_QUERY_INFO_POLICY then lsarpc_query_info_policy_return
  else if n =? LSARPC_OPNUM_LOOKUP_SID2 then lsarpc_lookup_sid2_return
  else if n =? LSARPC_OPNUM_LOOKUP_NAMES3 then lsarpc_lookup_names3_return
  else fail KSMBD_RPC_EBAD_FUNC.
Definition lsarpc_return : prog rpc Z :=
  reserve_headers ;;
  r <- get ;;
  status <- code_of (lsarpc_return_by (r_dce r)) ;;
  answer status.

(** [lsarpc_ph_clear_table] of [rpc_lsarpc_destroy] *)
Definition lsarpc_ph_clear_table : prog rpc unit :=
  s <- service_op get ;;
  for_each (map_to_list (sx_policies s)) (λ x, user_op (put_ksmbd_user (ph_user x.2))) ;;
  upd_policies (λ _, ∅).
End Lsarpc.

(** ** Accounting

    The objects of a pipe are alive and distinct, and the users they refer to
    are held. *)
Definition lsa_typed (q : request) : Prop := is_raw (q_0 q) ∧ is_raw (q_8 q) ∧ is_raw (q_16 q).
(** What a lookup of identifiers, or of names, stores in its objects *)
Definition sid_entry (ni : names_info) : Prop :=
  is_Some (ni_index ni) ∧ is_Some (ni_type ni) ∧ is_Some (ni_domain_str ni) ∧ is_Some (ni_sid ni).
Definition name_entry_ok (ni : names_info) : Prop := is_Some (ni_sid ni) ∧ is_Some (ni_user ni).
Definition entry_users (names : gmap Z names_info) (p : Z) : list Z :=
  match names !! p with Some ni => refs (ni_user ni) | None => [] end.
Definition names_users (names : gmap Z names_info) (l : list Z) : list Z := concat (entry_users names <$> l).

Section Accounting.
Context `{GLib}.
(** References held elsewhere *)
Variables uheld sheld : Z → Z.
Hypothesis uheld_pos : ∀ p, 0 ≤ uheld p.
(** The callback of the pipe *)
Variable cb : option callback.

(** [x]: references in local variables; [l]: the entries, all with [K]. *)
Record lsa_at (K : names_info → Prop) (x : list Z) (num : Z) (l : list Z) (r : rpc) : Prop := {
  la_num : p_num_entries (r_pipe r) = num;
  la_list : p_entries (r_pipe r) = l;
  la_nodup : NoDup l;
  la_names : ∀ p, p ∈ l → ∃ ni, sx_names (r_services r) !! p = Some ni ∧ K ni;
  la_fresh : ∀ p, is_Some (sx_names (r_services r) !! p) → p < sx_next (r_services r);
  la_users : shares_ok (λ p, uheld p + count p x + count p (names_users (sx_names (r_services r)) l)) sheld (r_shares r);
  la_callback : p_processed (r_pipe r) = cb;
}.
#[export] Instance lsa_untouched K x num l : Untouched (lsa_at K x num l).
Proof. intros r r' [Hs Hx _ He Hn Hp] []. split; by rewrite ?Hs, ?Hx, ?He, ?Hn, ?Hp. Qed.
Lemma names_users_ext names names' l :
  (∀ p, p ∈ l → entry_users names' p = entry_users names p) → names_users names' l = names_users names l.
Proof.
  intros Hl. unfold names_users. f_equal. apply list_fmap_ext. intros i p Hp. apply Hl. by eapply list_elem_of_lookup_2.
Qed.
Lemma names_users_cons names p l : names_users names (p :: l) = entry_users names p ++ names_users names l.
Proof. done. Qed.
Lemma names_users_app names l k : names_users names (l ++ k) = names_users names l ++ names_users names k.
Proof. unfold names_users. by rewrite fmap_app, concat_app. Qed.

(** A new object, which takes over the reference to its user. *)
Lemma add_name_wp K ni num l r :
  lsa_at K (refs (ni_user ni)) num l r → K ni →
  wp (add_name ni) r (λ _ r', ∃ p, lsa_at K [] (num + 1) (l ++ [p]) r' ∧ r_dce r' = r_dce r ∧
    p_ioctl_reply_consumed (r_pipe r') = p_ioctl_reply_consumed (r_pipe r)) (λ _ _, False).
Proof.
  intros [Hn Hl Hnd Hns Hf Hu Hc] HK. unfold add_name, service_op. wp_step. apply wp_zoom. wp_step.
  wp_step. apply wp_zoom. wp_step. unfold upd_pipe. wp_step. cbn [r_services sx_next]. set (p := sx_next (r_services r)).
  assert (sx_names (r_services r) !! p = None) as Hp.
  { destruct (sx_names (r_services r) !! p) eqn:E; [|done]. pose proof (Hf p ltac:(by eexists)). unfold p in *. lia. }
  assert (p ∉ l) as Hpl by (intros Hin; destruct (Hns p Hin) as (? & ? & _); congruence).
  exists p. split; [|done]. split; cbn.
  - by rewrite Hn.
  - by rewrite Hl.
  - apply NoDup_app. split; [done|]. split; [|apply NoDup_singleton]. intros q Hq ->%list_elem_of_singleton. done.
  - intros q [Hq| ->%list_elem_of_singleton]%elem_of_app.
    + destruct (Hns q Hq) as (nq & E & ?). exists nq. rewrite lookup_insert_ne by (intros ->; done). done.
    + exists ni. by rewrite lookup_insert_eq.
  - intros q. destruct (decide (q = p)) as [->|]; [unfold p; lia|]. rewrite lookup_insert_ne by done. intros Hq. specialize (Hf q Hq). lia.
  - eapply shares_ok_ext; [|done|exact Hu]. intros q. cbn. rewrite names_users_app, count_app.
    rewrite (names_users_ext (sx_names (r_services r)) (<[p:=ni]> (sx_names (r_services r))) l).
    2:{ intros q' Hq'. unfold entry_users. rewrite lookup_insert_ne by (intros ->; done). done. }
    rewrite names_users_cons. unfold entry_users. rewrite lookup_insert_eq, app_nil_r. unfold count at 3. cbn. lia.
  - done.
Qed.

(** Giving back the first object. *)
Lemma entry_processed_wp K num p l r :
  lsa_at K [] num (p :: l) r →
  wp __lsarpc_entry_processed r (λ _ r', lsa_at K [] num l r' ∧ r_dce r' = r_dce r ∧
    p_ioctl_reply_consumed (r_pipe r') = p_ioctl_reply_consumed (r_pipe r) ∧
    p_processed (r_pipe r') = p_processed (r_pipe r)) (λ _ _, False).
Proof.
  intros [Hn Hl Hnd Hns Hf Hu Hc]. unfold __lsarpc_entry_processed. do 2 wp_step. rewrite Hl. wp_step. unfold upd_pipe. wp_step.
  destruct (Hns p) as (ni & Hp & HK); [by left|]. apply NoDup_cons in Hnd as [Hpl Hnd].
  wp_step. unfold service_op at 1. apply wp_zoom. cbn [r_services]. eapply wp_load; [exact Hp|]. cbn [r_shares r_services r_pipe].
  set (r1 := mk_rpc _ _ _). wp_step.
  set (uh := λ q, uheld q + count q (names_users (sx_names (r_services r)) l)).
  assert (shares_ok (λ q, uh q + count q (refs (ni_user ni))) sheld (r_shares r1)) as Hs1.
  { eapply shares_ok_ext; [|done|exact Hu]. intros q. cbv beta. rewrite names_users_cons, count_app. unfold uh, entry_users. rewrite Hp.
    unfold count at 1. cbn. lia. }
  assert (∀ q, 0 ≤ uh q) as Hpos.
  { intros q. unfold uh. pose proof (count_nonneg q (names_users (sx_names (r_services r)) l)). specialize (uheld_pos q). lia. }
  wp_by (by apply (give_user_wp uh sheld (ni_user ni) r1)); [|done].
  intros _ r2 ([Hpipe Hx] & Hs). unfold service_op. apply wp_zoom. rewrite Hx. cbn [r1 r_services].
    eapply wp_release; [exact Hp|]. cbn. rewrite Hpipe. split; [|done]. split; cbn; try done; rewrite ?Hpipe, ?Hx; cbn; try done.
  - intros q Hq. destruct (Hns q) as (nq & E & ?); [by right|]. exists nq. rewrite lookup_delete_ne by (intros ->; done). done.
  - intros q [? [_ E]%lookup_delete_Some]. apply Hf. by eexists.
  - eapply shares_ok_ext; [|done|exact Hs]. intros q. cbv beta. rewrite (names_users_ext (sx_names (r_services r)) (delete p (sx_names (r_services r)))).
    { unfold uh. change (count q []) with 0. lia. }
    intros q' Hq'. unfold entry_users. rewrite lookup_delete_ne by (intros ->; done). done.
Qed.
End Accounting.

(** ** Requests *)
Section Requests.
Context `{GLib, System, Allocator}.
Variable g_convert : Z → Z → bytes → option bytes.
Variable gen_subauth : list Z.
Variable gethostname : option bytes.
Variable getpwuid : Z → option bytes.
Variables uheld sheld : Z → Z.
Hypothesis uheld_pos : ∀ p, 0 ≤ uheld p.
Context {rdy : bool} {Hd : dcerpc_header → dcerpc_request_header → Prop}.
(** The callback of the pipe, and its entries before the request *)
Variable cb : option callback.
#[local] Abbreviation J K x num l := (ginv (lsa_at uheld sheld cb K x num l) true rdy Hd lsa_typed).
(** Entries of the kind [K], all of them counted, which begin with [l0] *)
Definition filled (l0 : list Z) (c : option callback) (K : names_info → Prop) (r : rpc) : Prop :=
  ∃ l, ginv (lsa_at uheld sheld c K [] (Z.of_nat (length (l0 ++ l))) (l0 ++ l)) true rdy Hd lsa_typed r.

Section Statements.
Context {K : names_info → Prop} {x : list Z} {num : Z} {l : list Z}.
Lemma rsafe_lr_handle : rsafe (J K x num l) any_code read_lr_handle.
Proof.
  unfold read_lr_handle. apply rsafe_bind; [by eapply rsafe_of_val, ginv_read_bytes|intros hd]. apply ginv_upd_req.
  intros q (? & ? & ?). split_and!; [done..|by apply is_raw_set_bits].
Qed.
Lemma rsafe_lr_level v : rsafe (J K x num l) any_code (set_lr_level v).
Proof. apply ginv_upd_req. intros q (? & ? & ?). split_and!; [done..|by apply is_raw_set_bits]. Qed.
Lemma rsafe_lsa_int (n : nat) : int_width n → rsafe (J K x num l) any_code (ndr (ndr_read_int n)).
Proof. intros Hn. by eapply rsafe_of_val, ginv_read_int. Qed.
Lemma rsafe_lsa_skip32 : rsafe (J K x num l) any_code skip32.
Proof. unfold skip32. apply rsafe_bind; [apply (rsafe_lsa_int 4 _)|intros; apply rsafe_ret]. Qed.
Lemma rsafe_lsa_skip16 : rsafe (J K x num l) any_code skip16.
Proof. unfold skip16. apply rsafe_bind; [apply (rsafe_lsa_int 2 _)|intros; apply rsafe_ret]. Qed.
End Statements.
Lemma lsa_lookup_wp K name num l r :
  J K [] num l r → wp (user_op (usm_lookup_user name)) r (λ o, J K (refs o) num l) (λ _ _, False).
Proof.
  intros Hi. wp_by (eapply lookup_user_wp; apply (la_users _ _ _ _ _ _ _ _ (proj2 Hi))); [|done].
  intros o r' ([Hp Hx] & _ & Hs). eapply ginv_own; [exact Hi|done|]. destruct Hi as [_ []]. split; rewrite ?Hx, ?Hp; try done.
  eapply shares_ok_ext; [|done|exact Hs]. intros p. cbv beta. change (count p []) with 0. lia.
Qed.
Lemma lsa_add_wp K ni num l r :
  K ni → J K (refs (ni_user ni)) num l r → wp (add_name ni) r (λ _ r', ∃ p, J K [] (num + 1) (l ++ [p]) r') (λ _ _, False).
Proof.
  intros HK Hi. wp_by (eapply add_name_wp; [apply Hi|done]); [|done]. intros _ r' (p & Ha & Ed & Ec). exists p.
  split; [|done]. destruct Hi as [[] _]. split; rewrite ?Ed, ?Ec; done.
Qed.
Lemma filled_start K l r : J K [] (Z.of_nat (length l)) l r → filled l cb K r.
Proof. intros Hi. exists []. by rewrite app_nil_r. Qed.
Lemma filled_added K l p r :
  J K [] (Z.of_nat (length l) + 1) (l ++ [p]) r → J K [] (Z.of_nat (length (l ++ [p]))) (l ++ [p]) r.
Proof. rewrite length_app. cbn. by rewrite Nat2Z.inj_add. Qed.
Lemma filled_more K c l p r : filled (l ++ [p]) c K r → filled l c K r.
Proof. intros [l' Hi]. exists (p :: l'). by rewrite <-app_assoc in Hi. Qed.
Lemma names_of_sid_ok i sid user : sid_entry (names_of_sid gen_subauth gethostname i sid user).
Proof.
  unfold names_of_sid. destruct set_domain_name as [code found]. destruct (default _ found). repeat split; by eexists.
Qed.
Lemma names_of_sid_user i sid user : ni_user (names_of_sid gen_subauth gethostname i sid user) = user.
Proof. unfold names_of_sid. destruct set_domain_name as [code found]. by destruct (default _ found). Qed.

Lemma read_sids_wp n i l r :
  J sid_entry [] (Z.of_nat (length l)) l r →
  wp (read_sids gen_subauth gethostname getpwuid n i) r (λ _, filled l cb sid_entry) (λ _, filled l cb sid_entry).
Proof.
  revert i l r. induction n as [|n IH]; intros i l r Hi; cbn [read_sids]; [wp_step; by apply filled_start|].
  destruct (g_try_malloc _); cbn [negb]; [|wp_step; by apply filled_start].
  eapply (wp_rsafe (J sid_entry [] _ l) any_code); [apply rsafe_lsa_skip32|exact Hi|intros; by apply filled_start|clear r Hi; intros _ r Hi].
  eapply (wp_rsafe (J sid_entry [] _ l) any_code); [apply ginv_read, smb_read_sid_safe|exact Hi|intros; by apply filled_start|clear r Hi; intros sid r Hi].
  destruct (_ =? 0); [wp_step; by apply filled_start|]. destruct (split_sid sid) as [dom rid].
  wp_step. apply (wp_mono _ _ (λ o, J sid_entry (refs o) (Z.of_nat (length l)) l) _ (λ _ _, False)); [| |done].
  { destruct getpwuid; [by apply lsa_lookup_wp|by wp_step]. }
  clear r Hi. intros user r Hi. wp_step.
  wp_by (eapply (lsa_add_wp sid_entry); [apply names_of_sid_ok|rewrite names_of_sid_user; exact Hi]); [|done].
  intros _ r' (p & Hi'%filled_added). wp_by (by eapply IH); intros ? ? ?; by eapply filled_more.
Qed.
Lemma read_names_wp n l r :
  J name_entry_ok [] (Z.of_nat (length l)) l r →
  wp (read_names g_convert gen_subauth n) r (λ _, filled l cb name_entry_ok) (λ _, filled l cb name_entry_ok).
Proof.
  revert l r. induction n as [|n IH]; intros l r Hi; cbn [read_names]; [wp_step; by apply filled_start|].
  destruct (g_try_malloc _); cbn [negb]; [|wp_step; by apply filled_start].
  do 2 (eapply (wp_rsafe (J name_entry_ok [] _ l) any_code); [apply rsafe_lsa_skip16|exact Hi|intros; by apply filled_start|clear r Hi; intros _ r Hi]).
  eapply (wp_rsafe (J name_entry_ok [] _ l) any_code); [apply ginv_read_uniq_vstring|exact Hi|intros; by apply filled_start|clear r Hi; intros name r Hi].
  wp_step. wp_by (by apply lsa_lookup_wp); [|done]. clear r Hi. intros [p|] r Hi; [|wp_step; by apply filled_start]. wp_step.
  wp_by (eapply (lsa_add_wp name_entry_ok); [|exact Hi]; split; by eexists); [|done].
  intros _ r' (q & Hi'%filled_added). wp_by (by eapply IH); intros ? ? ?; by eapply filled_more.
Qed.
Lemma filled_callback l K r :
  filled l cb K r → wp (upd_pipe (set_processed (Some NamesProcessed))) r (λ _, filled l (Some NamesProcessed) K) (λ _ _, False).
Proof.
  intros (k & Hi & Ho). unfold upd_pipe. wp_step. exists k. split; [by destruct Hi|]. destruct Ho. by split.
Qed.
Lemma sid2_invoke_wp l r :
  J sid_entry [] (Z.of_nat (length l)) l r →
  wp (lsarpc_lookup_sid2_invoke gen_subauth gethostname getpwuid) r
    (λ _, filled l (Some NamesProcessed) sid_entry) (λ _, filled l cb sid_entry).
Proof.
  intros Hi. unfold lsarpc_lookup_sid2_invoke. set (m := Z.of_nat (length l)) in *.
  eapply (wp_rsafe (J sid_entry [] m l) any_code); [apply rsafe_lr_handle|exact Hi|intros; by apply filled_start|clear r Hi; intros _ r Hi].
  eapply (wp_rsafe (J sid_entry [] m l) any_code); [apply (rsafe_lsa_int 4 _)|exact Hi|intros; by apply filled_start|clear r Hi; intros num r Hi].
  destruct (256 <? num); [wp_step; by apply filled_start|].
  do 2 (eapply (wp_rsafe (J sid_entry [] m l) any_code); [apply rsafe_lsa_skip32|exact Hi|intros; by apply filled_start|clear r Hi; intros _ r Hi]).
  eapply (wp_rsafe (J sid_entry [] m l) any_code); [|exact Hi|intros; by apply filled_start|clear r Hi; intros _ r Hi].
  { apply rsafe_for_each. intros. apply rsafe_lsa_skip32. }
  wp_step. wp_by (by eapply (read_sids_wp _ _ l)); [|done]. intros _ r' Hi'. wp_by (by apply filled_callback); done.
Qed.
Lemma names3_invoke_wp l r :
  J name_entry_ok [] (Z.of_nat (length l)) l r →
  wp (lsarpc_lookup_names3_invoke g_convert gen_subauth) r
    (λ _, filled l (Some NamesProcessed) name_entry_ok) (λ _, filled l cb name_entry_ok).
Proof.
  intros Hi. unfold lsarpc_lookup_names3_invoke. set (m := Z.of_nat (length l)) in *.
  eapply (wp_rsafe (J name_entry_ok [] m l) any_code); [apply rsafe_lr_handle|exact Hi|intros; by apply filled_start|clear r Hi; intros _ r Hi].
  eapply (wp_rsafe (J name_entry_ok [] m l) any_code); [apply (rsafe_lsa_int 4 _)|exact Hi|intros; by apply filled_start|clear r Hi; intros num r Hi].
  do 2 wp_step. destruct (INT_MAX <? num); [wp_step; by apply filled_start|]. destruct (_ <? num); [wp_step; by apply filled_start|].
  eapply (wp_rsafe (J name_entry_ok [] m l) any_code); [apply rsafe_lsa_skip32|exact Hi|intros; by apply filled_start|clear r Hi; intros _ r Hi].
  wp_step. wp_by (by eapply (read_names_wp _ l)); [|done]. intros _ r' Hi'. wp_by (by apply filled_callback); done.
Qed.
(** The kind of the objects that the lookups of a pipe leave *)
Definition suits (K : names_info → Prop) (n : Z) : Prop :=
  (n = LSARPC_OPNUM_LOOKUP_SID2 → K = sid_entry) ∧ (n = LSARPC_OPNUM_LOOKUP_NAMES3 → K = name_entry_ok).
Definition lookup_op (n : Z) : Prop := n = LSARPC_OPNUM_LOOKUP_SID2 ∨ n = LSARPC_OPNUM_LOOKUP_NAMES3.
#[export] Instance lookup_op_decision n : Decision (lookup_op n).
Proof. unfold lookup_op. apply _. Defined.
(** A lookup that succeeds has stored the callback, other requests keep it. *)
Definition invoked (l : list Z) (K : names_info → Prop) (n code : Z) (r : rpc) : Prop :=
  filled l cb K r ∧ (lookup_op n → code ≠ KSMBD_RPC_OK) ∨
  filled l (Some NamesProcessed) K r ∧ lookup_op n ∧ code = KSMBD_RPC_OK.
Lemma lookup_invoke_wp l K n (m : prog rpc unit) r :
  lookup_op n → wp m r (λ _, filled l (Some NamesProcessed) K) (λ _, filled l cb K) →
  wp (code_of (m else_return KSMBD_RPC_EINVALID_PARAMETER)) r (invoked l K n) (λ _ _, False).
Proof.
  intros Hn Hm. unfold code_of. do 3 wp_step. wp_by (exact Hm); intros ? r' Hr'; wp_step; [by right|by left].
Qed.
Lemma other_invoke_wp l K n (m : prog rpc unit) r :
  ¬ lookup_op n → rsafe (J K [] (Z.of_nat (length l)) l) any_code m → J K [] (Z.of_nat (length l)) l r →
  wp (code_of (m else_return KSMBD_RPC_EINVALID_PARAMETER)) r (invoked l K n) (λ _ _, False).
Proof.
  intros Hn Hm Hi. unfold code_of. do 3 wp_step.
  wp_by (by apply Hm); [intros _ r' ?|intros e r' [? _]]; wp_step; left; (split; [by apply filled_start|done]).
Qed.
Lemma lsarpc_invoke_wp K l r :
  let n := rh_opnum (d_req_hdr (r_dce r)) in
  suits K n → J K [] (Z.of_nat (length l)) l r →
  wp (lsarpc_invoke g_convert gen_subauth gethostname getpwuid) r (invoked l K n) (λ _ _, False).
Proof.
  intros n Hn Hi. unfold lsarpc_invoke. do 2 wp_step. cbv zeta. fold n. clearbody n.
  destruct (Z.eqb_spec n LSARPC_OPNUM_DS_ROLE_GET_PRIMARY_DOMAIN_INFO) as [->|H0'].
  { destruct is_dssetup_call; apply other_invoke_wp; try done; [by intros []| |by intros []|apply rsafe_lr_handle].
    unfold lsarpc_get_primary_domain_info_invoke. apply rsafe_bind; [apply (rsafe_lsa_int 2 _)|intros; apply rsafe_lr_level]. }
  destruct (Z.eqb_spec n LSARPC_OPNUM_OPEN_POLICY2) as [->|]; [wp_step; left; split; [by apply filled_start|by intros []]|].
  destruct (Z.eqb_spec n LSARPC_OPNUM_QUERY_INFO_POLICY) as [->|].
  { apply other_invoke_wp; [by intros []| |done]. unfold lsarpc_query_info_policy_invoke. apply rsafe_bind; [apply rsafe_lr_handle|intros _].
    apply rsafe_bind; [apply (rsafe_lsa_int 2 _)|intros; apply rsafe_lr_level]. }
  destruct (Z.eqb_spec n LSARPC_OPNUM_LOOKUP_SID2) as [E|].
  { rewrite (proj1 Hn E) in *. by apply lookup_invoke_wp, sid2_invoke_wp; [left|]. }
  destruct (Z.eqb_spec n LSARPC_OPNUM_LOOKUP_NAMES3) as [E|].
  { rewrite (proj2 Hn E) in *. by apply lookup_invoke_wp, names3_invoke_wp; [right|]. }
  wp_step. left. split; [by apply filled_start|done].
Qed.
End Requests.

(** ** Replies *)
Definition failing (e : Z) : Prop := e ≠ KSMBD_RPC_OK.
#[export] Hint Extern 1 (failing _) => (unfold failing; vm_compute; congruence) : ksmbd.
Section Replies.
Context `{GLib, System, Allocator}.
Variable g_convert : Z → Z → bytes → option bytes.
Variable g_utf8_strlen : bytes → Z.
Variable gen_subauth : list Z.
Variable domain_name : bytes.
Hypothesis g_convert_small : ∀ t f s out, g_convert t f s = Some out → Z.of_nat (length out) ≤ 2 ^ 62.
Variables uheld sheld : Z → Z.
Hypothesis uheld_pos : ∀ p, 0 ≤ uheld p.
Variable cb : option callback.
Hypothesis cb_names : cb ≠ Some ShareProcessed.
Context {rdy : bool} (K : names_info → Prop).
#[local] Abbreviation G l := (ginv (lsa_at uheld sheld cb K [] (Z.of_nat (length l)) l) false rdy any_header lsa_typed).
(** Some entries of the kind [K] *)
Definition left_over (r : rpc) : Prop := ∃ l, G l r.

Section Statements.
Context {Own : rpc → Prop} `{!Untouched Own}.
#[local] Abbreviation I := (ginv Own false rdy any_header lsa_typed).
Lemma rsafe_lsa_w {T : Type} (m : prog dcerpc T) : safe (appends_in reply_limit) m → rsafe I any_code (ndr m).
Proof. apply ginv_write. Qed.
Lemma rsafe_write_ref_lsa : rsafe I any_code write_ref.
Proof. unfold write_ref. apply rsafe_bind; [apply ginv_next_pointer|intros n]. apply ginv_write. safes. Qed.
Lemma rsafe_string_lsa v : rsafe I any_code (ndr (ndr_write_string g_convert v)).
Proof. by apply ginv_write, ndr_write_string_in. Qed.
Lemma rsafe_lsa_string v : rsafe I any_code (ndr (ndr_write_lsa_string g_convert v)).
Proof. by apply ginv_write, ndr_write_lsa_string_in. Qed.
Lemma rsafe_vstring_lsa v : rsafe I any_code (vstring g_convert g_utf8_strlen v).
Proof. by apply ginv_write, ndr_write_vstring_in. Qed.
Lemma rsafe_sid_lsa sid : rsafe I any_code (ndr (smb_write_sid sid)).
Proof. apply ginv_write, smb_write_sid_in. Qed.
End Statements.
#[local] Hint Extern 3 (rsafe _ any_code (ndr _)) => apply rsafe_lsa_w; safes : ksmbd.
#[local] Hint Extern 1 (rsafe _ _ write_ref) => apply rsafe_write_ref_lsa : ksmbd.
#[local] Hint Extern 1 (rsafe _ _ (ndr (ndr_write_string _ _))) => apply rsafe_string_lsa : ksmbd.
#[local] Hint Extern 1 (rsafe _ _ (ndr (ndr_write_lsa_string _ _))) => apply rsafe_lsa_string : ksmbd.
#[local] Hint Extern 1 (rsafe _ _ (ndr (smb_write_sid _))) => apply rsafe_sid_lsa : ksmbd.
#[local] Hint Extern 1 (rsafe _ _ (vstring _ _ _)) => apply rsafe_vstring_lsa : ksmbd.
Ltac lsa_writes :=
  unfold or_bad, write_zero_handle, lsa_domain_account_rep, lsa_domain_account_data, repeat_w, w8, w16, w32, w64; rsafes.

Lemma lr_handle_wp l r : G l r → wp lr_handle r (λ _ r', r' = r) (λ _ _, False).
Proof.
  intros [Hi _]. unfold lr_handle, handle_in. do 2 wp_step. cbv zeta. destruct (dv_req _ _ _ _ _ Hi) as (H0' & H8 & H16).
  by destruct (q_0 _), (q_8 _), (q_16 _).
Qed.
Lemma rsafe_level l E : rsafe (G l) E lr_level.
Proof. unfold lr_level. apply ginv_get_bits. by intros q (_ & _ & ?). Qed.
Lemma policies_wp f l r : G l r → wp (upd_policies f) r (λ _, G l) (λ _ _, False).
Proof.
  intros Hi. unfold upd_policies, service_op. apply wp_zoom. wp_step. eapply ginv_own; [exact Hi|done|].
  destruct Hi as [_ []]. by split.
Qed.
Lemma with_policy_wp (Q : unit → rpc → Prop) (F : Z → rpc → Prop) k l r :
  G l r → (∀ h, wp (k h) r Q F) → F KSMBD_RPC_EBAD_FID r → wp (with_policy k) r Q F.
Proof.
  intros Hi Hk HF. unfold with_policy. wp_step. wp_by (by eapply lr_handle_wp); [|done]. intros h _ ->.
  unfold lsarpc_ph_lookup, service_op. do 2 wp_step. apply wp_zoom. do 2 wp_step.
  assert (mk_rpc (r_shares r) (r_services r) (r_pipe r) = r) as -> by by destruct r.
  destruct (sx_policies (r_services r) !! h); [apply Hk|by wp_step].
Qed.
(** *** Objects *)
Lemma entry_live l p ni u r :
  G l r → p ∈ l → sx_names (r_services r) !! p = Some ni → ni_user ni = Some u →
  0 < uheld u + count u [] + count u (names_users (sx_names (r_services r)) l).
Proof.
  intros _ Hp Hn Hu. change (count u []) with 0. specialize (uheld_pos u).
  assert (u ∈ names_users (sx_names (r_services r)) l) as Hin.
  { unfold names_users. apply list_elem_of_In, in_concat. exists [u]. split; [|by left].
    apply list_elem_of_In, list_elem_of_fmap. exists p. split; [|done]. unfold entry_users. by rewrite Hn, Hu. }
  pose proof (count_pos u _ Hin). lia.
Qed.
Lemma load_entry_user l p ni u r :
  G l r → p ∈ l → sx_names (r_services r) !! p = Some ni → ni_user ni = Some u →
  wp (user_op (uload u)) r (λ _ r', r' = r) (λ _ _, False).
Proof.
  intros Hi Hp Hn Hu. wp_by (eapply load_user_wp; [apply (la_users _ _ _ _ _ _ _ _ (proj2 Hi))|by eapply entry_live]); [|done].
  by intros ? ? [-> _].
Qed.
Lemma user_name_wp l p ni r :
  G l r → p ∈ l → sx_names (r_services r) !! p = Some ni → wp (ni_user_name ni) r (λ _ r', r' = r) (λ _ _, False).
Proof.
  intros Hi Hp Hn. unfold ni_user_name. destruct (ni_user ni) as [u|] eqn:Hu; [|by wp_step].
  wp_step. wp_by (by eapply load_entry_user); [|done]. intros usr _ ->. by wp_step.
Qed.
(** A state in which [p] is the entry [ni] *)
Definition entry_at (l : list Z) (p : Z) (ni : names_info) (r : rpc) : Prop :=
  lsa_at uheld sheld cb K [] (Z.of_nat (length l)) l r ∧ sx_names (r_services r) !! p = Some ni.
#[local] Instance entry_untouched l p ni : Untouched (entry_at l p ni).
Proof. intros r r' Hs [Ha Hb]. split; [exact (untouched _ _ Hs Ha)|]. by rewrite (so_services _ _ Hs). Qed.
Lemma rsafe_entry_name l p ni E :
  p ∈ l → rsafe (ginv (entry_at l p ni) false rdy any_header lsa_typed) E (ni_user_name ni).
Proof.
  intros Hp r (Hd & Ha & Hn). wp_by (eapply user_name_wp; [split; [exact Hd|exact Ha]|done|done]); [|done]. by intros ? ? ->.
Qed.
(** A loop over the objects *)
Lemma rsafe_each l f :
  (∀ i p ni r, G l r → p ∈ l → sx_names (r_services r) !! p = Some ni → K ni →
     wp (f i p ni) r (λ _, G l) (λ e r', G l r' ∧ failing e)) →
  rsafe (G l) failing (each_name f).
Proof.
  intros Hf. unfold each_name. apply rsafe_get_bind. intros r0 Hi0. rewrite (la_num _ _ _ _ _ _ _ _ (proj2 Hi0)), Nat2Z.id.
  clear r0 Hi0. apply rsafe_for_each. intros i Hin%elem_of_seq r Hi. do 2 wp_step. rewrite (la_list _ _ _ _ _ _ _ _ (proj2 Hi)).
  destruct (l !! i) as [p|] eqn:Hp; [|apply lookup_ge_None in Hp; lia]. apply list_elem_of_lookup_2 in Hp.
  destruct (la_names _ _ _ _ _ _ _ _ (proj2 Hi) p Hp) as (ni & Hn & HK). wp_step. unfold service_op. apply wp_zoom.
  eapply wp_load; [exact Hn|]. assert (mk_rpc (r_shares r) (r_services r) (r_pipe r) = r) as -> by by destruct r. by apply Hf.
Qed.
(** A member that was stored *)
Lemma stored_wp {T : Type} (o : option T) r (Q : T → rpc → Prop) F : is_Some o → (∀ v, o = Some v → Q v r) → wp (stored o) r Q F.
Proof. intros [v ->] HQ. by apply HQ. Qed.
(** Every object is given back. *)
Lemma entries_back_wp l num r :
  ginv (lsa_at uheld sheld cb K [] num l) false rdy any_header lsa_typed r →
  wp (entries_processed (Z.of_nat (length l)) NamesProcessed) r
    (λ _, ginv (lsa_at uheld sheld cb K [] num []) false rdy any_header lsa_typed) (λ _ _, False).
Proof.
  unfold entries_processed. rewrite Nat2Z.id. revert r. induction l as [|p l IH]; intros r Hi; cbn [length replicate for_each]; [by wp_step|].
  wp_step. wp_by (eapply entry_processed_wp; [done|apply Hi]); [|done]. intros _ r' (Ha & Ed & Ec & _). apply IH.
  split; [|done]. destruct Hi as [[] _]. split; rewrite ?Ed, ?Ec; done.
Qed.
(** No object is left when the callback is stored. *)
Definition given_back (r : rpc) : Prop := ∃ l, G l r ∧ (cb = Some NamesProcessed → l = []).
Lemma given_back_left r : given_back r → left_over r.
Proof. intros (l & Hi & _). by exists l. Qed.
Lemma names_processed_wp l r : G l r → wp names_processed r (λ _, given_back) (λ _ _, False).
Proof.
  intros Hi. unfold names_processed. do 2 wp_step. pose proof (la_callback _ _ _ _ _ _ _ _ (proj2 Hi)) as Hc.
  destruct (p_processed (r_pipe r)) as [[]|]; [by subst| |].
  - rewrite (la_num _ _ _ _ _ _ _ _ (proj2 Hi)). wp_step. wp_by (by apply entries_back_wp); [|done].
    intros _ r' [Hd Ha]. unfold upd_pipe. wp_step. exists []. split; [|done]. split; [by destruct Hd|by destruct Ha].
  - wp_step. exists l. split; [done|]. by subst.
Qed.
(** A reset of the pipe does so too. *)
Lemma names_reset_wp l r : G l r → cb = Some NamesProcessed → wp rpc_pipe_reset r (λ _, lsa_at uheld sheld cb K [] 0 []) (λ _ _, False).
Proof.
  intros Hi Hcb. unfold rpc_pipe_reset, all_processed. wp_step. wp_step. wp_step. wp_step. wp_step. rewrite (la_callback _ _ _ _ _ _ _ _ (proj2 Hi)), Hcb.
  rewrite (la_num _ _ _ _ _ _ _ _ (proj2 Hi)). wp_by (by apply entries_back_wp); [|done].
  intros _ r' [_ []]. unfold upd_pipe. cbv beta. wp_step. split; cbn; first [done|congruence].
Qed.
(** An object is replaced by one of the same user. *)
Lemma store_name_wp l p ni ni' r :
  G l r → p ∈ l → sx_names (r_services r) !! p = Some ni → K ni' → ni_user ni' = ni_user ni →
  wp (service_op (store sx_names set_sx_names p ni')) r (λ _, G l) (λ _ _, False).
Proof.
  intros Hi Hp Hni HK Hus. pose proof Hi as [_ [Hn Hl Hnd Hns Hf Hu Hc]]. unfold service_op. apply wp_zoom. eapply wp_store; [exact Hni|].
  eapply ginv_own; [exact Hi|done|]. split; cbn; try done.
  - intros q Hq. destruct (decide (q = p)) as [->|]; [exists ni'; by rewrite lookup_insert_eq|].
    rewrite lookup_insert_ne by done. by apply Hns.
  - intros q. destruct (decide (q = p)) as [->|]; [intros _; apply Hf; by eexists|]. rewrite lookup_insert_ne by done. apply Hf.
  - rewrite (names_users_ext (sx_names (r_services r))); [exact Hu|]. intros q _. unfold entry_users.
    destruct (decide (q = p)) as [->|]; [by rewrite lookup_insert_eq, Hni, Hus|by rewrite lookup_insert_ne].
Qed.
(** *** Operations *)
Definition replies (m : prog rpc unit) (r : rpc) : Prop := wp m r (λ _, left_over) (λ e r', left_over r' ∧ failing e).
Lemma replies_rsafe l m r : rsafe (G l) failing m → G l r → replies m r.
Proof. intros Hm Hi. unfold replies. wp_by (by apply Hm); [by exists l|]. intros e r' []. split; [by exists l|done]. Qed.
Lemma primary_domain_return_wp l r : G l r → replies (lsarpc_get_primary_domain_info_return g_convert g_utf8_strlen domain_name) r.
Proof.
  apply replies_rsafe. unfold lsarpc_get_primary_domain_info_return. apply rsafe_bind; [apply rsafe_level|intros level].
  destruct (negb _); [apply rsafe_fail; auto with ksmbd|]. lsa_writes.
Qed.
Lemma open_policy2_return_wp l r : G l r → replies lsarpc_open_policy2_return r.
Proof.
  intros Hi. unfold lsarpc_open_policy2_return, lsarpc_ph_alloc, replies. do 2 wp_step. destruct (g_try_malloc _); cbn [negb].
  2:{ do 2 wp_step. split; [by exists l|done]. }
  cbv zeta. unfold lsarpc_ph_lookup, service_op. do 3 wp_step. apply wp_zoom. do 2 wp_step.
  assert (mk_rpc (r_shares r) (r_services r) (r_pipe r) = r) as -> by by destruct r.
  do 1 wp_step. wp_by (by apply policies_wp); [|done]. intros _ r1 H1'. destruct (_ !! _).
  - wp_step. wp_by (by apply policies_wp); [|done]. intros _ r2 H2'. wp_step. wp_step. split; [by exists l|done].
  - wp_step. revert H1'. apply replies_rsafe. unfold or_bad. apply rsafe_or_return; [|auto with ksmbd]. apply ginv_write.
    apply ndr_write_bytes_in; [done..|]. rewrite length_handle_of. lia.
Qed.
Lemma query_info_policy_return_wp l r : G l r → replies (lsarpc_query_info_policy_return g_convert gen_subauth domain_name) r.
Proof.
  intros Hi. eapply with_policy_wp; [exact Hi| |split; [by exists l|done]]. intros _. revert Hi. apply replies_rsafe.
  apply rsafe_bind; [apply rsafe_level|intros level]. destruct (negb _); [apply rsafe_fail; auto with ksmbd|]. lsa_writes.
Qed.
Lemma policy_close_wp l r : G l r → replies lsarpc_close_return r.
Proof.
  intros Hi. eapply with_policy_wp; [exact Hi| |split; [by exists l|done]]. intros h. unfold lsarpc_ph_free. wp_step.
  wp_by (by apply policies_wp); [|done]. intros _ r' Hi'. revert Hi'. apply replies_rsafe. lsa_writes.
Qed.
(** A lookup: parts that keep the objects, and then they are given back. *)
Definition gives_back (m : prog rpc unit) (r : rpc) : Prop := wp m r (λ _, given_back) (λ e r', left_over r' ∧ failing e).
Lemma gives_back_then {T : Type} l (m : prog rpc T) k r :
  rsafe (G l) failing m → G l r → (∀ v r', G l r' → gives_back (k v) r') → gives_back (bind m k) r.
Proof. intros Hm Hi Hk. eapply (wp_rsafe (G l) failing); [done|done| |done]. intros e r' ??. split; [by exists l|done]. Qed.
Lemma entry_wp l p ni (m : prog rpc unit) r :
  rsafe (ginv (entry_at l p ni) false rdy any_header lsa_typed) failing m → G l r → sx_names (r_services r) !! p = Some ni →
  wp m r (λ _, G l) (λ e r', G l r' ∧ failing e).
Proof.
  intros Hm Hi Hn. wp_by (apply Hm; destruct Hi; split; [done|by split]); [by intros _ r' [? []]|by intros e r' [[? []] ?]].
Qed.
Lemma rsafe_name_entry l p ni :
  p ∈ l → sid_entry ni → rsafe (ginv (entry_at l p ni) false rdy any_header lsa_typed) failing (or_bad (name_entry ni)).
Proof.
  intros Hp ([index Hindex] & [type Htype] & _). unfold or_bad, name_entry. apply rsafe_or_return; [|auto with ksmbd].
  rewrite Hindex, Htype. cbn [stored]. apply rsafe_bind; [apply rsafe_ret|intros type'].
  do 2 (apply rsafe_bind; [lsa_writes|intros _]). apply rsafe_bind; [by apply rsafe_entry_name|intros name]. lsa_writes.
Qed.
Lemma sid2_return_wp l r :
  (∀ ni, K ni → sid_entry ni) → G l r → gives_back (lsarpc_lookup_sid2_return g_convert) r.
Proof.
  intros HK Hi. eapply with_policy_wp; [exact Hi| |split; [by exists l|done]]. intros _.
  apply (gives_back_then l get); [by intros ? ?|done|]. clear r Hi. intros r0 r Hi. cbv zeta.
  apply (gives_back_then l); [lsa_writes|done|]. clear r Hi. intros _ r Hi.
  apply (gives_back_then l); [|done|clear r Hi; intros _ r Hi].
  { apply rsafe_each. intros _ p ni r' Hi' Hp Hn (_ & [t ->] & [d ->] & _)%HK. cbn [stored]. apply (entry_wp _ p ni); [lsa_writes|done|done]. }
  apply (gives_back_then l); [|done|clear r Hi; intros _ r Hi].
  { apply rsafe_each. intros _ p ni r' Hi' Hp Hn (_ & _ & [d ->] & [sid ->])%HK. cbn [stored]. apply (entry_wp _ p ni); [lsa_writes|done|done]. }
  apply (gives_back_then l); [lsa_writes|done|]. clear r Hi. intros _ r Hi.
  apply (gives_back_then l); [|done|clear r Hi; intros _ r Hi].
  { apply rsafe_each. intros _ p ni r' Hi' Hp Hn Hk. apply (entry_wp _ p ni); [apply rsafe_name_entry; auto|done|done]. }
  apply (gives_back_then l); [|done|clear r Hi; intros _ r Hi].
  { apply rsafe_each. intros _ p ni r' Hi' Hp Hn Hk. apply (entry_wp _ p ni); [|done|done].
    apply rsafe_bind; [by apply rsafe_entry_name|intros name]. lsa_writes. }
  apply (gives_back_then l); [lsa_writes|done|]. clear r Hi. intros _ r Hi.
  unfold gives_back. wp_step. wp_by (by eapply names_processed_wp); [|done]. intros _ r' Hr'.
  destruct (Z.eqb_spec (if some_not_mapped r0 then KSMBD_RPC_SOME_NOT_MAPPED else KSMBD_RPC_OK) KSMBD_RPC_OK); wp_step; [done|].
  split; [by apply given_back_left|done].
Qed.
Lemma rsafe_write_sid l sid : rsafe (G l) failing (or_bad (w32 (sid_num_subauth sid) ;; ndr (smb_write_sid sid))).
Proof. lsa_writes. Qed.
Lemma account_sid_wp l p ni r :
  (∀ ni sid, K ni → K (mk_names (ni_index ni) (ni_type ni) (ni_domain_str ni) (Some sid) (ni_user ni))) →
  G l r → p ∈ l → sx_names (r_services r) !! p = Some ni → K ni → name_entry_ok ni →
  wp (write_account_sid p ni) r (λ _, G l) (λ e r', G l r' ∧ failing e).
Proof.
  intros HK Hi Hp Hn Hk [[sid Hs] [u Hu]]. unfold write_account_sid. rewrite Hs. cbn [stored]. do 2 wp_step.
  destruct (_ <=? _); [by wp_step|]. rewrite Hu. cbn [stored]. do 2 wp_step.
  wp_step. wp_by (by eapply load_entry_user); [|done]. intros usr _ ->. cbv zeta. wp_step.
  wp_by (eapply store_name_wp; [exact Hi|done|exact Hn|rewrite <-Hu; by apply HK|by rewrite Hu]); [|done].
  intros _ r' Hi'. by apply rsafe_write_sid.
Qed.
Lemma names3_return_wp l r :
  (∀ ni, K ni → name_entry_ok ni) →
  (∀ ni sid, K ni → K (mk_names (ni_index ni) (ni_type ni) (ni_domain_str ni) (Some sid) (ni_user ni))) →
  G l r → gives_back (lsarpc_lookup_names3_return g_convert gen_subauth domain_name) r.
Proof.
  intros HK HK' Hi. eapply with_policy_wp; [exact Hi| |split; [by exists l|done]]. intros _.
  apply (gives_back_then l get); [by intros ? ?|done|]. clear r Hi. intros r0 r Hi. cbv zeta.
  apply (gives_back_then l); [lsa_writes|done|]. clear r Hi. intros _ r Hi.
  apply (gives_back_then l); [|done|clear r Hi; intros _ r Hi].
  { apply rsafe_each. intros _ p ni r' Hi' Hp Hn Hk. apply account_sid_wp; auto. }
  apply (gives_back_then l); [lsa_writes|done|]. clear r Hi. intros _ r Hi.
  unfold gives_back. wp_by (by eapply names_processed_wp); done.
Qed.
(** *** The reply *)
Definition answered (n code : Z) (r : rpc) : Prop := left_over r ∧ (code = KSMBD_RPC_OK → lookup_op n → given_back r).
Lemma replied n m r :
  (lookup_op n → gives_back m r) → (~ lookup_op n → replies m r) → lookup_op n ∨ ~ lookup_op n →
  wp (code_of m) r (λ code, answered n code) (λ _ _, False).
Proof.
  intros Hg Hr Hn. unfold code_of, answered. do 2 wp_step.
  destruct Hn as [Hn|Hn]; [wp_by (exact (Hg Hn))|wp_by (exact (Hr Hn))]; [intros ? r' ?|intros e r' []| |intros e r' []]; try wp_step.
  - split; [by apply given_back_left|done].
  - split; [done|]. intros ->. done.
  - intros ? r' ?. wp_step. done.
  - split; [done|]. intros ->. done.
Qed.
Lemma answer_keeps (Own : rpc → Prop) `{!Untouched Own} status r :
  ginv Own false rdy any_header lsa_typed r →
  wp (answer status) r (λ code r', ginv Own false rdy any_header lsa_typed r' ∧ (code = KSMBD_RPC_OK → status = KSMBD_RPC_OK)) (λ _ _, False).
Proof.
  intros Hi. unfold answer. eapply (wp_rsafe (ginv Own false rdy any_header lsa_typed) (λ _, False)); [|exact Hi|done|].
  { apply rsafe_code_of, ginv_write_status. }
  intros code r' Hi'. wp_step. split; [done|]. by destruct (Z.eqb_spec code KSMBD_RPC_OK).
Qed.
Lemma answer_wp n status r :
  answered n status r → lookup_op n ∨ ~ lookup_op n → wp (answer status) r (λ code, answered n code) (λ _ _, False).
Proof.
  intros [[l Hi] Hg] Hn. unfold answered. destruct (decide (status = KSMBD_RPC_OK)) as [E|E]; [destruct Hn as [Hn|Hn]|].
  - destruct (Hg E Hn) as (l' & Hi' & Hb'). wp_by (exact (answer_keeps _ status r Hi')); [|done]. intros code r' [Hr' _].
    assert (given_back r') as Hb by by exists l'. split; [by apply given_back_left|done].
  - wp_by (exact (answer_keeps _ status r Hi)); [|done]. intros code r' [Hr' _]. split; [by exists l|done].
  - wp_by (exact (answer_keeps _ status r Hi)); [|done]. intros code r' [Hr' Hc]. split; [by exists l|]. intros ?%Hc. done.
Qed.
End Replies.

(** What was written by one reply, and the state that the entries are left in *)
Section Reply.
Context `{GLib, System, Allocator}.
Variable g_convert : Z → Z → bytes → option bytes.
Variable g_utf8_strlen : bytes → Z.
Variable gen_subauth : list Z.
Variable domain_name : bytes.
Hypothesis g_convert_small : ∀ t f s out, g_convert t f s = Some out → Z.of_nat (length out) ≤ 2 ^ 62.
Variables uheld sheld : Z → Z.
Hypothesis uheld_pos : ∀ p, 0 ≤ uheld p.
Variable cb : option callback.
Hypothesis cb_names : cb ≠ Some ShareProcessed.
Context {rdy : bool} (K : names_info → Prop).
Lemma lookup_op_dec n : lookup_op n ∨ ~ lookup_op n.
Proof. unfold lookup_op. destruct (decide (n = LSARPC_OPNUM_LOOKUP_SID2)), (decide (n = LSARPC_OPNUM_LOOKUP_NAMES3)); tauto. Qed.
#[local] Abbreviation G l := (ginv (lsa_at uheld sheld cb K [] (Z.of_nat (length l)) l) false rdy any_header lsa_typed).
Lemma lsarpc_return_by_wp l d r :
  let n := rh_opnum (d_req_hdr d) in
  suits K n → G l r →
  wp (code_of (lsarpc_return_by g_convert g_utf8_strlen gen_subauth domain_name d)) r
    (λ code, answered uheld sheld cb (rdy:=rdy) K n code) (λ _ _, False).
Proof.
  intros n [Hs Hn'] Hi. apply replied; [| |apply lookup_op_dec]; unfold lsarpc_return_by, lookup_op; fold n; clearbody n.
  - intros [-> | ->]; cbn [Z.eqb Pos.eqb].
    + eapply sid2_return_wp; try done. by rewrite (Hs eq_refl).
    + eapply names3_return_wp; try done; rewrite (Hn' eq_refl); [done|]. intros ni sid []. split; [by eexists|done].
  - intros Hn. destruct (n =? _).
    { destruct is_dssetup_call; [by eapply primary_domain_return_wp|by eapply policy_close_wp]. }
    destruct (n =? _); [by eapply open_policy2_return_wp|]. destruct (n =? _); [by eapply query_info_policy_return_wp|].
    destruct (Z.eqb_spec n LSARPC_OPNUM_LOOKUP_SID2); [tauto|]. destruct (Z.eqb_spec n LSARPC_OPNUM_LOOKUP_NAMES3); [tauto|].
    unfold replies. wp_step. split; [by exists l|done].
Qed.
Lemma lsarpc_return_wp l r :
  let n := rh_opnum (d_req_hdr (r_dce r)) in
  suits K n → G l r →
  wp (lsarpc_return g_convert g_utf8_strlen gen_subauth domain_name) r
    (λ code, answered uheld sheld cb (rdy:=rdy) K n code) (λ _ _, False).
Proof.
  intros n Hs Hi. unfold lsarpc_return, reserve_headers, set_cursor, upd_dce, upd_pipe. do 2 wp_step. set (r1 := mk_rpc _ _ _).
  assert (G l r1) as H1' by exact (ginv_set_cursor (reading:=false) (rdy:=rdy) (Hd:=any_header)
    (U:=lsa_typed) (E:=any_code) (dcerpc_header_sz + dcerpc_response_header_sz) ltac:(done) r Hi).
  do 3 wp_step. wp_by (exact (lsarpc_return_by_wp l (r_dce r1) r1 Hs H1')); [|done]. intros status r2 H2'. apply answer_wp; [done|apply lookup_op_dec].
Qed.
End Reply.

(** ** Correctness *)

(** C23 (invariant): the objects of lookups are accounted for, over the
    requests, replies and resets of a pipe on which all lookups are of one
    kind (identifiers or names; the objects that a refused lookup leaves are
    taken for its own by one of the other kind, which follows members that
    were never stored).  The objects are alive and distinct, complete for
    the kind, and hold their users: every count is the number of references.
    A request, whatever its octets are, keeps the objects and adds such ones;
    a lookup that succeeds also leaves the callback stored.  A reply accesses
    nothing outside of them and of its buffer and leaves only such objects;
    when a lookup is answered successfully and the callback is stored, none
    is left and every reference they had was put.  A reset of the pipe with
    the callback stored does so too. *)
Theorem lookups_accounted `{GLib, System, Allocator} (g_convert : Z → Z → bytes → option bytes) (g_utf8_strlen : bytes → Z)
    (gen_subauth : list Z) (gethostname : option bytes) (domain_name : bytes) (getpwuid : Z → option bytes)
    (uheld sheld : Z → Z) (rdy : bool) (K : names_info → Prop) (cb : option callback) (l : list Z) (r : rpc) :
  (∀ t f s out, g_convert t f s = Some out → Z.of_nat (length out) ≤ 2 ^ 62) → (∀ p, 0 ≤ uheld p) →
  cb ≠ Some ShareProcessed →
  let n := rh_opnum (d_req_hdr (r_dce r)) in
  suits K n →
  let own reading c k := ginv (lsa_at uheld sheld c K [] (Z.of_nat (length k)) k) reading rdy any_header lsa_typed in
  (own true cb l r →
     wp (lsarpc_invoke g_convert gen_subauth gethostname getpwuid) r
       (λ code r', ∃ k, if bool_decide (lookup_op n ∧ code = KSMBD_RPC_OK)
                        then own true (Some NamesProcessed) (l ++ k) r' else own true cb (l ++ k) r') (λ _ _, False)) ∧
  (own false cb l r →
     wp (lsarpc_return g_convert g_utf8_strlen gen_subauth domain_name) r
       (λ code r', ∃ k, own false cb k r' ∧ (lookup_op n → code = KSMBD_RPC_OK → cb = Some NamesProcessed → k = [])) (λ _ _, False)) ∧
  (own false cb l r → cb = Some NamesProcessed →
     wp rpc_pipe_reset r (λ _, lsa_at uheld sheld cb K [] 0 []) (λ _ _, False)).
Proof.
  intros Hg Hu Hcb n Hs own. split_and!.
  - intros Hi. wp_by (exact (lsarpc_invoke_wp g_convert gen_subauth gethostname getpwuid uheld sheld cb K l r Hs Hi)); [|done].
    fold n. intros code r' [[[k Hk] Hc]|[[k Hk] Hc]]; exists k; [rewrite bool_decide_false by tauto|rewrite bool_decide_true by tauto]; done.
  - intros Hi. wp_by (exact (lsarpc_return_wp g_convert g_utf8_strlen gen_subauth domain_name Hg uheld sheld Hu cb Hcb K l r Hs Hi)); [|done].
    fold n. intros code r' [[k Hk] Hb]. destruct (decide (lookup_op n ∧ code = KSMBD_RPC_OK)) as [[Hn Hc]|Hn].
    + destruct (Hb Hc Hn) as (k' & Hk' & Hb'). by exists k'.
    + exists k. split; [exact Hk|]. tauto.
  - intros Hi Hc. by eapply names_reset_wp.
Qed.

Definition toy_lookup : rpc :=
  mk_rpc (toy_shares None)
    (mk_services {[ 0 := mk_names (Some (u32 (-1))) (Some 4) (Some (str "BUILTIN")) (Some zero_sid) None ]} 1
       {[ handle_of 7 := mk_policy None ]} ∅)
    (set_processed (Some NamesProcessed) (set_entries 1 [0]
      (set_dce (set_req (store_handle (handle_of 7) with_0 with_8 q_16 with_16 zero_request)
         (set_req_hdr (mk_req_hdr 0 0 LSARPC_OPNUM_LOOKUP_SID2) (set_rpc_req (Message KSMBD_RPC_LSARPC_METHOD_INVOKE)
           (dcerpc_ext_alloc (replicate 200 0))))) (rpc_pipe_alloc 7 [])))).
Lemma toy_lookup_ok :
  ginv (lsa_at (H:=toy_glib) (λ _, 0) (λ _, 0) (Some NamesProcessed) sid_entry [] (Z.of_nat (length [0])) [0])
    false false any_header lsa_typed toy_lookup.
Proof.
  split; split.
  - apply (bool_decide_unpack _). vm_compute. exact I.
  - split; apply (bool_decide_unpack _); vm_compute; exact I.
  - reflexivity.
  - exact I.
  - apply (bool_decide_unpack _). vm_compute. exact I.
  - split_and!; exact I.
  - by eexists.
  - reflexivity.
  - reflexivity.
  - reflexivity.
  - apply NoDup_singleton.
  - intros p ->%list_elem_of_singleton. eexists. split; [apply lookup_singleton_eq|]. repeat split; by eexists.
  - intros p [ni Hp]. unfold toy_lookup in Hp. cbn [r_services sx_names] in Hp. apply lookup_singleton_Some in Hp as [<- _]. reflexivity.
  - eapply shares_ok_ext; [|intros p; reflexivity|exact (toy_shares_ok None)]. intros p. reflexivity.
  - reflexivity.
Qed.
Lemma lookups_accounted_witness :
  ∃ r', lsarpc_return (H:=toy_glib) (H1:=plenty) ascii_convert ascii_length [1; 2; 3] (str "HOST") toy_lookup = Done KSMBD_RPC_OK r' ∧
    ginv (lsa_at (H:=toy_glib) (λ _, 0) (λ _, 0) (Some NamesProcessed) sid_entry [] 0 []) false false any_header lsa_typed r'.
Proof.
  eassert (∃ r', lsarpc_return (H:=toy_glib) (H1:=plenty) ascii_convert ascii_length [1; 2; 3] (str "HOST") toy_lookup
    = Done KSMBD_RPC_OK r') as (r' & E) by (eexists; vm_compute; reflexivity).
  exists r'. split; [exact E|].
  assert (suits sid_entry (rh_opnum (d_req_hdr (r_dce toy_lookup)))) as Hs.
  { split; [reflexivity|]. intros E'. vm_compute in E'. discriminate. }
  destruct (lookups_accounted (H:=toy_glib) (H0:=total_system) (H1:=plenty) ascii_convert ascii_length [1; 2; 3] None (str "HOST")
    (λ _, None) (λ _, 0) (λ _, 0) false sid_entry (Some NamesProcessed) [0] toy_lookup ascii_convert_small (λ _, Z.le_refl 0)
    ltac:(discriminate) Hs) as (_ & Hreply & _).
  destruct (wp_Done _ _ _ _ _ _ (Hreply toy_lookup_ok) E) as (k & Hk & Hback).
  by rewrite (Hback (or_introl eq_refl) eq_refl eq_refl) in Hk.
Defined.
