(* ===== verification/Services.v ===== *)
(** * The four services behind the pipes ([src/mountd/rpc.c], [rpc_wkssvc.c], [rpc_samr.c], [rpc_lsarpc.c])

    The tables of [rpc.c] that pick the service of a request by its flags,
    filled with the models of the services, and sequences of requests on one
    pipe that make the daemon follow an invalid pointer. *)

From S2P Require Import Prelude ConfText Refcount Users Shares Ndr Smbacl Rpc Srvsvc Wkssvc Handles Samr Lsarpc.

(** [rpc_srvsvc_write_request], ..., [rpc_lsarpc_read_request] *)
Definition all_interfaces `{GLib, System, Allocator} (g_convert : Z → Z → bytes → option bytes) (g_utf8_strlen : bytes → Z)
    (restrict_anon : Z) (work_group : option bytes) (gen_subauth : list Z) (hostname : bytes)
    (getpwuid : Z → option bytes) : Interfaces :=
  with_srvsvc g_convert g_utf8_strlen restrict_anon {|
    rpc_write i := match i with
      | WKSSVC => wkssvc_invoke g_convert restrict_anon
      | SAMR => samr_invoke g_convert
      | LSARPC => lsarpc_invoke g_convert gen_subauth (Some hostname) getpwuid
      | SRVSVC => ret KSMBD_RPC_ENOTIMPLEMENTED
      end;
    rpc_read i max_resp_sz := match i with
      | WKSSVC => wkssvc_return g_convert g_utf8_strlen restrict_anon work_group max_resp_sz
      | SAMR => samr_return g_convert restrict_anon gen_subauth (Some hostname) (samr_domains hostname)
      | LSARPC => lsarpc_return g_convert g_utf8_strlen gen_subauth (g_ascii_strup (host_name hostname))
      | SRVSVC => ret KSMBD_RPC_ENOTIMPLEMENTED
      end |}.

(** The environment of the examples, with every service. *)
Definition toy_all : Interfaces :=
  all_interfaces (H:=toy_glib) (H0:=total_system) (H1:=plenty) ascii_convert ascii_length 0 (Some (str "WORKGROUP"))
    [1; 2; 3] (str "host") (λ _, None).
Definition toy_serve (l : list (method * command)) : outcome server unit :=
  for_each l (λ c, serve (H:=toy_glib) (H1:=plenty) (H2:=toy_all) 4080 c ;; ret tt) (toy_server None).
Definition opened (flags : Z) : list (method * command) := [(OPEN, mk_command 7 flags [])].
(** A request, and the reading of its reply *)
Definition ask (flags : Z) (pdu : bytes) : list (method * command) :=
  [(WRITE, mk_command 7 flags pdu); (READ, mk_command 7 flags [])].
(** The size of the last reply of the pipe *)
Definition reply_size (o : outcome server unit) : option Z :=
  match o with
  | Done _ s => match sv_pipes s !! 7 with Some (Some p) => Some (d_resp_payload_sz (p_dce p)) | _ => None end
  | _ => None
  end.
Definition toy_wksta : bytes :=
  toy_request 0 (toy_words [1; 3; 0; 3] ++ [109; 0; 101; 0; 0; 0; 0; 0] ++ toy_words [100]).
Definition toy_bind : bytes := toy_pdu 11 (toy_words [0x10b810b8; 0x1234; 0]).
Definition toy_connect5 : bytes := toy_request SAMR_OPNUM_CONNECT5 (toy_words [0; 0; 1; 1; 2]).
(** A lookup of S-1-5-32-544 *)
Definition toy_sid2 (h : bytes) : bytes :=
  toy_request LSARPC_OPNUM_LOOKUP_SID2 (h ++ toy_words [1; 1; 1; 1; 2] ++ [1; 2; 0; 0; 0; 0; 0; 5] ++ toy_words [32; 544]).

(** ** Invalid pointers *)

(** The same requests, well formed or in the right order, are answered. *)
Example services_answer :
  reply_size (toy_serve (opened KSMBD_RPC_WKSSVC_METHOD_INVOKE ++ ask KSMBD_RPC_WKSSVC_METHOD_INVOKE toy_wksta)) = Some 108 ∧
  reply_size (toy_serve (opened KSMBD_RPC_SAMR_METHOD_INVOKE ++ ask KSMBD_RPC_SAMR_METHOD_INVOKE toy_connect5)) = Some 64 ∧
  reply_size (toy_serve (opened KSMBD_RPC_LSARPC_METHOD_INVOKE ++
    ask KSMBD_RPC_LSARPC_METHOD_INVOKE (toy_request LSARPC_OPNUM_OPEN_POLICY2 []) ++
    ask KSMBD_RPC_LSARPC_METHOD_INVOKE (toy_sid2 (handle_of 7)))) = Some 164.
Proof. vm_compute. split_and!; reflexivity. Qed.

(** Five sequences of requests on one pipe that end with an invalid
    pointer.  After a bind, a request of the workstation service that ends
    before the referent frees the association group as if it were the name.
    Information on a user is asked for before one was found.  A domain is looked
    up by no name.  A bind that ends early follows a list of contexts where the
    handle of the last request is.  And the objects of a lookup of identifiers
    that failed are written as those of a lookup of names. *)
Theorem service_crashes :
  toy_serve (opened KSMBD_RPC_WKSSVC_METHOD_INVOKE ++ ask KSMBD_RPC_WKSSVC_METHOD_INVOKE toy_bind ++
             ask KSMBD_RPC_WKSSVC_METHOD_INVOKE (toy_request 0 [])) = Fault ∧
  toy_serve (opened KSMBD_RPC_SAMR_METHOD_INVOKE ++ ask KSMBD_RPC_SAMR_METHOD_INVOKE toy_connect5 ++
             ask KSMBD_RPC_SAMR_METHOD_INVOKE (toy_request SAMR_OPNUM_QUERY_USER_INFO (handle_of 7))) = Fault ∧
  toy_serve (opened KSMBD_RPC_SAMR_METHOD_INVOKE ++ ask KSMBD_RPC_SAMR_METHOD_INVOKE toy_connect5 ++
             ask KSMBD_RPC_SAMR_METHOD_INVOKE (toy_request SAMR_OPNUM_LOOKUP_DOMAIN (handle_of 7 ++ toy_words [0; 0]))) = Fault ∧
  toy_serve (opened KSMBD_RPC_LSARPC_METHOD_INVOKE ++
             ask KSMBD_RPC_LSARPC_METHOD_INVOKE (toy_request LSARPC_OPNUM_QUERY_INFO_POLICY (replicate 20 65 ++ [5; 0])) ++
             ask KSMBD_RPC_LSARPC_METHOD_INVOKE (toy_pdu 11 [])) = Fault ∧
  toy_serve (opened KSMBD_RPC_LSARPC_METHOD_INVOKE ++
             ask KSMBD_RPC_LSARPC_METHOD_INVOKE (toy_request LSARPC_OPNUM_OPEN_POLICY2 []) ++
             ask KSMBD_RPC_LSARPC_METHOD_INVOKE (toy_sid2 (replicate 20 0)) ++
             ask KSMBD_RPC_LSARPC_METHOD_INVOKE (toy_request LSARPC_OPNUM_LOOKUP_NAMES3 (handle_of 7 ++ toy_words [0; 0]))) = Fault.
Proof. split_and!; vm_compute; reflexivity. Qed.
