(* ===== verification/Ipc.v ===== *)
(** * The channel to the kernel ([src/mountd/ipc.c])

    Messages of the kernel server arrive over generic netlink: libnl checks the
    attribute of a command against the policy and calls the parser that the
    table of commands names, and [handle_generic_event] copies the attribute
    into a message for the worker.  When it starts, the daemon sends the global
    configuration. *)

From S2P Require Import Prelude ConfText Refcount Ndr Users Shares Config.

(** ** Data *)

(** [struct ksmbd_ipc_msg]; [sz] is the length of the payload.  The block has
    one more octet, which is zero ([ipc_msg_alloc]). *)
Record ipc_msg := mk_msg { im_type : Z; im_payload : bytes }.
Definition im_sz (m : ipc_msg) : Z := Z.of_nat (length (im_payload m)).

Definition KSMBD_EVENT_UNSPEC : Z := 0.
Definition KSMBD_EVENT_HEARTBEAT_REQUEST : Z := 1.
Definition KSMBD_EVENT_STARTING_UP : Z := 2.
Definition KSMBD_EVENT_SHUTTING_DOWN : Z := 3.
Definition KSMBD_EVENT_LOGIN_REQUEST : Z := 4.
Definition KSMBD_EVENT_LOGIN_RESPONSE : Z := 5.
Definition KSMBD_EVENT_SHARE_CONFIG_REQUEST : Z := 6.
Definition KSMBD_EVENT_SHARE_CONFIG_RESPONSE : Z := 7.
Definition KSMBD_EVENT_TREE_CONNECT_REQUEST : Z := 8.
Definition KSMBD_EVENT_TREE_CONNECT_RESPONSE : Z := 9.
Definition KSMBD_EVENT_TREE_DISCONNECT_REQUEST : Z := 10.
Definition KSMBD_EVENT_LOGOUT_REQUEST : Z := 11.
Definition KSMBD_EVENT_RPC_REQUEST : Z := 12.
Definition KSMBD_EVENT_RPC_RESPONSE : Z := 13.
Definition KSMBD_EVENT_SPNEGO_AUTHEN_REQUEST : Z := 14.
Definition KSMBD_EVENT_SPNEGO_AUTHEN_RESPONSE : Z := 15.
Definition KSMBD_EVENT_LOGIN_REQUEST_EXT : Z := 16.
Definition KSMBD_EVENT_LOGIN_RESPONSE_EXT : Z := 17.
Definition KSMBD_EVENT_SHARE_CONFIG_FLUSH : Z := 25.

(** The sizes of the structures of [ksmbd_server.h] *)
Definition sizeof_ipc_msg : Z := 8.
Definition sizeof_heartbeat : Z := 4.
Definition sizeof_startup_request : Z := 744.
Definition sizeof_shutdown_request : Z := 64.
Definition sizeof_login_request : Z := 324.
Definition sizeof_login_response : Z := 356.
Definition sizeof_share_config_request : Z := 132.
Definition sizeof_share_config_response : Z := 544.
Definition sizeof_tree_connect_request : Z := 472.
Definition sizeof_tree_connect_response : Z := 72.
Definition sizeof_tree_disconnect_request : Z := 80.
Definition sizeof_logout_request : Z := 324.
Definition sizeof_spnego_authen_request : Z := 8.
Definition sizeof_spnego_authen_response : Z := 364.
Definition sizeof_rpc_command : Z := 16.

(** ** Messages of the kernel *)

(** [c_msg_parser] *)
Inductive parser := handle_generic_event_ | handle_unsupported_event.
Definition ksmbd_genl_cmds : list (Z * parser) := [
  (KSMBD_EVENT_UNSPEC, handle_unsupported_event);
  (KSMBD_EVENT_HEARTBEAT_REQUEST, handle_generic_event_);
  (KSMBD_EVENT_STARTING_UP, handle_unsupported_event);
  (KSMBD_EVENT_SHUTTING_DOWN, handle_unsupported_event);
  (KSMBD_EVENT_LOGIN_REQUEST, handle_generic_event_);
  (KSMBD_EVENT_LOGIN_RESPONSE, handle_unsupported_event);
  (KSMBD_EVENT_SHARE_CONFIG_REQUEST, handle_generic_event_);
  (KSMBD_EVENT_SHARE_CONFIG_RESPONSE, handle_unsupported_event);
  (KSMBD_EVENT_TREE_CONNECT_REQUEST, handle_generic_event_);
  (KSMBD_EVENT_TREE_CONNECT_RESPONSE, handle_unsupported_event);
  (KSMBD_EVENT_TREE_DISCONNECT_REQUEST, handle_generic_event_);
  (KSMBD_EVENT_LOGOUT_REQUEST, handle_generic_event_);
  (KSMBD_EVENT_RPC_REQUEST, handle_generic_event_);
  (KSMBD_EVENT_RPC_RESPONSE, handle_unsupported_event);
  (KSMBD_EVENT_SPNEGO_AUTHEN_REQUEST, handle_generic_event_);
  (KSMBD_EVENT_SPNEGO_AUTHEN_RESPONSE, handle_unsupported_event);
  (KSMBD_EVENT_LOGIN_REQUEST_EXT, handle_generic_event_);
  (KSMBD_EVENT_LOGIN_RESPONSE_EXT, handle_unsupported_event);
  (KSMBD_EVENT_SHARE_CONFIG_FLUSH, handle_unsupported_event)].

(** [.minlen] of an attribute; an entry that is not written is zero. *)
Definition ksmbd_nl_policy : list (Z * Z) := [
  (KSMBD_EVENT_UNSPEC, 0);
  (KSMBD_EVENT_HEARTBEAT_REQUEST, sizeof_heartbeat);
  (KSMBD_EVENT_STARTING_UP, sizeof_startup_request);
  (KSMBD_EVENT_SHUTTING_DOWN, sizeof_shutdown_request);
  (KSMBD_EVENT_LOGIN_REQUEST, sizeof_login_request);
  (KSMBD_EVENT_LOGIN_RESPONSE, sizeof_login_response);
  (KSMBD_EVENT_SHARE_CONFIG_REQUEST, sizeof_share_config_request);
  (KSMBD_EVENT_SHARE_CONFIG_RESPONSE, sizeof_share_config_response);
  (KSMBD_EVENT_TREE_CONNECT_REQUEST, sizeof_tree_connect_request);
  (KSMBD_EVENT_TREE_CONNECT_RESPONSE, sizeof_tree_connect_response);
  (KSMBD_EVENT_TREE_DISCONNECT_REQUEST, sizeof_tree_disconnect_request);
  (KSMBD_EVENT_LOGOUT_REQUEST, sizeof_logout_request);
  (KSMBD_EVENT_RPC_REQUEST, sizeof_rpc_command);
  (KSMBD_EVENT_RPC_RESPONSE, sizeof_rpc_command);
  (KSMBD_EVENT_SPNEGO_AUTHEN_REQUEST, sizeof_spnego_authen_request);
  (KSMBD_EVENT_SPNEGO_AUTHEN_RESPONSE, sizeof_spnego_authen_response);
  (KSMBD_EVENT_LOGIN_REQUEST_EXT, sizeof_login_request);
  (KSMBD_EVENT_LOGIN_RESPONSE_EXT, sizeof_login_response_ext);
  (KSMBD_EVENT_SHARE_CONFIG_FLUSH, 0)].
Fixpoint minlen (policy : list (Z * Z)) (type : Z) : Z :=
  match policy with
  | [] => 0
  | (t, n) :: policy => if t =? type then n else minlen policy type
  end.

(** What libnl's [genl_handle_msg] does with a message, for a table of commands
    and a policy: it refuses it with a code, or calls a parser of the table with
    the identifier of the command and the attributes. *)
Inductive dispatch (P : Type) := Refused (code : Z) | Parsed (c_id : Z) (p : P) (attrs : Z → option bytes).
Arguments Refused {P} code.
Arguments Parsed {P} c_id p attrs.
Class Libnl := {
  nl_msg : Type;
  gnlh_version : nl_msg → Z;
  genl_handle_msg {P : Type} : list (Z * P) → list (Z * Z) → nl_msg → dispatch P;
}.
Definition KSMBD_GENL_VERSION : Z := 1.
Definition NL_SKIP : Z := 1.
Definition NLE_RANGE : Z := 8.

Section Receive.
Context `{Allocator}.

Definition ipc_msg_alloc (sz : Z) : bool :=
  if SIZE_MAX - sizeof_ipc_msg - 1 <? sz then false
  else
    let msg_sz := sz + sizeof_ipc_msg + 1 in
    if KSMBD_IPC_MAX_MESSAGE_SIZE <? msg_sz then false else g_try_malloc msg_sz.

(** The code, and the message that is pushed to the workers. *)
Definition generic_event (type : Z) (payload : bytes) : Z * option ipc_msg :=
  if negb (ipc_msg_alloc (Z.of_nat (length payload))) then (- ENOMEM, None)
  else (0, Some (mk_msg type payload)).
Definition handle_generic_event (c_id : Z) (attrs : Z → option bytes) : Z * option ipc_msg :=
  match attrs c_id with
  | None => (NL_SKIP, None)
  | Some data => generic_event c_id data
  end.
Definition nlink_msg_cb `{Libnl} (msg : nl_msg) : Z * option ipc_msg :=
  if negb (gnlh_version msg =? KSMBD_GENL_VERSION) then (NL_SKIP, None)
  else
    let '(code, pushed) :=
      match genl_handle_msg ksmbd_genl_cmds ksmbd_nl_policy msg with
      | Refused code => (code, None)
      | Parsed c_id handle_generic_event_ attrs => handle_generic_event c_id attrs
      | Parsed _ handle_unsupported_event _ => (NL_SKIP, None)
      end in
    (if code =? - NLE_RANGE then NL_SKIP else code, pushed).
End Receive.

(** A message as the workers get it. *)
Record accepted (m : ipc_msg) : Prop := {
  ac_parsed : (im_type m, handle_generic_event_) ∈ ksmbd_genl_cmds;
  ac_minlen : minlen ksmbd_nl_policy (im_type m) ≤ im_sz m;
  ac_bytes : is_bytes (im_payload m);
  ac_small : im_sz m + sizeof_ipc_msg + 1 ≤ KSMBD_IPC_MAX_MESSAGE_SIZE;
}.

(** ** The configuration sent to the kernel *)

(** [struct ksmbd_startup_request] *)
Record startup_request := mk_startup {
  su_flags : Z; su_signing : Z; su_min_prot : bytes; su_max_prot : bytes; su_netbios_name : bytes;
  su_work_group : bytes; su_server_string : bytes; su_tcp_port : Z; su_ipc_timeout : Z; su_deadtime : Z;
  su_file_max : Z; su_smb2_max_write : Z; su_smb2_max_read : Z; su_smb2_max_trans : Z;
  su_share_fake_fscaps : Z; su_sub_auth : list Z; su_smb2_max_credits : Z; su_smbd_max_io_size : Z;
  su_max_connections : Z; su_bind_interfaces_only : Z; su_max_ip_connections : Z; su_fruit_model : bytes;
  su_ifc_list_sz : Z; su_payload : bytes;
}.

(** [pp] is the NULL-terminated array; empty strings are skipped. *)
Fixpoint ifc_list_size (pp : list bytes) (sz : Z) : Z :=
  match pp with
  | [] => s32 sz
  | [] :: pp => ifc_list_size pp sz
  | p :: pp =>
      let len := Z.of_nat (length p) + 1 in
      if (INT_MAX <? len) || (INT_MAX - len <? sz) then - EOVERFLOW else ifc_list_size pp (sz + len)
  end.
(** The loop that copies the names: [None] where it gives up. *)
Fixpoint copy_interfaces (pp : list bytes) (ifc_list_sz sz : Z) (config_payload : bytes) : option (Z * bytes) :=
  match pp with
  | [] => Some (sz, config_payload)
  | [] :: pp => copy_interfaces pp ifc_list_sz sz config_payload
  | p :: pp =>
      let len := Z.of_nat (length p) + 1 in
      if u64 (ifc_list_sz - sz) <? len then None
      else copy_interfaces pp ifc_list_sz (sz + len) (mem_write (Z.to_nat sz) (p ++ [0]) config_payload)
  end.

Section Startup.
Context `{Allocator}.
(** [global_conf], its sub-authorities, and what sending the message returns *)
Variable conf : smbconf_global.
Variable gen_subauth : list Z.
Variable ipc_msg_send : startup_request → Z.

(** A string of the configuration in an array of [n] octets that is zero. *)
Definition conf_text (n : nat) (f : gstr) : bytes :=
  match gc_str conf f with
  | Some s => g_strlcpy (replicate n 0) s
  | None => replicate n 0
  end.
Definition startup_message (bind_interfaces_only ifc_list_sz : Z) (payload : bytes) : startup_request :=
  mk_startup (u32 (gc_int conf FLAGS)) (gc_int conf SERVER_SIGNING) (conf_text 16 SERVER_MIN_PROTOCOL)
    (conf_text 16 SERVER_MAX_PROTOCOL) (conf_text 16 NETBIOS_NAME) (conf_text 64 WORK_GROUP)
    (conf_text 64 SERVER_STRING) (gc_int conf TCP_PORT) (gc_int conf IPC_TIMEOUT) (gc_int conf DEADTIME)
    (u32 (gc_int conf FILE_MAX)) (gc_int conf SMB2_MAX_WRITE) (gc_int conf SMB2_MAX_READ)
    (gc_int conf SMB2_MAX_TRANS) (gc_int conf SHARE_FAKE_FSCAPS) gen_subauth (gc_int conf SMB2_MAX_CREDITS)
    (gc_int conf SMBD_MAX_IO_SIZE) (gc_int conf MAX_CONNECTIONS) bind_interfaces_only
    (gc_int conf MAX_IP_CONNECTIONS) (conf_text 64 FRUIT_MODEL) ifc_list_sz payload.
(** The code, and the message when one is sent. *)
Definition ipc_ksmbd_starting_up : Z * option startup_request :=
  let ifc_list_sz := if (gc_int conf BIND_INTERFACES_ONLY =? 0) then 0 else ifc_list_size (gc_interfaces conf) 0 in
  if ifc_list_sz <? 0 then (ifc_list_sz, None)
  else if negb (ipc_msg_alloc (sizeof_startup_request + ifc_list_sz)) then (- ENOMEM, None)
  else
    let payload := replicate (Z.to_nat ifc_list_sz) 0 in
    if ifc_list_sz =? 0 then let ev := startup_message 0 0 payload in (ipc_msg_send ev, Some ev)
    else match copy_interfaces (gc_interfaces conf) ifc_list_sz 0 payload with
    | None => (- EOVERFLOW, None)
    | Some (sz, payload) =>
        let ev := startup_message (gc_int conf BIND_INTERFACES_ONLY) (u32 sz) payload in
        (ipc_msg_send ev, Some ev)
    end.
End Startup.

(** The names of the interfaces, each with its NUL. *)
Definition interface_list (pp : list bytes) : bytes :=
  concat ((λ p, match p with [] => [] | _ => p ++ [0] end) <$> pp).
(** Every text of the message ends inside of its array. *)
Definition texts_terminated (r : startup_request) : Prop :=
  0 ∈ su_min_prot r ∧ 0 ∈ su_max_prot r ∧ 0 ∈ su_netbios_name r ∧ 0 ∈ su_work_group r ∧
  0 ∈ su_server_string r ∧ 0 ∈ su_fruit_model r.

Lemma interface_list_cons p pp :
  interface_list (p :: pp) = match p with [] => [] | _ => p ++ [0] end ++ interface_list pp.
Proof. done. Qed.
Lemma ifc_list_size_spec pp sz :
  0 ≤ sz ≤ INT_MAX →
  ifc_list_size pp sz =
    (if sz + Z.of_nat (length (interface_list pp)) <=? INT_MAX
     then sz + Z.of_nat (length (interface_list pp)) else - EOVERFLOW).
Proof.
  revert sz. induction pp as [|[|c p] pp IH]; intros sz Hsz; cbn [ifc_list_size];
    rewrite ?interface_list_cons, ?length_app; [|by apply IH|].
  - rewrite Z.add_0_r. zdecide. apply s32_small. unfold INT_MAX in Hsz. lia.
  - set (q := c :: p). replace (Z.of_nat (length q + length [0] + length (interface_list pp)))
      with (Z.of_nat (length q) + 1 + Z.of_nat (length (interface_list pp))) by (cbn [length]; lia).
    destruct (Z.ltb_spec INT_MAX (Z.of_nat (length q) + 1)); cbn [orb]; [zdecide; done|].
    destruct (Z.ltb_spec (INT_MAX - (Z.of_nat (length q) + 1)) sz); [zdecide; done|].
    rewrite IH by lia. by rewrite !Z.add_assoc.
Qed.
(** The loop fills an array of the size that was counted. *)
Lemma copy_interfaces_spec pp done_ payload :
  length payload = length (done_ ++ interface_list pp) → Z.of_nat (length payload) ≤ INT_MAX →
  take (length done_) payload = done_ →
  copy_interfaces pp (Z.of_nat (length payload)) (Z.of_nat (length done_)) payload =
    Some (Z.of_nat (length payload), done_ ++ interface_list pp).
Proof.
  revert done_ payload. induction pp as [|[|c p] pp IH]; intros done_ payload Hl Hm Ht; cbn [copy_interfaces].
  - change (interface_list []) with (@nil Z) in *. rewrite app_nil_r in *. rewrite <-Hl in Ht.
    rewrite firstn_all in Ht. by rewrite Hl, Ht.
  - by apply IH.
  - rewrite interface_list_cons in *. set (q := c :: p) in *. cbv match in *. unfold INT_MAX in *.
    rewrite !length_app in Hl. cbn [length] in Hl.
    rewrite u64_small by lia. zdecide. rewrite Nat2Z.id.
    assert (length (mem_write (length done_) (q ++ [0]) payload) = length payload) as Hw.
    { apply length_mem_write. rewrite length_app. cbn [length]. lia. }
    replace (Z.of_nat (length done_) + _) with (Z.of_nat (length (done_ ++ q ++ [0]))) by (rewrite !length_app; cbn [length]; lia).
    rewrite <-Hw. rewrite IH.
    + by rewrite <-!app_assoc.
    + rewrite Hw, !length_app. cbn [length]. lia.
    + by rewrite Hw.
    + rewrite !length_app, <-(length_app q). rewrite take_mem_write by (rewrite length_app; cbn [length]; lia). by rewrite Ht.
Qed.

Lemma g_strlcpy_terminated n s : (0 < n)%nat → 0 ∈ g_strlcpy (replicate n 0) s.
Proof.
  intros Hn. unfold g_strlcpy. rewrite length_replicate, (proj2 (Nat.eqb_neq _ _)) by lia.
  unfold mem_write. rewrite take_0, !elem_of_app. right. left. right. by apply list_elem_of_singleton.
Qed.
Lemma conf_text_terminated conf n f : (0 < n)%nat → 0 ∈ conf_text conf n f.
Proof.
  intros Hn. unfold conf_text. destruct (gc_str conf f); [by apply g_strlcpy_terminated|].
  destruct n; [lia|]. by left.
Qed.
Lemma startup_message_terminated conf gen_subauth b n payload :
  texts_terminated (startup_message conf gen_subauth b n payload).
Proof. by split_and!; apply conf_text_terminated; lia. Qed.

(** The interfaces that are announced. *)
Definition announced (conf : smbconf_global) : bytes :=
  if gc_int conf BIND_INTERFACES_ONLY =? 0 then [] else interface_list (gc_interfaces conf).

(** C37 (functional): when it starts, the daemon either sends one message or
    gives up with an error, by the size of the list of interfaces alone: a
    message that fits into 4096 octets (memory given) is sent, carries each
    name of the list that is not empty with its NUL, in order and nothing
    else, says so many octets, and all texts in it end inside of their arrays;
    a longer one is refused before anything is written. *)
Theorem startup_sends_configuration `{Allocator} conf gen_subauth send :
  let sz := sizeof_startup_request + Z.of_nat (length (announced conf)) in
  g_try_malloc (sz + sizeof_ipc_msg + 1) = true →
  (if sz + sizeof_ipc_msg + 1 <=? KSMBD_IPC_MAX_MESSAGE_SIZE
   then ∃ r, ipc_ksmbd_starting_up conf gen_subauth send = (send r, Some r) ∧
          su_payload r = announced conf ∧ su_ifc_list_sz r = Z.of_nat (length (announced conf)) ∧
          (announced conf ≠ [] → su_bind_interfaces_only r = gc_int conf BIND_INTERFACES_ONLY) ∧
          texts_terminated r
   else ∃ e, ipc_ksmbd_starting_up conf gen_subauth send = (e, None) ∧ e < 0).
Proof.
  intros sz Ha. unfold ipc_ksmbd_starting_up.
  assert ((if gc_int conf BIND_INTERFACES_ONLY =? 0 then 0 else ifc_list_size (gc_interfaces conf) 0) =
          (if Z.of_nat (length (announced conf)) <=? INT_MAX
           then Z.of_nat (length (announced conf)) else - EOVERFLOW)) as E.
  { unfold announced. destruct (_ =? 0); [done|]. by rewrite ifc_list_size_spec. }
  rewrite E. clear E. set (n := Z.of_nat (length (announced conf))) in *.
  assert (0 ≤ n) by lia. unfold sizeof_startup_request, sizeof_ipc_msg, KSMBD_IPC_MAX_MESSAGE_SIZE in *.
  destruct (Z.leb_spec n INT_MAX) as [Hn|Hn]; [|unfold INT_MAX in Hn; zdecide; by eexists].
  rewrite (proj2 (Z.ltb_ge _ _)) by lia. unfold ipc_msg_alloc, sizeof_ipc_msg, KSMBD_IPC_MAX_MESSAGE_SIZE, SIZE_MAX.
  unfold INT_MAX in Hn. rewrite (proj2 (Z.ltb_ge _ _)) by lia.
  destruct (Z.leb_spec (sz + 8 + 1) 4096) as [Hs|Hs]; subst sz; rewrite ?Ha; zdecide; [|by eexists].
  cbn [negb]. replace (Z.to_nat n) with (length (announced conf)) by (unfold n; lia).
  destruct (decide (n = 0)) as [Hz|Hz].
  - rewrite Hz. assert (announced conf = []) as E by (apply nil_length_inv; lia).
    rewrite E. eexists. split_and!; [done..|apply startup_message_terminated].
  - assert (announced conf = interface_list (gc_interfaces conf)) as El.
    { unfold announced in *. destruct (_ =? 0); [done|done]. }
    pose proof (copy_interfaces_spec (gc_interfaces conf) [] (replicate (length (announced conf)) 0)) as Hc.
    rewrite length_replicate, El in Hc. cbn [app] in Hc. change (Z.of_nat (@length Z [])) with 0 in Hc.
    rewrite (proj2 (Z.eqb_neq _ _) Hz). unfold n at 1. rewrite El, Hc; [|done|rewrite <-El; fold n; unfold INT_MAX; lia|done].
    eexists. split; [reflexivity|]. split_and!; [done| |done|apply startup_message_terminated].
    cbn. rewrite <-El. apply u32_small. fold n. lia.
Qed.
Lemma startup_sends_configuration_witness :
  let conf := set_int BIND_INTERFACES_ONLY 1 (set_interfaces [str "eth0"; []; str "lo"] zero_global) in
  ∃ r, ipc_ksmbd_starting_up (H:=plenty) conf [1; 2; 3] (λ _, 0) = (0, Some r) ∧
    su_payload r = str "eth0" ++ [0] ++ str "lo" ++ [0] ∧ su_ifc_list_sz r = 8.
Proof.
  intros conf. pose proof (startup_sends_configuration (H:=plenty) conf [1; 2; 3] (λ _, 0) eq_refl) as Hs.
  destruct Hs as (r & Hr & Hp & Hn & _). exists r. split; [exact Hr|]. split; [exact Hp|exact Hn].
Defined.

(** ** What reaches the workers *)

(** libnl calls parsers of the table only, and checks each attribute against
    the policy. *)
Definition libnl_checks `{Libnl} : Prop := ∀ (P : Type) (cmds : list (Z * P)) policy msg c_id p attrs,
  genl_handle_msg cmds policy msg = Parsed c_id p attrs →
  (c_id, p) ∈ cmds ∧ ∀ type data, attrs type = Some data → minlen policy type ≤ Z.of_nat (length data) ∧ is_bytes data.
Lemma nlink_accepted `{Allocator, Libnl} msg code m :
  libnl_checks → nlink_msg_cb msg = (code, Some m) → accepted m.
Proof.
  unfold nlink_msg_cb. intros Hl Hm. destruct (negb _); [done|].
  destruct (genl_handle_msg _ _ _) as [|c [] attrs] eqn:Hp; [done| |done].
  destruct (Hl _ _ _ _ _ _ _ Hp) as [Hc Ha]. revert Hm. unfold handle_generic_event, generic_event, ipc_msg_alloc.
  destruct (attrs c) as [data|] eqn:Hd; [|done]. destruct (Ha _ _ Hd).
  destruct (Z.ltb_spec (SIZE_MAX - sizeof_ipc_msg - 1) (Z.of_nat (length data))); [done|].
  destruct (Z.ltb_spec KSMBD_IPC_MAX_MESSAGE_SIZE (Z.of_nat (length data) + sizeof_ipc_msg + 1)); [done|].
  destruct (g_try_malloc _); [|done]. intros [= <- <-]. by split.
Qed.
