(* ===== verification/Channel.v ===== *)
(** * The sockets of the daemon ([src/mountd/ipc.c])

    Opening and closing the generic netlink sockets of the kernel server and of
    its QUIC transport, waiting for messages on them, and the answers to QUIC
    clients.  What libnl returns is a parameter; a message has the room that
    libnl gives it. *)

From S2P Require Import Prelude ConfText Shares Config Quic Ipc.

(** ** Data *)
Definition KSMBD_HEALTH_RUNNING : Z := BIT 0.
Definition SIGABRT : Z := 6.
Definition KSMBD_QUIC_GENL_VERSION : Z := 1.
Definition KSMBD_QUIC_CMD_REGISTER : Z := 1.
Definition KSMBD_QUIC_CMD_HANDSHAKE_REQ : Z := 2.
Definition KSMBD_QUIC_CMD_HANDSHAKE_RSP : Z := 3.
Definition KSMBD_QUIC_ATTR_PAYLOAD : Z := 1.
Definition KSMBD_QUIC_ATTR_WRITE_HP : Z := 2.
Definition KSMBD_QUIC_ATTR_READ_HP : Z := 3.
(** The structures are packed. *)
Definition sizeof_handshake_req : Z := 2108.
Definition sizeof_handshake_rsp : Z := 8524.

(** [sk], [quic_sk] and [quic_registered], whether the daemon announced itself
    to the QUIC transport, [quic_tls], [ksmbd_health_status],
    the messages pushed to the workers, and the answers sent to the QUIC
    transport. *)
Record channel := mk_channel {
  ch_sk : bool; ch_quic_sk : bool; ch_quic_registered : bool; ch_announced : bool; ch_tls : tls_ctx; ch_health : Z;
  ch_pushed : list ipc_msg; ch_answers : list handshake_rsp;
}.
Definition set_sk (b : bool) (c : channel) : channel :=
  mk_channel b (ch_quic_sk c) (ch_quic_registered c) (ch_announced c) (ch_tls c) (ch_health c) (ch_pushed c) (ch_answers c).
Definition set_quic_sk (b : bool) (c : channel) : channel :=
  mk_channel (ch_sk c) b (ch_quic_registered c) (ch_announced c) (ch_tls c) (ch_health c) (ch_pushed c) (ch_answers c).
Definition set_quic_registered (b : bool) (c : channel) : channel :=
  mk_channel (ch_sk c) (ch_quic_sk c) b (ch_announced c) (ch_tls c) (ch_health c) (ch_pushed c) (ch_answers c).
Definition set_announced (b : bool) (c : channel) : channel :=
  mk_channel (ch_sk c) (ch_quic_sk c) (ch_quic_registered c) b (ch_tls c) (ch_health c) (ch_pushed c) (ch_answers c).
Definition set_tls (t : tls_ctx) (c : channel) : channel :=
  mk_channel (ch_sk c) (ch_quic_sk c) (ch_quic_registered c) (ch_announced c) t (ch_health c) (ch_pushed c) (ch_answers c).
Definition set_health (h : Z) (c : channel) : channel :=
  mk_channel (ch_sk c) (ch_quic_sk c) (ch_quic_registered c) (ch_announced c) (ch_tls c) h (ch_pushed c) (ch_answers c).
Definition set_pushed (l : list ipc_msg) (c : channel) : channel :=
  mk_channel (ch_sk c) (ch_quic_sk c) (ch_quic_registered c) (ch_announced c) (ch_tls c) (ch_health c) l (ch_answers c).
Definition set_answers (l : list handshake_rsp) (c : channel) : channel :=
  mk_channel (ch_sk c) (ch_quic_sk c) (ch_quic_registered c) (ch_announced c) (ch_tls c) (ch_health c) (ch_pushed c) l.
Definition no_channel : channel := mk_channel false false false false (mk_ctx false) 0 [] [].

(** [abort]: the worker has a handler for SIGABRT, which ends the process with
    the status 128 + SIGABRT. *)
Definition abort {S A : Type} : prog S A := fail (128 + SIGABRT).

(** What the calls of libnl return: zero, or a negative code.  The sockets are
    told apart by [quic].  [nla_put n] is the result of appending an attribute
    with [n] octets to a new message. *)
Class Netlink := {
  nl_socket_alloc : bool → bool;
  nl_connect : bool → Z;
  nl_socket_set_buffer_size : bool → Z;
  genl_register_family : bool → Z;
  genl_ops_resolve : bool → Z;
  nlmsg_alloc : bool;
  genlmsg_put : bool;
  nla_put : Z → Z;
  nl_send_auto : Z;
}.

Section Sockets.
Context `{Allocator, Ptls, Libnl, Netlink}.
Variable conf : smbconf_global.
Variable gen_subauth : list Z.

(** ** Sending *)

(** [nlmsg_alloc] to [nl_send_auto] of the three functions that send a message,
    with an attribute of [n] octets: what is returned, and whether it left. *)
Definition send_message (attr : option Z) : Z * bool :=
  if negb nlmsg_alloc then (- ENOMEM, false)
  else if negb genlmsg_put then (- EINVAL, false)
  else
    let r := match attr with Some n => nla_put n | None => 0 end in
    if negb (r =? 0) then (r, false)
    else if 0 <? nl_send_auto then (0, true) else (nl_send_auto, false).
Definition ipc_msg_send (sz : Z) : Z := (send_message (Some sz)).1.
Definition ipc_quic_register : prog channel Z :=
  let '(r, gone) := send_message None in modify (set_announced gone) ;; ret r.
Definition quic_handshake_send_rsp (rsp : handshake_rsp) : prog channel Z :=
  let '(r, gone) := send_message (Some sizeof_handshake_rsp) in
  (if gone then modify (λ c, set_answers (ch_answers c ++ [rsp]) c) else ret tt) ;;
  ret r.
Definition quic_handshake_failure_rsp (req : handshake_req) : prog channel Z :=
  quic_handshake_send_rsp
    (mk_qrsp (qr_handle req) (qr_conn_id req) 0 KSMBD_QUIC_CIPHER_AES128GCM no_keys no_keys no_keys no_keys 0 0 0
       (replicate (Z.to_nat KSMBD_QUIC_MAX_HS_DATA) 0)).

(** ** QUIC clients *)

(** [struct ksmbd_quic_handshake_req] in the octets of the attribute *)
Definition quic_request (b : bytes) : handshake_req :=
  mk_qreq (le_val (mem_read 0 4 b)) (le_val (mem_read 4 8 b)) (le_val (mem_read 32 1 b)) (le_val (mem_read 33 1 b))
    (mem_read 36 20 b) (le_val (mem_read 56 4 b)) (mem_read 60 2048 b).
Definition handle_quic_handshake_req (attrs : Z → option bytes) : prog channel Z :=
  match attrs KSMBD_QUIC_ATTR_PAYLOAD with
  | None => ret (- EINVAL)
  | Some attr =>
      if Z.of_nat (length attr) <? sizeof_handshake_req then ret (- EINVAL)
      else
        let req := quic_request attr in
        if KSMBD_QUIC_MAX_CLIENT_HELLO <? qr_client_hello_len req then ret (- EINVAL)
        else
          r <- attempt (zoom ch_tls set_tls (ksmbd_quic_build_handshake_rsp conf req)) ;;
          match r with
          | inr _ => quic_handshake_failure_rsp req
          | inl rsp => quic_handshake_send_rsp rsp
          end
  end.
Inductive quic_parser := handle_unsupported_quic_event | handle_quic_handshake_req_.
Definition quic_genl_cmds : list (Z * quic_parser) := [
  (KSMBD_QUIC_CMD_REGISTER, handle_unsupported_quic_event);
  (KSMBD_QUIC_CMD_HANDSHAKE_REQ, handle_quic_handshake_req_);
  (KSMBD_QUIC_CMD_HANDSHAKE_RSP, handle_unsupported_quic_event)].
(** [.minlen]; the other two attributes, which the daemon does not look at, have
    the same [.maxlen]. *)
Definition quic_nl_policy : list (Z * Z) := [
  (KSMBD_QUIC_ATTR_PAYLOAD, sizeof_handshake_req);
  (KSMBD_QUIC_ATTR_WRITE_HP, KSMBD_QUIC_KEY_SIZE);
  (KSMBD_QUIC_ATTR_READ_HP, KSMBD_QUIC_KEY_SIZE)].
Definition quic_nlink_msg_cb (msg : nl_msg) : prog channel Z :=
  if negb (gnlh_version msg =? KSMBD_QUIC_GENL_VERSION) then ret NL_SKIP
  else
    code <- match genl_handle_msg quic_genl_cmds quic_nl_policy msg with
            | Refused code => ret code
            | Parsed _ handle_quic_handshake_req_ attrs => handle_quic_handshake_req attrs
            | Parsed _ handle_unsupported_quic_event _ => ret NL_SKIP
            end ;;
    ret (if code =? - NLE_RANGE then NL_SKIP else code).

(** ** Receiving *)

(** [nlink_msg_cb] pushes to the workers. *)
Definition kernel_msg_cb (msg : nl_msg) : prog channel Z :=
  let '(code, pushed) := nlink_msg_cb msg in
  modify (λ c, set_pushed (ch_pushed c ++ option_list pushed) c) ;; ret code.
(** [nl_recvmsgs_default] with the messages that arrived: a callback that
    returns a negative code ends it with that code. *)
Fixpoint nl_recvmsgs (cb : nl_msg → prog channel Z) (msgs : list nl_msg) : prog channel Z :=
  match msgs with
  | [] => ret 0
  | msg :: msgs => r <- cb msg ;; if r <? 0 then ret r else nl_recvmsgs cb msgs
  end.
(** [poll]: interrupted by a signal, failed, or the messages of each socket that
    is ready. *)
Inductive polled :=
  | Interrupted
  | PollFailed (errno : Z)
  | Arrived (kernel quic : option (list nl_msg)).
Definition recv (cb : nl_msg → prog channel Z) (ready : option (list nl_msg)) : prog channel Z :=
  match ready with Some msgs => nl_recvmsgs cb msgs | None => ret 0 end.
Definition ipc_process_event (p : polled) : prog channel Z :=
  match p with
  | Interrupted => ret 0
  | PollFailed errno => ret (- errno)
  | Arrived kernel quic =>
      r <- recv kernel_msg_cb kernel ;;
      if r <? 0 then ret r
      else
        c <- get ;;
        r <- recv quic_nlink_msg_cb (if ch_quic_sk c then quic else None) ;;
        if r <? 0 then ret r else ret 0
  end.

(** ** Opening and closing *)
Definition check (b : bool) : prog channel unit := if b then ret tt else abort.
(** The steps that both sockets take, up to the registration of the family *)
Definition open_socket (quic : bool) (set : bool → channel → channel) : prog channel unit :=
  check (nl_socket_alloc quic) ;; modify (set true) ;;
  check (nl_connect quic =? 0) ;; check (nl_socket_set_buffer_size quic =? 0) ;;
  check (genl_register_family quic =? 0).
Definition quic_open : prog channel unit :=
  if negb (gc_int conf QUIC_HANDSHAKE_DELEGATE =? 0) && ksmbd_quic_tls_is_configured conf then
    r <- zoom ch_tls set_tls (ksmbd_quic_tls_init conf) ;;
    if negb (r =? 0) then ret tt
    else
      open_socket true set_quic_sk ;; modify (set_quic_registered true) ;;
      if genl_ops_resolve true =? 0 then ignore ipc_quic_register else ret tt
  else ret tt.
Definition ipc_init : prog channel unit :=
  c <- get ;;
  if ch_sk c then ret tt
  else
    open_socket false set_sk ;;
    check (genl_ops_resolve false =? 0) ;;
    quic_open ;;
    let started := ipc_ksmbd_starting_up conf gen_subauth
                     (λ ev, ipc_msg_send (sizeof_startup_request + Z.of_nat (length (su_payload ev)))) in
    check (started.1 =? 0) ;;
    modify (set_health KSMBD_HEALTH_RUNNING).
Definition ipc_destroy : prog channel unit :=
  modify (λ c, set_sk false (set_quic_sk false (set_quic_registered false c))).
End Sockets.

(** ** What is known of them *)
Section Laws.
Context `{Allocator, PtlsLaws, Libnl, Netlink}.
Variable conf : smbconf_global.
Hypothesis timeout_u32 : 0 ≤ gc_int conf QUIC_RECV_TIMEOUT < 2 ^ 32.
Hypothesis io_u32 : 0 ≤ gc_int conf SMBD_MAX_IO_SIZE < 2 ^ 32.

(** Everything but the TLS context and the answers *)
Definition same_channel (c c' : channel) : Prop := set_tls (ch_tls c) (set_answers (ch_answers c) c') = c.
Lemma same_channel_refl c : same_channel c c.
Proof. by destruct c. Qed.

(** A request that the handler looks at *)
Definition quic_ok (b : bytes) : Prop :=
  sizeof_handshake_req ≤ Z.of_nat (length b) ∧ is_bytes b ∧
  qr_client_hello_len (quic_request b) ≤ KSMBD_QUIC_MAX_CLIENT_HELLO.
(** The answer repeats the handle and the connection of the request. *)
Definition answer_to (b : bytes) (rsp : handshake_rsp) : Prop :=
  qs_handle rsp = qr_handle (quic_request b) ∧ qs_conn_id rsp = qr_conn_id (quic_request b).
Lemma send_rsp_wp rsp c :
  wp (quic_handshake_send_rsp rsp) c
    (λ r c', same_channel c c' ∧ r = (send_message (Some sizeof_handshake_rsp)).1 ∧
       ch_answers c' = ch_answers c ++ (if (send_message (Some sizeof_handshake_rsp)).2 then [rsp] else []))
    (λ _ _, False).
Proof.
  unfold quic_handshake_send_rsp. destruct (send_message _) as [r gone]. cbn [fst snd]. destruct gone; repeat wp_step; cbn.
  - by destruct c.
  - rewrite app_nil_r. by destruct c.
Qed.
(** What became of the request: refused, or answered as far as sending works *)
Definition handled (attr : option bytes) (c : channel) (r : Z) (c' : channel) : Prop :=
  same_channel c c' ∧
  ((¬ from_option quic_ok False attr ∧ r = - EINVAL ∧ ch_answers c' = ch_answers c) ∨
   ∃ b rsp, attr = Some b ∧ quic_ok b ∧ answer_to b rsp ∧ r = (send_message (Some sizeof_handshake_rsp)).1 ∧
     ch_answers c' = ch_answers c ++ (if (send_message (Some sizeof_handshake_rsp)).2 then [rsp] else [])).
Lemma quic_answer_wp b rsp q c :
  quic_ok b → answer_to b rsp → wp (quic_handshake_send_rsp rsp) (set_tls q c) (handled (Some b) c) (λ _ _, False).
Proof.
  intros Hb Hr. eapply wp_mono; [apply send_rsp_wp| |done]. intros r c' (Hs & -> & Ha). split.
  - revert Hs. unfold same_channel, set_tls, set_answers. destruct c, c'. cbn. congruence.
  - right. by exists b, rsp.
Qed.
Lemma quic_request_wp attrs c :
  (∀ b, attrs KSMBD_QUIC_ATTR_PAYLOAD = Some b → is_bytes b) →
  wp (handle_quic_handshake_req conf attrs) c (handled (attrs KSMBD_QUIC_ATTR_PAYLOAD) c) (λ _ _, False).
Proof.
  intros Hb. unfold handle_quic_handshake_req. destruct (attrs _) as [b|].
  2:{ wp_step. split; [apply same_channel_refl|]. left. cbn. tauto. }
  specialize (Hb b eq_refl).
  destruct (Z.ltb_spec (Z.of_nat (length b)) sizeof_handshake_req) as [Hl|Hl].
  { wp_step. split; [apply same_channel_refl|]. left. split; [|done]. intros [? _]. lia. }
  destruct (Z.ltb_spec KSMBD_QUIC_MAX_CLIENT_HELLO (qr_client_hello_len (quic_request b))) as [Hh|Hh].
  { wp_step. split; [apply same_channel_refl|]. left. split; [|done]. intros (_ & _ & ?). lia. }
  assert (quic_ok b) as Hok by done. unfold sizeof_handshake_req in Hl. wp_step. apply wp_attempt, wp_zoom.
  eapply wp_mono; [apply (build_rsp_wp conf timeout_u32 io_u32)|cbv beta..].
  - apply le_val_range. by apply Forall_take, Forall_drop.
  - cbn. rewrite length_mem_read; [done|]. lia.
  - intros rsp q [_ [_ (ext & d & k & _ & Ha)]]. apply quic_answer_wp; [done|]. destruct (an_request _ _ _ _ _ Ha) as (? & ? & _). by split.
  - intros e q _. by apply quic_answer_wp.
Qed.
(** A callback with a message of the kernel's QUIC transport *)
Lemma quic_cb_wp msg c :
  libnl_checks →
  wp (quic_nlink_msg_cb conf msg) c
    (λ r c', same_channel c c' ∧ (ch_answers c' = ch_answers c ∨ ∃ rsp, ch_answers c' = ch_answers c ++ [rsp])) (λ _ _, False).
Proof.
  intros Hl. unfold quic_nlink_msg_cb. destruct (negb _); [wp_step; split; [apply same_channel_refl|by left]|].
  wp_step. destruct (genl_handle_msg _ _ _) as [code|c_id [] attrs] eqn:Hp; try (wp_step; wp_step; split; [apply same_channel_refl|by left]).
  destruct (Hl _ _ _ _ _ _ _ Hp) as [_ Ha]. wp_by (apply quic_request_wp; intros b Hb; by apply (Ha _ _ Hb)); [|done].
  intros r c' [Hs Hr]. wp_step. split; [done|]. destruct Hr as [(_ & _ & ->) | (b & rsp & _ & _ & _ & _ & ->)]; [by left|].
  destruct (send_message _).2; [right; by exists rsp|left; by rewrite app_nil_r].
Qed.
Lemma same_channel_trans c1 c2 c3 : same_channel c1 c2 → same_channel c2 c3 → same_channel c1 c3.
Proof. unfold same_channel, set_tls, set_answers. destruct c1, c2, c3. cbn. congruence. Qed.
Lemma quic_recv_wp msgs c :
  libnl_checks → wp (nl_recvmsgs (quic_nlink_msg_cb conf) msgs) c (λ _ c', same_channel c c') (λ _ _, False).
Proof.
  intros Hl. revert c. induction msgs as [|msg msgs IH]; intros c; cbn [nl_recvmsgs]; [wp_step; apply same_channel_refl|].
  wp_step. wp_by (by apply quic_cb_wp); [|done]. intros r c' [Hs _]. destruct (r <? 0); [by wp_step|].
  eapply wp_mono; [apply IH| |done]. intros r2 c2. by apply same_channel_trans.
Qed.
(** The messages that are pushed have passed libnl. *)
Lemma kernel_recv_wp msgs c :
  libnl_checks →
  wp (nl_recvmsgs kernel_msg_cb msgs) c
    (λ _ c', ∃ l, c' = set_pushed (ch_pushed c ++ l) c ∧
       Forall (λ m, ∃ msg code, msg ∈ msgs ∧ nlink_msg_cb msg = (code, Some m)) l) (λ _ _, False).
Proof.
  intros Hl. revert c. induction msgs as [|msg msgs IH]; intros c; cbn [nl_recvmsgs].
  { wp_step. exists []. rewrite app_nil_r. by destruct c. }
  wp_step. unfold kernel_msg_cb at 1. destruct (nlink_msg_cb msg) as [code pushed] eqn:E. do 3 wp_step.
  assert (Forall (λ m, ∃ msg0 code, msg0 ∈ msg :: msgs ∧ nlink_msg_cb msg0 = (code, Some m)) (option_list pushed)) as Hm.
  { destruct pushed as [m|]; cbn; [|done]. constructor; [|done]. exists msg, code. split; [by left|done]. }
  destruct (code <? 0).
  - wp_step. by exists (option_list pushed).
  - eapply wp_mono; [apply IH| |done]. intros _ c' (l & -> & Hf). exists (option_list pushed ++ l). split.
    + cbn. by rewrite <-app_assoc.
    + apply Forall_app. split; [done|]. eapply Forall_impl; [exact Hf|]. intros m (msg' & code' & Hin & ?).
      exists msg', code'. split; [by right|done].
Qed.
(** All that waiting for messages changes is what was pushed, the answers and
    the TLS context. *)
Lemma process_event_wp p c :
  libnl_checks →
  wp (ipc_process_event conf p) c
    (λ _ c', ∃ l, same_channel (set_pushed (ch_pushed c ++ l) c) c' ∧
       Forall (λ m, ∃ msgs quic msg code, p = Arrived (Some msgs) quic ∧ msg ∈ msgs ∧ nlink_msg_cb msg = (code, Some m)) l)
    (λ _ _, False).
Proof.
  intros Hl. assert (same_channel (set_pushed (ch_pushed c ++ []) c) c) as Hnil by (rewrite app_nil_r; by destruct c).
  destruct p as [|errno|kernel quic]; cbn [ipc_process_event]; [wp_step; by exists []..|].
  wp_step. eapply (wp_mono _ _ (λ _ c', ∃ l, c' = set_pushed (ch_pushed c ++ l) c ∧
     Forall (λ m, ∃ msgs quic' msg code, Arrived kernel quic = Arrived (Some msgs) quic' ∧ msg ∈ msgs ∧ nlink_msg_cb msg = (code, Some m)) l)
     _ (λ _ _, False)); [|cbv beta|done].
  - destruct kernel as [msgs|]; cbn [recv]; [|wp_step; exists []; rewrite app_nil_r; by destruct c].
    eapply wp_mono; [by apply kernel_recv_wp| |done]. intros _ c' (l & -> & Hf). exists l. split; [done|].
    eapply Forall_impl; [exact Hf|]. intros m (msg & code & ? & ?). by eexists _, _, _, _.
  - intros r c1 (l & -> & Hf). set (c1 := set_pushed _ c). destruct (r <? 0); [wp_step; exists l; split; [apply same_channel_refl|done]|].
    wp_step. wp_step. wp_step. eapply (wp_mono _ _ (λ _ c', same_channel c1 c') _ (λ _ _, False)); [|cbv beta|done].
    + destruct (if ch_quic_sk c1 then quic else None) as [msgs|]; cbn [recv]; [by apply quic_recv_wp|wp_step; apply same_channel_refl].
    + intros r2 c2 Hs. destruct (r2 <? 0); wp_step; by exists l.
Qed.

(** Opening the sockets ends the process, or leaves the daemon running. *)
Lemma check_wp b c (Q : unit → channel → Prop) :
  (b = true → Q tt c) → wp (check b) c Q (λ e _, e = 128 + SIGABRT).
Proof. unfold check, abort. destruct b; intros HQ; wp_step; auto. Qed.
Lemma open_socket_wp quic set c :
  wp (open_socket quic set) c (λ _ c', c' = set true c) (λ e _, e = 128 + SIGABRT).
Proof.
  unfold open_socket. wp_step. apply check_wp. intros _. wp_step. wp_step. wp_step. apply check_wp. intros _.
  wp_step. apply check_wp. intros _. by apply check_wp.
Qed.
(** What was pushed and answered, the kernel's socket and the health *)
Definition same_kernel (c c' : channel) : Prop :=
  ch_pushed c' = ch_pushed c ∧ ch_answers c' = ch_answers c ∧ ch_sk c' = ch_sk c ∧ ch_health c' = ch_health c.
Lemma quic_open_wp c : wp (quic_open conf) c (λ _ c', same_kernel c c') (λ e _, e = 128 + SIGABRT).
Proof.
  unfold quic_open. destruct (_ && _); [|by wp_step]. wp_step. apply wp_zoom. eapply wp_mono; [apply tls_init_wp| |done].
  intros r q _. destruct (negb _); [by wp_step|]. wp_step. eapply wp_mono; [apply open_socket_wp| |done]. intros _ c' ->.
  wp_step. wp_step. destruct (_ =? 0); [|by wp_step]. wp_step. unfold ipc_quic_register. destruct (send_message None). by repeat wp_step.
Qed.
Lemma ipc_init_wp gen_subauth c :
  wp (ipc_init conf gen_subauth) c
    (λ _ c', ch_sk c' = true ∧ ch_pushed c' = ch_pushed c ∧ ch_answers c' = ch_answers c ∧
       (if ch_sk c then c' = c else ch_health c' = KSMBD_HEALTH_RUNNING))
    (λ e _, e = 128 + SIGABRT).
Proof.
  unfold ipc_init. wp_step. wp_step. destruct (ch_sk c) eqn:Es; [by wp_step|].
  wp_step. eapply wp_mono; [apply open_socket_wp| |done]. intros _ c1 ->. wp_step. apply check_wp. intros _.
  wp_step. eapply wp_mono; [apply quic_open_wp| |done]. intros _ c2 (Hp & Ha & Hs & _). wp_step. apply check_wp. intros _.
  by wp_step.
Qed.

(** A new message of libnl has room for a page: for its headers, of 24 octets
    with that of the attribute, and [n] octets. *)
Definition NLE_NOMEM : Z := 5.
Definition message_room (page : Z) : Prop := ∀ n, page < 24 + n → nla_put n = - NLE_NOMEM.

(** C39 (error): every request of a QUIC client is handled without a fault: a
    request that is too short, without its attribute or with too long a message
    is refused, and for every other one a single answer is sent, with the handle
    and the connection of the request, unless sending fails.  But the answer is
    longer than a page of 4096 octets, the room of a message that is not asked
    for more: then no answer is ever sent, and each request ends with a negative
    code, with which the daemon gives up waiting for messages. *)
Theorem quic_answers_lost attrs c :
  (∀ b, attrs KSMBD_QUIC_ATTR_PAYLOAD = Some b → is_bytes b) →
  wp (handle_quic_handshake_req conf attrs) c
    (λ r c', handled (attrs KSMBD_QUIC_ATTR_PAYLOAD) c r c' ∧
       (message_room 4096 → ch_answers c' = ch_answers c ∧ r < 0)) (λ _ _, False).
Proof.
  intros Hb. eapply wp_mono; [by apply quic_request_wp| |done]. intros r c' Hh. split; [done|]. intros Hroom.
  destruct Hh as [_ [(_ & -> & ->) | (b & rsp & _ & _ & _ & -> & ->)]]; [done|]. unfold send_message.
  destruct nlmsg_alloc; cbn [negb]; [|by rewrite app_nil_r]. destruct genlmsg_put; cbn [negb]; [|by rewrite app_nil_r].
  rewrite Hroom by done. by rewrite app_nil_r.
Qed.
End Laws.

(** ** A small network *)
Definition toy_netlink : Netlink := {|
  nl_socket_alloc _ := true; nl_connect _ := 0; nl_socket_set_buffer_size _ := 0; genl_register_family _ := 0;
  genl_ops_resolve _ := 0; nlmsg_alloc := true; genlmsg_put := true;
  nla_put n := if 4096 <? 24 + n then - NLE_NOMEM else 0; nl_send_auto := 1;
|}.
Lemma toy_netlink_room : message_room (H3:=toy_netlink) 4096.
Proof. intros n Hn. cbn. by rewrite (proj2 (Z.ltb_lt _ _) Hn). Qed.
Definition toy_hello : bytes := replicate 32 0 ++ 8 :: replicate 23 0 ++ 3 :: replicate 3 0 ++ 1 :: replicate 2047 0.
Definition toy_attrs (t : Z) : option bytes := if t =? KSMBD_QUIC_ATTR_PAYLOAD then Some toy_hello else None.
Lemma quic_answers_lost_witness :
  ∃ c, handle_quic_handshake_req (H0:=toy_ptls) (H2:=toy_netlink) toy_conf toy_attrs no_channel = Done (- NLE_NOMEM) c ∧
       tx_initialized (ch_tls c) = true ∧ ch_answers c = [].
Proof.
  assert (∃ c, handle_quic_handshake_req (H0:=toy_ptls) (H2:=toy_netlink) toy_conf toy_attrs no_channel = Done (- NLE_NOMEM) c ∧
    tx_initialized (ch_tls c) = true) as (c & E & Ht) by (eexists; split; vm_compute; reflexivity).
  exists c. split; [exact E|]. split; [exact Ht|].
  pose proof (quic_answers_lost (H0:=toy_ptls) (H1:=toy_laws) (H3:=toy_netlink) toy_conf ltac:(cbn; lia) ltac:(cbn; lia) toy_attrs no_channel) as Hw.
  assert (∀ b, toy_attrs KSMBD_QUIC_ATTR_PAYLOAD = Some b → is_bytes b) as Hb.
  { intros b [= <-]. apply (bool_decide_unpack _). vm_compute. exact I. }
  exact (proj1 (proj2 (wp_Done _ _ _ _ _ _ (Hw Hb) E) toy_netlink_room)).
Defined.
