(* ===== verification/Frame.v ===== *)
(** * What the session programs leave alone

    [yields I P m]: where [m] comes to an end, it is in [I] again, and its
    result is in [P].  A share keeps its lists of hosts through every tree
    connect and disconnect ([hosts_free] of [Rpc] is kept). *)

From S2P Require Import Prelude ConfText Refcount Users Shares Sessions Ndr Rpc.

Definition yields {S A : Type} (I : S → Prop) (P : A → Prop) (m : prog S A) : Prop := ∀ s, I s →
  match m s with Done a s' => I s' ∧ P a | Err _ s' => I s' | Fault => True end.
Definition anything {A : Type} (a : A) : Prop := True.
Create HintDb yields.

Section Yields.
Context {S : Type} {I : S → Prop}.
Lemma yields_ret {A : Type} (P : A → Prop) a : P a → yields I P (ret a).
Proof. by intros ? s. Qed.
Lemma yields_fail {A : Type} (P : A → Prop) e : yields I P (fail e).
Proof. by intros s. Qed.
Lemma yields_fault {A : Type} (P : A → Prop) : yields I P fault.
Proof. by intros s. Qed.
Lemma yields_get : yields I I get.
Proof. by intros s. Qed.
Lemma yields_modify f : (∀ s, I s → I (f s)) → yields I anything (modify f).
Proof. intros Hf s Hs. split; [by apply Hf|done]. Qed.
Lemma yields_bind {A B : Type} (P : A → Prop) (Q : B → Prop) (m : prog S A) k :
  yields I P m → (∀ a, P a → yields I Q (k a)) → yields I Q (bind m k).
Proof.
  intros Hm Hk s Hs. specialize (Hm s Hs). unfold bind. destruct (m s) as [a s'|e s'|]; [|done..].
  destruct Hm as [Hs' Ha]. by apply Hk.
Qed.
Lemma yields_anything {A : Type} (P : A → Prop) (m : prog S A) : yields I P m → yields I anything m.
Proof. intros Hm s Hs. specialize (Hm s Hs). by destruct (m s); [destruct Hm|..]. Qed.
Lemma yields_ignore {A : Type} (m : prog S A) : yields I anything m → yields I anything (ignore m).
Proof. intros Hm s Hs. specialize (Hm s Hs). unfold ignore, bind, attempt, ret. by destruct (m s); [destruct Hm|..]. Qed.
Lemma yields_for_each {A : Type} (l : list A) body :
  (∀ a, yields I anything (body a)) → yields I anything (for_each l body).
Proof.
  intros Hb. induction l as [|a l IH]; cbn [for_each]; [by apply yields_ret|].
  by eapply yields_bind; [apply Hb|].
Qed.
(** A weakest precondition and what is kept besides. *)
Lemma yields_wp {A : Type} (P : A → Prop) (m : prog S A) s Q E :
  yields I P m → I s → wp m s Q E → wp m s (λ a s', Q a s' ∧ I s') (λ e s', E e s' ∧ I s').
Proof. intros Hm Hs Hw. specialize (Hm s Hs). revert Hw. unfold wp. destruct (m s); naive_solver. Qed.
End Yields.
Lemma yields_zoom {S W A : Type} (I : S → Prop) (J : W → Prop) (P : A → Prop) proj upd (m : prog S A) :
  (∀ w, J w → I (proj w)) → (∀ s w, J w → I s → J (upd s w)) → yields I P m → yields J P (zoom proj upd m).
Proof.
  intros Hp Hu Hm w Hw. specialize (Hm (proj w) (Hp w Hw)). unfold zoom.
  destruct (m (proj w)); [destruct Hm|..]; auto.
Qed.

(** [yields_step] takes one statement off; [keeps_hosts] runs a program to the end. *)
Ltac yields_step :=
  match goal with
  | |- yields _ _ (bind (load ss_heap _) _) => apply (yields_bind no_hosts); [solve [eauto with yields]|intros ? ?]
  | |- yields _ _ (bind get _) => eapply yields_bind; [apply yields_get|intros ? ?]
  | |- yields _ _ (bind _ _) => apply (yields_bind anything); [|intros ? _]
  | |- yields _ _ (ret _) => by apply yields_ret
  | |- yields _ _ (fail _) => apply yields_fail
  | |- yields _ _ fault => apply yields_fault
  | |- yields _ _ (modify _) => by apply yields_modify
  | |- yields _ _ (ignore _) => apply yields_ignore
  | |- yields _ _ (for_each _ _) => apply yields_for_each; intros ?
  | |- yields _ _ (if ?b then _ else _) => destruct b
  | |- yields _ _ (match ?x with _ => _ end) => destruct x
  | |- yields _ _ _ => solve [eauto with yields]
  end.
Ltac keeps_hosts := repeat yields_step.

Section HostLists.
Context `{GLib, System, Allocator}.
Abbreviation H_ := hosts_free.
Abbreviation W_ := (λ w, hosts_free (ws_shares w)).

Lemma hosts_load p : yields H_ no_hosts (load ss_heap p).
Proof. intros s Hs. unfold load. destruct (ss_heap s !! p) eqn:E; [|done]. split; [done|]. exact (Hs p _ E). Qed.
Lemma hosts_load_any p : yields H_ anything (load ss_heap p).
Proof. eapply yields_anything, hosts_load. Qed.
Lemma hosts_store p x : no_hosts x → yields H_ anything (store ss_heap set_ss_heap p x).
Proof.
  intros Hx s Hs. unfold store. destruct (ss_heap s !! p); [|done]. split; [|done]. by apply map_Forall_insert_2.
Qed.
Lemma hosts_release p : yields H_ anything (release ss_heap set_ss_heap p).
Proof. intros s Hs. unfold release. destruct (ss_heap s !! p); [|done]. split; [|done]. by apply map_Forall_delete. Qed.
Lemma hosts_users {A : Type} (m : prog ustate A) : yields H_ anything (zoom ss_users set_ss_users m).
Proof. intros s Hs. unfold zoom. by destruct (m (ss_users s)). Qed.
#[local] Hint Resolve hosts_load hosts_load_any hosts_store hosts_release hosts_users : yields.
Lemma hosts_put p : yields H_ anything (put_ksmbd_share p).
Proof. unfold put_ksmbd_share, __shm_remove_share, kill_ksmbd_share. keeps_hosts. Qed.
Lemma hosts_lookup name : yields H_ anything (shm_lookup_share name).
Proof. unfold shm_lookup_share, get_ksmbd_share. keeps_hosts. Qed.
Lemma hosts_open p : yields H_ anything (shm_open_connection p).
Proof. unfold shm_open_connection. keeps_hosts. Qed.
Lemma hosts_close p : yields H_ anything (shm_close_connection p).
Proof. unfold shm_close_connection. keeps_hosts. Qed.
#[local] Hint Resolve hosts_put hosts_lookup hosts_open hosts_close : yields.
Lemma hosts_conn_free c : yields H_ anything (tcm_tree_conn_free c).
Proof. unfold tcm_tree_conn_free. keeps_hosts. Qed.
#[local] Hint Resolve hosts_conn_free : yields.

(** *** Sessions *)
Lemma hosts_on_shares {A : Type} P (m : prog sstate A) : yields H_ P m → yields W_ P (on_shares m).
Proof. by apply yields_zoom. Qed.
Lemma hosts_w_users {A : Type} (m : prog ustate A) : yields W_ anything (w_users m).
Proof. apply hosts_on_shares, hosts_users. Qed.
Lemma hosts_wload p : yields W_ anything (load ws_heap p).
Proof. intros s Hs. unfold load. by destruct (ws_heap s !! p). Qed.
Lemma hosts_wstore p x : yields W_ anything (store ws_heap set_ws_heap p x).
Proof. intros s Hs. unfold store. by destruct (ws_heap s !! p). Qed.
Lemma hosts_wrelease p : yields W_ anything (release ws_heap set_ws_heap p).
Proof. intros s Hs. unfold release. by destruct (ws_heap s !! p). Qed.
#[local] Hint Resolve hosts_w_users hosts_wload hosts_wstore hosts_wrelease : yields.
Ltac on_world_step := first [yields_step|eapply hosts_on_shares].
Lemma hosts_kill_session p : yields W_ anything (kill_ksmbd_session p).
Proof. unfold kill_ksmbd_session. repeat on_world_step. Qed.
#[local] Hint Resolve hosts_kill_session : yields.
Lemma hosts_get_session p : yields W_ anything (__get_session p).
Proof. unfold __get_session. repeat on_world_step. Qed.
Lemma hosts_put_session p : yields W_ anything (__put_session p).
Proof. unfold __put_session, __sm_remove_session. repeat on_world_step. Qed.
#[local] Hint Resolve hosts_get_session hosts_put_session : yields.
Lemma hosts_lookup_session id : yields W_ anything (sm_lookup_session id).
Proof. unfold sm_lookup_session. repeat on_world_step. Qed.
#[local] Hint Resolve hosts_lookup_session : yields.
Lemma hosts_connect_turn id user : yields W_ anything (connect_turn id user).
Proof. unfold connect_turn, new_ksmbd_session, sm_insert_session. repeat on_world_step. Qed.
#[local] Hint Resolve hosts_connect_turn : yields.
Lemma hosts_handle_connect n id user conn : yields W_ anything (sm_handle_tree_connect n id user conn).
Proof.
  induction n as [|n IH]; cbn [sm_handle_tree_connect]; [by apply yields_fault|].
  unfold add_tree_conn. repeat on_world_step.
Qed.
#[local] Hint Resolve hosts_handle_connect : yields.
Lemma hosts_capacity id : yields W_ anything (sm_check_sessions_capacity id).
Proof. unfold sm_check_sessions_capacity. repeat on_world_step. Qed.
Lemma hosts_disconnect s t : yields W_ anything (tcm_handle_tree_disconnect s t).
Proof. unfold tcm_handle_tree_disconnect, sm_handle_tree_disconnect. repeat on_world_step. Qed.
Lemma hosts_out_error conn share user resp : yields W_ anything (out_error conn share user resp).
Proof. unfold out_error. repeat on_world_step. Qed.
#[local] Hint Resolve hosts_capacity hosts_out_error : yields.
Lemma hosts_bind req share user flags : yields W_ anything (bind_conn req share user flags).
Proof. unfold bind_conn. repeat on_world_step. Qed.
#[local] Hint Resolve hosts_bind : yields.
Lemma hosts_connect map_to_guest guest_account restrict_anon req :
  yields W_ anything (tcm_handle_tree_connect map_to_guest guest_account restrict_anon req).
Proof.
  unfold tcm_handle_tree_connect, connect_share, connect_guest, connect_account. repeat on_world_step.
Qed.
End HostLists.
#[export] Hint Resolve hosts_connect hosts_disconnect hosts_w_users hosts_on_shares hosts_lookup hosts_put : yields.
