(* ===== verification/HostLists.v ===== *)
(** * Shares without lists of hosts

    A configuration that does not use the options "hosts allow" and "hosts
    deny" makes shares that say nothing about hosts ([hosts_free] of [Rpc]):
    the other options, the defaults and what the groups inherit do not bring
    them in. *)

From S2P Require Import Prelude ConfText Refcount Users Shares Config ShareAdmin Ndr Rpc Sessions Frame.

Section Hostless.
Context `{GLib, System, Allocator}.
Hypothesis strdown_lower : ∀ s, forallb (λ c, negb ((65 <=? c) && (c <=? 90))) s = true → g_ascii_strdown s = s.

Definition host_key (k : bytes) : bool :=
  bool_decide (k = KSMBD_SHARE_CONF CONF_HOSTS_ALLOW) || bool_decide (k = KSMBD_SHARE_CONF CONF_HOSTS_DENY).
(** A table of options: each under its folded key, and none about hosts *)
Definition hostless (kv : kvs) : Prop :=
  map_Forall (λ fk e, fk = g_ascii_strdown e.1 ∧ key_ok e.1 = true ∧ host_key fk = false) kv.
Definition hostless_groups (groups : gmap bytes smbconf_group) : Prop := map_Forall (λ _ g, hostless (g_kv g)) groups.
Lemma hostless_delete fk kv : hostless kv → hostless (delete fk kv).
Proof. apply map_Forall_delete. Qed.
Lemma conf_lower c : forallb (λ c, negb ((65 <=? c) && (c <=? 90))) (KSMBD_SHARE_CONF c) = true.
Proof. by destruct c. Qed.
Lemma strdown_conf c : g_ascii_strdown (KSMBD_SHARE_CONF c) = KSMBD_SHARE_CONF c.
Proof. apply strdown_lower, conf_lower. Qed.
Lemma hostless_lookup kv c : hostless kv → host_key (KSMBD_SHARE_CONF c) = true → kv_lookup g_ascii_strdown kv (KSMBD_SHARE_CONF c) = None.
Proof.
  intros Hkv Hc. unfold kv_lookup. rewrite strdown_conf. destruct (kv !! _) as [e|] eqn:E; [|done].
  destruct (Hkv _ _ E) as (_ & _ & Hn). congruence.
Qed.

(** *** A share from a group *)
Definition building_hostless (s : pstate) : Prop := no_hosts (ps_share s) ∧ hostless (ps_kv s).
Abbreviation P_ := building_hostless.
Lemma hostless_steal c : yields P_ (λ v, host_key (KSMBD_SHARE_CONF c) = true → v = None) (Shares.group_kv_steal c).
Proof.
  intros s [Hx Hkv]. unfold Shares.group_kv_steal, cp_group_kv_steal. destruct (KSMBD_SHARE_CONF_IS_BROKEN c); [done|].
  split; [split; [done|by apply hostless_delete]|]. intros Hc. by apply hostless_lookup.
Qed.
Lemma hostless_steal_any c : yields P_ anything (Shares.group_kv_steal c).
Proof. eapply yields_anything, hostless_steal. Qed.
Lemma hostless_upd f : (∀ x, no_hosts x → no_hosts (f x)) → yields P_ anything (upd_share f).
Proof. intros Hf. apply yields_modify. intros s [Hx Hkv]. split; [by apply Hf|done]. Qed.
Lemma hostless_users {A : Type} (m : prog ustate A) : yields P_ anything (p_users m).
Proof. intros s Hs. unfold p_users, zoom. by destruct (m (ps_users s)). Qed.
Lemma hostless_or_return {A : Type} (m : prog pstate A) e : yields P_ anything m → yields P_ anything (m else_return e).
Proof. intros Hm s Hs. specialize (Hm s Hs). unfold or_return. by destruct (m s). Qed.
Lemma hostless_on_kv c f : (∀ v, yields P_ anything (f v)) → yields P_ anything (on_kv c f).
Proof. intros Hf. eapply yields_bind; [apply hostless_steal_any|]. intros [v|] _; [apply Hf|by apply yields_ret]. Qed.
Lemma hostless_on_hosts c f : host_key (KSMBD_SHARE_CONF c) = true → yields P_ anything (on_kv c f).
Proof. intros Hc. eapply yields_bind; [apply hostless_steal|]. intros v Hv. rewrite (Hv Hc). by apply yields_ret. Qed.
Lemma hostless_assert b e : yields P_ anything (assert_ b e).
Proof. unfold assert_. destruct b; [by apply yields_ret|apply yields_fail]. Qed.
Lemma vfs_hostless l x : no_hosts x → no_hosts (foldl (λ x p, vfs_object p x) x l).
Proof. revert x. induction l as [|p l IH]; intros x Hx; cbn [foldl]; [done|]. apply IH. unfold vfs_object. by repeat case_match. Qed.
Ltac hostless_step :=
  match goal with
  | |- yields _ _ (on_kv CONF_HOSTS_ALLOW _) => by apply hostless_on_hosts
  | |- yields _ _ (on_kv CONF_HOSTS_DENY _) => by apply hostless_on_hosts
  | |- yields _ _ (on_kv _ _) => apply hostless_on_kv; intros ?
  | |- yields _ _ (Shares.group_kv_steal _) => apply hostless_steal_any
  | |- yields _ _ (upd_share _) => apply hostless_upd; intros ? ?; cbv beta; unfold read_only, ensure_map; repeat case_match; by try apply vfs_hostless
  | |- yields _ _ (p_users _) => apply hostless_users
  | |- yields _ _ (or_return _ _) => apply hostless_or_return
  | |- yields _ _ (assert_ _ _) => apply hostless_assert
  | |- _ => yields_step
  end.
Lemma process_hostless : yields P_ anything process_share_conf_kv.
Proof.
  unfold process_share_conf_kv, conf_kv_begin, conf_kv_mode, conf_kv_rest, flag_kv, mask_kv, users_kv, add_users_map, add_user_name, force_group, force_user.
  repeat hostless_step.
Qed.
Abbreviation S_ := hosts_free.
Lemma hosts_discard x : yields S_ anything (discard x).
Proof. apply hosts_users. Qed.
Lemma hosts_insert_new x : no_hosts x → yields S_ anything (insert_new_share x).
Proof.
  intros Hx. unfold insert_new_share. eapply yields_bind; [apply yields_get|]. intros s Hs. destruct (__shm_lookup_share _ _).
  - eapply yields_bind; [apply hosts_discard|]. intros. by apply yields_ret.
  - eapply yields_bind; [|intros; by apply yields_ret]. apply yields_modify. intros s' Hs'. by apply map_Forall_insert_2.
Qed.
Lemma hosts_add_share reload is_ipc g : hostless (g_kv g) → yields S_ anything (shm_add_new_share reload is_ipc g).
Proof.
  intros Hg s Hs. unfold shm_add_new_share. destruct (negb _); [done|].
  assert (no_hosts (new_ksmbd_share reload)) as Hnew by by destruct reload.
  unfold init_share_from_group. set (ps0 := mk_pstate _ _ _).
  assert (P_ ps0) as Hps by (split; [by destruct is_ipc|done]). pose proof (process_hostless ps0 Hps) as Hp.
  destruct process_share_conf_kv as [[] ps|e ps|]; [| |done].
  - destruct Hp as [[Hx _] _]. by apply hosts_insert_new.
  - eapply (yields_bind anything); [apply hosts_discard|intros; by apply yields_ret|done].
Qed.

Lemma hosts_remove_all : yields S_ anything shm_remove_all_shares.
Proof.
  unfold shm_remove_all_shares. eapply yields_bind; [apply yields_get|]. intros s Hs. apply yields_for_each. intros [name q].
  eapply yields_bind; [apply hosts_load|]. intros x Hx. eapply yields_bind; [by apply hosts_store|]. intros [] _.
  eapply yields_bind; [apply hosts_put|]. intros [] _. by apply yields_modify.
Qed.

(** *** The groups of a file *)
Lemma kv_insert_hostless k v kv :
  key_ok k = true → host_key (g_ascii_strdown k) = false ∨ v = [] → hostless kv → hostless (kv_insert (kv_line k v) kv).
Proof.
  intros Hk Hh Hkv. unfold kv_insert. rewrite key_line_split, key_rtrim by done.
  destruct (cp_smbconf_eol _) eqn:Ee; [done|]. destruct (kv_lookup _ _ _); [done|].
  apply map_Forall_insert_2; [|done]. destruct Hh as [Hh| ->]; [done|discriminate Ee].
Qed.
Lemma upd_hostless (f : kvs → kvs) groups (global : option bytes) :
  (∀ kv, hostless kv → hostless (f kv)) → hostless_groups groups →
  hostless_groups (map_imap (λ key g, Some (if decide (Some key = global) then g else upd_kv f g)) groups).
Proof.
  intros Hf Hg key g. rewrite map_lookup_imap. destruct (groups !! key) as [g'|] eqn:E; [|done]. cbn. intros [= <-].
  specialize (Hg _ _ E). destruct (decide _); [done|]. by apply Hf.
Qed.
Lemma key_value_hostless k v p :
  key_ok k = true → host_key (g_ascii_strdown k) = false → hostless_groups (pr_groups p) →
  hostless_groups (pr_groups (add_group_key_value (kv_line k v) p)).
Proof.
  intros Hk Hh Hp. unfold add_group_key_value. destruct (pr_current p) as [key|]; [|done]. cbn.
  intros key' g. destruct (decide (key' = key)) as [->|].
  - rewrite lookup_alter_eq. destruct (pr_groups p !! key) as [g'|] eqn:E; [|done]. cbn. intros [= <-].
    apply kv_insert_hostless; [done|by left|]. exact (Hp _ _ E).
  - rewrite lookup_alter_ne by done. apply Hp.
Qed.
Lemma add_group_hostless entry p : hostless_groups (pr_groups p) → hostless_groups (pr_groups (add_group entry p)).
Proof.
  intros Hp. unfold add_group. destruct (pr_groups p !! _); [done|].
  repeat case_match; cbn; apply map_Forall_insert_2; try done; apply map_Forall_empty.
Qed.
(** The options that are added to a group of the file, by their text *)
Definition plain_option (e : bytes) : bool :=
  match split_at 61 e with
  | Some (b, a) =>
      let k := take (length b - 1) b in
      bool_decide (e = kv_line k (drop 1 a)) && key_ok k && negb (host_key k) && forallb (λ c, negb ((65 <=? c) && (c <=? 90))) k
  | None => false
  end.
Lemma plain_options_hostless (l : list string) p :
  forallb (λ e, plain_option (str e)) l = true → hostless_groups (pr_groups p) →
  hostless_groups (pr_groups (foldl (λ p e, add_group_key_value (str e) p) p l)).
Proof.
  revert p. induction l as [|e l IH]; intros p Hl Hp; cbn [foldl]; [done|].
  cbn [forallb] in Hl. apply andb_true_iff in Hl as [He Hl]. apply IH; [done|]. unfold plain_option in He.
  destruct (split_at 61 (str e)) as [[b a]|]; [|done]. rewrite !andb_true_iff in He.
  destruct He as [[[->%bool_decide_eq_true Hk] Hh%negb_true_iff] Hlow]. apply key_value_hostless; [done| |done].
  by rewrite strdown_lower.
Qed.
Lemma global_group_hostless reload p :
  hostless_groups (pr_groups p) → hostless_groups (pr_groups (add_group_global_conf reload (add_group (str "[global]") p))).
Proof.
  intros Hp. unfold add_group_global_conf. destruct reload; [by apply add_group_hostless|].
  apply plain_options_hostless; [by vm_compute|by apply add_group_hostless].
Qed.
Lemma ipc_group_hostless p :
  hostless_groups (pr_groups p) → hostless_groups (pr_groups (add_group_ipc_share_conf (add_group (str "[ipc$]") p))).
Proof.
  intros Hp. apply (plain_options_hostless ["comment = IPC share"; "guest ok = yes"]%string); [by vm_compute|by apply add_group_hostless].
Qed.
(** The global options leave the table that the shares inherit from. *)
Lemma on_gkv_hostless reload lookup f : yields (λ s, hostless (gs_kv s)) anything (on_gkv reload lookup f).
Proof.
  intros s Hs. unfold on_gkv, Config.group_kv_steal, cp_group_kv_steal, bind.
  destruct reload; [split; [by apply hostless_delete|done]|].
  destruct (kv_lookup _ _ _); (split; [by apply hostless_delete|done]).
Qed.
Lemma guest_hostless (m : prog ustate unit) e : yields (λ s, hostless (gs_kv s)) anything (zoom gs_users set_gs_users m else_return e).
Proof. intros s Hs. unfold or_return, zoom. by destruct (m (gs_users s)). Qed.
Lemma global_conf_hostless reload : yields (λ s, hostless (gs_kv s)) anything (process_global_conf_kv reload).
Proof.
  unfold process_global_conf_kv, global_kv_begin, global_kv_limits, global_kv_smb, global_kv_optional,
    gstr_kv, gint_kv, gbool_kv, gflag_kv, glimit_kv.
  repeat first [apply on_gkv_hostless | apply guest_hostless | yields_step].
Qed.
(** What a share inherits *)
Lemma inherit_hostless c gkv groups global :
  hostless gkv → hostless_groups groups →
  hostless (inherit_conf c gkv groups global).1 ∧ hostless_groups (inherit_conf c gkv groups global).2.
Proof.
  intros Hg Hgs. unfold inherit_conf. destruct (KSMBD_SHARE_CONF_IS_BROKEN c); [done|].
  assert (∀ k v, key_ok k = true → host_key (g_ascii_strdown k) = false ∨ v = [] → hostless_groups
    (map_imap (λ key g, Some (if decide (Some key = global) then g else upd_kv (kv_insert (k ++ str " = " ++ v)) g)) groups)) as Hins.
  { intros k v Hk Hh. apply upd_hostless; [|done]. intros kv Hkv. by apply kv_insert_hostless. }
  assert (hostless_groups (map_imap (λ key g, Some (if decide (Some key = global) then g
     else upd_kv (kv_insert (KSMBD_SHARE_CONF c ++ str " = " ++ KSMBD_SHARE_DEFCONF c)) g)) groups)) as Hdef.
  { apply Hins; [by destruct c|]. rewrite strdown_conf. destruct c; first [by left | by right]. }
  destruct (KSMBD_SHARE_CONF_IS_GLOBAL c); cbn [fst snd default]; [done|].
  destruct (gkv !! g_ascii_strdown (KSMBD_SHARE_CONF c)) as [[k v]|] eqn:E; cbn [default fst snd].
  - split; [by apply hostless_delete|]. destruct (Hg _ _ E) as (E1 & Hk & Hh). cbn in E1, Hk. apply Hins; [done|]. left. by rewrite <-E1.
  - split; [by apply hostless_delete|exact Hdef].
Qed.
Lemma steal_hostless gkv groups global :
  hostless gkv → hostless_groups groups → hostless_groups (steal_global_share_conf_kv gkv groups global).2.
Proof.
  unfold steal_global_share_conf_kv. generalize share_confs as l. intros l. revert gkv groups.
  induction l as [|c l IH]; intros gkv groups Hg Hgs; cbn [foldl]; [done|].
  destruct (inherit_hostless c gkv groups global Hg Hgs) as [H1' H2']. destruct (inherit_conf c gkv groups global). by apply IH.
Qed.

(** *** Loading *)
Variable group_order : gmap bytes smbconf_group → list (bytes * smbconf_group).
Hypothesis group_order_perm : ∀ t, group_order t ≡ₚ map_to_list t.
Abbreviation C_ := (λ s, hosts_free (cs_shares s)).
Lemma add_shares_hostless reload p l code :
  Forall (λ x, hostless (g_kv x.2)) l → yields C_ anything (add_shares reload p l code).
Proof.
  intros Hl. revert code. induction Hl as [|[key g] l Hg _ IH]; intros code; cbn [add_shares]; [by apply yields_ret|].
  destruct (decide _); [apply IH|]. eapply yields_bind; [|intros r _; apply IH]. eapply yields_zoom; [..|by apply hosts_add_share]; done.
Qed.
Lemma finalize_hostless reload p :
  hostless_groups (pr_groups p) → yields C_ anything (finalize_smbconf_parser reload group_order p).
Proof.
  intros Hp. unfold finalize_smbconf_parser. set (p1 := add_group_global_conf _ _).
  assert (hostless_groups (pr_groups p1)) as Hp1 by by apply global_group_hostless.
  destruct (pr_global p1 ≫= λ key, pr_groups p1 !! key) as [global|] eqn:Eg; [|apply yields_fault].
  destruct (pr_global p1) as [gk|]; [|done]. cbn in Eg. pose proof (Hp1 _ _ Eg) as Hg.
  eapply yields_bind; [apply yields_get|]. intros s Hs.
  pose proof (global_conf_hostless reload (mk_gstate (ss_users (cs_shares s)) (g_kv global) (cs_conf s)) Hg) as Hk.
  destruct process_global_conf_kv as [[] g|e g|]; [| |apply yields_fault].
  - eapply yields_bind; [by apply yields_modify|]. intros [] _. destruct Hk as [Hk _].
    pose proof (steal_hostless (gs_kv g) (pr_groups (add_group_ipc_share_conf (add_group (str "[ipc$]") p1)))
      (pr_global (add_group_ipc_share_conf (add_group (str "[ipc$]") p1))) Hk (ipc_group_hostless p1 Hp1)) as Hst.
    destruct (steal_global_share_conf_kv _ _ _) as [gkv groups]. apply add_shares_hostless.
    rewrite group_order_perm. apply Forall_forall. intros [key x] Hin%elem_of_map_to_list. exact (Hst _ _ Hin).
  - eapply yields_bind; [by apply yields_modify|]. intros [] _. by apply yields_ret.
Qed.
(** A file that does not use the two options, in any of its groups *)
Definition no_host_options (p : smbconf_parser) : Prop :=
  map_Forall (λ _ g, map_Forall (λ fk _, host_key fk = false) (g_kv g)) (pr_groups p).
Definition file_hostless (file : Z + bytes) : Prop :=
  match __mmap_parse_file process_smbconf_entry false file new_parser with
  | Done _ p | Err _ p => no_host_options p
  | Fault => True
  end.
Hypothesis keys_differ : gkey ≠ ikey.
Lemma no_host_options_groups p : parser_ok p → no_host_options p → hostless_groups (pr_groups p).
Proof.
  intros Hp Hn key g Hg fk [k v] Hkv. destruct (go_kv _ _ (po_groups _ Hp _ _ Hg) _ _ _ Hkv) as (-> & Hk & _).
  split_and!; [done|done|]. exact (Hn _ _ Hg _ _ Hkv).
Qed.
(** The daemon reads the file into a parser of its own. *)
Lemma load_hostless reload tool set_conf_contents file created :
  file_fits file → file_hostless file →
  yields C_ anything (cp_parse_smbconf reload group_order tool set_conf_contents None file created).
Proof.
  intros Hf Hh. unfold cp_parse_smbconf. eapply (yields_bind anything); [|intros; by apply yields_ret].
  intros s Hs. unfold cp_parse_smbconf_owner. unfold file_hostless in Hh.
  pose proof (parse_file_wp keys_differ file new_parser Hf new_parser_ok) as Hw. unfold wp in Hw.
  destruct __mmap_parse_file as [[] p|e p|]; [| |done].
  - apply finalize_hostless; [by apply no_host_options_groups|done].
  - destruct (_ =? 0); [|done]. apply finalize_hostless; [by apply no_host_options_groups|done].
Qed.
End Hostless.
