(* ===== verification/Worker.v ===== *)
(** * The worker ([src/mountd/worker.c])

    A message of the kernel server is an array of octets behind a type; the
    worker finds the fields of the request in it, calls the component that
    answers, and sends the response.  Here the components meet: the sessions
    (with the shares and the users) and the table of pipes are one state. *)

From S2P Require Import Prelude ConfText Refcount Asn1 Spnego Users Shares Ipc Sessions Ndr Rpc Srvsvc Frame.

(** ** Data *)

(** [struct ksmbd_spnego_auth_out] *)
Record auth_out := mk_auth { ao_spnego_blob : bytes; ao_sess_key : bytes; ao_user_name : option bytes }.

(** The messages that are sent, by their types. *)
Inductive reply :=
  | LoginResponse (handle : Z) (r : login_response)
  | LoginResponseExt (handle : Z) (groups : list Z)
  | SpnegoResponse (handle : Z) (r : login_response) (sess_key spnego_blob : bytes)
  | TreeConnectResponse (handle : Z) (r : tree_connect_response)
  | ShareConfigResponse (handle : Z) (r : share_config_response)
  | RpcResponse (handle xid flags : Z) (payload : bytes).

Record daemon := mk_daemon {
  dm_world : wstate; dm_services : services; dm_pipes : gmap Z (option pipe); dm_sent : list reply;
}.
Definition on_world {T : Type} : prog wstate T → prog daemon T :=
  zoom dm_world (λ w d, mk_daemon w (dm_services d) (dm_pipes d) (dm_sent d)).
Definition on_server {T : Type} : prog server T → prog daemon T :=
  zoom (λ d, mk_server (ws_shares (dm_world d)) (dm_services d) (dm_pipes d))
    (λ s d, mk_daemon (set_ws_shares (sv_shares s) (dm_world d)) (sv_services s) (sv_pipes s) (dm_sent d)).
Definition send (r : reply) : prog daemon unit :=
  modify (λ d, mk_daemon (dm_world d) (dm_services d) (dm_pipes d) (dm_sent d ++ [r])).

(** ** Constants *)
Definition USHRT_MAX : Z := 65535.
(** The methods of [req->flags]; four of them contain the bit of
    [KSMBD_RPC_METHOD_RETURN]. *)
Definition KSMBD_RPC_IOCTL_METHOD : Z := Z.lor (BIT 3) KSMBD_RPC_METHOD_RETURN.
Definition KSMBD_RPC_OPEN_METHOD : Z := BIT 4.
Definition KSMBD_RPC_WRITE_METHOD : Z := BIT 5.
Definition KSMBD_RPC_READ_METHOD : Z := Z.lor (BIT 6) KSMBD_RPC_METHOD_RETURN.
Definition KSMBD_RPC_CLOSE_METHOD : Z := BIT 7.
Definition KSMBD_RPC_RAP_METHOD : Z := Z.lor (BIT 8) KSMBD_RPC_METHOD_RETURN.
Definition KSMBD_RPC_QUERY_METHOD : Z := Z.lor (BIT 12) KSMBD_RPC_METHOD_RETURN.

(** ** Fields *)

(** [n] octets of the message at [off], read inside of its block only. *)
Definition octets (m : ipc_msg) (off n : Z) : bytes :=
  mem_read (Z.to_nat off) (Z.to_nat n) (im_payload m ++ [0]).
Definition field (m : ipc_msg) (off n : Z) : Z := le_val (octets m off n).
Definition read_octets (m : ipc_msg) (off n : Z) : prog daemon bytes :=
  if off + n <=? im_sz m + 1 then ret (octets m off n) else fault.
Definition read_uint (m : ipc_msg) (off n : Z) : prog daemon Z := b <- read_octets m off n ;; ret (le_val b).
(** What [strnlen(s, max_len)] looks at for [s] at [off]: up to the first NUL,
    and not out of the block. *)
Definition read_name (m : ipc_msg) (off max_len : Z) : prog daemon bytes :=
  let rest := drop (Z.to_nat off) (im_payload m ++ [0]) in
  if (Z.of_nat (length rest) <? max_len) && (Z.of_nat (length rest) <=? Z.of_nat (length (cstr rest)))
  then fault else ret (take (Z.to_nat max_len) rest).
Definition ipc_string_terminated (s : bytes) (max_len : Z) : bool := strnlen s max_len <? max_len.

Section Worker.
Context `{GLib, System, Allocator, Interfaces}.
(** [global_conf] *)
Variable map_to_guest : Z.
Variable guest_account : option bytes.
Variable restrict_anon : Z.
Variable root_dir : option bytes.
(** The authentication mechanism, and the word of the stack where the flags of
    the login request lie that [spnego_authen_request] builds. *)
Variable handle_authen : Z → bytes → option auth_out.
Variable stack_flags : Z.

(** ** Logins *)
Definition read_login_request (m : ipc_msg) : prog daemon login_request :=
  account <- read_octets m 4 KSMBD_REQ_MAX_ACCOUNT_NAME_SZ ;;
  flags <- read_uint m 260 4 ;;
  ret (mk_login_request account flags).
Definition login (req : login_request) : prog daemon login_response :=
  r <- on_world (w_users (usm_handle_login_request map_to_guest guest_account req blank_login_response)) ;; ret r.2.
Definition login_request (m : ipc_msg) : prog daemon unit :=
  if negb (ipc_msg_alloc sizeof_login_response) then ret tt
  else
    r <- (if sizeof_login_request <=? im_sz m
          then req <- read_login_request m ;; login req
          else ret blank_login_response) ;;
    handle <- read_uint m 0 4 ;;
    send (LoginResponse handle r).
(** The groups of the account are counted before the size of the message is
    looked at. *)
Definition login_response_payload_sz (account : bytes) : prog ustate Z :=
  if negb (ipc_string_terminated account KSMBD_REQ_MAX_ACCOUNT_NAME_SZ) then ret 0
  else if bool_decide (cstr account = []) then ret 0
  else
    user <- usm_lookup_user (Some (cstr account)) ;;
    match user with
    | None => ret 0
    | Some p => u <- uload p ;; put_ksmbd_user (Some p) ;; ret (4 * Z.of_nat (length (u_sgid u)))
    end.
(** The groups are stored behind the response: writing more than was allocated
    for is a fault. *)
Definition login_request_ext (m : ipc_msg) : prog daemon unit :=
  account <- read_name m 4 KSMBD_REQ_MAX_ACCOUNT_NAME_SZ ;;
  payload_sz <- on_world (w_users (login_response_payload_sz account)) ;;
  if negb (ipc_msg_alloc (sizeof_login_response_ext + payload_sz)) then ret tt
  else
    groups <- (if sizeof_login_request <=? im_sz m
               then req <- read_login_request m ;; r <- on_world (w_users (usm_handle_login_request_ext req)) ;; ret r.2
               else ret []) ;;
    (if payload_sz + 1 <? 4 * Z.of_nat (length groups) then fault else ret tt) ;;
    handle <- read_uint m 0 4 ;;
    send (LoginResponseExt handle groups).
Definition logout_request (m : ipc_msg) : prog daemon unit :=
  if im_sz m <? sizeof_logout_request then ret tt
  else
    account <- read_octets m 0 KSMBD_REQ_MAX_ACCOUNT_NAME_SZ ;;
    flags <- read_uint m 256 4 ;;
    ignore (on_world (w_users (usm_handle_logout_request (mk_logout_request account flags)))).

(** [g_strlcpy] into the account of the login request on the stack. *)
Definition login_account (name : bytes) : bytes :=
  g_strlcpy (replicate (Z.to_nat KSMBD_REQ_MAX_ACCOUNT_NAME_SZ) 0) name.
Definition spnego_authen_request (m : ipc_msg) : prog daemon unit :=
  if negb (ipc_msg_alloc sizeof_spnego_authen_response) then ret tt
  else
    handle <- read_uint m 0 4 ;;
    let refuse := send (SpnegoResponse handle blank_login_response [] []) in
    if im_sz m <? sizeof_spnego_authen_request then refuse
    else
      blob_len <- read_uint m 4 2 ;;
      if im_sz m - sizeof_spnego_authen_request <? blob_len then refuse
      else
        blob <- read_octets m 6 blob_len ;;
        match spnego_handle_authen_request g_try_malloc handle_authen blob with
        | Fault => fault
        | Err _ _ => refuse
        | Done out _ =>
            let key_len := Z.of_nat (length (ao_sess_key out)) in
            let blob_len := Z.of_nat (length (ao_spnego_blob out)) in
            if (USHRT_MAX <? key_len) || (USHRT_MAX <? blob_len) then refuse
            else if negb (ipc_msg_alloc (sizeof_spnego_authen_response + key_len + blob_len)) then refuse
            else match ao_user_name out with
            | None => refuse
            | Some name =>
                r <- login (mk_login_request (login_account name) stack_flags) ;;
                if test_flag (lr_status r) KSMBD_USER_FLAG_OK
                then send (SpnegoResponse handle r (ao_sess_key out) (ao_spnego_blob out))
                else send (SpnegoResponse handle r [] [])
            end
        end.

(** ** Connections and shares *)
Definition read_tree_connect (m : ipc_msg) : prog daemon Sessions.tree_connect_request :=
  account_flags <- read_uint m 4 2 ;;
  session_id <- read_uint m 8 8 ;;
  connect_id <- read_uint m 16 8 ;;
  account <- read_octets m 24 KSMBD_REQ_MAX_ACCOUNT_NAME_SZ ;;
  share <- read_octets m 280 KSMBD_REQ_MAX_SHARE_NAME ;;
  peer_addr <- read_octets m 344 sizeof_peer_addr ;;
  ret (mk_treq account_flags session_id connect_id account share peer_addr).
Definition tree_connect_request (m : ipc_msg) : prog daemon unit :=
  if negb (ipc_msg_alloc sizeof_tree_connect_response) then ret tt
  else
    resp <- (if sizeof_tree_connect_request <=? im_sz m
             then
               req <- read_tree_connect m ;;
               r <- on_world (tcm_handle_tree_connect map_to_guest guest_account restrict_anon req) ;;
               ret r.2
             else ret (mk_tresp KSMBD_TREE_CONN_STATUS_ERROR 0)) ;;
    handle <- read_uint m 0 4 ;;
    send (TreeConnectResponse handle resp).
Definition tree_disconnect_request (m : ipc_msg) : prog daemon unit :=
  if im_sz m <? sizeof_tree_disconnect_request then ret tt
  else
    session_id <- read_uint m 0 8 ;;
    connect_id <- read_uint m 8 8 ;;
    ignore (on_world (tcm_handle_tree_disconnect session_id connect_id)).
Definition heartbeat_request (m : ipc_msg) : prog daemon unit := ret tt.

Definition blank_share_config (payload_sz : Z) : share_config_response :=
  mk_scr 0 0 0 0 0 0 0 (replicate (Z.to_nat KSMBD_REQ_MAX_SHARE_NAME) 0) 0 0 (replicate (Z.to_nat payload_sz) 0).
(** The response of a share, without flags and veto list when it is in error. *)
Definition share_config (x : share) (payload_sz : Z) : prog daemon share_config_response :=
  match shm_handle_share_config_request root_dir (Some x) (blank_share_config payload_sz) with
  | Done r resp =>
      ret (if r =? 0 then resp
           else mk_scr KSMBD_SHARE_FLAG_INVALID (sc_create_mask resp) (sc_directory_mask resp)
                  (sc_force_create_mode resp) (sc_force_directory_mode resp) (sc_force_uid resp)
                  (sc_force_gid resp) (sc_share_name resp) (sc_time_machine_max_size resp) 0 (sc_payload resp))
  | Err _ _ | Fault => fault
  end.
(** The share of the request with the size of its payload; a share with an
    impossible size is given back. *)
Definition find_share (m : ipc_msg) : prog daemon (option Z * Z) :=
  name <- read_octets m 4 KSMBD_REQ_MAX_SHARE_NAME ;;
  if negb (ipc_string_terminated name KSMBD_REQ_MAX_SHARE_NAME) then ret (None, 0)
  else
    share <- on_world (on_shares (shm_lookup_share (cstr name))) ;;
    match share with
    | None => ret (None, 0)
    | Some p =>
        x <- on_world (on_shares (sload p)) ;;
        let payload_sz := shm_share_config_payload_size root_dir (Some x) in
        if payload_sz <? 0 then on_world (on_shares (put_ksmbd_share share)) ;; ret (None, 0)
        else ret (share, payload_sz)
    end.
Definition share_config_request (m : ipc_msg) : prog daemon unit :=
  let valid_req := sizeof_share_config_request <=? im_sz m in
  handle <- (if valid_req then read_uint m 0 4 else ret 0) ;;
  let* (share, payload_sz) := (if valid_req then find_share m else ret (None, 0)) in
  (if negb (ipc_msg_alloc (sizeof_share_config_response + payload_sz)) then ret tt
   else
     resp <- match share with
             | None => ret (blank_share_config payload_sz)
             | Some p => x <- on_world (on_shares (sload p)) ;; share_config x payload_sz
             end ;;
     send (ShareConfigResponse handle resp)) ;;
  on_world (on_shares (put_ksmbd_share share)).

(** ** Pipes *)

(** The answer that is in the response: [payload_sz] octets; an answer longer
    than the room behind the header was written over the end of the block. *)
Definition pipe_answer (resp_sz handle : Z) : prog server bytes :=
  s <- get ;;
  match sv_pipes s !! handle with
  | Some (Some p) =>
      let payload_sz := d_resp_payload_sz (p_dce p) in
      if resp_sz + 1 <? sizeof_rpc_command + payload_sz then fault
      else ret (take (Z.to_nat payload_sz) (dce_payload (d_ndr (p_dce p))))
  | _ => ret []
  end.
(** The chain of tests on [req->flags]: the code and the payload of the
    answer.  [RAP] is compared, all other methods are tested bit by bit. *)
Definition rpc_method (req : command) (resp_sz : Z) : prog server (Z * bytes) :=
  let flags := rc_flags req in
  let plain (m : prog server Z) := code <- m ;; ret (code, []) in
  let answered (m : prog server Z) := code <- m ;; b <- pipe_answer resp_sz (rc_handle req) ;; ret (code, b) in
  if Z.land flags KSMBD_RPC_RAP_METHOD =? KSMBD_RPC_RAP_METHOD then ret (KSMBD_RPC_ENOTIMPLEMENTED, [])
  else if test_flag flags KSMBD_RPC_OPEN_METHOD then plain (rpc_open_request req)
  else if test_flag flags KSMBD_RPC_CLOSE_METHOD then plain (rpc_close_request req)
  else if test_flag flags KSMBD_RPC_QUERY_METHOD then
    r <- rpc_state_request req resp_sz ;; ret (r.1, concat (le_bytes 4 <$> r.2))
  else if test_flag flags KSMBD_RPC_IOCTL_METHOD then answered (rpc_ioctl_request req resp_sz)
  else if test_flag flags KSMBD_RPC_WRITE_METHOD then plain (rpc_write_request req)
  else if test_flag flags KSMBD_RPC_READ_METHOD then answered (rpc_read_request req resp_sz)
  else ret (KSMBD_RPC_ENOTIMPLEMENTED, []).
Definition rpc_request (m : ipc_msg) : prog daemon unit :=
  if im_sz m <? sizeof_rpc_command then ret tt
  else
    handle <- read_uint m 0 4 ;;
    xid <- read_uint m 4 4 ;;
    flags <- read_uint m 8 4 ;;
    payload_sz <- read_uint m 12 4 ;;
    if im_sz m - sizeof_rpc_command <? payload_sz then ret tt
    else
      payload <- read_octets m 16 payload_sz ;;
      let resp_sz := if test_flag flags KSMBD_RPC_METHOD_RETURN
                     then KSMBD_IPC_MAX_MESSAGE_SIZE - sizeof_rpc_command else sizeof_rpc_command in
      if negb (ipc_msg_alloc resp_sz) then ret tt
      else
        r <- on_server (rpc_method (mk_command handle flags payload) resp_sz) ;;
        send (RpcResponse handle xid (u32 r.1) r.2).

Definition worker_pool_fn (m : ipc_msg) : prog daemon unit :=
  let type := im_type m in
  if type =? KSMBD_EVENT_LOGIN_REQUEST then login_request m
  else if type =? KSMBD_EVENT_TREE_CONNECT_REQUEST then tree_connect_request m
  else if type =? KSMBD_EVENT_TREE_DISCONNECT_REQUEST then tree_disconnect_request m
  else if type =? KSMBD_EVENT_LOGOUT_REQUEST then logout_request m
  else if type =? KSMBD_EVENT_SHARE_CONFIG_REQUEST then share_config_request m
  else if type =? KSMBD_EVENT_RPC_REQUEST then rpc_request m
  else if type =? KSMBD_EVENT_HEARTBEAT_REQUEST then heartbeat_request m
  else if type =? KSMBD_EVENT_SPNEGO_AUTHEN_REQUEST then spnego_authen_request m
  else if type =? KSMBD_EVENT_LOGIN_REQUEST_EXT then login_request_ext m
  else ret tt.
End Worker.

(** ** The state of the daemon *)
Section Messages.
Context `{GLib, System, Allocator, Interfaces} (i : interface) `{!Lawful i}.
Hypothesis hash_order_perm : ∀ t, hash_order t ≡ₚ map_to_list t.
Hypothesis small_requests : ∀ n, n ≤ 255 * dcerpc_context_sz → g_try_malloc n = true.

Lemma session_memory : g_try_malloc sizeof_ksmbd_session = true.
Proof. apply small_requests. apply (bool_decide_unpack _). by vm_compute. Qed.

(** The references to shares that the pipes hold, and those in [l]. *)
Definition held_shares (d : daemon) (l : list Z) (q : Z) : Z :=
  count q (heap_refs pipe_refs (dm_pipes d)) + count q l.
(** Every count is the number of references, those held and some that were
    lost ([ul] to users, [sl] to shares): a session that is connected to again
    does not put its user, and a pipe that is freed does not put its shares. *)
Definition sessions_lost (sh : Z → Z) (w : wstate) : Prop :=
  ∃ ul sl, sessions_ok (λ q, count q ul) (λ q, sh q + count q sl) w.
Lemma sessions_lost_users uh sl lost sh w :
  sessions_ok (λ q, count q uh + count q lost) (λ q, sh q + count q sl) w → sessions_lost sh w.
Proof. intros Hok. exists (uh ++ lost), sl. eapply sessions_ok_ext; [|done|exact Hok]. counts. Qed.
(** Sessions, users and shares count each other, the shares also the entries of
    the pipes and [l]; each pipe is between two requests, and no share
    restricts hosts; [sent] was sent. *)
Record holding (l : list Z) (sent : list reply) (d : daemon) : Prop := {
  ho_world : sessions_lost (held_shares d l) (dm_world d);
  ho_pipes : map_Forall (λ _ o, ∃ p, o = Some p ∧ pipe_between i p) (dm_pipes d);
  ho_hosts : hosts_free (ws_shares (dm_world d));
  ho_sent : dm_sent d = sent;
}.

Lemma on_world_wp {T : Type} l sent (l' : T → list Z) (Q : T → wstate → Prop) (E : Z → Prop) (m : prog wstate T) d :
  holding l sent d → yields (λ w, hosts_free (ws_shares w)) anything m →
  wp m (dm_world d) (λ a w', sessions_lost (held_shares d (l' a)) w' ∧ Q a w')
    (λ e w', sessions_lost (held_shares d l) w' ∧ E e) →
  wp (on_world m) d (λ a d', holding (l' a) sent d' ∧ Q a (dm_world d')) (λ e d', holding l sent d' ∧ E e).
Proof.
  intros [Hw Hp Hh Hse] Hm Hwp. apply wp_zoom. eapply wp_mono; [by eapply (yields_wp _ _ _ _ _ Hm)|cbv beta..].
  - by intros a w' [[Hs HQ] Hf].
  - by intros e w' [[Hs He] Hf].
Qed.
(** ... of which the result is not looked at. *)
Lemma on_world_keeps {T : Type} l sent (m : prog wstate T) d :
  holding l sent d → yields (λ w, hosts_free (ws_shares w)) anything m →
  (∀ uh sh, sessions_ok uh sh (dm_world d) →
     wp m (dm_world d) (λ _ w', ∃ lost, sessions_ok (λ q, uh q + count q lost) sh w') (λ _ _, False)) →
  wp (on_world m) d (λ _ d', holding l sent d') (λ _ _, False).
Proof.
  intros Hd Hy Hm. eapply wp_mono; [apply (on_world_wp l sent (λ _, l) (λ _ _, True) (λ _, False) m d Hd Hy)|..].
  - destruct (ho_world _ _ _ Hd) as (ul & sl & Hok). wp_by (by apply Hm); [|done].
    intros a w' [lost Hok']. split; [|done]. by eapply sessions_lost_users.
  - by intros a d' [].
  - by intros e d' [].
Qed.
(** A program on the users that leaves them as they were. *)
Lemma on_users_wp {T : Type} l sent (m : prog ustate T) d :
  holding l sent d →
  (∀ held u, users_ok held u → wp m u (λ _ u', users_ok held u') (λ _ u', users_ok held u')) →
  wp (on_world (w_users m)) d (λ _ d', holding l sent d') (λ _ d', holding l sent d').
Proof.
  intros Hd Hm. destruct (ho_world _ _ _ Hd) as (ul & sl & Hok).
  eapply wp_mono; [apply (on_world_wp l sent (λ _, l) (λ _ _, True) (λ _, True) _ _ Hd); [apply hosts_w_users|];
    (wp_by (apply w_users_wp; [exact Hm|exact Hok])); intros ? w' Hw'; (split; [by exists ul, sl|done])|by intros a d' []..].
Qed.
Lemma on_users_run {T : Type} l sent (m : prog ustate T) (P : ustate → T → Prop) d (Q : T → daemon → Prop) E :
  holding l sent d → (∀ held u, users_ok held u → ∃ r, m u = Done r u ∧ P u r) →
  (∀ r, P (ss_users (ws_shares (dm_world d))) r → Q r d) → wp (on_world (w_users m)) d Q E.
Proof.
  intros [(ul & sl & [[[Hu _ _] _ _] _ _ _]) _ _ _] Hm HQ. unfold on_world, w_users. do 3 apply wp_zoom.
  destruct (Hm _ _ Hu) as (r & Hr & HP). eapply wp_run; [done|]. destruct d as [[[] ? ? ? ?] ? ?]. by apply HQ.
Qed.
Lemma on_users_exact {T : Type} l sent (m : prog ustate T) (r : ustate → T) d (Q : T → daemon → Prop) E :
  holding l sent d → (∀ held u, users_ok held u → m u = Done (r u) u) →
  Q (r (ss_users (ws_shares (dm_world d)))) d → wp (on_world (w_users m)) d Q E.
Proof.
  intros Hd Hm HQ. apply (on_users_run l sent m (λ u a, a = r u) _ _ _ Hd); [|by intros ? ->].
  intros held u Hu. eexists. split; [by eapply Hm|done].
Qed.
Lemma wp_send l sent r d (Q : unit → daemon → Prop) E :
  holding l sent d → (∀ d', holding l (sent ++ [r]) d' → Q tt d') → wp (send r) d Q E.
Proof. intros [? ? ? <-] HQ. apply wp_modify, HQ. by split. Qed.
Lemma wp_read_octets m off n d (Q : bytes → daemon → Prop) E :
  off + n ≤ im_sz m + 1 → Q (octets m off n) d → wp (read_octets m off n) d Q E.
Proof. intros Ho HQ. unfold read_octets. by rewrite (proj2 (Z.leb_le _ _) Ho). Qed.
Lemma wp_read_uint m off n d (Q : Z → daemon → Prop) E :
  off + n ≤ im_sz m + 1 → Q (field m off n) d → wp (read_uint m off n) d Q E.
Proof. intros Ho HQ. unfold read_uint. wp_step. by apply wp_read_octets. Qed.

(** *** Logins *)
Variable map_to_guest : Z.
Variable guest_account : option bytes.
Variable restrict_anon : Z.
Variable root_dir : option bytes.
Variable handle_authen : Z → bytes → option auth_out.
Variable stack_flags : Z.
Hypothesis map_to_guest_valid :
  map_to_guest = KSMBD_CONF_MAP_TO_GUEST_NEVER ∨ map_to_guest = KSMBD_CONF_MAP_TO_GUEST_BAD_USER.
(** A field of a message that is long enough; [reads] goes over such fields. *)
Ltac in_block := unfold sizeof_login_request, sizeof_logout_request, sizeof_tree_connect_request,
  sizeof_tree_disconnect_request, sizeof_share_config_request, sizeof_rpc_command, sizeof_spnego_authen_request,
  sizeof_peer_addr, KSMBD_REQ_MAX_ACCOUNT_NAME_SZ, KSMBD_REQ_MAX_SHARE_NAME in *; lia.
Ltac reads := repeat match goal with
  | |- wp (read_uint _ _ _) _ _ _ => apply wp_read_uint; [in_block|]
  | |- wp (read_octets _ _ _) _ _ _ => apply wp_read_octets; [in_block|]
  | |- wp (ret _) _ _ _ => apply wp_ret
  | |- wp (bind _ _) _ _ _ => apply wp_bind
  end.

Lemma login_wp l sent req d (Q : login_response → daemon → Prop) E :
  holding l sent d → (∀ r, Q r d) → wp (login map_to_guest guest_account req) d Q E.
Proof.
  intros Hd HQ. unfold login. wp_step. eapply on_users_exact; [done| |].
  - intros held u Hu. by apply (login_request_exact map_to_guest guest_account held).
  - by wp_step.
Qed.

(** *** Answers *)
Definition reply_handle (r : reply) : Z :=
  match r with
  | LoginResponse h _ | LoginResponseExt h _ | SpnegoResponse h _ _ _ | TreeConnectResponse h _
  | ShareConfigResponse h _ | RpcResponse h _ _ _ => h
  end.
Definition reply_type (r : reply) : Z :=
  match r with
  | LoginResponse _ _ => KSMBD_EVENT_LOGIN_RESPONSE
  | LoginResponseExt _ _ => KSMBD_EVENT_LOGIN_RESPONSE_EXT
  | SpnegoResponse _ _ _ _ => KSMBD_EVENT_SPNEGO_AUTHEN_RESPONSE
  | TreeConnectResponse _ _ => KSMBD_EVENT_TREE_CONNECT_RESPONSE
  | ShareConfigResponse _ _ => KSMBD_EVENT_SHARE_CONFIG_RESPONSE
  | RpcResponse _ _ _ _ => KSMBD_EVENT_RPC_RESPONSE
  end.
(** What a payload may have beside a structure of [n] octets. *)
Definition room (n : Z) : Z := KSMBD_IPC_MAX_MESSAGE_SIZE - sizeof_ipc_msg - 1 - n.
(** The messages that have to be answered: memory given, a login, a tree
    connect and an authentication always, the others when the answer fits. *)
Definition must_answer (m : ipc_msg) (d : daemon) : Prop :=
  (∀ n, g_try_malloc n = true) ∧
  (im_type m = KSMBD_EVENT_LOGIN_REQUEST ∨ im_type m = KSMBD_EVENT_TREE_CONNECT_REQUEST ∨
   im_type m = KSMBD_EVENT_SPNEGO_AUTHEN_REQUEST ∨
   (im_type m = KSMBD_EVENT_SHARE_CONFIG_REQUEST ∧
    map_Forall (λ _ x, shm_share_config_payload_size root_dir (Some x) ≤ room sizeof_share_config_response)
      (ss_heap (ws_shares (dm_world d)))) ∨
   (im_type m = KSMBD_EVENT_LOGIN_REQUEST_EXT ∧
    map_Forall (λ _ u, 4 * Z.of_nat (length (u_sgid u)) ≤ room sizeof_login_response_ext)
      (us_heap (ss_users (ws_shares (dm_world d))))) ∨
   (im_type m = KSMBD_EVENT_RPC_REQUEST ∧ field m 12 4 ≤ im_sz m - sizeof_rpc_command)).
(** Nothing was sent, and nothing had to be, or one answer: it has the handle of
    the request and the type after its type. *)
Definition settled (m : ipc_msg) (d : daemon) (d' : daemon) : Prop :=
  (holding [] (dm_sent d) d' ∧ ¬ must_answer m d) ∨
  ∃ r, holding [] (dm_sent d ++ [r]) d' ∧ reply_handle r = field m 0 4 ∧ reply_type r = im_type m + 1.

Lemma alloc_fits n : (∀ n, g_try_malloc n = true) → 0 ≤ n ≤ room 0 → ipc_msg_alloc n = true.
Proof.
  intros Hm Hn. unfold ipc_msg_alloc, room, SIZE_MAX, sizeof_ipc_msg, KSMBD_IPC_MAX_MESSAGE_SIZE in *.
  rewrite !(proj2 (Z.ltb_ge _ _)) by lia. apply Hm.
Qed.
(** No memory for an answer that fits. *)
Lemma settled_full m d d' n :
  holding [] (dm_sent d) d' → (must_answer m d → 0 ≤ n ≤ room 0) → negb (ipc_msg_alloc n) = true → settled m d d'.
Proof. intros Hd Hn Ha. left. split; [done|]. intros Hm. rewrite alloc_fits in Ha; [done|apply Hm|auto]. Qed.
(** ... of a fixed size *)
Ltac no_memory := eapply settled_full; [done| |eassumption]; intros _; apply (bool_decide_unpack _); by vm_compute.
(** A message that is not answered. *)
Definition unanswered (m : ipc_msg) : Prop :=
  im_type m ∉ [KSMBD_EVENT_LOGIN_REQUEST; KSMBD_EVENT_TREE_CONNECT_REQUEST; KSMBD_EVENT_SPNEGO_AUTHEN_REQUEST;
               KSMBD_EVENT_SHARE_CONFIG_REQUEST; KSMBD_EVENT_LOGIN_REQUEST_EXT; KSMBD_EVENT_RPC_REQUEST].
Lemma settled_silent m d d' : unanswered m → holding [] (dm_sent d) d' → settled m d d'.
Proof. intros Hu Hd. left. split; [done|]. intros [_ Hm]. apply Hu. set_solver. Qed.
Lemma settled_holding m d d' : settled m d d' → holding [] (dm_sent d') d'.
Proof. intros [[Hd _]|(r & Hd & _)]; by rewrite (ho_sent _ _ _ Hd). Qed.
Lemma wp_answer m d0 d r (E : Z → daemon → Prop) :
  holding [] (dm_sent d0) d → reply_handle r = field m 0 4 → reply_type r = im_type m + 1 →
  wp (send r) d (λ _, settled m d0) E.
Proof. intros Hd Hh Ht. eapply wp_send; [done|]. intros d' Hd'. right. by exists r. Qed.

Lemma login_request_wp m d :
  holding [] (dm_sent d) d → im_type m = KSMBD_EVENT_LOGIN_REQUEST → 4 ≤ im_sz m →
  wp (login_request map_to_guest guest_account m) d (λ _, settled m d) (λ _ _, False).
Proof.
  intros Hd Ht Hs. unfold login_request. wp_step; [wp_step; no_memory|]. wp_step.
  assert (∀ r, wp (handle <- read_uint m 0 4 ;; send (LoginResponse handle r)) d (λ _, settled m d) (λ _ _, False)) as Hsend.
  { intros r. reads. apply wp_answer; [done|done|by rewrite Ht]. }
  destruct (Z.leb_spec sizeof_login_request (im_sz m)) as [Hm|]; [|wp_step; by apply Hsend].
  unfold read_login_request. reads. eapply login_wp; [done|]. intros r. apply Hsend.
Qed.
Lemma logout_request_wp m d :
  holding [] (dm_sent d) d → unanswered m → wp (logout_request m) d (λ _, settled m d) (λ _ _, False).
Proof.
  intros Hd Hu. unfold logout_request. destruct (Z.ltb_spec (im_sz m) sizeof_logout_request); [by wp_step; apply settled_silent|].
  reads. apply wp_ignore. wp_by (apply (on_users_wp _ _ _ _ Hd); intros held u; apply logout_keeps);
    intros ? d' Hd'; by apply settled_silent.
Qed.
(** The groups counted are the groups of the answer. *)
Definition groups_of (account : bytes) (u : ustate) : list Z :=
  if negb (ipc_string_terminated account KSMBD_REQ_MAX_ACCOUNT_NAME_SZ) then []
  else if bool_decide (cstr account = []) then []
  else match find_user u (Some (cstr account)) with Some u => u_sgid u | None => [] end.
Lemma login_response_payload_sz_exact account held u :
  users_ok held u → login_response_payload_sz account u = Done (4 * Z.of_nat (length (groups_of account u))) u.
Proof.
  intros Hu. unfold login_response_payload_sz, groups_of. destruct (negb _); [done|]. case_bool_decide; [done|].
  apply (with_user held u _ (λ u, 4 * Z.of_nat (length (u_sgid u)))); [done|done|..].
  - by intros ->.
  - by intros v ->.
Qed.
Lemma wp_read_name m off n d (Q : bytes → daemon → Prop) E :
  0 ≤ off → off + n ≤ im_sz m + 1 → Q (octets m off n) d → wp (read_name m off n) d Q E.
Proof.
  intros Hz Ho HQ. unfold read_name. rewrite length_drop, length_app. unfold im_sz in Ho. cbn [length].
  rewrite (proj2 (Z.ltb_ge _ _)) by lia. exact HQ.
Qed.
Lemma login_ext_groups req held u :
  users_ok held u →
  ∃ r, usm_handle_login_request_ext req u = Done r u ∧ (length r.2 ≤ length (groups_of (lq_account req) u))%nat.
Proof.
  intros Hu. unfold usm_handle_login_request_ext, groups_of, usm_is_valid_ipc_account, ipc_string_terminated, terminated.
  destruct (negb _); [by eexists|]. case_bool_decide; [by eexists|].
  change ((KSMBD_IPC_MAX_MESSAGE_SIZE - sizeof_login_response_ext) / 4) with 990.
  set (cut := λ u, take (Z.to_nat (Z.min (Z.of_nat (length (u_sgid u))) 990)) (u_sgid u)).
  exists (match find_user u (Some (cstr (lq_account req))) with Some u => (0, cut u) | None => (0, []) end). split.
  - apply (with_user held u _ (λ u, (0, cut u))); [done|done|..]; [by intros ->|by intros v ->].
  - destruct (find_user _ _); cbn [snd]; [unfold cut; rewrite length_take|cbn]; lia.
Qed.
Lemma groups_of_bound account u n :
  map_Forall (λ _ u, 4 * Z.of_nat (length (u_sgid u)) ≤ n) (us_heap u) → 0 ≤ n →
  4 * Z.of_nat (length (groups_of account u)) ≤ n.
Proof.
  intros Hu Hn. unfold groups_of. destruct (negb _); [cbn; lia|]. case_bool_decide; [cbn; lia|].
  unfold find_user. cbn. destruct (us_table u !! cstr account) as [p|]; cbn; [|lia].
  destruct (us_heap u !! p) as [v|] eqn:E; [exact (Hu _ _ E)|cbn; lia].
Qed.
Lemma login_request_ext_wp m d :
  holding [] (dm_sent d) d → im_type m = KSMBD_EVENT_LOGIN_REQUEST_EXT → sizeof_login_request ≤ im_sz m →
  wp (login_request_ext m) d (λ _, settled m d) (λ _ _, False).
Proof.
  intros Hd Ht Hs. unfold login_request_ext. wp_step. apply wp_read_name; [lia|in_block|]. wp_step.
  eapply on_users_exact; [done| |]; [intros held u Hu; by eapply login_response_payload_sz_exact|].
  wp_step.
  { wp_step. eapply settled_full; [done| |eassumption]. intros [_ Hm]. rewrite Ht in Hm.
    assert (map_Forall (λ _ u, 4 * Z.of_nat (length (u_sgid u)) ≤ room sizeof_login_response_ext)
      (us_heap (ss_users (ws_shares (dm_world d))))) as Hb by naive_solver.
    eapply groups_of_bound in Hb; [|by vm_compute].
    unfold room, sizeof_login_response_ext, sizeof_ipc_msg, KSMBD_IPC_MAX_MESSAGE_SIZE in *. split; [lia|].
    etrans; [apply Zplus_le_compat_l, Hb|]. lia. }
  rewrite (proj2 (Z.leb_le _ _) Hs). unfold read_login_request. reads.
  eapply on_users_run; [done|intros held u; apply login_ext_groups|]. cbn [lq_account]. intros r Hr. reads.
  rewrite (proj2 (Z.ltb_ge _ _)) by lia. reads. apply wp_answer; [done|done|by rewrite Ht].
Qed.
Lemma spnego_request_wp m d :
  holding [] (dm_sent d) d → im_type m = KSMBD_EVENT_SPNEGO_AUTHEN_REQUEST → sizeof_spnego_authen_request ≤ im_sz m →
  decode_negTokenInit g_try_malloc (octets m 6 (field m 4 2)) ≠ Fault →
  wp (spnego_authen_request map_to_guest guest_account handle_authen stack_flags m) d (λ _, settled m d) (λ _ _, False).
Proof.
  intros Hd Ht Hs Hf. unfold spnego_authen_request. wp_step; [wp_step; no_memory|]. reads.
  assert (∀ r k b, wp (send (SpnegoResponse (field m 0 4) r k b)) d (λ _, settled m d) (λ _ _, False)) as Hsend.
  { intros r k b. apply wp_answer; [done|done|by rewrite Ht]. }
  set (refuse := send _). assert (wp refuse d (λ _, settled m d) (λ _ _, False)) as Hr by apply Hsend.
  rewrite (proj2 (Z.ltb_ge _ _)) by done. reads.
  destruct (Z.ltb_spec (im_sz m - sizeof_spnego_authen_request) (field m 4 2)); [done|]. reads.
  unfold spnego_handle_authen_request. destruct (decode_negTokenInit _ _) as [[[mech token] len] s|e s|]; [|done|done].
  destruct (SPNEGO_MAX_MECHS <=? mech); [done|]. destruct (handle_authen mech token) as [out|]; [|done].
  wp_step; [done|]. wp_step; [done|]. destruct (ao_user_name out) as [name|]; [|done]. wp_step.
  eapply login_wp; [done|]. intros r. wp_step; apply Hsend.
Qed.

(** *** Connections and shares *)
Lemma tree_connect_request_wp m d :
  holding [] (dm_sent d) d → im_type m = KSMBD_EVENT_TREE_CONNECT_REQUEST → 4 ≤ im_sz m →
  wp (tree_connect_request map_to_guest guest_account restrict_anon m) d (λ _, settled m d) (λ _ _, False).
Proof.
  intros Hd Ht Hs. unfold tree_connect_request. wp_step; [wp_step; no_memory|]. wp_step.
  assert (∀ r d', holding [] (dm_sent d) d' →
    wp (handle <- read_uint m 0 4 ;; send (TreeConnectResponse handle r)) d' (λ _, settled m d) (λ _ _, False)) as Hsend.
  { intros r d' Hd'. reads. apply wp_answer; [done|done|by rewrite Ht]. }
  destruct (Z.leb_spec sizeof_tree_connect_request (im_sz m)) as [Hm|]; [|wp_step; by apply Hsend].
  unfold read_tree_connect. reads. set (req := mk_treq _ _ _ _ _ _).
  eapply wp_mono; [apply (on_world_keeps _ _ _ _ Hd); [by apply hosts_connect|]|cbv beta..|done].
  - intros uh sh Hok.
    wp_by (apply (tcm_handle_tree_connect_wp hash_order_perm session_memory _ _ _ _ _ _ req Hok)); [|done].
    intros r w' [(lost & Hok' & _) _]. by exists lost.
  - intros r d' Hd'. wp_step. by apply Hsend.
Qed.
Lemma tree_disconnect_request_wp m d :
  holding [] (dm_sent d) d → unanswered m → wp (tree_disconnect_request m) d (λ _, settled m d) (λ _ _, False).
Proof.
  intros Hd Hu. unfold tree_disconnect_request.
  destruct (Z.ltb_spec (im_sz m) sizeof_tree_disconnect_request); [by wp_step; apply settled_silent|].
  reads. apply wp_ignore. wp_by (apply (on_world_keeps _ _ _ _ Hd); [by apply hosts_disconnect|]; intros uh sh Hok;
    unfold tcm_handle_tree_disconnect; wp_step; (wp_by (apply (sm_handle_tree_disconnect_wp hash_order_perm _ _ _ _ _ Hok))); [|done];
    intros r w' [_ Hw']; wp_step; exists []; eapply sessions_ok_ext; [|done|exact Hw']; counts); [|done]. intros _ d' Hd'. by apply settled_silent.
Qed.
Lemma held_shares_pos d l q : 0 ≤ held_shares d l q.
Proof.
  unfold held_shares. pose proof (count_nonneg q (heap_refs pipe_refs (dm_pipes d))). pose proof (count_nonneg q l). lia.
Qed.
Lemma lost_shares_pos d l sl q : 0 ≤ held_shares d l q + count q sl.
Proof. pose proof (held_shares_pos d l q). pose proof (count_nonneg q sl). lia. Qed.
Lemma find_held_share_wp name sent d :
  holding [] sent d →
  wp (on_world (on_shares (shm_lookup_share name))) d
    (λ r d', holding (refs r) sent d' ∧
       ∀ p, r = Some p → ∃ x n, ss_heap (ws_shares (dm_world d)) !! p = Some x ∧
                                ss_heap (ws_shares (dm_world d')) !! p = Some (set_sh_ref_count n x)) (λ _ _, False).
Proof.
  intros Hd. set (found := λ (r : option Z) (s : sstate), ∀ p, r = Some p → ∃ x n,
    ss_heap (ws_shares (dm_world d)) !! p = Some x ∧ ss_heap s !! p = Some (set_sh_ref_count n x)).
  eapply wp_mono; [apply (on_world_wp [] sent refs (λ r w, found r (ws_shares w)) (λ _, False) _ _ Hd);
    [apply hosts_on_shares, hosts_lookup|]|done|by intros e d' []].
  destruct (ho_world _ _ _ Hd) as (ul & sl & Hok).
  eapply wp_mono; [apply (on_shares_wp _ _ _ _ (λ _ q, count q ul) (λ r q, held_shares d (refs r) q + count q sl) found Hok)
    |intros r w' [[? _] ?]; split; [by exists ul, sl|done]|done].
  intros cu cs Hcu Hcs Hs. wp_by (by apply (shm_lookup_share_wp _ _ _ _ Hs)); [|done].
  intros r s' Hr. destruct r as [p|].
  - destruct Hr as (_ & Hs' & x & Hx & ->). split_and!; [|intros q; apply count_nonneg|apply lost_shares_pos|].
    + intros ? [= <-]. exists x, (sh_ref_count x + 1). split; [done|]. apply lookup_insert_eq.
    + eapply shares_ok_ext; [done| |exact Hs']. unfold held_shares. cbn [refs]. counts.
  - destruct Hr as [-> _]. split_and!; [done|intros q; apply count_nonneg|apply lost_shares_pos|done].
Qed.
Lemma put_share_back_wp share sent d :
  holding (refs share) sent d → wp (on_world (on_shares (put_ksmbd_share share))) d (λ _, holding [] sent) (λ _ _, False).
Proof.
  intros Hd. eapply wp_mono; [apply (on_world_wp (refs share) sent (λ _, []) (λ _ _, True) (λ _, False) _ _ Hd);
    [apply hosts_on_shares, hosts_put|]|by intros r d' []|by intros e d' []].
  destruct (ho_world _ _ _ Hd) as (ul & sl & Hok).
  eapply wp_mono; [apply (on_shares_wp _ _ _ _ (λ _ q, count q ul) (λ _ q, held_shares d [] q + count q sl) (λ _ _, True) Hok)
    |intros r w' [[? _] ?]; split; [by exists ul, sl|done]|done].
  intros cu cs Hcu Hcs Hs. pose proof (lost_shares_pos d [] sl) as Hpos.
  wp_by (apply (put_share_wp hash_order_perm (λ q, count q ul + cu q) (λ q, held_shares d [] q + count q sl + cs q));
    [eapply shares_ok_ext; [done| |exact Hs]; unfold held_shares; counts
    |intros q; specialize (Hpos q); specialize (Hcs q); lia]); [|done].
  intros _ s' Hs'. split_and!; [done|intros q; apply count_nonneg|done|done].
Qed.
(** A share that is held is there. *)
Lemma held_share_wp p sent d (Q : share → daemon → Prop) E :
  holding [p] sent d → (∀ x, ss_heap (ws_shares (dm_world d)) !! p = Some x → Q x d) →
  wp (on_world (on_shares (sload p))) d Q E.
Proof.
  intros [(ul & sl & Hw) _ _ _] HQ. destruct (shares_ok_live _ _ _ p (ro_shares _ _ _ (wo_refs _ _ _ Hw))) as [x Hx].
  { cbv beta. unfold held_shares. rewrite count_cons, decide_True by done. pose proof (count_nonneg p []).
    pose proof (count_nonneg p (heap_refs pipe_refs (dm_pipes d))).
    pose proof (count_nonneg p sl). pose proof (count_nonneg p (heap_refs se_shares (ws_heap (dm_world d)))). lia. }
  unfold on_world, on_shares. do 2 apply wp_zoom. eapply wp_load; [done|].
  destruct d as [[] ? ?]. by apply HQ.
Qed.
Lemma share_config_wp x d (Q : share_config_response → daemon → Prop) E :
  0 ≤ shm_share_config_payload_size root_dir (Some x) → (∀ r, Q r d) →
  wp (share_config root_dir x (shm_share_config_payload_size root_dir (Some x))) d Q E.
Proof.
  intros Hsz HQ. unfold share_config. destruct (test_share_flag x KSMBD_SHARE_FLAG_PIPE) eqn:Hp.
  { unfold shm_handle_share_config_request. rewrite Hp. by wp_step. }
  destruct (sh_path x) as [[|c path]|] eqn:Hx; cycle 1.
  2, 3: unfold shm_share_config_payload_size in Hsz; rewrite Hp, Hx in Hsz; by destruct Hsz.
  set (resp := blank_share_config _).
  destruct (share_config_exact root_dir x (c :: path) resp) as (r & -> & _); try done; [|by wp_step].
  unfold resp, blank_share_config. cbn [sc_payload]. rewrite length_replicate. lia.
Qed.
Lemma find_share_wp m sent d :
  holding [] sent d → sizeof_share_config_request ≤ im_sz m →
  wp (find_share root_dir m) d (λ r d', holding (refs r.1) sent d' ∧
    match r.1 with
    | None => r.2 = 0
    | Some p => ∃ x n, ss_heap (ws_shares (dm_world d)) !! p = Some x ∧
        ss_heap (ws_shares (dm_world d')) !! p = Some (set_sh_ref_count n x) ∧
        r.2 = shm_share_config_payload_size root_dir (Some x) ∧ 0 ≤ r.2
    end) (λ _ _, False).
Proof.
  intros Hd Hs. unfold find_share. reads. wp_step; [by wp_step|]. wp_step. wp_by (by apply find_held_share_wp); [|done].
  intros [p|] d' [Hd' Hx]; [|by wp_step]. destruct (Hx p eq_refl) as (x & n & Hp & Hp'). wp_step.
  eapply held_share_wp; [done|]. intros y Hy. assert (y = set_sh_ref_count n x) as -> by congruence. cbn zeta.
  change (shm_share_config_payload_size root_dir (Some (set_sh_ref_count n x)))
    with (shm_share_config_payload_size root_dir (Some x)).
  destruct (Z.ltb_spec (shm_share_config_payload_size root_dir (Some x)) 0).
  - wp_step. wp_by (by apply put_share_back_wp); [|done]. intros _ d2 Hd2. by wp_step.
  - wp_step. split; [done|]. by exists x, n.
Qed.
Lemma share_config_request_wp m d :
  holding [] (dm_sent d) d → im_type m = KSMBD_EVENT_SHARE_CONFIG_REQUEST → sizeof_share_config_request ≤ im_sz m →
  wp (share_config_request root_dir m) d (λ _, settled m d) (λ _ _, False).
Proof.
  intros Hd Ht Hs. unfold share_config_request. rewrite (proj2 (Z.leb_le _ _) Hs). reads.
  wp_by (by apply find_share_wp); [|done]. intros [share sz] d1 [Hd1 Hx]. cbn [fst snd] in *. wp_step. wp_step.
  - wp_step. wp_by (by apply put_share_back_wp); [|done]. intros _ d2 Hd2. eapply settled_full; [done| |eassumption].
    intros [_ Hm]. rewrite Ht in Hm. unfold room, sizeof_share_config_response, sizeof_ipc_msg, KSMBD_IPC_MAX_MESSAGE_SIZE in *.
    destruct share as [p|]; [|subst sz; lia]. destruct Hx as (x & n & Hp & _ & -> & Hsz).
    assert (shm_share_config_payload_size root_dir (Some x) ≤ 3543); [|lia].
    destruct Hm as [|[|[|[[_ Hm]|[[]|[]]]]]]; try done. exact (Hm _ _ Hp).
  - wp_step. set (Q := λ (_ : unit) d2, ∃ r, holding (refs share) (dm_sent d ++ [r]) d2 ∧
      reply_handle r = field m 0 4 ∧ reply_type r = im_type m + 1).
    assert (∀ r, wp (send (ShareConfigResponse (field m 0 4) r)) d1 Q (λ _ _, False)) as Hsend.
    { intros r. eapply wp_send; [done|]. intros d2 Hd2. eexists. split; [done|]. by rewrite Ht. }
    assert (∀ d2, Q tt d2 → wp (on_world (on_shares (put_ksmbd_share share))) d2 (λ _, settled m d) (λ _ _, False)) as Hput.
    { intros d2 (r & Hd2 & Hr & Hty). wp_by (exact (put_share_back_wp _ _ _ Hd2)); [|done]. intros _ d3 Hd3. right. by exists r. }
    destruct share as [p|].
    + destruct Hx as (x & n & _ & Hp & -> & Hsz). wp_step. eapply held_share_wp; [done|]. intros y Hy.
      assert (y = set_sh_ref_count n x) as -> by congruence.
      apply (share_config_wp (set_sh_ref_count n x)); [done|]. intros r. wp_by (apply Hsend); [intros []; apply Hput|done].
    + wp_step. wp_by (apply Hsend); [intros []; apply Hput|done].
Qed.

(** *** Pipes *)
Lemma on_server_wp {T : Type} (m : prog server T) sent d :
  holding [] sent d →
  (∀ uheld sheld s, (∀ q, 0 ≤ sheld q) → server_ok i uheld sheld s →
     wp m s (λ _, server_lost i uheld sheld) (λ _ _, False)) →
  wp (on_server m) d (λ _, holding [] sent) (λ _ _, False).
Proof.
  intros [(ul & sl & [[Hs Hu Hp] Ht Hh Hn]) Hb Hf Hse] Hm. apply wp_zoom.
  set (uheld := λ q, count q ul + count q (heap_refs se_users (ws_heap (dm_world d)))).
  set (sheld := λ q, count q sl + count q (heap_refs se_shares (ws_heap (dm_world d)))).
  wp_by (apply (Hm uheld sheld); [intros q; unfold sheld; pose proof (count_nonneg q sl);
      pose proof (count_nonneg q (heap_refs se_shares (ws_heap (dm_world d)))); lia|]; split; [exact Hb| |exact Hf];
    eapply shares_ok_ext; [done| |exact Hs]; intros q; unfold held_shares, sheld; cbn; counts); [|done].
  intros a s' [lost [Hb' Hs' Hf']]. split; [|done..]. exists ul, (sl ++ lost). split; [split|..]; try done.
  - eapply shares_ok_ext; [done| |exact Hs']. intros q. unfold held_shares, sheld. cbn. counts.
  - intros q. apply lost_shares_pos.
Qed.
(** The calls that reach a component that is safe: the others are sent to
    [rpc_state_request], or answered into a block without room. *)
Definition quiet (flags : Z) : bool :=
  (Z.land flags KSMBD_RPC_RAP_METHOD =? KSMBD_RPC_RAP_METHOD) || test_flag flags KSMBD_RPC_OPEN_METHOD ||
  test_flag flags KSMBD_RPC_CLOSE_METHOD ||
  (negb (test_flag flags KSMBD_RPC_QUERY_METHOD) && negb (test_flag flags KSMBD_RPC_IOCTL_METHOD) &&
   (test_flag flags KSMBD_RPC_WRITE_METHOD || negb (test_flag flags KSMBD_RPC_READ_METHOD))).
Lemma rpc_method_wp uheld sheld req resp_sz s :
  (∀ q, 0 ≤ sheld q) → (∀ m, for_interface i (m, req)) → quiet (rc_flags req) = true → server_ok i uheld sheld s →
  wp (rpc_method req resp_sz) s (λ _, server_lost i uheld sheld) (λ _ _, False).
Proof.
  intros Hpos Hi Hq Hok. pose proof (server_lost_none i uheld sheld _ Hok) as Hnone.
  assert (∀ m, wp (code <- serve 0 (m, req) ;; ret (code, @nil Z)) s (λ _, server_lost i uheld sheld) (λ _ _, False)) as Hserve.
  { intros m. wp_step. wp_by (by apply (serve_wp i hash_order_perm small_requests uheld sheld)); [|done].
    intros code s' Hs'. by wp_step. }
  revert Hq. unfold rpc_method, quiet. cbv zeta.
  destruct (_ =? KSMBD_RPC_RAP_METHOD); [intros _; by wp_step|]. cbn [orb].
  destruct (test_flag _ KSMBD_RPC_OPEN_METHOD); [intros _; apply (Hserve OPEN)|]. cbn [orb].
  destruct (test_flag _ KSMBD_RPC_CLOSE_METHOD); [intros _; apply (Hserve CLOSE)|]. cbn [orb].
  destruct (test_flag _ KSMBD_RPC_QUERY_METHOD); [done|]. destruct (test_flag _ KSMBD_RPC_IOCTL_METHOD); [done|].
  destruct (test_flag _ KSMBD_RPC_WRITE_METHOD); [intros _; apply (Hserve WRITE)|].
  destruct (test_flag _ KSMBD_RPC_READ_METHOD); [done|]. intros _. by wp_step.
Qed.
Lemma is_bytes_octets m off n : is_bytes (im_payload m) → is_bytes (octets m off n).
Proof.
  intros Hb. unfold octets, mem_read. apply Forall_take, Forall_drop, Forall_app. split; [done|].
  by repeat constructor.
Qed.
Lemma length_octets m off n : (length (octets m off n) ≤ Z.to_nat n)%nat.
Proof. unfold octets, mem_read. rewrite length_take. lia. Qed.
Lemma rpc_request_wp m d :
  holding [] (dm_sent d) d → im_type m = KSMBD_EVENT_RPC_REQUEST → is_bytes (im_payload m) →
  sizeof_rpc_command ≤ im_sz m ≤ KSMBD_IPC_MAX_MESSAGE_SIZE → field m 0 4 ≠ no_id →
  interface_of (field m 8 4) = Some i → quiet (field m 8 4) = true →
  wp (rpc_request m) d (λ _, settled m d) (λ _ _, False).
Proof.
  intros Hd Ht Hb [Hs Hm] Hid Hi Hq. unfold rpc_request, KSMBD_IPC_MAX_MESSAGE_SIZE in *.
  rewrite (proj2 (Z.ltb_ge _ _)) by done. reads.
  destruct (Z.ltb_spec (im_sz m - sizeof_rpc_command) (field m 12 4)).
  { wp_step. left. split; [done|]. intros [_ Hma]. rewrite Ht in Hma.
    destruct Hma as [|[|[|[[]|[[]|[_ Hma]]]]]]; [done..|]. lia. }
  reads. set (resp_sz := if test_flag _ _ then _ else _).
  assert (0 ≤ resp_sz ≤ room 0) as Hr by (unfold resp_sz; destruct (test_flag _ _); by vm_compute).
  wp_step; [wp_step; by eapply settled_full|]. wp_step.
  wp_by (apply (on_server_wp _ _ _ Hd); intros uheld sheld s Hpos Hok; apply rpc_method_wp; [done| |done|done];
    intros c; split_and!; [done|done|by apply is_bytes_octets|]; cbn [snd rc_payload];
    pose proof (length_octets m 16 (field m 12 4)); in_block); [|done].
  intros r d' Hd'. apply wp_answer; [done|done|by rewrite Ht].
Qed.

(** *** All messages *)

(** The tokens that the parser of [Spnego] survives, and calls of the interface
    that are [quiet], on handles that can be freed. *)
Record tame (m : ipc_msg) : Prop := {
  tm_spnego : im_type m = KSMBD_EVENT_SPNEGO_AUTHEN_REQUEST →
    decode_negTokenInit g_try_malloc (octets m 6 (field m 4 2)) ≠ Fault;
  tm_rpc : im_type m = KSMBD_EVENT_RPC_REQUEST →
    field m 0 4 ≠ no_id ∧ interface_of (field m 8 4) = Some i ∧ quiet (field m 8 4) = true;
}.
Lemma worker_wp m d :
  accepted m → tame m → holding [] (dm_sent d) d →
  wp (worker_pool_fn map_to_guest guest_account restrict_anon root_dir handle_authen stack_flags m) d
    (λ _, settled m d) (λ _ _, False).
Proof.
  intros [_ Hmin Hb Hsm] [Hsp Hrpc] Hd. unfold worker_pool_fn, sizeof_ipc_msg in *. cbv zeta.
  destruct (Z.eqb_spec (im_type m) KSMBD_EVENT_LOGIN_REQUEST) as [E|E1].
  { rewrite E in Hmin. apply login_request_wp; [done|done|]. etrans; [|exact Hmin]. by vm_compute. }
  destruct (Z.eqb_spec (im_type m) KSMBD_EVENT_TREE_CONNECT_REQUEST) as [E|E2].
  { rewrite E in Hmin. apply tree_connect_request_wp; [done|done|]. etrans; [|exact Hmin]. by vm_compute. }
  assert (∀ t, im_type m = t → t ∉ [KSMBD_EVENT_LOGIN_REQUEST; KSMBD_EVENT_TREE_CONNECT_REQUEST;
    KSMBD_EVENT_SPNEGO_AUTHEN_REQUEST; KSMBD_EVENT_SHARE_CONFIG_REQUEST; KSMBD_EVENT_LOGIN_REQUEST_EXT;
    KSMBD_EVENT_RPC_REQUEST] → unanswered m) as Hu by by intros t <-.
  destruct (Z.eqb_spec (im_type m) KSMBD_EVENT_TREE_DISCONNECT_REQUEST) as [E|_].
  { apply tree_disconnect_request_wp; [done|]. apply (Hu _ E). by apply (bool_decide_unpack _). }
  destruct (Z.eqb_spec (im_type m) KSMBD_EVENT_LOGOUT_REQUEST) as [E|_].
  { apply logout_request_wp; [done|]. apply (Hu _ E). by apply (bool_decide_unpack _). }
  destruct (Z.eqb_spec (im_type m) KSMBD_EVENT_SHARE_CONFIG_REQUEST) as [E|E3].
  { rewrite E in Hmin. by apply share_config_request_wp. }
  destruct (Z.eqb_spec (im_type m) KSMBD_EVENT_RPC_REQUEST) as [E|E4].
  { destruct (Hrpc E) as (? & ? & ?). rewrite E in Hmin. apply rpc_request_wp; try done. split; [done|lia]. }
  destruct (Z.eqb_spec (im_type m) KSMBD_EVENT_HEARTBEAT_REQUEST) as [E|_].
  { unfold heartbeat_request. wp_step. apply settled_silent; [|done]. apply (Hu _ E). by apply (bool_decide_unpack _). }
  destruct (Z.eqb_spec (im_type m) KSMBD_EVENT_SPNEGO_AUTHEN_REQUEST) as [E|E5].
  { rewrite E in Hmin. apply spnego_request_wp; [done|done| |by apply Hsp]. exact Hmin. }
  destruct (Z.eqb_spec (im_type m) KSMBD_EVENT_LOGIN_REQUEST_EXT) as [E|E6].
  { rewrite E in Hmin. by apply login_request_ext_wp. }
  wp_step. apply settled_silent; [|done]. unfold unanswered. set_solver.
Qed.

(** A netlink message, from its arrival to the answer. *)
Definition daemon_step `{Libnl} (msg : nl_msg) : prog daemon unit :=
  match (nlink_msg_cb msg).2 with
  | Some m => worker_pool_fn map_to_guest guest_account restrict_anon root_dir handle_authen stack_flags m
  | None => ret tt
  end.

(** The daemon as a whole.  Whatever messages arrive from the
    kernel, of every kind and in any order, one at a time: what passes the
    netlink policy is handled without a fault, and afterwards sessions, users,
    shares and pipes are as before a message: all references among the four
    are counted, every session is in the table, and every pipe is ready for
    its next request.  Small allocations succeed, no share restricts hosts, and
    the messages are [tame]: tokens the parser survives, and calls of one
    lawful pipe interface that neither ask for the state of a pipe nor read
    it. *)
Theorem messages_keep_daemon `{Libnl} (msgs : list nl_msg) d :
  libnl_checks → (∀ msg code m, msg ∈ msgs → nlink_msg_cb msg = (code, Some m) → tame m) →
  holding [] (dm_sent d) d → wp (for_each msgs daemon_step) d (λ _ d', holding [] (dm_sent d') d') (λ _ _, False).
Proof.
  intros Hl. revert d. induction msgs as [|msg msgs IH]; intros d Ht Hd; cbn [for_each]; [by wp_step|].
  wp_step. assert (wp (daemon_step msg) d (λ _ d', holding [] (dm_sent d') d') (λ _ _, False)) as Hm.
  { unfold daemon_step. destruct (nlink_msg_cb msg) as [code [m|]] eqn:E; cbn [snd]; [|by wp_step].
    wp_by (apply worker_wp; [by eapply nlink_accepted| |done]; by eapply Ht; [left|]); [|done].
    intros _ d'. apply settled_holding. }
  wp_by (exact Hm); [|done]. intros _ d' Hd'. apply IH; [|done]. intros msg' code m Hin. apply Ht. by right.
Qed.

End Messages.

(** ** A small daemon *)
Fixpoint parser_of {P : Type} (cmds : list (Z * P)) (c : Z) : option P :=
  match cmds with [] => None | (c', p) :: cmds => if c' =? c then Some p else parser_of cmds c end.
(** A netlink library: a message is a command with the octets of its attribute. *)
Definition toy_nl : Libnl := {|
  nl_msg := Z * bytes;
  gnlh_version _ := 1;
  genl_handle_msg P cmds policy msg :=
    match parser_of cmds msg.1 with
    | None => Refused (- NLE_RANGE)
    | Some p =>
        if (minlen policy msg.1 <=? Z.of_nat (length msg.2)) && forallb (λ b, (0 <=? b) && (b <? 256)) msg.2
        then Parsed msg.1 p (λ t, if t =? msg.1 then Some msg.2 else None) else Refused (- NLE_RANGE)
    end;
|}.
Lemma parser_of_elem {P : Type} (cmds : list (Z * P)) c p : parser_of cmds c = Some p → (c, p) ∈ cmds.
Proof.
  induction cmds as [|[c' p'] cmds IH]; cbn; [done|]. destruct (Z.eqb_spec c' c) as [->|]; [intros [= ->]; left|].
  intros Hp. right. by apply IH.
Qed.
Lemma toy_nl_checks : libnl_checks (H:=toy_nl).
Proof.
  intros P cmds policy [c data] c_id p attrs. cbn. destruct (parser_of cmds c) eqn:Hp; [|done].
  destruct (_ && _) eqn:Hc; [|done]. intros [= <- <- <-]. zbool. split; [by apply parser_of_elem|].
  intros t b. destruct (Z.eqb_spec t c) as [->|]; [|done]. intros [= <-]. split; [done|].
  apply Forall_forall. intros x Hx. rewrite forallb_forall in *.
  match goal with H : ∀ _, _ |- _ => specialize (H x); rewrite <-list_elem_of_In in H; specialize (H Hx) end.
  zbool. split; lia.
Qed.
Lemma toy_nl_msg msg code m :
  nlink_msg_cb (H:=plenty) (H0:=toy_nl) msg = (code, Some m) → m = mk_msg msg.1 msg.2.
Proof.
  destruct msg as [c data]. unfold nlink_msg_cb. cbn [toy_nl genl_handle_msg gnlh_version fst snd].
  destruct (negb _); [done|]. destruct (parser_of _ c) as [p|]; [|done]. destruct (_ && _); [|done].
  destruct p; [|done]. unfold handle_generic_event, generic_event. rewrite Z.eqb_refl.
  destruct (negb _); [done|]. by intros [= _ <-].
Qed.
Definition toy_daemon : daemon := mk_daemon (mk_wstate (toy_shares None) ∅ ∅ 1 10) no_services ∅ [].
Definition toy_connect : Z * bytes :=
  (KSMBD_EVENT_TREE_CONNECT_REQUEST, toy_words [5; 0; 1; 0; 1; 0] ++ pad 256 "alice" ++ pad 64 "media" ++
     pad 64 "10.0.0.1" ++ replicate 64 0).
Definition toy_rpc (flags : Z) (payload : bytes) : Z * bytes :=
  (KSMBD_EVENT_RPC_REQUEST,
   toy_words [7; 0; Z.lor flags KSMBD_RPC_SRVSVC_METHOD_INVOKE; Z.of_nat (length payload)] ++ payload).
Abbreviation toy_daemon_run msgs :=
  (for_each msgs (daemon_step (H:=toy_glib) (H0:=total_system) (H1:=plenty) (H2:=toy_interfaces)
     0 None 0 None (λ _ _, None) 0 (H3:=toy_nl)) toy_daemon).
Definition toy_msgs : list (Z * bytes) :=
  [toy_connect; toy_rpc KSMBD_RPC_OPEN_METHOD []; toy_rpc KSMBD_RPC_WRITE_METHOD toy_enum].
Lemma toy_daemon_ok :
  holding (H:=toy_glib) (H2:=toy_interfaces) SRVSVC (Lawful0:=toy_law) [] [] toy_daemon.
Proof.
  split; [exists [], []; split; [split|..]|apply map_Forall_empty| |reflexivity].
  - eapply shares_ok_ext; [| |exact (toy_shares_ok None)]; intros p; reflexivity.
  - done.
  - intros q. apply (bool_decide_unpack _). by vm_compute.
  - intros p x Hx. done.
  - intros p x Hx. done.
  - intros p [x Hx]. done.
  - intros p x Hx. apply (lookup_singleton_Some 1 p (toy_share None)) in Hx as [<- <-]. split; reflexivity.
Qed.
Lemma toy_tame msg code m :
  msg ∈ toy_msgs → nlink_msg_cb (H:=plenty) (H0:=toy_nl) msg = (code, Some m) → tame (H1:=plenty) SRVSVC m.
Proof.
  intros Hin ->%toy_nl_msg. revert msg Hin.
  change (∀ msg : Z * bytes, msg ∈ toy_msgs → tame (H1:=plenty) SRVSVC (mk_msg msg.1 msg.2)).
  apply Forall_forall. unfold toy_msgs. apply Forall_cons_2; [by split|].
  repeat apply Forall_cons_2; [..|apply Forall_nil_2]; (split; [done|intros _]);
    (split; [apply (bool_decide_unpack _)|split]; vm_compute; first [exact I|reflexivity]).
Qed.
Lemma messages_keep_daemon_witness :
  ∃ d, toy_daemon_run toy_msgs = Done tt d ∧
    holding (H:=toy_glib) (H2:=toy_interfaces) SRVSVC (Lawful0:=toy_law) [] (dm_sent d) d ∧
    length (dm_sent d) = 3%nat ∧ (sh_ref_count <$> ss_heap (ws_shares (dm_world d)) !! 1) = Some 3.
Proof.
  assert (∃ d, toy_daemon_run toy_msgs = Done tt d ∧ length (dm_sent d) = 3%nat ∧
    (sh_ref_count <$> ss_heap (ws_shares (dm_world d)) !! 1) = Some 3) as (d & E & Hs & Hr).
  { eexists. split; [vm_compute; reflexivity|]. split; reflexivity. }
  exists d. split; [exact E|]. split; [|split; [exact Hs|exact Hr]].
  exact (wp_Done _ _ _ _ _ _ (messages_keep_daemon (H:=toy_glib) (H0:=total_system) (H1:=plenty) (H2:=toy_interfaces)
    SRVSVC (Lawful0:=toy_law) (λ t, reflexivity (map_to_list t)) (λ _ _, eq_refl) 0 None 0 None (λ _ _, None) 0
    (or_introl eq_refl) (H3:=toy_nl) toy_msgs toy_daemon toy_nl_checks toy_tame toy_daemon_ok) E).
Defined.


