(* ===== verification/Loading.v ===== *)
(** * Loading the configuration ([src/tools/tools.c], parts of [src/mountd/worker.c])

    [load_config] of every program: the users are read from the database, the
    shares and the global options from ksmbd.conf, and the daemon then opens
    its sockets and starts its workers.  The daemon calls it when it starts and
    on each reload, while sessions and pipes go on to refer to users and
    shares; [remove_config] gives everything back. *)

From S2P Require Import Prelude ConfText Refcount Users Shares Sessions Config Ndr Rpc Srvsvc Handles Samr Lsarpc Quic Ipc Channel Frame HostLists Worker.

Definition KSMBD_SHOULD_RELOAD_CONFIG : Z := BIT 1.
Definition KSMBD_SHOULD_LIST_CONFIG : Z := BIT 2.
Definition MAX_WORKER_THREADS : Z := 64.
Definition DEFAULT_WORKER_THREADS : Z := 4.

(** The state of a program: that of the workers, the global configuration
    (with the sub-authorities), the groups of an administration program, the
    sockets, and the number of threads of [pool]. *)
Record process := mk_process {
  pc_daemon : daemon; pc_conf : smbconf_global; pc_parser : option smbconf_parser; pc_channel : channel;
  pc_pool : option Z;
}.
Definition set_pc_daemon (d : daemon) (p : process) : process :=
  mk_process d (pc_conf p) (pc_parser p) (pc_channel p) (pc_pool p).
Definition set_pc_parser (q : option smbconf_parser) (p : process) : process :=
  mk_process (pc_daemon p) (pc_conf p) q (pc_channel p) (pc_pool p).
Definition set_pc_channel (c : channel) (p : process) : process :=
  mk_process (pc_daemon p) (pc_conf p) (pc_parser p) c (pc_pool p).
Definition set_pc_pool (n : option Z) (p : process) : process :=
  mk_process (pc_daemon p) (pc_conf p) (pc_parser p) (pc_channel p) n.
Definition pc_world (p : process) : wstate := dm_world (pc_daemon p).
Definition set_pc_world (w : wstate) (p : process) : process :=
  set_pc_daemon (mk_daemon w (dm_services (pc_daemon p)) (dm_pipes (pc_daemon p)) (dm_sent (pc_daemon p))) p.
Definition world {T : Type} (m : prog wstate T) : prog process T := zoom pc_daemon set_pc_daemon (on_world m).
Definition pipes_of {T : Type} (m : prog server T) : prog process T := zoom pc_daemon set_pc_daemon (on_server m).
Definition sockets {T : Type} : prog channel T → prog process T := zoom pc_channel set_pc_channel.
(** [ksmbd_health_status & KSMBD_SHOULD_RELOAD_CONFIG] *)
Definition reloading (p : process) : bool := test_flag (ch_health (pc_channel p)) KSMBD_SHOULD_RELOAD_CONFIG.

(** The two files: an error of [open], or the contents; [fl_created] is
    ksmbd.conf after an administration program created it. *)
Record files := mk_files { fl_pwddb : Z + bytes; fl_smbconf : Z + bytes; fl_created : Z + bytes }.

Section Load.
Context `{GLib, System, Allocator, Ptls, Libnl, Netlink}.
(** The order in which a walk over the groups meets them, the running program,
    [set_conf_contents], the sub-authorities; whether the host has a name, the
    mechanisms of SPNEGO are set up and a pool of threads is created. *)
Variable group_order : gmap bytes smbconf_group → list (bytes * smbconf_group).
Variable session_order : gmap Z Z → list (Z * Z).
Variable tool : tool_main.
Variable set_conf_contents : bytes → Z.
Variable gen_subauth : list Z.
Variable host_named mechs_set_up pool_created : bool.

(** [cp_parse_smbconf].  The number of sessions that may still be opened is
    [global_conf.sessions_cap]: it is set when the option is read, which a
    reload does not do. *)
Definition parse_smbconf (f : files) : prog process Z := λ p,
  match cp_parse_smbconf (reloading p) group_order tool set_conf_contents (pc_parser p) (fl_smbconf f) (fl_created f)
          (mk_cstate (ws_shares (pc_world p)) (pc_conf p)) with
  | Fault => Fault
  | Err e _ => Err e p
  | Done (r, q) c =>
      let w := set_ws_shares (cs_shares c) (pc_world p) in
      let w := if reloading p then w else set_ws_cap (gc_int (cs_conf c) SESSIONS_CAP) w in
      let p := set_pc_world w p in
      Done r (mk_process (pc_daemon p) (cs_conf c) q (pc_channel p) (pc_pool p))
  end.
Definition wp_init : prog process Z :=
  p <- get ;;
  let n := gc_int (pc_conf p) Config.MAX_WORKER_THREADS in
  let num_threads := if (n <? 1) || (MAX_WORKER_THREADS <? n) then DEFAULT_WORKER_THREADS else n in
  match pc_pool p with
  | Some _ => ret 0
  | None => if pool_created then modify (set_pc_pool (Some num_threads)) ;; ret 0 else ret (- ENOMEM)
  end.
(** The tables of users, shares, sessions and pipes are there; what
    [rpc_init] and [spnego_init] make besides them can only abort. *)
Definition load_config (f : files) : prog process Z :=
  (match tool with MOUNTD => world (w_users (usm_remove_all_users hash_order)) | _ => ret tt end) ;;
  r <- world (w_users (cp_parse_pwddb tool set_conf_contents (fl_pwddb f))) ;;
  if negb (r =? 0) then ret r
  else
    (match tool with ADDSHARE => modify (λ p, set_pc_parser (Some (default new_parser (pc_parser p))) p) | _ => ret tt end) ;;
    (match tool with MOUNTD => world (on_shares shm_remove_all_shares) | _ => ret tt end) ;;
    r <- parse_smbconf f ;;
    if negb (r =? 0) then ret r
    else match tool with
    | MOUNTD =>
        (if host_named then ret tt else abort) ;;
        p <- get ;;
        sockets (ipc_init (pc_conf p) gen_subauth) ;;
        (if mechs_set_up then ret tt else abort) ;;
        wp_init
    | _ => ret 0
    end.

(** A program on the tables of handles, which uses no pipe *)
Definition handles_of {T : Type} (m : prog rpc T) : prog process T := pipes_of (λ s,
  match m (mk_rpc (sv_shares s) (sv_services s) (rpc_pipe_alloc 0 [])) with
  | Done a r => Done a (mk_server (r_shares r) (r_services r) (sv_pipes s))
  | Err e r => Err e (mk_server (r_shares r) (r_services r) (sv_pipes s))
  | Fault => Fault
  end).
Definition rpc_destroy : prog process unit :=
  handles_of lsarpc_ph_clear_table ;; handles_of samr_ch_clear_table ;; pipes_of __clear_pipes_table.
Definition remove_config : prog process unit :=
  match tool with
  | MOUNTD =>
      modify (set_pc_pool None) ;; sockets ipc_destroy ;; rpc_destroy ;; world (sm_destroy session_order)
  | ADDSHARE => modify (set_pc_parser None)
  | _ => ret tt
  end ;;
  world (on_shares shm_destroy) ;; world (w_users (usm_destroy hash_order)).
End Load.

(** ** The users of the database *)
Section Pwddb.
Context `{GLib, System, Allocator}.
Hypothesis base64_decode_total : ∀ b, ∃ p, base64_decode b = Some p ∧ Z.of_nat (length p) ≤ INT_MAX.

Lemma add_user_password_wp held entry u :
  users_ok held u → is_Some (split_at 58 entry) →
  wp (add_user_password entry) u (λ _ u', users_ok held u') (λ _ _, False).
Proof.
  intros Hok [[name pwd] Hs]. unfold add_user_password. rewrite Hs. wp_step. wp_by (by apply (usm_lookup_user_wp held)); [|done].
  intros [p|] u1 Hr; cbn in Hr.
  - destruct Hr as (_ & x & Hx & -> & Hok1). destruct (co_count Hok _ _ Hx) as [Href _].
    pose proof (co_held Hok p) as Hheld. set (u1 := set_us_heap _ u) in *.
    assert (us_heap u1 !! p = Some (set_ref_count (u_ref_count x + 1) x)) as Hx1 by apply lookup_insert_eq.
    wp_step. unfold usm_update_user_password. destruct (base64_decode_total pwd) as (pass & -> & _).
    wp_step. eapply wp_load; [exact Hx1|]. eapply wp_store; [exact Hx1|].
    wp_by (apply (put_ksmbd_user_wp (hold p 1 held)); [|rewrite hold_same; lia];
      eapply counted_ext; [apply hold_0|]; eapply counted_update; [exact Hok1|exact Hx1|done..|cbn; lia|rewrite hold_same; lia|cbn; lia]); [|done].
    intros _ u2 [Hok2 _]. eapply counted_ext; [|exact Hok2]. intros q. unfold hold. destruct (decide (q = p)); lia.
  - destruct Hr as [-> _]. wp_step. eapply wp_mono; [by apply (usm_add_new_user_wp _ _ _ base64_decode_total held)|by intros _ u2 []|].
    by intros e u2 [_ ->].
Qed.
Lemma process_pwddb_entry_wp held entry u :
  users_ok held u → wp (process_pwddb_entry entry) u (λ _ u', users_ok held u') (λ _ u', users_ok held u').
Proof.
  intros Hok. unfold process_pwddb_entry. destruct (cp_pwddb_eol entry); [by wp_step|].
  destruct (is_a_user_password entry) eqn:E; [|by wp_step].
  wp_by (apply add_user_password_wp; [exact Hok|]; unfold is_a_user_password in E; by destruct (split_at 58 entry)); [|done]. auto.
Qed.
Lemma pwddb_lines_wp held l u :
  users_ok held u →
  wp (for_each l (λ e, process_pwddb_entry (cstr e))) u (λ _ u', users_ok held u') (λ _ u', users_ok held u').
Proof.
  revert u. induction l as [|e l IH]; intros u Hok; cbn [for_each]; [by wp_step|].
  wp_step. wp_by (by apply process_pwddb_entry_wp); [|done]. intros _ u' Hok'. by apply IH.
Qed.
(** Reading the database keeps the users accounted for, whatever it contains. *)
Lemma cp_parse_pwddb_wp tool set_conf_contents held file u :
  file_fits file → users_ok held u →
  wp (cp_parse_pwddb tool set_conf_contents file) u (λ _ u', users_ok held u') (λ _ _, False).
Proof.
  intros Hf Hok. unfold wp, cp_parse_pwddb. destruct file as [e|contents]; [done|]. rewrite mmap_parse_file_eq by done.
  pose proof (pwddb_lines_wp held (match contents with [] => [[]] | _ => lines contents end) u Hok) as Hw. unfold wp in Hw.
  destruct (for_each _ _ u); done.
Qed.
End Pwddb.

(** ** Loading keeps the daemon *)
Section Keep.
Context `{GLib, System, Allocator, Interfaces} (i : interface) `{!Lawful i} `{PtlsLaws, Libnl, Netlink}.
Hypothesis hash_order_perm : ∀ t, hash_order t ≡ₚ map_to_list t.
Hypothesis base64_decode_total : ∀ b, ∃ p, base64_decode b = Some p ∧ Z.of_nat (length p) ≤ INT_MAX.
Hypothesis strdown_lower : ∀ s, forallb (λ c, negb ((65 <=? c) && (c <=? 90))) s = true → g_ascii_strdown s = s.
Hypothesis utf8_ascii : ∀ s, forallb (λ c, c <? 128) s = true → g_utf8_validate s = true.
Hypothesis keys_differ : gkey ≠ ikey.
Variable group_order : gmap bytes smbconf_group → list (bytes * smbconf_group).
Hypothesis group_order_perm : ∀ t, group_order t ≡ₚ map_to_list t.
Variable set_conf_contents : bytes → Z.
Variable gen_subauth : list Z.
Variable host_named mechs_set_up pool_created : bool.

(** The references are counted, the pipes are between two requests, no share
    restricts hosts, and the configuration is in bounds. *)
Record consistent (p : process) : Prop := {
  cn_daemon : holding i [] (dm_sent (pc_daemon p)) (pc_daemon p);
  cn_conf : conf_ok (pc_conf p);
  cn_parser : pc_parser p = None;
  cn_guest : reloading p = true → is_Some (gc_str (pc_conf p) GUEST_ACCOUNT);
}.
Definition guest_set (p : process) : Prop := is_Some (gc_str (pc_conf p) GUEST_ACCOUNT).
(** What the users and shares do not touch. *)
Definition same_rest (p p' : process) : Prop :=
  pc_conf p' = pc_conf p ∧ pc_parser p' = pc_parser p ∧ pc_channel p' = pc_channel p ∧ pc_pool p' = pc_pool p.
Lemma world_wp {T : Type} (m : prog wstate T) p :
  consistent p → yields (λ w, hosts_free (ws_shares w)) anything m →
  (∀ uh sh, sessions_ok uh sh (pc_world p) → wp m (pc_world p) (λ _ w', sessions_ok uh sh w') (λ _ _, False)) →
  wp (world m) p (λ _ p', consistent p' ∧ same_rest p p') (λ _ _, False).
Proof.
  intros [Hd Hc Hp Hg] Hy Hm. apply wp_zoom. eapply wp_mono; [apply (on_world_keeps i [] (dm_sent (pc_daemon p))); [done|done|]| |done].
  { intros uh sh Hok. wp_by (by apply (Hm uh sh)); [|done]. intros a w' Hw'. exists []. eapply sessions_ok_ext; [|done|exact Hw']. counts. }
  intros a d Hd'. split; [|done]. split; [|done..]. cbn. by rewrite (ho_sent _ _ _ _ Hd').
Qed.
Lemma world_users_wp {T : Type} (m : prog ustate T) p :
  consistent p → (∀ held u, users_ok held u → wp m u (λ _ u', users_ok held u') (λ _ _, False)) →
  wp (world (w_users m)) p (λ _ p', consistent p' ∧ same_rest p p') (λ _ _, False).
Proof.
  intros Hc Hm. apply world_wp; [done|apply hosts_w_users|]. intros uh sh [[[Hu Hp Hs] Hup Hsp] Ht Hh Hn].
  unfold w_users. do 2 apply wp_zoom. wp_by (by apply (Hm _ _ Hu)); [|done]. intros a u' Hu'. (split; [split; [split|..]|..]); done.
Qed.
Lemma remove_shares_wp p :
  consistent p → wp (world (on_shares shm_remove_all_shares)) p (λ _ p', consistent p' ∧ same_rest p p') (λ _ _, False).
Proof.
  intros Hc. apply world_wp; [done|apply hosts_on_shares, hosts_remove_all|]. intros uh sh Hok.
  pose proof (ro_users_pos _ _ _ (wo_refs _ _ _ Hok)) as Hup. pose proof (ro_shares_pos _ _ _ (wo_refs _ _ _ Hok)) as Hsp.
  wp_by (apply (on_shares_wp _ _ _ _ (λ _, uh) (λ _, sh) (λ _ _, True) Hok); intros cu cs _ _ Hs;
      (wp_by (by apply (shm_remove_all_shares_wp hash_order_perm _ _ _ Hs))); [|done];
      by intros _ s' [Hs' _]); [|done]. by intros _ w' [_ ?].
Qed.
Lemma sessions_ok_cap uh sh n w : sessions_ok uh sh w → sessions_ok uh sh (set_ws_cap n w).
Proof. intros [[] ? ? ?]. by split; [split|..]. Qed.
Lemma holding_shares l sent d ul sl s' n :
  holding i l sent d → sessions_ok (λ q, count q ul) (λ q, held_shares d l q + count q sl) (dm_world d) → hosts_free s' →
  shares_ok (λ q, count q ul + count q (heap_refs se_users (ws_heap (dm_world d))))
    (λ q, held_shares d l q + count q sl + count q (heap_refs se_shares (ws_heap (dm_world d)))) s' →
  ∀ w', w' = set_ws_shares s' (dm_world d) ∨ w' = set_ws_cap n (set_ws_shares s' (dm_world d)) →
  holding i l sent (mk_daemon w' (dm_services d) (dm_pipes d) (dm_sent d)).
Proof.
  intros [_ Hp Hf Hs] [[Hr Hup Hsp] Ht Hh Hn] Hf' Hok w' Hw'. split; [|done| |done].
  - cbn. assert (sessions_ok (λ q, count q ul) (λ q, held_shares d l q + count q sl) (set_ws_shares s' (dm_world d))) as Hw
      by (by split; [split|..]).
    exists ul, sl. destruct Hw' as [-> | ->]; [exact Hw|by apply sessions_ok_cap].
  - by destruct Hw' as [-> | ->].
Qed.
Lemma parse_smbconf_wp f p :
  file_fits (fl_smbconf f) → file_fits (fl_created f) → file_hostless (fl_smbconf f) → consistent p →
  wp (parse_smbconf group_order MOUNTD set_conf_contents f) p
    (λ r p', consistent p' ∧ pc_channel p' = pc_channel p ∧ pc_pool p' = pc_pool p ∧ (r = 0 ∨ guest_set p → guest_set p'))
    (λ _ _, False).
Proof.
  intros Hff Hfc Hfh [Hd Hc Hp Hg]. unfold wp, parse_smbconf. rewrite Hp.
  set (c := mk_cstate _ _). destruct (ho_world _ _ _ _ Hd) as (ul & sl & Hw0). pose proof (ro_shares _ _ _ (wo_refs _ _ _ Hw0)) as Hr. cbv beta in Hr.
  pose proof (cp_parse_smbconf_wp (reloading p) group_order MOUNTD set_conf_contents keys_differ utf8_ascii strdown_lower hash_order_perm
    base64_decode_total _ _ None (fl_smbconf f) (fl_created f) c Hff Hfc I Hr Hc Hg) as Hw.
  pose proof (load_hostless strdown_lower group_order group_order_perm keys_differ (reloading p) MOUNTD set_conf_contents
    (fl_smbconf f) (fl_created f) Hff Hfh c (ho_hosts _ _ _ _ Hd)) as Hy.
  unfold wp in Hw. destruct cp_parse_smbconf as [[r q] c'|e c'|]; [|done..].
  destruct Hw as [Hs Hco Hgu Hq _]. destruct Hy as [Hy _]. cbn in Hq, Hgu.
  assert (q = None) as -> by (destruct q; [|done]; by destruct (proj1 Hq ltac:(by eexists))).
  split; [|split; [done|]; split; [done|exact Hgu]]. split; [|done|done|].
  - cbn. eapply (holding_shares _ _ _ ul sl _ (gc_int (cs_conf c') SESSIONS_CAP)); [done|exact Hw0|done|exact Hs|].
    destruct (reloading p); [by left|by right].
  - cbn. intros Hre. apply Hgu. right. apply Hg. exact Hre.
Qed.
Lemma conf_quic g : conf_ok g → 0 ≤ gc_int g QUIC_RECV_TIMEOUT < 2 ^ 32 ∧ 0 ≤ gc_int g SMBD_MAX_IO_SIZE < 2 ^ 32.
Proof. unfold conf_ok, Config.between. intros. lia. Qed.
(** What a load leaves: on success the daemon can run; sockets that were open
    stay as they are. *)
Record load_result (p : process) (r : Z) (p' : process) : Prop := {
  lr_consistent : consistent p';
  lr_guest : r = 0 ∨ guest_set p → guest_set p';
  lr_ready : r = 0 → ch_sk (pc_channel p') = true ∧ is_Some (pc_pool p');
  lr_pushed : ch_pushed (pc_channel p') = ch_pushed (pc_channel p);
  lr_channel : ch_sk (pc_channel p) = true → pc_channel p' = pc_channel p;
  lr_health : ch_sk (pc_channel p) = false → r = 0 → ch_health (pc_channel p') = KSMBD_HEALTH_RUNNING;
}.
Lemma load_failed p p' r :
  consistent p' → pc_channel p' = pc_channel p → (guest_set p → guest_set p') → r ≠ 0 → load_result p r p'.
Proof. intros Hc Hch Hg Hr. split; try done; rewrite ?Hch; try done. intros [?|?]; [done|auto]. Qed.
Lemma start_wp p :
  consistent p → guest_set p →
  wp ((if host_named then ret tt else abort) ;; p <- get ;;
      sockets (ipc_init (pc_conf p) gen_subauth) ;; (if mechs_set_up then ret tt else abort) ;; wp_init pool_created) p
    (load_result p) (λ e _, e = 128 + SIGABRT).
Proof.
  intros [Hd Hc Hp Hg] Hgs. wp_step. destruct host_named; [|unfold abort; by wp_step]. wp_step. wp_step. wp_step. wp_step.
  destruct (conf_quic _ Hc) as [Hq Hio]. apply wp_zoom. eapply wp_mono; [by apply ipc_init_wp| |done].
  intros _ c (Hsk & Hpu & _ & Hch). wp_step. destruct mechs_set_up; [|unfold abort; by wp_step]. wp_step.
  assert (consistent (set_pc_channel c p)) as Hcs.
  { split; [done|done|done|by intros _]. }
  unfold wp_init. wp_step. wp_step. cbn [pc_pool set_pc_channel].
  assert (∀ n r, (r = 0 → is_Some n) → load_result p r (mk_process (pc_daemon p) (pc_conf p) (pc_parser p) c n)) as Hres.
  { intros n r Hn. split; try done; cbn.
    - split; [done|auto].
    - intros E. by rewrite E in Hch.
    - intros E _. by rewrite E in Hch. }
  destruct (pc_pool p) as [n|] eqn:En.
  - wp_step. unfold set_pc_channel. rewrite En. apply Hres. by eexists.
  - destruct pool_created; repeat wp_step; unfold set_pc_channel, set_pc_pool; cbn; rewrite ?En; apply Hres; [by eexists|done].
Qed.
Lemma load_config_wp f p :
  file_fits (fl_pwddb f) → file_fits (fl_smbconf f) → file_fits (fl_created f) → file_hostless (fl_smbconf f) → consistent p →
  wp (load_config group_order MOUNTD set_conf_contents gen_subauth host_named mechs_set_up pool_created f) p
    (load_result p) (λ e _, e = 128 + SIGABRT).
Proof.
  intros Hfp Hfs Hfc Hfh Hc. unfold load_config.
  wp_step. eapply wp_mono; [apply world_users_wp; [exact Hc|]| |done].
  { intros held u Hu. wp_by (by apply (usm_remove_all_users_wp hash_order hash_order_perm _ _ Hu)); [|done]. by intros _ u' []. }
  intros _ p1 [Hc1 (Ec1 & Ep1 & Eh1 & El1)]. wp_step.
  eapply wp_mono; [apply world_users_wp; [exact Hc1|]; intros held u; by apply cp_parse_pwddb_wp| |done].
  intros r p2 [Hc2 (Ec2 & Ep2 & Eh2 & El2)].
  assert (guest_set p → guest_set p2) as Hgs by (unfold guest_set; by rewrite Ec2, Ec1).
  destruct (Z.eqb_spec r 0) as [->|Hr]; cbn [negb].
  2:{ wp_step. apply load_failed; [done|by rewrite Eh2|done|done]. }
  wp_step. wp_step. wp_step. eapply wp_mono; [by apply remove_shares_wp| |done].
  intros _ p3 [Hc3 (Ec3 & Ep3 & Eh3 & El3)]. wp_step. eapply wp_mono; [by apply parse_smbconf_wp| |done].
  intros r p4 (Hc4 & Eh4 & El4 & Hg4).
  assert (pc_channel p4 = pc_channel p) as Eh by congruence.
  assert (guest_set p → guest_set p4) as Hgs4.
  { intros Hg. apply Hg4. right. unfold guest_set. rewrite Ec3. by apply Hgs. }
  destruct (Z.eqb_spec r 0) as [->|Hr]; cbn [negb].
  2:{ wp_step. by apply load_failed. }
  eapply wp_mono; [apply start_wp; [done|by apply Hg4; left]| |done].
  intros r p' [? Hg' ? ? ? ?]. rewrite Eh in *. split; try done. intros [?|?]; apply Hg'; [by left|right; auto].
Qed.
End Keep.
