(* ===== verification/Programs.v ===== *)
(** * The life of an administration program ([src/tools/tools.c])

    The programs beside the daemon load the files, do their work and remove
    everything again: [load_config] and [remove_config] of [Loading] for them,
    whatever the files contain. *)

From S2P Require Import Prelude ConfText Refcount Users Shares Sessions Config Ndr Rpc Quic Ipc Channel Worker Loading.

(** ** Removing all users and shares *)
Section Destroy.
Context `{GLib}.
Hypothesis hash_order_perm : ∀ t, hash_order t ≡ₚ map_to_list t.

(** The entries of a counted table are different objects. *)
Lemma counted_pointers {O : Type} (key : O → bytes) refs freeing held heap table next :
  counted key refs freeing held heap table next →
  NoDup (hash_order table).*2 ∧ Forall (λ p, is_Some (heap !! p)) (hash_order table).*2.
Proof.
  intros Hok. split.
  - assert (∀ l : list (bytes * Z), NoDup l.*1 → (∀ n p, (n, p) ∈ l → table !! n = Some p) → NoDup l.*2) as Hnd.
    { induction l as [|[n p] l IH]; intros Hd Hin; [constructor|]. cbn in *. apply NoDup_cons in Hd as [Hni Hd].
      constructor; [|apply IH; [done|]; intros m q Hq; apply Hin; by right].
      intros ([m q] & -> & Hq)%list_elem_of_fmap. cbn in *.
      destruct (co_table Hok n q) as (o & Ho & <- & _); [apply Hin; left|].
      destruct (co_table Hok m q) as (o' & Ho' & <- & _); [apply Hin; by right|].
      apply Hni. rewrite Ho in Ho'. injection Ho' as ->. by apply (list_elem_of_fmap_2 fst l (key o', q)). }
    apply Hnd; [rewrite hash_order_perm; apply NoDup_fst_map_to_list|]. intros n p Hp.
    rewrite hash_order_perm in Hp. by apply elem_of_map_to_list.
  - apply Forall_forall. intros p ([n q] & -> & Hq)%list_elem_of_fmap. rewrite hash_order_perm in Hq.
    apply elem_of_map_to_list in Hq. destruct (co_table Hok n q Hq) as (o & Ho & _). by exists o.
Qed.
(** The shares are freed one after the other, and give their users back. *)
Lemma kill_shares_wp (l : list (bytes * Z)) s :
  NoDup l.*2 → Forall (λ p, is_Some (ss_heap s !! p)) l.*2 →
  users_ok (λ q, 0 + count q (all_users (ss_heap s))) (ss_users s) →
  wp (for_each l (λ '(_, p), kill_ksmbd_share p)) s
    (λ _ s', users_ok (λ q, 0 + count q (all_users (ss_heap s'))) (ss_users s')) (λ _ _, False).
Proof.
  revert s. induction l as [|[n p] l IH]; intros s Hd Ha Hu; cbn [for_each]; [by wp_step|].
  cbn in Hd, Ha. apply NoDup_cons in Hd as [Hni Hd]. apply Forall_cons in Ha as [[x Hx] Ha].
  wp_step. wp_by (by apply (kill_ksmbd_share_wp hash_order_perm (λ _, 0) s p x)); [|done].
  intros _ s' (Hu' & Hh & _ & _). apply IH; [done| |done]. apply Forall_forall. intros q Hq. rewrite Hh.
  rewrite lookup_delete_ne by (intros ->; done). rewrite Forall_forall in Ha. by apply Ha.
Qed.
Lemma shm_destroy_wp s :
  shares_ok (λ _, 0) (λ _, 0) s →
  wp shm_destroy s (λ _ s', ss_table s' = ∅ ∧ users_ok (λ q, 0 + count q (all_users (ss_heap s'))) (ss_users s')) (λ _ _, False).
Proof.
  intros [Hu _ Hs]. destruct (counted_pointers _ _ _ _ _ _ _ Hs) as [Hd Ha]. unfold shm_destroy. do 2 wp_step. wp_step.
  eapply wp_mono; [by apply kill_shares_wp| |done]. intros u s' Hu'. by wp_step.
Qed.
Lemma kill_users_wp (l : list (bytes * Z)) s :
  NoDup l.*2 → Forall (λ p, is_Some (us_heap s !! p)) l.*2 →
  wp (for_each l (λ '(_, p), kill_ksmbd_user p)) s (λ _ _, True) (λ _ _, False).
Proof.
  revert s. induction l as [|[n p] l IH]; intros s Hd Ha; cbn [for_each]; [by wp_step|].
  cbn in Hd, Ha. apply NoDup_cons in Hd as [Hni Hd]. apply Forall_cons in Ha as [[x Hx] Ha].
  wp_step. eapply wp_release; [exact Hx|]. apply IH; [done|]. apply Forall_forall. intros q Hq.
  cbn. rewrite lookup_delete_ne by (intros ->; done). rewrite Forall_forall in Ha. by apply Ha.
Qed.
Lemma usm_destroy_wp held s :
  users_ok held s → wp (usm_destroy hash_order) s (λ _ s', us_table s' = ∅) (λ _ _, False).
Proof.
  intros Hu. destruct (counted_pointers _ _ _ _ _ _ _ Hu) as [Hd Ha]. unfold usm_destroy. do 2 wp_step. wp_step.
  eapply wp_mono; [by apply kill_users_wp| |done]. intros u s' Hu'. by wp_step.
Qed.
End Destroy.

(** ** Loading and removing *)
Section Programs.
Context `{GLib, System, Allocator, Ptls, Libnl, Netlink}.
Hypothesis hash_order_perm : ∀ t, hash_order t ≡ₚ map_to_list t.
Hypothesis base64_decode_total : ∀ b, ∃ p, base64_decode b = Some p ∧ Z.of_nat (length p) ≤ INT_MAX.
Hypothesis strdown_lower : ∀ s, forallb (λ c, negb ((65 <=? c) && (c <=? 90))) s = true → g_ascii_strdown s = s.
Hypothesis utf8_ascii : ∀ s, forallb (λ c, c <? 128) s = true → g_utf8_validate s = true.
Hypothesis keys_differ : gkey ≠ ikey.
Variable group_order : gmap bytes smbconf_group → list (bytes * smbconf_group).
Variable session_order : gmap Z Z → list (Z * Z).
Variable tool : tool_main.
Hypothesis not_mountd : tool ≠ MOUNTD.
Variable set_conf_contents : bytes → Z.
Variable gen_subauth : list Z.
Variable host_named mechs_set_up pool_created : bool.

Definition pc_shares (p : process) : sstate := ws_shares (pc_world p).
(** The tables are accounted for, and so is the parser of the share program. *)
Record ready (p : process) : Prop := {
  rd_shares : shares_ok (λ _, 0) (λ _, 0) (pc_shares p);
  rd_conf : conf_ok (pc_conf p);
  rd_parser : from_option parser_ok True (pc_parser p);
  rd_reload : reloading p = false;
}.
Record files_fit (f : files) : Prop := {
  ff_pwddb : file_fits (fl_pwddb f); ff_smbconf : file_fits (fl_smbconf f); ff_created : file_fits (fl_created f);
}.
Lemma world_shares_wp {T : Type} (m : prog sstate T) p (Q : T → process → Prop) :
  wp m (pc_shares p) (λ a s', Q a (set_pc_world (set_ws_shares s' (pc_world p)) p)) (λ _ _, False) →
  wp (world (on_shares m)) p Q (λ _ _, False).
Proof. intros Hm. unfold world, on_world, on_shares. apply wp_zoom, wp_zoom, wp_zoom. exact Hm. Qed.
Lemma parse_pwddb_ready f p :
  files_fit f → ready p →
  wp (world (w_users (cp_parse_pwddb tool set_conf_contents (fl_pwddb f)))) p
    (λ _ p', ready p' ∧ pc_parser p' = pc_parser p) (λ _ _, False).
Proof.
  intros Hf [[Hu Hp Hs] Hc Hpa Hr]. unfold w_users. apply world_shares_wp. apply wp_zoom.
  eapply wp_mono; [by apply cp_parse_pwddb_wp; [..|exact Hu]; destruct Hf| |done].
  intros r u' Hu'. split; [|done]. split; [|done..]. split; done.
Qed.
(** A success of the share program leaves it with the groups of the file. *)
Lemma tool_load_wp f p :
  files_fit f → ready p →
  wp (load_config group_order tool set_conf_contents gen_subauth host_named mechs_set_up pool_created f) p
    (λ r p', ready p' ∧ (tool = ADDSHARE → r = 0 → is_Some (pc_parser p'))) (λ _ _, False).
Proof.
  intros Hf Hp. unfold load_config. wp_step.
  eapply (wp_mono _ _ (λ _ p', p' = p) _ (λ _ _, False)); [destruct tool; try (by wp_step); done| |done]. intros _ ? ->.
  wp_step. eapply wp_mono; [by apply parse_pwddb_ready| |done]. intros r p1 [[Hs1 Hc1 Hpa1 Hr1] Ep1].
  destruct (Z.eqb_spec r 0) as [->|Hr]; cbn [negb]; [|wp_step; by split].
  wp_step. eapply (wp_mono _ _ (λ _ p', ready p' ∧ (tool = ADDSHARE → is_Some (pc_parser p'))) _ (λ _ _, False)); [|cbv beta|done].
  { destruct tool; try (wp_step; by split). wp_step. split; [split; [done|done| |done]|by eexists].
    cbn. destruct (pc_parser p1); [exact Hpa1|apply new_parser_ok]. }
  intros _ p2 [[Hs2 Hc2 Hpa2 Hr2] Hadd]. wp_step.
  eapply (wp_mono _ _ (λ _ p', p' = p2) _ (λ _ _, False)); [destruct tool; try (by wp_step); done| |done]. intros _ ? ->.
  wp_step. unfold wp at 1, parse_smbconf. rewrite Hr2.
  pose proof (cp_parse_smbconf_wp false group_order tool set_conf_contents keys_differ utf8_ascii strdown_lower hash_order_perm
    base64_decode_total (λ _, 0) (λ _, 0) (pc_parser p2) (fl_smbconf f) (fl_created f)
    (mk_cstate (ws_shares (pc_world p2)) (pc_conf p2)) ltac:(apply Hf) ltac:(apply Hf) Hpa2 Hs2 Hc2 ltac:(done)) as Hw.
  unfold wp in Hw. destruct cp_parse_smbconf as [[r q] c'|e c'|]; [|done..]. destruct Hw as [Hs Hco _ Hq Hpa]. cbn [fst snd] in *.
  assert (∀ p', pc_shares p' = cs_shares c' → pc_conf p' = cs_conf c' → pc_parser p' = q → reloading p' = false →
    ∀ r', ready p' ∧ (tool = ADDSHARE → r' = 0 → is_Some (pc_parser p'))) as Hend.
  { intros p' E1 E2 E3 E4 r'. split; [split; [by rewrite E1|by rewrite E2|by rewrite E3|done]|].
    intros Ht _. rewrite E3. apply Hq. auto. }
  destruct (Z.eqb_spec r 0) as [->|Hr]; cbn [negb]; [|wp_step; by apply Hend].
  destruct tool; try (wp_step; by apply Hend). done.
Qed.
Lemma tool_remove_wp p :
  shares_ok (λ _, 0) (λ _, 0) (pc_shares p) →
  wp (remove_config session_order tool) p
    (λ _ p', ss_table (pc_shares p') = ∅ ∧ us_table (ss_users (pc_shares p')) = ∅ ∧ pc_parser p' = match tool with ADDSHARE => None | _ => pc_parser p end)
    (λ _ _, False).
Proof.
  intros Hs. unfold remove_config.
  assert (∀ p', pc_shares p' = pc_shares p →
    wp (world (on_shares shm_destroy) ;; world (w_users (usm_destroy hash_order))) p'
      (λ _ p2, ss_table (pc_shares p2) = ∅ ∧ us_table (ss_users (pc_shares p2)) = ∅ ∧ pc_parser p2 = pc_parser p') (λ _ _, False)) as Hd.
  { intros p' E. wp_step. apply world_shares_wp. rewrite E. eapply wp_mono; [by apply shm_destroy_wp| |done].
    intros _ s' [Ht Hu]. unfold w_users. apply world_shares_wp, wp_zoom. eapply wp_mono; [by eapply usm_destroy_wp| |done].
    intros v u' Htu. by cbn. }
  wp_step. destruct tool; [wp_step|wp_step|wp_step|done]; (eapply wp_mono; [by apply Hd| |done]);
    by intros v p2 (? & ? & ->).
Qed.
End Programs.
