(* ===== verification/Daemon.v ===== *)
(** * The daemon's processes ([src/mountd/mountd.c])

    The worker waits for messages and signals, serves the messages with its
    threads, and reloads or lists its configuration when it is asked to.  The
    manager supervises it: it passes signals on, hands the listing over to the
    program that asked for it, and starts a new worker when one died. *)

From S2P Require Import Prelude ConfText Refcount Users Shares Sessions Config Ndr Rpc Srvsvc Quic Ipc Channel Frame HostLists Worker Loading.

(** ** Signals *)
Definition SIGHUP : Z := 1.
Definition SIGINT : Z := 2.
Definition SIGQUIT : Z := 3.
Definition SIGUSR1 : Z := 10.
Definition SIGPIPE : Z := 13.
Definition SIGTERM : Z := 15.
Definition SIGCHLD : Z := 17.
Definition SIGIO : Z := 29.
Definition ECHILD : Z := 10.
Definition EIO : Z := 5.
Definition ESRCH : Z := 3.
Definition sigset : list Z := [SIGIO; SIGPIPE; SIGCHLD; SIGHUP; SIGUSR1; SIGINT; SIGQUIT; SIGTERM; SIGABRT].

(** The handler, on [ksmbd_health_status]; for any other signal it ends the
    process with the status [128 + signo]. *)
Definition worker_sa_sigaction (signo : Z) : prog Z unit :=
  if bool_decide (signo ∈ [SIGIO; SIGPIPE; SIGCHLD]) then ret tt
  else if signo =? SIGHUP then modify (λ h, Z.lor h KSMBD_SHOULD_RELOAD_CONFIG)
  else if signo =? SIGUSR1 then modify (λ h, Z.lor h KSMBD_SHOULD_LIST_CONFIG)
  else if bool_decide (signo ∈ [SIGINT; SIGQUIT; SIGTERM]) then modify (λ h, Z.ldiff h KSMBD_HEALTH_RUNNING)
  else fail (128 + signo).

(** ** The worker *)

(** Where the main thread is: the signals are blocked and it is about to wait,
    it waits in [poll] with the signals unblocked, [ipc_process_event] returned
    and the signals are blocked again, or it left the loop. *)
Inductive point := Blocked | Waiting | Returned (ret : Z) | Leaving (ret : Z).
#[export] Instance point_eq : EqDecision point.
Proof. solve_decision. Defined.
(** The signals that are pending, the process, what was written to the pipe of
    the manager, and how often the manager was told about a listing. *)
Record worker := mk_worker {
  wk_point : point; wk_pending : list Z; wk_process : process; wk_out : list bytes; wk_told : Z;
}.
Definition set_point (x : point) (w : worker) : worker := mk_worker x (wk_pending w) (wk_process w) (wk_out w) (wk_told w).
Definition set_pending (l : list Z) (w : worker) : worker := mk_worker (wk_point w) l (wk_process w) (wk_out w) (wk_told w).
Definition set_process (p : process) (w : worker) : worker := mk_worker (wk_point w) (wk_pending w) p (wk_out w) (wk_told w).
Definition say (b : bytes) (w : worker) : worker :=
  mk_worker (wk_point w) (wk_pending w) (wk_process w) (wk_out w ++ [b]) (wk_told w).
Definition tell (w : worker) : worker :=
  mk_worker (wk_point w) (wk_pending w) (wk_process w) (wk_out w) (wk_told w + 1).
Definition wk_channel (w : worker) : channel := pc_channel (wk_process w).
Definition wk_shares (w : worker) : sstate := ws_shares (pc_world (wk_process w)).
Definition in_process {T : Type} : prog process T → prog worker T := zoom wk_process set_process.
Definition in_channel {T : Type} (m : prog channel T) : prog worker T := in_process (sockets m).
Definition in_health {T : Type} (m : prog Z T) : prog worker T := in_channel (zoom ch_health set_health m).
Definition health (flag : Z) (w : worker) : bool := test_flag (ch_health (wk_channel w)) flag.

(** What happens next: a signal of the set arrives, the main thread starts to
    wait, [poll] returns, a thread of the pool serves the next message, or the
    main thread goes through the rest of its loop, with the files as they are. *)
Inductive action `{Libnl} := Signal (signo : Z) | Wait | Return (p : polled) | Serve | Turn (f : files).

(** [%28s] *)
Definition right_aligned (width : nat) (s : bytes) : bytes := replicate (width - length s) 32 ++ s.
(** [LIST_FMT_SS] *)
Definition list_line (name comment : bytes) : bytes := right_aligned 28 name ++ str "    " ++ comment.
Definition escape (s : string) : bytes := 27 :: str s.

Section Worker.
Context `{GLib, System, Allocator, Interfaces, Ptls, Libnl, Netlink}.
Variable group_order : gmap bytes smbconf_group → list (bytes * smbconf_group).
Variable session_order : gmap Z Z → list (Z * Z).
Variable set_conf_contents : bytes → Z.
Variable gen_subauth : list Z.
Variable host_named mechs_set_up pool_created : bool.
Variable handle_authen : Z → bytes → option auth_out.
Variable stack_flags : Z.
(** What [kill(global_conf.pid, SIGUSR1)] gives: zero, or a negative code *)
Variable kill_manager : Z.
(** How many octets the pipe takes of the n-th text: it does not block *)
Variable pipe_room : nat → nat.

Definition load (f : files) : prog worker Z :=
  in_process (load_config group_order MOUNTD set_conf_contents gen_subauth host_named mechs_set_up pool_created f).
(** [dprintf(wfd, ...)]: what the pipe does not take is lost, and the result is
    not looked at. *)
Definition dprintf (b : bytes) : prog worker unit :=
  modify (λ w, say (take (pipe_room (length (wk_out w))) b) w).
Definition __list_config_share_cb (p : Z) : prog worker unit :=
  x <- in_process (world (on_shares (sload p))) ;;
  dprintf (list_line (sh_name x) (default [] (sh_comment x)) ++ [10]).
(** The walk is [shm_iter_shares]. *)
Definition list_config : prog worker Z :=
  dprintf (escape "[1m" ++ list_line (str "Name") (str "Comment") ++ escape "[m" ++ [10]) ;;
  w <- get ;;
  for_each (hash_order (ss_table (wk_shares w))) (λ x, __list_config_share_cb x.2) ;;
  (if kill_manager =? 0 then modify tell else ret tt) ;;
  ret kill_manager.

(** *** The steps *)
Definition signal (signo : Z) : prog worker unit :=
  w <- get ;;
  if negb (bool_decide (signo ∈ sigset)) then ret tt
  else match wk_point w with
  | Waiting =>
      in_health (worker_sa_sigaction signo) ;;
      w <- get ;;
      r <- in_channel (ipc_process_event (pc_conf (wk_process w)) Interrupted) ;;
      modify (set_point (Returned r))
  | _ => modify (λ w, set_pending (if bool_decide (signo ∈ wk_pending w) then wk_pending w else wk_pending w ++ [signo]) w)
  end.
(** [pthread_sigmask(SIG_UNBLOCK, ...)] runs the handlers of the signals that
    are pending; [ipc_process_event] waits only then. *)
Definition wait : prog worker unit :=
  w <- get ;;
  match wk_point w with
  | Blocked =>
      modify (set_pending []) ;;
      for_each (wk_pending w) (λ signo, in_health (worker_sa_sigaction signo)) ;;
      modify (set_point Waiting)
  | _ => ret tt
  end.
Definition poll_returns (p : polled) : prog worker unit :=
  w <- get ;;
  match wk_point w with
  | Waiting => r <- in_channel (ipc_process_event (pc_conf (wk_process w)) p) ;; modify (set_point (Returned r))
  | _ => ret tt
  end.
(** A thread of the pool; the threads have all signals of the set blocked. *)
Definition serve : prog worker unit :=
  w <- get ;;
  match ch_pushed (wk_channel w) with
  | [] => ret tt
  | m :: rest =>
      let conf := pc_conf (wk_process w) in
      in_channel (modify (set_pushed rest)) ;;
      in_process (zoom pc_daemon set_pc_daemon
        (worker_pool_fn (gc_int conf MAP_TO_GUEST) (gc_str conf GUEST_ACCOUNT) (gc_int conf RESTRICT_ANON) (gc_str conf ROOT_DIR)
           handle_authen stack_flags m))
  end.
(** [if (ksmbd_health_status & flag)]: the flag is cleared on success only. *)
Definition asked (flag : Z) (m : prog worker Z) : prog worker unit :=
  w <- get ;;
  if health flag w then
    r <- m ;; if r =? 0 then in_health (modify (λ h, Z.ldiff h flag)) else ret tt
  else ret tt.
Definition turn (f : files) : prog worker unit :=
  w <- get ;;
  match wk_point w with
  | Returned r =>
      if negb (r =? 0) || negb (health KSMBD_HEALTH_RUNNING w) then modify (set_point (Leaving r))
      else
        asked KSMBD_SHOULD_RELOAD_CONFIG (load f) ;;
        asked KSMBD_SHOULD_LIST_CONFIG list_config ;;
        modify (set_point Blocked)
  | _ => ret tt
  end.
Definition act (a : action) : prog worker unit :=
  match a with
  | Signal signo => signal signo
  | Wait => wait
  | Return p => poll_returns p
  | Serve => serve
  | Turn f => turn f
  end.

(** [worker_init] in the new process, up to the loop, and from [out] on *)
Definition worker_start (f : files) : prog worker unit :=
  r <- load f ;; modify (set_point (if r =? 0 then Blocked else Leaving r)).
Definition worker_out (r : Z) : prog process Z := remove_config session_order MOUNTD ;; ret r.
Definition run (f : files) (actions : list action) : prog worker unit := worker_start f ;; for_each actions act.
End Worker.

(** ** What the worker keeps *)
Section Keep.
Context `{GLib, System, Allocator, Interfaces} (i : interface) `{!Lawful i} `{PtlsLaws, Libnl, Netlink}.
Hypothesis hash_order_perm : ∀ t, hash_order t ≡ₚ map_to_list t.
Hypothesis small_requests : ∀ n, n ≤ 255 * dcerpc_context_sz → g_try_malloc n = true.
Hypothesis base64_decode_total : ∀ b, ∃ p, base64_decode b = Some p ∧ Z.of_nat (length p) ≤ INT_MAX.
Hypothesis strdown_lower : ∀ s, forallb (λ c, negb ((65 <=? c) && (c <=? 90))) s = true → g_ascii_strdown s = s.
Hypothesis utf8_ascii : ∀ s, forallb (λ c, c <? 128) s = true → g_utf8_validate s = true.
Hypothesis keys_differ : gkey ≠ ikey.
Hypothesis netlink_checks : libnl_checks.
Variable group_order : gmap bytes smbconf_group → list (bytes * smbconf_group).
Hypothesis group_order_perm : ∀ t, group_order t ≡ₚ map_to_list t.
Variable set_conf_contents : bytes → Z.
Variable gen_subauth : list Z.
Variable host_named mechs_set_up pool_created : bool.
Variable handle_authen : Z → bytes → option auth_out.
Variable stack_flags : Z.
Variable kill_manager : Z.
Variable pipe_room : nat → nat.
Abbreviation step := (act group_order set_conf_contents gen_subauth host_named mechs_set_up pool_created handle_authen stack_flags kill_manager pipe_room).
Abbreviation load' := (load group_order set_conf_contents gen_subauth host_named mechs_set_up pool_created).

(** Files that fit into memory and do not restrict hosts *)
Record good_files (f : files) : Prop := {
  gf_pwddb : file_fits (fl_pwddb f); gf_smbconf : file_fits (fl_smbconf f); gf_created : file_fits (fl_created f);
  gf_hosts : file_hostless (fl_smbconf f);
}.
Definition good_action (a : action) : Prop :=
  match a with
  | Turn f => good_files f
  | Return (Arrived (Some msgs) _) => ∀ msg code m, msg ∈ msgs → nlink_msg_cb msg = (code, Some m) → tame i m
  | _ => True
  end.
Definition is_leaving (w : worker) : Prop := match wk_point w with Leaving _ => True | _ => False end.
(** Between two steps: the tables, the pipes and the configuration are
    consistent, the messages that wait for a thread passed libnl, and unless it
    leaves, the worker knows the guest account. *)
Record alive (w : worker) : Prop := {
  al_process : consistent i (wk_process w);
  al_pushed : Forall (λ m, accepted m ∧ tame i m) (ch_pushed (wk_channel w));
  al_pending : Forall (.∈ sigset) (wk_pending w);
  al_guest : is_leaving w ∨ guest_set (wk_process w);
}.

Definition going (w : worker) : Prop := alive w ∧ guest_set (wk_process w).
Definition died (e : Z) (w : worker) : Prop := e = 128 + SIGABRT.

Lemma going_alive w : alive w → ¬ is_leaving w → going w.
Proof. intros [? ? ? [?|?]] ?; [done|]. split; [|done]. split; [done..|by right]. Qed.
Lemma going_point x w : going w → going (set_point x w).
Proof. intros [[] Hg]. split; [|done]. split; [done..|by right]. Qed.
Lemma going_health h w :
  going w → going (set_process (set_pc_channel (set_health h (wk_channel w)) (wk_process w)) w).
Proof. intros [[[] ? ? _] Hg]. split; [|done]. split; [by split|done..|by right]. Qed.
Lemma in_health_wp {T : Type} (m : prog Z T) w :
  going w → wp m (ch_health (wk_channel w)) (λ _ _, True) (λ e _, e = 128 + SIGABRT) →
  wp (in_health m) w (λ _ w', going w' ∧ wk_point w' = wk_point w) died.
Proof.
  intros Hw Hm. unfold in_health, in_channel, in_process, sockets. do 3 apply wp_zoom.
  eapply wp_mono; [exact Hm| |by intros e h ->]. intros a h _. split; [by apply going_health|done].
Qed.
Lemma handler_wp signo h :
  signo ∈ sigset → wp (worker_sa_sigaction signo) h (λ _ _, True) (λ e _, e = 128 + SIGABRT).
Proof.
  intros Hs. unfold worker_sa_sigaction. case_bool_decide; [by wp_step|].
  destruct (Z.eqb_spec signo SIGHUP); [by wp_step|]. destruct (Z.eqb_spec signo SIGUSR1); [by wp_step|].
  case_bool_decide; [by wp_step|]. wp_step. assert (signo = SIGABRT) as ->; [|done]. unfold sigset in Hs. set_solver.
Qed.
Lemma event_wp p w :
  good_action (Return p) → going w →
  wp (in_channel (ipc_process_event (pc_conf (wk_process w)) p)) w (λ _ w', going w') died.
Proof.
  intros Ha [[[] Hp Hs Hl] Hg]. unfold in_channel, in_process, sockets. do 2 apply wp_zoom.
  destruct (conf_quic _ cn_conf) as [Hq Hio]. eapply wp_mono; [by apply process_event_wp| |done].
  intros r c (l & Hsame & Hm).
  assert (ch_pushed c = ch_pushed (wk_channel w) ++ l) as Ec.
  { apply (f_equal ch_pushed) in Hsame. exact Hsame. }
  split; [|done]. split; [by split|cbn; rewrite Ec|done|by right]. apply Forall_app. split; [done|].
  eapply Forall_impl; [exact Hm|]. intros m (msgs & quic & msg & code & -> & Hin & Hcb). split; [by eapply nlink_accepted|].
  by apply (Ha _ _ _ Hin Hcb).
Qed.
Lemma handlers_wp l w :
  going w → Forall (.∈ sigset) l →
  wp (for_each l (λ signo, in_health (worker_sa_sigaction signo))) w (λ _ w', going w') died.
Proof.
  intros Hw Hl. revert w Hw. induction Hl as [|signo l Hs _ IH]; intros w Hw; cbn [for_each]; [by wp_step|].
  wp_step. eapply wp_mono; [apply in_health_wp; [done|by apply handler_wp]| |done]. intros _ w' [Hw' _]. by apply IH.
Qed.
Lemma load_wp f w :
  good_files f → consistent i (wk_process w) →
  wp (load' f) w
    (λ r w', load_result i (wk_process w) r (wk_process w') ∧ wk_point w' = wk_point w ∧ wk_pending w' = wk_pending w) died.
Proof.
  intros [] Hc. unfold load, in_process. apply wp_zoom. eapply wp_mono; [by eapply load_config_wp| |by intros ? ? ->].
  by intros r p Hr.
Qed.

(** *** The listing *)
Definition share_line (sh : sstate) (x : bytes * Z) : bytes :=
  match ss_heap sh !! x.2 with
  | Some s => list_line (sh_name s) (default [] (sh_comment s)) ++ [10]
  | None => []
  end.
Definition list_header : bytes := escape "[1m" ++ list_line (str "Name") (str "Comment") ++ escape "[m" ++ [10].
(** A header, and a line for each share of the table. *)
Definition listing (w : worker) : list bytes :=
  list_header :: (share_line (wk_shares w) <$> hash_order (ss_table (wk_shares w))).
Definition outputs (l : list bytes) (n : Z) (w : worker) : worker :=
  mk_worker (wk_point w) (wk_pending w) (wk_process w) (wk_out w ++ l) (wk_told w + n).
(** What the pipe takes of the texts [l], which [n] others came before *)
Definition taken (n : nat) (l : list bytes) : list bytes := imap (λ k b, take (pipe_room (n + k)) b) l.
Lemma taken_cons n b l : taken n (b :: l) = take (pipe_room n) b :: taken (S n) l.
Proof.
  unfold taken. cbn. rewrite Nat.add_0_r. f_equal. apply imap_ext. intros k x _. cbn. by rewrite Nat.add_succ_r.
Qed.
Lemma taken_all n l : (∀ k b, l !! k = Some b → (length b ≤ pipe_room (n + k))%nat) → taken n l = l.
Proof.
  revert n. induction l as [|b l IH]; intros n Hl; [done|]. rewrite taken_cons. f_equal.
  - apply take_ge. specialize (Hl 0%nat b eq_refl). by rewrite Nat.add_0_r in Hl.
  - apply IH. intros k x Hx. specialize (Hl (S k) x Hx). by rewrite Nat.add_succ_r in Hl.
Qed.
Lemma list_lines_wp l w :
  (∀ x, x ∈ l → is_Some (ss_heap (wk_shares w) !! x.2)) →
  wp (for_each l (λ x, __list_config_share_cb pipe_room x.2)) w
    (λ _ w', w' = outputs (taken (length (wk_out w)) (share_line (wk_shares w) <$> l)) 0 w) (λ _ _, False).
Proof.
  revert w. induction l as [|x l IH]; intros w Hl; cbn [for_each].
  { wp_step. unfold outputs. cbn. rewrite app_nil_r, Z.add_0_r. by destruct w. }
  wp_step. unfold __list_config_share_cb at 1, dprintf at 1. destruct (Hl x ltac:(by left)) as [s Hs].
  unfold in_process, world, on_world, on_shares. wp_step. do 4 apply wp_zoom. eapply wp_load; [exact Hs|]. wp_step.
  assert (∀ p, set_pc_daemon (mk_daemon (set_ws_shares (ws_shares (dm_world (pc_daemon p))) (dm_world (pc_daemon p)))
     (dm_services (pc_daemon p)) (dm_pipes (pc_daemon p)) (dm_sent (pc_daemon p))) p = p) as Hid by by intros [[[] ? ? ?] ? ? ? ?].
  rewrite Hid. replace (set_process (wk_process w) w) with w by by destruct w.
  eapply wp_mono; [apply IH|cbv beta|done].
  - intros y Hy. apply Hl. by right.
  - intros _ w' ->. unfold outputs. cbn [fmap list_fmap]. rewrite taken_cons. unfold share_line at 2. rewrite Hs. cbn.
    by rewrite <-app_assoc, length_app, Nat.add_1_r.
Qed.
Lemma list_config_wp w :
  consistent i (wk_process w) →
  wp (list_config kill_manager pipe_room) w
    (λ r w', r = kill_manager ∧
       w' = outputs (taken (length (wk_out w)) (listing w)) (if kill_manager =? 0 then 1 else 0) w) (λ _ _, False).
Proof.
  intros Hc. unfold list_config, dprintf. wp_step. wp_step. wp_step. wp_step. wp_step.
  eapply wp_mono; [apply list_lines_wp| |done].
  - intros [n p] Hx. rewrite hash_order_perm in Hx. apply elem_of_map_to_list in Hx.
    destruct (ho_world _ _ _ _ (cn_daemon _ _ Hc)) as (ul & sl & Hw).
    destruct (Shares.so_shares _ _ _ (ro_shares _ _ _ (wo_refs _ _ _ Hw))) as [Ht _ _ _ _].
    destruct (Ht _ _ Hx) as (s & Hs & _). by exists s.
  - intros _ w' ->. wp_step. unfold outputs, listing. rewrite taken_cons. cbn [wk_out say]. rewrite length_app, Nat.add_1_r.
    destruct (kill_manager =? 0); wp_step; wp_step; (split; [done|]); cbn; by rewrite <-app_assoc, ?Z.add_0_r.
Qed.

(** *** Every step *)
Lemma signal_wp signo w : alive w → wp (signal signo) w (λ _ w', alive w') died.
Proof.
  intros Hw. unfold signal. wp_step. wp_step. case_bool_decide as Hs; cbn [negb]; [|by wp_step].
  assert (wp (modify (λ w, set_pending (if bool_decide (signo ∈ wk_pending w) then wk_pending w else wk_pending w ++ [signo]) w))
    w (λ _ w', alive w') died) as Hpend.
  { wp_step. destruct Hw as [Hc Hp Hse Hg]. split; [exact Hc|exact Hp| |exact Hg]. cbn. case_bool_decide; [done|].
    apply Forall_app. split; [done|]. by constructor. }
  destruct (wk_point w) eqn:Ep; [exact Hpend| |exact Hpend..].
  assert (going w) as Hgo by (apply going_alive; [done|unfold is_leaving; rewrite Ep; tauto]).
  wp_step. eapply wp_mono; [apply in_health_wp; [done|by apply handler_wp]| |done]. intros u w1 [Hw1 _]. do 3 wp_step.
  eapply wp_mono; [by apply event_wp| |done]. intros r w2 Hw2. wp_step. by apply going_point.
Qed.
Lemma wait_wp w : alive w → wp wait w (λ _ w', alive w') died.
Proof.
  intros Hw. unfold wait. wp_step. wp_step. destruct (wk_point w) eqn:Ep; [|by wp_step..].
  assert (going w) as [[Hc Hp Hse Hg] Hgs] by (apply going_alive; [done|unfold is_leaving; rewrite Ep; tauto]).
  wp_step. wp_step. wp_step. eapply wp_mono; [apply handlers_wp; [|done]| |done].
  - split; [|done]. split; [done..|by right].
  - intros u w' Hw'. wp_step. by apply going_point.
Qed.
Lemma poll_returns_wp p w : good_action (Return p) → alive w → wp (poll_returns p) w (λ _ w', alive w') died.
Proof.
  intros Ha Hw. unfold poll_returns. wp_step. wp_step. destruct (wk_point w) eqn:Ep; [by wp_step| |by wp_step..].
  wp_step. eapply wp_mono; [apply event_wp; [done|]; apply going_alive; [done|unfold is_leaving; rewrite Ep; tauto]| |done].
  intros r w' Hw'. wp_step. by apply going_point.
Qed.
Lemma serve_next_wp w : alive w → wp (serve handle_authen stack_flags) w (λ _ w', alive w') died.
Proof.
  intros Hw. unfold serve. wp_step. wp_step. destruct (ch_pushed (wk_channel w)) as [|m rest] eqn:Ep; [by wp_step|].
  cbv zeta. wp_step. unfold in_channel, in_process, sockets. do 2 apply wp_zoom. wp_step. do 2 apply wp_zoom.
  destruct Hw as [[Hd Hco Hpa Hgu] Hp Hse Hg]. rewrite Ep in Hp. inversion Hp as [|m' rest' [Hacc Ht] Hrest]; subst.
  cbn [wk_process set_process pc_daemon set_pc_channel].
  assert (gc_int (pc_conf (wk_process w)) MAP_TO_GUEST = KSMBD_CONF_MAP_TO_GUEST_NEVER ∨
          gc_int (pc_conf (wk_process w)) MAP_TO_GUEST = KSMBD_CONF_MAP_TO_GUEST_BAD_USER) as Hmap by (unfold conf_ok in Hco; tauto).
  eapply wp_mono; [apply (worker_wp i hash_order_perm small_requests _ _ _ _ _ _ Hmap); [done|done|exact Hd]| |done].
  intros _ d Hd'%settled_holding. by split.
Qed.
Lemma asked_wp flag m w :
  going w → wp m w (λ _ w', going w') died → wp (asked flag m) w (λ _ w', going w') died.
Proof.
  intros Hw Hm. unfold asked. wp_step. wp_step. destruct (health flag w); [|by wp_step]. wp_step.
  eapply wp_mono; [exact Hm| |done]. intros r w' Hw'. destruct (r =? 0); [|by wp_step].
  eapply wp_mono; [apply in_health_wp; [done|by wp_step]| |done]. by intros u w2 [].
Qed.
Lemma load_alive_wp f w :
  good_files f → consistent i (wk_process w) → Forall (.∈ sigset) (wk_pending w) →
  Forall (λ m, accepted m ∧ tame i m) (ch_pushed (wk_channel w)) →
  wp (load' f) w (λ r w', (r = 0 ∨ guest_set (wk_process w) → going w') ∧
    (r ≠ 0 → alive (set_point (Leaving r) w'))) died.
Proof.
  intros Hf Hc Hse Hp. eapply wp_mono; [by apply load_wp| |done]. intros r w' ([Hc' Hg' _ Hpu _ _] & Ep & En).
  assert (∀ x, is_leaving (set_point x w') ∨ guest_set (wk_process w') → alive (set_point x w')) as Ha.
  { intros x Hg. split; [done|unfold wk_channel; cbn; by rewrite Hpu|cbn; by rewrite En|exact Hg]. }
  assert (alive (set_point (wk_point w') w') → alive w') as Hid by by destruct w'.
  split_and!.
  - intros Hr. split; [apply Hid, Ha; right|]; by apply Hg'.
  - intros _. apply Ha. by left.
Qed.
Lemma turn_wp f w :
  good_files f → alive w →
  wp (turn group_order set_conf_contents gen_subauth host_named mechs_set_up pool_created kill_manager pipe_room f) w (λ _ w', alive w') died.
Proof.
  intros Hf Hw. unfold turn. wp_step. wp_step. destruct (wk_point w) eqn:Ep; [by wp_step..| |by wp_step].
  assert (going w) as Hgo by (apply going_alive; [done|unfold is_leaving; rewrite Ep; tauto]).
  destruct (_ || _); [wp_step; by apply going_point|].
  wp_step. eapply wp_mono; [apply asked_wp; [done|]| |done].
  { destruct Hgo as [[Hc Hp Hse _] Hg]. eapply wp_mono; [by apply load_alive_wp| |done]. intros r w' [Hr _]. auto. }
  intros u w1 Hw1. wp_step. eapply wp_mono; [apply asked_wp; [done|]| |done].
  { destruct Hw1 as [[Hc Hp Hse Hl] Hg]. eapply wp_mono; [by apply list_config_wp| |done]. intros r w' [_ ->].
    split; [|done]. by split. }
  intros u2 w2 Hw2. wp_step. by apply going_point.
Qed.
Lemma act_wp a w : good_action a → alive w → wp (step a) w (λ _ w', alive w') died.
Proof.
  intros Ha Hw. destruct a; cbn [act];
    [by apply signal_wp|by apply wait_wp|by apply poll_returns_wp|by apply serve_next_wp|by apply turn_wp].
Qed.

Lemma worker_runs_wp f actions p :
  consistent i p → ch_pushed (pc_channel p) = [] → good_files f → Forall good_action actions →
  wp (run group_order set_conf_contents gen_subauth host_named mechs_set_up pool_created handle_authen stack_flags kill_manager pipe_room
        f actions) (mk_worker Blocked [] p [] 0)
    (λ _ w, alive w) (λ e _, e = 128 + SIGABRT).
Proof.
  intros Hc Hp Hf Ha. unfold run, worker_start. wp_step. wp_step.
  eapply wp_mono; [apply load_alive_wp; [done|done|constructor|unfold wk_channel; cbn; rewrite Hp; constructor]| |done].
  intros r w [Hr Hl]. wp_step.
  assert (alive (set_point (if r =? 0 then Blocked else Leaving r) w)) as Hw.
  { destruct (Z.eqb_spec r 0); [apply going_point; auto|auto]. }
  revert Hw. generalize (set_point (if r =? 0 then Blocked else Leaving r) w). clear w Hr Hl.
  induction Ha as [|a l Ha _ IH]; intros w Hw; cbn [for_each]; [by wp_step|].
  wp_step. eapply wp_mono; [by apply act_wp|auto|done].
Qed.

(** *** Reloads that fail *)
Definition pc_users (p : process) : ustate := ss_users (ws_shares (pc_world p)).
Lemma remove_users_wp p :
  consistent i p →
  wp (world (w_users (usm_remove_all_users hash_order))) p
    (λ _ p', us_table (pc_users p') = ∅ ∧ ss_table (ws_shares (pc_world p')) = ss_table (ws_shares (pc_world p)) ∧
       pc_channel p' = pc_channel p) (λ _ _, False).
Proof.
  intros Hc. destruct (ho_world _ _ _ _ (cn_daemon _ _ Hc)) as (ul & sl & Hw). unfold world, on_world, w_users, on_shares. apply wp_zoom, wp_zoom, wp_zoom, wp_zoom.
  eapply wp_mono; [eapply (usm_remove_all_users_wp _ hash_order_perm);
    exact (so_users _ _ _ (ro_shares _ _ _ (wo_refs _ _ _ Hw)))| |done].
  by intros _ u' [_ Ht].
Qed.
Lemma remove_shares_table_wp p :
  consistent i p →
  wp (world (on_shares shm_remove_all_shares)) p
    (λ _ p', ss_table (ws_shares (pc_world p')) = ∅ ∧ pc_conf p' = pc_conf p ∧ pc_parser p' = pc_parser p ∧ pc_channel p' = pc_channel p)
    (λ _ _, False).
Proof.
  intros Hc. destruct (ho_world _ _ _ _ (cn_daemon _ _ Hc)) as (ul & sl & Hw). unfold world, on_world, on_shares. apply wp_zoom, wp_zoom, wp_zoom.
  eapply wp_mono; [eapply (shm_remove_all_shares_wp hash_order_perm);
    exact (ro_shares _ _ _ (wo_refs _ _ _ Hw))| |done].
  by intros _ u' [_ Ht].
Qed.
(** Neither file can be opened; a user database that does not exist is taken
    for an empty one. *)
Definition unreadable (f : files) : Prop :=
  ∃ e e', e ≠ 0 ∧ e' ≠ 0 ∧ fl_pwddb f = inl e ∧ fl_smbconf f = inl e'.
Definition lost (f : files) (p p' : process) : Prop :=
  if decide (fl_pwddb f = inl ENOENT) then ss_table (ws_shares (pc_world p')) = ∅
  else us_table (pc_users p') = ∅ ∧ ss_table (ws_shares (pc_world p')) = ss_table (ws_shares (pc_world p)).
Lemma unopened_pwddb e p :
  world (w_users (cp_parse_pwddb MOUNTD set_conf_contents (inl e))) p = Done (if - e =? - ENOENT then 0 else - e) p.
Proof. by destruct p as [[[[] ? ? ? ?] ? ? ?] ? ? ? ?]. Qed.
Lemma unopened_smbconf e f p :
  fl_smbconf f = inl e → pc_parser p = None → e ≠ 0 →
  wp (parse_smbconf group_order MOUNTD set_conf_contents f) p
    (λ r p', r ≠ 0 ∧ ss_table (ws_shares (pc_world p')) = ss_table (ws_shares (pc_world p)) ∧ pc_channel p' = pc_channel p) (λ _ _, False).
Proof.
  intros Hf Hp He. unfold wp, parse_smbconf. rewrite Hf, Hp. unfold cp_parse_smbconf, cp_parse_smbconf_owner, smbconf_missing. cbn.
  assert ((if - e =? - ENOENT then - e else - e) = - e) as -> by by destruct (_ =? _).
  destruct (Z.eqb_spec (- e) 0); [lia|]. destruct (reloading p); (split; [done|]); by split.
Qed.
Lemma failed_load_wp f p :
  consistent i p → unreadable f →
  wp (load_config group_order MOUNTD set_conf_contents gen_subauth host_named mechs_set_up pool_created f) p
    (λ r p', r ≠ 0 ∧ lost f p p' ∧ pc_channel p' = pc_channel p) (λ _ _, False).
Proof.
  intros Hc (e & e' & He & He' & Hu & Hs). unfold load_config, lost. rewrite Hu. wp_step.
  eapply wp_mono; [apply wp_both; [by apply remove_users_wp|apply world_users_wp; [exact Hc|]]|cbv beta|by intros ? ? []].
  { intros held u Hok. wp_by (by apply (usm_remove_all_users_wp hash_order hash_order_perm _ _ Hok)); [|done]. by intros _ u' []. }
  intros _ p1 [(Hut & Hst & Hch) [Hc1 _]]. wp_step. unfold wp at 1. rewrite unopened_pwddb.
  destruct (Z.eqb_spec (- e) (- ENOENT)) as [E|E].
  - destruct (decide _) as [_|Hne]; [|destruct Hne; f_equal; lia]. change (negb (0 =? 0)) with false. cbv iota. wp_step. wp_step.
    wp_step. eapply wp_mono; [by apply remove_shares_table_wp| |done].
    intros _ p2 (Ht & Ec & Ep & Eh). wp_step. eapply wp_mono; [apply (unopened_smbconf e'); [done| |done]| |done].
    + rewrite Ep. apply Hc1.
    + intros r p3 (Hr & Et & Eh'). destruct (Z.eqb_spec r 0); [done|]. cbn [negb]. wp_step. split; [done|]. split; congruence.
  - destruct (decide _) as [[= ->]|_]; [done|]. destruct (Z.eqb_spec (- e) 0); [lia|]. cbn [negb]. wp_step. split; [lia|]. done.
Qed.
Lemma failed_load_worker_wp f w :
  consistent i (wk_process w) → unreadable f →
  wp (load' f) w (λ r w', r ≠ 0 ∧ lost f (wk_process w) (wk_process w') ∧ wk_channel w' = wk_channel w) (λ _ _, False).
Proof. intros Hc Hu. unfold load, in_process. apply wp_zoom. by apply failed_load_wp. Qed.
Lemma list_keeps_reload h :
  test_flag (Z.ldiff h KSMBD_SHOULD_LIST_CONFIG) KSMBD_SHOULD_RELOAD_CONFIG = test_flag h KSMBD_SHOULD_RELOAD_CONFIG.
Proof. unfold test_flag. by rewrite Z.ldiff_land, <-Z.land_assoc. Qed.
Lemma asked_list_wp w :
  consistent i (wk_process w) →
  wp (asked KSMBD_SHOULD_LIST_CONFIG (list_config kill_manager pipe_room)) w
    (λ _ w', pc_daemon (wk_process w') = pc_daemon (wk_process w) ∧
       health KSMBD_SHOULD_RELOAD_CONFIG w' = health KSMBD_SHOULD_RELOAD_CONFIG w) (λ _ _, False).
Proof.
  intros Hc. unfold asked. wp_step. wp_step. destruct (health _ w); [|by wp_step]. wp_step.
  eapply wp_mono; [by apply list_config_wp| |done]. intros r w' [_ ->]. destruct (r =? 0); [|by wp_step].
  unfold in_health, in_channel, in_process, sockets. apply wp_zoom, wp_zoom, wp_zoom. wp_step. split; [done|].
  unfold health. cbn. apply list_keeps_reload.
Qed.

(** C40 (error): a reload that cannot open its files does not keep the old
    configuration.  The worker goes on, with the reload still to be done, but
    it has dropped all its users before it looked for the database; and when
    the database does not exist, which is no error, it has dropped all its
    shares before it looked for the configuration. *)
Theorem failed_reload f w :
  alive w → wk_point w = Returned 0 → health KSMBD_HEALTH_RUNNING w = true → health KSMBD_SHOULD_RELOAD_CONFIG w = true →
  good_files f → unreadable f →
  wp (step (Turn f)) w
    (λ _ w', wk_point w' = Blocked ∧ lost f (wk_process w) (wk_process w') ∧ health KSMBD_SHOULD_RELOAD_CONFIG w' = true)
    (λ e _, e = 128 + SIGABRT).
Proof.
  intros Hw Ep Hrun Hre Hf Hu. cbn [act]. unfold turn. wp_step. wp_step. rewrite Ep, Hrun. cbn [Z.eqb negb orb].
  wp_step. unfold asked at 1. wp_step. wp_step. rewrite Hre. wp_step.
  eapply wp_mono; [apply wp_both; [apply load_wp; [done|apply Hw]|apply failed_load_worker_wp; [apply Hw|done]]|cbv beta|by intros ? ? []].
  intros r w1 [[[Hc1 _ _ _ _ _] _] (Hr & Hl & Hch)]. destruct (Z.eqb_spec r 0); [done|]. wp_step. wp_step.
  eapply wp_mono; [by apply asked_list_wp| |done]. intros _ w2 [Hd Hh]. wp_step. split; [done|]. split.
  - unfold lost, pc_users, pc_world in *. cbn. by rewrite Hd.
  - change (health KSMBD_SHOULD_RELOAD_CONFIG w2 = true). rewrite Hh. revert Hre. unfold health. by rewrite Hch.
Qed.
End Keep.

(** *** Signals that come too early *)
Section Signals.
Context `{GLib, System, Allocator, Interfaces, Ptls, Libnl, Netlink}.
Variable group_order : gmap bytes smbconf_group → list (bytes * smbconf_group).
Variable set_conf_contents : bytes → Z.
Variable gen_subauth : list Z.
Variable host_named mechs_set_up pool_created : bool.
Variable handle_authen : Z → bytes → option auth_out.
Variable stack_flags kill_manager : Z.
Variable pipe_room : nat → nat.

Definition stop_signals : list Z := [SIGINT; SIGQUIT; SIGTERM].
(** The worker waits although it was told to stop. *)
Definition stuck (w : worker) : Prop := wk_point w = Waiting ∧ health KSMBD_HEALTH_RUNNING w = false.
(** Neither a signal nor a message arrives. *)
Definition silent (a : action) : Prop := match a with Signal _ | Return _ => False | _ => True end.
Lemma not_running h : test_flag (Z.ldiff h KSMBD_HEALTH_RUNNING) KSMBD_HEALTH_RUNNING = false.
Proof. unfold test_flag. by rewrite Z.ldiff_land, <-Z.land_assoc, Z.land_0_r. Qed.
Lemma stop_handler signo h :
  signo ∈ stop_signals → worker_sa_sigaction signo h = Done tt (Z.ldiff h KSMBD_HEALTH_RUNNING).
Proof. revert signo. apply Forall_forall. repeat constructor. Qed.
Lemma silent_stuck a :
  silent a →
  yields stuck anything
    (act group_order set_conf_contents gen_subauth host_named mechs_set_up pool_created handle_authen stack_flags kill_manager pipe_room a).
Proof.
  intros Ha w [Hp Hh]. destruct a as [| | | |f]; try done; cbn [act].
  - unfold wait, bind, get. rewrite Hp. by split.
  - unfold serve, bind, get. destruct (ch_pushed (wk_channel w)) as [|m rest]; [by split|].
    unfold in_channel, in_process, sockets, zoom, modify. cbn. by destruct (worker_pool_fn _ _ _ _ _ _ _ _).
  - unfold turn, bind, get. rewrite Hp. by split.
Qed.

(** A signal to stop is lost when it arrives while the worker is
    not waiting.  During the wait it ends the worker in its next turn; but one
    that is pending when the signals are unblocked is handled before the wait
    begins, which nothing then ends: the worker serves what it was given, and
    stays until another signal or message comes. *)
Theorem stop_signal_lost signo f l w :
  signo ∈ stop_signals → Forall silent l →
  (wk_point w = Waiting → ∃ w1 w2, signal signo w = Done tt w1 ∧
     turn group_order set_conf_contents gen_subauth host_named mechs_set_up pool_created kill_manager pipe_room f w1 = Done tt w2 ∧
     wk_point w2 = Leaving 0) ∧
  (wk_point w = Blocked → wk_pending w = [signo] → ∃ w1, wait w = Done tt w1 ∧ stuck w1) ∧
  yields stuck anything (for_each l
    (act group_order set_conf_contents gen_subauth host_named mechs_set_up pool_created handle_authen stack_flags kill_manager pipe_room)).
Proof.
  intros Hs Hl. assert (signo ∈ sigset) as Hin by (revert signo Hs; apply Forall_forall; repeat constructor; set_solver).
  split_and!.
  - intros Hp. unfold signal, bind at 1, get. rewrite bool_decide_eq_true_2, Hp by done. cbn [negb].
    unfold bind at 1, in_health, in_channel, in_process, sockets, zoom. rewrite stop_handler by done. cbn.
    eexists _, _. split; [reflexivity|]. unfold turn, bind, get. cbn. unfold health. cbn. rewrite not_running. cbn. by split.
  - intros Hp Hpend. unfold wait, bind, get, modify. rewrite Hp, Hpend. cbn [for_each].
    unfold bind at 1, in_health, in_channel, in_process, sockets, zoom. rewrite stop_handler by done. cbn.
    eexists. split; [reflexivity|]. split; [done|]. apply not_running.
  - induction Hl as [|a l Ha _ IH]; cbn [for_each]; [by apply yields_ret|].
    eapply yields_bind; [by apply silent_stuck|]. by intros _ _.
Qed.
End Signals.

(** ** A small worker *)
Definition wide (n : nat) : nat := 4096.
Definition toy_process : process :=
  mk_process (mk_daemon (mk_wstate no_shares ∅ ∅ 1 10) no_services ∅ []) zero_global None no_channel None.
Definition toy_smbconf (share : string) : bytes :=
  str "[global]" ++ [10] ++ str "guest account = nobody" ++ [10] ++
  str "[" ++ str share ++ str "]" ++ [10] ++ str "comment = Films" ++ [10] ++ str "path = /srv" ++ [10].
Definition toy_files (share : string) : files :=
  mk_files (inr (str "alice:cGFzcw==" ++ [10])) (inr (toy_smbconf share)) (inr []).
Abbreviation toy_run f l :=
  (run (H:=toy_glib) (H0:=total_system) (H1:=plenty) (H2:=toy_interfaces) (H3:=toy_ptls) (H4:=toy_nl) (H5:=toy_netlink)
     map_to_list (λ _, 0) [1; 2; 3] true true true (λ _ _, None) 0 0 wide f l (mk_worker Blocked [] toy_process [] 0)).
(** A connection, a reload, a listing and the end *)
Definition toy_actions : list (action (H:=toy_nl)) :=
  [Wait; Return (Arrived (H1:=toy_nl) (Some [toy_connect]) None); Serve; Signal SIGHUP; Turn (toy_files "media");
   Wait; Signal SIGUSR1; Turn (toy_files "films"); Wait; Signal SIGTERM; Turn (toy_files "films")].
Lemma toy_good_files share :
  share = "media"%string ∨ share = "films"%string →
  good_files (H:=toy_glib) (toy_files share).
Proof.
  intros Hs. assert (∃ p, __mmap_parse_file (process_smbconf_entry (H:=toy_glib)) false (inr (toy_smbconf share)) new_parser = Done tt p ∧
    bool_decide (no_host_options p) = true) as (p & E & Hp).
  { destruct Hs as [-> | ->]; (eexists; split; [vm_compute; reflexivity|vm_compute; reflexivity]). }
  split; [reflexivity|by destruct Hs as [-> | ->]|reflexivity|]. unfold file_hostless. cbn [toy_files fl_smbconf]. rewrite E.
  exact (bool_decide_eq_true_1 _ Hp).
Qed.
Lemma toy_process_ok : consistent (H:=toy_glib) (H2:=toy_interfaces) SRVSVC (Lawful0:=toy_law) toy_process.
Proof.
  split; [|exact zero_global_ok|reflexivity|done]. split; [exists [], []; split; [split|..]|apply map_Forall_empty|done|reflexivity].
  - eapply shares_ok_ext; [| |exact no_shares_ok]; intros p; reflexivity.
  - done.
  - intros q. apply (bool_decide_unpack _). by vm_compute.
  - intros p x Hx. done.
  - intros p x Hx. done.
  - intros p [x Hx]. done.
Qed.
Lemma toy_good_actions : Forall (good_action (H:=toy_glib) (H1:=plenty) (H5:=toy_nl) SRVSVC) toy_actions.
Proof.
  unfold toy_actions. repeat apply Forall_cons_2; try exact I; [|apply toy_good_files; auto..|apply Forall_nil_2].
  intros msg code m Hin. apply toy_tame. apply list_elem_of_singleton in Hin as ->. left.
Qed.
(** What holds of every run of the small worker. *)
Abbreviation toy_alive := (alive (H:=toy_glib) (H1:=plenty) (H2:=toy_interfaces) SRVSVC (Lawful0:=toy_law)).
Lemma toy_runs l w :
  Forall (good_action (H:=toy_glib) (H1:=plenty) (H5:=toy_nl) SRVSVC) l → toy_run (toy_files "media") l = Done tt w → toy_alive w.
Proof.
  intros Hl E. refine (wp_Done _ _ _ _ _ _ (worker_runs_wp (H:=toy_glib) (H0:=total_system) (H1:=plenty) (H2:=toy_interfaces) SRVSVC
    (Lawful0:=toy_law) (H3:=toy_ptls) (H4:=toy_laws) (H5:=toy_nl) (H6:=toy_netlink) (λ t, reflexivity (map_to_list t)) (λ _ _, eq_refl)
    toy_decode toy_strdown (λ _ Ha, Ha) toy_keys_differ toy_nl_checks map_to_list (λ t, reflexivity (map_to_list t)) (λ _, 0) [1; 2; 3]
    true true true (λ _ _, None) 0 0 wide (toy_files "media") l toy_process toy_process_ok eq_refl _ Hl) E).
  apply toy_good_files. by left.
Qed.
(** A run that ends, with what can be computed of its end *)
Definition holds {S A : Type} (o : outcome S A) (P : S → Prop) `{∀ s, Decision (P s)} : bool :=
  match o with Done _ s => bool_decide (P s) | _ => false end.
Lemma holds_Done {S : Type} (o : outcome S unit) (P : S → Prop) `{∀ s, Decision (P s)} :
  holds o P = true → ∃ s, o = Done tt s ∧ P s.
Proof. destruct o as [[] s| |]; cbn; [|done..]. intros Hp. exists s. split; [done|]. by apply bool_decide_eq_true_1 in Hp. Qed.

Definition toy_unreadable : files := mk_files (inl 13) (inl 13) (inl 13).
Abbreviation toy_step := (act (H:=toy_glib) (H0:=total_system) (H1:=plenty) (H2:=toy_interfaces) (H3:=toy_ptls) (H4:=toy_nl) (H5:=toy_netlink)
  map_to_list (λ _, 0) [1; 2; 3] true true true (λ _ _, None) 0 0 wide).
Lemma failed_reload_witness :
  ∃ w, toy_run (toy_files "media") [Wait; Signal SIGHUP] = Done tt w ∧ is_Some (us_table (pc_users (wk_process w)) !! str "alice") ∧
    wp (toy_step (Turn toy_unreadable)) w (λ _ w', us_table (pc_users (wk_process w')) = ∅) (λ e _, e = 128 + SIGABRT).
Proof.
  assert (holds (toy_run (toy_files "media") [Wait; Signal SIGHUP]) (λ w, is_Some (us_table (pc_users (wk_process w)) !! str "alice") ∧
    wk_point w = Returned 0 ∧ health KSMBD_HEALTH_RUNNING w = true ∧ health KSMBD_SHOULD_RELOAD_CONFIG w = true) = true) as Hc by (vm_compute; reflexivity).
  apply holds_Done in Hc as (w & E & Hu & Hp & Hr & Hl).
  exists w. split; [exact E|]. split; [exact Hu|].
  assert (toy_alive w) as Hw.
  { apply (toy_runs [Wait; Signal SIGHUP]); [|exact E]. repeat apply Forall_cons_2; try exact I. apply Forall_nil_2. }
  refine (wp_mono _ _ _ _ _ _ (failed_reload (H:=toy_glib) (H0:=total_system) (H1:=plenty) (H2:=toy_interfaces) SRVSVC (Lawful0:=toy_law)
    (H3:=toy_ptls) (H5:=toy_nl) (H6:=toy_netlink) (λ t, reflexivity (map_to_list t))
    toy_decode toy_strdown (λ _ Ha, Ha) toy_keys_differ map_to_list (λ t, reflexivity (map_to_list t)) (λ _, 0) [1; 2; 3]
    true true true (λ _ _, None) 0 0 wide toy_unreadable w Hw Hp Hr Hl ltac:(split; [exact I..|apply map_Forall_empty])
    ltac:(exists 13, 13; split_and!; [discriminate|discriminate|reflexivity|reflexivity])) _ (λ _ _ He, He)).
  intros _ w' (_ & [Ht _] & _). exact Ht.
Defined.
Lemma stop_signal_lost_witness :
  ∃ w w', toy_run (toy_files "media") [Signal SIGTERM] = Done tt w ∧ wait w = Done tt w' ∧ stuck w'.
Proof.
  assert (holds (toy_run (toy_files "media") [Signal SIGTERM]) (λ w, wk_point w = Blocked ∧ wk_pending w = [SIGTERM]) = true) as Hc by (vm_compute; reflexivity).
  apply holds_Done in Hc as (w & E & Hp & Hpend).
  destruct (proj1 (proj2 (stop_signal_lost (H:=toy_glib) (H0:=total_system) (H1:=plenty) (H2:=toy_interfaces) (H3:=toy_ptls) (H4:=toy_nl)
    (H5:=toy_netlink) map_to_list (λ _, 0) [1; 2; 3] true true true (λ _ _, None) 0 0 wide SIGTERM (toy_files "media") [Wait; Serve] w
    ltac:(apply (bool_decide_unpack _); vm_compute; exact I) ltac:(repeat constructor))) Hp Hpend) as (w' & E' & Hs).
  exists w, w'. exact (conj E (conj E' Hs)).
Defined.
