(* ===== verification/Manager.v ===== *)
(** * The manager ([src/mountd/mountd.c])

    The manager forks workers and waits for signals: it passes them on to the
    worker, connects the pipe of the worker with the FIFO of a program that
    asked for a listing, and decides what becomes of the daemon when a worker
    ends.  [sigwaitinfo] is a sequence of events. *)

From S2P Require Import Prelude ConfText Config Channel Logging Daemon.

Definition CLD_EXITED : Z := 1.
Definition CLD_KILLED : Z := 2.
Definition CLD_DUMPED : Z := 3.
Record siginfo := mk_siginfo { si_signo : Z; si_code : Z; si_status : Z; si_pid : Z }.

(** The worker writes to its pipe, [sigwaitinfo] fails, or it returns a signal;
    [killed] and [opened] are whether the [kill] and the [open] that the signal
    leads to succeed, [room] is how much the FIFO takes. *)
Inductive event :=
  | Written (b : bytes)
  | NoSignal
  | Signalled (si : siginfo) (killed opened : bool) (room : nat).

(** [ret], the FIFO with its reader and what it was given, what is in the pipe,
    the FIFOs that were closed, and the signals passed on. *)
Record supervisor := mk_supervisor {
  su_ret : Z; su_wfd : option (Z * bytes); su_pipe : bytes; su_closed : list (Z * bytes); su_passed : list Z;
}.
Definition set_ret (r : Z) (s : supervisor) : supervisor := mk_supervisor r (su_wfd s) (su_pipe s) (su_closed s) (su_passed s).
Definition set_wfd (f : option (Z * bytes)) (s : supervisor) : supervisor :=
  mk_supervisor (su_ret s) f (su_pipe s) (su_closed s) (su_passed s).
Definition fill_pipe (b : bytes) (s : supervisor) : supervisor :=
  mk_supervisor (su_ret s) (su_wfd s) (su_pipe s ++ b) (su_closed s) (su_passed s).
Definition pass (signo : Z) (s : supervisor) : supervisor :=
  mk_supervisor (su_ret s) (su_wfd s) (su_pipe s) (su_closed s) (su_passed s ++ [signo]).
Definition close_wfd (s : supervisor) : supervisor :=
  match su_wfd s with
  | Some f => mk_supervisor (su_ret s) None (su_pipe s) (su_closed s ++ [f]) (su_passed s)
  | None => s
  end.

(** With no FIFO what is in the pipe is thrown away. *)
Definition __splice_pipe (room : nat) (s : supervisor) : supervisor :=
  match su_wfd s with
  | Some (reader, out) =>
      mk_supervisor (su_ret s) (Some (reader, out ++ take room (su_pipe s))) (drop room (su_pipe s)) (su_closed s) (su_passed s)
  | None => mk_supervisor (su_ret s) None [] (su_closed s) (su_passed s)
  end.

Section Wait.
(** The worker *)
Variable pid : Z.

(** The branches of the loop: the state to go on with, or what is returned. *)
Definition child_ended (si : siginfo) (room : nat) (s : supervisor) : supervisor * option Z :=
  if negb (si_code si =? CLD_KILLED) && negb (si_code si =? CLD_EXITED) && negb (si_code si =? CLD_DUMPED) then (s, None)
  else
    let status := if si_code si =? CLD_KILLED then si_status si + 128 else si_status si in
    let s :=
      if 128 <? status then (if bool_decide (status - 128 ∈ sigset) then s else set_ret (- EIO) s)
      else if negb (status =? 0) then set_ret (- EIO) s else s in
    (close_wfd (__splice_pipe room s), Some (su_ret s)).
Definition forward (si : siginfo) (killed opened : bool) (s : supervisor) : supervisor :=
  if negb killed then s
  else
    let s := pass (si_signo si) s in
    if si_signo si =? SIGUSR1 then
      match su_wfd s with
      | Some _ => s
      | None => if opened then set_wfd (Some (si_pid si, [])) s else s
      end
    else s.
Definition on_event (e : event) (s : supervisor) : supervisor * option Z :=
  match e with
  | Written b => (fill_pipe b s, None)
  | NoSignal => (s, None)
  | Signalled si killed opened room =>
      let signo := si_signo si in
      if signo =? SIGIO then (__splice_pipe room s, None)
      else if signo =? SIGPIPE then (close_wfd s, None)
      else if signo =? SIGCHLD then child_ended si room s
      else if bool_decide (signo ∈ [SIGINT; SIGQUIT; SIGTERM]) then (forward si killed opened (set_ret 0 s), None)
      else if (signo =? SIGUSR1) && (si_pid si =? pid) then (close_wfd (__splice_pipe room s), None)
      else (forward si killed opened s, None)
  end.
Fixpoint wait_loop (evs : list event) (s : supervisor) : supervisor * option Z :=
  match evs with
  | [] => (s, None)
  | e :: evs => match on_event e s with (s, None) => wait_loop evs s | r => r end
  end.
(** [fcntl]: zero, or the error of one of the two calls.  No result: the manager
    still waits. *)
Definition worker_init_wait (fcntl : Z) (evs : list event) : supervisor * option Z :=
  let s := mk_supervisor (- ECHILD) None [] [] [] in
  if negb (fcntl =? 0) then (s, Some (- fcntl)) else wait_loop evs s.
End Wait.

(** ** Starting *)

(** [pipe2] or [fork] fails, or there is a worker with what happens then. *)
Inductive attempt := PipeFailed (errno : Z) | ForkFailed (errno : Z) | Forked (pid fcntl : Z) (evs : list event).
Definition worker_init (a : attempt) : option Z :=
  match a with
  | PipeFailed errno | ForkFailed errno => Some (- errno)
  | Forked pid fcntl evs => (worker_init_wait pid fcntl evs).2
  end.
Fixpoint manager_loop (l : list attempt) : option Z :=
  match l with
  | [] => None
  | a :: l =>
      match worker_init a with
      | None => None
      | Some r => if r =? - ECHILD then manager_loop l else Some r
      end
  end.

(** In the process that started the daemon; [pid] is the manager. *)
Fixpoint manager_init_wait (pid : Z) (evs : list event) : option Z :=
  match evs with
  | Signalled si _ _ _ :: evs =>
      if si_signo si =? SIGCHLD then
        if negb (si_code si =? CLD_KILLED) && negb (si_code si =? CLD_EXITED) && negb (si_code si =? CLD_DUMPED)
        then manager_init_wait pid evs else Some (- ECHILD)
      else if si_signo si =? SIGUSR1 then if negb (si_pid si =? pid) then manager_init_wait pid evs else Some 0
      else manager_init_wait pid evs
  | _ :: evs => manager_init_wait pid evs
  | [] => None
  end.
(** What the system answers: [fork], [freopen], the lock, the process that
    started the daemon, the [kill] of it, and the workers. *)
Record start := mk_start {
  st_fork : Z; st_fork_errno : Z; st_parent : list event; st_freopen : Z; st_lock : Z; st_ppid : Z; st_kill : Z;
  st_workers : list attempt;
}.
Definition manager_run (nodetach : Z) (st : start) : option Z :=
  if negb (st_lock st =? 0) then Some (st_lock st)
  else if (nodetach =? 0) && (st_ppid st =? 1) then Some (- ESRCH)
  else if (nodetach =? 0) && negb (st_kill st =? 0) then Some (- st_kill st)
  else manager_loop (st_workers st).
Definition manager_init (nodetach : Z) (st : start) : option Z :=
  if nodetach =? 0 then
    if st_fork st <? 0 then Some (- st_fork_errno st)
    else if 0 <? st_fork st then manager_init_wait (st_fork st) (st_parent st)
    else if negb (st_freopen st =? 0) then Some (- st_freopen st)
    else manager_run nodetach st
  else manager_run nodetach st.

(** ** Options *)
Inductive option_ :=
  | Foreground | Port (v : bytes) | Nodetach (way : option bytes) | ConfigFile (v : bytes) | Pwddb (v : bytes)
  | JsonLog | Verbose | Version | Help | Unknown.
Record settings := mk_settings {
  se_nodetach : Z; se_tcp_port : Z; se_smbconf : option bytes; se_pwddb : option bytes; se_log : log_state;
}.
(** The settings, or the value of [ret] at [out]. *)
Definition mountd_option (o : option_) (s : settings) : settings + Z :=
  match o with
  | Foreground => inl (mk_settings 2 (se_tcp_port s) (se_smbconf s) (se_pwddb s) (se_log s))
  | Port v => inl (mk_settings (se_nodetach s) (u16 (cp_get_group_kv_long v)) (se_smbconf s) (se_pwddb s) (se_log s))
  | Nodetach way =>
      inl (mk_settings (match way with Some v => s32 (cp_get_group_kv_long v) | None => 1 end)
             (se_tcp_port s) (se_smbconf s) (se_pwddb s) (se_log s))
  | ConfigFile v => inl (mk_settings (se_nodetach s) (se_tcp_port s) (Some v) (se_pwddb s) (se_log s))
  | Pwddb v => inl (mk_settings (se_nodetach s) (se_tcp_port s) (se_smbconf s) (Some v) (se_log s))
  | JsonLog => inl (mk_settings (se_nodetach s) (se_tcp_port s) (se_smbconf s) (se_pwddb s) (pr_logger_init PR_LOGGER_JSON (se_log s)))
  | Verbose => inl (mk_settings (se_nodetach s) (se_tcp_port s) (se_smbconf s) (se_pwddb s) (set_log_level PR_DEBUG (se_log s)).2)
  | Version | Help => inr 0
  | Unknown => inr (- EINVAL)
  end.
Fixpoint mountd_options (l : list option_) (s : settings) : settings + Z :=
  match l with
  | [] => inl s
  | o :: l => match mountd_option o s with inl s => mountd_options l s | inr r => inr r end
  end.
Definition exit_status (r : Z) : Z := if r =? 0 then 0 else 1.
(** [rest]: whether arguments are left that are no options.  The settings with
    which the manager runs, if it does, and the exit status. *)
Definition mountd_main (PATH_SMBCONF PATH_PWDDB : bytes) (l : list option_) (rest : bool) (s : settings) (st : start) :
    option settings * option Z :=
  match mountd_options l s with
  | inr r => (None, Some (exit_status r))
  | inl s =>
      if rest then (None, Some (exit_status (- EINVAL)))
      else
        let s := mk_settings (se_nodetach s) (se_tcp_port s) (Some (default PATH_SMBCONF (se_smbconf s)))
                   (Some (default PATH_PWDDB (se_pwddb s))) (se_log s) in
        (Some s, exit_status <$> manager_init (se_nodetach s) st)
  end.

(** ** What becomes of a worker *)

(** How a process ends: by [exit], or by a signal, with a core dump or not *)
Inductive death := Exited (code : Z) | Killed (signo : Z) | Dumped (signo : Z).
Definition death_info (pid : Z) (d : death) : siginfo :=
  match d with
  | Exited c => mk_siginfo SIGCHLD CLD_EXITED c pid
  | Killed n => mk_siginfo SIGCHLD CLD_KILLED n pid
  | Dumped n => mk_siginfo SIGCHLD CLD_DUMPED n pid
  end.
Definition death_ok (d : death) : Prop :=
  match d with Exited c => 0 ≤ c < 256 | Killed n | Dumped n => 0 < n ≤ 64 end.
(** A status above 128 tells of a signal; the signals that the worker handles
    are no reason to give up. *)
Definition fatal (d : death) : Prop :=
  match d with
  | Exited c => c ≠ 0 ∧ ¬ (128 < c ∧ c - 128 ∈ sigset)
  | Killed n => n ∉ sigset
  | Dumped _ => True
  end.
#[export] Instance fatal_dec d : Decision (fatal d).
Proof. destruct d; apply _. Defined.
Definition ends (e : event) : bool :=
  match e with
  | Signalled si _ _ _ => (si_signo si =? SIGCHLD) && bool_decide (si_code si ∈ [CLD_KILLED; CLD_EXITED; CLD_DUMPED])
  | _ => false
  end.
Definition stops (e : event) : bool :=
  match e with Signalled si _ _ _ => bool_decide (si_signo si ∈ [SIGINT; SIGQUIT; SIGTERM]) | _ => false end.

Lemma su_ret_splice room s : su_ret (__splice_pipe room s) = su_ret s.
Proof. unfold __splice_pipe. by destruct (su_wfd s) as [[]|]. Qed.
Lemma su_ret_close s : su_ret (close_wfd s) = su_ret s.
Proof. unfold close_wfd. by destruct (su_wfd s). Qed.
Lemma su_ret_forward si killed opened s : su_ret (forward si killed opened s) = su_ret s.
Proof. unfold forward. destruct killed; [|done]. cbn [negb]. destruct (_ =? _); [|done]. destruct (su_wfd _); [done|]. by destruct opened. Qed.
Lemma on_event_goes_on pid e s :
  ends e = false →
  (on_event pid e s).2 = None ∧ su_ret (on_event pid e s).1 = if stops e then 0 else su_ret s.
Proof.
  destruct e as [b| |si killed opened room]; [done..|]. cbn [on_event ends stops]. intros He. cbv zeta.
  destruct (Z.eqb_spec (si_signo si) SIGIO) as [E|E]; [rewrite E; split; [done|apply su_ret_splice]|].
  destruct (Z.eqb_spec (si_signo si) SIGPIPE) as [E1|E1]; [rewrite E1; split; [done|apply su_ret_close]|].
  destruct (Z.eqb_spec (si_signo si) SIGCHLD) as [E2|E2].
  { cbn [andb] in He. rewrite bool_decide_eq_false in He. unfold child_ended. rewrite E2.
    rewrite !(proj2 (Z.eqb_neq _ _)) by (intros E3; rewrite E3 in He; apply He; set_solver). done. }
  clear He. case_bool_decide; [split; [done|apply su_ret_forward]|].
  destruct (_ && _); (split; [done|]); cbn [fst]; [by rewrite su_ret_close, su_ret_splice|apply su_ret_forward].
Qed.
Lemma wait_loop_goes_on pid pre evs s :
  forallb (λ e, negb (ends e)) pre = true →
  ∃ s', wait_loop pid (pre ++ evs) s = wait_loop pid evs s' ∧ su_ret s' = if existsb stops pre then 0 else su_ret s.
Proof.
  revert s. induction pre as [|e pre IH]; intros s Hp; cbn [app wait_loop existsb forallb] in *; [by exists s|].
  apply andb_true_iff in Hp as [He Hp]. apply negb_true_iff in He.
  destruct (on_event_goes_on pid e s He) as [Hn Hr]. destruct (on_event pid e s) as [s1 o]. cbn [fst snd] in *. subst o.
  destruct (IH s1 Hp) as (s' & -> & Hr'). exists s'. split; [done|]. rewrite Hr', Hr. by destruct (stops e), (existsb _ _).
Qed.
Lemma child_ended_ret pid d room s :
  death_ok d → (child_ended (death_info pid d) room s).2 = Some (if decide (fatal d) then - EIO else su_ret s).
Proof.
  destruct d as [c|n|n]; cbn [death_ok fatal death_info]; intros Hd; unfold child_ended; cbn [si_code si_status].
  - change (CLD_EXITED =? CLD_KILLED) with false. cbn [negb andb Z.eqb snd]. f_equal.
    destruct (Z.ltb_spec 128 c) as [Hc|Hc]; cbn [snd].
    + case_bool_decide; destruct (decide _) as [Hf|Hf]; try done; exfalso; [tauto|]. apply Hf. split; [lia|tauto].
    + destruct (Z.eqb_spec c 0); cbn [negb]; destruct (decide _) as [Hf|Hf]; try done; exfalso; [tauto|]. apply Hf. split; [done|lia].
  - change (CLD_KILLED =? CLD_KILLED) with true. cbn [negb andb snd]. f_equal. rewrite (proj2 (Z.ltb_lt _ _)) by lia.
    replace (n + 128 - 128) with n by lia. case_bool_decide; destruct (decide _); done.
  - cbn [negb andb Z.eqb CLD_DUMPED CLD_KILLED CLD_EXITED snd Pos.eqb]. rewrite (proj2 (Z.ltb_ge _ _)) by lia.
    rewrite (proj2 (Z.eqb_neq _ _)) by lia. cbn [negb]. destruct (decide _); done.
Qed.

(** C29 (liveness): what the manager makes of the end of a worker.  It waits as
    long as the worker lives, whatever signals come, and when the worker ends it
    decides: when a signal that the worker does not handle killed it, or
    it left with a core or an error, the daemon fails; otherwise the daemon
    ends if it had been told to, and if not, a new worker is started. *)
Theorem manager_decides pid pre d killed opened room post l :
  forallb (λ e, negb (ends e)) pre = true → death_ok d →
  let evs := pre ++ Signalled (death_info pid d) killed opened room :: post in
  let told := existsb stops pre in
  manager_loop (Forked pid 0 pre :: l) = None ∧
  manager_loop (Forked pid 0 evs :: l) =
    if decide (fatal d) then Some (- EIO) else if told then Some 0 else manager_loop l.
Proof.
  intros Hp Hd evs told. cbn [manager_loop worker_init]. unfold worker_init_wait. cbn [Z.eqb negb]. split.
  - destruct (wait_loop_goes_on pid pre [] (mk_supervisor (- ECHILD) None [] [] []) Hp) as (s' & E & _).
    rewrite app_nil_r in E. by rewrite E.
  - destruct (wait_loop_goes_on pid pre (Signalled (death_info pid d) killed opened room :: post)
      (mk_supervisor (- ECHILD) None [] [] []) Hp) as (s' & E & Hr). unfold evs. rewrite E. cbn [wait_loop on_event].
    replace (si_signo (death_info pid d)) with SIGCHLD by by destruct d.
    change (SIGCHLD =? SIGIO) with false. change (SIGCHLD =? SIGPIPE) with false. rewrite Z.eqb_refl.
    pose proof (child_ended_ret pid d room s' Hd) as Hc. destruct (child_ended _ _ s') as [s2 o]. cbn [snd] in *. subst o. cbn [snd].
    rewrite Hr. destruct (decide (fatal d)); [done|]. unfold told. by destruct (existsb stops pre).
Qed.
Lemma manager_decides_witness :
  let info := Signalled (mk_siginfo SIGHUP 0 0 1) true true 0 in
  let evs := [info; Signalled (death_info 7 (Exited 134)) true true 0] in
  let evs' := [Signalled (mk_siginfo SIGTERM 0 0 1) true true 0; Signalled (death_info 8 (Exited 0)) true true 0] in
  manager_loop [Forked 7 0 evs; Forked 8 0 evs'] = Some 0.
Proof.
  intros info evs evs'.
  pose proof (proj2 (manager_decides 7 [info] (Exited 134) true true 0 [] [Forked 8 0 evs'] eq_refl ltac:(cbn; lia))) as H1.
  change (manager_loop [Forked 7 0 evs; Forked 8 0 evs'] = manager_loop [Forked 8 0 evs']) in H1. rewrite H1.
  exact (proj2 (manager_decides 8 [Signalled (mk_siginfo SIGTERM 0 0 1) true true 0] (Exited 0) true true 0 [] [] eq_refl ltac:(cbn; lia))).
Defined.

(** ** Listings *)
Definition written (evs : list event) : bytes := concat (omap (λ e, match e with Written b => Some b | _ => None end) evs).
Definition usr1 (from : Z) : siginfo := mk_siginfo SIGUSR1 0 0 from.
(** Neither the reader, the worker nor its listing comes to an end. *)
Definition listing_goes_on (pid : Z) (e : event) : Prop :=
  match e with
  | Signalled si _ _ _ => si_signo si ≠ SIGPIPE ∧ si_signo si ≠ SIGCHLD ∧ ¬ (si_signo si = SIGUSR1 ∧ si_pid si = pid)
  | _ => True
  end.
(** What the reader [c] was given and what is still in the pipe is [b]. *)
Record listing_to (c : Z) (b : bytes) (closed : list (Z * bytes)) (s : supervisor) : Prop := {
  lt_wfd : ∃ out, su_wfd s = Some (c, out) ∧ out ++ su_pipe s = b;
  lt_closed : su_closed s = closed;
}.
Lemma forward_listing si killed opened c b closed s :
  listing_to c b closed s → listing_to c b closed (forward si killed opened s).
Proof.
  intros [(out & Hw & Hb) Hc]. unfold forward. destruct killed; cbn [negb]; [|split; [by exists out|done]].
  destruct (_ =? _); [|split; [by exists out|done]]. cbn. rewrite Hw. split; [by exists out|done].
Qed.
Lemma listing_event pid e c b closed s :
  listing_goes_on pid e → listing_to c b closed s →
  (on_event pid e s).2 = None ∧ listing_to c (b ++ written [e]) closed (on_event pid e s).1.
Proof.
  intros He Hs. destruct e as [b'| |si killed opened room]; cbn [on_event written omap list_omap concat]; rewrite ?app_nil_r; [|done|].
  - destruct Hs as [(out & Hw & <-) Hc]. split; [done|]. split; [|done]. exists out. split; [done|]. cbn. by rewrite app_assoc.
  - destruct He as (Hp & Hch & Hu). cbv zeta. rewrite (proj2 (Z.eqb_neq _ _) Hp), (proj2 (Z.eqb_neq _ _) Hch).
    destruct (Z.eqb_spec (si_signo si) SIGIO).
    + split; [done|]. destruct Hs as [(out & Hw & <-) Hc]. unfold __splice_pipe. rewrite Hw. split; [|done].
      eexists. split; [reflexivity|]. cbn. by rewrite <-app_assoc, take_drop.
    + case_bool_decide; [split; [done|]; by apply forward_listing; destruct Hs|].
      destruct (Z.eqb_spec (si_signo si) SIGUSR1), (Z.eqb_spec (si_pid si) pid); cbn [andb];
        try (by split; [|apply forward_listing]). tauto.
Qed.
Lemma written_cons e evs : written (e :: evs) = written [e] ++ written evs.
Proof. unfold written. cbn. destruct e; cbn; by rewrite ?app_nil_r. Qed.
Lemma listing_events pid mid evs c b closed s :
  Forall (listing_goes_on pid) mid → listing_to c b closed s →
  ∃ s', wait_loop pid (mid ++ evs) s = wait_loop pid evs s' ∧ listing_to c (b ++ written mid) closed s'.
Proof.
  intros Hm. revert b s. induction Hm as [|e mid He _ IH]; intros b s Hs; cbn [app wait_loop].
  { exists s. split; [done|]. cbn. by rewrite app_nil_r. }
  destruct (listing_event pid e c b closed s He Hs) as [Hn Hl]. destruct (on_event pid e s) as [s1 o]. cbn [fst snd] in *. subst o.
  destruct (IH _ _ Hl) as (s' & -> & Hl'). exists s'. split; [done|]. by rewrite written_cons, app_assoc.
Qed.

(** What does not fit into the FIFO at the end stays in the pipe. *)
Lemma deliver_listing_part pid c mid killed opened room room' s :
  su_wfd s = None → c ≠ pid → Forall (listing_goes_on pid) mid →
  let evs := Signalled (usr1 c) true true room' :: mid ++ [Signalled (usr1 pid) killed opened room] in
  let r := wait_loop pid evs s in
  let b := su_pipe s ++ written mid in
  r.2 = None ∧ su_wfd r.1 = None ∧
  ∃ k, (room ≤ k)%nat ∧ su_pipe r.1 = drop k b ∧ su_closed r.1 = su_closed s ++ [(c, take k b)].
Proof.
  intros Hw Hc Hm evs r b.
  assert (on_event pid (Signalled (usr1 c) true true room') s = (set_wfd (Some (c, [])) (pass SIGUSR1 s), None)) as E.
  { unfold on_event, usr1. cbn [si_signo si_pid]. cbn. rewrite (proj2 (Z.eqb_neq _ _) Hc). unfold forward. cbn. by rewrite Hw. }
  unfold r, evs. cbn [wait_loop]. rewrite E. clear E.
  destruct (listing_events pid mid [Signalled (usr1 pid) killed opened room] c (su_pipe s) (su_closed s)
    (set_wfd (Some (c, [])) (pass SIGUSR1 s)) Hm) as (s' & -> & [(out & Hw' & Hb) Hcl]).
  { split; [|done]. by exists []. }
  cbn [wait_loop]. unfold on_event, usr1. cbn [si_signo si_pid]. rewrite Z.eqb_refl. cbn.
  unfold __splice_pipe. rewrite Hw'. unfold close_wfd. cbn. rewrite Hcl.
  rewrite Z.eqb_refl, bool_decide_eq_false_2 by set_solver. split; [done|]. split; [done|].
  exists (length out + room)%nat. cbn. unfold b. rewrite <-Hb, take_app_add, drop_app_add. split; [lia|done].
Qed.
Lemma deliver_listing pid c mid killed opened room room' s :
  su_wfd s = None → c ≠ pid → Forall (listing_goes_on pid) mid → (length (su_pipe s ++ written mid) ≤ room)%nat →
  let evs := Signalled (usr1 c) true true room' :: mid ++ [Signalled (usr1 pid) killed opened room] in
  let r := wait_loop pid evs s in
  r.2 = None ∧ su_wfd r.1 = None ∧ su_pipe r.1 = [] ∧ su_closed r.1 = su_closed s ++ [(c, su_pipe s ++ written mid)].
Proof.
  intros Hw Hc Hm Hroom evs r. destruct (deliver_listing_part pid c mid killed opened room room' s Hw Hc Hm) as (H1 & H2 & k & Hk & Hd & Ht).
  split_and!; [done|done| |].
  - unfold r, evs. rewrite Hd. apply drop_ge. lia.
  - unfold r, evs. rewrite Ht, take_ge; [done|lia].
Qed.
(** A listing reaches the program that asked for it.  From its
    signal, which is passed on to the worker, to the signal of the worker, what
    the worker writes goes to the FIFO of the program, complete and in order
    behind what was still in the pipe, however the writes and the signals
    interleave, and then the FIFO is closed; other programs that ask meanwhile
    do not come in between. *)
Theorem listing_delivered pid c mid killed opened room room' s :
  su_wfd s = None → c ≠ pid → Forall (listing_goes_on pid) mid → (length (su_pipe s ++ written mid) ≤ room)%nat →
  let evs := Signalled (usr1 c) true true room' :: mid ++ [Signalled (usr1 pid) killed opened room] in
  let r := wait_loop pid evs s in
  r.2 = None ∧ su_wfd r.1 = None ∧ su_pipe r.1 = [] ∧ su_closed r.1 = su_closed s ++ [(c, su_pipe s ++ written mid)].
Proof. apply deliver_listing. Qed.
Lemma listing_delivered_witness :
  let s := mk_supervisor (- ECHILD) None [] [] [] in
  let sigio := Signalled (mk_siginfo SIGIO 0 0 0) true true 2 in
  su_closed (wait_loop 7 [Signalled (usr1 9) true true 0; Written (str "abc"); sigio; Signalled (usr1 10) true true 0;
    Written (str "de"); Signalled (usr1 7) true true 4096] s).1 = [(9, str "abcde")].
Proof.
  intros s sigio.
  refine (proj2 (proj2 (proj2 (listing_delivered 7 9 [Written (str "abc"); sigio; Signalled (usr1 10) true true 0; Written (str "de")]
    true true 4096 0 s eq_refl _ _ _)))).
  - discriminate.
  - repeat (apply Forall_cons_2 || apply Forall_nil_2); try exact I;
      (split; [discriminate|split; [discriminate|]]); intros [E1 E2]; first [discriminate E1|discriminate E2].
  - apply Nat.leb_le. vm_compute. reflexivity.
Defined.
