(* ===== verification/Control.v ===== *)
(** * The control program ([src/control/control.c])

    Stopping, reloading and listing the daemon by signals, switching the kernel
    server through its attributes in sysfs, and the reports about state,
    features and limits. *)

From S2P Require Import Prelude ConfText Refcount Users Shares Sessions Config Smbacl Ndr Rpc Srvsvc Quic Ipc Channel Worker Loading Programs Daemon Manager.

(** ** Data *)

(** The process, [global_conf.pid], the signals that were sent, what was written
    to sysfs, and what was printed. *)
Record ctl := mk_ctl {
  ct_process : process; ct_pid : Z; ct_sent : list (Z * Z); ct_attrs : list (bytes * bytes); ct_out : list bytes;
}.
Definition set_ct_process (p : process) (c : ctl) : ctl := mk_ctl p (ct_pid c) (ct_sent c) (ct_attrs c) (ct_out c).
Definition set_ct_pid (n : Z) (c : ctl) : ctl := mk_ctl (ct_process c) n (ct_sent c) (ct_attrs c) (ct_out c).
Definition sent (x : Z * Z) (c : ctl) : ctl := mk_ctl (ct_process c) (ct_pid c) (ct_sent c ++ [x]) (ct_attrs c) (ct_out c).
Definition stored (x : bytes * bytes) (c : ctl) : ctl := mk_ctl (ct_process c) (ct_pid c) (ct_sent c) (ct_attrs c ++ [x]) (ct_out c).
Definition say_line (b : bytes) (c : ctl) : ctl := mk_ctl (ct_process c) (ct_pid c) (ct_sent c) (ct_attrs c) (ct_out c ++ [b]).
Definition printf (b : bytes) : prog ctl unit := modify (say_line b).

Definition PATH_CLASS_ATTR_KILL_SERVER : bytes := str "/sys/class/ksmbd-control/kill_server".
Definition PATH_CLASS_ATTR_DEBUG : bytes := str "/sys/class/ksmbd-control/debug".
Definition PATH_MODULE_VERSION : bytes := str "/sys/module/ksmbd/version".

(** The machine: the lock file with the processes it may name, the names that
    [/proc/PID/comm] gives to processes, what [kill]
    returns, and the files of sysfs: whether they can be opened (zero, or the
    error), written, sought (the size, or the negated error) and read. *)
Class Machine := {
  lock_file : Z + bytes;
  pid_alive : Z → bool;
  proc_comm : Z → option bytes;
  sys_kill : Z → Z → Z;
  sysfs_open : bytes → Z;
  sysfs_write : bytes → bytes → Z;
  sysfs_seek : bytes → Z;
  sysfs_read : bytes → Z + bytes;
  module_loaded : bool;
}.

Section Control.
Context `{Machine}.

(** [verify_mountd_pid]: [fgets] reads one line of [comm], of which 31 octets fit. *)
Fixpoint until_newline (b : bytes) : bytes := match b with [] => [] | c :: b => if c =? 10 then [] else c :: until_newline b end.
Definition pid_is_mountd (pid : Z) : bool :=
  match proc_comm pid with
  | None | Some [] => false
  | Some text =>
      let comm := cstr (until_newline (take 31 text)) in
      bool_decide (comm = str "ksmbd.mountd") || bool_decide (comm = str "ksmbdctl")
  end.
(** [cp_parse_lock] of a program that is not the daemon *)
Definition parse_lock : prog ctl Z :=
  zoom ct_pid set_ct_pid (cp_parse_lock pid_alive pid_is_mountd CONTROL (λ _, 0) 1 lock_file).
Definition kill (signo : Z) : prog ctl Z :=
  c <- get ;;
  let e := sys_kill (ct_pid c) signo in
  if e =? 0 then modify (sent (ct_pid c, signo)) ;; ret 0 else ret (- e).

(** ** The daemon and the kernel server *)
Definition kill_server : prog ctl Z :=
  if negb (sysfs_open PATH_CLASS_ATTR_KILL_SERVER =? 0) then ret (- sysfs_open PATH_CLASS_ATTR_KILL_SERVER)
  else
    let e := sysfs_write PATH_CLASS_ATTR_KILL_SERVER (str "hard") in
    if e =? 0 then modify (stored (PATH_CLASS_ATTR_KILL_SERVER, str "hard")) ;; ret 0 else ret (- e).
Definition control_shutdown : prog ctl Z :=
  r <- parse_lock ;;
  mountd_err <- (if r =? 0 then kill SIGTERM else ret r) ;;
  ksmbd_err <- kill_server ;;
  ret (if ksmbd_err =? 0 then 0 else if mountd_err =? 0 then ksmbd_err else mountd_err).
Definition control_reload : prog ctl Z :=
  r <- parse_lock ;;
  if r =? 0 then kill SIGHUP else ret r.

(** ** Attributes *)

(** [lseek] to the end and back, and [read] of that many octets *)
Definition read_attr (path : bytes) : Z + bytes :=
  if sysfs_seek path <? 0 then inl (sysfs_seek path)
  else match sysfs_read path with
  | inl e => inl (- e)
  | inr b => inr (cstr (take (Z.to_nat (sysfs_seek path)) b))
  end.
Definition control_show_version : prog ctl Z :=
  if negb (sysfs_open PATH_MODULE_VERSION =? 0) then ret (- sysfs_open PATH_MODULE_VERSION)
  else match read_attr PATH_MODULE_VERSION with
  | inl r => ret r
  | inr version => printf (str "ksmbd version : " ++ version) ;; ret 0
  end.
Definition control_debug (comp : bytes) : prog ctl Z :=
  if negb (sysfs_open PATH_CLASS_ATTR_DEBUG =? 0) then ret (- sysfs_open PATH_CLASS_ATTR_DEBUG)
  else
    let e := sysfs_write PATH_CLASS_ATTR_DEBUG comp in
    if negb (e =? 0) then ret (- e)
    else
      modify (stored (PATH_CLASS_ATTR_DEBUG, comp)) ;;
      match read_attr PATH_CLASS_ATTR_DEBUG with
      | inl r => ret r
      | inr debug => printf debug ;; ret 0
      end.
(** The state is [buf], of [bufsz] octets: writing behind it is a fault. *)
Definition put_octet (i : Z) (c : Z) : prog bytes unit :=
  buf <- get ;;
  if (0 <=? i) && (i <? Z.of_nat (length buf)) then modify (mem_write (Z.to_nat i) [c]) else fault.
Definition read_sysfs_string (path : bytes) (bufsz : Z) : prog bytes Z :=
  if negb (sysfs_open path =? 0) then ret (- sysfs_open path)
  else match sysfs_read path with
  | inl e => ret (- e)
  | inr b =>
      let data := take (Z.to_nat (bufsz - 1)) b in
      let len := Z.of_nat (length data) in
      buf <- get ;;
      (if Z.of_nat (length buf) <? len then fault else modify (mem_write 0 data)) ;;
      put_octet len 0 ;;
      (if (0 <? len) && (nth (length data - 1) data 0 =? 10) then put_octet (len - 1) 0 else ret tt) ;;
      ret 0
  end.

(** ** Listing *)

(** What happens to the FIFO: the manager opens it, writes to it and closes it,
    and a signal arrives; [splice]: the error of a [splice], or zero. *)
Inductive list_event := Opened | Given (b : bytes) | FifoClosed | GotSignal (signo splice : Z).
(** What is in the FIFO, whether someone has it open for writing, and what was
    printed; a FIFO without a writer is at its end. *)
Record fifo := mk_fifo { ff_data : bytes; ff_writer : bool; ff_printed : bytes }.
Fixpoint list_wait (evs : list list_event) (s : fifo) : fifo * option Z :=
  match evs with
  | [] => (s, None)
  | Opened :: evs => list_wait evs (mk_fifo (ff_data s) true (ff_printed s))
  | Given b :: evs => list_wait evs (mk_fifo (ff_data s ++ b) (ff_writer s) (ff_printed s))
  | FifoClosed :: evs => list_wait evs (mk_fifo (ff_data s) false (ff_printed s))
  | GotSignal signo splice :: evs =>
      if negb (signo =? SIGIO) then (s, Some 0)
      else if negb (splice =? 0) then (s, Some (- splice))
      else
        let s := mk_fifo [] (ff_writer s) (ff_printed s ++ ff_data s) in
        if ff_writer s then list_wait evs s else (s, Some 0)
  end.
(** [mkfifo], [open] and the two [fcntl]: zero, or their errors.  No result:
    the program still waits. *)
Definition control_list (mkfifo open fcntl tty : Z) (evs : list list_event) : prog ctl (option Z) :=
  if negb (mkfifo =? 0) then ret (Some (- mkfifo))
  else if negb (open =? 0) then ret (Some (- open))
  else if negb (fcntl =? 0) then ret (Some (- fcntl))
  else if negb (tty =? 0) then ret (Some (- tty))
  else
    r <- parse_lock ;;
    if negb (r =? 0) then ret (Some r)
    else
      k <- kill SIGUSR1 ;;
      if negb (k =? 0) then ret (Some k)
      else
        let '(s, r) := list_wait evs (mk_fifo [] false []) in
        printf (ff_printed s) ;; ret r.

(** ** Status *)
Definition in_buffer (buf : bytes) (m : prog bytes Z) : prog ctl (Z * bytes) := λ c,
  match m buf with
  | Done r b => Done (r, b) c
  | Err e _ => Err e c
  | Fault => Fault
  end.
Definition buffer_of (s : bytes) (n : Z) : bytes := s ++ replicate (Z.to_nat n - length s) 0.
Definition control_status : prog ctl Z :=
  if negb module_loaded then
    printf (str "ksmbd module:   not loaded") ;; printf (str "ksmbd.mountd:   not running") ;; ret 0
  else
    v <- in_buffer (buffer_of (str "unknown") 64) (read_sysfs_string PATH_MODULE_VERSION 64) ;;
    printf (str "ksmbd module:   loaded (version " ++ cstr v.2 ++ str ")") ;;
    r <- parse_lock ;;
    c <- get ;;
    (if (r =? 0) && (0 <? ct_pid c) then
       if sys_kill (ct_pid c) 0 =? 0 then printf (str "ksmbd.mountd:   running (PID " ++ print_uint (ct_pid c) ++ str ")")
       else printf (str "ksmbd.mountd:   not running (stale PID " ++ print_uint (ct_pid c) ++ str ")")
     else printf (str "ksmbd.mountd:   not running")) ;;
    d <- in_buffer (buffer_of [] 256) (read_sysfs_string PATH_CLASS_ATTR_DEBUG 256) ;;
    (if d.1 =? 0 then printf (str "Debug:          " ++ cstr d.2) else ret tt) ;;
    ret 0.
End Control.

(** ** Reports *)

(** [%-20s] and [%-28s] *)
Definition left_aligned (width : nat) (s : bytes) : bytes := s ++ replicate (width - length s) 32.
Definition feature_flags : list (bytes * Z) := [
  (str "SMB2 Leases", KSMBD_GLOBAL_FLAG_SMB2_LEASES);
  (str "SMB2 Encryption", KSMBD_GLOBAL_FLAG_SMB2_ENCRYPTION);
  (str "SMB3 Multichannel", KSMBD_GLOBAL_FLAG_SMB3_MULTICHANNEL);
  (str "Durable Handle", KSMBD_GLOBAL_FLAG_DURABLE_HANDLE);
  (str "Fruit Extensions", KSMBD_GLOBAL_FLAG_FRUIT_EXTENSIONS);
  (str "Fruit Zero FileID", KSMBD_GLOBAL_FLAG_FRUIT_ZERO_FILEID);
  (str "Fruit NFS ACEs", KSMBD_GLOBAL_FLAG_FRUIT_NFS_ACES);
  (str "Fruit Copyfile", KSMBD_GLOBAL_FLAG_FRUIT_COPYFILE)].
Definition signing_to_str (signing : Z) : bytes :=
  if signing =? KSMBD_CONFIG_OPT_DISABLED then str "disabled"
  else if signing =? KSMBD_CONFIG_OPT_ENABLED then str "enabled"
  else if signing =? KSMBD_CONFIG_OPT_AUTO then str "auto"
  else if signing =? KSMBD_CONFIG_OPT_MANDATORY then str "mandatory"
  else str "unknown".
Definition enabled (b : bool) : bytes := if b then str "enabled" else str "disabled".
(** [%d] *)
Definition print_int (v : Z) : bytes := if v <? 0 then str "-" ++ print_uint (- v) else print_uint v.
Definition feature_lines (g : smbconf_global) : list bytes :=
  let row (name value : bytes) := str "  " ++ left_aligned 20 name ++ value in
  str "=== ksmbd Feature Status ===" ::
  ((λ x, row x.1 (enabled (test_flag (gc_int g FLAGS) x.2))) <$> feature_flags) ++
  [row (str "Signing:") (signing_to_str (gc_int g SERVER_SIGNING));
   row (str "Min Protocol:") (default (str "(default)") (gc_str g SERVER_MIN_PROTOCOL));
   row (str "Max Protocol:") (default (str "(default)") (gc_str g SERVER_MAX_PROTOCOL));
   row (str "Max Worker Threads:") (print_int (gc_int g Config.MAX_WORKER_THREADS))].
(** A limit with what is shown for a zero; [Deadtime] is shown as it is. *)
Definition shown (g : smbconf_global) (f : gint) (d : Z) : Z := if gc_int g f =? 0 then d else gc_int g f.
Inductive limit_line :=
  | Title (s : bytes)
  | Number (name : bytes) (f : gint) (d : Z) (unit_ : bytes)
  | Text (name value : bytes).
Definition limit_rows (g : smbconf_global) : list limit_line := [
  Title (str "=== ksmbd Server Limits ==="); Title []; Title (str "  Transport Limits:");
  Number (str "TCP Port:") TCP_PORT 445 [];
  Number (str "TCP Recv Timeout:") TCP_RECV_TIMEOUT 7 (str " s (0=default:7)");
  Number (str "TCP Send Timeout:") TCP_SEND_TIMEOUT 5 (str " s (0=default:5)");
  Number (str "QUIC Recv Timeout:") QUIC_RECV_TIMEOUT 7 (str " s (0=default:7)");
  Number (str "QUIC Send Timeout:") QUIC_SEND_TIMEOUT 5 (str " s (0=default:5)");
  Text (str "QUIC Handshake Delegate:") (enabled (negb (gc_int g QUIC_HANDSHAKE_DELEGATE =? 0)));
  Text (str "QUIC TLS Certificate:") (default (str "(not configured)") (gc_str g QUIC_TLS_CERT));
  Text (str "QUIC TLS Key:") (default (str "(not configured)") (gc_str g QUIC_TLS_KEY));
  Number (str "SMBD Max IO Size:") SMBD_MAX_IO_SIZE 8388608 [];
  Title []; Title (str "  Connection Limits:");
  Number (str "Max Connections:") MAX_CONNECTIONS 1024 [];
  Number (str "Max IP Connections:") MAX_IP_CONNECTIONS 64 [];
  Number (str "Deadtime:") DEADTIME 0 (str " s");
  Title []; Title (str "  Protocol Limits:");
  Number (str "SMB2 Max Read:") SMB2_MAX_READ 65536 [];
  Number (str "SMB2 Max Write:") SMB2_MAX_WRITE 65536 [];
  Number (str "SMB2 Max Trans:") SMB2_MAX_TRANS 65536 [];
  Number (str "SMB2 Max Credits:") SMB2_MAX_CREDITS 8192 [];
  Number (str "Max Buffer Size:") MAX_BUFFER_SIZE 65536 [];
  Number (str "Max Lock Count:") MAX_LOCK_COUNT 64 [];
  Number (str "SMB1 Max MPX:") SMB1_MAX_MPX 10 [];
  Title []; Title (str "  Session Limits:");
  Number (str "Max Sessions:") MAX_SESSIONS 1024 [];
  Number (str "Session Timeout:") SESSION_TIMEOUT 10 (str " s (0=default:10)");
  Number (str "Durable Handle Timeout:") DURABLE_HANDLE_TIMEOUT 300000 (str " ms (0=default:300000)");
  Number (str "Max Open Files:") FILE_MAX 10000 [];
  Title []; Title (str "  Credit/Request Limits:");
  Number (str "Max Inflight Requests:") MAX_INFLIGHT_REQ 8192 [];
  Number (str "Max Async Credits:") MAX_ASYNC_CREDITS 512 [];
  Number (str "IPC Timeout:") IPC_TIMEOUT 10 (str " s");
  Title []; Title (str "  (Values of 0 mean 'not configured'; kernel uses built-in defaults)")].
Definition limit_text (g : smbconf_global) (l : limit_line) : bytes :=
  match l with
  | Title s => s
  | Number name f d u => str "    " ++ left_aligned 28 name ++ print_uint (shown g f d) ++ u
  | Text name v => str "    " ++ left_aligned 28 name ++ v
  end.
Definition limit_lines (g : smbconf_global) : list bytes := limit_text g <$> limit_rows g.

Section Reports.
Context `{GLib, System, Allocator, Ptls, Libnl, Netlink}.
Variable group_order : gmap bytes smbconf_group → list (bytes * smbconf_group).
Variable session_order : gmap Z Z → list (Z * Z).
Variable set_conf_contents : bytes → Z.
Variable gen_subauth : list Z.
Variable host_named mechs_set_up pool_created : bool.
Definition of_process {T : Type} : prog process T → prog ctl T := zoom ct_process set_ct_process.
(** [control_features] and [control_limits], which differ in what they print *)
Definition control_report (lines : smbconf_global → list bytes) (f : files) : prog ctl Z :=
  r <- of_process (load_config group_order CONTROL set_conf_contents gen_subauth host_named mechs_set_up pool_created f) ;;
  (if r =? 0 then c <- get ;; for_each (lines (pc_conf (ct_process c))) printf else ret tt) ;;
  of_process (remove_config session_order CONTROL) ;;
  ret r.
Definition control_features : files → prog ctl Z := control_report feature_lines.
Definition control_limits : files → prog ctl Z := control_report limit_lines.
End Reports.

(** ** The buffers of the status *)
Definition strip_newline (b : bytes) : bytes := if bool_decide (last b = Some 10) then removelast b else b.
Lemma mem_write_octet (a r : bytes) x c : mem_write (length a) [c] (a ++ x :: r) = a ++ c :: r.
Proof.
  unfold mem_write. rewrite take_app_length. f_equal. cbn [app length]. f_equal.
  rewrite drop_app_ge by lia. by replace (length a + 1 - length a)%nat with 1%nat by lia.
Qed.
Lemma cstr_terminated (d rest : bytes) : cstr (d ++ 0 :: rest) = cstr d.
Proof. induction d as [|c d IH]; [done|]. cbn. destruct (c =? 0); [done|]. by rewrite IH. Qed.

Section Laws.
Context `{Machine}.
Lemma put_octet_wp i c (buf : bytes) :
  0 ≤ i < Z.of_nat (length buf) → wp (put_octet i c) buf (λ _ b, b = mem_write (Z.to_nat i) [c] buf) (λ _ _, False).
Proof.
  intros Hi. unfold put_octet. wp_step. wp_step. rewrite (proj2 (Z.leb_le _ _)), (proj2 (Z.ltb_lt _ _)) by lia. cbn [andb]. by wp_step.
Qed.
(** Reading an attribute stays in the buffer and leaves the text of the
    attribute in it, as far as it fits and without a newline at its end. *)
Lemma read_sysfs_string_wp path bufsz (buf : bytes) :
  Z.of_nat (length buf) = bufsz → 1 ≤ bufsz →
  wp (read_sysfs_string path bufsz) buf
    (λ r buf', length buf' = length buf ∧
       (r = 0 → (∃ b, sysfs_read path = inr b ∧ cstr buf' = cstr (strip_newline (take (Z.to_nat (bufsz - 1)) b))) ∨ buf' = buf))
    (λ _ _, False).
Proof.
  intros Hl Hs. unfold read_sysfs_string. destruct (negb _); [wp_step; split; [done|by right]|].
  destruct (sysfs_read path) as [e|b]; [wp_step; split; [done|by right]|]. cbv zeta.
  set (d := take (Z.to_nat (bufsz - 1)) b). assert (length d < length buf)%nat as Hd by (unfold d; rewrite length_take; lia).
  do 2 wp_step. wp_step. rewrite (proj2 (Z.ltb_ge _ _)) by lia. wp_step.
  assert (length (mem_write 0 d buf) = length buf) as Hl1 by (apply length_mem_write; lia).
  assert (∃ x r, mem_write 0 d buf = d ++ x :: r) as (x & r & E).
  { unfold mem_write. cbn. destruct (drop (length d) buf) as [|x r] eqn:Er; [|by exists x, r].
    apply (f_equal length) in Er. rewrite length_drop in Er. cbn in Er. lia. }
  wp_step. eapply wp_mono; [apply put_octet_wp; rewrite Hl1; lia| |done]. intros _ buf1 ->.
  rewrite Nat2Z.id, E, mem_write_octet. rewrite E, length_app in Hl1. cbn [length] in Hl1.
  wp_step. unfold strip_newline. fold d. destruct (last d) as [y|] eqn:Hy.
  - apply last_Some in Hy as [d' Hd']. rewrite Hd' in *. rewrite length_app in *. cbn [length] in *.
    rewrite app_nth2 by lia. replace (length d' + 1 - 1 - length d')%nat with 0%nat by lia. cbn [nth].
    rewrite (proj2 (Z.ltb_lt _ _)) by lia. cbn [andb]. destruct (Z.eqb_spec y 10) as [->|Hne].
    + eapply wp_mono; [apply put_octet_wp; rewrite !length_app; cbn; lia| |done]. intros _ buf2 ->. wp_step.
      replace (Z.to_nat (Z.of_nat (length d' + 1) - 1)) with (length d') by lia. rewrite <-app_assoc. cbn [app].
      rewrite mem_write_octet. split; [rewrite length_app; cbn; lia|]. intros _. left. exists b. split; [done|]. fold d.
      rewrite cstr_terminated, Hd', bool_decide_eq_true_2 by apply last_snoc. by rewrite removelast_last.
    + wp_step. wp_step. split; [rewrite !length_app; cbn; lia|]. intros _. left. exists b. split; [done|]. fold d.
      rewrite cstr_terminated, Hd', bool_decide_eq_false_2; [done|]. rewrite last_snoc. congruence.
  - apply last_None in Hy. rewrite Hy in *. rewrite (proj2 (Z.ltb_ge _ _)) by (cbn; lia). cbn [andb]. wp_step. wp_step. split; [cbn in *; lia|]. intros _. left. exists b. fold d. by rewrite Hy.
Qed.

(** ** Signals to the daemon *)

(** The lock file of a daemon with the number [pid]. *)
Definition locked_by (pid : Z) : Prop := 1 < pid ≤ INT_MAX ∧ lock_file = inr (print_uint pid ++ [10]).
Definition daemon_lives (pid : Z) : bool := pid_alive pid && pid_is_mountd pid.
Lemma parse_lock_eq pid c :
  locked_by pid → parse_lock c = if daemon_lives pid then Done 0 (set_ct_pid pid c) else Done (- EINVAL) c.
Proof.
  intros [Hp Hl]. unfold parse_lock, zoom. rewrite Hl.
  destruct (lock_file_protocol pid_alive pid_is_mountd (λ _, 0) CONTROL pid pid (ct_pid c) Hp Hp) as (_ & _ & E & _).
  assert (set_ct_pid (ct_pid c) c = c) as Hid by by destruct c.
  destruct (lock_file_protocol pid_alive pid_is_mountd (λ _, 0) CONTROL pid 2 (ct_pid c) Hp ltac:(done)) as (_ & _ & E2 & _).
  assert (cp_parse_lock pid_alive pid_is_mountd CONTROL (λ _, 0) 1 (inr (print_uint pid ++ [10])) (ct_pid c) =
          cp_parse_lock pid_alive pid_is_mountd CONTROL (λ _, 0) 2 (inr (print_uint pid ++ [10])) (ct_pid c)) as -> by done.
  rewrite E2 by done. unfold daemon_lives. destruct (_ && _); by rewrite ?Hid.
Qed.
(** What was signalled *)
Definition signalled (pid signo : Z) (c : ctl) : ctl :=
  if sys_kill pid signo =? 0 then sent (pid, signo) (set_ct_pid pid c) else set_ct_pid pid c.
Lemma kill_eq pid signo c :
  kill signo (set_ct_pid pid c) = Done (- sys_kill pid signo) (signalled pid signo c).
Proof.
  unfold kill, bind, get, signalled. cbn [ct_pid set_ct_pid]. destruct (Z.eqb_spec (sys_kill pid signo) 0) as [->|]; done.
Qed.
Lemma kill_server_eq c :
  (∀ path b, 0 ≤ sysfs_write path b) → (∀ path, 0 ≤ sysfs_open path) →
  ∃ k c', kill_server c = Done k c' ∧
    ((k = 0 ∧ c' = stored (PATH_CLASS_ATTR_KILL_SERVER, str "hard") c) ∨ (k ≠ 0 ∧ c' = c)).
Proof.
  intros Hw Ho. unfold kill_server. specialize (Hw PATH_CLASS_ATTR_KILL_SERVER (str "hard")). specialize (Ho PATH_CLASS_ATTR_KILL_SERVER).
  destruct (Z.eqb_spec (sysfs_open PATH_CLASS_ATTR_KILL_SERVER) 0); cbn [negb]; [|eexists _, _; split; [done|right; split; [lia|done]]].
  destruct (Z.eqb_spec (sysfs_write PATH_CLASS_ATTR_KILL_SERVER (str "hard")) 0); eexists _, _; (split; [done|]); [by left|right].
  split; [lia|done].
Qed.
(** The stop, from the result of the first step on *)
Lemma shutdown_end e c0 c :
  (∀ path b, 0 ≤ sysfs_write path b) → (∀ path, 0 ≤ sysfs_open path) → ct_attrs c = ct_attrs c0 →
  ∃ r c', (ksmbd_err <- kill_server ;; ret (if ksmbd_err =? 0 then 0 else if e =? 0 then ksmbd_err else e)) c = Done r c' ∧
    ct_sent c' = ct_sent c ∧ (r = 0 ↔ ct_attrs c' = ct_attrs c0 ++ [(PATH_CLASS_ATTR_KILL_SERVER, str "hard")]).
Proof.
  intros Hw Ho Ea. destruct (kill_server_eq c Hw Ho) as (k & c' & E & [[-> ->]|[Hk ->]]); unfold bind; rewrite E; eexists _, _; (split; [done|]);
    (split; [done|]).
  - cbn. by rewrite Ea.
  - destruct (Z.eqb_spec k 0); [done|]. split.
    + destruct (Z.eqb_spec e 0); done.
    + rewrite Ea. intros El. apply (f_equal length) in El. rewrite length_app in El. cbn in El. lia.
Qed.

(** Stopping and reloading.  A reload sends SIGHUP to the
    daemon of the lock file, and fails, without a signal, when the lock file is
    stale.  A stop sends it SIGTERM, and writes to the attribute of the kernel
    server whether there is a daemon or not; it succeeds exactly when that is
    written. *)
Theorem stop_and_reload pid c :
  locked_by pid → (∀ path b, 0 ≤ sysfs_write path b) → (∀ path, 0 ≤ sysfs_open path) →
  let told signo := if daemon_lives pid then signalled pid signo c else c in
  control_reload c = Done (if daemon_lives pid then - sys_kill pid SIGHUP else - EINVAL) (told SIGHUP) ∧
  ∃ r c', control_shutdown c = Done r c' ∧ ct_sent c' = ct_sent (told SIGTERM) ∧
    (r = 0 ↔ ct_attrs c' = ct_attrs c ++ [(PATH_CLASS_ATTR_KILL_SERVER, str "hard")]).
Proof.
  intros Hl Hw Ho told. unfold control_reload, control_shutdown, bind at 1 2. rewrite (parse_lock_eq pid) by done. unfold told.
  destruct (daemon_lives pid).
  - cbn [Z.eqb]. unfold bind at 1. rewrite !kill_eq. split; [done|]. apply shutdown_end; [done|done|].
    unfold signalled. by destruct (_ =? _).
  - change (- EINVAL =? 0) with false. cbv iota. split; [done|]. by apply shutdown_end.
Qed.

(** The status is printed without a fault, and nothing is signalled or
    written. *)
Lemma in_buffer_wp path text n c :
  (length text ≤ Z.to_nat n)%nat → 1 ≤ n →
  wp (in_buffer (buffer_of text n) (read_sysfs_string path n)) c (λ _ c', c' = c) (λ _ _, False).
Proof.
  intros Ht Hn. unfold wp, in_buffer. pose proof (read_sysfs_string_wp path n (buffer_of text n)) as Hw. unfold wp in Hw.
  assert (Z.of_nat (length (buffer_of text n)) = n) as Hl by (unfold buffer_of; rewrite length_app, length_replicate; lia).
  specialize (Hw Hl Hn). by destruct (read_sysfs_string path n _).
Qed.
Definition same_effects (c c' : ctl) : Prop := ct_sent c' = ct_sent c ∧ ct_attrs c' = ct_attrs c ∧ ct_process c' = ct_process c.
Lemma status_wp pid c : locked_by pid → wp control_status c (λ r c', r = 0 ∧ same_effects c c') (λ _ _, False).
Proof.
  intros Hl. unfold control_status. destruct module_loaded; cbn [negb]; [|unfold printf; repeat wp_step; by split_and!].
  wp_step. eapply wp_mono; [apply in_buffer_wp; cbn; lia| |done]. intros v c1 ->. wp_step. unfold printf at 1. wp_step.
  wp_step. unfold wp at 1. rewrite (parse_lock_eq pid) by done.
  assert (∀ c1 (r : Z), same_effects c c1 →
    wp (c0 <- get ;;
        (if (r =? 0) && (0 <? ct_pid c0) then
           if sys_kill (ct_pid c0) 0 =? 0 then printf (str "ksmbd.mountd:   running (PID " ++ print_uint (ct_pid c0) ++ str ")")
           else printf (str "ksmbd.mountd:   not running (stale PID " ++ print_uint (ct_pid c0) ++ str ")")
         else printf (str "ksmbd.mountd:   not running")) ;;
        d <- in_buffer (buffer_of [] 256) (read_sysfs_string PATH_CLASS_ATTR_DEBUG 256) ;;
        (if d.1 =? 0 then printf (str "Debug:          " ++ cstr d.2) else ret tt) ;; ret 0) c1
      (λ r c', r = 0 ∧ same_effects c c') (λ _ _, False)) as Hrest.
  { intros c1 r (H1 & H2 & H3). wp_step. wp_step. wp_step. apply (wp_mono _ _ (λ _ c', same_effects c c') _ (λ _ _, False)); [|cbv beta|done].
    - unfold printf. repeat (destruct (_ && _) || destruct (_ =? _)); wp_step; by split_and!.
    - intros _ c2 (? & ? & ?). wp_step. eapply wp_mono; [apply in_buffer_wp; cbn; lia| |done]. intros d c3 ->. wp_step.
      unfold printf. destruct (_ =? _); wp_step; wp_step; by split_and!. }
  destruct (daemon_lives pid); apply Hrest; by split_and!.
Qed.
End Laws.

(** ** The reports *)
Section ReportLaws.
Context `{GLib, System, Allocator, Ptls, Libnl, Netlink}.
Hypothesis hash_order_perm : ∀ t, hash_order t ≡ₚ map_to_list t.
Hypothesis base64_decode_total : ∀ b, ∃ p, base64_decode b = Some p ∧ Z.of_nat (length p) ≤ INT_MAX.
Hypothesis strdown_lower : ∀ s, forallb (λ c, negb ((65 <=? c) && (c <=? 90))) s = true → g_ascii_strdown s = s.
Hypothesis utf8_ascii : ∀ s, forallb (λ c, c <? 128) s = true → g_utf8_validate s = true.
Hypothesis keys_differ : gkey ≠ ikey.
Variable group_order : gmap bytes smbconf_group → list (bytes * smbconf_group).
Variable session_order : gmap Z Z → list (Z * Z).
Variable set_conf_contents : bytes → Z.
Variable gen_subauth : list Z.
Variable host_named mechs_set_up pool_created : bool.
Abbreviation load_files := (load_config group_order CONTROL set_conf_contents gen_subauth host_named mechs_set_up pool_created).

Lemma print_lines_wp l c :
  wp (for_each l printf) c (λ _ c', c' = mk_ctl (ct_process c) (ct_pid c) (ct_sent c) (ct_attrs c) (ct_out c ++ l)) (λ _ _, False).
Proof.
  revert c. induction l as [|x l IH]; intros c; cbn [for_each]; [wp_step; rewrite app_nil_r; by destruct c|].
  wp_step. unfold printf at 1. wp_step. eapply wp_mono; [apply IH| |done]. intros u c' ->. cbn. by rewrite <-app_assoc.
Qed.
(** The report of the configuration in the files, when they can be loaded *)
Record reported (lines : smbconf_global → list bytes) (f : files) (c : ctl) (r : Z) (c' : ctl) : Prop := {
  rp_loaded : ∃ p, load_files f (ct_process c) = Done r p ∧ conf_ok (pc_conf p) ∧
    ct_out c' = ct_out c ++ (if r =? 0 then lines (pc_conf p) else []);
  rp_tables : ss_table (pc_shares (ct_process c')) = ∅ ∧ us_table (ss_users (pc_shares (ct_process c'))) = ∅;
  rp_sent : ct_sent c' = ct_sent c ∧ ct_attrs c' = ct_attrs c;
}.
Lemma report_wp lines f c :
  files_fit f → ready (ct_process c) →
  wp (control_report group_order session_order set_conf_contents gen_subauth host_named mechs_set_up pool_created lines f) c
    (reported lines f c) (λ _ _, False).
Proof.
  intros Hf Hc. unfold control_report. wp_step. unfold of_process at 1. apply wp_zoom.
  pose proof (tool_load_wp hash_order_perm base64_decode_total strdown_lower utf8_ascii keys_differ group_order CONTROL ltac:(done)
    set_conf_contents gen_subauth host_named mechs_set_up pool_created f (ct_process c) Hf Hc) as Hw.
  unfold wp in Hw |- *. destruct (load_files f (ct_process c)) as [r p|e p|] eqn:El; [|done..]. destruct Hw as [Hp _].
  fold (wp ((if r =? 0 then c0 <- get ;; for_each (lines (pc_conf (ct_process c0))) printf else ret tt) ;;
    of_process (remove_config session_order CONTROL) ;; ret r) (set_ct_process p c) (reported lines f c) (λ _ _, False)).
  wp_step. eapply (wp_mono _ _ (λ _ c', c' = mk_ctl p (ct_pid c) (ct_sent c) (ct_attrs c) (ct_out c ++ if r =? 0 then lines (pc_conf p) else []))
    _ (λ _ _, False)); [|cbv beta|done].
  { destruct (r =? 0); [|wp_step; by rewrite app_nil_r]. wp_step. wp_step. eapply wp_mono; [apply print_lines_wp| |done]. by intros u c' ->. }
  intros u c1 ->. wp_step. apply wp_zoom. eapply wp_mono; [apply tool_remove_wp; [done|done|apply Hp]| |done].
  intros v p2 (Ht & Htu & _). wp_step. split; [|done|done]. exists p. split; [done|]. split; [apply Hp|done].
Qed.

(** The reports of features and limits.  Whatever the files
    contain, loading them, printing and removing everything runs without a
    fault; the report is that of the configuration that the files give, in
    bounds, complete when they can be loaded, and nothing of it is printed
    otherwise; no signal is sent, and no user or share is left. *)
Theorem reports_safe f c :
  files_fit f → ready (ct_process c) →
  wp (control_features group_order session_order set_conf_contents gen_subauth host_named mechs_set_up pool_created f) c
    (reported feature_lines f c) (λ _ _, False) ∧
  wp (control_limits group_order session_order set_conf_contents gen_subauth host_named mechs_set_up pool_created f) c
    (reported limit_lines f c) (λ _ _, False).
Proof. intros Hf Hc. split; by apply report_wp. Qed.
End ReportLaws.

(** ** Limits and the kernel *)

(** The numbers of the startup message, by the members they are taken from *)
Definition sent_fields (m : startup_request) : list (gint * Z) := [
  (TCP_PORT, su_tcp_port m); (IPC_TIMEOUT, su_ipc_timeout m); (DEADTIME, su_deadtime m); (FILE_MAX, su_file_max m);
  (SMB2_MAX_READ, su_smb2_max_read m); (SMB2_MAX_WRITE, su_smb2_max_write m); (SMB2_MAX_TRANS, su_smb2_max_trans m);
  (SMB2_MAX_CREDITS, su_smb2_max_credits m); (SMBD_MAX_IO_SIZE, su_smbd_max_io_size m);
  (MAX_CONNECTIONS, su_max_connections m); (MAX_IP_CONNECTIONS, su_max_ip_connections m)].
Definition unsent : list gint := [
  TCP_RECV_TIMEOUT; TCP_SEND_TIMEOUT; QUIC_RECV_TIMEOUT; QUIC_SEND_TIMEOUT; MAX_BUFFER_SIZE; MAX_LOCK_COUNT; SMB1_MAX_MPX;
  MAX_SESSIONS; SESSION_TIMEOUT; DURABLE_HANDLE_TIMEOUT; MAX_INFLIGHT_REQ; MAX_ASYNC_CREDITS].
Definition limit_sent (conf : smbconf_global) (gen_subauth : list Z) (b n : Z) (payload : bytes) (l : limit_line) : Prop :=
  match l with
  | Number _ f d _ =>
      (∃ v, (f, v) ∈ sent_fields (startup_message conf gen_subauth b n payload) ∧ shown conf f d = if v =? 0 then d else v) ∨
      (f ∈ unsent ∧ ∀ v, startup_message (set_int f v conf) gen_subauth b n payload = startup_message conf gen_subauth b n payload)
  | _ => True
  end.

(** The report of limits and the message to the kernel.  Every
    number of the report is the one that the daemon sends to the kernel, or
    where that is zero the default; except for twelve numbers, which the daemon
    reads and the report shows, but no message of the daemon contains. *)
Theorem limits_sent conf gen_subauth b n payload :
  conf_ok conf → Forall (limit_sent conf gen_subauth b n payload) (limit_rows conf).
Proof.
  intros Hc. assert (u32 (gc_int conf FILE_MAX) = gc_int conf FILE_MAX) as Hf.
  { apply u32_small. unfold conf_ok, Config.between, KSMBD_CONF_MAX_OPEN_FILES in Hc. lia. }
  unfold limit_rows. repeat apply Forall_cons_2; try exact I; try apply Forall_nil_2;
    first [right; split; [unfold unsent; solve [repeat first [left|right]]|intros v; reflexivity]
          |left; eexists; split; [unfold sent_fields; solve [repeat first [left|right]]|]; cbn [startup_message su_file_max];
           rewrite ?Hf; reflexivity].
Qed.

(** ** A listing, from the worker to the terminal *)
Definition given (evs : list list_event) : bytes := concat (omap (λ e, match e with Given b => Some b | _ => None end) evs).
(** Only data and the signal for it *)
Definition reading (e : list_event) : Prop :=
  match e with Given _ => True | GotSignal signo splice => signo = SIGIO ∧ splice = 0 | _ => False end.
Lemma list_wait_prints mid s :
  Forall reading mid → ff_writer s = true →
  list_wait (mid ++ [FifoClosed; GotSignal SIGIO 0]) s = (mk_fifo [] false (ff_printed s ++ ff_data s ++ given mid), Some 0).
Proof.
  intros Hm. revert s. induction Hm as [|e mid He _ IH]; intros s Hs; cbn [app list_wait].
  - cbn. by rewrite app_nil_r.
  - destruct e as [|b| |signo splice]; try done.
    + rewrite IH by done. cbn. by rewrite <-!app_assoc.
    + destruct He as [-> ->]. cbn [negb Z.eqb]. change (SIGIO =? SIGIO) with true. cbn [negb ff_writer]. rewrite Hs, IH by done.
      cbn. by rewrite <-app_assoc.
Qed.

(** C30 (functional): a listing, through the three processes.  The worker
    writes a header and one line for each of its shares, as far as its pipe,
    which does not block, takes them, and reports success whatever it takes;
    the manager hands what is in the pipe over to the program whose signal it
    passed on, and what the FIFO of that program does not take at the end stays
    in the pipe; the program, which signals the daemon of the lock file, prints
    what the FIFO gives it, and ends when the manager has closed it.  So what
    is printed is a prefix of what the worker got into its pipe, and it is the
    whole listing when the pipe takes each line and the FIFO the rest.  The pipe
    was empty, no other listing was under way, and neither the worker nor the
    reader ended meanwhile. *)
Theorem listing_printed `{GLib, System, Allocator, Interfaces} (i : interface) `{!Lawful i} `{Machine}
    w pipe_room pid mpid me mid killed opened room room' s kmid c :
  (∀ t, hash_order t ≡ₚ map_to_list t) → consistent i (wk_process w) →
  su_wfd s = None → su_pipe s = [] → me ≠ pid → Forall (listing_goes_on pid) mid →
  let sent := taken pipe_room (length (wk_out w)) (listing w) in
  written mid = concat sent →
  locked_by mpid → daemon_lives mpid = true → sys_kill mpid SIGUSR1 = 0 → Forall reading kmid →
  let after := (wait_loop pid (Signalled (usr1 me) true true room' :: mid ++ [Signalled (usr1 pid) killed opened room]) s).1 in
  wp (list_config 0 pipe_room) w (λ r w', r = 0 ∧ wk_out w' = wk_out w ++ sent ∧ wk_told w' = wk_told w + 1) (λ _ _, False) ∧
  ∃ data, su_closed after = su_closed s ++ [(me, data)] ∧ data ++ su_pipe after = concat sent ∧
    (given kmid = data →
     ∃ c', control_list 0 0 0 0 (Opened :: kmid ++ [FifoClosed; GotSignal SIGIO 0]) c = Done (Some 0) c' ∧
       ct_out c' = ct_out c ++ [data] ∧ ct_sent c' = ct_sent c ++ [(mpid, SIGUSR1)]) ∧
    ((∀ k line, listing w !! k = Some line → (length line ≤ pipe_room (length (wk_out w) + k))%nat) →
     (length (concat (listing w)) ≤ room)%nat → data = concat (listing w)).
Proof.
  intros Ho Hc Hw Hp Hne Hm sent Hwr Hl Hd Hk Hkm after. split.
  { eapply wp_mono; [by eapply list_config_wp| |done]. by intros r w' [-> ->]. }
  destruct (deliver_listing_part pid me mid killed opened room room' s Hw Hne Hm) as (_ & _ & k & Hroom & Hrest & Hcl).
  rewrite Hp, Hwr in Hrest, Hcl. cbn [app] in Hrest, Hcl.
  exists (take k (concat sent)). split; [exact Hcl|]. split; [unfold after; rewrite Hrest; apply take_drop|]. split.
  - intros Hg. unfold control_list. cbn [negb Z.eqb]. unfold bind. rewrite (parse_lock_eq mpid), Hd by done. cbn [negb Z.eqb].
    rewrite kill_eq. unfold signalled. rewrite Hk. cbn [negb Z.eqb Z.opp]. cbn [list_wait]. rewrite list_wait_prints by done.
    eexists. split; [reflexivity|]. split; [|done]. cbn. by rewrite Hg.
  - intros Hall Hfit. unfold sent. rewrite taken_all by done. apply take_ge. lia.
Qed.

(** ** A small machine *)
Definition toy_machine : Machine := {|
  lock_file := inr (print_uint 42 ++ [10]); pid_alive _ := true; proc_comm _ := Some (str "ksmbdctl" ++ [10]); sys_kill _ _ := 0; sysfs_open _ := 0;
  sysfs_write _ _ := 0; sysfs_seek _ := 4096; sysfs_read _ := inr (str "3.5.0" ++ [10]); module_loaded := true;
|}.
Lemma toy_locked : locked_by (H:=toy_machine) 42.
Proof. split; [split; vm_compute; congruence|reflexivity]. Qed.
Definition toy_ctl : ctl := mk_ctl toy_process 0 [] [] [].
Lemma stop_and_reload_witness :
  ∃ c, control_shutdown (H:=toy_machine) toy_ctl = Done 0 c ∧ ct_sent c = [(42, SIGTERM)].
Proof.
  destruct (proj2 (stop_and_reload (H:=toy_machine) 42 toy_ctl toy_locked (λ _ _, Z.le_refl 0) (λ _, Z.le_refl 0))) as (r & c & E & Hs & Hr).
  exists c. assert (r = 0) as ->; [|exact (conj E Hs)]. apply Hr.
  assert (ct_attrs <$> (match control_shutdown (H:=toy_machine) toy_ctl with Done _ c => Some c | _ => None end) =
    Some [(PATH_CLASS_ATTR_KILL_SERVER, str "hard")]) as Ha by reflexivity.
  rewrite E in Ha. cbn in Ha. injection Ha as Ha. exact Ha.
Defined.
Lemma toy_process_ready : ready (H:=toy_glib) toy_process.
Proof. split; [exact no_shares_ok|exact zero_global_ok|exact I|reflexivity]. Qed.
Lemma toy_files_fit : files_fit (toy_files "media").
Proof. split; vm_compute; reflexivity. Qed.
Abbreviation toy_limits := (control_limits (H:=toy_glib) (H0:=total_system) (H1:=plenty) (H2:=toy_ptls) (H4:=toy_netlink)
  map_to_list map_to_list (λ _, 0) [1; 2; 3] true true true (toy_files "media")).
Lemma reports_safe_witness :
  ∃ r c, toy_limits toy_ctl = Done r c ∧ length (ct_out c) = 39%nat ∧ ss_table (pc_shares (ct_process c)) = ∅.
Proof.
  assert (match toy_limits toy_ctl with Done r c => (length (ct_out c) =? 39)%nat | _ => false end = true) as Hc by (vm_compute; reflexivity).
  pose proof (proj2 (reports_safe (H:=toy_glib) (H0:=total_system) (H1:=plenty) (H2:=toy_ptls) (H4:=toy_netlink)
    (λ t, reflexivity (map_to_list t)) toy_decode toy_strdown (λ _ Ha, Ha) toy_keys_differ map_to_list map_to_list (λ _, 0) [1; 2; 3]
    true true true (toy_files "media") toy_ctl toy_files_fit toy_process_ready)) as Hw.
  destruct (toy_limits toy_ctl) as [r c| |] eqn:E; [|discriminate Hc|discriminate Hc].
  exists r, c. split; [reflexivity|]. split; [exact (proj1 (Nat.eqb_eq _ _) Hc)|]. exact (proj1 (rp_tables _ _ _ _ _ _ _ _ _ _ _ (wp_Done _ _ _ _ _ _ Hw E))).
Defined.
Lemma limits_sent_witness :
  Forall (limit_sent zero_global [1; 2; 3] 0 0 []) (limit_rows zero_global).
Proof. exact (limits_sent zero_global [1; 2; 3] 0 0 [] zero_global_ok). Defined.
Definition toy_worker : worker := mk_worker Blocked [] toy_process [] 0.
Lemma listing_printed_witness :
  ∃ c, control_list (H:=toy_machine) 0 0 0 0 [Opened; Given list_header; FifoClosed; GotSignal SIGIO 0] toy_ctl = Done (Some 0) c ∧
    ct_out c = [list_header].
Proof.
  destruct (proj2 (listing_printed (H:=toy_glib) (H0:=total_system) (H1:=plenty) (H2:=toy_interfaces) SRVSVC (Lawful0:=toy_law) (H3:=toy_machine)
    toy_worker wide 7 42 9 [Written list_header] true true 100 0 (mk_supervisor (- ECHILD) None [] [] []) [Given list_header] toy_ctl
    (λ t, reflexivity (map_to_list t)) toy_process_ok eq_refl eq_refl ltac:(discriminate) ltac:(repeat constructor)
    ltac:(vm_compute; reflexivity) toy_locked eq_refl eq_refl ltac:(repeat constructor)))
    as (data & Hd & _ & Hp & _).
  assert (given [Given list_header] = data) as E.
  { vm_compute in Hd. injection Hd as <-. vm_compute. reflexivity. }
  destruct (Hp E) as (c & Ec & Ho & _). exists c. split; [exact Ec|]. rewrite Ho, <-E. vm_compute. reflexivity.
Defined.
