(* ===== verification/Ctl.v ===== *)
(** * The command line front end ([src/tools/ksmbdctl.c])

    [ksmbdctl]: the global options, the commands and their options, and what
    each command does with the parts modelled elsewhere: it loads the files,
    runs a command of an administration program, tells the daemon, and removes
    everything. *)

From S2P Require Import Prelude ConfText Refcount Users Shares Sessions Config ShareAdmin UserAdmin Logging Getopt Ndr Rpc Srvsvc Quic Ipc Channel Worker Loading Programs Daemon Manager Control.

(** ** Data *)

(** The program, and the files of the machine: an error of [open], or what
    they contain. *)
Record shell := mk_shell { sl_ctl : ctl; sl_disk : bytes → Z + bytes }.
Definition in_ctl {T : Type} : prog ctl T → prog shell T := zoom sl_ctl (λ c s, mk_shell c (sl_disk s)).
Definition store_file (path : bytes) (b : bytes) (s : shell) : shell :=
  mk_shell (sl_ctl s) (λ q, if decide (q = path) then inr b else sl_disk s q).
Definition file_text (f : Z + bytes) : bytes := match f with inr b => b | inl _ => [] end.
(** What an administration program leaves of the file it has read *)
Definition save_file (path : bytes) (b : bytes) (s : shell) : shell :=
  if decide (b = file_text (sl_disk s path)) then s else store_file path b s.
(** [opt_smbconf], [opt_pwddb], and the level of messages *)
Record global_options := mk_options { go_smbconf : option bytes; go_pwddb : option bytes; go_log : log_state }.

Definition char_C : Z := 67.
Definition char_P : Z := 80.
Definition char_V : Z := 86.
Definition char_h : Z := 104.
Definition char_v : Z := 118.
Definition char_p : Z := 112.
Definition char_o : Z := 111.
Definition global_opts : list opt := [
  mk_opt char_C (str "config") required_argument; mk_opt char_P (str "pwddb") required_argument;
  mk_opt char_v (str "verbose") no_argument; mk_opt char_V (str "version") no_argument; mk_opt char_h (str "help") no_argument].
Definition user_mod_opts : list opt := [mk_opt char_p (str "password") required_argument].
Definition share_mod_opts : list opt := [mk_opt char_o (str "option") required_argument].
(** The table of [mountd_main] and what its characters mean there *)
Definition mountd_opts : list opt := [
  mk_opt 70 (str "foreground") no_argument; mk_opt char_p (str "port") required_argument;
  mk_opt 110 (str "nodetach") optional_argument; mk_opt char_C (str "config") required_argument;
  mk_opt char_P (str "pwddb") required_argument; mk_opt 106 (str "json-log") no_argument;
  mk_opt char_v (str "verbose") no_argument; mk_opt char_V (str "version") no_argument; mk_opt char_h (str "help") no_argument].
Definition mountd_meaning (o : Z * option bytes) : option_ :=
  if o.1 =? 70 then Foreground
  else if o.1 =? char_p then Port (default [] o.2)
  else if o.1 =? 110 then Nodetach o.2
  else if o.1 =? char_C then ConfigFile (default [] o.2)
  else if o.1 =? char_P then Pwddb (default [] o.2)
  else if o.1 =? 106 then JsonLog
  else if o.1 =? char_v then Verbose
  else if o.1 =? char_V then Version
  else if o.1 =? char_h then Help
  else Unknown.
(** The arguments of all options with a character, and whether one is refused *)
Definition option_values (c : Z) (l : list (Z * option bytes)) : list bytes := omap (λ o, if o.1 =? c then o.2 else None) l.
Definition refused (l : list (Z * option bytes)) : bool := existsb (λ o, o.1 =? question) l.
Definition EXIT_SUCCESS : Z := 0.
Definition EXIT_FAILURE : Z := 1.

Section Ctl.
Context `{GLib, System, Allocator, Ptls, Libnl, Netlink, Machine}.
(** The parameters of loading and of the two administration programs *)
Variable group_order : gmap bytes smbconf_group → list (bytes * smbconf_group).
Variable session_order : gmap Z Z → list (Z * Z).
Variable set_conf_contents : bytes → Z.
Variable gen_subauth : list Z.
Variable host_named mechs_set_up pool_created : bool.
Variable g_list_sort : ∀ {T : Type}, (T → bytes) → list T → list T.
Variable g_list_insert_sorted : list bytes → bytes → list bytes.
Variable kv_keys : kvs → list bytes.
Variable write_ok : bool.
Variable prompt_options_stdin : list bytes → bool → Z + list bytes.
Variable g_convert : Z → Z → bytes → option bytes.
Variable g_base64_encode : bytes → bytes.
Variable g_utf8_find_prev_char : bytes → option nat.
Variable terminal stack : bytes.
Variable verase : Z.
Variable PATH_PWDDB PATH_SMBCONF : bytes.
Variable version : bytes.
Section Options.
Variable opts : global_options.

Definition get_pwddb : bytes := default PATH_PWDDB (go_pwddb opts).
Definition get_smbconf : bytes := default PATH_SMBCONF (go_smbconf opts).
Definition notify_mountd : prog ctl Z :=
  r <- parse_lock ;;
  if negb (r =? 0) then ret 0 else kill SIGHUP ;; ret 0.

(** ** Loading and removing *)

(** A file that is missing is created by the program that edits it. *)
Definition create_missing (path : bytes) (s : shell) : shell :=
  match sl_disk s path with
  | inl e => if (e =? ENOENT) && (set_conf_contents [] =? 0) then store_file path [] s else s
  | inr _ => s
  end.
(** Whether the user database was read, so that the configuration is read next *)
Definition reads_smbconf (tool : tool_main) (f : files) (p : process) : bool :=
  match world (w_users (cp_parse_pwddb tool set_conf_contents (fl_pwddb f))) p with
  | Done r _ => r =? 0
  | _ => false
  end.
Definition load_files (tool : tool_main) : prog shell Z :=
  s <- get ;;
  let f := mk_files (sl_disk s get_pwddb) (sl_disk s get_smbconf) (inr []) in
  r <- in_ctl (of_process (load_config group_order tool set_conf_contents gen_subauth host_named mechs_set_up pool_created f)) ;;
  (match tool with
   | ADDUSER => modify (create_missing get_pwddb)
   | ADDSHARE => if reads_smbconf tool f (ct_process (sl_ctl s)) then modify (create_missing get_smbconf) else ret tt
   | _ => ret tt
   end) ;;
  ret r.
Definition unload (tool : tool_main) : prog shell unit := in_ctl (of_process (remove_config session_order tool)).
(** The frame of the commands that edit a file *)
Definition edit (tool : tool_main) (m : prog shell Z) : prog shell Z :=
  r <- load_files tool ;;
  r <- (if r =? 0 then
          r <- m ;;
          (if r =? 0 then ignore (in_ctl notify_mountd) else ret tt) ;;
          ret r
        else ret r) ;;
  unload tool ;;
  ret (exit_status r).
(** ... and of those that print something *)
Definition view (tool : tool_main) (m : prog shell Z) : prog shell Z :=
  r <- load_files tool ;;
  r <- (if r =? 0 then m else ret r) ;;
  unload tool ;;
  ret (exit_status r).

(** ** Users *)
Definition sl_process (s : shell) : process := ct_process (sl_ctl s).
(** A command of the user program, on the tables and the database *)
Definition run_user (m : option bytes → prog uadmin unit) : prog shell Z := λ s,
  let p := sl_process s in
  let after (u : uadmin) := save_file get_pwddb (ua_file u)
    (mk_shell (set_ct_process (set_pc_world (set_ws_shares (ua_state u) (pc_world p)) p) (sl_ctl s)) (sl_disk s)) in
  match m (gc_str (pc_conf p) GUEST_ACCOUNT) (mk_uadmin (pc_shares p) (file_text (sl_disk s get_pwddb))) with
  | Done _ u => Done 0 (after u)
  | Err e u => Done e (after u)
  | Fault => Fault
  end.
Definition user_command_of (c : option user_command) (name : bytes) (password : option bytes) (guest_account : option bytes) : prog uadmin unit :=
  c <- choose_command c name ;;
  run_command g_convert g_base64_encode g_list_insert_sorted g_utf8_find_prev_char terminal verase stack guest_account write_ok
    c name password.
(** [cmd_user_add], [cmd_user_set] (without a command) and [cmd_user_update] *)
Definition cmd_user_edit (c : option user_command) (args : list bytes) : prog shell Z :=
  match args with
  | [] => ret EXIT_FAILURE
  | _ =>
      let '(l, rest) := getopt_long user_mod_opts args in
      if refused l then ret EXIT_FAILURE
      else match rest with
      | [] => ret EXIT_FAILURE
      | name :: _ =>
          if negb (usm_user_name g_utf8_validate name) then ret EXIT_FAILURE
          else edit ADDUSER (run_user (user_command_of c name (last (option_values char_p l))))
      end
  end.
Definition cmd_user_delete (args : list bytes) : prog shell Z :=
  match args with
  | [] => ret EXIT_FAILURE
  | name :: _ =>
      if negb (usm_user_name g_utf8_validate name) then ret EXIT_FAILURE
      else edit ADDUSER (run_user (user_command_of (Some DeleteUser) name None))
  end.
(** [__list_user_cb] under [usm_iter_users] *)
Definition print_line (b : bytes) : prog shell unit := in_ctl (printf b).
Definition __list_user_cb (x : bytes * Z) : prog shell unit :=
  u <- in_ctl (of_process (world (w_users (uload x.2)))) ;; print_line (u_name u).
Definition cmd_user_list : prog shell Z :=
  view ADDUSER
    (s <- get ;; for_each (hash_order (us_table (ss_users (pc_shares (sl_process s))))) __list_user_cb ;; ret 0).
Definition cmd_user (argv : list bytes) : prog shell Z :=
  match argv with
  | [] => ret EXIT_FAILURE
  | cmd :: args =>
      if bool_decide (cmd = str "add") then cmd_user_edit (Some AddUser) args
      else if bool_decide (cmd = str "set") then cmd_user_edit None args
      else if bool_decide (cmd = str "delete") then cmd_user_delete args
      else if bool_decide (cmd = str "update") then cmd_user_edit (Some UpdateUser) args
      else if bool_decide (cmd = str "list") then cmd_user_list
      else ret EXIT_FAILURE
  end.

(** ** Shares *)

(** A command of the share program, on the parser and the configuration *)
Definition run_share (m : prog admin unit) : prog shell Z := λ s,
  let p := sl_process s in
  let after (a : admin) := save_file get_smbconf (ad_file a)
    (mk_shell (set_ct_process (set_pc_parser (Some (ad_parser a)) p) (sl_ctl s)) (sl_disk s)) in
  match pc_parser p with
  | None => Fault
  | Some q =>
      match m (mk_admin q (file_text (sl_disk s get_smbconf))) with
      | Done _ a => Done 0 (after a)
      | Err e a => Done e (after a)
      | Fault => Fault
      end
  end.
Abbreviation add_share := (command_add_share (@g_list_sort) g_list_insert_sorted group_order kv_keys write_ok prompt_options_stdin).
Abbreviation update_share := (command_update_share (@g_list_sort) g_list_insert_sorted group_order kv_keys write_ok prompt_options_stdin).
Abbreviation delete_share := (command_delete_share (@g_list_sort) g_list_insert_sorted group_order kv_keys write_ok prompt_options_stdin).
Inductive share_command := AddShare | SetShare | UpdateShare | DeleteShare.
Definition share_command_of (c : share_command) (name : bytes) (options : list bytes) : prog admin unit :=
  match c with
  | AddShare => add_share name options
  | UpdateShare => update_share name options
  | DeleteShare => delete_share name
  | SetShare =>
      a <- get ;;
      match pr_groups (ad_parser a) !! shm_casefold_share_name name with
      | Some _ => update_share name options
      | None => add_share name options
      end
  end.
(** [cmd_share_add], [cmd_share_set] and [cmd_share_update] *)
Definition cmd_share_edit (c : share_command) (args : list bytes) : prog shell Z :=
  match args with
  | [] => ret EXIT_FAILURE
  | _ =>
      let '(l, rest) := getopt_long share_mod_opts args in
      if refused l then ret EXIT_FAILURE
      else match rest with
      | [] => ret EXIT_FAILURE
      | name :: _ =>
          if negb (shm_share_name name) then ret EXIT_FAILURE
          else edit ADDSHARE (run_share (share_command_of c name (option_values char_o l)))
      end
  end.
Definition cmd_share_delete (args : list bytes) : prog shell Z :=
  match args with
  | [] => ret EXIT_FAILURE
  | name :: _ =>
      if negb (shm_share_name name) then ret EXIT_FAILURE
      else edit ADDSHARE (run_share (share_command_of DeleteShare name []))
  end.
(** The groups of the file, as [g_hash_table_foreach] meets them *)
Definition groups_of (s : shell) : list (bytes * smbconf_group) :=
  match pc_parser (sl_process s) with Some q => group_order (pr_groups q) | None => [] end.
Definition find_group (name : bytes) (s : shell) : option smbconf_group :=
  pc_parser (sl_process s) ≫= λ q, pr_groups q !! shm_casefold_share_name name.
Definition __list_share_cb (g : smbconf_group) : prog shell unit :=
  if bool_decide (g_name g = str "global") || bool_decide (g_name g = str "IPC$") then ret tt else print_line (g_name g).
Definition __show_share_kv_cb (kv : kvs) (k : bytes) : prog shell unit :=
  print_line (str "  " ++ k ++ str " = " ++ default [] (kv_lookup g_ascii_strdown kv k)).
Definition show_group (g : smbconf_group) : prog shell unit :=
  print_line (str "[" ++ g_name g ++ str "]") ;; for_each (kv_keys (g_kv g)) (__show_share_kv_cb (g_kv g)).
(** [live]: what the FIFO and the signals do, when the daemon is asked. *)
Definition cmd_share_list (live : list list_event) (args : list bytes) : prog shell (option Z) :=
  match args with
  | a :: _ =>
      if bool_decide (a = str "--live") || bool_decide (a = str "-l")
      then r <- in_ctl (control_list 0 0 0 0 live) ;; ret (exit_status <$> r)
      else r <- view ADDSHARE (s <- get ;; for_each (groups_of s) (λ x, __list_share_cb x.2) ;; ret 0) ;; ret (Some r)
  | [] => r <- view ADDSHARE (s <- get ;; for_each (groups_of s) (λ x, __list_share_cb x.2) ;; ret 0) ;; ret (Some r)
  end.
(** [cmd_share_show], and [cmd_config_show] for a section *)
Definition show_section (name : bytes) : prog shell Z :=
  view ADDSHARE
    (s <- get ;;
     match find_group name s with
     | None => ret (- ENOENT)
     | Some g => show_group g ;; ret 0
     end).
Definition cmd_share_show (args : list bytes) : prog shell Z :=
  match args with [] => ret EXIT_FAILURE | name :: _ => show_section name end.
Definition cmd_share (live : list list_event) (argv : list bytes) : prog shell (option Z) :=
  let some (m : prog shell Z) : prog shell (option Z) := r <- m ;; ret (Some r) in
  match argv with
  | [] => some (ret EXIT_FAILURE)
  | cmd :: args =>
      if bool_decide (cmd = str "add") then some (cmd_share_edit AddShare args)
      else if bool_decide (cmd = str "set") then some (cmd_share_edit SetShare args)
      else if bool_decide (cmd = str "delete") then some (cmd_share_delete args)
      else if bool_decide (cmd = str "update") then some (cmd_share_edit UpdateShare args)
      else if bool_decide (cmd = str "list") then cmd_share_list live args
      else if bool_decide (cmd = str "show") then some (cmd_share_show args)
      else some (ret EXIT_FAILURE)
  end.

(** ** Debugging and configuration *)
Definition cmd_debug (argv : list bytes) : prog shell Z :=
  let debug (comp : bytes) := r <- in_ctl (control_debug comp) ;; ret (exit_status r) in
  match argv with
  | [] => ret EXIT_FAILURE
  | cmd :: args =>
      if bool_decide (cmd = str "set") then match args with [] => ret EXIT_FAILURE | comp :: _ => debug comp end
      else if bool_decide (cmd = str "show") then debug []
      else if bool_decide (cmd = str "off") then debug (str "all")
      else ret EXIT_FAILURE
  end.
Definition __show_config_group_cb (g : smbconf_group) : prog shell unit := show_group g ;; print_line [].
Definition cmd_config_show (args : list bytes) : prog shell Z :=
  match args with
  | name :: _ => show_section name
  | [] => view ADDSHARE (s <- get ;; for_each (groups_of s) (λ x, __show_config_group_cb x.2) ;; ret 0)
  end.
Definition cmd_config_validate : prog shell Z :=
  view ADDSHARE
    (print_line (str "Configuration is valid.") ;; print_line (str "  Config: " ++ get_smbconf) ;;
     print_line (str "  Users:  " ++ get_pwddb) ;; ret 0).
Definition cmd_config (argv : list bytes) : prog shell Z :=
  match argv with
  | [] => ret EXIT_FAILURE
  | cmd :: args =>
      if bool_decide (cmd = str "show") then cmd_config_show args
      else if bool_decide (cmd = str "validate") then cmd_config_validate
      else ret EXIT_FAILURE
  end.

(** ** The other commands *)
Definition cmd_stop : prog shell Z := r <- in_ctl control_shutdown ;; ret (exit_status r).
Definition cmd_reload : prog shell Z := r <- in_ctl control_reload ;; ret (exit_status r).
Definition cmd_status : prog shell Z := r <- in_ctl control_status ;; ret (exit_status r).
Definition cmd_report (lines : smbconf_global → list bytes) : prog shell Z :=
  s <- get ;;
  r <- in_ctl (control_report group_order session_order set_conf_contents gen_subauth host_named mechs_set_up pool_created lines
                 (mk_files (sl_disk s get_pwddb) (sl_disk s get_smbconf) (inr []))) ;;
  ret (exit_status r).
Definition cmd_features : prog shell Z := cmd_report feature_lines.
Definition cmd_limits : prog shell Z := cmd_report limit_lines.
Definition show_version : prog shell unit := print_line (str "ksmbd-tools version : " ++ version).
Definition cmd_version : prog shell Z := show_version ;; in_ctl control_show_version ;; ret EXIT_SUCCESS.
(** [optind] is where the global options ended, and [mountd_main] goes on from
    there in its own vector. *)
Definition cmd_start (optind : nat) (st : start) (args : list bytes) : option settings * option Z :=
  let '(l, rest) := getopt_long mountd_opts (drop optind args) in
  mountd_main PATH_SMBCONF PATH_PWDDB (mountd_meaning <$> l) (negb (bool_decide (rest = [])))
    (mk_settings 0 0 (go_smbconf opts) (go_pwddb opts) (go_log opts)) st.
End Options.

(** ** The program *)

(** The loop over the global options: where it goes on, or whether the version
    is asked for when it does not. *)
Fixpoint global_loop (l : list (Z * option bytes)) (o : global_options) : global_options + bool :=
  match l with
  | [] => inl o
  | (c, v) :: l =>
      if c =? char_C then global_loop l (mk_options v (go_pwddb o) (go_log o))
      else if c =? char_P then global_loop l (mk_options (go_smbconf o) v (go_log o))
      else if c =? char_v then global_loop l (mk_options (go_smbconf o) (go_pwddb o) (set_log_level PR_DEBUG (go_log o)).2)
      else if c =? char_V then inr true
      else if c =? char_h then inr false
      else global_loop l o
  end.
Definition ksmbdctl_main (log : log_state) (st : start) (live : list list_event) (args : list bytes) : prog shell (option Z) :=
  let some (m : prog shell Z) : prog shell (option Z) := r <- m ;; ret (Some r) in
  let '(l, rest) := getopt_long global_opts args in
  match global_loop l (mk_options None None log) with
  | inr version => (if version : bool then show_version else ret tt) ;; ret (Some EXIT_SUCCESS)
  | inl o =>
      match rest with
      | [] => ret (Some EXIT_FAILURE)
      | cmd :: args' =>
          let optind := S (length args - length rest) in
          if bool_decide (cmd = str "start") then ret (cmd_start o optind st args').2
          else if bool_decide (cmd = str "stop") then some cmd_stop
          else if bool_decide (cmd = str "reload") then some cmd_reload
          else if bool_decide (cmd = str "status") then some cmd_status
          else if bool_decide (cmd = str "features") then some (cmd_features o)
          else if bool_decide (cmd = str "limits") then some (cmd_limits o)
          else if bool_decide (cmd = str "version") then some cmd_version
          else if bool_decide (cmd = str "user") then some (cmd_user o args')
          else if bool_decide (cmd = str "share") then cmd_share o live args'
          else if bool_decide (cmd = str "debug") then some (cmd_debug args')
          else if bool_decide (cmd = str "config") then some (cmd_config o args')
          else if bool_decide (cmd = str "--help") || bool_decide (cmd = str "-h") then ret (Some EXIT_SUCCESS)
          else ret (Some EXIT_FAILURE)
      end
  end.

(** ** [main] ([src/tools/main.c]) *)

(** Behind the last slash *)
Fixpoint base_name (path : bytes) : bytes :=
  match path with
  | [] => []
  | c :: p => if existsb (λ d, d =? 47) p then base_name p else if c =? 47 then p else path
  end.
Definition set_tool_main (name : bytes) : Z := if bool_decide (name = str "ksmbdctl") then 0 else - EINVAL.
(** [tool_main]: one of the four, [ksmbdctl_main] itself, or nothing yet *)
Definition get_tool_name (tool : option (option tool_main)) (getppid getpid pid : Z) : bytes :=
  match tool with
  | Some (Some ADDSHARE) => str "ksmbdctl(share)"
  | Some (Some ADDUSER) => str "ksmbdctl(user)"
  | Some (Some CONTROL) => str "ksmbdctl(control)"
  | Some (Some MOUNTD) =>
      if getppid =? pid then str "ksmbdctl(start/worker)"
      else if getpid =? pid then str "ksmbdctl(start/manager)"
      else str "ksmbdctl(start)"
  | Some None => str "ksmbdctl"
  | None => str "ksmbd.tools"
  end.
Definition main (log : log_state) (st : start) (live : list list_event) (argv : list bytes) : prog shell (option Z) :=
  match argv with
  | [] => ret (Some EXIT_FAILURE)
  | a :: args => if set_tool_main (base_name a) =? 0 then ksmbdctl_main log st live args else ret (Some EXIT_FAILURE)
  end.
End Ctl.

(** ** Editing the configuration *)
Section Editing.
Context `{GLib, System, Allocator, Ptls, Libnl, Netlink, Machine}.
Hypothesis hash_order_perm : ∀ t, hash_order t ≡ₚ map_to_list t.
Hypothesis base64_decode_total : ∀ b, ∃ p, base64_decode b = Some p ∧ Z.of_nat (length p) ≤ INT_MAX.
Hypothesis strdown_lower : ∀ s, forallb (λ c, negb ((65 <=? c) && (c <=? 90))) s = true → g_ascii_strdown s = s.
Hypothesis utf8_ascii : ∀ s, forallb (λ c, c <? 128) s = true → g_utf8_validate s = true.
Hypothesis keys_differ : gkey ≠ ikey.
Variable group_order : gmap bytes smbconf_group → list (bytes * smbconf_group).
Variable session_order : gmap Z Z → list (Z * Z).
Variable set_conf_contents : bytes → Z.
Variable gen_subauth : list Z.
Variable host_named mechs_set_up pool_created : bool.
Variable PATH_PWDDB PATH_SMBCONF : bytes.
Variable opts : global_options.
Abbreviation pwddb := (get_pwddb PATH_PWDDB opts).
Abbreviation smbconf := (get_smbconf PATH_SMBCONF opts).
Definition files_of (s : shell) : files := mk_files (sl_disk s pwddb) (sl_disk s smbconf) (inr []).
Abbreviation load_tool tool := (load_config group_order tool set_conf_contents gen_subauth host_named mechs_set_up pool_created).
Abbreviation load tool :=
  (load_files group_order set_conf_contents gen_subauth host_named mechs_set_up pool_created PATH_PWDDB PATH_SMBCONF opts tool).

(** A daemon that lives is told, any other is not. *)
Lemma notify_mountd_eq pid c :
  locked_by pid → notify_mountd c = Done 0 (if daemon_lives pid then signalled pid SIGHUP c else c).
Proof.
  intros Hl. unfold notify_mountd, bind at 1. rewrite (parse_lock_eq pid) by done. destruct (daemon_lives pid); [|done].
  cbn [negb Z.eqb]. unfold bind. by rewrite kill_eq.
Qed.
(** A file that is missing may have been created, empty; the others are as
    they were. *)
Definition kept_or_created (path : bytes) (s s' : shell) : Prop :=
  (∀ q, q ≠ path → sl_disk s' q = sl_disk s q) ∧
  (sl_disk s' path = sl_disk s path ∨ sl_disk s path = inl ENOENT ∧ sl_disk s' path = inr []).
(** Loading for the share program *)
Record loaded (s : shell) (r : Z) (s' : shell) : Prop := {
  ld_eq : ∃ p, load_tool ADDSHARE (files_of s) (sl_process s) = Done r p ∧ sl_ctl s' = set_ct_process p (sl_ctl s);
  ld_ready : ready (sl_process s');
  ld_parser : r = 0 → is_Some (pc_parser (sl_process s'));
  ld_disk : kept_or_created smbconf s s';
  ld_there : r = 0 → sl_disk s smbconf ≠ inl 0 → sl_disk s' smbconf = inr (file_text (sl_disk s smbconf));
}.
Lemma create_missing_kept path s : kept_or_created path s (create_missing set_conf_contents path s).
Proof.
  unfold kept_or_created, create_missing. destruct (sl_disk s path) as [e|b] eqn:E; [|by rewrite E; auto].
  destruct (Z.eqb_spec e ENOENT) as [->|]; cbn [andb]; [|by rewrite E; auto]. destruct (_ =? _); [|by rewrite E; auto].
  cbn. split; [intros q Hq; by destruct (decide (q = path))|]. right. by rewrite decide_True.
Qed.
Lemma create_missing_ctl path s : sl_ctl (create_missing set_conf_contents path s) = sl_ctl s.
Proof. unfold create_missing. by repeat case_match. Qed.
(** A load that succeeds has found the configuration, or created it. *)
Lemma load_present f p p' :
  load_tool ADDSHARE f p = Done 0 p' → fl_smbconf f ≠ inl 0 →
  reads_smbconf set_conf_contents ADDSHARE f p = true ∧
  match fl_smbconf f with inl e => e = ENOENT ∧ set_conf_contents [] = 0 | inr _ => True end.
Proof.
  unfold load_config, reads_smbconf, bind, ret, modify.
  destruct (world (w_users (cp_parse_pwddb ADDSHARE set_conf_contents (fl_pwddb f))) p) as [r1 p1|e1 p1|]; [|done..].
  destruct (Z.eqb_spec r1 0) as [->|Hr1]; cbn [negb]; [|by intros [= -> _]]. intros E Hne. split; [done|].
  destruct (fl_smbconf f) as [e|b] eqn:Ef; [|done]. revert E. unfold parse_smbconf. rewrite Ef. cbn [pc_parser set_pc_parser].
  unfold cp_parse_smbconf, __mmap_parse_file, fail, smbconf_missing.
  destruct (Z.eqb_spec (- e) (- ENOENT)) as [He|He].
  - destruct (Z.eqb_spec (set_conf_contents []) 0) as [Hs|Hs]; [intros _; split; [lia|done]|].
    rewrite (proj2 (Z.eqb_neq _ _) Hs). cbv beta iota zeta delta [negb]. intros E. injection E as E' _. by rewrite E' in Hs.
  - assert (- e ≠ 0) as Hz by (intros Hz; apply Hne; f_equal; lia).
    rewrite (proj2 (Z.eqb_neq _ _) Hz). cbv beta iota zeta. rewrite (proj2 (Z.eqb_neq _ _) Hz). cbv beta iota zeta delta [negb].
    intros E. injection E as E' _. by rewrite E' in Hz.
Qed.
Lemma load_files_wp s :
  files_fit (files_of s) → ready (sl_process s) → wp (load ADDSHARE) s (loaded s) (λ _ _, False).
Proof.
  intros Hf Hp. unfold Ctl.load_files. do 2 wp_step. wp_step. unfold in_ctl, of_process. apply wp_zoom, wp_zoom.
  pose proof (tool_load_wp hash_order_perm base64_decode_total strdown_lower utf8_ascii keys_differ group_order ADDSHARE ltac:(done)
    set_conf_contents gen_subauth host_named mechs_set_up pool_created (files_of s) (sl_process s) Hf Hp) as Hw.
  unfold wp in Hw |- *. fold (files_of s) (sl_process s).
  destruct (load_tool ADDSHARE (files_of s) (sl_process s)) as [r p|e p|] eqn:El; [|done..]. destruct Hw as [Hr Hq].
  set (s1 := mk_shell (set_ct_process p (sl_ctl s)) (sl_disk s)).
  assert (∀ s2, sl_ctl s2 = sl_ctl s1 → kept_or_created smbconf s s2 →
    (r = 0 → sl_disk s smbconf ≠ inl 0 → sl_disk s2 smbconf = inr (file_text (sl_disk s smbconf))) → loaded s r s2) as Hend.
  { intros s2 E Ed Eth. split; [exists p; by rewrite E|..|done|done]; unfold sl_process; rewrite E; [exact Hr|by apply Hq]. }
  fold s1. unfold bind, modify, ret. destruct (reads_smbconf _ _ _ _) eqn:Hre; cbv beta iota zeta.
  - apply Hend; [apply create_missing_ctl|apply (create_missing_kept smbconf s1)|]. intros -> Hne.
    destruct (load_present _ _ _ El Hne) as [_ Hth]. cbn [files_of fl_smbconf] in Hth. unfold create_missing, s1. cbn [sl_disk].
    destruct (sl_disk s smbconf) as [e|b] eqn:Ed; [|by rewrite ?Ed]. destruct Hth as [-> ->]. cbn. by rewrite decide_True.
  - apply Hend; [done|split; [done|by left]|]. intros -> Hne. destruct (load_present _ _ _ El Hne) as [Hth _]. congruence.
Qed.

(** *** A command on a share *)
Variable g_list_sort : ∀ {T : Type}, (T → bytes) → list T → list T.
Variable g_list_insert_sorted : list bytes → bytes → list bytes.
Variable kv_keys : kvs → list bytes.
Variable write_ok : bool.
Variable prompt_options_stdin : list bytes → bool → Z + list bytes.
Hypothesis sort_perm : ∀ (T : Type) (f : T → bytes) (l : list T), g_list_sort f l ≡ₚ l.
Hypothesis insert_sorted_perm : ∀ l x, g_list_insert_sorted l x ≡ₚ x :: l.
Hypothesis group_order_perm : ∀ t, group_order t ≡ₚ map_to_list t.
Hypothesis kv_keys_perm : ∀ kv, kv_keys kv ≡ₚ (λ x, x.2.1) <$> map_to_list kv.
Hypothesis strdown_cons : ∀ c s, g_ascii_strdown (c :: s) = ascii_lower c :: g_ascii_strdown s.
Hypothesis strstrip_solid : ∀ c s, c ≠ 32 → ¬ 9 ≤ c ≤ 13 → ∃ t, g_strstrip (c :: s) = c :: t.
Hypothesis prompt_fails : ∀ o b e, prompt_options_stdin o b = inl e → e ≠ 0.
Abbreviation command c name options :=
  (share_command_of group_order (@g_list_sort) g_list_insert_sorted kv_keys write_ok prompt_options_stdin c name options).

Lemma conf_lowercase c : g_ascii_strdown (KSMBD_SHARE_CONF c) = KSMBD_SHARE_CONF c.
Proof. apply strdown_lower. by destruct c. Qed.
(** What a command promises, by its kind *)
Definition share_outcome (c : share_command) (there there' : Prop) (key : bytes) : Prop :=
  match c with
  | AddShare => ¬ there ∧ there'
  | UpdateShare => there ∧ there'
  | SetShare => there'
  | DeleteShare => there ∧ (key ≠ gkey → ¬ there')
  end.
Lemma share_command_wp c name options a :
  shm_share_name name = true → parser_ok (ad_parser a) →
  (∀ k g, pr_groups (ad_parser a) !! k = Some g → plain_kv (g_kv g)) →
  let key := shm_casefold_share_name name in
  (c = DeleteShare → key ≠ ikey) →
  wp (command c name options) a
    (λ _ a', edited key a a' ∧
       share_outcome c (is_Some (pr_groups (ad_parser a) !! key)) (is_Some (pr_groups (ad_parser a') !! key)) key)
    (λ _ a', ad_file a' = ad_file a).
Proof.
  intros Hn Hp Hpl key Hi.
  destruct (share_commands_wp (@g_list_sort) g_list_insert_sorted group_order kv_keys sort_perm insert_sorted_perm group_order_perm
    kv_keys_perm conf_lowercase keys_differ strdown_cons strstrip_solid write_ok prompt_options_stdin name options a Hn Hp Hpl)
    as (Ha & Hu & Hd & _).
  assert (wp (command AddShare name options) a
    (λ _ a', edited key a a' ∧ is_Some (pr_groups (ad_parser a') !! key) ∧ ¬ is_Some (pr_groups (ad_parser a) !! key))
    (λ _ a', ad_file a' = ad_file a)) as Ha'.
  { eapply wp_mono; [exact Ha|by intros u a' (? & ? & ?)|by intros e a' []]. }
  assert (wp (command UpdateShare name options) a
    (λ _ a', edited key a a' ∧ is_Some (pr_groups (ad_parser a') !! key) ∧ is_Some (pr_groups (ad_parser a) !! key))
    (λ _ a', ad_file a' = ad_file a)) as Hu'.
  { eapply wp_mono; [exact Hu|by intros u a' (? & ? & ?)|by intros e a' []]. }
  destruct c; cbn [share_command_of share_outcome].
  - eapply wp_mono; [exact Ha'|by intros u a' (? & ? & ?)|done].
  - do 2 wp_step. destruct (pr_groups (ad_parser a) !! _); (eapply wp_mono; [(exact Hu' || exact Ha')|by intros u a' (? & ? & ?)|done]).
  - eapply wp_mono; [exact Hu'|by intros u a' (? & ? & ?)|done].
  - eapply wp_mono; [by apply Hd, Hi| |by intros e a' []]. intros u a' (Hth & He & Hg). split_and!; [done|done|].
    intros Hk. rewrite (Hg Hk : pr_groups (ad_parser a') !! key = None). by intros [].
Qed.
(** The errors of the commands are no successes. *)
Lemma edit_and_write_error f a e a' :
  edit_and_write (@g_list_sort) g_list_insert_sorted group_order kv_keys write_ok f a = Err e a' → e ≠ 0.
Proof.
  unfold edit_and_write, ShareAdmin.get_conf_contents, new_share_nl, group_first, ShareAdmin.set_conf_contents, bind, modify, get, ret, fail, fault.
  intros E. repeat (case_match; simplify_eq); done.
Qed.
Lemma update_error name options a e a' : command UpdateShare name options a = Err e a' → e ≠ 0.
Proof.
  cbn [share_command_of]. unfold command_update_share, process_options, bind at 1, get at 1, fail at 1.
  destruct (_ !! _) as [g|]; [|by intros [= <- _]]. intros E. unfold bind at 1 in E. destruct options as [|o options].
  - destruct (prompt_options_stdin _ _) eqn:Ep; [|by apply edit_and_write_error in E]. injection E as -> _. by eapply prompt_fails.
  - by apply edit_and_write_error in E.
Qed.
Lemma add_error name options a e a' : command AddShare name options a = Err e a' → e ≠ 0.
Proof.
  cbn [share_command_of]. unfold command_add_share, process_options, bind at 1, get at 1, fail at 1.
  destruct (_ !! _) as [g|]; [by intros [= <- _]|]. intros E. unfold bind at 1 in E. destruct options as [|o options].
  - destruct (prompt_options_stdin _ _) eqn:Ep; [|by apply edit_and_write_error in E]. injection E as -> _. by eapply prompt_fails.
  - by apply edit_and_write_error in E.
Qed.
Lemma share_command_error c name options a e a' : command c name options a = Err e a' → e ≠ 0.
Proof.
  destruct c; [apply add_error| |apply update_error|].
  - cbn [share_command_of]. unfold bind at 1, get at 1. destruct (_ !! _); [apply update_error|apply add_error].
  - cbn [share_command_of]. unfold command_delete_share, bind at 1, get at 1. destruct (_ !! _) as [g|]; [|by intros [= <- _]].
    destruct (decide _); [apply (update_error name (__get_options None true))|apply edit_and_write_error].
Qed.

(** *** Running a command *)
Abbreviation edit_share c name options :=
  (edit group_order session_order set_conf_contents gen_subauth host_named mechs_set_up pool_created PATH_PWDDB PATH_SMBCONF opts
     ADDSHARE (run_share PATH_SMBCONF opts (command c name options))).
Definition notified (pid : Z) (c : ctl) : list (Z * Z) :=
  if daemon_lives pid && (sys_kill pid SIGHUP =? 0) then ct_sent c ++ [(pid, SIGHUP)] else ct_sent c.
(** The named group was changed, and written. *)
Definition commanded (c : share_command) (name : bytes) (s : shell) (q : smbconf_parser) (s' : shell) : Prop :=
  let key := shm_casefold_share_name name in
  ∃ a, edited key (mk_admin q (file_text (sl_disk s smbconf))) a ∧ sl_disk s' smbconf = inr (ad_file a) ∧
    share_outcome c (is_Some (pr_groups q !! key)) (is_Some (pr_groups (ad_parser a) !! key)) key.
(** The command changed the file, and the daemon knows; or nothing happened. *)
Record share_edited (c : share_command) (name : bytes) (pid : Z) (s : shell) (r : Z) (s' : shell) : Prop := {
  sd_tables : ss_table (pc_shares (sl_process s')) = ∅ ∧ us_table (ss_users (pc_shares (sl_process s'))) = ∅ ∧ pc_parser (sl_process s') = None;
  sd_others : ∀ q, q ≠ smbconf → sl_disk s' q = sl_disk s q;
  sd_result :
    (r = EXIT_FAILURE ∧ kept_or_created smbconf s s' ∧ ct_sent (sl_ctl s') = ct_sent (sl_ctl s)) ∨
    (r = EXIT_SUCCESS ∧ ct_sent (sl_ctl s') = notified pid (sl_ctl s) ∧
     ∃ p q, load_tool ADDSHARE (files_of s) (sl_process s) = Done 0 p ∧ pc_parser p = Some q ∧ commanded c name s q s');
}.
Lemma save_file_other path b s q : q ≠ path → sl_disk (save_file path b s) q = sl_disk s q.
Proof. intros Hq. unfold save_file. destruct (decide (b = _)); [done|]. cbn. by destruct (decide (q = path)). Qed.
Lemma save_file_there path b b0 s : sl_disk s path = inr b0 → sl_disk (save_file path b s) path = inr b.
Proof.
  intros E. unfold save_file. destruct (decide (b = _)) as [->|]; [by rewrite E|]. cbn. by rewrite decide_True.
Qed.
Lemma save_file_same path s : save_file path (file_text (sl_disk s path)) s = s.
Proof. unfold save_file. by rewrite decide_True. Qed.
Lemma save_file_ctl path b s : sl_ctl (save_file path b s) = sl_ctl s.
Proof. unfold save_file. by destruct (decide _). Qed.
Lemma unload_wp s :
  shares_ok (λ _, 0) (λ _, 0) (pc_shares (sl_process s)) →
  wp (unload session_order ADDSHARE) s
    (λ _ s', ss_table (pc_shares (sl_process s')) = ∅ ∧ us_table (ss_users (pc_shares (sl_process s'))) = ∅ ∧
             pc_parser (sl_process s') = None ∧ sl_disk s' = sl_disk s ∧ ct_sent (sl_ctl s') = ct_sent (sl_ctl s) ∧
             ct_out (sl_ctl s') = ct_out (sl_ctl s)) (λ _ _, False).
Proof.
  intros Hs. unfold unload, in_ctl, of_process. apply wp_zoom, wp_zoom.
  eapply wp_mono; [by apply (tool_remove_wp hash_order_perm session_order ADDSHARE)| |done]. by intros u p (? & ? & ?).
Qed.
Lemma run_share_wp c name options s q :
  shm_share_name name = true → pc_parser (sl_process s) = Some q → parser_ok q →
  (∀ k g, pr_groups q !! k = Some g → plain_kv (g_kv g)) → (c = DeleteShare → shm_casefold_share_name name ≠ ikey) →
  (∃ b, sl_disk s smbconf = inr b) →
  wp (run_share PATH_SMBCONF opts (command c name options)) s
    (λ r s', pc_shares (sl_process s') = pc_shares (sl_process s) ∧ ct_sent (sl_ctl s') = ct_sent (sl_ctl s) ∧
       (∀ f, f ≠ smbconf → sl_disk s' f = sl_disk s f) ∧
       if r =? 0 then commanded c name s q s' else sl_disk s' smbconf = sl_disk s smbconf)
    (λ _ _, False).
Proof.
  intros Hn Hq Hp Hpl Hi [b0 Hb0]. unfold wp, run_share. rewrite Hq. set (a0 := mk_admin q _).
  pose proof (share_command_wp c name options a0 Hn Hp Hpl Hi) as Hw. unfold wp in Hw.
  destruct (command c name options a0) as [u a|e a|] eqn:E; [|apply share_command_error in E|done];
    (split; [unfold sl_process; by rewrite save_file_ctl|]); (split; [by rewrite save_file_ctl|]);
    (split; [intros f Hf; by rewrite save_file_other|]).
  - change (0 =? 0) with true. cbv iota. exists a. rewrite (save_file_there _ _ b0) by done. by destruct Hw.
  - destruct (Z.eqb_spec e 0); [done|]. rewrite Hw, (save_file_there _ _ b0), Hb0 by done. unfold a0. cbn. by rewrite Hb0.
Qed.
Lemma notify_wp pid r s :
  locked_by pid →
  wp (if r =? 0 then ignore (in_ctl notify_mountd) else ret tt) s
    (λ _ s', sl_process s' = sl_process s ∧ sl_disk s' = sl_disk s ∧
             ct_sent (sl_ctl s') = if r =? 0 then notified pid (sl_ctl s) else ct_sent (sl_ctl s)) (λ _ _, False).
Proof.
  intros Hl. destruct (r =? 0); [|by wp_step]. apply wp_ignore. unfold in_ctl. apply wp_zoom. unfold wp.
  rewrite (notify_mountd_eq pid) by done. unfold sl_process, notified, signalled.
  destruct (daemon_lives pid); [|done]. cbn [andb]. by destruct (_ =? 0).
Qed.


(** *** Printing *)
Abbreviation view_with := (view group_order session_order set_conf_contents gen_subauth host_named mechs_set_up pool_created PATH_PWDDB PATH_SMBCONF opts ADDSHARE).
Definition printed (l : list bytes) (s s' : shell) : Prop :=
  sl_process s' = sl_process s ∧ sl_disk s' = sl_disk s ∧ ct_sent (sl_ctl s') = ct_sent (sl_ctl s) ∧ ct_out (sl_ctl s') = ct_out (sl_ctl s) ++ l.
Lemma print_line_wp b s : wp (print_line b) s (λ _ s', printed [b] s s') (λ _ _, False).
Proof. unfold print_line, in_ctl. apply wp_zoom. unfold printf. by wp_step. Qed.
Lemma printed_app l k s s1 s2 : printed l s s1 → printed k s1 s2 → printed (l ++ k) s s2.
Proof. intros (? & ? & ? & Ho) (? & ? & ? & Ho'). unfold printed. rewrite Ho', Ho, app_assoc. split_and!; congruence. Qed.
Lemma printed_nil s : printed [] s s.
Proof. unfold printed. rewrite app_nil_r. by split_and!. Qed.
Lemma print_each_wp {T : Type} (f : T → prog shell unit) (lines : T → list bytes) l s :
  (∀ x s, wp (f x) s (λ _ s', printed (lines x) s s') (λ _ _, False)) →
  wp (for_each l f) s (λ _ s', printed (concat (lines <$> l)) s s') (λ _ _, False).
Proof.
  intros Hf. revert s. induction l as [|x l IH]; intros s; cbn [for_each]; [wp_step; apply printed_nil|].
  wp_step. eapply wp_mono; [apply Hf| |done]. intros u s1 H1'. eapply wp_mono; [apply IH| |done]. intros v s2 H2'.
  exact (printed_app _ _ _ _ _ H1' H2').
Qed.
(** The text of a group, without the comments of the file *)
Definition group_lines (g : smbconf_group) : list bytes :=
  (str "[" ++ g_name g ++ str "]") ::
  ((λ k, str "  " ++ k ++ str " = " ++ default [] (kv_lookup g_ascii_strdown (g_kv g) k)) <$> kv_keys (g_kv g)).
Definition listed (g : smbconf_group) : bool := negb (bool_decide (g_name g = str "global") || bool_decide (g_name g = str "IPC$")).
Lemma list_share_wp g s :
  wp (__list_share_cb g) s (λ _ s', printed (if listed g then [g_name g] else []) s s') (λ _ _, False).
Proof. unfold __list_share_cb, listed. destruct (_ || _); [wp_step; apply printed_nil|apply print_line_wp]. Qed.
Lemma show_group_wp g s : wp (show_group kv_keys g) s (λ _ s', printed (group_lines g) s s') (λ _ _, False).
Proof.
  unfold show_group. wp_step. eapply wp_mono; [apply print_line_wp| |done]. intros u s1 H1'.
  eapply wp_mono; [apply (print_each_wp _ (λ k, [str "  " ++ k ++ str " = " ++ default [] (kv_lookup g_ascii_strdown (g_kv g) k)]))| |done].
  { intros k s2. apply print_line_wp. }
  intros v s2 H2'. unfold group_lines. change (?a :: ?b) with ([a] ++ b). eapply printed_app; [exact H1'|].
  assert (∀ (h : bytes → bytes) l, concat ((λ k, [h k]) <$> l) = h <$> l) as Hc by (intros h l; induction l; cbn; congruence).
  by rewrite Hc in H2'.
Qed.
(** What a command that prints does *)
Record viewed (lines : smbconf_parser → list bytes) (result : smbconf_parser → Z) (s : shell) (r : Z) (s' : shell) : Prop := {
  vw_tables : ss_table (pc_shares (sl_process s')) = ∅ ∧ us_table (ss_users (pc_shares (sl_process s'))) = ∅ ∧ pc_parser (sl_process s') = None;
  vw_files : kept_or_created smbconf s s';
  vw_sent : ct_sent (sl_ctl s') = ct_sent (sl_ctl s);
  vw_printed : ∃ l p, load_tool ADDSHARE (files_of s) (sl_process s) = Done l p ∧
    match pc_parser p with
    | Some q => if l =? 0 then ct_out (sl_ctl s') = ct_out (sl_ctl s) ++ lines q ∧ r = result q
                else ct_out (sl_ctl s') = ct_out (sl_ctl s) ∧ r = EXIT_FAILURE
    | None => ct_out (sl_ctl s') = ct_out (sl_ctl s) ∧ r = EXIT_FAILURE
    end;
}.
Lemma view_wp m lines result s :
  files_fit (files_of s) → ready (sl_process s) →
  (∀ s1 q, pc_parser (sl_process s1) = Some q → wp m s1 (λ r s2, printed (lines q) s1 s2 ∧ exit_status r = result q) (λ _ _, False)) →
  wp (view_with m) s (viewed lines result s) (λ _ _, False).
Proof.
  intros Hf Hr Hm. unfold view. wp_step. eapply wp_mono; [by apply load_files_wp| |done].
  intros r s1 [(p & El & Ec) Hr1 Hq1 Hd1 _]. wp_step.
  assert (ct_out (sl_ctl s1) = ct_out (sl_ctl s) ∧ ct_sent (sl_ctl s1) = ct_sent (sl_ctl s) ∧ sl_process s1 = p) as (Eo & Es & Ep)
    by (unfold sl_process; by rewrite Ec).
  assert (∀ s2 r' out, sl_process s2 = sl_process s1 → sl_disk s2 = sl_disk s1 → ct_sent (sl_ctl s2) = ct_sent (sl_ctl s1) →
    ct_out (sl_ctl s2) = out →
    match pc_parser p with
    | Some q => if r =? 0 then out = ct_out (sl_ctl s) ++ lines q ∧ exit_status r' = result q
                else out = ct_out (sl_ctl s) ∧ exit_status r' = EXIT_FAILURE
    | None => out = ct_out (sl_ctl s) ∧ exit_status r' = EXIT_FAILURE
    end →
    wp (unload session_order ADDSHARE ;; ret (exit_status r')) s2 (viewed lines result s) (λ _ _, False)) as Hend.
  { intros s2 r' out E1 E2 E3 E4 Hres. wp_step. eapply wp_mono; [apply unload_wp; rewrite E1; apply Hr1| |done].
    intros u s3 (Ht & Hu & Hpn & Ed & Et & Eout). wp_step. split; [done|unfold kept_or_created; by rewrite Ed, E2|congruence|].
    exists r, p. split; [done|]. by rewrite Eout, E4. }
  destruct (Z.eqb_spec r 0) as [->|Hne].
  - destruct (Hq1 eq_refl) as [q Hq]. eapply wp_mono; [by apply (Hm s1 q)| |done].
    intros r2 s2 [(E1 & E2 & E3 & E4) E5]. eapply Hend; [done..|]. rewrite <-Ep, Hq. cbn. split; [by rewrite <-Eo|done].
  - wp_step. eapply Hend; [done..|]. unfold exit_status. rewrite (proj2 (Z.eqb_neq r 0)) by done. by destruct (pc_parser p).
Qed.

(** C31 (functional): the commands that print.  The list of shares has the name of
    every group of the file but those spelled exactly [global] and [IPC$]; the configuration, and one
    section of it, every group with all its keys and values; and a section that
    is not there is an error.  Nothing of it is printed when the files cannot
    be loaded; a configuration that is missing may be created, empty, and no
    other file is touched, nothing is signalled, and nothing is left in
    memory. *)
Theorem printing_commands live name s :
  files_fit (files_of s) → ready (sl_process s) →
  let group q := pr_groups q !! shm_casefold_share_name name in
  wp (cmd_share_list group_order session_order set_conf_contents gen_subauth host_named mechs_set_up pool_created PATH_PWDDB PATH_SMBCONF opts live []) s
    (λ r s', ∃ z, r = Some z ∧
       viewed (λ q, concat ((λ x, if listed x.2 then [g_name x.2] else []) <$> group_order (pr_groups q))) (λ _, EXIT_SUCCESS) s z s')
    (λ _ _, False) ∧
  wp (cmd_config_show group_order session_order set_conf_contents gen_subauth host_named mechs_set_up pool_created kv_keys PATH_PWDDB PATH_SMBCONF opts []) s
    (viewed (λ q, concat ((λ x, group_lines x.2 ++ [[]]) <$> group_order (pr_groups q))) (λ _, EXIT_SUCCESS) s) (λ _ _, False) ∧
  wp (show_section group_order session_order set_conf_contents gen_subauth host_named mechs_set_up pool_created kv_keys PATH_PWDDB PATH_SMBCONF opts name) s
    (viewed (λ q, from_option group_lines [] (group q)) (λ q, if group q then EXIT_SUCCESS else EXIT_FAILURE) s) (λ _ _, False).
Proof.
  intros Hf Hr group. split_and!.
  1: { unfold cmd_share_list. wp_step. eapply wp_mono; [apply (view_wp _
    (λ q, concat ((λ x, if listed x.2 then [g_name x.2] else []) <$> group_order (pr_groups q))) (λ _, EXIT_SUCCESS)); try done| |done].
    2: { intros z s' Hv. wp_step. by exists z. }
    intros s1 q Hq. do 2 wp_step. unfold groups_of. rewrite Hq. wp_step.
    eapply wp_mono; [apply (print_each_wp _ (λ x, if listed x.2 then [g_name x.2] else []))| |done].
    - intros x s2. apply list_share_wp.
    - intros u s2 H2'. by wp_step. }
  all: apply view_wp; try done; intros s1 q Hq; do 2 wp_step.
  - unfold groups_of. rewrite Hq. wp_step. eapply wp_mono; [apply (print_each_wp _ (λ x, group_lines x.2 ++ [[]]))| |done].
    { intros x s2. unfold __show_config_group_cb. wp_step. eapply wp_mono; [apply show_group_wp| |done]. intros u s3 H3'.
      eapply wp_mono; [apply print_line_wp| |done]. intros v s4 H4'. exact (printed_app _ _ _ _ _ H3' H4'). }
    intros u s2 H2'. by wp_step.
  - unfold find_group. rewrite Hq. cbn [mbind option_bind]. fold (group q). destruct (group q) as [g|]; cbn [from_option].
    + wp_step. eapply wp_mono; [apply show_group_wp| |done]. intros u s2 H2'. by wp_step.
    + wp_step. split; [apply printed_nil|done].
Qed.
End Editing.

(** ** Starting the daemon *)

(** The option behind [start] is never looked at: the scan of [mountd_main] goes
    on at the index where the scan of the global options has ended, in a vector
    that begins behind the command. *)
Theorem start_option_lost `{GLib, System, Allocator, Ptls, Libnl, Netlink, Machine} group_order session_order set_conf_contents gen_subauth
    host_named mechs_set_up pool_created (g_list_sort : ∀ T : Type, (T → bytes) → list T → list T) g_list_insert_sorted kv_keys write_ok
    prompt g_convert g_base64_encode g_utf8_find_prev_char terminal stack verase PATH_PWDDB PATH_SMBCONF version log st live a s :
  let main := ksmbdctl_main group_order session_order set_conf_contents gen_subauth host_named mechs_set_up pool_created
    g_list_sort g_list_insert_sorted kv_keys write_ok prompt g_convert g_base64_encode g_utf8_find_prev_char terminal stack verase
    PATH_PWDDB PATH_SMBCONF version log st live in
  main [str "start"; a] s = main [str "start"] s.
Proof. reflexivity. Qed.

(** ** A small machine *)
Definition toy_shell : shell :=
  mk_shell toy_ctl (λ q, if decide (q = str "/etc/conf") then fl_smbconf (toy_files "media") else fl_pwddb (toy_files "media")).
Definition toy_options : global_options := mk_options (Some (str "/etc/conf")) None (mk_log PR_INFO PR_LOGGER_STDIO false).
Abbreviation toy_load := (load_config (H:=toy_glib) (H0:=total_system) (H1:=plenty) (H2:=toy_ptls) (H4:=toy_netlink) map_to_list ADDSHARE (λ _, 0) [1; 2; 3]
  true true true (toy_files "media") toy_process).
Abbreviation toy_edit c name options :=
  (edit (H:=toy_glib) (H0:=total_system) (H1:=plenty) (H2:=toy_ptls) (H4:=toy_netlink) (H5:=toy_machine) map_to_list map_to_list (λ _, 0) [1; 2; 3] true true true
     (str "/etc/pwd") (str "/etc/ksmbd.conf") toy_options ADDSHARE
     (run_share (str "/etc/ksmbd.conf") toy_options
        (share_command_of (H:=toy_glib) map_to_list (@any_sort) any_insert table_keys true (λ o _, inr o) c name options))).
Lemma toy_plain r p q :
  toy_load = Done r p → pc_parser p = Some q → ∀ k g, pr_groups q !! k = Some g → plain_kv (g_kv g).
Proof.
  assert (match toy_load with
    | Done r p => match pc_parser p with
                  | Some q => bool_decide (map_Forall (λ _ g, map_Forall (λ _ x, plain_key x.1 = true) (g_kv g)) (pr_groups q))
                  | None => true
                  end
    | _ => true
    end = true) as Hc by (vm_compute; reflexivity).
  intros E Hq. rewrite E, Hq in Hc. apply bool_decide_eq_true_1 in Hc. intros k g Hg fk k' v' Hk. exact (Hc k g Hg fk (k', v') Hk).
Qed.
Abbreviation toy_view name :=
  (show_section (H:=toy_glib) (H0:=total_system) (H1:=plenty) (H2:=toy_ptls) (H4:=toy_netlink) map_to_list map_to_list (λ _, 0) [1; 2; 3] true true true
     table_keys (str "/etc/pwd") (str "/etc/ksmbd.conf") toy_options name).
Lemma printing_commands_witness :
  ∃ s, toy_view (str "MEDIA") toy_shell = Done 0 s ∧ hd_error (ct_out (sl_ctl s)) = Some (str "[media]") ∧ ct_sent (sl_ctl s) = [].
Proof.
  assert (match toy_view (str "MEDIA") toy_shell with
    | Done r s => (r =? 0) && bool_decide (hd_error (ct_out (sl_ctl s)) = Some (str "[media]"))
    | _ => false
    end = true) as Hc by (vm_compute; reflexivity).
  destruct (proj2 (printing_commands (H:=toy_glib) (H0:=total_system) (H1:=plenty) (H2:=toy_ptls) (H4:=toy_netlink) (H5:=toy_machine)
    (λ t, reflexivity (map_to_list t)) toy_decode toy_strdown (λ _ Ha, Ha) toy_keys_differ map_to_list map_to_list (λ _, 0) [1; 2; 3]
    true true true (str "/etc/pwd") (str "/etc/ksmbd.conf") toy_options table_keys [] (str "MEDIA") toy_shell toy_files_fit toy_process_ready)) as [_ Hw].
  destruct (toy_view (str "MEDIA") toy_shell) as [r s| |] eqn:E; [|discriminate Hc|discriminate Hc].
  apply andb_true_iff in Hc as [Hr%Z.eqb_eq Hs%bool_decide_eq_true_1]. subst r. exists s. split; [reflexivity|]. split; [exact Hs|].
  pose proof (wp_Done _ _ _ _ _ _ Hw E) as [_ _ Ht _]. exact Ht.
Defined.
