(* ===== verification/Mains.v ===== *)
(** * The programs before [ksmbdctl] ([addshare.c], [adduser.c], [control.c])

    [addshare_main], [adduser_main] and [control_main]: the options of three
    programs that [main] no longer starts, over the same commands as [ksmbdctl].
    Their scans of the options are the first ones of their process, and look for
    options everywhere. *)

From S2P Require Import Prelude ConfText Refcount Users Shares Sessions Config ShareAdmin UserAdmin Logging Getopt Ndr Rpc Srvsvc Quic Ipc Channel Worker Loading Programs Daemon Manager Control Ctl.

(** ** Options *)
Definition char_a : Z := 97.
Definition char_u : Z := 117.
Definition char_d : Z := 100.
Definition common_opts : list opt := [
  mk_opt char_C (str "config") required_argument; mk_opt char_P (str "pwddb") required_argument;
  mk_opt char_v (str "verbose") no_argument; mk_opt char_V (str "version") no_argument; mk_opt char_h (str "help") no_argument].
Definition addshare_opts : list opt := [
  mk_opt char_a (str "add") no_argument; mk_opt char_u (str "update") no_argument; mk_opt char_d (str "delete") no_argument;
  mk_opt char_o (str "option") required_argument] ++ common_opts.
Definition adduser_opts : list opt := [
  mk_opt char_a (str "add") no_argument; mk_opt char_d (str "delete") no_argument; mk_opt char_u (str "update") no_argument;
  mk_opt char_p (str "password") required_argument] ++ common_opts.
Definition control_opts : list opt := [
  mk_opt 115 (str "shutdown") no_argument; mk_opt 114 (str "reload") no_argument; mk_opt 108 (str "list") no_argument;
  mk_opt char_d (str "debug") required_argument; mk_opt 99 (str "ksmbd-version") no_argument; mk_opt 83 (str "status") no_argument;
  mk_opt 102 (str "features") no_argument; mk_opt char_v (str "verbose") no_argument; mk_opt char_V (str "version") no_argument;
  mk_opt char_h (str "help") no_argument].
(** What the loops over the options leave: the command [C], the texts of [-o] or
    [-p], and the global options *)
Record main_options (C : Type) := mk_main { mo_command : option C; mo_texts : list bytes; mo_global : global_options }.
Arguments mk_main {C}.
Arguments mo_command {C}.
Arguments mo_texts {C}.
Arguments mo_global {C}.
Section Loop.
Context {C : Type}.
(** The commands of [a], [u] and [d], and the option that takes a text *)
Variable add update delete : C.
Variable text_char : Z.
(** The settings; or the value of [ret] at [out], with whether the version is
    printed *)
Fixpoint main_loop (l : list (Z * option bytes)) (o : main_options C) : main_options C + Z * bool :=
  let g := mo_global o in
  match l with
  | [] => inl o
  | (c, v) :: l =>
      if c =? char_a then main_loop l (mk_main (Some add) (mo_texts o) g)
      else if c =? char_u then main_loop l (mk_main (Some update) (mo_texts o) g)
      else if c =? char_d then main_loop l (mk_main (Some delete) (mo_texts o) g)
      else if c =? text_char then main_loop l (mk_main (mo_command o) (mo_texts o ++ [default [] v]) g)
      else if c =? char_C then main_loop l (mk_main (mo_command o) (mo_texts o) (mk_options v (go_pwddb g) (go_log g)))
      else if c =? char_P then main_loop l (mk_main (mo_command o) (mo_texts o) (mk_options (go_smbconf g) v (go_log g)))
      else if c =? char_v then
        main_loop l (mk_main (mo_command o) (mo_texts o) (mk_options (go_smbconf g) (go_pwddb g) (set_log_level PR_DEBUG (go_log g)).2))
      else if c =? char_V then inr (0, true)
      else if c =? char_h then inr (0, false)
      else inr (- EINVAL, false)
  end.
End Loop.

Section Mains.
Context `{GLib, System, Allocator, Ptls, Libnl, Netlink, Machine}.
Variable group_order : gmap bytes smbconf_group → list (bytes * smbconf_group).
Variable session_order : gmap Z Z → list (Z * Z).
Variable set_conf_contents : bytes → Z.
Variable gen_subauth : list Z.
Variable host_named mechs_set_up pool_created : bool.
Variable g_list_sort : ∀ {T : Type}, (T → bytes) → list T → list T.
Variable g_list_insert_sorted : list bytes → bytes → list bytes.
Variable kv_keys : kvs → list bytes.
Variable write_ok : bool.
Variable prompt_options_stdin : list bytes → bool → Z + list bytes.
Variable g_convert : Z → Z → bytes → option bytes.
Variable g_base64_encode : bytes → bytes.
Variable g_utf8_find_prev_char : bytes → option nat.
Variable terminal stack : bytes.
Variable verase : Z.
Variable PATH_PWDDB PATH_SMBCONF : bytes.
Variable version : bytes.
Variable log : log_state.
Abbreviation edit_with opts := (edit group_order session_order set_conf_contents gen_subauth host_named mechs_set_up pool_created PATH_PWDDB PATH_SMBCONF opts).
Abbreviation share_command_with := (share_command_of group_order (@g_list_sort) g_list_insert_sorted kv_keys write_ok prompt_options_stdin).
Abbreviation user_command_with := (user_command_of g_list_insert_sorted write_ok g_convert g_base64_encode g_utf8_find_prev_char terminal stack verase).

(** [out]: everything is removed, whether it was loaded or not. *)
Definition out (tool : tool_main) (r : Z) (version_asked : bool) : prog shell Z :=
  (if version_asked then show_version version else ret tt) ;;
  unload session_order tool ;;
  ret (exit_status r).
Definition addshare_main (args : list bytes) : prog shell Z :=
  let '(l, rest) := getopt_permute addshare_opts args in
  match main_loop AddShare UpdateShare DeleteShare char_o l (mk_main None [] (mk_options None None log)) with
  | inr (r, v) => out ADDSHARE r v
  | inl o =>
      match rest with
      | [name] =>
          if negb (shm_share_name name) then out ADDSHARE (- EINVAL) false
          else edit_with (mo_global o) ADDSHARE
                 (run_share PATH_SMBCONF (mo_global o) (share_command_with (default SetShare (mo_command o)) name (mo_texts o)))
      | _ => out ADDSHARE (- EINVAL) false
      end
  end.
Definition adduser_main (args : list bytes) : prog shell Z :=
  let '(l, rest) := getopt_permute adduser_opts args in
  match main_loop AddUser UpdateUser DeleteUser char_p l (mk_main None [] (mk_options None None log)) with
  | inr (r, v) => out ADDUSER r v
  | inl o =>
      match rest with
      | [name] =>
          if negb (usm_user_name g_utf8_validate name) then out ADDUSER (- EINVAL) false
          else edit_with (mo_global o) ADDUSER
                 (run_user PATH_PWDDB (mo_global o) (user_command_with (mo_command o) name (last (mo_texts o))))
      | _ => out ADDUSER (- EINVAL) false
      end
  end.
(** The first option that asks for something decides. *)
Fixpoint control_loop (live : list list_event) (l : list (Z * option bytes)) : prog shell (option Z) :=
  let some (m : prog shell Z) : prog shell (option Z) := r <- m ;; ret (Some r) in
  match l with
  | [] => ret (Some EXIT_FAILURE)
  | (c, v) :: l =>
      if c =? 115 then some cmd_stop
      else if c =? 114 then some cmd_reload
      else if c =? 108 then r <- in_ctl (control_list 0 0 0 0 live) ;; ret (exit_status <$> r)
      else if c =? char_d then some (r <- in_ctl (control_debug (default [] v)) ;; ret (exit_status r))
      else if c =? 99 then some (r <- in_ctl control_show_version ;; ret (exit_status r))
      else if c =? 83 then some cmd_status
      else if c =? 102 then
        some (cmd_features group_order session_order set_conf_contents gen_subauth host_named mechs_set_up pool_created
                PATH_PWDDB PATH_SMBCONF (mk_options None None log))
      else if c =? char_v then control_loop live l
      else if c =? char_V then show_version version ;; ret (Some EXIT_SUCCESS)
      else if c =? char_h then ret (Some EXIT_SUCCESS)
      else ret (Some EXIT_FAILURE)
  end.
Definition control_main (live : list list_event) (args : list bytes) : prog shell (option Z) :=
  control_loop live (getopt_permute control_opts args).1.

(** ** The same commands *)
Definition option_args (texts : list bytes) : list bytes := concat ((λ o, [str "-o"; o]) <$> texts).
Lemma option_args_cons o texts rest : option_args (o :: texts) ++ rest = str "-o" :: o :: option_args texts ++ rest.
Proof. done. Qed.
Lemma length_option_args texts name : length (option_args texts ++ [name]) = (2 * length texts + 1)%nat.
Proof. induction texts as [|o texts IH]; [done|]. rewrite option_args_cons. cbn [length]. rewrite IH. lia. Qed.
Lemma short_text opts o rest :
  op_arg <$> find_char opts char_o = Some required_argument → short_options opts [char_o] (o :: rest) = ([(char_o, Some o)], rest).
Proof. intros Ho. cbn [short_options]. by rewrite Ho. Qed.
Lemma scan_all_flag opts n c rest :
  op_arg <$> find_char opts c = Some no_argument → c ≠ 45 →
  scan_all opts (S n) ([45; c] :: rest) = (let '(l, rest) := scan_all opts n rest in ((c, None) :: l, rest)).
Proof.
  intros Ho Hc. cbn [scan_all shape_of]. change (negb (45 =? 45)) with false. cbv iota. rewrite (proj2 (Z.eqb_neq _ _) Hc).
  cbn [short_options]. rewrite Ho. by destruct (scan_all opts n rest).
Qed.
Definition texts_scanned (texts : list bytes) : list (Z * option bytes) := (λ o, (char_o, Some o)) <$> texts.
Lemma scan_option_args n texts name :
  shape_of name = Word → (2 * length texts + 1 < n)%nat →
  scan share_mod_opts n (option_args texts ++ [name]) = (texts_scanned texts, [name]) ∧
  scan_all addshare_opts n (option_args texts ++ [name]) = (texts_scanned texts, [name]).
Proof.
  intros Hn. revert n. induction texts as [|o texts IH]; intros n Hl; destruct n as [|n]; cbn [length] in Hl; try lia.
  - cbn. rewrite Hn. by destruct n.
  - rewrite option_args_cons. cbn [scan scan_all]. change (shape_of (str "-o")) with (ShortOptions [char_o]). cbv iota beta.
    rewrite !short_text by reflexivity. by destruct (IH n ltac:(lia)) as [-> ->].
Qed.
Lemma texts_loop texts o :
  main_loop AddShare UpdateShare DeleteShare char_o (texts_scanned texts) o =
  inl (mk_main (mo_command o) (mo_texts o ++ texts) (mo_global o)).
Proof.
  revert o. induction texts as [|x texts IH]; intros o; cbn [texts_scanned fmap list_fmap main_loop].
  - rewrite app_nil_r. by destruct o.
  - fold (texts_scanned texts). change (main_loop AddShare UpdateShare DeleteShare char_o (texts_scanned texts)
      (mk_main (mo_command o) (mo_texts o ++ [x]) (mo_global o)) = inl (mk_main (mo_command o) (mo_texts o ++ x :: texts) (mo_global o))).
    rewrite IH. cbn. by rewrite <-app_assoc.
Qed.
Lemma texts_values texts : option_values char_o (texts_scanned texts) = texts ∧ refused (texts_scanned texts) = false.
Proof.
  induction texts as [|x texts [IH1 IH2]]; [done|]. split; [|exact IH2].
  change (option_values char_o (texts_scanned (x :: texts))) with (x :: option_values char_o (texts_scanned texts)). by rewrite IH1.
Qed.
(** The option that stands for a command *)
Definition flag_of (c : share_command) : list bytes :=
  match c with AddShare => [str "-a"] | UpdateShare => [str "-u"] | SetShare => [] | DeleteShare => [str "-d"] end.
Definition command_name (c : share_command) : bytes :=
  match c with AddShare => str "add" | UpdateShare => str "update" | SetShare => str "set" | DeleteShare => str "delete" end.
Lemma addshare_parsed c texts name :
  shape_of name = Word →
  getopt_permute addshare_opts (flag_of c ++ option_args texts ++ [name]) =
  ((match c with AddShare => [(char_a, None)] | UpdateShare => [(char_u, None)] | SetShare => [] | DeleteShare => [(char_d, None)] end)
     ++ texts_scanned texts, [name]).
Proof.
  intros Hn. unfold getopt_permute.
  assert (∀ n, (length (option_args texts ++ [name]) < n)%nat →
    scan_all addshare_opts n (option_args texts ++ [name]) = (texts_scanned texts, [name])) as Hs.
  { intros n Hl. rewrite length_option_args in Hl. by apply scan_option_args. }
  destruct c; cbn [flag_of app];
    [change (str "-a") with [45; char_a]|by apply Hs; lia|change (str "-u") with [45; char_u]|change (str "-d") with [45; char_d]];
    rewrite scan_all_flag by done; rewrite Hs by (cbn [length]; lia); done.
Qed.
(** With the default files, the old program and the command of [ksmbdctl] do the
    same: for each option of a command, and any options of the share. *)
Theorem addshare_is_ksmbdctl c texts name live s :
  shape_of name = Word → shm_share_name name = true → c ≠ DeleteShare →
  (r <- addshare_main (flag_of c ++ option_args texts ++ [name]) ;; ret (Some r)) s =
  cmd_share group_order session_order set_conf_contents gen_subauth host_named mechs_set_up pool_created (@g_list_sort) g_list_insert_sorted
    kv_keys write_ok prompt_options_stdin PATH_PWDDB PATH_SMBCONF (mk_options None None log) live
    (command_name c :: option_args texts ++ [name]) s.
Proof.
  intros Hw Hn Hd. unfold addshare_main. rewrite addshare_parsed by done.
  assert (main_loop AddShare UpdateShare DeleteShare char_o
    ((match c with AddShare => [(char_a, None)] | UpdateShare => [(char_u, None)] | SetShare => [] | DeleteShare => [(char_d, None)] end)
       ++ texts_scanned texts) (mk_main None [] (mk_options None None log)) =
    inl (mk_main (match c with SetShare => None | c => Some c end) texts (mk_options None None log))) as ->.
  { destruct c; try done; apply texts_loop. }
  rewrite Hn. cbn [negb mo_global mo_texts mo_command].
  assert (cmd_share_edit group_order session_order set_conf_contents gen_subauth host_named mechs_set_up pool_created (@g_list_sort) g_list_insert_sorted
    kv_keys write_ok prompt_options_stdin PATH_PWDDB PATH_SMBCONF (mk_options None None log) c (option_args texts ++ [name]) =
    edit_with (mk_options None None log) ADDSHARE (run_share PATH_SMBCONF (mk_options None None log) (share_command_with c name texts))) as E.
  { unfold cmd_share_edit, getopt_long. destruct (option_args texts ++ [name]) as [|a args] eqn:Ea; [by destruct (option_args texts)|].
    rewrite <-Ea. destruct (scan_option_args (S (length (option_args texts ++ [name]))) texts name) as [-> _];
      [done|rewrite length_option_args; lia|].
    destruct (texts_values texts) as [-> ->]. by rewrite Hn. }
  destruct c; [| | |done]; unfold cmd_share; cbn [command_name]; rewrite E; done.
Qed.
End Mains.
